(* ===== verification/_CoqProject ===== *)
-Q . S2P
Prelude.v
Pmm.v
Page.v
Vmm.v
VmmWalk.v
VmmMap.v
VmmProps.v
VmmCow.v
VmmFree.v
Heap.v
HeapInv.v
HeapProps.v
HeapSpec.v
Console.v
ConsoleProps.v
ConsoleSpec.v
ConsoleBounds.v
Keyboard.v
Serial.v
Terminal.v
Kprintf.v
KprintfProps.v
Alloc.v
Kthread.v
KthreadProps.v
KthreadMem.v
KthreadInv.v
KthreadRun.v
Sync.v
SyncProps.v
Ext2.v
Ext2Props.v
Ext2Spec.v
UserMem.v
Vfs.v
Process.v
MemSys.v
MemSysProps.v
Gdt.v
Fault.v
FaultProps.v
UserBytes.v
MemWitness.v
ProcSys.v
ProcList.v
ProcFiles.v
ProcInv.v
ProcSteps.v
ProcMake.v
Syscall.v
ProcCalls.v
ProcWait.v
ProcSpec.v
FileStream.v
Elf.v
ElfProps.v
ElfSpec.v
ElfStack.v
ElfWitness.v
Acpi.v
AcpiProps.v
AcpiInit.v
Ioapic.v
Apic.v
AcpiWitness.v
GdtProps.v
Asm.v
Stubs.v
StubProps.v
StubIsr.v
StubSys.v
StubMode.v
Matrix.v
KshellTests.v
Kshell.v
KshellSpec.v
KshellRefine.v
Kinit.v
KinitSpec.v
