(* ===== verification/Prelude.v ===== *)
(** * SeedOS: a verification library for the kernel

    SeedOS is a small x86-64 kernel in C with a few hundred lines of assembly:
    it boots from Limine, manages physical pages, page tables and a heap,
    schedules kernel threads on one processor, drives a framebuffer console,
    a keyboard, a serial port, the interval timer and the interrupt
    controllers, mounts an ext2 ram disk, and runs ELF programs as processes
    with fork, copy-on-write memory and a dozen system calls.  This library
    translates that code into Rocq functions and proves what each part
    promises to the parts above it.  File names in brackets are paths under
    [src/].

    ** Conventions

    Machine integers are [Z] with their wrap-around written out ([u8] to
    [u64], [s8] to [s64], complement at 64 bits as [~64]).  Byte memory is a
    finite map [gmap Z Z] that reads 0 where nothing was written ([rd], [wr],
    and [load], [store] for little-endian words).  C structures that the code
    reaches through pointers are either bytes at their offsets (page tables,
    heap blocks, ELF and ext2 structures, descriptor tables, firmware tables)
    or records in a map from pointer to record (threads, processes, open
    files); NULL is 0.  A loop is a [Fixpoint] on the bound the code has, or
    on fuel; a theorem that a loop ends gives the fuel that is enough, from
    the length of the data it walks over (list and table sizes, path length,
    directory size, polls of a timer), and the fuel of the main entry points
    is an argument that the theorem shows to suffice from some value on.
    Halting and blocking for ever are outcomes of their own ([Halted],
    [Stays], [Hangs], [None] where the comment says so).  Device registers
    and interrupts are explicit: a driver is a function on the state of its
    device, and what an interrupt may do while code waits is an argument.

    This file has the integer and memory notions, the loop combinators
    [for_loop] and [for_until] with their induction principles, the tactics,
    the hint databases and the error numbers of [kernel/syscall_table.h].

    ** Memory

    - [Pmm] ([mm/pmm.c]): the page bitmap; it refines a set of free frames,
      and initialisation frees exactly the usable memory of the boot map.
    - [Page] ([mm/page.c]): reference counts of pages.
    - [Vmm] ([mm/vmm.c]): four-level page tables in byte memory.  [VmmWalk]
      has the theory of walks, [VmmMap] the mapping operations with their
      error paths, [VmmProps] isolation of address spaces and the user range
      checks, [VmmCow] creation and the copy-on-write copy, [VmmFree] release.
    - [Heap] ([mm/heap.c]): block headers and the free list in byte memory;
      [HeapInv], [HeapProps] and [HeapSpec] prove that every call simulates an
      abstract heap of live blocks with contents, for every page source
      (class [PageSource]).  [Alloc] states what its clients rely on as the
      class [Allocator], with the heap as instance; threads, processes, open
      files and the start of init are proved against the class.
    - [UserMem], [UserBytes], [MemSys], [MemSysProps], [MemWitness]: user pages
      and the calls mmap, munmap and brk of [arch/x86/kernel/syscall.c].
    - [Fault], [FaultProps] ([arch/x86/kernel/idt.c]): interrupt dispatch and
      the copy-on-write fault.

    ** Threads and synchronisation

    - [Kthread] ([kernel/kthread.c], the timer handler of
      [arch/x86/kernel/apic.c]): [KthreadProps] shows that the scheduler is
      round robin, [KthreadMem] and [KthreadInv] that threads own their
      memory, [KthreadRun] what holds in every run, and that a ready thread
      runs.
    - [Sync], [SyncProps] ([kernel/sync.c]): spinlocks, mutexes and condition
      variables as a step relation over interleavings.

    ** Processes and system calls

    - [Process] ([kernel/process.c]), [Vfs] ([fs/vfs.c] and the file operations
      in [tty_dev.c] and [syscall.c]), [ProcSys] and [Syscall]
      ([arch/x86/kernel/syscall.c]).
    - [ProcList], [ProcFiles], [ProcInv] state the invariant: the process
      tree, one owner for every heap block, reference counts equal to the
      descriptors that refer to a file.  [ProcSteps], [ProcMake], [ProcCalls],
      [ProcWait] show that every operation keeps it; [ProcSpec] has the
      theorems on runs, fork, exit and wait4, and a concrete machine.
    - [FileStream]: what a program gets that opens a file and reads it in
      pieces.
    - [Elf] ([kernel/elf.c]), [ElfProps], [ElfSpec], [ElfStack], [ElfWitness]:
      validation, the image of a program and its first stack.
    - [Kinit], [KinitSpec] ([kernel/kinit.c]): the start of the first process,
      from the disk to the first instruction in user mode; it composes the
      file system, heap, page tables, processes, loader and entry stub.

    ** File system

    - [Ext2], [Ext2Props], [Ext2Spec] ([fs/ext2.c]): block tree, path lookup
      and reads against the contents of the disk.

    ** Processor and interrupt hardware

    - [Asm], [Stubs], [StubProps], [StubIsr], [StubSys], [StubMode] ([isr.S],
      [syscall_entry.S], [usermode.S], [kthread_switch.S], [percpu.c]): the
      assembly as instruction lists run by a model of the processor;
      interrupts do not disturb the interrupted code, system calls return to
      their caller, a switched thread resumes.
    - [Gdt], [GdtProps] ([gdt.c], [gdt_asm.S], the gates of [idt.c]): the
      tables as the processor decodes them.
    - [Acpi], [AcpiProps], [AcpiInit], [AcpiWitness] ([acpi.c]); [Ioapic]
      ([ioapic.c]), refined to a table of pins; [Apic] ([apic.c]): the timer
      and its calibration against models of the devices.

    ** Console, shell and demo

    - [Console], [ConsoleProps], [ConsoleSpec], [ConsoleBounds]
      ([drivers/tty/console.c]); [Terminal], [Serial], [Keyboard]; [Kprintf],
      [KprintfProps] ([kernel/kprintf.c], [include/seedos/log.h]).
    - [Kshell], [KshellSpec], [KshellRefine], [KshellTests]
      ([kernel/kshell.c]): the shell refines an editor over lists; its thread
      tests keep their counts for every lock with the promises of [Monitor].
    - [Matrix] ([demos/matrix.c]): the columns do not disturb each other.

    ** Limits of the model

    One processor.  The page tables and the physical pages behind them are one
    byte memory ([k_mem]); memory as the kernel and a running program address
    it through the tables ([d_mem]) is another, and the two meet in [user_byte]
    and in the range checks that guard every access.  The heap keeps its
    blocks in a memory of its own.  Text that is only logged is not recorded.

    ** Not modelled

    - [arch/x86/boot/boot.S], [limine_asm.S], [init/main.c]: the first
      instructions, which set the stack and call C, and the sequence of
      initialisation calls, whose order is visible in the hypotheses of the
      theorems (free pages before mapping, mapping before drivers).
    - [arch/x86/boot/limine.c] but for its modules: accessors of fields the
      boot loader fills in; they are arguments of [pmm_init], [acpi_init] and
      [console_init].
    - [arch/x86/kernel/fpu.c]: two control registers and the instructions
      fxsave and fxrstor, which no other code of the kernel calls.
    - [arch/x86/kernel/cpu.h], [asm/io.h]: one-instruction wrappers, modelled
      at each use by the effect of the instruction.
    - [lib/logo.c], [lib/sysinfo.c]: text on the screen without a contract.
    - [userspace/]: test programs that run outside the kernel.  *)
From Stdlib Require Export ZArith Lia Bool.
From stdpp Require Export base option list gmap fin_maps numbers.

Declare Scope c_scope.
Delimit Scope c_scope with C.
Local Open Scope Z_scope.

(** ** Machine integers

    A C integer is a [Z]; the conversions write the wrap-around out. *)

Definition wrap (w x : Z) : Z := x mod 2 ^ w.

Definition u8 (x : Z) : Z := wrap 8 x.

Definition u16 (x : Z) : Z := wrap 16 x.

Definition u32 (x : Z) : Z := wrap 32 x.

Definition u64 (x : Z) : Z := wrap 64 x.

(** Two's complement reading of the low [w] bits of [x]. *)
Definition swrap (w x : Z) : Z := (x + 2 ^ (w - 1)) mod 2 ^ w - 2 ^ (w - 1).

Definition s8 (x : Z) : Z := swrap 8 x.

Definition s32 (x : Z) : Z := swrap 32 x.

Definition s64 (x : Z) : Z := swrap 64 x.

(** C truth value of [x & m]. *)
Definition tst (x m : Z) : bool := negb (Z.land x m =? 0).

Notation "~64 x" := (u64 (Z.lnot x)) (at level 35, right associativity) : c_scope.
Open Scope c_scope.

(** ** Outcomes of code that may call [log_panic]

    [log_panic] ends in [kpanic_halt], which never returns. *)

Inductive outcome (A : Type) : Type :=
| Done (a : A)
| Halted.
Arguments Done {A} _.
Arguments Halted {A}.

(** ** Loops

    [for_loop n i f s] runs the body [f] for the indices [i], [i+1], ...,
    [i+n-1]; [for_until] is the same loop with an early [return]. *)

Fixpoint for_loop {S : Type} (n : nat) (i : Z) (f : Z → S → S) (s : S) : S :=
  match n with
  | O => s
  | Datatypes.S n' => for_loop n' (i + 1) f (f i s)
  end.

Fixpoint for_until {S R : Type} (n : nat) (i : Z) (f : Z → S → S + R) (s : S) : S + R :=
  match n with
  | O => inl s
  | Datatypes.S n' =>
      match f i s with
      | inl s' => for_until n' (i + 1) f s'
      | inr r => inr r
      end
  end.

(** ** Flat memory: a finite map with the unwritten cells reading as zero *)

Definition rd (m : gmap Z Z) (a : Z) : Z := default 0 (m !! a).

Definition wr (m : gmap Z Z) (a v : Z) : gmap Z Z := <[a := v]> m.

(** Little-endian words of [n] bytes. *)
Fixpoint load (n : nat) (m : gmap Z Z) (a : Z) : Z :=
  match n with
  | O => 0
  | S n' => rd m a + 256 * load n' m (a + 1)
  end.

Fixpoint store (n : nat) (m : gmap Z Z) (a v : Z) : gmap Z Z :=
  match n with
  | O => m
  | S n' => store n' (wr m a (v mod 256)) (a + 1) (v / 256)
  end.

(** ** Tactics *)

(** Turn the boolean comparisons of a translated guard into propositions. *)
Ltac bool_props :=
  repeat match goal with
  | H : (_ && _) = true |- _ => apply andb_true_iff in H; destruct H
  | H : (_ || _) = false |- _ => apply orb_false_iff in H; destruct H
  | H : negb _ = true |- _ => apply negb_true_iff in H
  | H : negb _ = false |- _ => apply negb_false_iff in H
  | H : (_ <? _) = true |- _ => apply Z.ltb_lt in H
  | H : (_ <? _) = false |- _ => apply Z.ltb_ge in H
  | H : (_ <=? _) = true |- _ => apply Z.leb_le in H
  | H : (_ <=? _) = false |- _ => apply Z.leb_gt in H
  | H : (_ =? _) = true |- _ => apply Z.eqb_eq in H
  | H : (_ =? _) = false |- _ => apply Z.eqb_neq in H
  end.

(** Case analysis on the first [if] of the goal. *)
Ltac case_if :=
  match goal with
  | |- context [if ?b then _ else _] =>
      lazymatch b with
      | context [if _ then _ else _] => fail
      | _ => let E := fresh "E" in destruct b eqn:E; bool_props
      end
  end.

(** Division and remainder by constants as linear constraints. *)
Ltac zdm := Z.div_mod_to_equations; lia.

Create HintDb seedos discriminated.
Create Rewrite HintDb seedos_rw.

(** ** Arithmetic of the conversions *)

Lemma wrap_small w x : 0 ≤ x < 2 ^ w → wrap w x = x.
Proof. intros. by apply Z.mod_small. Qed.

Lemma wrap_bound w x : 0 ≤ w → 0 ≤ wrap w x < 2 ^ w.
Proof. intros. apply Z.mod_pos_bound. by apply Z.pow_pos_nonneg. Qed.

Lemma u8_small x : 0 ≤ x < 256 → u8 x = x.
Proof. intros. apply wrap_small. lia. Qed.

Lemma u16_small x : 0 ≤ x < 65536 → u16 x = x.
Proof. intros. apply wrap_small. lia. Qed.

Lemma u32_small x : 0 ≤ x < 4294967296 → u32 x = x.
Proof. intros. apply wrap_small. lia. Qed.

Lemma u64_small x : 0 ≤ x < 18446744073709551616 → u64 x = x.
Proof. intros. apply wrap_small. lia. Qed.

Lemma u8_bound x : 0 ≤ u8 x < 256.
Proof. apply (wrap_bound 8). lia. Qed.

Lemma u16_bound x : 0 ≤ u16 x < 65536.
Proof. apply (wrap_bound 16). lia. Qed.

Lemma u32_bound x : 0 ≤ u32 x < 4294967296.
Proof. apply (wrap_bound 32). lia. Qed.

Lemma u64_bound x : 0 ≤ u64 x < 18446744073709551616.
Proof. apply (wrap_bound 64). lia. Qed.

Lemma u64_add_wrap x k :
  0 ≤ x < 18446744073709551616 → 0 ≤ k < 18446744073709551616 →
  u64 (x + k) = if x + k <? 18446744073709551616 then x + k
                else x + k - 18446744073709551616.
Proof.
  intros. unfold u64, wrap. change (2 ^ 64) with 18446744073709551616.
  case_if; zdm.
Qed.

Lemma swrap_small w x : 0 < w → - 2 ^ (w - 1) ≤ x < 2 ^ (w - 1) → swrap w x = x.
Proof.
  intros Hw Hx. unfold swrap.
  assert (2 ^ w = 2 * 2 ^ (w - 1)) by (rewrite <- Z.pow_succ_r by lia; f_equal; lia).
  rewrite Z.mod_small by lia. lia.
Qed.

Lemma s64_small z : - 2 ^ 63 ≤ z < 2 ^ 63 → s64 z = z.
Proof. intros. apply swrap_small; lia. Qed.

Lemma s32_signed z : - 2 ^ 31 ≤ z < 2 ^ 31 → s32 z = z.
Proof. intros. apply swrap_small; lia. Qed.

Lemma s32_small z : 0 ≤ z < 2 ^ 31 → s32 z = z.
Proof. intros. apply swrap_small; lia. Qed.

(** ** Bit tests *)

Lemma land_pow2_testbit x k : 0 ≤ k → Z.land x (2 ^ k) = if Z.testbit x k then 2 ^ k else 0.
Proof.
  intros Hk. apply Z.bits_inj'. intros n Hn.
  rewrite Z.land_spec, Z.pow2_bits_eqb by done.
  destruct (Z.eqb_spec k n) as [->|Hne].
  - rewrite andb_true_r. destruct (Z.testbit x n) eqn:E; [|by rewrite Z.bits_0].
    by rewrite Z.pow2_bits_true.
  - rewrite andb_false_r. destruct (Z.testbit x k); [|by rewrite Z.bits_0].
    by rewrite Z.pow2_bits_false.
Qed.

Lemma tst_pow2 x k : 0 ≤ k → tst x (2 ^ k) = Z.testbit x k.
Proof.
  intros Hk. unfold tst. rewrite land_pow2_testbit by done.
  assert (0 < 2 ^ k) by (by apply Z.pow_pos_nonneg).
  destruct (Z.testbit x k).
  - assert ((2 ^ k =? 0) = false) as -> by (apply Z.eqb_neq; lia). done.
  - done.
Qed.

Lemma land_bound_l x y b : 0 ≤ b → 0 ≤ x < 2 ^ b → 0 ≤ Z.land x y < 2 ^ b.
Proof.
  intros Hb Hx. split; [apply Z.land_nonneg; lia|].
  assert (Z.land x y = Z.land x y mod 2 ^ b) as ->.
  { rewrite <- Z.land_ones by done. apply Z.bits_inj'. intros n Hn.
    rewrite !Z.land_spec, Z.testbit_ones_nonneg by done.
    destruct (Z.ltb_spec n b); [by rewrite andb_true_r|].
    rewrite <- (Z.mod_small x (2 ^ b)) by done.
    rewrite Z.mod_pow2_bits_high by lia. done. }
  apply Z.mod_pos_bound. by apply Z.pow_pos_nonneg.
Qed.

Lemma small_testbit b n i : 0 ≤ b < 2 ^ n → n ≤ i → Z.testbit b i = false.
Proof.
  intros Hb Hi. destruct (decide (b = 0)) as [->|]; [apply Z.testbit_0_l|].
  destruct (decide (n < 0)); [rewrite Z.pow_neg_r in Hb by done; lia|].
  apply Z.bits_above_log2; [lia|]. apply Z.log2_lt_pow2; [lia|]. apply (Z.lt_le_trans _ (2 ^ n)); [lia|]. apply Z.pow_le_mono_r; lia.
Qed.

(** Putting two fields together. *)
Lemma lor_shiftl_add a b n : 0 ≤ n → 0 ≤ b < 2 ^ n → Z.lor (Z.shiftl a n) b = a * 2 ^ n + b.
Proof.
  intros Hn Hb. rewrite <- Z.shiftl_mul_pow2 by done.
  assert (Z.land (Z.shiftl a n) b = 0) as H.
  { apply Z.bits_inj'. intros i Hi. rewrite Z.land_spec, Z.bits_0. destruct (decide (i < n)).
    - by rewrite Z.shiftl_spec_low.
    - rewrite (small_testbit b n i) by (done || lia). apply andb_false_r. }
  rewrite <- Z.lxor_lor by done. symmetry. by apply Z.add_nocarry_lxor.
Qed.

(** Clearing low bits rounds down. *)
Lemma land_not_ones x k :
  0 ≤ k ≤ 64 → 0 ≤ x < 2 ^ 64 → Z.land x (~64 (Z.ones k)) = x / 2 ^ k * 2 ^ k.
Proof.
  intros Hk Hx. apply Z.bits_inj'. intros n Hn.
  rewrite <- Z.shiftl_mul_pow2, <- Z.shiftr_div_pow2 by lia.
  rewrite Z.land_spec, Z.shiftl_spec by done. unfold u64, wrap.
  destruct (decide (n < 64)).
  - rewrite Z.mod_pow2_bits_low, Z.lnot_spec, Z.testbit_ones_nonneg by lia.
    destruct (Z.ltb_spec n k); simpl.
    + rewrite andb_false_r. symmetry. apply Z.testbit_neg_r. lia.
    + rewrite andb_true_r, Z.shiftr_spec by lia. f_equal. lia.
  - rewrite Z.mod_pow2_bits_high, andb_false_r by lia. rewrite Z.shiftr_spec by lia.
    rewrite <- (Z.mod_small x (2 ^ 64)), Z.mod_pow2_bits_high by lia. done.
Qed.

Lemma tst_odd x : tst x 1 = Z.odd x.
Proof. rewrite <- Z.bit0_odd. apply (tst_pow2 x 0). lia. Qed.

Lemma u64_idemp_add x y : u64 (u64 x + y) = u64 (x + y).
Proof. apply Zplus_mod_idemp_l. Qed.

Lemma u64_idemp_sub x y : u64 (u64 x - y) = u64 (x - y).
Proof. apply Zminus_mod_idemp_l. Qed.

Lemma lor_bound x y b : 0 ≤ b → 0 ≤ x < 2 ^ b → 0 ≤ y < 2 ^ b → 0 ≤ Z.lor x y < 2 ^ b.
Proof.
  intros Hb Hx Hy. split; [apply Z.lor_nonneg; lia|].
  destruct (decide (Z.lor x y = 0)) as [->|Hnz]; [by apply Z.pow_pos_nonneg|].
  apply Z.log2_lt_pow2. { assert (0 ≤ Z.lor x y) by (apply Z.lor_nonneg; lia). lia. }
  rewrite Z.log2_lor by lia. apply Z.max_lub_lt.
  - destruct (decide (x = 0)) as [->|]; [|apply Z.log2_lt_pow2; lia].
    destruct (decide (y = 0)) as [->|]; [by rewrite Z.lor_0_l in Hnz|].
    assert (0 < b) by (destruct (decide (b = 0)) as [->|]; simpl in *; lia). done.
  - destruct (decide (y = 0)) as [->|]; [|apply Z.log2_lt_pow2; lia].
    destruct (decide (x = 0)) as [->|]; [by rewrite Z.lor_0_r in Hnz|].
    assert (0 < b) by (destruct (decide (b = 0)) as [->|]; simpl in *; lia). done.
Qed.

(** ** Flat memory *)

Lemma rd_wr_eq m a v : rd (wr m a v) a = v.
Proof. unfold rd, wr. by rewrite lookup_insert_eq. Qed.

Lemma rd_wr_ne m a b v : a ≠ b → rd (wr m a v) b = rd m b.
Proof. intros. unfold rd, wr. by rewrite lookup_insert_ne. Qed.

Lemma rd_wr m a b v : rd (wr m a v) b = if decide (a = b) then v else rd m b.
Proof. case_decide; subst; [apply rd_wr_eq|by apply rd_wr_ne]. Qed.

#[export] Hint Rewrite rd_wr_eq : seedos_rw.

(** ** Words in flat memory *)

Lemma store_frame n m a v x : x < a ∨ a + Z.of_nat n ≤ x → rd (store n m a v) x = rd m x.
Proof.
  revert m a v. induction n as [|n IH]; intros m a v Hx; [done|]. cbn [store].
  rewrite IH by lia. apply rd_wr_ne. lia.
Qed.

Lemma load_ext n m m' a :
  (∀ x, a ≤ x < a + Z.of_nat n → rd m' x = rd m x) → load n m' a = load n m a.
Proof.
  revert a. induction n as [|n IH]; intros a H; [done|]. cbn [load].
  rewrite (H a) by lia. rewrite IH; [done|]. intros x Hx. apply H. lia.
Qed.

Lemma load_store_eq n m a v : 0 ≤ v < 256 ^ Z.of_nat n → load n (store n m a v) a = v.
Proof.
  revert m a v. induction n as [|n IH]; intros m a v Hv.
  - simpl in Hv. simpl. lia.
  - cbn [load store]. rewrite store_frame by lia. rewrite rd_wr_eq.
    rewrite Nat2Z.inj_succ, Z.pow_succ_r in Hv by lia.
    rewrite IH; [pose proof (Z.div_mod v 256); lia|].
    split; [apply Z.div_pos; lia|apply Z.div_lt_upper_bound; lia].
Qed.

Lemma load_store_ne n k m a b v :
  b + Z.of_nat n ≤ a ∨ a + Z.of_nat k ≤ b → load n (store k m a v) b = load n m b.
Proof. intros H. apply load_ext. intros x Hx. apply store_frame. lia. Qed.

Lemma load_wr_ne n m a b v : a < b ∨ b + Z.of_nat n ≤ a → load n (wr m a v) b = load n m b.
Proof. intros H. apply load_ext. intros x Hx. apply rd_wr_ne. lia. Qed.

(** ** Loop rules *)

Lemma for_loop_ind {S : Type} (P : Z → S → Prop) n i f (s : S) :
  P i s →
  (∀ j t, i ≤ j < i + Z.of_nat n → P j t → P (j + 1) (f j t)) →
  P (i + Z.of_nat n) (for_loop n i f s).
Proof.
  revert i s. induction n as [|n IH]; intros i s H0 Hstep.
  - by replace (i + Z.of_nat 0) with i by lia.
  - cbn [for_loop]. replace (i + Z.of_nat (Datatypes.S n)) with (i + 1 + Z.of_nat n) by lia.
    apply IH; [apply Hstep; [lia|done]|].
    intros j t Hj. apply Hstep. lia.
Qed.

Lemma for_loop_ind0 {S : Type} (P : Z → S → Prop) n f (s : S) :
  P 0 s → (∀ j t, 0 ≤ j < Z.of_nat n → P j t → P (j + 1) (f j t)) →
  P (Z.of_nat n) (for_loop n 0 f s).
Proof. intros H0 Hstep. apply (for_loop_ind P n 0); [done|exact Hstep]. Qed.

Lemma for_until_ind {S R : Type} (P : Z → S → Prop) (Q : R → Prop) n i f (s : S) :
  P i s →
  (∀ j t, i ≤ j < i + Z.of_nat n → P j t →
     match f j t with inl t' => P (j + 1) t' | inr r => Q r end) →
  match for_until n i f s with
  | inl t => P (i + Z.of_nat n) t
  | inr r => Q r
  end.
Proof.
  revert i s. induction n as [|n IH]; intros i s H0 Hstep.
  - cbn [for_until]. by replace (i + Z.of_nat 0) with i by lia.
  - cbn [for_until]. pose proof (Hstep i s ltac:(lia) H0) as Hi.
    destruct (f i s) as [t|r]; [|done].
    replace (i + Z.of_nat (Datatypes.S n)) with (i + 1 + Z.of_nat n) by lia.
    apply IH; [done|]. intros j t' Hj. apply Hstep. lia.
Qed.

Lemma for_until_S {S R : Type} n i (f : Z → S → S + R) (s : S) :
  for_until (Datatypes.S n) i f s = match f i s with inl s' => for_until n (i + 1) f s' | inr r => inr r end.
Proof. done. Qed.

(** A loop that only checks: it runs to the end exactly when no step returns. *)
Lemma for_until_check n i (f : Z → unit → unit + bool) :
  (∀ j, f j tt = inl tt ∨ f j tt = inr false) →
  match for_until n i f tt with inl _ => true | inr b => b end = true ↔
  ∀ j, i ≤ j < i + Z.of_nat n → f j tt = inl tt.
Proof.
  intros Hf. revert i. induction n as [|n IH]; intros i; cbn [for_until]; [split; [lia|done]|].
  destruct (Hf i) as [E|E]; rewrite E.
  - rewrite IH. split; intros H j Hj; [|apply H; lia].
    destruct (decide (j = i)) as [->|]; [done|apply H; lia].
  - split; [done|]. intros H. rewrite H in E by lia. done.
Qed.

(** Keep proofs from computing with loops and machine words. *)
Arguments for_loop : simpl never.
Arguments for_until : simpl never.
Arguments wrap : simpl never.
Arguments swrap : simpl never.
Arguments rd : simpl never.
Arguments load : simpl never.
Arguments store : simpl never.
Arguments wr : simpl never.
Arguments tst : simpl never.

(** ** Error numbers ([kernel/syscall_table.h])

    Kernel functions return them negated. *)
Definition ENOENT : Z := 2.
Definition ESRCH : Z := 3.
Definition EIO : Z := 5.
Definition ENOEXEC : Z := 8.
Definition EBADF : Z := 9.
Definition ECHILD : Z := 10.
Definition ENOMEM : Z := 12.
Definition EFAULT : Z := 14.
Definition EISDIR : Z := 21.
Definition EINVAL : Z := 22.
Definition EMFILE : Z := 24.
Definition ESPIPE : Z := 29.
Definition EROFS : Z := 30.
Definition ENAMETOOLONG : Z := 36.
Definition ENOSYS : Z := 38.
