(* ===== verification/Pmm.v ===== *)
(** * Physical memory manager ([mm/pmm.c], [mm/pmm.h])

    The bitmap allocator for 4 KiB pages: one bit per page, 1 = used.  The
    module variables of [pmm.c] are the record [pmm]; the bytes of the bitmap
    are a flat memory indexed from the [bitmap] pointer.  The abstract view of
    the allocator is [free_set], the set of page numbers whose bit is clear. *)
From S2P Require Import Prelude.
Local Open Scope Z_scope.

Definition PAGE_SIZE : Z := 4096.

Definition PMM_ALLOC_FAILED : Z := 0.

Definition LIMINE_MEMMAP_USABLE : Z := 0.

(** [struct limine_memmap_entry] *)
Record memmap_entry := MemmapEntry {
  e_base : Z;
  e_length : Z;
  e_type : Z;
}.

(** The static variables of [pmm.c]; [bitmap_phys] is the physical address
    behind the [bitmap] pointer, [bitmap] the bytes found from there on. *)
Record pmm := Pmm {
  g_hhdm_offset : Z;
  bitmap_phys : Z;
  bitmap : gmap Z Z;
  bitmap_size : Z;
  total_pages : Z;
  free_pages : Z;
  usable_pages : Z;
}.

Definition set_bitmap (b : gmap Z Z) (p : pmm) : pmm :=
  Pmm (g_hhdm_offset p) (bitmap_phys p) b (bitmap_size p) (total_pages p)
      (free_pages p) (usable_pages p).

Definition set_free_pages (n : Z) (p : pmm) : pmm :=
  Pmm (g_hhdm_offset p) (bitmap_phys p) (bitmap p) (bitmap_size p) (total_pages p)
      n (usable_pages p).

(** ** Bit operations *)

Definition bitmap_mark_used (page_index : Z) (p : pmm) : pmm :=
  let b := rd (bitmap p) (page_index / 8) in
  set_bitmap (wr (bitmap p) (page_index / 8)
                 (u8 (Z.lor b (Z.shiftl 1 (page_index mod 8))))) p.

Definition bitmap_mark_free (page_index : Z) (p : pmm) : pmm :=
  let b := rd (bitmap p) (page_index / 8) in
  set_bitmap (wr (bitmap p) (page_index / 8)
                 (u8 (Z.land b (Z.lnot (Z.shiftl 1 (page_index mod 8)))))) p.

Definition bitmap_is_used (page_index : Z) (p : pmm) : bool :=
  tst (rd (bitmap p) (page_index / 8)) (Z.shiftl 1 (page_index mod 8)).

(** ** Initialisation *)

(** First loop of [pmm_init]: the highest end of a usable entry. *)
Definition highest_addr (es : list memmap_entry) : Z :=
  foldl (λ highest e,
    let entry_end := u64 (e_base e + e_length e) in
    if (highest <? entry_end) && (e_type e =? LIMINE_MEMMAP_USABLE)
    then entry_end else highest) 0 es.

(** Second loop: total usable RAM in pages. *)
Definition count_usable (es : list memmap_entry) : Z :=
  foldl (λ n e,
    if e_type e =? LIMINE_MEMMAP_USABLE then u64 (n + e_length e / PAGE_SIZE) else n) 0 es.

(** Third loop: the first usable entry with room for the bitmap. *)
Fixpoint find_bitmap_space (bitmap_pages : Z) (es : list memmap_entry) : option Z :=
  match es with
  | [] => None
  | e :: es' =>
      if negb (e_type e =? LIMINE_MEMMAP_USABLE) then find_bitmap_space bitmap_pages es'
      else if u64 (bitmap_pages * PAGE_SIZE) <=? e_length e then Some (e_base e)
      else find_bitmap_space bitmap_pages es'
  end.

(** One page of the "mark usable regions as free" loop. *)
Definition init_free_page (page : Z) (p : pmm) : pmm :=
  let p := bitmap_mark_free page p in
  set_free_pages (u64 (free_pages p + 1)) p.

Definition init_free_entry (p : pmm) (e : memmap_entry) : pmm :=
  if negb (e_type e =? LIMINE_MEMMAP_USABLE) then p
  else
    let base_page := e_base e / PAGE_SIZE in
    let page_count := e_length e / PAGE_SIZE in
    for_loop (Z.to_nat page_count) 0 (λ i, init_free_page (base_page + i)) p.

(** Reserve one page if it is still free. *)
Definition init_reserve_page (idx : Z) (p : pmm) : pmm :=
  if negb (bitmap_is_used idx p) then
    let p := bitmap_mark_used idx p in
    set_free_pages (u64 (free_pages p - 1)) p
  else p.

(** The sizes computed by [pmm_init] from the highest address. *)
Definition init_total (es : list memmap_entry) : Z :=
  u64 (highest_addr es + PAGE_SIZE - 1) / PAGE_SIZE.

Definition init_bsize (es : list memmap_entry) : Z := u64 (init_total es + 7) / 8.

Definition init_bpages (es : list memmap_entry) : Z :=
  u64 (init_bsize es + PAGE_SIZE - 1) / PAGE_SIZE.

(** [stale] is whatever the memory chosen for the bitmap held before. *)
Definition pmm_init (memmap : list memmap_entry) (hhdm_offset : Z) (stale : gmap Z Z)
    : outcome pmm :=
  let total := init_total memmap in
  let bsize := init_bsize memmap in
  let usable := count_usable memmap in
  let bpages := init_bpages memmap in
  match find_bitmap_space bpages memmap with
  | None => Halted
  | Some bphys =>
      let p := Pmm hhdm_offset bphys stale bsize total 0 usable in
      let p := for_loop (Z.to_nat bsize) 0
                 (λ i p, set_bitmap (wr (bitmap p) i 255) p) p in
      let p := foldl init_free_entry p memmap in
      let p := for_loop (Z.to_nat bpages) 0
                 (λ i, init_reserve_page (bphys / PAGE_SIZE + i)) p in
      Done (init_reserve_page 0 p)
  end.

(** ** Allocation *)

(** The scan of [pmm_alloc] from page [i] with [n] pages left to look at. *)
Fixpoint alloc_scan (n : nat) (i : Z) (p : pmm) : Z * pmm :=
  match n with
  | O => (PMM_ALLOC_FAILED, p)
  | S n' =>
      if negb (bitmap_is_used i p) then
        let p := bitmap_mark_used i p in
        let p := set_free_pages (u64 (free_pages p - 1)) p in
        (u64 (i * PAGE_SIZE), p)
      else alloc_scan n' (i + 1) p
  end.

Definition pmm_alloc (p : pmm) : Z * pmm :=
  alloc_scan (Z.to_nat (total_pages p - 1)) 1 p.

Definition pmm_free (phys_addr : Z) (p : pmm) : pmm :=
  if tst phys_addr (PAGE_SIZE - 1) then p
  else
    let page_index := phys_addr / PAGE_SIZE in
    if total_pages p <=? page_index then p
    else if negb (bitmap_is_used page_index p) then p
    else
      let p := bitmap_mark_free page_index p in
      set_free_pages (u64 (free_pages p + 1)) p.

Definition pmm_get_free_pages (p : pmm) : Z := free_pages p.

Definition pmm_get_total_pages (p : pmm) : Z := total_pages p.

Definition pmm_get_usable_pages (p : pmm) : Z := usable_pages p.

(** [phys_to_virt] and [virt_to_phys] of [mm/memory.h]. *)
Definition phys_to_virt (p : pmm) (phys : Z) : Z := u64 (phys + g_hhdm_offset p).

Definition virt_to_phys (p : pmm) (virt : Z) : Z := u64 (virt - g_hhdm_offset p).

(** ** Abstract view and invariant *)

Definition free_set (p : pmm) : gset Z :=
  list_to_set (filter (λ i, bitmap_is_used i p = false) (seqZ 0 (total_pages p))).

Record pmm_wf (p : pmm) : Prop := {
  wf_bytes : ∀ j, 0 ≤ rd (bitmap p) j < 256;
  wf_total : 0 ≤ total_pages p ≤ 2 ^ 52;
  wf_bsize : bitmap_size p = (total_pages p + 7) / 8;
  wf_count : free_pages p = Z.of_nat (size (free_set p));
}.

Lemma elem_of_free_set i p :
  i ∈ free_set p ↔ 0 ≤ i < total_pages p ∧ bitmap_is_used i p = false.
Proof.
  unfold free_set. rewrite elem_of_list_to_set, list_elem_of_filter, elem_of_seqZ.
  intuition lia.
Qed.

(** A page's bit is one bit of one byte. *)
Lemma bitmap_is_used_testbit i p :
  bitmap_is_used i p = Z.testbit (rd (bitmap p) (i / 8)) (i mod 8).
Proof.
  unfold bitmap_is_used. rewrite Z.shiftl_1_l. apply tst_pow2.
  apply Z.mod_pos_bound. lia.
Qed.

Lemma byte_testbit_high b k : 0 ≤ b < 256 → 8 ≤ k → Z.testbit b k = false.
Proof.
  intros Hb Hk. rewrite <- (Z.mod_small b (2 ^ 8)) by lia.
  apply Z.mod_pow2_bits_high. lia.
Qed.

(** Writing a byte that agrees with the old one except at bit [i mod 8]
    changes the bit of page [i] and no other. *)
Lemma bitmap_set_bit i j v b p :
  (∀ k, 0 ≤ k < 8 → Z.testbit b k = if decide (k = i mod 8) then v
                                   else Z.testbit (rd (bitmap p) (i / 8)) k) →
  bitmap_is_used j (set_bitmap (wr (bitmap p) (i / 8) b) p) =
  if decide (i = j) then v else bitmap_is_used j p.
Proof.
  intros Hb. rewrite !bitmap_is_used_testbit. simpl.
  pose proof (Z.mod_pos_bound j 8 ltac:(lia)).
  rewrite rd_wr. case_decide as Hq.
  - rewrite Hb by done. case_decide; case_decide; subst; try done.
    + exfalso. pose proof (Z.div_mod i 8). pose proof (Z.div_mod j 8). lia.
    + by rewrite Hq.
  - case_decide; [by subst|done].
Qed.

Lemma bitmap_is_used_mark_used i j p :
  bitmap_is_used j (bitmap_mark_used i p) =
  if decide (i = j) then true else bitmap_is_used j p.
Proof.
  apply bitmap_set_bit. intros k Hk. unfold u8, wrap.
  rewrite Z.mod_pow2_bits_low, Z.lor_spec, Z.shiftl_1_l by lia.
  pose proof (Z.mod_pos_bound i 8 ltac:(lia)).
  rewrite Z.pow2_bits_eqb by lia. case_decide.
  - subst. by rewrite Z.eqb_refl, orb_true_r.
  - destruct (Z.eqb_spec (i mod 8) k); [lia|]. apply orb_false_r.
Qed.

Lemma bitmap_is_used_mark_free i j p :
  bitmap_is_used j (bitmap_mark_free i p) =
  if decide (i = j) then false else bitmap_is_used j p.
Proof.
  apply bitmap_set_bit. intros k Hk. unfold u8, wrap.
  rewrite Z.mod_pow2_bits_low, Z.land_spec, Z.lnot_spec, Z.shiftl_1_l by lia.
  pose proof (Z.mod_pos_bound i 8 ltac:(lia)).
  rewrite Z.pow2_bits_eqb by lia. case_decide.
  - subst. by rewrite Z.eqb_refl, andb_false_r.
  - destruct (Z.eqb_spec (i mod 8) k); [lia|]. apply andb_true_r.
Qed.

Lemma is_used_set_free_pages n i p :
  bitmap_is_used i (set_free_pages n p) = bitmap_is_used i p.
Proof. done. Qed.

(** The effect of the bit operations on the abstract view. *)
Lemma free_set_mark_used i p : free_set (bitmap_mark_used i p) = free_set p ∖ {[i]}.
Proof.
  apply set_eq. intros j.
  rewrite elem_of_difference, elem_of_singleton, !elem_of_free_set, bitmap_is_used_mark_used.
  simpl. case_decide; naive_solver.
Qed.

Lemma free_set_mark_free i p :
  0 ≤ i < total_pages p → free_set (bitmap_mark_free i p) = {[i]} ∪ free_set p.
Proof.
  intros. apply set_eq. intros j.
  rewrite elem_of_union, elem_of_singleton, !elem_of_free_set, bitmap_is_used_mark_free.
  simpl. case_decide; naive_solver.
Qed.

Lemma free_set_set_free_pages n p : free_set (set_free_pages n p) = free_set p.
Proof. done. Qed.

Lemma free_set_size p : 0 ≤ total_pages p → Z.of_nat (size (free_set p)) ≤ total_pages p.
Proof.
  intros Ht. etransitivity.
  - apply inj_le. apply (subseteq_size _ (list_to_set (seqZ 0 (total_pages p)) : gset Z)).
    intros i. rewrite elem_of_free_set, elem_of_list_to_set, elem_of_seqZ. lia.
  - rewrite size_list_to_set by apply NoDup_seqZ. rewrite length_seqZ. lia.
Qed.

Lemma mark_bytes i b p :
  (∀ j, 0 ≤ rd (bitmap p) j < 256) → 0 ≤ b < 256 →
  ∀ j, 0 ≤ rd (bitmap (set_bitmap (wr (bitmap p) i b) p)) j < 256.
Proof. intros H Hb j. simpl. rewrite rd_wr. case_decide; [done|apply H]. Qed.

(** Taking a free page and giving back a used one, with the counter. *)
Definition take_page (i : Z) (p : pmm) : pmm :=
  set_free_pages (u64 (free_pages p - 1)) (bitmap_mark_used i p).

Definition give_page (i : Z) (p : pmm) : pmm :=
  set_free_pages (u64 (free_pages p + 1)) (bitmap_mark_free i p).

Lemma take_page_free_set i p : free_set (take_page i p) = free_set p ∖ {[i]}.
Proof. apply free_set_mark_used. Qed.

Lemma give_page_free_set i p :
  0 ≤ i < total_pages p → free_set (give_page i p) = {[i]} ∪ free_set p.
Proof. apply free_set_mark_free. Qed.

Lemma take_page_wf i p : pmm_wf p → i ∈ free_set p → pmm_wf (take_page i p).
Proof.
  intros [Hb Ht Hs Hc] Hi. split; try done.
  - apply mark_bytes; [done|apply u8_bound].
  - rewrite take_page_free_set. simpl.
    pose proof (free_set_size p ltac:(lia)).
    rewrite size_difference by set_solver. rewrite size_singleton.
    assert (0 < size (free_set p))%nat by
      (apply Nat.neq_0_lt_0; intros E%size_empty_inv; set_solver).
    rewrite Hc, u64_small by lia. lia.
Qed.

Lemma give_page_wf i p :
  pmm_wf p → 0 ≤ i < total_pages p → i ∉ free_set p → pmm_wf (give_page i p).
Proof.
  intros [Hb Ht Hs Hc] Hi Hn. split; try done.
  - apply mark_bytes; [done|apply u8_bound].
  - rewrite give_page_free_set by done. simpl.
    pose proof (free_set_size p ltac:(lia)).
    rewrite size_union, size_singleton by set_solver.
    rewrite Hc, u64_small by lia. lia.
Qed.

#[export] Hint Resolve take_page_wf give_page_wf : seedos.
#[export] Hint Rewrite take_page_free_set : seedos_rw.

(** ** Allocation *)

Lemma alloc_scan_spec n i p :
  ((∀ j, i ≤ j < i + Z.of_nat n → bitmap_is_used j p = true) ∧
   alloc_scan n i p = (PMM_ALLOC_FAILED, p)) ∨
  (∃ k, i ≤ k < i + Z.of_nat n ∧ bitmap_is_used k p = false ∧
        (∀ j, i ≤ j < k → bitmap_is_used j p = true) ∧
        alloc_scan n i p = (u64 (k * PAGE_SIZE), take_page k p)).
Proof.
  revert i. induction n as [|n IH]; intros i; simpl; [left; split; [lia|done]|].
  destruct (bitmap_is_used i p) eqn:E; simpl.
  - destruct (IH (i + 1)) as [[Hall ->]|(k & Hk & Hf & Hall & ->)].
    + left. split; [|done]. intros j Hj.
      destruct (decide (j = i)) as [->|]; [done|apply Hall; lia].
    + right. exists k. split_and!; [lia|lia|done| |done].
      intros j Hj. destruct (decide (j = i)) as [->|]; [done|apply Hall; lia].
  - right. exists i. split_and!; [lia|lia|done|lia|done].
Qed.

Lemma pmm_alloc_cases p :
  pmm_wf p →
  (free_set p ⊆ {[0]} ∧ pmm_alloc p = (PMM_ALLOC_FAILED, p)) ∨
  (∃ k, k ∈ free_set p ∧ 0 < k ∧ (∀ j, j ∈ free_set p → 0 < j → k ≤ j) ∧
        pmm_alloc p = (k * PAGE_SIZE, take_page k p)).
Proof.
  intros [_ Ht _ _]. unfold pmm_alloc.
  destruct (alloc_scan_spec (Z.to_nat (total_pages p - 1)) 1 p)
    as [[Hall ->]|(k & Hk & Hf & Hall & ->)].
  - left. split; [|done]. intros j [Hj Hu]%elem_of_free_set.
    destruct (decide (j = 0)) as [->|]; [set_solver|].
    rewrite Hall in Hu by lia. done.
  - right. exists k. split_and!; [apply elem_of_free_set; split; [lia|done]|lia| |].
    + intros j [Hj Hu]%elem_of_free_set Hpos.
      destruct (decide (j < k)); [|lia]. rewrite Hall in Hu by lia. done.
    + unfold PAGE_SIZE. rewrite u64_small by lia. done.
Qed.

Lemma land_page_mask a : Z.land a (PAGE_SIZE - 1) = a mod PAGE_SIZE.
Proof. apply (Z.land_ones a 12). lia. Qed.

Lemma tst_page_mask a : tst a (PAGE_SIZE - 1) = negb ((a mod PAGE_SIZE) =? 0).
Proof. unfold tst. by rewrite land_page_mask. Qed.

(** [pmm_free] gives the page back exactly when the address is aligned, in
    range and its page is marked used. *)
Lemma pmm_free_cases a p :
  0 ≤ a →
  (a mod PAGE_SIZE = 0 ∧ a / PAGE_SIZE < total_pages p ∧ ((a / PAGE_SIZE) ∉ free_set p) ∧
   pmm_free a p = give_page (a / PAGE_SIZE) p) ∨
  ((a mod PAGE_SIZE ≠ 0 ∨ total_pages p ≤ a / PAGE_SIZE ∨ (a / PAGE_SIZE) ∈ free_set p) ∧
   pmm_free a p = p).
Proof.
  intros Ha. unfold pmm_free. rewrite tst_page_mask, elem_of_free_set.
  assert (0 ≤ a / PAGE_SIZE) by (apply Z.div_pos; unfold PAGE_SIZE; lia).
  case_if; [right; split; [by left|done]|].
  case_if; [right; split; [by right; left|done]|].
  case_if; [right; split; [right; right; split; [lia|done]|done]|].
  left. split_and!; [done|lia| |done]. intros [_ Hu]. congruence.
Qed.

Lemma pmm_alloc_wf p : pmm_wf p → pmm_wf (pmm_alloc p).2.
Proof.
  intros H. destruct (pmm_alloc_cases p H) as [[_ ->]|(k & Hk & _ & _ & ->)];
    simpl; eauto with seedos.
Qed.

Lemma pmm_free_wf a p : 0 ≤ a → pmm_wf p → pmm_wf (pmm_free a p).
Proof.
  intros Ha H. destruct (pmm_free_cases a p Ha) as [(_ & Hr & Hn & ->)|[_ ->]]; [|done].
  apply give_page_wf; [done| |done]. split; [|lia].
  apply Z.div_pos; unfold PAGE_SIZE; lia.
Qed.

Lemma pmm_alloc_total p : total_pages (pmm_alloc p).2 = total_pages p.
Proof.
  unfold pmm_alloc. destruct (alloc_scan_spec (Z.to_nat (total_pages p - 1)) 1 p)
    as [[_ ->]|(k & _ & _ & _ & ->)]; done.
Qed.

Lemma pmm_free_total a p : total_pages (pmm_free a p) = total_pages p.
Proof. unfold pmm_free. by repeat case_match. Qed.

#[export] Hint Resolve pmm_alloc_wf pmm_free_wf : seedos.
#[export] Hint Rewrite pmm_alloc_total pmm_free_total : seedos_rw.

(** ** Abstract allocator

    What the rest of the kernel may assume of the page allocator: a set of
    free page numbers out of [n], allocation takes the lowest one other than
    page 0, a misaligned, foreign or already free page is ignored. *)

Inductive frame_op :=
| OpAlloc
| OpFree (a : Z).

Inductive frame_step (n : Z) : gset Z → frame_op → Z → gset Z → Prop :=
| step_alloc F k :
    k ∈ F → 0 < k → (∀ j, j ∈ F → 0 < j → k ≤ j) →
    frame_step n F OpAlloc (k * PAGE_SIZE) (F ∖ {[k]})
| step_alloc_fail F :
    F ⊆ {[0]} → frame_step n F OpAlloc PMM_ALLOC_FAILED F
| step_free F k :
    0 ≤ k < n → k ∉ F → frame_step n F (OpFree (k * PAGE_SIZE)) 0 ({[k]} ∪ F)
| step_free_ignored F a :
    a mod PAGE_SIZE ≠ 0 ∨ n ≤ a / PAGE_SIZE ∨ (a / PAGE_SIZE) ∈ F →
    frame_step n F (OpFree a) 0 F.

Inductive frame_trace (n : Z) : gset Z → list frame_op → list Z → gset Z → Prop :=
| trace_nil F : frame_trace n F [] [] F
| trace_cons F o r F' os rs F'' :
    frame_step n F o r F' → frame_trace n F' os rs F'' →
    frame_trace n F (o :: os) (r :: rs) F''.

Definition pmm_exec (o : frame_op) (p : pmm) : Z * pmm :=
  match o with
  | OpAlloc => pmm_alloc p
  | OpFree a => (0, pmm_free a p)
  end.

Fixpoint pmm_run (os : list frame_op) (p : pmm) : list Z * pmm :=
  match os with
  | [] => ([], p)
  | o :: os' =>
      let '(r, p1) := pmm_exec o p in
      let '(rs, p2) := pmm_run os' p1 in (r :: rs, p2)
  end.

Definition op_ok (o : frame_op) : Prop :=
  match o with OpAlloc => True | OpFree a => 0 ≤ a end.

Lemma pmm_exec_step o p :
  pmm_wf p → op_ok o →
  frame_step (total_pages p) (free_set p) o (pmm_exec o p).1 (free_set (pmm_exec o p).2) ∧
  pmm_wf (pmm_exec o p).2 ∧ total_pages (pmm_exec o p).2 = total_pages p.
Proof.
  intros Hwf Ho. destruct o as [|a]; simpl.
  - split_and!; [|by apply pmm_alloc_wf|apply pmm_alloc_total].
    destruct (pmm_alloc_cases p Hwf) as [[Hs ->]|(k & Hk & Hpos & Hmin & ->)]; simpl.
    + by constructor.
    + rewrite take_page_free_set. by constructor.
  - split_and!; [|by apply pmm_free_wf|apply pmm_free_total].
    destruct (pmm_free_cases a p Ho) as [(Hal & Hr & Hn & ->)|[Hc ->]].
    + assert (0 ≤ a / PAGE_SIZE) by (apply Z.div_pos; unfold PAGE_SIZE; simpl in Ho; lia).
      rewrite give_page_free_set by lia.
      replace a with (a / PAGE_SIZE * PAGE_SIZE) at 1 by (unfold PAGE_SIZE in *; zdm).
      by constructor.
    + by constructor.
Qed.

(** C1 [pmm_refines_frames]: every sequence of [pmm_alloc] and [pmm_free]
    calls on a well-formed allocator is a trace of the abstract allocator on
    the set of free pages, with the same return values, and leaves the
    allocator well formed: the free counter stays exact. *)
Theorem pmm_refines_frames os p :
  pmm_wf p → Forall op_ok os →
  frame_trace (total_pages p) (free_set p) os (pmm_run os p).1 (free_set (pmm_run os p).2)
  ∧ pmm_wf (pmm_run os p).2.
Proof.
  revert p. induction os as [|o os IH]; intros p Hwf Hok; simpl.
  - split; [constructor|done].
  - inversion_clear Hok as [|? ? Ho Hos].
    destruct (pmm_exec_step o p Hwf Ho) as (Hst & Hwf1 & Ht).
    destruct (pmm_exec o p) as [r p1]; simpl in *.
    destruct (IH p1 Hwf1 Hos) as [Htr Hwf2].
    destruct (pmm_run os p1) as [rs p2]; simpl in *.
    split; [|done]. rewrite Ht in Htr. by econstructor.
Qed.

(** A sixteen-page machine with pages 0 and 1 in use. *)
Definition pmm_16 : pmm := Pmm 0 0x1000 (wr ∅ 0 3) 2 16 14 14.

Lemma pmm_16_wf : pmm_wf pmm_16.
Proof.
  split; [|cbn; lia|done|by vm_compute].
  intros j. cbn [bitmap pmm_16]. rewrite rd_wr. case_decide; [lia|].
  unfold rd. rewrite lookup_empty. cbn. lia.
Qed.

(** Allocating twice, freeing the first page twice and a misaligned address,
    then allocating again returns the freed page. *)
Lemma pmm_refines_frames_witness :
  let os := [OpAlloc; OpAlloc; OpFree 0x2000; OpFree 0x2000; OpFree 0x2001; OpAlloc] in
  (pmm_run os pmm_16).1 = [0x2000; 0x3000; 0; 0; 0; 0x2000] ∧
  frame_trace 16 (free_set pmm_16) os [0x2000; 0x3000; 0; 0; 0; 0x2000]
    (free_set (pmm_run os pmm_16).2) ∧
  pmm_wf (pmm_run os pmm_16).2.
Proof.
  split; [by vm_compute|].
  exact (pmm_refines_frames [OpAlloc; OpAlloc; OpFree 0x2000; OpFree 0x2000; OpFree 0x2001;
    OpAlloc] pmm_16 pmm_16_wf
    ltac:(repeat constructor; cbn; lia)).
Defined.

(** ** Initialisation

    What the Limine protocol documents of its memory map: usable entries are
    page aligned, do not overlap, do not wrap; some usable memory exists. *)

Definition usable (e : memmap_entry) : Prop := e_type e = LIMINE_MEMMAP_USABLE.

Definition in_entry (e : memmap_entry) (k : Z) : Prop :=
  e_base e / PAGE_SIZE ≤ k < e_base e / PAGE_SIZE + e_length e / PAGE_SIZE.

Definition usable_page (es : list memmap_entry) (k : Z) : Prop :=
  ∃ e, e ∈ es ∧ usable e ∧ in_entry e k.

Definition entry_ok (e : memmap_entry) : Prop :=
  usable e → 0 ≤ e_base e ∧ 0 ≤ e_length e ∧
             e_base e mod PAGE_SIZE = 0 ∧ e_length e mod PAGE_SIZE = 0 ∧
             e_base e + e_length e ≤ 2 ^ 64 - PAGE_SIZE.

Fixpoint entries_disjoint (es : list memmap_entry) : Prop :=
  match es with
  | [] => True
  | e :: es' =>
      Forall (λ e', usable e → usable e' → ∀ k, in_entry e k → ¬ in_entry e' k) es' ∧
      entries_disjoint es'
  end.

Record memmap_ok (es : list memmap_entry) : Prop := {
  mo_entries : Forall entry_ok es;
  mo_disjoint : entries_disjoint es;
  mo_nonempty : Exists (λ e, usable e ∧ 0 < e_length e) es;
}.

Definition bitmap_pages (p : pmm) : Z := (bitmap_size p + PAGE_SIZE - 1) / PAGE_SIZE.

Lemma highest_addr_ge es h0 :
  0 ≤ h0 ≤ 2 ^ 64 - PAGE_SIZE → Forall entry_ok es →
  let h := foldl (λ highest e,
    let entry_end := u64 (e_base e + e_length e) in
    if (highest <? entry_end) && (e_type e =? LIMINE_MEMMAP_USABLE)
    then entry_end else highest) h0 es in
  h0 ≤ h ≤ 2 ^ 64 - PAGE_SIZE ∧
  ∀ e, e ∈ es → usable e → e_base e + e_length e ≤ h.
Proof.
  revert h0. induction es as [|e es IH]; intros h0 Hh Hok; simpl.
  { split; [lia|]. intros e He. set_solver. }
  inversion_clear Hok as [|? ? He Hes].
  set (h1 := if _ && _ then _ else h0).
  assert (h0 ≤ h1 ≤ 2 ^ 64 - PAGE_SIZE ∧ (usable e → e_base e + e_length e ≤ h1)) as [Hh1 Hu].
  { subst h1. unfold PAGE_SIZE in *. destruct (Z.eqb_spec (e_type e) LIMINE_MEMMAP_USABLE) as [E|E].
    - destruct (He E) as (?&?&?&?&?). unfold PAGE_SIZE in *. rewrite u64_small by lia.
      rewrite andb_true_r. destruct (Z.ltb_spec h0 (e_base e + e_length e)); split; lia.
    - rewrite andb_false_r. split; [lia|]. intros ?. done. }
  destruct (IH h1 ltac:(lia) Hes) as [Hr Hall]. simpl in *.
  split; [lia|]. intros e' [->|He']%elem_of_cons Hus.
  - specialize (Hu Hus). lia.
  - by apply Hall.
Qed.

Lemma find_bitmap_space_spec n es :
  match find_bitmap_space n es with
  | Some b => ∃ e, e ∈ es ∧ usable e ∧ e_base e = b ∧ u64 (n * PAGE_SIZE) ≤ e_length e
  | None => ∀ e, e ∈ es → usable e → e_length e < u64 (n * PAGE_SIZE)
  end.
Proof.
  induction es as [|e es IH]; simpl.
  { intros e He. set_solver. }
  case_if.
  - destruct (find_bitmap_space n es) as [b|].
    + destruct IH as (e' & ? & ?). exists e'. split; [by right|done].
    + intros e' [->|He']%elem_of_cons Hu; [done|by apply IH].
  - case_if.
    + exists e. split_and!; [by left|done|done|lia].
    + destruct (find_bitmap_space n es) as [b|].
      * destruct IH as (e' & ? & ?). exists e'. split; [by right|done].
      * intros e' [->|He']%elem_of_cons Hu; [lia|by apply IH].
Qed.

(** The "mark all pages used" loop. *)
Lemma init_fill_spec p :
  (∀ j, 0 ≤ rd (bitmap p) j < 256) → 0 ≤ total_pages p ≤ 2 ^ 52 →
  bitmap_size p = (total_pages p + 7) / 8 → free_pages p = 0 →
  let p' := for_loop (Z.to_nat (bitmap_size p)) 0
              (λ i p, set_bitmap (wr (bitmap p) i 255) p) p in
  pmm_wf p' ∧ free_set p' = ∅ ∧ total_pages p' = total_pages p ∧
  bitmap_size p' = bitmap_size p ∧ bitmap_phys p' = bitmap_phys p.
Proof.
  intros Hb Ht Hs Hf p'.
  pose proof (for_loop_ind (λ i q,
    (∀ j, 0 ≤ rd (bitmap q) j < 256) ∧ (∀ j, 0 ≤ j < i → rd (bitmap q) j = 255) ∧
    total_pages q = total_pages p ∧ bitmap_size q = bitmap_size p ∧
    bitmap_phys q = bitmap_phys p ∧ free_pages q = 0)
    (Z.to_nat (bitmap_size p)) 0 (λ i q, set_bitmap (wr (bitmap q) i 255) q) p) as Hind.
  fold p' in Hind. destruct Hind as (Hb' & Hfull & Ht' & Hs' & Hp' & Hf').
  { split_and!; try done. lia. }
  { intros j t Hj (? & Hd & ? & ? & ? & ?). split_and!; try done.
    - by apply mark_bytes.
    - intros k Hk. simpl. rewrite rd_wr. case_decide; [done|apply Hd; lia]. }
  rewrite Z2Nat.id in Hfull by (rewrite Hs; apply Z.div_pos; lia).
  assert (free_set p' = ∅) as He.
  { apply set_eq. intros i. rewrite elem_of_free_set, bitmap_is_used_testbit, Ht'.
    split; [|set_solver]. intros [Hi Hbit]. rewrite Hfull in Hbit.
    - rewrite (Z.ones_spec_low 8) in Hbit; [done|]. pose proof (Z.mod_pos_bound i 8). lia.
    - rewrite Hs. zdm. }
  split_and!; try done. split; try done; rewrite ?Ht', ?Hs'; try done.
  by rewrite Hf', He, size_empty.
Qed.

(** One usable entry of the "mark usable regions as free" loop. *)
Lemma init_free_entry_spec p e :
  pmm_wf p → entry_ok e →
  (usable e → e_base e / PAGE_SIZE + e_length e / PAGE_SIZE ≤ total_pages p) →
  (usable e → ∀ k, in_entry e k → k ∉ free_set p) →
  let p' := init_free_entry p e in
  pmm_wf p' ∧ total_pages p' = total_pages p ∧ bitmap_size p' = bitmap_size p ∧
  bitmap_phys p' = bitmap_phys p ∧
  ∀ k, k ∈ free_set p' ↔ k ∈ free_set p ∨ (usable e ∧ in_entry e k).
Proof.
  intros Hwf Hok Hr Hd. unfold init_free_entry. simpl. case_if.
  { split_and!; try done. naive_solver. }
  assert (usable e) as Hu by done. specialize (Hr Hu). specialize (Hd Hu).
  destruct (Hok Hu) as (Hb0 & Hl0 & _ & _ & _).
  assert (0 ≤ e_base e / PAGE_SIZE) by (apply Z.div_pos; unfold PAGE_SIZE; lia).
  assert (0 ≤ e_length e / PAGE_SIZE) by (apply Z.div_pos; unfold PAGE_SIZE; lia).
  set (bp := e_base e / PAGE_SIZE) in *. set (pc := e_length e / PAGE_SIZE) in *.
  pose proof (for_loop_ind (λ i q,
    pmm_wf q ∧ total_pages q = total_pages p ∧ bitmap_size q = bitmap_size p ∧
    bitmap_phys q = bitmap_phys p ∧
    ∀ k, k ∈ free_set q ↔ k ∈ free_set p ∨ bp ≤ k < bp + i)
    (Z.to_nat pc) 0 (λ i, init_free_page (bp + i)) p) as Hind.
  destruct Hind as (H1 & H2 & H3 & H4 & H5).
  { split_and!; try done. intros k. split; [by left|]. intros [?|?]; [done|lia]. }
  { intros j t Hj (Hw & Htt & ? & ? & Hset).
    change (init_free_page (bp + j) t) with (give_page (bp + j) t).
    assert (bp + j ∉ free_set t) as Hn.
    { rewrite Hset. intros [?|?]; [|lia]. apply (Hd (bp + j)); [|done].
      unfold in_entry. fold bp pc. lia. }
    split_and!; try done.
    - apply give_page_wf; [done|lia|done].
    - intros k. rewrite give_page_free_set by lia.
      rewrite elem_of_union, elem_of_singleton, Hset. intuition lia. }
  split_and!; try done. intros k. rewrite H5, Z2Nat.id by lia.
  unfold in_entry. fold bp pc. naive_solver.
Qed.

Lemma init_free_entries_spec es p :
  pmm_wf p → Forall entry_ok es → entries_disjoint es →
  (∀ e, e ∈ es → usable e → e_base e / PAGE_SIZE + e_length e / PAGE_SIZE ≤ total_pages p) →
  (∀ k, usable_page es k → k ∉ free_set p) →
  let p' := foldl init_free_entry p es in
  pmm_wf p' ∧ total_pages p' = total_pages p ∧ bitmap_size p' = bitmap_size p ∧
  bitmap_phys p' = bitmap_phys p ∧
  ∀ k, k ∈ free_set p' ↔ k ∈ free_set p ∨ usable_page es k.
Proof.
  revert p. induction es as [|e es IH]; intros p Hwf Hok Hdis Hr Hn; simpl.
  { split_and!; try done. intros k. split; [by left|].
    intros [?|(e & He & _)]; [done|set_solver]. }
  inversion_clear Hok as [|? ? Hoke Hokes]. destruct Hdis as [Hde Hdis].
  destruct (init_free_entry_spec p e Hwf Hoke) as (Hw & Ht & Hs & Hp & Hset).
  { intros Hu. apply Hr; [by left|done]. }
  { intros Hu k Hk. apply Hn. exists e. split_and!; [by left|done|done]. }
  destruct (IH (init_free_entry p e)) as (Hw' & Ht' & Hs' & Hp' & Hset'); try done.
  { intros e' He' Hu. rewrite Ht. apply Hr; [by right|done]. }
  { intros k (e' & He' & Hu' & Hk'). rewrite Hset. intros [Hf|[Hu Hk]].
    - apply (Hn k); [|done]. exists e'. split_and!; [by right|done|done].
    - rewrite list.Forall_forall in Hde. by apply (Hde e' He' Hu Hu' k). }
  split_and!; try congruence. intros k. rewrite Hset', Hset. split.
  - intros [[?|[??]]|(e' & ? & ?)]; [by left|right; exists e; split_and!; [by left|done|done]|].
    right. exists e'. split; [by right|done].
  - intros [?|(e' & [->|He']%elem_of_cons & ? & ?)]; [by left; left|by left; right|].
    right. by exists e'.
Qed.

Lemma init_reserve_page_spec i p :
  pmm_wf p → 0 ≤ i < total_pages p →
  let p' := init_reserve_page i p in
  pmm_wf p' ∧ total_pages p' = total_pages p ∧ bitmap_size p' = bitmap_size p ∧
  bitmap_phys p' = bitmap_phys p ∧ free_set p' = free_set p ∖ {[i]}.
Proof.
  intros Hwf Hi. unfold init_reserve_page. simpl. case_if.
  - change (set_free_pages _ _) with (take_page i p).
    split_and!; try done; [|apply take_page_free_set].
    apply take_page_wf; [done|]. by apply elem_of_free_set.
  - split_and!; try done. assert (i ∉ free_set p) by (intros [_ ?]%elem_of_free_set; congruence).
    set_solver.
Qed.

Lemma init_reserve_range_spec b n p :
  pmm_wf p → 0 ≤ b → 0 ≤ n → b + n ≤ total_pages p →
  let p' := for_loop (Z.to_nat n) 0 (λ i, init_reserve_page (b + i)) p in
  pmm_wf p' ∧ total_pages p' = total_pages p ∧ bitmap_size p' = bitmap_size p ∧
  bitmap_phys p' = bitmap_phys p ∧
  ∀ k, k ∈ free_set p' ↔ k ∈ free_set p ∧ ¬ (b ≤ k < b + n).
Proof.
  intros Hwf Hb Hn Ht p'.
  pose proof (for_loop_ind (λ i q,
    pmm_wf q ∧ total_pages q = total_pages p ∧ bitmap_size q = bitmap_size p ∧
    bitmap_phys q = bitmap_phys p ∧
    ∀ k, k ∈ free_set q ↔ k ∈ free_set p ∧ ¬ (b ≤ k < b + i))
    (Z.to_nat n) 0 (λ i, init_reserve_page (b + i)) p) as Hind.
  fold p' in Hind. rewrite Z.add_0_l, Z2Nat.id in Hind by done. apply Hind.
  - split_and!; try done. intros k. split; [intros ?; split; [done|lia]|by intros [? ?]].
  - intros j t Hj (Hw & ? & ? & ? & Hset).
    destruct (init_reserve_page_spec (b + j) t Hw) as (? & ? & ? & ? & Hs); [lia|].
    split_and!; try congruence. intros k.
    rewrite Hs, elem_of_difference, elem_of_singleton, Hset. intuition lia.
Qed.

(** The sizes of [pmm_init] do not wrap, and every usable entry is in range. *)
Lemma init_sizes es :
  memmap_ok es →
  0 < init_total es ≤ 2 ^ 52 ∧
  init_bsize es = (init_total es + 7) / 8 ∧
  0 ≤ init_bpages es ∧
  init_bpages es = (init_bsize es + PAGE_SIZE - 1) / PAGE_SIZE ∧
  u64 (init_bpages es * PAGE_SIZE) = init_bpages es * PAGE_SIZE ∧
  (∀ e, e ∈ es → usable e →
     e_base e / PAGE_SIZE + e_length e / PAGE_SIZE ≤ init_total es).
Proof.
  intros [Hok Hdis Hne].
  destruct (highest_addr_ge es 0 ltac:(unfold PAGE_SIZE; lia) Hok) as [Hh Hhall].
  change (foldl _ 0 es) with (highest_addr es) in Hh, Hhall.
  apply list.Exists_exists in Hne as (e0 & He0 & Hu0 & Hl0).
  pose proof (Hhall e0 He0 Hu0) as Hh0. rewrite list.Forall_forall in Hok.
  destruct (Hok e0 He0 Hu0) as (Hb0 & _ & _ & _ & _).
  unfold init_bpages, init_bsize, init_total, PAGE_SIZE in *.
  set (h := highest_addr es) in *.
  rewrite (u64_small (h + 4096 - 1)) by lia.
  set (total := (h + 4096 - 1) / 4096).
  assert (0 < total ≤ 2 ^ 52) as Htot by (subst total; zdm).
  rewrite (u64_small (total + 7)) by lia.
  set (bsize := (total + 7) / 8).
  assert (0 < bsize ≤ 2 ^ 50) as Hbs by (subst bsize; zdm).
  rewrite (u64_small (bsize + 4096 - 1)) by lia.
  set (bpages := (bsize + 4096 - 1) / 4096).
  assert (0 ≤ bpages ≤ 2 ^ 39) as Hbp by (subst bpages; zdm).
  split_and!; try done; try lia; [by rewrite u64_small by lia|].
  intros e He Hu. specialize (Hhall e He Hu). destruct (Hok e He Hu) as (?&?&?&?&?).
  subst total. clear Htot Hbs Hbp bsize bpages. zdm.
Qed.

(** C29 [pmm_init_correct]: on a memory map that satisfies the boot protocol,
    [pmm_init] either halts because no usable region can hold the bitmap, or
    leaves a well-formed allocator whose free pages are exactly the usable
    pages other than page 0 and the pages of the bitmap itself. *)
Theorem pmm_init_correct es hhdm stale :
  memmap_ok es → (∀ j, 0 ≤ rd stale j < 256) →
  match pmm_init es hhdm stale with
  | Halted => ∀ e, e ∈ es → usable e → e_length e < init_bpages es * PAGE_SIZE
  | Done p =>
      pmm_wf p ∧
      ∀ k, k ∈ free_set p ↔
           usable_page es k ∧ k ≠ 0 ∧
           ¬ (bitmap_phys p / PAGE_SIZE ≤ k < bitmap_phys p / PAGE_SIZE + bitmap_pages p)
  end.
Proof.
  intros Hmo Hst. destruct (init_sizes es Hmo) as (Htot & Hbs & Hbp & Hbpe & Hm & Hin).
  destruct Hmo as [Hok Hdis _]. unfold pmm_init.
  pose proof (find_bitmap_space_spec (init_bpages es) es) as Hfind. rewrite Hm in Hfind.
  destruct (find_bitmap_space (init_bpages es) es) as [bphys|]; [|exact Hfind].
  destruct Hfind as (eb & Heb & Hub & Hbb & Hlb).
  destruct (init_fill_spec (Pmm hhdm bphys stale (init_bsize es) (init_total es) 0
    (count_usable es)) Hst ltac:(cbn [total_pages]; lia) Hbs eq_refl)
    as (Hw1 & Hf1 & Ht1 & Hs1 & Hp1).
  cbn [total_pages bitmap_size bitmap_phys] in *. set (p1 := for_loop (Z.to_nat (init_bsize es)) 0 _ _) in *.
  destruct (init_free_entries_spec es p1) as (Hw2 & Ht2 & Hs2 & Hp2 & Hf2); try done.
  { by rewrite Ht1. }
  { intros k _. rewrite Hf1. set_solver. }
  set (p2 := foldl init_free_entry p1 es) in *.
  rewrite list.Forall_forall in Hok. destruct (Hok eb Heb Hub) as (Hbb0 & Hbl0 & _ & Hal & _).
  specialize (Hin eb Heb Hub). rewrite Hbb in *.
  destruct (init_reserve_range_spec (bphys / PAGE_SIZE) (init_bpages es) p2)
    as (Hw3 & Ht3 & Hs3 & Hp3 & Hf3); try done.
  { apply Z.div_pos; unfold PAGE_SIZE; lia. }
  { rewrite Ht2, Ht1. unfold PAGE_SIZE in *. zdm. }
  set (p3 := for_loop (Z.to_nat (init_bpages es)) 0 _ p2) in *.
  destruct (init_reserve_page_spec 0 p3 Hw3) as (Hw4 & Ht4 & Hs4 & Hp4 & Hf4); [lia|].
  split; [done|]. intros k. unfold bitmap_pages.
  rewrite Hp4, Hs4, Hp3, Hs3, Hp2, Hs2, Hp1, Hs1, <- Hbpe.
  rewrite Hf4, elem_of_difference, elem_of_singleton, Hf3, Hf2, Hf1.
  rewrite elem_of_empty. clear. tauto.
Qed.

(** A memory map of two usable regions around a reserved one. *)
Definition memmap_example : list memmap_entry :=
  [MemmapEntry 0 0x9000 0; MemmapEntry 0xA0000 0x60000 1; MemmapEntry 0x100000 0x10000 0].

Lemma memmap_example_ok : memmap_ok memmap_example.
Proof.
  split.
  - repeat constructor; unfold usable, PAGE_SIZE; cbn; lia.
  - repeat match goal with
    | |- entries_disjoint _ => cbn
    | |- Forall _ (_ :: _) => apply Forall_cons
    | |- Forall _ [] => apply Forall_nil
    | |- _ ∧ _ => split
    | |- True => done
    end; unfold usable, in_entry, PAGE_SIZE, LIMINE_MEMMAP_USABLE; cbn; try lia.
    repeat match goal with
    | |- context [?a / 4096] =>
        let q := eval vm_compute in (a / 4096) in change (a / 4096) with q
    end. lia.
  - constructor. unfold usable. cbn. split; [done|lia].
Qed.

Lemma pmm_init_correct_witness :
  match pmm_init memmap_example 0 ∅ with
  | Halted => False
  | Done p => pmm_wf p ∧ bitmap_phys p = 0 ∧ free_pages p = 24 ∧ 8 ∈ free_set p
  end.
Proof.
  pose proof (pmm_init_correct memmap_example 0 ∅ memmap_example_ok
    ltac:(intros j; unfold rd; rewrite lookup_empty; cbn; lia)) as H.
  destruct (pmm_init memmap_example 0 ∅) as [p|] eqn:E; vm_compute in E; [|discriminate E].
  destruct H as [Hwf Hfree]. injection E as <-.
  split; [exact Hwf|split; [reflexivity|split; [reflexivity|]]].
  apply Hfree. split; [|split; [lia|intros [_ H]; vm_compute in H; discriminate H]].
  exists (MemmapEntry 0 0x9000 0). split; [left|split; [reflexivity|by vm_compute]].
Defined.
