(* ===== verification/Page.v ===== *)
(** * Page reference counts ([mm/page.c], [mm/page.h])

    One byte per physical page.  A page whose count drops from 1 to 0 goes
    back to the physical memory manager; 255 means pinned. *)
From S2P Require Import Prelude Pmm.
Local Open Scope Z_scope.

(** The static variables of [page.c]: [page_info = None] is the NULL pointer
    before [page_init], otherwise the array of counts. *)
Record page_refs := PageRefs {
  page_info : option (gmap Z Z);
  max_pages : Z;
}.

(** [kmalloc] is the heap allocator, a pointer or 0; [h] its state. *)
Definition page_init {H : Type} (kmalloc : Z → H → Z * H) (max_phys : Z)
    (stale : gmap Z Z) (h : H) : outcome (page_refs * H) :=
  let max := max_phys / PAGE_SIZE in
  let array_size := u64 (max * 1) in
  let '(ptr, h) := kmalloc array_size h in
  if ptr =? 0 then Halted
  else
    let arr := for_loop (Z.to_nat max) 0 (λ i a, wr a i 0) stale in
    Done (PageRefs (Some arr) max, h).

Definition page_ref (phys : Z) (r : page_refs) : page_refs :=
  match page_info r with
  | None => r
  | Some a =>
      let page_num := phys / PAGE_SIZE in
      if max_pages r <=? page_num then r
      else if rd a page_num <? 255
      then PageRefs (Some (wr a page_num (u8 (rd a page_num + 1)))) (max_pages r)
      else r
  end.

Definition page_unref (phys : Z) (r : page_refs) (p : pmm) : page_refs * pmm :=
  match page_info r with
  | None => (r, p)
  | Some a =>
      let page_num := phys / PAGE_SIZE in
      if max_pages r <=? page_num then (r, p)
      else if rd a page_num =? 0 then (r, p)
      else if rd a page_num =? 255 then (r, p)
      else
        let a := wr a page_num (u8 (rd a page_num - 1)) in
        let r := PageRefs (Some a) (max_pages r) in
        if rd a page_num =? 0 then (r, pmm_free phys p) else (r, p)
  end.

Definition page_get_refcount (phys : Z) (r : page_refs) : Z :=
  match page_info r with
  | None => 0
  | Some a =>
      let page_num := phys / PAGE_SIZE in
      if max_pages r <=? page_num then 0 else rd a page_num
  end.

Definition page_set_refcount (phys count : Z) (r : page_refs) : page_refs :=
  match page_info r with
  | None => r
  | Some a =>
      let page_num := phys / PAGE_SIZE in
      if max_pages r <=? page_num then r
      else PageRefs (Some (wr a page_num count)) (max_pages r)
  end.

(** ** Invariant: counts are bytes *)

Definition refs_wf (r : page_refs) : Prop :=
  match page_info r with
  | None => True
  | Some a => ∀ i, 0 ≤ rd a i ≤ 255
  end.

(** A page is counted when the array exists and covers it. *)
Definition counted (phys : Z) (r : page_refs) : Prop :=
  is_Some (page_info r) ∧ phys / PAGE_SIZE < max_pages r.

Lemma refcount_range phys r : refs_wf r → 0 ≤ page_get_refcount phys r ≤ 255.
Proof.
  unfold refs_wf, page_get_refcount. destruct (page_info r); [|lia].
  intros H. case_if; [lia|apply H].
Qed.

Lemma page_ref_refcount phys q r :
  refs_wf r → counted phys r →
  page_get_refcount q (page_ref phys r) =
  if decide (q / PAGE_SIZE = phys / PAGE_SIZE)
  then Z.min 255 (page_get_refcount phys r + 1) else page_get_refcount q r.
Proof.
  intros Hwf [[a Ha] Hlt]. unfold page_get_refcount, page_ref, refs_wf in *.
  rewrite Ha in *. case_if; [lia|]. clear E. case_if; simpl.
  - case_decide as Hd.
    + rewrite Hd. destruct (Z.leb_spec (max_pages r) (phys / PAGE_SIZE)); [lia|].
      rewrite rd_wr_eq. pose proof (Hwf (phys / PAGE_SIZE)). rewrite u8_small; lia.
    + case_if; [done|]. by rewrite rd_wr_ne.
  - rewrite Ha. case_decide as Hd; [|done]. rewrite Hd.
    destruct (Z.leb_spec (max_pages r) (phys / PAGE_SIZE)); [lia|].
    pose proof (Hwf (phys / PAGE_SIZE)). lia.
Qed.

Lemma page_ref_wf phys r : refs_wf r → refs_wf (page_ref phys r).
Proof.
  unfold refs_wf, page_ref. destruct (page_info r) as [a|] eqn:Ha; [|by rewrite Ha].
  intros H. case_if; [by rewrite Ha|]. case_if; [|by rewrite Ha].
  simpl. intros i. rewrite rd_wr. case_decide; [pose proof (u8_bound (rd a (phys / PAGE_SIZE) + 1)); lia|apply H].
Qed.

#[export] Hint Resolve page_ref_wf : seedos.

(** Dropping a reference decrements the count of a
    counted page unless it is 0 or pinned at 255, leaves every other count
    alone, and returns the page to the allocator exactly when the last
    reference goes away. *)
Lemma page_unref_spec phys r p :
  refs_wf r → counted phys r →
  let c := page_get_refcount phys r in
  let r' := (page_unref phys r p).1 in
  (∀ q, page_get_refcount q r' =
        if decide (q / PAGE_SIZE = phys / PAGE_SIZE ∧ 0 < c < 255) then c - 1
        else page_get_refcount q r) ∧
  (page_unref phys r p).2 = (if c =? 1 then pmm_free phys p else p) ∧
  refs_wf r'.
Proof.
  intros Hwf [[a Ha] Hlt]. unfold page_get_refcount, page_unref, refs_wf in *.
  rewrite Ha in *. set (i := phys / PAGE_SIZE) in *.
  destruct (Z.leb_spec (max_pages r) i); [lia|]. simpl. pose proof (Hwf i) as Hi.
  destruct (Z.eqb_spec (rd a i) 0) as [E0|E0].
  { simpl. rewrite Ha, E0. split_and!; [|done|done].
    intros q. case_decide; [lia|done]. }
  destruct (Z.eqb_spec (rd a i) 255) as [E5|E5].
  { simpl. rewrite Ha, E5. split_and!; [|done|done].
    intros q. case_decide; [lia|done]. }
  rewrite rd_wr_eq, u8_small by lia.
  assert ((rd a i - 1 =? 0) = (rd a i =? 1)) as -> by
    (destruct (Z.eqb_spec (rd a i) 1); [rewrite e|]; [done|apply Z.eqb_neq; lia]).
  split_and!; [|by case_if|].
  - intros q. case_if; simpl; (destruct (Z.leb_spec (max_pages r) (q / PAGE_SIZE));
      [case_decide; [lia|done]|]); rewrite rd_wr; repeat case_decide; try lia; try congruence.
  - case_if; simpl; intros j; rewrite rd_wr; case_decide; try apply Hwf; lia.
Qed.
