(* ===== verification/Vmm.v ===== *)
(** * Virtual memory manager ([mm/vmm.c], [mm/vmm.h])

    Four-level x86-64 page tables in physical memory.  Physical memory is a
    map from the address of an 8-byte word to the word; the kernel reaches it
    through the higher-half direct map, so [phys_to_virt] and back is the
    identity here.  [kmem] is the memory state the kernel components share. *)
From S2P Require Import Prelude Pmm Page.
Local Open Scope Z_scope.

Definition VMM_PAGE_SIZE : Z := 4096.

(** Page table entry flags. *)
Definition PTE_PRESENT : Z := Z.shiftl 1 0.
Definition PTE_WRITABLE : Z := Z.shiftl 1 1.
Definition PTE_USER : Z := Z.shiftl 1 2.
Definition PTE_NOCACHE : Z := Z.shiftl 1 4.
Definition PTE_HUGE : Z := Z.shiftl 1 7.
Definition PTE_COW : Z := Z.shiftl 1 9.
Definition PTE_NX : Z := Z.shiftl 1 63.
Definition PTE_ADDR_MASK : Z := 0x000FFFFFFFFFF000.

Definition PML4_INDEX (va : Z) : Z := Z.land (Z.shiftr va 39) 511.
Definition PDPT_INDEX (va : Z) : Z := Z.land (Z.shiftr va 30) 511.
Definition PD_INDEX (va : Z) : Z := Z.land (Z.shiftr va 21) 511.
Definition PT_INDEX (va : Z) : Z := Z.land (Z.shiftr va 12) 511.

Definition KERNEL_PML4_START : Z := 256.
Definition PAGE_TABLE_ENTRIES : nat := 512.
Definition PAGE_TABLE_ENTRIES_USER : nat := 256.
Definition USER_SPACE_TOP : Z := 0x0000800000000000.

(** The memory state shared by the kernel's components: page allocator,
    reference counts, physical memory, and the root the kernel runs on. *)
Record kmem := Kmem {
  k_pmm : pmm;
  k_refs : page_refs;
  k_mem : gmap Z Z;
  kernel_pml4_phys : Z;
}.

Definition set_pmm (p : pmm) (k : kmem) : kmem :=
  Kmem p (k_refs k) (k_mem k) (kernel_pml4_phys k).

Definition set_refs (r : page_refs) (k : kmem) : kmem :=
  Kmem (k_pmm k) r (k_mem k) (kernel_pml4_phys k).

Definition set_mem (m : gmap Z Z) (k : kmem) : kmem :=
  Kmem (k_pmm k) (k_refs k) m (kernel_pml4_phys k).

(** [table[i]] for the table at physical address [t]. *)
Definition ent (m : gmap Z Z) (t i : Z) : Z := rd m (t + 8 * i).

Definition set_ent (t i v : Z) (k : kmem) : kmem :=
  set_mem (wr (k_mem k) (t + 8 * i) v) k.

Definition k_pmm_free (a : Z) (k : kmem) : kmem := set_pmm (pmm_free a (k_pmm k)) k.

Definition k_page_ref (a : Z) (k : kmem) : kmem := set_refs (page_ref a (k_refs k)) k.

Definition zero_page (t : Z) (m : gmap Z Z) : gmap Z Z :=
  for_loop PAGE_TABLE_ENTRIES 0 (λ i m, wr m (t + 8 * i) 0) m.

(** Returns 0 when the allocator is out of pages. *)
Definition alloc_page_table (k : kmem) : Z * kmem :=
  let '(phys, p) := pmm_alloc (k_pmm k) in
  let k := set_pmm p k in
  if phys =? PMM_ALLOC_FAILED then (0, k)
  else (phys, set_mem (zero_page phys (k_mem k)) k).

(** ** User ranges *)

Definition vmm_validate_user_range (ptr len : Z) : bool :=
  if ptr =? 0 then false
  else if USER_SPACE_TOP <=? ptr then false
  else if len =? 0 then false
  else
    let end_ := u64 (ptr + len) in
    if (end_ <? ptr) || (USER_SPACE_TOP <? end_) then false else true.

(** ** Walks

    The descent through the three upper levels, shared by
    [vmm_get_physical], [vmm_get_pte_flags] and [vmm_set_pte_flags]: the
    address of the page-table slot of [virt], if all three are present. *)
Definition next_table (m : gmap Z Z) (t i : Z) : option Z :=
  if tst (ent m t i) PTE_PRESENT then Some (Z.land (ent m t i) PTE_ADDR_MASK) else None.

Definition pte_slot (m : gmap Z Z) (pml4_phys virt : Z) : option Z :=
  pdpt ← next_table m pml4_phys (PML4_INDEX virt);
  pd ← next_table m pdpt (PDPT_INDEX virt);
  pt ← next_table m pd (PD_INDEX virt);
  Some (pt + 8 * PT_INDEX virt).

Definition vmm_get_physical (pml4_phys virt : Z) (k : kmem) : Z :=
  match pte_slot (k_mem k) pml4_phys virt with
  | None => 0
  | Some a =>
      let pte := rd (k_mem k) a in
      if negb (tst pte PTE_PRESENT) then 0 else Z.land pte PTE_ADDR_MASK
  end.

Definition vmm_get_pte_flags (pml4_phys virt : Z) (k : kmem) : Z :=
  match pte_slot (k_mem k) pml4_phys virt with
  | None => 0
  | Some a =>
      let pte := rd (k_mem k) a in
      if negb (tst pte PTE_PRESENT) then 0 else Z.land pte (~64 PTE_ADDR_MASK)
  end.

Definition vmm_set_pte_flags (pml4_phys virt flags : Z) (k : kmem) : Z * kmem :=
  match pte_slot (k_mem k) pml4_phys virt with
  | None => (-1, k)
  | Some a =>
      let pte := rd (k_mem k) a in
      if negb (tst pte PTE_PRESENT) then (-1, k)
      else
        let phys := Z.land pte PTE_ADDR_MASK in
        (0, set_mem (wr (k_mem k) a (Z.lor phys flags)) k)
  end.

(** [vmm_unmap_page] refuses to walk into huge pages at the two middle
    levels. *)
Definition vmm_unmap_page (pml4_phys virt : Z) (k : kmem) : Z * kmem :=
  let m := k_mem k in
  match next_table m pml4_phys (PML4_INDEX virt) with
  | None => (-1, k)
  | Some pdpt =>
      match next_table m pdpt (PDPT_INDEX virt) with
      | None => (-1, k)
      | Some pd =>
          if tst (ent m pdpt (PDPT_INDEX virt)) PTE_HUGE then (-1, k)
          else
            match next_table m pd (PD_INDEX virt) with
            | None => (-1, k)
            | Some pt =>
                if tst (ent m pd (PD_INDEX virt)) PTE_HUGE then (-1, k)
                else (0, set_ent pt (PT_INDEX virt) 0 k)
            end
      end
  end.

(** Number of pages the loop of [user_range_check] visits. *)
Definition range_pages (start len : Z) : nat :=
  let first := Z.land start (~64 (VMM_PAGE_SIZE - 1)) in
  Z.to_nat ((start + len - first + VMM_PAGE_SIZE - 1) / VMM_PAGE_SIZE).

(** The loop over the pages of the range; [inr false] is the early return. *)
Definition user_range_check (pml4_phys ptr len require alt : Z) (k : kmem) : bool :=
  if negb (vmm_validate_user_range ptr len) then false
  else
    let first := Z.land ptr (~64 (VMM_PAGE_SIZE - 1)) in
    match for_until (range_pages ptr len) 0 (λ i (_ : unit),
      let flags := vmm_get_pte_flags pml4_phys (first + i * VMM_PAGE_SIZE) k in
      if negb (tst flags PTE_PRESENT) then inr false
      else if negb (tst flags PTE_USER) then inr false
      else if negb (require =? 0) && negb (tst flags require) &&
              negb (negb (alt =? 0) && tst flags alt) then inr false
      else inl tt) tt with
    | inl _ => true
    | inr b => b
    end.

Definition vmm_user_range_readable (pml4_phys ptr len : Z) (k : kmem) : bool :=
  user_range_check pml4_phys ptr len 0 0 k.

Definition vmm_user_range_writable (pml4_phys ptr len : Z) (k : kmem) : bool :=
  user_range_check pml4_phys ptr len PTE_WRITABLE PTE_COW k.

(** ** Mapping *)

(** One level of [vmm_map_page]: reuse the present entry [t][[i]], adding the
    user bit when the new mapping is a user mapping, or allocate and install
    a new table.  Returns the next table and the newly allocated page (0 if
    none), or [None] when the allocation fails. *)
Definition map_level (t i flags : Z) (k : kmem) : option (Z * Z) * kmem :=
  let intermediate_flags :=
    let f := Z.lor PTE_PRESENT PTE_WRITABLE in
    if tst flags PTE_USER then Z.lor f PTE_USER else f in
  let e := ent (k_mem k) t i in
  if tst e PTE_PRESENT then
    let next := Z.land e PTE_ADDR_MASK in
    let k := if tst flags PTE_USER && negb (tst e PTE_USER)
             then set_ent t i (Z.lor e PTE_USER) k else k in
    (Some (next, 0), k)
  else
    let '(new, k) := alloc_page_table k in
    if new =? 0 then (None, k)
    else (Some (new, new), set_ent t i (Z.lor new intermediate_flags) k).

(** Undo a newly installed table on a later failure. *)
Definition undo_level (t i new : Z) (k : kmem) : kmem :=
  if new =? 0 then k else k_pmm_free new (set_ent t i 0 k).

Definition vmm_map_page (pml4_phys virt phys flags : Z) (k : kmem) : Z * kmem :=
  match map_level pml4_phys (PML4_INDEX virt) flags k with
  | (None, k) => (-1, k)
  | (Some (pdpt, new_pdpt), k) =>
      match map_level pdpt (PDPT_INDEX virt) flags k with
      | (None, k) => (-1, undo_level pml4_phys (PML4_INDEX virt) new_pdpt k)
      | (Some (pd, new_pd), k) =>
          match map_level pd (PD_INDEX virt) flags k with
          | (None, k) =>
              let k := undo_level pdpt (PDPT_INDEX virt) new_pd k in
              (-1, undo_level pml4_phys (PML4_INDEX virt) new_pdpt k)
          | (Some (pt, _), k) =>
              (0, set_ent pt (PT_INDEX virt) (Z.lor (Z.land phys PTE_ADDR_MASK) flags) k)
          end
      end
  end.

(** ** Address spaces *)

Definition vmm_init (cr3 : Z) (k : kmem) : kmem :=
  Kmem (k_pmm k) (k_refs k) (k_mem k) (Z.land cr3 PTE_ADDR_MASK).

Definition vmm_get_kernel_pml4 (k : kmem) : Z := kernel_pml4_phys k.

(** Entries 256 to 511 of [src] copied into [dst]. *)
Definition copy_kernel_half (src dst : Z) (k : kmem) : kmem :=
  for_loop (PAGE_TABLE_ENTRIES - 256) KERNEL_PML4_START
    (λ i k, set_ent dst i (ent (k_mem k) src i) k) k.

(** The failure branch calls [log_panic] before its [return 0]. *)
Definition vmm_create_address_space (k : kmem) : outcome (Z * kmem) :=
  let '(new_pml4_phys, k) := alloc_page_table k in
  if new_pml4_phys =? 0 then Halted
  else Done (new_pml4_phys, copy_kernel_half (kernel_pml4_phys k) new_pml4_phys k).

(** The four nested loops of [vmm_free_user_address_space], innermost first. *)
Definition free_pt (pt : Z) (k : kmem) : kmem :=
  for_loop PAGE_TABLE_ENTRIES 0 (λ l k,
    if tst (ent (k_mem k) pt l) PTE_PRESENT
    then k_pmm_free (Z.land (ent (k_mem k) pt l) PTE_ADDR_MASK) k else k) k.

Definition free_level (n : nat) (child : Z → kmem → kmem) (t : Z) (k : kmem) : kmem :=
  for_loop n 0 (λ i k,
    if negb (tst (ent (k_mem k) t i) PTE_PRESENT) then k
    else
      let k := child (Z.land (ent (k_mem k) t i) PTE_ADDR_MASK) k in
      k_pmm_free (Z.land (ent (k_mem k) t i) PTE_ADDR_MASK) k) k.

Definition vmm_free_user_address_space (pml4_phys : Z) (k : kmem) : kmem :=
  let free_pd := free_level PAGE_TABLE_ENTRIES free_pt in
  let free_pdpt := free_level PAGE_TABLE_ENTRIES free_pd in
  k_pmm_free pml4_phys (free_level PAGE_TABLE_ENTRIES_USER free_pdpt pml4_phys k).

(** ** Copy-on-write copy of an address space *)

Definition cow_flags (pte : Z) : Z :=
  let new_flags := Z.land pte (~64 PTE_ADDR_MASK) in
  if tst new_flags PTE_WRITABLE
  then Z.lor (Z.land new_flags (~64 PTE_WRITABLE)) PTE_COW else new_flags.

(** Innermost loop body. *)
Definition cow_pte (src_pt dst_pt l : Z) (k : kmem) : kmem :=
  let pte := ent (k_mem k) src_pt l in
  if negb (tst pte PTE_PRESENT) then k
  else
    let phys_addr := Z.land pte PTE_ADDR_MASK in
    let new_flags := cow_flags pte in
    let k := set_ent src_pt l (Z.lor phys_addr new_flags) k in
    let k := set_ent dst_pt l (Z.lor phys_addr new_flags) k in
    k_page_ref phys_addr k.

Definition cow_pt (src_pt dst_pt : Z) (k : kmem) : kmem + kmem :=
  inl (for_loop PAGE_TABLE_ENTRIES 0 (cow_pte src_pt dst_pt) k).

(** One of the three upper levels: for each present entry of [src] allocate a
    table, install it in [dst] with the same flags and copy the next level;
    [inr] is the [goto fail]. *)
Definition cow_level (n : nat) (child : Z → Z → kmem → kmem + kmem) (src dst : Z) (k : kmem)
    : kmem + kmem :=
  for_until n 0 (λ i k,
    if negb (tst (ent (k_mem k) src i) PTE_PRESENT) then inl k
    else
      let '(new, k) := alloc_page_table k in
      if new =? 0 then inr k
      else
        let k := set_ent dst i
          (Z.lor new (Z.land (ent (k_mem k) src i) (~64 PTE_ADDR_MASK))) k in
        child (Z.land (ent (k_mem k) src i) PTE_ADDR_MASK) new k) k.

Definition vmm_copy_address_space_cow (src_pml4_phys : Z) (k : kmem) : Z * kmem :=
  let '(dst_pml4_phys, k) := alloc_page_table k in
  if dst_pml4_phys =? 0 then (0, k)
  else
    let k := copy_kernel_half src_pml4_phys dst_pml4_phys k in
    let cow_pd := cow_level PAGE_TABLE_ENTRIES cow_pt in
    let cow_pdpt := cow_level PAGE_TABLE_ENTRIES cow_pd in
    match cow_level PAGE_TABLE_ENTRIES_USER cow_pdpt src_pml4_phys dst_pml4_phys k with
    | inl k => (dst_pml4_phys, k)
    | inr k => (0, vmm_free_user_address_space dst_pml4_phys k)
    end.
