(* ===== verification/VmmWalk.v ===== *)
(** * Theory of page-table walks

    A table is named by the path of indices that reaches it from the root.
    [space_wf I k root] says that the tables reached through the PML4 slots in
    [I] are distinct, aligned, allocated pages; the user half of a process is
    one such region, the kernel heap's PML4 slot another.  The lemmas say what
    one store into a table does to every walk. *)
From S2P Require Import Prelude Pmm Page Vmm.
Local Open Scope Z_scope.

Definition idx_ok (i : Z) : Prop := 0 ≤ i < 512.

Fixpoint walk (m : gmap Z Z) (t : Z) (p : list Z) : option Z :=
  match p with
  | [] => Some t
  | i :: p' => t' ← next_table m t i; walk m t' p'
  end.

(** The three indices above the page table. *)
Definition upper_path (va : Z) : list Z := [PML4_INDEX va; PDPT_INDEX va; PD_INDEX va].

(** The present page-table entry in slot [l] of the table at path [p]. *)
Definition leaf (m : gmap Z Z) (root : Z) (p : list Z) (l : Z) : option Z :=
  t ← walk m root p;
  if tst (ent m t l) PTE_PRESENT then Some (ent m t l) else None.

(** The present page-table entry that translates [va]. *)
Definition pte_at (root va : Z) (k : kmem) : option Z :=
  leaf (k_mem k) root (upper_path va) (PT_INDEX va).

Definition path_ok (I : Z → Prop) (p : list Z) : Prop :=
  Forall idx_ok p ∧ (length p ≤ 3)%nat ∧ match p with [] => True | i :: _ => I i end.

Definition used_page (p : pmm) (t : Z) : Prop :=
  t mod 4096 = 0 ∧ 0 < t / 4096 < total_pages p ∧ ((t / 4096) ∉ free_set p).

Record space_wf (I : Z → Prop) (root : Z) (k : kmem) : Prop := {
  sw_pmm : pmm_wf (k_pmm k);
  sw_phys : total_pages (k_pmm k) ≤ 2 ^ 40;
  sw_used : ∀ p t, path_ok I p → walk (k_mem k) root p = Some t → used_page (k_pmm k) t;
  sw_inj : ∀ p q t, path_ok I p → path_ok I q →
    walk (k_mem k) root p = Some t → walk (k_mem k) root q = Some t → p = q;
}.

(** ** Indices *)

Lemma land_511 x : Z.land x 511 = x mod 512.
Proof. apply (Z.land_ones x 9). lia. Qed.

Lemma index_ok x n : idx_ok (Z.land (Z.shiftr x n) 511).
Proof. rewrite land_511. apply Z.mod_pos_bound. lia. Qed.

Lemma upper_path_ok I va : I (PML4_INDEX va) → path_ok I (upper_path va).
Proof.
  intros. split_and!; [|simpl; lia|done].
  repeat constructor; apply index_ok.
Qed.

Lemma PT_INDEX_ok va : idx_ok (PT_INDEX va).
Proof. apply index_ok. Qed.

#[export] Hint Resolve upper_path_ok PT_INDEX_ok : seedos.

(** The indices split the page number of a 48-bit address. *)
Lemma index_split va :
  (va / 4096) mod 2 ^ 36 =
  ((PML4_INDEX va * 512 + PDPT_INDEX va) * 512 + PD_INDEX va) * 512 + PT_INDEX va.
Proof.
  unfold PML4_INDEX, PDPT_INDEX, PD_INDEX, PT_INDEX. rewrite !land_511, !Z.shiftr_div_pow2 by lia.
  change (2 ^ 39) with (4096 * 512 * 512 * 512). change (2 ^ 30) with (4096 * 512 * 512).
  change (2 ^ 21) with (4096 * 512). change (2 ^ 12) with 4096.
  rewrite <- !Z.div_div by lia. set (v := va / 4096).
  change (2 ^ 36) with (512 * (512 * (512 * 512))).
  rewrite !Z.rem_mul_r by lia. lia.
Qed.

Lemma digit_inj a b c d :
  idx_ok b → idx_ok d → a * 512 + b = c * 512 + d → a = c ∧ b = d.
Proof. unfold idx_ok. lia. Qed.

(** Two addresses use the same slots exactly when they are on the same page
    of the 48-bit address space. *)
Lemma same_page_indices va vb :
  (va / 4096) mod 2 ^ 36 = (vb / 4096) mod 2 ^ 36 ↔
  upper_path va = upper_path vb ∧ PT_INDEX va = PT_INDEX vb.
Proof.
  rewrite !index_split. unfold upper_path. split; [|by intros [[= -> -> ->] ->]].
  intros E.
  apply digit_inj in E as [E E4]; [|apply index_ok..].
  apply digit_inj in E as [E E3]; [|apply index_ok..].
  apply digit_inj in E as [E1 E2]; [|apply index_ok..].
  by rewrite E1, E2, E3.
Qed.

(** ** Masks *)

Lemma tst_present e : tst e PTE_PRESENT = Z.testbit e 0.
Proof. apply (tst_pow2 e 0). lia. Qed.

Lemma addr_mask_testbit n : 0 ≤ n → Z.testbit PTE_ADDR_MASK n = (12 <=? n) && (n <? 52).
Proof.
  intros Hn. change PTE_ADDR_MASK with (Z.shiftl (Z.ones 40) 12).
  rewrite Z.shiftl_spec by done.
  destruct (Z.leb_spec 12 n); simpl.
  - rewrite Z.testbit_ones_nonneg by lia.
    destruct (Z.ltb_spec n 52); [apply Z.ltb_lt|apply Z.ltb_ge]; lia.
  - apply Z.testbit_neg_r. lia.
Qed.

(** A page address fits the address field of an entry. *)
Lemma addr_mask_page t : t mod 4096 = 0 → 0 ≤ t < 2 ^ 52 → Z.land t PTE_ADDR_MASK = t.
Proof.
  intros Hal Hr. apply Z.bits_inj'. intros n Hn. rewrite Z.land_spec, addr_mask_testbit by done.
  destruct (Z.leb_spec 12 n); simpl.
  - destruct (Z.ltb_spec n 52); [by rewrite andb_true_r|].
    rewrite <- (Z.mod_small t (2 ^ 52)) by lia. by rewrite Z.mod_pow2_bits_high by lia.
  - rewrite andb_false_r. symmetry. rewrite <- (Z.mod_pow2_bits_low t 12) by lia.
    change (2 ^ 12) with 4096. rewrite Hal. apply Z.bits_0.
Qed.

Lemma land_lor_flags a f : Z.land f PTE_ADDR_MASK = 0 →
  Z.land (Z.lor (Z.land a PTE_ADDR_MASK) f) PTE_ADDR_MASK = Z.land a PTE_ADDR_MASK.
Proof.
  intros Hf. rewrite Z.land_lor_distr_l, Hf, Z.lor_0_r, <- Z.land_assoc.
  by rewrite Z.land_diag.
Qed.

Lemma not_addr_mask_testbit n : 0 ≤ n < 64 →
  Z.testbit (~64 PTE_ADDR_MASK) n = negb ((12 <=? n) && (n <? 52)).
Proof.
  intros Hn. unfold u64, wrap. rewrite Z.mod_pow2_bits_low by lia.
  rewrite Z.lnot_spec by lia. by rewrite addr_mask_testbit by lia.
Qed.

(** Flags stored next to an address read back. *)
Lemma flags_of_entry a f : 0 ≤ f < 2 ^ 64 → Z.land f PTE_ADDR_MASK = 0 →
  Z.land (Z.lor (Z.land a PTE_ADDR_MASK) f) (~64 PTE_ADDR_MASK) = f.
Proof.
  intros Hr Hf. apply Z.bits_inj'. intros n Hn.
  assert (∀ b, 64 ≤ n → 0 ≤ b < 2 ^ 64 → Z.testbit b n = false) as Hhigh.
  { intros b Hn' Hb. rewrite <- (Z.mod_small b (2 ^ 64)) by lia.
    apply Z.mod_pow2_bits_high. lia. }
  rewrite Z.land_spec, Z.lor_spec, Z.land_spec.
  destruct (decide (n < 64)) as [Hlt|].
  - rewrite not_addr_mask_testbit, addr_mask_testbit by lia.
    assert (Z.testbit f n && Z.testbit PTE_ADDR_MASK n = false) as Hz
      by (rewrite <- Z.land_spec, Hf; apply Z.bits_0).
    rewrite addr_mask_testbit in Hz by lia.
    destruct ((12 <=? n) && (n <? 52)); simpl; destruct (Z.testbit a n), (Z.testbit f n); done.
  - rewrite (Hhigh (~64 PTE_ADDR_MASK)) by (lia || apply u64_bound).
    rewrite andb_false_r. symmetry. apply Hhigh; lia.
Qed.

(** ** Slots *)

Lemma slot_inj t t' i j :
  t mod 4096 = 0 → t' mod 4096 = 0 → idx_ok i → idx_ok j →
  t + 8 * i = t' + 8 * j → t = t' ∧ i = j.
Proof. unfold idx_ok. intros. zdm. Qed.

Lemma slot_page t i : t mod 4096 = 0 → idx_ok i → (t + 8 * i) / 4096 = t / 4096.
Proof. unfold idx_ok. intros. zdm. Qed.

Lemma ent_wr m t i v t' j :
  t mod 4096 = 0 → t' mod 4096 = 0 → idx_ok i → idx_ok j →
  ent (wr m (t + 8 * i) v) t' j = if decide (t' = t ∧ j = i) then v else ent m t' j.
Proof.
  intros. unfold ent. rewrite rd_wr. repeat case_decide; try done.
  - exfalso. destruct (slot_inj t t' i j); naive_solver.
  - naive_solver.
Qed.

(** ** Walks *)

Lemma walk_app m t p q : walk m t (p ++ q) = t' ← walk m t p; walk m t' q.
Proof.
  revert t. induction p as [|i p IH]; intros t; [done|].
  simpl. destruct (next_table m t i); [apply IH|done].
Qed.

Lemma walk_snoc m t p i : walk m t (p ++ [i]) = t' ← walk m t p; next_table m t' i.
Proof.
  rewrite walk_app. destruct (walk m t p) as [t'|]; [|done]. simpl.
  by destruct (next_table m t' i).
Qed.

(** Walks agree when the entries they pass through lead to the same tables. *)
Lemma walk_ext m m' t q :
  (∀ r j s t', q = r ++ j :: s → walk m t r = Some t' →
     next_table m' t' j = next_table m t' j) →
  walk m' t q = walk m t q.
Proof.
  revert t. induction q as [|i q IH]; intros t H; [done|]. simpl.
  rewrite (H [] i q t) by done. destruct (next_table m t i) as [t1|] eqn:E; [|done]. simpl.
  apply IH. intros r j s t' -> Hr. apply (H (i :: r) j s); [done|].
  simpl. by rewrite E.
Qed.

Lemma path_ok_prefix I p q : path_ok I (p ++ q) → path_ok I p.
Proof.
  intros ([Hf _]%Forall_app & Hl & Hh). rewrite length_app in Hl.
  split_and!; [done|lia|]. by destruct p.
Qed.

Lemma path_ok_snoc_idx I p i q : path_ok I (p ++ i :: q) → idx_ok i.
Proof. intros ([_ Hf]%Forall_app & _). by inversion Hf. Qed.

Lemma pte_slot_walk m root va :
  pte_slot m root va = t ← walk m root (upper_path va); Some (t + 8 * PT_INDEX va).
Proof.
  unfold pte_slot, upper_path. simpl.
  destruct (next_table m root _) as [t1|]; [|done]. simpl.
  destruct (next_table m t1 _) as [t2|]; [|done]. simpl.
  by destruct (next_table m t2 _).
Qed.

(** The getters in terms of the present entry. *)
Lemma vmm_get_physical_pte root va k :
  vmm_get_physical root va k =
  match pte_at root va k with Some e => Z.land e PTE_ADDR_MASK | None => 0 end.
Proof.
  unfold vmm_get_physical, pte_at, leaf. rewrite pte_slot_walk.
  destruct (walk _ _ _) as [t|]; [|done]. simpl. unfold ent. by destruct (tst _ _).
Qed.

Lemma vmm_get_pte_flags_pte root va k :
  vmm_get_pte_flags root va k =
  match pte_at root va k with Some e => Z.land e (~64 PTE_ADDR_MASK) | None => 0 end.
Proof.
  unfold vmm_get_pte_flags, pte_at, leaf. rewrite pte_slot_walk.
  destruct (walk _ _ _) as [t|]; [|done]. simpl. unfold ent. by destruct (tst _ _).
Qed.

(** ** One store into a table *)

Section store.
Context (I : Z → Prop) (root : Z) (k : kmem) (Hwf : space_wf I root k).
Context (p : list Z) (t i : Z).
Context (Hp : path_ok I p) (Ht : walk (k_mem k) root p = Some t) (Hi : idx_ok i).

Lemma table_aligned q t' :
  path_ok I q → walk (k_mem k) root q = Some t' → t' mod 4096 = 0.
Proof. intros Hq Hw. by destruct (sw_used _ _ _ Hwf q t' Hq Hw). Qed.

(** Only the entry named by path [p] and index [i] changes. *)
Lemma store_ent v q t' j :
  path_ok I q → walk (k_mem k) root q = Some t' → idx_ok j →
  ent (wr (k_mem k) (t + 8 * i) v) t' j =
  if decide (q = p ∧ j = i) then v else ent (k_mem k) t' j.
Proof.
  intros Hq Hw Hj. rewrite ent_wr; eauto using table_aligned.
  repeat case_decide; try done.
  - destruct H as [-> ->]. assert (q = p) by eauto using sw_inj. naive_solver.
  - destruct H0 as [-> ->]. naive_solver.
Qed.

(** A walk that does not use the entry is unchanged. *)
Lemma store_walk_other v q :
  path_ok I q → ¬ (p ++ [i]) `prefix_of` q →
  walk (wr (k_mem k) (t + 8 * i) v) root q = walk (k_mem k) root q.
Proof.
  intros Hq Hn. apply walk_ext. intros r j s t' -> Hr. unfold next_table.
  rewrite (store_ent v r t' j); eauto using path_ok_prefix, path_ok_snoc_idx.
  case_decide as Hd; [|done]. destruct Hd as [-> ->]. destruct Hn.
  exists s. by rewrite <- app_assoc.
Qed.

(** Nor is any walk when the new entry leads to the same table. *)
Lemma store_walk_same v q :
  path_ok I q → tst v PTE_PRESENT = true → tst (ent (k_mem k) t i) PTE_PRESENT = true →
  Z.land v PTE_ADDR_MASK = Z.land (ent (k_mem k) t i) PTE_ADDR_MASK →
  walk (wr (k_mem k) (t + 8 * i) v) root q = walk (k_mem k) root q.
Proof.
  intros Hq Hv He Hm. apply walk_ext. intros r j s t' -> Hr. unfold next_table.
  rewrite (store_ent v r t' j); eauto using path_ok_prefix, path_ok_snoc_idx.
  case_decide as Hd; [|done]. destruct Hd as [-> ->].
  assert (t' = t) as -> by congruence. by rewrite Hv, He, Hm.
Qed.

(** A walk through the entry continues from the table the new value names. *)
Lemma store_walk_through v s :
  path_ok I (p ++ i :: s) →
  walk (wr (k_mem k) (t + 8 * i) v) root (p ++ i :: s) =
  if tst v PTE_PRESENT
  then walk (wr (k_mem k) (t + 8 * i) v) (Z.land v PTE_ADDR_MASK) s else None.
Proof.
  intros Hs. rewrite walk_app. rewrite store_walk_other, Ht; [|done|].
  - simpl. unfold next_table at 1. rewrite (store_ent v p t i) by done.
    rewrite decide_True by done. by destruct (tst v PTE_PRESENT).
  - intros [u Hu]. apply (f_equal length) in Hu. rewrite !length_app in Hu. simpl in Hu. lia.
Qed.

(** A present leaf elsewhere is unchanged. *)
Lemma store_leaf_other v q l :
  path_ok I q → idx_ok l → ¬ (p ++ [i]) `prefix_of` q → (q ≠ p ∨ l ≠ i) →
  leaf (wr (k_mem k) (t + 8 * i) v) root q l = leaf (k_mem k) root q l.
Proof.
  intros Hq Hl Hn Hne. unfold leaf. rewrite store_walk_other by done.
  destruct (walk (k_mem k) root q) as [t'|] eqn:E; [|done]. simpl.
  rewrite (store_ent v q t' l) by done. case_decide; naive_solver.
Qed.

End store.

(** The tables and their distinctness depend on the walks and the allocator
    only. *)
Lemma space_wf_ext I root k k' :
  space_wf I root k → k_pmm k' = k_pmm k →
  (∀ q, path_ok I q → walk (k_mem k') root q = walk (k_mem k) root q) →
  space_wf I root k'.
Proof.
  intros [Hp Hph Hu Hi] Hk Hw. split; rewrite ?Hk; try done.
  - intros p t Hok Hwk. rewrite Hw in Hwk by done. eauto.
  - intros p q t Hok Hok' H1 H2. rewrite Hw in H1, H2 by done. eauto.
Qed.
