(* ===== verification/VmmMap.v ===== *)
(** * Correctness of the mapping operations of the virtual memory manager

    [vmm_map_page] against the flat view of an address space as a function
    from pages to present entries: what a successful call changes, that a
    failed call changes nothing, and that neither touches memory outside the
    region's own tables and the pages that were free. *)
From S2P Require Import Prelude Pmm Page Vmm VmmWalk.
Local Open Scope Z_scope.

(** ** Allocating a table *)

Lemma zero_page_ent t m t' j :
  t mod 4096 = 0 → t' mod 4096 = 0 → idx_ok j →
  ent (zero_page t m) t' j = if decide (t' = t) then 0 else ent m t' j.
Proof.
  intros Ht Ht' Hj. unfold zero_page, PAGE_TABLE_ENTRIES.
  pose proof (for_loop_ind
    (λ i m', 0 ≤ i ∧ ent m' t' j = if decide (t' = t ∧ j < i) then 0 else ent m t' j)
    512 0 (λ i m, wr m (t + 8 * i) 0) m) as Hind.
  destruct Hind as [_ ->].
  - split; [done|]. case_decide; [unfold idx_ok in *; lia|done].
  - intros i m' Hi [_ IH]. split; [lia|]. rewrite ent_wr, IH by (unfold idx_ok in *; lia || done).
    repeat case_decide; try done; exfalso; naive_solver lia.
  - unfold idx_ok in *. repeat case_decide; try done; exfalso; naive_solver lia.
Qed.

Lemma zero_page_frame t m a :
  t mod 4096 = 0 → a / 4096 ≠ t / 4096 → rd (zero_page t m) a = rd m a.
Proof.
  intros Ht Ha. unfold zero_page, PAGE_TABLE_ENTRIES.
  apply (for_loop_ind (λ i m', rd m' a = rd m a) 512 0); [done|].
  intros i m' Hi <-. apply rd_wr_ne. intros <-. apply Ha. apply slot_page; [done|].
  unfold idx_ok. lia.
Qed.

#[local] Opaque zero_page.

Lemma alloc_page_table_cases k :
  pmm_wf (k_pmm k) → total_pages (k_pmm k) ≤ 2 ^ 40 →
  (free_set (k_pmm k) ⊆ {[0]} ∧ alloc_page_table k = (0, k)) ∨
  (∃ n, n ∈ free_set (k_pmm k) ∧ 0 < n < total_pages (k_pmm k) ∧
     alloc_page_table k =
     (n * 4096, set_mem (zero_page (n * 4096) (k_mem k)) (set_pmm (take_page n (k_pmm k)) k))).
Proof.
  intros Hwf Ht. unfold alloc_page_table.
  destruct (pmm_alloc_cases (k_pmm k) Hwf) as [[Hs ->]|(n & Hn & Hpos & _ & ->)].
  - left. split; [done|]. cbn. by destruct k.
  - right. exists n. pose proof Hn as [Hr _]%elem_of_free_set.
    split_and!; [done|lia|lia|]. unfold PAGE_SIZE, PMM_ALLOC_FAILED.
    destruct (Z.eqb_spec (n * 4096) 0); [lia|]. done.
Qed.

(** ** What holds since a starting state

    [k] was reached from [k0] by operations on the region [I] of [root]: the
    region is still well formed, translations are the same, every table was a
    table before or comes from a free page, and every word outside the slots
    of the region and the free pages is untouched. *)

Definition slot_ok (I : Z → Prop) (p : list Z) (i : Z) : Prop :=
  path_ok I p ∧ idx_ok i ∧ (p = [] → I i).

Definition slot_of (I : Z → Prop) (root : Z) (k : kmem) (a : Z) : Prop :=
  ∃ p t i, slot_ok I p i ∧ walk (k_mem k) root p = Some t ∧ a = t + 8 * i.

Definition untouched (I : Z → Prop) (root : Z) (k0 k : kmem) : Prop :=
  ∀ a, ¬ slot_of I root k0 a → ((a / 4096) ∉ free_set (k_pmm k0)) →
       rd (k_mem k) a = rd (k_mem k0) a.

(** No entry above the page tables carries the huge-page bit. *)
Definition upper_small (I : Z → Prop) (root : Z) (k : kmem) : Prop :=
  ∀ p t i, path_ok I (p ++ [i]) → walk (k_mem k) root p = Some t → tst (ent (k_mem k) t i) PTE_HUGE = false.

Record since (I : Z → Prop) (root : Z) (k0 k : kmem) : Prop := {
  si_wf : space_wf I root k;
  si_leaf : ∀ p l, path_ok I p → length p = 3%nat → idx_ok l →
    leaf (k_mem k) root p l = leaf (k_mem k0) root p l;
  si_tables : ∀ p t, path_ok I p → walk (k_mem k) root p = Some t →
    walk (k_mem k0) root p = Some t ∨ (t / 4096) ∈ free_set (k_pmm k0);
  si_free : free_set (k_pmm k) ⊆ free_set (k_pmm k0);
  si_untouched : untouched I root k0 k;
  si_rest : k_refs k = k_refs k0 ∧ kernel_pml4_phys k = kernel_pml4_phys k0 ∧
            total_pages (k_pmm k) = total_pages (k_pmm k0);
  si_small : upper_small I root k0 → upper_small I root k;
  si_keep : ∀ q t, path_ok I q → walk (k_mem k0) root q = Some t → walk (k_mem k) root q = Some t;
}.

Lemma since_refl I root k : space_wf I root k → since I root k k.
Proof. intros. split; try done. by left. Qed.

(** A store into a slot of the region is not a touch of anything else. *)
Lemma since_slot_untouched I root k0 k p t i v :
  since I root k0 k → slot_ok I p i → walk (k_mem k) root p = Some t →
  ∀ k', k_mem k' = wr (k_mem k) (t + 8 * i) v → untouched I root k0 k'.
Proof.
  intros Hs Hsl Hw k' Hk a Hna Hnf. pose proof Hsl as (Hp & Hi & _). rewrite Hk, rd_wr_ne; [by apply (si_untouched _ _ _ _ Hs)|].
  intros <-. destruct (si_tables _ _ _ _ Hs p t Hp Hw) as [Hw0|Hfree].
  - apply Hna. by exists p, t, i.
  - apply Hnf. rewrite slot_page; [done|eapply table_aligned, Hw; [apply Hs|done]|done].
Qed.

Lemma path_ok_app I p i q : path_ok I (p ++ i :: q) → path_ok I (p ++ [i]).
Proof. intros H. apply (path_ok_prefix I (p ++ [i]) q). by rewrite <- app_assoc. Qed.

Lemma slot_ok_snoc I p i : path_ok I (p ++ [i]) → slot_ok I p i.
Proof.
  intros H. split_and!; [by eapply path_ok_prefix|by eapply path_ok_snoc_idx|].
  intros ->. by destruct H as (_ & _ & H).
Qed.

Lemma slot_ok_leaf I p l : path_ok I p → length p = 3%nat → idx_ok l → slot_ok I p l.
Proof. intros. split_and!; [done..|]. by intros ->. Qed.

Lemma snoc_not_prefix {A} (p : list A) (i : A) : ¬ (p ++ [i]) `prefix_of` p.
Proof.
  intros [u Hu]. apply (f_equal length) in Hu. rewrite !length_app in Hu. simpl in Hu. lia.
Qed.

#[export] Hint Resolve path_ok_prefix path_ok_app path_ok_snoc_idx slot_ok_snoc slot_ok_leaf : seedos.
#[export] Hint Resolve si_wf sw_pmm sw_phys snoc_not_prefix : seedos.

(** ** Reusing a present entry *)

Lemma testbit_lor_user e n : n ≠ 2 → 0 ≤ n → Z.testbit (Z.lor e PTE_USER) n = Z.testbit e n.
Proof.
  intros Hn H0. rewrite Z.lor_spec. change PTE_USER with (2 ^ 2).
  rewrite Z.pow2_bits_false by lia. apply orb_false_r.
Qed.

Lemma tst_huge e : tst e PTE_HUGE = Z.testbit e 7.
Proof. apply (tst_pow2 e 7). lia. Qed.

Lemma user_bit_same e :
  tst (Z.lor e PTE_USER) PTE_PRESENT = tst e PTE_PRESENT ∧
  Z.land (Z.lor e PTE_USER) PTE_ADDR_MASK = Z.land e PTE_ADDR_MASK.
Proof.
  split.
  - rewrite !tst_present. by apply testbit_lor_user.
  - rewrite Z.land_lor_distr_l. change (Z.land PTE_USER PTE_ADDR_MASK) with 0. apply Z.lor_0_r.
Qed.

(** Adding the user bit to an upper entry keeps every walk and leaf. *)
Lemma since_set_user I root k0 k p t i :
  since I root k0 k → path_ok I (p ++ [i]) → walk (k_mem k) root p = Some t →
  tst (ent (k_mem k) t i) PTE_PRESENT = true →
  let k' := set_ent t i (Z.lor (ent (k_mem k) t i) PTE_USER) k in
  since I root k0 k' ∧
  (∀ q, path_ok I q → walk (k_mem k') root q = walk (k_mem k) root q).
Proof.
  intros Hs Hp Hw He k'. destruct (user_bit_same (ent (k_mem k) t i)) as [Hu1 Hu2].
  assert (∀ q, path_ok I q → walk (k_mem k') root q = walk (k_mem k) root q) as Hwalk.
  { intros q Hq. apply (store_walk_same I root k (si_wf _ _ _ _ Hs) p t i);
      eauto with seedos. }
  split; [|done]. split; try apply Hs.
  - by apply (space_wf_ext I root k); [apply Hs| |].
  - intros q l Hq Hl Hlok. rewrite <- (si_leaf _ _ _ _ Hs) by done. unfold leaf.
    rewrite Hwalk by done. destruct (walk (k_mem k) root q) as [t'|] eqn:E; [|done]. simpl.
    rewrite (store_ent I root k (si_wf _ _ _ _ Hs) p t i) with (q := q); eauto with seedos.
    rewrite decide_False; [done|]. intros [-> _]. destruct Hp as (_ & Hp & _).
    rewrite length_app in Hp. simpl in Hp. lia.
  - intros q t' Hq Hw'. rewrite Hwalk in Hw' by done. by apply (si_tables _ _ _ _ Hs).
  - eapply since_slot_untouched; eauto with seedos.
  - intros Hsm%(si_small _ _ _ _ Hs) q t' j Hq Hw'. rewrite Hwalk in Hw' by eauto with seedos.
    unfold k', set_ent. cbn [k_mem set_mem].
    rewrite (store_ent I root k (si_wf _ _ _ _ Hs) p t i) with (q := q); eauto with seedos.
    case_decide; [|by apply (Hsm q)].
    rewrite tst_huge, testbit_lor_user, <- tst_huge by done. by apply (Hsm p).
  - intros q t' Hq Hw'. rewrite Hwalk by done. by apply (si_keep _ _ _ _ Hs).
Qed.

(** ** Installing a new table *)

Definition with_new_table (n : Z) (k : kmem) : kmem :=
  set_mem (zero_page (n * 4096) (k_mem k)) (set_pmm (take_page n (k_pmm k)) k).

Section new_table.
Context (I : Z → Prop) (root : Z) (k0 k : kmem) (Hs : since I root k0 k).
Context (n : Z) (Hn : n ∈ free_set (k_pmm k)) (Hpos : 0 < n).

Lemma table_not_new q t' :
  path_ok I q → walk (k_mem k) root q = Some t' → t' ≠ n * 4096.
Proof.
  intros Hq Hw ->. destruct (sw_used _ _ _ (si_wf _ _ _ _ Hs) q _ Hq Hw) as (_ & _ & Hnf).
  by rewrite Z.div_mul in Hnf by lia.
Qed.

Lemma new_table_ent q t' j :
  path_ok I q → walk (k_mem k) root q = Some t' → idx_ok j →
  ent (zero_page (n * 4096) (k_mem k)) t' j = ent (k_mem k) t' j.
Proof.
  intros Hq Hw Hj. rewrite zero_page_ent; [|apply Z.mod_mul; lia| |done].
  - rewrite decide_False; [done|]. by eapply table_not_new.
  - by apply (table_aligned I root k (si_wf _ _ _ _ Hs) q).
Qed.

Lemma new_table_walk q :
  path_ok I q → walk (k_mem (with_new_table n k)) root q = walk (k_mem k) root q.
Proof.
  intros Hq. apply walk_ext. intros r j s t' -> Hr. unfold next_table.
  cbn [with_new_table k_mem set_mem]. by rewrite (new_table_ent r t' j) by eauto with seedos.
Qed.

Lemma since_new_table : since I root k0 (with_new_table n k).
Proof.
  pose proof (sw_pmm _ _ _ (si_wf _ _ _ _ Hs)) as Hpw.
  split; cbn [with_new_table k_pmm set_mem set_pmm k_refs kernel_pml4_phys].
  - split; cbn [with_new_table k_pmm set_mem set_pmm].
    + by apply take_page_wf.
    + apply (sw_phys _ _ _ (si_wf _ _ _ _ Hs)).
    + intros q t Hq Hw. rewrite new_table_walk in Hw by done.
      destruct (sw_used _ _ _ (si_wf _ _ _ _ Hs) q _ Hq Hw) as (? & ? & ?).
      split; [done|split; [done|]]. rewrite take_page_free_set. set_solver.
    + intros q r t Hq Hr. rewrite !new_table_walk by done. by apply (sw_inj _ _ _ (si_wf _ _ _ _ Hs)).
  - intros q l Hq Hl Hlok. rewrite <- (si_leaf _ _ _ _ Hs) by done. unfold leaf.
    rewrite new_table_walk by done. destruct (walk (k_mem k) root q) as [t|] eqn:E; [|done].
    cbn [mbind option_bind]. cbn [with_new_table k_mem set_mem].
    by rewrite (new_table_ent q t l) by done.
  - intros q t Hq Hw. rewrite new_table_walk in Hw by done. by apply (si_tables _ _ _ _ Hs).
  - rewrite take_page_free_set. pose proof (si_free _ _ _ _ Hs). set_solver.
  - intros a Ha Hf. cbn [with_new_table k_mem set_mem]. rewrite zero_page_frame.
    + by apply (si_untouched _ _ _ _ Hs).
    + apply Z.mod_mul. lia.
    + intros E. rewrite Z.div_mul in E by lia. rewrite E in Hf.
      apply Hf. by apply (si_free _ _ _ _ Hs).
  - apply Hs.
  - intros Hsm%(si_small _ _ _ _ Hs) q t j Hq Hw. rewrite new_table_walk in Hw by eauto with seedos.
    cbn [with_new_table k_mem set_mem]. rewrite (new_table_ent q t j); eauto with seedos.
  - intros q t Hq Hw. rewrite new_table_walk by done. by apply (si_keep _ _ _ _ Hs).
Qed.

Context (p : list Z) (t i f : Z).
Context (Hp : path_ok I (p ++ [i])) (Ht : walk (k_mem k) root p = Some t).
Context (Hnp : tst (ent (k_mem k) t i) PTE_PRESENT = false).
Context (Hf : Z.land f PTE_ADDR_MASK = 0) (Hfp : tst f PTE_PRESENT = true).

Definition installed : kmem := set_ent t i (Z.lor (n * 4096) f) (with_new_table n k).

Lemma new_entry :
  tst (Z.lor (n * 4096) f) PTE_PRESENT = true ∧
  Z.land (Z.lor (n * 4096) f) PTE_ADDR_MASK = n * 4096.
Proof.
  pose proof Hn as [Hr _]%elem_of_free_set. pose proof (sw_phys _ _ _ (si_wf _ _ _ _ Hs)).
  assert (Z.land (n * 4096) PTE_ADDR_MASK = n * 4096) as Hm.
  { apply addr_mask_page; [apply Z.mod_mul; lia|lia]. }
  split.
  - rewrite tst_present, Z.lor_spec. rewrite tst_present in Hfp. by rewrite Hfp, orb_true_r.
  - rewrite <- Hm at 1. rewrite land_lor_flags by done. done.
Qed.

Lemma installed_walk q :
  path_ok I q →
  walk (k_mem installed) root q =
  if decide (q = p ++ [i]) then Some (n * 4096) else walk (k_mem k) root q.
Proof.
  intros Hq. destruct new_entry as [He Hm].
  assert (walk (k_mem (with_new_table n k)) root p = Some t) as Ht1.
  { rewrite new_table_walk; eauto with seedos. }
  destruct (decide ((p ++ [i]) `prefix_of` q)) as [[s ->]|Hnpre].
  - rewrite <- app_assoc in *. cbn [app] in *.
    unfold installed, set_ent. cbn [k_mem set_mem].
    rewrite (store_walk_through I root (with_new_table n k) (si_wf _ _ _ _ since_new_table) p t i);
      eauto with seedos.
    rewrite He, Hm. rewrite walk_app, Ht. cbn [mbind option_bind walk].
    unfold next_table at 1. rewrite Hnp. cbn [mbind option_bind].
    destruct s as [|j s]; [by rewrite decide_True|]. rewrite decide_False by
      (intros E; apply (f_equal length) in E; rewrite !length_app in E; simpl in E; lia).
    cbn [walk]. unfold next_table at 1. cbn [with_new_table k_mem set_mem].
    assert (idx_ok j) by (apply (path_ok_snoc_idx I (p ++ [i]) j s); rewrite <- app_assoc; exact Hq).
    assert (t mod 4096 = 0) by (apply (table_aligned I root k (si_wf _ _ _ _ Hs) p); eauto with seedos).
    rewrite ent_wr; [|done|apply Z.mod_mul; lia|eauto with seedos|done].
    rewrite decide_False by (intros [E _]; apply (table_not_new p t); eauto with seedos).
    rewrite zero_page_ent by (done || (apply Z.mod_mul; lia)). by rewrite decide_True.
  - rewrite decide_False by (intros ->; by apply Hnpre).
    unfold installed, set_ent. cbn [k_mem set_mem].
    rewrite (store_walk_other I root (with_new_table n k) (si_wf _ _ _ _ since_new_table) p t i);
      eauto with seedos. by apply new_table_walk.
Qed.

Lemma installed_empty j : idx_ok j → ent (k_mem installed) (n * 4096) j = 0.
Proof.
  intros Hj. unfold installed, set_ent. cbn [k_mem set_mem].
  rewrite ent_wr; [|by apply (table_aligned I root k (si_wf _ _ _ _ Hs) p); eauto with seedos
    |apply Z.mod_mul; lia|eauto with seedos|done].
  rewrite decide_False by (intros [E _]; apply (table_not_new p t); eauto with seedos).
  cbn [with_new_table k_mem set_mem].
  rewrite zero_page_ent by (done || (apply Z.mod_mul; lia)). by rewrite decide_True.
Qed.

Lemma installed_new_page : used_page (k_pmm installed) (n * 4096).
Proof.
  pose proof Hn as [Hr _]%elem_of_free_set. split; [apply Z.mod_mul; lia|].
  rewrite Z.div_mul by lia. split; [cbn; lia|].
  change (k_pmm installed) with (take_page n (k_pmm k)).
  rewrite take_page_free_set. set_solver.
Qed.

Lemma installed_wf : space_wf I root installed.
Proof.
  pose proof (si_wf _ _ _ _ since_new_table) as Hw1.
  split; [apply Hw1|apply Hw1| |].
  - intros q t' Hq. rewrite installed_walk by done. case_decide as Hd.
    + intros [= <-]. apply installed_new_page.
    + intros Hw. apply (sw_used _ _ _ Hw1 q); [done|]. by rewrite new_table_walk.
  - intros q r t' Hq Hr. rewrite !installed_walk by done.
    destruct (decide (q = p ++ [i])) as [->|], (decide (r = p ++ [i])) as [->|]; [done| | |].
    + intros [= <-] Hw. by apply table_not_new in Hw.
    + intros Hw [= <-]. by apply table_not_new in Hw.
    + by apply (sw_inj _ _ _ (si_wf _ _ _ _ Hs)).
Qed.

Lemma installed_before : walk (k_mem (with_new_table n k)) root p = Some t.
Proof. rewrite new_table_walk; eauto with seedos. Qed.

Lemma installed_leaf q l :
  path_ok I q → length q = 3%nat → idx_ok l →
  leaf (k_mem installed) root q l = leaf (k_mem k0) root q l.
Proof.
  pose proof since_new_table as Hs1. pose proof installed_before as Ht1.
  intros Hq Hl Hlok. rewrite <- (si_leaf _ _ _ _ Hs1) by done.
  assert (q ≠ p) as Hqp.
  { intros ->. destruct Hp as (_ & Hlen & _). rewrite length_app in Hlen. simpl in Hlen. lia. }
  destruct (decide (q = p ++ [i])) as [->|Hne].
  - unfold leaf. rewrite installed_walk, new_table_walk, walk_snoc, Ht by done.
    rewrite decide_True by done. cbn [mbind option_bind].
    unfold next_table. rewrite Hnp. by rewrite installed_empty.
  - unfold leaf. rewrite installed_walk, decide_False, new_table_walk by done.
    destruct (walk (k_mem k) root q) as [t'|] eqn:E; [|done]. cbn [mbind option_bind].
    unfold installed, set_ent. cbn [k_mem set_mem].
    rewrite (store_ent I root (with_new_table n k) (si_wf _ _ _ _ Hs1) p t i) with (q := q);
      eauto with seedos; [|by rewrite new_table_walk].
    by rewrite decide_False by naive_solver.
Qed.

Lemma installed_tables q t' :
  path_ok I q → walk (k_mem installed) root q = Some t' →
  walk (k_mem k0) root q = Some t' ∨ (t' / 4096) ∈ free_set (k_pmm k0).
Proof.
  intros Hq. rewrite installed_walk by done. case_decide as Hd.
  - intros [= <-]. right. rewrite Z.div_mul by lia. by apply (si_free _ _ _ _ Hs).
  - intros Hw. by apply (si_tables _ _ _ _ Hs).
Qed.

Lemma installed_untouched : untouched I root k0 installed.
Proof.
  eapply (since_slot_untouched I root k0 (with_new_table n k)); eauto using since_new_table, installed_before with seedos.
Qed.

Lemma installed_small :
  tst f PTE_HUGE = false → upper_small I root (with_new_table n k) → upper_small I root installed.
Proof.
  intros Hfs Hsm q t' j Hq Hw. rewrite installed_walk in Hw by eauto with seedos. case_decide as Hd.
  - injection Hw as <-. rewrite installed_empty; eauto with seedos.
  - rewrite <- (new_table_walk q) in Hw by eauto with seedos. unfold installed, set_ent. cbn [k_mem set_mem].
    rewrite (store_ent I root (with_new_table n k) (si_wf _ _ _ _ since_new_table) p t i) with (q := q);
      eauto using installed_before with seedos.
    case_decide; [|by apply (Hsm q)]. rewrite tst_huge, Z.lor_spec, <- (tst_huge f), Hfs, orb_false_r.
    rewrite <- (Z.mod_pow2_bits_low _ 12) by lia. change (2 ^ 12) with 4096. by rewrite Z.mod_mul by lia.
Qed.

Lemma since_installed : tst f PTE_HUGE = false → since I root k0 installed.
Proof.
  intros Hfs. pose proof since_new_table as Hs1.
  split; [apply installed_wf|apply installed_leaf|apply installed_tables|apply Hs1|apply installed_untouched|apply Hs1| |].
  - intros Hsm. apply installed_small; [done|]. by apply (si_small _ _ _ _ Hs1).
  - intros q t' Hq Hw%(si_keep _ _ _ _ Hs); [|done]. rewrite installed_walk by done. case_decide as Hd; [|done].
    rewrite Hd, walk_snoc, Ht in Hw. cbn in Hw. unfold next_table in Hw. by rewrite Hnp in Hw.
Qed.

End new_table.

(** ** One level of the descent *)

Lemma map_level_flags f :
  let g := if tst f PTE_USER then Z.lor (Z.lor PTE_PRESENT PTE_WRITABLE) PTE_USER
           else Z.lor PTE_PRESENT PTE_WRITABLE in
  Z.land g PTE_ADDR_MASK = 0 ∧ tst g PTE_PRESENT = true ∧ tst g PTE_HUGE = false.
Proof. simpl. by destruct (tst f PTE_USER). Qed.

(** How one level ends: out of pages with nothing changed, at the table that
    was there, or at a new empty table. *)
Inductive level_result (I : Z → Prop) (root : Z) (k0 k : kmem) (p : list Z) (i : Z) :
    option (Z * Z) * kmem → Prop :=
| level_oom :
    free_set (k_pmm k) ⊆ {[0]} → level_result I root k0 k p i (None, k)
| level_reuse next k' :
    since I root k0 k' → k_pmm k' = k_pmm k →
    walk (k_mem k) root (p ++ [i]) = Some next →
    (∀ q, path_ok I q → walk (k_mem k') root q = walk (k_mem k) root q) →
    level_result I root k0 k p i (Some (next, 0), k')
| level_new n k' :
    since I root k0 k' → n ∈ free_set (k_pmm k) → 0 < n →
    k_pmm k' = take_page n (k_pmm k) →
    walk (k_mem k) root (p ++ [i]) = None →
    (∀ q, path_ok I q → walk (k_mem k') root q =
       if decide (q = p ++ [i]) then Some (n * 4096) else walk (k_mem k) root q) →
    level_result I root k0 k p i (Some (n * 4096, n * 4096), k').

Lemma map_level_cases I root k0 k p t i flags :
  since I root k0 k → path_ok I (p ++ [i]) → walk (k_mem k) root p = Some t →
  level_result I root k0 k p i (map_level t i flags k).
Proof.
  intros Hs Hp Ht. unfold map_level.
  destruct (map_level_flags flags) as (Hf & Hfp & Hfs).
  set (g := if tst flags PTE_USER then _ else _) in *.
  destruct (tst (ent (k_mem k) t i) PTE_PRESENT) eqn:He.
  - assert (walk (k_mem k) root (p ++ [i]) = Some (Z.land (ent (k_mem k) t i) PTE_ADDR_MASK)).
    { rewrite walk_snoc, Ht. cbn. unfold next_table. by rewrite He. }
    destruct (since_set_user I root k0 k p t i Hs Hp Ht He).
    case_if; by constructor.
  - destruct (alloc_page_table_cases k) as [[Hfree ->]|(n & Hn & Hpos & ->)]; [eauto with seedos..| |].
    + by constructor.
    + destruct (Z.eqb_spec (n * 4096) 0); [lia|]. constructor; [|done|lia|done| |].
      * by apply (since_installed I root k0 k Hs n Hn ltac:(lia) p t i g).
      * rewrite walk_snoc, Ht. cbn. unfold next_table. by rewrite He.
      * by apply (installed_walk I root k0 k Hs n Hn ltac:(lia) p t i g).
Qed.

(** ** Undoing a new table *)

Lemma walk_none_app m t p q : walk m t p = None → walk m t (p ++ q) = None.
Proof. intros H. by rewrite walk_app, H. Qed.

Section undo.
Context (I : Z → Prop) (root : Z) (k0 k : kmem) (Hs : since I root k0 k).
Context (p : list Z) (t i n : Z) (Hp : path_ok I (p ++ [i])) (Hlen : (length p ≤ 1)%nat).
Context (Ht : walk (k_mem k) root p = Some t).
Context (Hnew : walk (k_mem k) root (p ++ [i]) = Some (n * 4096)).
Context (Hempty : ∀ j, idx_ok j → walk (k_mem k) root (p ++ [i; j]) = None).
Context (Hn : n ∈ free_set (k_pmm k0)) (Hold : walk (k_mem k0) root (p ++ [i]) = None).

Lemma undo_level_eq :
  undo_level t i (n * 4096) k = set_pmm (give_page n (k_pmm k)) (set_ent t i 0 k) ∧
  0 < n < total_pages (k_pmm k) ∧ (n ∉ free_set (k_pmm k)).
Proof.
  destruct (sw_used _ _ _ (si_wf _ _ _ _ Hs) _ _ Hp Hnew) as (_ & Hr & Hnf).
  rewrite Z.div_mul in Hr, Hnf by lia. split; [|done].
  unfold undo_level, k_pmm_free. destruct (Z.eqb_spec (n * 4096) 0); [lia|].
  destruct (pmm_free_cases (n * 4096) (k_pmm k) ltac:(lia)) as [(_ & _ & _ & E)|[Hc _]];
    unfold PAGE_SIZE in *; rewrite ?Z.mod_mul, Z.div_mul in * by lia.
  - cbn [k_pmm set_ent set_mem]. by rewrite E.
  - exfalso. naive_solver lia.
Qed.

Lemma undo_walk q :
  path_ok I q →
  walk (k_mem (undo_level t i (n * 4096) k)) root q =
  if decide (q = p ++ [i]) then None else walk (k_mem k) root q.
Proof.
  intros Hq. destruct undo_level_eq as (-> & _). cbn [k_mem set_pmm set_mem set_ent].
  destruct (decide ((p ++ [i]) `prefix_of` q)) as [[s ->]|Hnpre].
  - rewrite <- app_assoc in *. cbn [app] in *.
    rewrite (store_walk_through I root k (si_wf _ _ _ _ Hs) p t i) by eauto with seedos.
    change (tst 0 PTE_PRESENT) with false. cbn iota.
    case_decide as Hd; [done|]. destruct s as [|j s]; [done|].
    assert (idx_ok j) by (apply (path_ok_snoc_idx I (p ++ [i]) j s); rewrite <- app_assoc; exact Hq).
    change (i :: j :: s) with ([i; j] ++ s). rewrite app_assoc, walk_none_app; auto.
  - rewrite decide_False by (intros ->; by apply Hnpre).
    by rewrite (store_walk_other I root k (si_wf _ _ _ _ Hs) p t i) by eauto with seedos.
Qed.

(** The entry of an empty table is cleared and its page given back. *)
Lemma undo_level_ok :
  since I root k0 (undo_level t i (n * 4096) k) ∧
  free_set (k_pmm (undo_level t i (n * 4096) k)) = {[n]} ∪ free_set (k_pmm k).
Proof.
  pose proof undo_walk as Hwalk. destruct undo_level_eq as (E & Hr & Hnf). rewrite E in *.
  pose proof (si_wf _ _ _ _ Hs) as Hwf.
  assert (free_set (give_page n (k_pmm k)) = {[n]} ∪ free_set (k_pmm k)) as Hfs
    by (apply give_page_free_set; lia).
  split; [|done]. split; cbn [k_pmm set_pmm]; try apply Hs.
  - split; cbn [k_pmm set_pmm].
    + apply give_page_wf; [apply Hwf|lia|done].
    + apply Hwf.
    + intros q t' Hq. rewrite Hwalk by done. case_decide as Hd; [done|]. intros Hw.
      destruct (sw_used _ _ _ Hwf q t' Hq Hw) as (H1 & H2 & H3).
      split; [done|split; [done|]]. rewrite Hfs. intros [Hin%elem_of_singleton|]%elem_of_union; [|done].
      apply Hd. apply (sw_inj _ _ _ Hwf q (p ++ [i]) t'); [done..|].
      rewrite Hnew. f_equal. zdm.
    + intros q r t' Hq Hr'. rewrite !Hwalk by done. repeat case_decide; try done.
      by apply (sw_inj _ _ _ Hwf).
  - intros q l Hq Hl Hlok. rewrite <- (si_leaf _ _ _ _ Hs) by done. unfold leaf.
    rewrite Hwalk by done. rewrite decide_False.
    + destruct (walk (k_mem k) root q) as [t'|] eqn:Eq; [|done]. cbn [mbind option_bind].
      cbn [k_mem set_pmm set_ent set_mem].
      rewrite (store_ent I root k Hwf p t i) with (q := q); eauto with seedos.
      rewrite decide_False; [done|]. intros [-> _]. lia.
    + intros ->. rewrite length_app in Hl. simpl in Hl. lia.
  - intros q t' Hq. rewrite Hwalk by done. case_decide; [done|]. by apply (si_tables _ _ _ _ Hs).
  - rewrite Hfs. pose proof (si_free _ _ _ _ Hs). set_solver.
  - eapply (since_slot_untouched I root k0 k); eauto with seedos.
  - intros Hsm%(si_small _ _ _ _ Hs) q t' j Hq Hw. rewrite Hwalk in Hw by eauto with seedos.
    case_decide; [done|]. cbn [k_mem set_pmm set_ent set_mem].
    rewrite (store_ent I root k Hwf p t i) with (q := q); eauto with seedos.
    case_decide; [done|]. by apply (Hsm q).
  - intros q t' Hq Hw. rewrite Hwalk by done. case_decide as Hd; [by rewrite Hd, Hold in Hw|].
    by apply (si_keep _ _ _ _ Hs).
Qed.

End undo.

(** ** The whole descent *)

(** Pages that [pmm_alloc] can still hand out. *)
Definition available (k : kmem) : nat := size (free_set (k_pmm k) ∖ {[0]}).

Lemma available_oom k : free_set (k_pmm k) ⊆ {[0]} → available k = 0%nat.
Proof. intros H. unfold available. apply size_empty_iff. set_solver. Qed.

Lemma available_take n k k' :
  n ∈ free_set (k_pmm k) → 0 < n → k_pmm k' = take_page n (k_pmm k) →
  available k = S (available k').
Proof.
  intros Hn Hpos E. unfold available. rewrite E, take_page_free_set.
  replace (free_set (k_pmm k) ∖ {[n]} ∖ {[0]}) with (free_set (k_pmm k) ∖ {[0]} ∖ {[n]})
    by set_solver.
  assert (n ∈ free_set (k_pmm k) ∖ {[0]}) as Hin.
  { apply elem_of_difference. rewrite elem_of_singleton. split; [done|lia]. }
  rewrite (size_difference _ {[n]}) by set_solver. rewrite size_singleton.
  assert (size (free_set (k_pmm k) ∖ {[0]}) ≠ 0%nat); [|lia].
  intros E0%size_empty_inv. set_solver.
Qed.

(** How [vmm_map_page] ends. *)
Definition map_page_result (I : Z → Prop) (root va v : Z) (k : kmem) (res : Z * kmem) : Prop :=
  (∃ k1 pt, since I root k k1 ∧ walk (k_mem k1) root (upper_path va) = Some pt ∧
     res = (0, set_ent pt (PT_INDEX va) v k1)) ∨
  (∃ k', since I root k k' ∧ free_set (k_pmm k') = free_set (k_pmm k) ∧
     (available k ≤ 2)%nat ∧ res = (-1, k')).

Lemma level_result_walk I root k0 k p i next new k' :
  level_result I root k0 k p i (Some (next, new), k') → path_ok I (p ++ [i]) →
  since I root k0 k' ∧ walk (k_mem k') root (p ++ [i]) = Some next.
Proof.
  inversion 1; subst; intros Hp; split; try done.
  - by match goal with H : ∀ q, _ → walk (k_mem k') _ _ = _ |- _ => rewrite H by done end.
  - match goal with H : ∀ q, _ → walk (k_mem k') _ _ = _ |- _ => rewrite H by done end.
    by rewrite decide_True.
Qed.

(** Undoing a level after the levels below it have been undone brings the
    walks and the free pages back. *)
Lemma undo_after I root k0 k p t i next new k1 k2 :
  since I root k0 k → path_ok I (p ++ [i]) → (length p ≤ 1)%nat →
  walk (k_mem k) root p = Some t → level_result I root k0 k p i (Some (next, new), k1) →
  since I root k0 k2 → free_set (k_pmm k2) = free_set (k_pmm k1) →
  (∀ q, path_ok I q → walk (k_mem k2) root q = walk (k_mem k1) root q) →
  let k' := undo_level t i new k2 in
  since I root k0 k' ∧ free_set (k_pmm k') = free_set (k_pmm k) ∧
  (∀ q, path_ok I q → walk (k_mem k') root q = walk (k_mem k) root q).
Proof.
  intros Hs Hp Hlen Ht Hl Hs2 Hf2 Hw2.
  inversion Hl as [|next' k1' _ Epmm _ Hw1|n k1' _ Hn Hpos Epmm Hnone Hw1]; subst; cbn zeta.
  - change (undo_level t i 0 k2) with k2. split_and!; [done|congruence|].
    intros q Hq. by rewrite Hw2, Hw1.
  - assert (path_ok I p) as Hp' by eauto with seedos.
    assert (∀ q, path_ok I q → walk (k_mem k2) root q =
      if decide (q = p ++ [i]) then Some (n * 4096) else walk (k_mem k) root q) as Hw
      by (intros q Hq; by rewrite Hw2, Hw1).
    assert (walk (k_mem k2) root p = Some t) as Ht2.
    { rewrite Hw, decide_False by (done || by intros E%(f_equal length); rewrite length_app in E; simpl in E; lia).
      done. }
    assert (walk (k_mem k2) root (p ++ [i]) = Some (n * 4096)) as Hnew
      by (rewrite Hw by done; by rewrite decide_True).
    assert (∀ j, idx_ok j → walk (k_mem k2) root (p ++ [i; j]) = None) as Hempty.
    { intros j Hj. change [i; j] with ([i] ++ [j]). rewrite app_assoc, Hw.
      - rewrite decide_False by (intros E%(f_equal length); rewrite !length_app in E; simpl in E; lia).
        by apply walk_none_app.
      - destruct Hp as (HF & _ & Hh). split_and!.
        + apply Forall_app. split; [done|by apply Forall_singleton].
        + rewrite !length_app. simpl. lia.
        + by destruct p. }
    assert (n ∈ free_set (k_pmm k0)) as Hn0 by (by apply (si_free _ _ _ _ Hs)).
    assert (walk (k_mem k0) root (p ++ [i]) = None) as Hold.
    { destruct (walk (k_mem k0) root (p ++ [i])) as [t'|] eqn:E; [|done].
      apply (si_keep _ _ _ _ Hs) in E; [congruence|done]. }
    destruct (undo_level_ok I root k0 k2 Hs2 p t i n Hp Hlen Ht2 Hnew Hempty Hn0 Hold) as [Hs' Hf'].
    split_and!; [done| |].
    + rewrite Hf', Hf2, Epmm, take_page_free_set. apply set_eq. intros x.
      rewrite elem_of_union, elem_of_difference, elem_of_singleton.
      destruct (decide (x = n)); set_solver.
    + intros q Hq. rewrite (undo_walk I root k0 k2 Hs2 p t i n Hp Hlen Ht2 Hnew Hempty q Hq), Hw by done.
      case_decide; [by subst|done].
Qed.

Lemma available_level I root k0 k p i next new k1 :
  level_result I root k0 k p i (Some (next, new), k1) → (available k ≤ S (available k1))%nat.
Proof.
  inversion 1 as [|? ? _ E _ _|n ? _ Hn Hpos E _ _]; subst.
  - unfold available. rewrite E. lia.
  - by rewrite (available_take n k k1).
Qed.

Lemma map_page_cases I root va phys flags k :
  space_wf I root k → I (PML4_INDEX va) →
  map_page_result I root va (Z.lor (Z.land phys PTE_ADDR_MASK) flags) k
    (vmm_map_page root va phys flags k).
Proof.
  intros Hwf HI. pose proof (upper_path_ok I va HI) as Hp3.
  change (upper_path va) with ([PML4_INDEX va; PDPT_INDEX va] ++ [PD_INDEX va]) in Hp3.
  assert (path_ok I ([PML4_INDEX va] ++ [PDPT_INDEX va])) as Hp2 by (by apply (path_ok_prefix I _ [PD_INDEX va])).
  assert (path_ok I ([] ++ [PML4_INDEX va])) as Hp1 by (by apply (path_ok_prefix I _ [PDPT_INDEX va])).
  pose proof (since_refl I root k Hwf) as Hs0. unfold vmm_map_page.
  pose proof (map_level_cases I root k k [] root _ flags Hs0 Hp1 eq_refl) as L1.
  destruct (map_level root _ flags k) as [[[pdpt new1]|] k1].
  2:{ inversion L1; subst. right. exists k1. rewrite available_oom by done.
      split_and!; [done|done|lia|done]. }
  destruct (level_result_walk _ _ _ _ _ _ _ _ _ L1 Hp1) as [Hs1 W1].
  pose proof (map_level_cases I root k k1 _ pdpt _ flags Hs1 Hp2 W1) as L2.
  pose proof (available_level _ _ _ _ _ _ _ _ _ L1) as A1.
  destruct (map_level pdpt _ flags k1) as [[[pd new2]|] k2].
  2:{ inversion L2; subst. right.
      destruct (undo_after I root k k [] root (PML4_INDEX va) pdpt new1 k2 k2) as (? & ? & _); try done; [simpl; lia|].
      rewrite (available_oom k2) in A1 by done. eexists. split_and!; [done|done|lia|done]. }
  destruct (level_result_walk _ _ _ _ _ _ _ _ _ L2 Hp2) as [Hs2 W2].
  pose proof (map_level_cases I root k k2 _ pd _ flags Hs2 Hp3 W2) as L3.
  pose proof (available_level _ _ _ _ _ _ _ _ _ L2) as A2.
  destruct (map_level pd _ flags k2) as [[[pt new3]|] k3].
  2:{ inversion L3; subst. right.
      destruct (undo_after I root k k1 [PML4_INDEX va] pdpt (PDPT_INDEX va) pd new2 k3 k3 Hs1 Hp2) as (? & ? & ?); try done.
      edestruct (undo_after I root k k [] root (PML4_INDEX va) pdpt new1 k1) as (? & ? & _); try done; [simpl; lia|].
      rewrite (available_oom k3) in A2 by done. eexists. split_and!; [done|done|lia|done]. }
  destruct (level_result_walk _ _ _ _ _ _ _ _ _ L3 Hp3) as [Hs3 W3].
  left. by exists k3, pt.
Qed.

(** ** Steps on a region, seen from outside *)

(** What an operation on one region may do to the rest of the machine. *)
Record region_step (I : Z → Prop) (root : Z) (k k' : kmem) : Prop := {
  rs_wf : space_wf I root k';
  rs_untouched : untouched I root k k';
  rs_free : free_set (k_pmm k') ⊆ free_set (k_pmm k);
  rs_total : total_pages (k_pmm k') = total_pages (k_pmm k);
  rs_tables : ∀ p t, path_ok I p → walk (k_mem k') root p = Some t →
    walk (k_mem k) root p = Some t ∨ (t / 4096) ∈ free_set (k_pmm k);
}.

Lemma region_step_refl I root k : space_wf I root k → region_step I root k k.
Proof. intros. split; try done. by left. Qed.

Lemma since_region_step I root k k' : since I root k k' → region_step I root k k'.
Proof. intros []. by split; try naive_solver. Qed.


Lemma region_step_trans I root k0 k1 k2 :
  region_step I root k0 k1 → region_step I root k1 k2 → region_step I root k0 k2.
Proof.
  intros H1 H2. split.
  - apply H2.
  - intros a Ha Hf. rewrite (rs_untouched _ _ _ _ H2); [by apply (rs_untouched _ _ _ _ H1)| |].
    + intros (p & t & i & Hsl & Hw & ->). destruct Hsl as (Hp & Hi & Hh).
      destruct (rs_tables _ _ _ _ H1 p t Hp Hw) as [Hw0|Hin].
      * apply Ha. by exists p, t, i.
      * apply Hf. rewrite slot_page; [done|eapply table_aligned, Hw; [apply H1|done]|done].
    + pose proof (rs_free _ _ _ _ H1). set_solver.
  - etrans; [apply H2|apply H1].
  - rewrite (rs_total _ _ _ _ H2). apply H1.
  - intros p t Hp Hw. destruct (rs_tables _ _ _ _ H2 p t Hp Hw) as [Hw1|Hin].
    + by apply (rs_tables _ _ _ _ H1).
    + right. by apply (rs_free _ _ _ _ H1).
Qed.

(** A store into a page table. *)
Section store_leaf.
Context (I : Z → Prop) (root : Z) (k : kmem) (p : list Z) (t l v : Z).
Context (Hwf : space_wf I root k) (Hp : path_ok I p) (Hlen : length p = 3%nat) (Hl : idx_ok l).
Context (Hw : walk (k_mem k) root p = Some t).

Lemma store_leaf_walk q :
  path_ok I q → walk (k_mem (set_ent t l v k)) root q = walk (k_mem k) root q.
Proof.
  intros Hq. apply (store_walk_other I root k Hwf p); eauto with seedos.
  intros Hpre%prefix_length. rewrite length_app in Hpre. destruct Hq as (_ & Hq & _). simpl in *. lia.
Qed.

Lemma store_leaf_at q j :
  path_ok I q → idx_ok j →
  leaf (k_mem (set_ent t l v k)) root q j =
  if decide (q = p ∧ j = l) then (if tst v PTE_PRESENT then Some v else None)
  else leaf (k_mem k) root q j.
Proof.
  intros Hq Hj. unfold leaf. rewrite store_leaf_walk by done.
  case_decide as Hd.
  - destruct Hd as [-> ->]. rewrite Hw. cbn [mbind option_bind k_mem set_ent set_mem].
    unfold ent at 1 2. by rewrite rd_wr_eq.
  - destruct (walk (k_mem k) root q) as [t'|] eqn:E; [|done].
    cbn [mbind option_bind k_mem set_ent set_mem].
    rewrite (store_ent I root k Hwf p t l) with (q := q) by eauto with seedos.
    by rewrite decide_False.
Qed.

Lemma store_leaf_step : region_step I root k (set_ent t l v k).
Proof.
  split; try done.
  - apply (space_wf_ext I root k); [done|done|apply store_leaf_walk].
  - apply (since_slot_untouched I root k k p t l v); eauto using since_refl with seedos.
  - intros q t' Hq. rewrite store_leaf_walk by done. by left.
Qed.

Lemma store_leaf_small : upper_small I root k → upper_small I root (set_ent t l v k).
Proof.
  intros Hsm q t' j Hq Hw'. rewrite store_leaf_walk in Hw' by eauto with seedos.
  unfold set_ent. cbn [k_mem set_mem].
  rewrite (store_ent I root k Hwf p t l) with (q := q); eauto with seedos.
  case_decide as Hd; [|by apply (Hsm q)]. destruct Hd as [-> _]. destruct Hq as (_ & Hq & _).
  rewrite length_app in Hq. simpl in Hq. lia.
Qed.

End store_leaf.

(** Two regions without a common table slot. *)
Definition disjoint_regions (I1 : Z → Prop) (root1 : Z) (I2 : Z → Prop) (root2 : Z) (k : kmem)
    : Prop :=
  ∀ a, slot_of I1 root1 k a → slot_of I2 root2 k a → False.

Section other_region.
Context (I1 I2 : Z → Prop) (root1 root2 : Z) (k k' : kmem).
Context (Hst : region_step I1 root1 k k') (Hwf2 : space_wf I2 root2 k).
Context (Hdis : disjoint_regions I1 root1 I2 root2 k).

Lemma other_ent q t j :
  slot_ok I2 q j → walk (k_mem k) root2 q = Some t →
  ent (k_mem k') t j = ent (k_mem k) t j.
Proof.
  intros Hsl Hw. apply (rs_untouched _ _ _ _ Hst).
  - intros H1. apply (Hdis _ H1). by exists q, t, j.
  - destruct Hsl as (Hq & Hj & _). destruct (sw_used _ _ _ Hwf2 q t Hq Hw) as (Ha & _ & Hf).
    by rewrite slot_page.
Qed.

Lemma other_walk q : path_ok I2 q → walk (k_mem k') root2 q = walk (k_mem k) root2 q.
Proof.
  intros Hq. apply walk_ext. intros r j s t -> Hr. unfold next_table.
  rewrite (other_ent r t j); eauto with seedos.
Qed.

Lemma other_leaf q l :
  path_ok I2 q → length q = 3%nat → idx_ok l →
  leaf (k_mem k') root2 q l = leaf (k_mem k) root2 q l.
Proof.
  intros Hq Hlen Hl. unfold leaf. rewrite other_walk by done.
  destruct (walk (k_mem k) root2 q) as [t|] eqn:E; [|done]. cbn [mbind option_bind].
  by rewrite (other_ent q t) by eauto with seedos.
Qed.

Lemma other_region_kept :
  space_wf I2 root2 k' ∧ disjoint_regions I1 root1 I2 root2 k' ∧
  ∀ va, I2 (PML4_INDEX va) → pte_at root2 va k' = pte_at root2 va k.
Proof.
  pose proof (rs_free _ _ _ _ Hst) as Hfree. split_and!.
  - split.
    + apply (sw_pmm _ _ _ (rs_wf _ _ _ _ Hst)).
    + apply (sw_phys _ _ _ (rs_wf _ _ _ _ Hst)).
    + intros q t Hq. rewrite other_walk by done. intros Hw.
      destruct (sw_used _ _ _ Hwf2 q t Hq Hw) as (H1 & H2 & H3).
      split; [done|]. rewrite (rs_total _ _ _ _ Hst). split; [done|]. set_solver.
    + intros q r t Hq Hr. rewrite !other_walk by done. by apply (sw_inj _ _ _ Hwf2).
  - intros a (p1 & t1 & i1 & Hs1 & Hw1 & ->) (p2 & t2 & i2 & Hs2 & Hw2 & E).
    destruct Hs1 as (Hp1 & Hi1 & Hh1). destruct Hs2 as (Hp2 & Hi2 & Hh2).
    assert (t1 mod 4096 = 0) by (eapply table_aligned, Hw1; [apply Hst|done]).
    rewrite other_walk in Hw2 by done.
    destruct (sw_used _ _ _ Hwf2 p2 t2 Hp2 Hw2) as (Ha2 & _ & Hf2).
    destruct (rs_tables _ _ _ _ Hst p1 t1 Hp1 Hw1) as [Hw1'|Hin].
    + eapply Hdis; [by exists p1, t1, i1|]. by exists p2, t2, i2.
    + apply Hf2. by rewrite <- (slot_page t2 i2), <- E, slot_page.
  - intros va HI. apply other_leaf; eauto with seedos.
Qed.

End other_region.

