(* ===== verification/VmmProps.v ===== *)
(** * Properties of address spaces

    The user-visible contract of [mm/vmm.c]: mapping, unmapping and changing
    flags against the view of an address space as a function from pages to
    present entries, isolation between address spaces, and the user range
    checks that guard every copy from and to user memory. *)
From S2P Require Import Prelude Pmm Page Vmm VmmWalk VmmMap.
Local Open Scope Z_scope.

(** Two addresses on the same page of the 48-bit address space. *)
Definition same_page (va vb : Z) : Prop := (va / 4096) mod 2 ^ 36 = (vb / 4096) mod 2 ^ 36.

#[global] Instance same_page_dec va vb : Decision (same_page va vb).
Proof. unfold same_page. apply _. Defined.

Lemma same_page_pte root va vb k : same_page va vb → pte_at root va k = pte_at root vb k.
Proof. intros [E1 E2]%same_page_indices. unfold pte_at. by rewrite E1, E2. Qed.

(** ** Storing a page-table entry *)

Section store_pte.
Context (I : Z → Prop) (root va pt v : Z) (k : kmem).
Context (Hwf : space_wf I root k) (HI : I (PML4_INDEX va)).
Context (Hw : walk (k_mem k) root (upper_path va) = Some pt).

Lemma store_pte_step : region_step I root k (set_ent pt (PT_INDEX va) v k).
Proof. apply (store_leaf_step I root k (upper_path va)); eauto with seedos. Qed.

Lemma store_pte_at vb :
  I (PML4_INDEX vb) →
  pte_at root vb (set_ent pt (PT_INDEX va) v k) =
  if decide (same_page va vb) then (if tst v PTE_PRESENT then Some v else None)
  else pte_at root vb k.
Proof.
  intros HIb. unfold pte_at.
  rewrite (store_leaf_at I root k (upper_path va)); eauto with seedos.
  apply decide_ext. unfold same_page. rewrite same_page_indices.
  split; intros [E1 E2]; split; congruence.
Qed.

End store_pte.

(** ** Mapping *)

(** C3 [vmm_map_page_maps]: when [vmm_map_page] returns 0 the page of [virt]
    translates to the requested frame with exactly the requested flags, every
    other page of the region keeps its entry, the tables stay distinct
    allocated pages, and nothing outside the region's own table slots and the
    previously free pages is written. *)
Theorem vmm_map_page_maps I root va phys flags k k' :
  space_wf I root k → I (PML4_INDEX va) →
  0 ≤ flags < 2 ^ 64 → Z.land flags PTE_ADDR_MASK = 0 → tst flags PTE_PRESENT = true →
  vmm_map_page root va phys flags k = (0, k') →
  vmm_get_physical root va k' = Z.land phys PTE_ADDR_MASK ∧
  vmm_get_pte_flags root va k' = flags ∧
  (∀ vb, I (PML4_INDEX vb) → ¬ same_page va vb → pte_at root vb k' = pte_at root vb k) ∧
  space_wf I root k' ∧ untouched I root k k'.
Proof.
  intros Hwf HI Hr Hf Hp E. pose proof (map_page_cases I root va phys flags k Hwf HI) as H.
  rewrite E in H. destruct H as [(k1 & pt & Hs & Hw & [= ->])|(? & _ & _ & _ & [=])].
  pose proof (si_wf _ _ _ _ Hs) as Hwf1.
  rewrite vmm_get_physical_pte, vmm_get_pte_flags_pte.
  rewrite (store_pte_at I root va pt _ k1 Hwf1 HI Hw va HI), decide_True by done.
  assert (tst (Z.lor (Z.land phys PTE_ADDR_MASK) flags) PTE_PRESENT = true) as ->.
  { rewrite tst_present in *. by rewrite Z.lor_spec, Hp, orb_true_r. }
  rewrite land_lor_flags, flags_of_entry by done. split_and!; [done|done| | |].
  - intros vb HIb Hne. rewrite (store_pte_at I root va pt _ k1 Hwf1 HI Hw vb HIb).
    rewrite decide_False by done. unfold pte_at. apply (si_leaf _ _ _ _ Hs); eauto with seedos.
  - apply store_pte_step; done.
  - eapply since_slot_untouched; eauto with seedos.
Qed.


(** ** Unmapping and changing flags *)

(** A huge-page bit in the page-directory-pointer or page-directory entry. *)
Definition huge_on_path (root va : Z) (k : kmem) : bool :=
  match walk (k_mem k) root [PML4_INDEX va] with
  | Some pdpt =>
      tst (ent (k_mem k) pdpt (PDPT_INDEX va)) PTE_HUGE ||
      match walk (k_mem k) root [PML4_INDEX va; PDPT_INDEX va] with
      | Some pd => tst (ent (k_mem k) pd (PD_INDEX va)) PTE_HUGE
      | None => false
      end
  | None => false
  end.

Lemma vmm_unmap_page_walk root va k :
  vmm_unmap_page root va k =
  match walk (k_mem k) root (upper_path va) with
  | Some pt => if huge_on_path root va k then (-1, k) else (0, set_ent pt (PT_INDEX va) 0 k)
  | None => (-1, k)
  end.
Proof.
  unfold vmm_unmap_page, huge_on_path, upper_path. cbn [walk].
  destruct (next_table (k_mem k) root _) as [pdpt|]; [|done]. cbn [mbind option_bind].
  destruct (next_table (k_mem k) pdpt _) as [pd|]; [|done]. cbn [mbind option_bind].
  destruct (tst (ent (k_mem k) pdpt _) PTE_HUGE); [by destruct (next_table (k_mem k) pd _)|].
  destruct (next_table (k_mem k) pd _) as [pt|]; [|done]. done.
Qed.

(** For a page mapped through ordinary tables
    [vmm_unmap_page] returns 0 and removes exactly that page's entry; when it
    returns anything else it returns -1 and changes nothing. *)
Theorem vmm_unmap_page_unmaps I root va k :
  space_wf I root k → I (PML4_INDEX va) →
  let '(r, k') := vmm_unmap_page root va k in
  (is_Some (pte_at root va k) → huge_on_path root va k = false → r = 0) ∧
  (r = 0 → vmm_get_physical root va k' = 0 ∧ vmm_get_pte_flags root va k' = 0 ∧
     (∀ vb, I (PML4_INDEX vb) → ¬ same_page va vb → pte_at root vb k' = pte_at root vb k) ∧
     k_pmm k' = k_pmm k ∧ space_wf I root k' ∧ untouched I root k k') ∧
  (r ≠ 0 → r = -1 ∧ k' = k).
Proof.
  intros Hwf HI. rewrite vmm_unmap_page_walk.
  destruct (walk (k_mem k) root (upper_path va)) as [pt|] eqn:Hw.
  - destruct (huge_on_path root va k) eqn:Hh; split_and!; try done.
    rewrite vmm_get_physical_pte, vmm_get_pte_flags_pte.
    rewrite (store_pte_at I root va pt 0 k Hwf HI Hw va HI), decide_True by done.
    intros _. change (tst 0 PTE_PRESENT) with false. split_and!; try done.
    + intros vb HIb Hne. by rewrite (store_pte_at I root va pt 0 k Hwf HI Hw vb HIb), decide_False.
    + by apply store_pte_step.
    + by apply store_pte_step.
  - split_and!; try done. unfold pte_at, leaf. rewrite Hw. by intros [? [=]].
Qed.

Lemma vmm_set_pte_flags_walk root va flags k :
  vmm_set_pte_flags root va flags k =
  match walk (k_mem k) root (upper_path va), pte_at root va k with
  | Some pt, Some e => (0, set_ent pt (PT_INDEX va) (Z.lor (Z.land e PTE_ADDR_MASK) flags) k)
  | _, _ => (-1, k)
  end.
Proof.
  unfold vmm_set_pte_flags, pte_at, leaf. rewrite pte_slot_walk.
  destruct (walk _ _ _) as [pt|]; [|done]. cbn [mbind option_bind].
  unfold ent. by destruct (tst _ PTE_PRESENT).
Qed.

(** Changing the flags of a mapped page keeps its
    frame, installs exactly the new flags and leaves every other page alone;
    on a page that is not mapped it fails without effect. *)
Theorem vmm_set_pte_flags_spec I root va flags k :
  space_wf I root k → I (PML4_INDEX va) →
  0 ≤ flags < 2 ^ 64 → Z.land flags PTE_ADDR_MASK = 0 → tst flags PTE_PRESENT = true →
  let '(r, k') := vmm_set_pte_flags root va flags k in
  match pte_at root va k with
  | None => r = -1 ∧ k' = k
  | Some e =>
      r = 0 ∧ vmm_get_physical root va k' = vmm_get_physical root va k ∧
      vmm_get_pte_flags root va k' = flags ∧
      (∀ vb, I (PML4_INDEX vb) → ¬ same_page va vb → pte_at root vb k' = pte_at root vb k) ∧
      k_pmm k' = k_pmm k ∧ space_wf I root k' ∧ untouched I root k k'
  end.
Proof.
  intros Hwf HI Hr Hf Hp. rewrite vmm_set_pte_flags_walk.
  rewrite !vmm_get_physical_pte.
  destruct (pte_at root va k) as [e|] eqn:He; [|by destruct (walk _ _ _)].
  unfold pte_at, leaf in He. destruct (walk _ _ _) as [pt|] eqn:Hw; [|done]. clear He.
  rewrite vmm_get_physical_pte, vmm_get_pte_flags_pte.
  rewrite (store_pte_at I root va pt _ k Hwf HI Hw va HI), decide_True by done.
  assert (tst (Z.lor (Z.land e PTE_ADDR_MASK) flags) PTE_PRESENT = true) as ->.
  { rewrite tst_present in *. by rewrite Z.lor_spec, Hp, orb_true_r. }
  rewrite land_lor_flags, flags_of_entry by done. split_and!; try done.
  - intros vb HIb Hne. by rewrite (store_pte_at I root va pt _ k Hwf HI Hw vb HIb), decide_False.
  - by apply store_pte_step.
  - by apply store_pte_step.
Qed.

(** ** Isolation *)

(** The operations a process's address space goes through. *)
Inductive space_op :=
| DoMap (va phys flags : Z)
| DoUnmap (va : Z)
| DoSetFlags (va flags : Z).

Definition space_exec (root : Z) (k : kmem) (o : space_op) : kmem :=
  match o with
  | DoMap va phys flags => (vmm_map_page root va phys flags k).2
  | DoUnmap va => (vmm_unmap_page root va k).2
  | DoSetFlags va flags => (vmm_set_pte_flags root va flags k).2
  end.

Definition space_op_in (I : Z → Prop) (o : space_op) : Prop :=
  match o with
  | DoMap va _ _ | DoUnmap va | DoSetFlags va _ => I (PML4_INDEX va)
  end.

Lemma space_exec_step I root k o :
  space_wf I root k → space_op_in I o → region_step I root k (space_exec root k o).
Proof.
  intros Hwf HI. pose proof (since_refl _ _ _ Hwf) as Hs0.
  destruct o as [va phys flags|va|va flags]; simpl in *.
  - destruct (map_page_cases I root va phys flags k Hwf HI)
      as [(k1 & pt & Hs & Hw & ->)|(k1 & Hs & _ & _ & ->)]; simpl.
    + eapply region_step_trans; [by apply since_region_step|].
      apply store_pte_step; [apply Hs|done|done].
    + by apply since_region_step.
  - rewrite vmm_unmap_page_walk. repeat case_match; simpl;
      eauto using region_step_refl, store_pte_step.
  - rewrite vmm_set_pte_flags_walk. repeat case_match; simpl;
      eauto using region_step_refl, store_pte_step.
Qed.

(** C13 [address_spaces_isolated]: two address spaces whose user tables share
    no slot stay that way under any sequence of map, unmap and flag changes on
    one of them, and no translation of the other changes. *)
Theorem address_spaces_isolated I1 I2 root1 root2 k ops :
  space_wf I1 root1 k → space_wf I2 root2 k → disjoint_regions I1 root1 I2 root2 k →
  Forall (space_op_in I1) ops →
  let k' := foldl (space_exec root1) k ops in
  space_wf I1 root1 k' ∧ space_wf I2 root2 k' ∧ disjoint_regions I1 root1 I2 root2 k' ∧
  ∀ va, I2 (PML4_INDEX va) → pte_at root2 va k' = pte_at root2 va k.
Proof.
  revert k. induction ops as [|o ops IH]; intros k H1 H2 Hd Hops; [done|].
  inversion_clear Hops as [|? ? Ho Hops'].
  pose proof (space_exec_step I1 root1 k o H1 Ho) as Hst.
  destruct (other_region_kept I1 I2 root1 root2 k _ Hst H2 Hd) as (H2' & Hd' & Hsame).
  destruct (IH _ (rs_wf _ _ _ _ Hst) H2' Hd' Hops') as (? & ? & ? & Hrest).
  split_and!; [done..|]. intros va HI. simpl. rewrite Hrest by done. by apply Hsame.
Qed.

(** ** User ranges *)

Definition byte_range_ok (ptr len : Z) : Prop :=
  0 ≤ ptr < 2 ^ 64 ∧ 0 ≤ len < 2 ^ 64.

Lemma vmm_validate_user_range_iff ptr len :
  byte_range_ok ptr len →
  vmm_validate_user_range ptr len = true ↔ 0 < ptr ∧ 0 < len ∧ ptr + len ≤ USER_SPACE_TOP.
Proof.
  intros [Hp Hl]. unfold vmm_validate_user_range, USER_SPACE_TOP.
  rewrite u64_add_wrap by lia.
  destruct (Z.eqb_spec ptr 0); [naive_solver lia|].
  destruct (Z.leb_spec 140737488355328 ptr); [naive_solver lia|].
  destruct (Z.eqb_spec len 0); [naive_solver lia|].
  destruct (Z.ltb_spec (ptr + len) 18446744073709551616).
  - destruct (Z.ltb_spec (ptr + len) ptr); [lia|].
    destruct (Z.ltb_spec 140737488355328 (ptr + len)); simpl; naive_solver lia.
  - destruct (Z.ltb_spec (ptr + len - 18446744073709551616) ptr); simpl; naive_solver lia.
Qed.

Lemma page_mask_not a : 0 ≤ a < 2 ^ 64 → Z.land a (~64 (VMM_PAGE_SIZE - 1)) = a / 4096 * 4096.
Proof. intros Ha. apply (land_not_ones a 12); lia. Qed.

(** The loop visits exactly the pages that intersect the range. *)
Lemma range_pages_iff ptr len i :
  0 ≤ ptr → 0 < len → ptr + len < 2 ^ 64 → 0 ≤ i →
  i < Z.of_nat (range_pages ptr len) ↔ ptr / 4096 * 4096 + i * 4096 < ptr + len.
Proof.
  intros. unfold range_pages. rewrite page_mask_not by lia. unfold VMM_PAGE_SIZE.
  rewrite Z2Nat.id by (apply Z.div_pos; zdm). zdm.
Qed.

(** A byte a process may access in the given way. *)
Definition byte_allowed (root : Z) (k : kmem) (require alt a : Z) : Prop :=
  ∃ e, pte_at root a k = Some e ∧ tst e PTE_USER = true ∧
       (require = 0 ∨ tst e require = true ∨ (alt ≠ 0 ∧ tst e alt = true)).

Lemma tst_flags e f :
  0 ≤ f < 2 ^ 64 → Z.land f PTE_ADDR_MASK = 0 →
  tst (Z.land e (~64 PTE_ADDR_MASK)) f = tst e f.
Proof.
  intros Hr Hf. unfold tst. rewrite <- Z.land_assoc.
  pose proof (flags_of_entry 0 f Hr Hf) as E. rewrite Z.land_0_l, Z.lor_0_l in E.
  by rewrite (Z.land_comm (~64 PTE_ADDR_MASK)), E.
Qed.

Lemma byte_allowed_same_page root k require alt va vb :
  same_page va vb → byte_allowed root k require alt va → byte_allowed root k require alt vb.
Proof. intros H. unfold byte_allowed. by rewrite (same_page_pte root va vb k H). Qed.

(** One iteration of the loop accepts exactly the allowed pages. *)
Lemma range_step_iff root k require alt va :
  0 ≤ require < 2 ^ 64 → Z.land require PTE_ADDR_MASK = 0 →
  0 ≤ alt < 2 ^ 64 → Z.land alt PTE_ADDR_MASK = 0 →
  let flags := vmm_get_pte_flags root va k in
  let step : unit + bool :=
    if negb (tst flags PTE_PRESENT) then inr false
    else if negb (tst flags PTE_USER) then inr false
    else if negb (require =? 0) && negb (tst flags require) &&
            negb (negb (alt =? 0) && tst flags alt) then inr false
    else inl tt in
  (step = inl tt ∨ step = inr false) ∧
  (step = inl tt ↔ byte_allowed root k require alt va).
Proof.
  intros Hr Hrm Ha Ham. cbn zeta. rewrite vmm_get_pte_flags_pte. unfold byte_allowed.
  destruct (pte_at root va k) as [e|] eqn:E.
  2:{ change (tst 0 PTE_PRESENT) with false. simpl. split; [by right|].
      split; [done|]. by intros (? & ? & _). }
  rewrite !tst_flags by done.
  assert (tst e PTE_PRESENT = true) as ->.
  { unfold pte_at, leaf in E. destruct (walk _ _ _) as [t|]; [|done]. simpl in E.
    destruct (tst (ent _ t _) PTE_PRESENT) eqn:Hp; [|done]. by injection E as <-. }
  simpl. destruct (tst e PTE_USER) eqn:Hu; simpl.
  2:{ split; [by right|]. split; [done|]. intros (e' & [= <-] & Hu' & _). congruence. }
  destruct (Z.eqb_spec require 0), (tst e require) eqn:H1, (Z.eqb_spec alt 0), (tst e alt) eqn:H2;
    simpl; (split; [by (left + right)|]); split; try done;
    try (intros _; exists e; naive_solver);
    intros (e' & [= <-] & _ & Hc); naive_solver congruence.
Qed.

(** A range is accepted exactly when it is non-empty,
    lies below the top of user space, and every byte of it is on a present
    user page with one of the required permissions; no range that wraps around
    the address space is accepted. *)
Theorem user_range_check_iff root ptr len require alt k :
  byte_range_ok ptr len →
  0 ≤ require < 2 ^ 64 → Z.land require PTE_ADDR_MASK = 0 →
  0 ≤ alt < 2 ^ 64 → Z.land alt PTE_ADDR_MASK = 0 →
  user_range_check root ptr len require alt k = true ↔
  0 < ptr ∧ 0 < len ∧ ptr + len ≤ USER_SPACE_TOP ∧
  ∀ a, ptr ≤ a < ptr + len → byte_allowed root k require alt a.
Proof.
  intros Hok Hr Hrm Ha Ham. unfold user_range_check.
  pose proof (vmm_validate_user_range_iff ptr len Hok) as Hv.
  destruct (vmm_validate_user_range ptr len); simpl; [|naive_solver].
  destruct Hv as [(Hp & Hl & Htop) _]; [done|]. unfold USER_SPACE_TOP in *.
  rewrite for_until_check by (intros j; by apply range_step_iff).
  setoid_rewrite (λ j, proj2 (range_step_iff root k require alt j Hr Hrm Ha Ham)).
  rewrite page_mask_not by (destruct Hok; lia). unfold VMM_PAGE_SIZE.
  split.
  - intros H. split_and!; [done..|]. intros a Hab.
    apply byte_allowed_same_page with (va := ptr / 4096 * 4096 + (a / 4096 - ptr / 4096) * 4096).
    + unfold same_page. f_equal. rewrite <- Z.mul_add_distr_r, Z.div_mul by lia. lia.
    + apply H. rewrite Z.add_0_l, range_pages_iff; zdm.
  - intros (_ & _ & _ & H) j Hj.
    pose proof (proj1 (range_pages_iff ptr len j ltac:(lia) Hl ltac:(lia) ltac:(lia)) ltac:(lia)).
    apply byte_allowed_same_page with (va := Z.max ptr (ptr / 4096 * 4096 + j * 4096)).
    + unfold same_page. f_equal. zdm.
    + apply H. zdm.
Qed.
