(* ===== verification/VmmCow.v ===== *)
(** * Creating and copying address spaces

    [vmm_create_address_space] gives an empty user half and the kernel's upper
    half.  [vmm_copy_address_space_cow] walks the source tree depth first; the
    proof follows the recursion with one contract per subtree, and concludes
    that parent and child see the same frames, writable pages having become
    read-only copy-on-write pages in both. *)
From S2P Require Import Prelude Pmm Page Vmm VmmWalk VmmMap VmmProps.
Local Open Scope Z_scope.

(** The user half: PML4 slots 0 to 255. *)
Definition user_half (i : Z) : Prop := i < 256.

#[local] Opaque zero_page for_loop for_until.

(** ** An address space with no user tables *)

Lemma space_wf_empty I root k :
  pmm_wf (k_pmm k) → total_pages (k_pmm k) ≤ 2 ^ 40 → used_page (k_pmm k) root →
  (∀ i, idx_ok i → I i → tst (ent (k_mem k) root i) PTE_PRESENT = false) →
  space_wf I root k.
Proof.
  intros Hp Ht Hu Hempty.
  assert (∀ p t, path_ok I p → walk (k_mem k) root p = Some t → p = [] ∧ t = root) as Hnil.
  { intros [|i p] t (Hf & _ & HI); simpl; [naive_solver|]. inversion Hf; subst.
    unfold next_table. rewrite Hempty by done. done. }
  split; try done.
  - intros p t Hok Hw. by destruct (Hnil p t Hok Hw) as [-> ->].
  - intros p q t Hokp Hokq H1 H2. destruct (Hnil p t Hokp H1), (Hnil q t Hokq H2). congruence.
Qed.

(** Entries of [dst] after the copy of the upper half of [src]. *)
Lemma copy_kernel_half_ent src dst k t i :
  src mod 4096 = 0 → dst mod 4096 = 0 → t mod 4096 = 0 → src ≠ dst → idx_ok i →
  ent (k_mem (copy_kernel_half src dst k)) t i =
  if decide (t = dst ∧ 256 ≤ i) then ent (k_mem k) src i else ent (k_mem k) t i.
Proof.
  intros Hsrc Hdst Ht Hne Hi. unfold copy_kernel_half.
  pose proof (for_loop_ind (λ j k', 256 ≤ j ∧ ∀ t i, t mod 4096 = 0 → idx_ok i →
    ent (k_mem k') t i = if decide (t = dst ∧ 256 ≤ i < j) then ent (k_mem k) src i
                         else ent (k_mem k) t i)
    (PAGE_TABLE_ENTRIES - 256) KERNEL_PML4_START
    (λ i k, set_ent dst i (ent (k_mem k) src i) k) k) as Hind.
  destruct Hind as [_ Hall].
  - unfold KERNEL_PML4_START. split; [lia|]. intros. rewrite decide_False by lia. done.
  - intros j k' Hj [Hj0 IH]. split; [lia|]. intros t' i' Ht' Hi'.
    change (KERNEL_PML4_START + Z.of_nat (PAGE_TABLE_ENTRIES - 256)) with 512 in Hj.
    assert (idx_ok j) by (unfold idx_ok, KERNEL_PML4_START in *; lia).
    cbn [k_mem set_ent set_mem]. rewrite ent_wr, !IH by done.
    rewrite (decide_False (P := src = dst ∧ _)) by naive_solver.
    destruct (decide (t' = dst ∧ i' = j)) as [[-> ->]|]; [by rewrite decide_True by lia|].
    apply decide_ext. unfold idx_ok in *. intuition lia.
  - rewrite Hall by done. apply decide_ext.
    unfold idx_ok, KERNEL_PML4_START, PAGE_TABLE_ENTRIES in *. intuition lia.
Qed.

Lemma copy_kernel_half_frame src dst k a :
  dst mod 4096 = 0 → a / 4096 ≠ dst / 4096 →
  rd (k_mem (copy_kernel_half src dst k)) a = rd (k_mem k) a.
Proof.
  intros Hd Ha. unfold copy_kernel_half.
  apply (for_loop_ind (λ j k', 0 ≤ j ∧ rd (k_mem k') a = rd (k_mem k) a)); [done|].
  change (KERNEL_PML4_START + Z.of_nat (PAGE_TABLE_ENTRIES - 256)) with 512.
  intros j k' Hj [Hj0 <-]. split; [lia|]. cbn [k_mem set_ent set_mem]. apply rd_wr_ne. intros <-.
  apply Ha, slot_page; [done|unfold idx_ok; lia].
Qed.

Lemma copy_kernel_half_rest src dst k :
  k_pmm (copy_kernel_half src dst k) = k_pmm k ∧ k_refs (copy_kernel_half src dst k) = k_refs k ∧
  kernel_pml4_phys (copy_kernel_half src dst k) = kernel_pml4_phys k.
Proof. unfold copy_kernel_half. by apply (for_loop_ind (λ _ k', k_pmm k' = k_pmm k ∧ _ ∧ _)). Qed.

#[local] Opaque copy_kernel_half.

(** A new root with an empty user half and [src]'s upper half. *)
Definition fresh_root (src n : Z) (k : kmem) : kmem :=
  copy_kernel_half src (n * 4096) (with_new_table n k).

Record fresh_root_spec (src n : Z) (k k' : kmem) : Prop := {
  fr_pmm : k_pmm k' = take_page n (k_pmm k);
  fr_refs : k_refs k' = k_refs k;
  fr_kernel : kernel_pml4_phys k' = kernel_pml4_phys k;
  fr_user_empty : ∀ i, 0 ≤ i < 256 → ent (k_mem k') (n * 4096) i = 0;
  fr_kernel_half : ∀ i, 256 ≤ i < 512 → ent (k_mem k') (n * 4096) i = ent (k_mem k) src i;
  fr_frame : ∀ a, a / 4096 ≠ n → rd (k_mem k') a = rd (k_mem k) a;
  fr_wf : space_wf user_half (n * 4096) k';
  fr_others : ∀ I root, space_wf I root k →
    space_wf I root k' ∧ disjoint_regions I root user_half (n * 4096) k' ∧
    (∀ q, path_ok I q → walk (k_mem k') root q = walk (k_mem k) root q) ∧
    (∀ q l, path_ok I q → length q = 3%nat → idx_ok l →
       leaf (k_mem k') root q l = leaf (k_mem k) root q l);
}.

(** Writing only into one free page does not disturb a region. *)
Section frame_page.
Context (I : Z → Prop) (root n : Z) (k k' : kmem).
Context (Hwf : space_wf I root k) (Hn : n ∈ free_set (k_pmm k)).
Context (Hpmm : k_pmm k' = take_page n (k_pmm k)).
Context (Hframe : ∀ a, a / 4096 ≠ n → rd (k_mem k') a = rd (k_mem k) a).

Lemma frame_page_ent q t j :
  path_ok I q → walk (k_mem k) root q = Some t → idx_ok j →
  ent (k_mem k') t j = ent (k_mem k) t j.
Proof.
  intros Hq Hw Hj. destruct (sw_used _ _ _ Hwf q t Hq Hw) as (Ha & _ & Hf).
  apply Hframe. rewrite slot_page by done. intros E. apply Hf. by rewrite E.
Qed.

Lemma frame_page_walk q : path_ok I q → walk (k_mem k') root q = walk (k_mem k) root q.
Proof.
  intros Hq. apply walk_ext. intros r j s t -> Hr. unfold next_table.
  by rewrite (frame_page_ent r t j) by eauto with seedos.
Qed.

Lemma frame_page_leaf q l :
  path_ok I q → idx_ok l → leaf (k_mem k') root q l = leaf (k_mem k) root q l.
Proof.
  intros Hq Hl. unfold leaf. rewrite frame_page_walk by done.
  destruct (walk (k_mem k) root q) as [t|] eqn:E; [|done]. cbn [mbind option_bind].
  by rewrite (frame_page_ent q t l).
Qed.

Lemma frame_page_wf : space_wf I root k'.
Proof.
  pose proof (sw_pmm _ _ _ Hwf). split; rewrite ?Hpmm.
  - by apply take_page_wf.
  - apply (sw_phys _ _ _ Hwf).
  - intros q t Hq. rewrite frame_page_walk by done. intros Hw.
    destruct (sw_used _ _ _ Hwf q t Hq Hw) as (? & ? & ?).
    split; [done|split; [done|]]. rewrite take_page_free_set. set_solver.
  - intros q r t Hq Hr. rewrite !frame_page_walk by done. by apply (sw_inj _ _ _ Hwf).
Qed.

End frame_page.

Lemma fresh_root_ok src n k :
  pmm_wf (k_pmm k) → total_pages (k_pmm k) ≤ 2 ^ 40 →
  n ∈ free_set (k_pmm k) → 0 < n → src mod 4096 = 0 → ((src / 4096) ∉ free_set (k_pmm k)) →
  fresh_root_spec src n k (fresh_root src n k).
Proof.
  intros Hp Ht Hn Hpos Hsa Hsf. pose proof Hn as [Hr _]%elem_of_free_set.
  assert (src ≠ n * 4096) as Hne by (intros ->; by rewrite Z.div_mul in Hsf by lia).
  assert ((n * 4096) mod 4096 = 0) as Hna by (apply Z.mod_mul; lia).
  destruct (copy_kernel_half_rest src (n * 4096) (with_new_table n k)) as (Ep & Er & Ek).
  assert (∀ a, a / 4096 ≠ n → rd (k_mem (fresh_root src n k)) a = rd (k_mem k) a) as Hframe.
  { intros a Ha. unfold fresh_root. rewrite copy_kernel_half_frame by (rewrite ?Z.div_mul by lia; done).
    apply zero_page_frame; rewrite ?Z.div_mul by lia; done. }
  assert (∀ i, 0 ≤ i < 256 → ent (k_mem (fresh_root src n k)) (n * 4096) i = 0) as Huser.
  { intros i Hi. assert (idx_ok i) by (unfold idx_ok; lia).
    unfold fresh_root. rewrite copy_kernel_half_ent by assumption.
    rewrite decide_False by lia. cbn [with_new_table k_mem set_mem].
    rewrite zero_page_ent by assumption. by rewrite decide_True. }
  assert (used_page (k_pmm (fresh_root src n k)) (n * 4096)) as Hused.
  { unfold fresh_root. rewrite Ep. cbn [with_new_table k_pmm set_mem set_pmm].
    split; [done|]. rewrite Z.div_mul by lia. split; [cbn; lia|].
    rewrite take_page_free_set, elem_of_difference, elem_of_singleton. tauto. }
  assert (∀ i, idx_ok i → user_half i → tst (ent (k_mem (fresh_root src n k)) (n * 4096) i) PTE_PRESENT = false)
    as Hnone.
  { unfold idx_ok, user_half. intros i Hi Hu. by rewrite Huser by lia. }
  split; [exact Ep|exact Er|exact Ek|exact Huser| |exact Hframe| |].
  - intros i Hi. assert (idx_ok i) by (unfold idx_ok; lia).
    unfold fresh_root. rewrite copy_kernel_half_ent by assumption.
    rewrite decide_True by (split; [reflexivity|lia]). cbn [with_new_table k_mem set_mem].
    rewrite zero_page_ent by assumption. by rewrite decide_False.
  - apply space_wf_empty; [| |exact Hused|exact Hnone]; unfold fresh_root; rewrite Ep;
      [by apply take_page_wf|exact Ht].
  - intros I root Hwf. split_and!.
    + exact (frame_page_wf I root n k _ Hwf Hn Ep Hframe).
    + intros a (p1 & t1 & i1 & (Hp1 & Hi1 & _) & Hw1 & ->) (p2 & t2 & i2 & (Hp2 & Hi2 & _) & Hw2 & E).
      rewrite (frame_page_walk I root n k _ Hwf Hn Hframe p1 Hp1) in Hw1.
      destruct (sw_used _ _ _ Hwf p1 t1 Hp1 Hw1) as (Ha1 & _ & Hf1).
      assert (t2 = n * 4096) as ->.
      { destruct p2 as [|j p2]; simpl in Hw2; [congruence|]. unfold next_table in Hw2.
        destruct Hp2 as (Hf2 & _ & Hu). inversion_clear Hf2. by rewrite Hnone in Hw2. }
      apply Hf1. rewrite <- (slot_page t1 i1 Ha1 Hi1), E, (slot_page _ _ Hna Hi2), Z.div_mul by lia.
      exact Hn.
    + exact (frame_page_walk I root n k _ Hwf Hn Hframe).
    + intros q l Hq _ Hl. exact (frame_page_leaf I root n k _ Hwf Hn Hframe q l Hq Hl).
Qed.

(** A new address space has an empty user
    half and the kernel's upper half, in a page that was free; it shares no
    table with any existing address space, none of which changes.  The call
    halts the machine only when no page is left. *)
Theorem vmm_create_address_space_spec k :
  pmm_wf (k_pmm k) → total_pages (k_pmm k) ≤ 2 ^ 40 → used_page (k_pmm k) (kernel_pml4_phys k) →
  match vmm_create_address_space k with
  | Halted => available k = 0%nat
  | Done (root, k') =>
      ∃ n, root = n * 4096 ∧ n ∈ free_set (k_pmm k) ∧ 0 < n ∧
           fresh_root_spec (kernel_pml4_phys k) n k k'
  end.
Proof.
  intros Hp Ht (Hka & _ & Hkf). unfold vmm_create_address_space.
  destruct (alloc_page_table_cases k Hp Ht) as [[Hs ->]|(n & Hn & Hpos & ->)].
  - by apply available_oom.
  - destruct (Z.eqb_spec (n * 4096) 0); [lia|]. exists n. split_and!; [done|done|lia|].
    apply fresh_root_ok; done || lia.
Qed.

(** ** The copy-on-write entry *)

Definition cow_entry (e : Z) : Z := Z.lor (Z.land e PTE_ADDR_MASK) (cow_flags e).

Lemma cow_flags_mask e : Z.land (cow_flags e) PTE_ADDR_MASK = 0.
Proof.
  assert (Z.land (Z.land e (~64 PTE_ADDR_MASK)) PTE_ADDR_MASK = 0) as H.
  { rewrite <- Z.land_assoc. change (Z.land (~64 PTE_ADDR_MASK) PTE_ADDR_MASK) with 0.
    apply Z.land_0_r. }
  unfold cow_flags. destruct (tst _ PTE_WRITABLE); [|done].
  rewrite Z.land_lor_distr_l. change (Z.land PTE_COW PTE_ADDR_MASK) with 0.
  rewrite Z.lor_0_r, <- Z.land_assoc, (Z.land_comm (~64 PTE_WRITABLE)), Z.land_assoc, H.
  apply Z.land_0_l.
Qed.

(** Both address spaces keep the frame; the entry stays present. *)
Lemma cow_entry_addr e : Z.land (cow_entry e) PTE_ADDR_MASK = Z.land e PTE_ADDR_MASK.
Proof. apply land_lor_flags, cow_flags_mask. Qed.

Lemma cow_flags_testbit e n :
  0 ≤ n < 12 → n ≠ 1 → n ≠ 9 → Z.testbit (cow_flags e) n = Z.testbit e n.
Proof.
  intros Hn H1 H9.
  assert (Z.testbit (Z.land e (~64 PTE_ADDR_MASK)) n = Z.testbit e n) as E.
  { rewrite Z.land_spec, not_addr_mask_testbit by lia.
    destruct (Z.leb_spec 12 n); [lia|]. apply andb_true_r. }
  unfold cow_flags. destruct (tst _ PTE_WRITABLE); [|done].
  rewrite Z.lor_spec, Z.land_spec, E. change PTE_COW with (2 ^ 9). change PTE_WRITABLE with (2 ^ 1).
  rewrite Z.pow2_bits_false by lia. unfold u64, wrap.
  rewrite Z.mod_pow2_bits_low, Z.lnot_spec, Z.pow2_bits_false by lia.
  by rewrite andb_true_r, orb_false_r.
Qed.

Lemma cow_entry_present e : tst e PTE_PRESENT = true → tst (cow_entry e) PTE_PRESENT = true.
Proof.
  rewrite !tst_present. intros H. unfold cow_entry.
  rewrite Z.lor_spec, cow_flags_testbit, H by lia. apply orb_true_r.
Qed.

Lemma cow_entry_testbit e n :
  0 ≤ n < 12 → Z.testbit (cow_entry e) n = Z.testbit (cow_flags e) n.
Proof.
  intros Hn. unfold cow_entry. rewrite Z.lor_spec, Z.land_spec, addr_mask_testbit by lia.
  destruct (Z.leb_spec 12 n); [lia|]. cbn. by rewrite andb_false_r.
Qed.

(** No entry is writable after the copy, and what was writable is marked. *)
Lemma cow_entry_readonly e :
  tst (cow_entry e) PTE_WRITABLE = false ∧
  (tst e PTE_WRITABLE = true → tst (cow_entry e) PTE_COW = true) ∧
  tst (cow_entry e) PTE_USER = tst e PTE_USER.
Proof.
  assert (∀ x, tst x PTE_WRITABLE = Z.testbit x 1) as Hw by (intros x; apply (tst_pow2 x 1); lia).
  assert (∀ x, tst x PTE_COW = Z.testbit x 9) as Hc by (intros x; apply (tst_pow2 x 9); lia).
  assert (∀ x, tst x PTE_USER = Z.testbit x 2) as Hu by (intros x; apply (tst_pow2 x 2); lia).
  assert (∀ n, 0 ≤ n < 12 → Z.testbit (Z.land e (~64 PTE_ADDR_MASK)) n = Z.testbit e n) as E.
  { intros n Hn. rewrite Z.land_spec, not_addr_mask_testbit by lia.
    destruct (Z.leb_spec 12 n); [lia|]. apply andb_true_r. }
  rewrite !Hw, !Hc, !Hu, !cow_entry_testbit by lia. split_and!.
  - unfold cow_flags. rewrite Hw, E by lia. destruct (Z.testbit e 1) eqn:H1; [|by rewrite E by lia].
    rewrite Z.lor_spec, Z.land_spec. change (Z.testbit PTE_COW 1) with false.
    change (Z.testbit (~64 PTE_WRITABLE) 1) with false. by rewrite andb_false_r.
  - intros H. unfold cow_flags. rewrite Hw, E, H by lia. rewrite Z.lor_spec.
    change (Z.testbit PTE_COW 9) with true. apply orb_true_r.
  - by apply cow_flags_testbit.
Qed.

(** ** Two address spaces side by side *)

Section cow.
Context (src dst : Z).

Definition pair_wf (k : kmem) : Prop :=
  space_wf user_half src k ∧ space_wf user_half dst k ∧
  disjoint_regions user_half src user_half dst k.

Record pair_step (k k' : kmem) : Prop := {
  pr_wf : pair_wf k';
  pr_untouched : ∀ a, ¬ slot_of user_half src k a → ¬ slot_of user_half dst k a →
    ((a / 4096) ∉ free_set (k_pmm k)) → rd (k_mem k') a = rd (k_mem k) a;
  pr_free : free_set (k_pmm k') ⊆ free_set (k_pmm k);
  pr_total : total_pages (k_pmm k') = total_pages (k_pmm k);
  pr_src : ∀ p t, path_ok user_half p → walk (k_mem k') src p = Some t →
    walk (k_mem k) src p = Some t ∨ (t / 4096) ∈ free_set (k_pmm k);
  pr_dst : ∀ p t, path_ok user_half p → walk (k_mem k') dst p = Some t →
    walk (k_mem k) dst p = Some t ∨ (t / 4096) ∈ free_set (k_pmm k);
}.

Lemma disjoint_sym I1 r1 I2 r2 k : disjoint_regions I1 r1 I2 r2 k → disjoint_regions I2 r2 I1 r1 k.
Proof. intros H a H1 H2. exact (H a H2 H1). Qed.

Lemma pair_step_refl k : pair_wf k → pair_step k k.
Proof. intros H. split; auto. Qed.

Lemma slot_before root k k' a :
  space_wf user_half root k' →
  (∀ p t, path_ok user_half p → walk (k_mem k') root p = Some t →
     walk (k_mem k) root p = Some t ∨ (t / 4096) ∈ free_set (k_pmm k)) →
  slot_of user_half root k' a → slot_of user_half root k a ∨ (a / 4096) ∈ free_set (k_pmm k).
Proof.
  intros Hwf Ht (p & t & i & (Hp & Hi & Hh) & Hw & ->).
  destruct (Ht p t Hp Hw) as [Hw0|Hin]; [left; by exists p, t, i|right].
  rewrite slot_page; [exact Hin| |exact Hi]. exact (table_aligned _ _ _ Hwf p t Hp Hw).
Qed.

Lemma pair_step_trans k0 k1 k2 : pair_step k0 k1 → pair_step k1 k2 → pair_step k0 k2.
Proof.
  intros H1 H2. pose proof (pr_free _ _ H1) as Hf1. destruct (pr_wf _ _ H1) as (W1 & W2 & _).
  split.
  - apply H2.
  - intros a Hs Hd Hf. rewrite (pr_untouched _ _ H2); [by apply (pr_untouched _ _ H1)| | |].
    + intros Hs1. destruct (slot_before src k0 k1 a W1 (pr_src _ _ H1) Hs1); [exact (Hs H)|exact (Hf H)].
    + intros Hs1. destruct (slot_before dst k0 k1 a W2 (pr_dst _ _ H1) Hs1); [exact (Hd H)|exact (Hf H)].
    + intros Hin. exact (Hf (Hf1 _ Hin)).
  - etrans; [apply (pr_free _ _ H2)|exact Hf1].
  - rewrite (pr_total _ _ H2). apply H1.
  - intros p t Hp Hw. destruct (pr_src _ _ H2 p t Hp Hw) as [Hw1|Hin]; [by apply (pr_src _ _ H1)|].
    right. exact (Hf1 _ Hin).
  - intros p t Hp Hw. destruct (pr_dst _ _ H2 p t Hp Hw) as [Hw1|Hin]; [by apply (pr_dst _ _ H1)|].
    right. exact (Hf1 _ Hin).
Qed.

(** A step on one of the two is a step of the pair. *)
Lemma src_pair_step k k' : pair_wf k → region_step user_half src k k' → pair_step k k'.
Proof.
  intros (W1 & W2 & Hd) Hst.
  destruct (other_region_kept _ _ _ _ _ _ Hst W2 Hd) as (W2' & Hd' & _).
  pose proof (other_walk _ _ _ _ _ _ Hst W2 Hd) as Hw2.
  split; [split_and!; [apply Hst|exact W2'|exact Hd']| | | | |].
  - intros a Hs _ Hf. exact (rs_untouched _ _ _ _ Hst a Hs Hf).
  - apply Hst.
  - apply Hst.
  - apply Hst.
  - intros p t Hp. rewrite Hw2 by exact Hp. by left.
Qed.

Lemma dst_pair_step k k' : pair_wf k → region_step user_half dst k k' → pair_step k k'.
Proof.
  intros (W1 & W2 & Hd%disjoint_sym) Hst.
  destruct (other_region_kept _ _ _ _ _ _ Hst W1 Hd) as (W1' & Hd' & _).
  pose proof (other_walk _ _ _ _ _ _ Hst W1 Hd) as Hw1.
  split; [split_and!; [exact W1'|apply Hst|by apply disjoint_sym]| | | | |].
  - intros a _ Hs Hf. exact (rs_untouched _ _ _ _ Hst a Hs Hf).
  - apply Hst.
  - apply Hst.
  - intros p t Hp. rewrite Hw1 by exact Hp. by left.
  - apply Hst.
Qed.

(** Installing a new table at path [p ++ [i]] of the destination. *)
Lemma install_dst k p d i f n :
  pair_wf k → path_ok user_half (p ++ [i]) → walk (k_mem k) dst p = Some d →
  walk (k_mem k) dst (p ++ [i]) = None → n ∈ free_set (k_pmm k) → 0 < n →
  Z.land f PTE_ADDR_MASK = 0 → tst f PTE_PRESENT = true →
  let k' := set_ent d i (Z.lor (n * 4096) f) (with_new_table n k) in
  region_step user_half dst k k' ∧
  (∀ q, path_ok user_half q → walk (k_mem k') dst q =
     if decide (q = p ++ [i]) then Some (n * 4096) else walk (k_mem k) dst q) ∧
  (∀ q l, path_ok user_half q → length q = 3%nat → idx_ok l →
     leaf (k_mem k') dst q l = leaf (k_mem k) dst q l).
Proof.
  intros (_ & W2 & _) Hp Hd Hnone Hn Hpos Hf Hfp.
  assert (tst (ent (k_mem k) d i) PTE_PRESENT = false) as Hnp.
  { rewrite walk_snoc, Hd in Hnone. cbn in Hnone. unfold next_table in Hnone.
    by destruct (tst (ent (k_mem k) d i) PTE_PRESENT). }
  pose proof (since_refl _ _ _ W2) as Hs.
  split_and!.
  - split; [by eapply installed_wf|by eapply installed_untouched|apply (since_new_table _ _ _ _ Hs n Hn Hpos)
      |done|by eapply installed_tables].
  - exact (installed_walk _ _ _ _ Hs n Hn Hpos p d i f Hp Hd Hnp Hf Hfp).
  - exact (installed_leaf _ _ _ _ Hs n Hn Hpos p d i f Hp Hd Hnp Hf Hfp).
Qed.

(** ** The contract of a subtree *)

(** Number of slots of the table at path [p] that are copied. *)
Definition width (p : list Z) : nat :=
  match p with [] => PAGE_TABLE_ENTRIES_USER | _ => PAGE_TABLE_ENTRIES end.

(** The frames mapped below the table at path [p], in the order of the walk;
    [d] is the number of table levels below it. *)
Fixpoint frames_at (m : gmap Z Z) (root : Z) (d : nat) (p : list Z) : list Z :=
  match d with
  | O => omap (λ l, (λ e, Z.land e PTE_ADDR_MASK) <$> leaf m root p l) (seqZ 0 512)
  | S d' =>
      mjoin ((λ i, if walk m root (p ++ [i]) is Some _
                   then frames_at m root d' (p ++ [i]) else []) <$> seqZ 0 (Z.of_nat (width p)))
  end.

Definition below (p q : list Z) : Prop := p `prefix_of` q ∧ q ≠ p.

Definition leaf_pos (q : list Z) (l : Z) : Prop :=
  path_ok user_half q ∧ length q = 3%nat ∧ idx_ok l.

(** [k'] is [k] with the subtree at [p] copied. *)
Record copied (d : nat) (p : list Z) (k k' : kmem) : Prop := {
  cp_step : pair_step k k';
  cp_walk_src : ∀ q, path_ok user_half q → walk (k_mem k') src q = walk (k_mem k) src q;
  cp_walk_dst : ∀ q, path_ok user_half q → ¬ below p q →
    walk (k_mem k') dst q = walk (k_mem k) dst q;
  cp_in : ∀ q l, leaf_pos q l → p `prefix_of` q →
    leaf (k_mem k') src q l = cow_entry <$> leaf (k_mem k) src q l ∧
    leaf (k_mem k') dst q l = cow_entry <$> leaf (k_mem k) src q l;
  cp_out : ∀ q l, leaf_pos q l → ¬ p `prefix_of` q →
    leaf (k_mem k') src q l = leaf (k_mem k) src q l ∧
    leaf (k_mem k') dst q l = leaf (k_mem k) dst q l;
  cp_refs : k_refs k' = foldl (λ r f, page_ref f r) (k_refs k) (frames_at (k_mem k) src d p);
  cp_kernel : kernel_pml4_phys k' = kernel_pml4_phys k;
}.

Record subtree_pre (d : nat) (p : list Z) (s t : Z) (k : kmem) : Prop := {
  sp_depth : (length p + d = 3)%nat;
  sp_ok : path_ok user_half p;
  sp_wf : pair_wf k;
  sp_src : walk (k_mem k) src p = Some s;
  sp_dst : walk (k_mem k) dst p = Some t;
  sp_below : ∀ q, path_ok user_half q → below p q → walk (k_mem k) dst q = None;
  sp_leaf : ∀ q l, leaf_pos q l → p `prefix_of` q → leaf (k_mem k) dst q l = None;
}.

Definition subtree_post (d : nat) (p : list Z) (k : kmem) (r : kmem + kmem) : Prop :=
  match r with
  | inl k' => copied d p k k'
  | inr k' => pair_step k k' ∧ free_set (k_pmm k') ⊆ {[0]} ∧
              kernel_pml4_phys k' = kernel_pml4_phys k
  end.

Lemma width_iff p i :
  path_ok user_half p → (length p ≤ 2)%nat →
  0 ≤ i < Z.of_nat (width p) ↔ path_ok user_half (p ++ [i]).
Proof.
  intros (Hf & Hl & Hh) Hlen. unfold path_ok. rewrite Forall_app, Forall_singleton, length_app.
  unfold width, user_half, idx_ok, PAGE_TABLE_ENTRIES_USER, PAGE_TABLE_ENTRIES in *.
  destruct p as [|j p]; simpl in *; intuition lia.
Qed.

Lemma leaf_pos_idx q l : path_ok user_half q → length q = 3%nat → 0 ≤ l < 512 → leaf_pos q l.
Proof. intros. split; [done|split; [done|done]]. Qed.

(** The frames of a subtree depend on its walks and leaves only. *)
Lemma frames_at_ext m m' root d p :
  (length p + d = 3)%nat → path_ok user_half p →
  (∀ q, path_ok user_half q → p `prefix_of` q → walk m' root q = walk m root q) →
  (∀ q l, leaf_pos q l → p `prefix_of` q → leaf m' root q l = leaf m root q l) →
  frames_at m' root d p = frames_at m root d p.
Proof.
  revert p. induction d as [|d IH]; intros p Hlen Hp Hw Hl; cbn [frames_at].
  - apply list_omap_ext, Forall2_same_length_lookup_2; [done|].
    intros i x y Hx Hy. rewrite Hx in Hy. injection Hy as <-.
    apply list_elem_of_lookup_2, elem_of_seqZ in Hx.
    rewrite Hl; [done| |done]. apply leaf_pos_idx; [done|lia|lia].
  - f_equal. apply list_fmap_ext. intros n i Hi.
    apply list_elem_of_lookup_2, elem_of_seqZ in Hi.
    assert (path_ok user_half (p ++ [i])) as Hpi by (apply width_iff; [done|lia|lia]).
    rewrite Hw; [|done|by eexists]. destruct (walk m root (p ++ [i])); [|done].
    apply IH; [rewrite length_app; simpl; lia|done| |].
    + intros q Hq Hpre. apply Hw; [done|]. etrans; [by eexists|exact Hpre].
    + intros q l Hq Hpre. apply Hl; [done|]. etrans; [by eexists|exact Hpre].
Qed.

(** ** Copying one entry *)

Lemma page_ref_pair_step a k : pair_wf k → pair_step k (k_page_ref a k).
Proof.
  intros ([] & [] & Hd). split; [split_and!; [by split|by split|exact Hd]|..]; auto.
Qed.

Section one_entry.
Context (p : list Z) (s t l : Z) (k : kmem) (HW : pair_wf k).
Context (Hp : path_ok user_half p) (Hlen : length p = 3%nat) (Hl : idx_ok l).
Context (Hs : walk (k_mem k) src p = Some s) (Ht : walk (k_mem k) dst p = Some t).
Context (Hlf : leaf (k_mem k) dst p l = None).

Lemma one_entry_leaf :
  leaf (k_mem k) src p l =
  if tst (ent (k_mem k) s l) PTE_PRESENT then Some (ent (k_mem k) s l) else None.
Proof. unfold leaf. by rewrite Hs. Qed.

Record entry_copied (k' : kmem) : Prop := {
  ec_step : pair_step k k';
  ec_walk_src : ∀ q, path_ok user_half q → walk (k_mem k') src q = walk (k_mem k) src q;
  ec_walk_dst : ∀ q, path_ok user_half q → walk (k_mem k') dst q = walk (k_mem k) dst q;
  ec_here : leaf (k_mem k') src p l = cow_entry <$> leaf (k_mem k) src p l ∧
            leaf (k_mem k') dst p l = cow_entry <$> leaf (k_mem k) src p l;
  ec_other : ∀ q j, leaf_pos q j → q ≠ p ∨ j ≠ l →
    leaf (k_mem k') src q j = leaf (k_mem k) src q j ∧
    leaf (k_mem k') dst q j = leaf (k_mem k) dst q j;
  ec_refs : k_refs k' = match leaf (k_mem k) src p l with
                        | Some e => page_ref (Z.land e PTE_ADDR_MASK) (k_refs k)
                        | None => k_refs k
                        end;
  ec_kernel : kernel_pml4_phys k' = kernel_pml4_phys k;
}.

Lemma cow_pte_ok : entry_copied (cow_pte s t l k).
Proof.
  pose proof HW as (W1 & W2 & Hd).
  pose proof one_entry_leaf as He. unfold cow_pte.
  destruct (tst (ent (k_mem k) s l) PTE_PRESENT) eqn:Hpr; cbn [negb].
  2:{ split; try (by apply pair_step_refl); rewrite ?He; auto. }
  set (e := ent (k_mem k) s l) in *.
  change (Z.lor (Z.land e PTE_ADDR_MASK) (cow_flags e)) with (cow_entry e).
  set (k1 := set_ent s l (cow_entry e) k).
  assert (region_step user_half src k k1) as R1 by (by apply (store_leaf_step user_half src k p)).
  pose proof (other_walk _ _ _ _ _ _ R1 W2 Hd) as Hwd.
  destruct (src_pair_step k k1 HW R1) as [(W1' & W2' & Hd') _ _ _ _ _].
  set (k2 := set_ent t l (cow_entry e) k1).
  assert (walk (k_mem k1) dst p = Some t) as Ht1 by (by rewrite Hwd).
  assert (region_step user_half dst k1 k2) as R2 by (by apply (store_leaf_step user_half dst k1 p)).
  pose proof (other_walk _ _ _ _ _ _ R2 W1' (disjoint_sym _ _ _ _ _ Hd')) as Hws.
  assert (pair_step k k2) as HP.
  { eapply pair_step_trans; [by apply src_pair_step|by apply dst_pair_step]. }
  assert (∀ q j, leaf_pos q j → leaf (k_mem k1) dst q j = leaf (k_mem k) dst q j) as Hl1.
  { intros q j (Hq & Hq3 & Hj). exact (other_leaf _ _ _ _ _ _ R1 W2 Hd q j Hq Hq3 Hj). }
  assert (∀ q j, leaf_pos q j → leaf (k_mem k2) src q j = leaf (k_mem k1) src q j) as Hl2.
  { intros q j (Hq & Hq3 & Hj).
    exact (other_leaf _ _ _ _ _ _ R2 W1' (disjoint_sym _ _ _ _ _ Hd') q j Hq Hq3 Hj). }
  pose proof (store_leaf_at user_half src k p s l (cow_entry e) W1 Hp Hlen Hl Hs) as A1.
  pose proof (store_leaf_at user_half dst k1 p t l (cow_entry e) W2' Hp Hlen Hl Ht1) as A2.
  rewrite cow_entry_present in A1, A2 by done.
  split.
  - eapply pair_step_trans; [exact HP|]. apply page_ref_pair_step, HP.
  - intros q Hq. change (k_mem (k_page_ref _ k2)) with (k_mem k2). rewrite Hws by done.
    by apply (store_leaf_walk user_half src k p).
  - intros q Hq. change (k_mem (k_page_ref _ k2)) with (k_mem k2). rewrite <- Hwd by done.
    by apply (store_leaf_walk user_half dst k1 p).
  - change (k_mem (k_page_ref _ k2)) with (k_mem k2). rewrite He. split.
    + rewrite Hl2 by (by apply leaf_pos_idx). unfold k1. rewrite A1 by done. by rewrite decide_True.
    + unfold k2. rewrite A2 by done. by rewrite decide_True.
  - intros q j Hq Hne. change (k_mem (k_page_ref _ k2)) with (k_mem k2).
    pose proof Hq as (Hqo & _ & Hj). split.
    + rewrite Hl2 by done. unfold k1. rewrite A1 by done. rewrite decide_False; [done|].
      intros [-> ->]. by destruct Hne.
    + rewrite <- Hl1 by done. unfold k2. rewrite A2 by done. rewrite decide_False; [done|].
      intros [-> ->]. by destruct Hne.
  - by rewrite He.
  - done.
Qed.

End one_entry.

(** ** Copying a page table *)

Record pt_progress (p : list Z) (k : kmem) (i : Z) (k' : kmem) : Prop := {
  pp_step : pair_step k k';
  pp_walk_src : ∀ q, path_ok user_half q → walk (k_mem k') src q = walk (k_mem k) src q;
  pp_walk_dst : ∀ q, path_ok user_half q → walk (k_mem k') dst q = walk (k_mem k) dst q;
  pp_done : ∀ j, 0 ≤ j < i →
    leaf (k_mem k') src p j = cow_entry <$> leaf (k_mem k) src p j ∧
    leaf (k_mem k') dst p j = cow_entry <$> leaf (k_mem k) src p j;
  pp_todo : ∀ q j, leaf_pos q j → q ≠ p ∨ i ≤ j →
    leaf (k_mem k') src q j = leaf (k_mem k) src q j ∧
    leaf (k_mem k') dst q j = leaf (k_mem k) dst q j;
  pp_refs : k_refs k' = foldl (λ r f, page_ref f r) (k_refs k)
    (omap (λ l, (λ e, Z.land e PTE_ADDR_MASK) <$> leaf (k_mem k) src p l) (seqZ 0 i));
  pp_kernel : kernel_pml4_phys k' = kernel_pml4_phys k;
}.

Lemma cow_pt_progress p s t k i k' :
  subtree_pre 0 p s t k → idx_ok i → pt_progress p k i k' →
  pt_progress p k (i + 1) (cow_pte s t i k').
Proof.
  intros [Hd Hp HW Hs Ht _ Hlf] Hi [P1 P2 P3 P4 P5 P6 P7].
  assert (length p = 3%nat) as Hlen by lia.
  assert (leaf_pos p i) as Hpos by (by apply leaf_pos_idx).
  destruct (P5 p i Hpos ltac:(lia)) as [Ls Ld].
  destruct (cow_pte_ok p s t i k' (pr_wf _ _ P1) Hp Hlen Hi) as [E1 E2 E3 E4 E5 E6 E7].
  { by rewrite P2. }
  { by rewrite P3. }
  { rewrite Ld. by apply Hlf. }
  split.
  - by eapply pair_step_trans.
  - intros q Hq. rewrite E2, P2; done.
  - intros q Hq. rewrite E3, P3; done.
  - intros j Hj. destruct (decide (j = i)) as [->|Hne].
    + by rewrite <- Ls.
    + destruct (E5 p j) as [-> ->]; [apply leaf_pos_idx; unfold idx_ok in *; lia || done|lia|].
      apply P4. lia.
  - intros q j Hq Hor. destruct (E5 q j Hq) as [-> ->]; [destruct Hor; [by left|right; lia]|].
    apply P5; [done|]. destruct Hor; [by left|right; lia].
  - unfold idx_ok in Hi. rewrite E6, P6, Ls, seqZ_app, omap_app, foldl_app by lia.
    change (seqZ (0 + i) 1) with [0 + i]. rewrite Z.add_0_l. cbn [omap list_omap].
    by destruct (leaf (k_mem k) src p i).
  - by rewrite E7.
Qed.

Lemma cow_pt_ok p s t k : subtree_pre 0 p s t k → subtree_post 0 p k (cow_pt s t k).
Proof.
  intros Hpre. pose proof Hpre as [Hd Hp HW _ _ _ Hlf].
  assert (pt_progress p k 512 (for_loop PAGE_TABLE_ENTRIES 0 (cow_pte s t) k)) as [P1 P2 P3 P4 P5 P6 P7].
  { apply (for_loop_ind (λ i k', 0 ≤ i ∧ pt_progress p k i k') 512 0).
    - split; [done|]. split; auto using pair_step_refl. lia.
    - intros j k' Hj [_ Hpr]. split; [lia|]. apply cow_pt_progress; [done| |done].
      unfold idx_ok. lia. }
  assert (∀ q, path_ok user_half q → length q = 3%nat → p `prefix_of` q → q = p) as Hpq.
  { intros q _ Hq [r ->]. rewrite length_app in Hq. destruct r; [by rewrite app_nil_r|].
    simpl in Hq. lia. }
  split; [exact P1|exact P2| | | |exact P6|exact P7].
  - intros q Hq _. by apply P3.
  - intros q l (Hq & Hq3 & Hl) Hpref. rewrite (Hpq q Hq Hq3 Hpref). by apply P4.
  - intros q l Hq Hn. apply P5; [done|]. left. intros ->. by apply Hn.
Qed.

(** ** Copying an upper level *)

Definition done_before (p : list Z) (i : Z) (q : list Z) : Prop :=
  ∃ j, 0 ≤ j < i ∧ (p ++ [j]) `prefix_of` q.

Definition frames_below (m : gmap Z Z) (d : nat) (p : list Z) (i : Z) : list Z :=
  mjoin ((λ i, if walk m src (p ++ [i]) is Some _
               then frames_at m src d (p ++ [i]) else []) <$> seqZ 0 i).

Record level_progress (d : nat) (p : list Z) (k : kmem) (i : Z) (k' : kmem) : Prop := {
  lp_step : pair_step k k';
  lp_walk_src : ∀ q, path_ok user_half q → walk (k_mem k') src q = walk (k_mem k) src q;
  lp_walk_dst : ∀ q, path_ok user_half q → ¬ done_before p i q →
    walk (k_mem k') dst q = walk (k_mem k) dst q;
  lp_done : ∀ q l, leaf_pos q l → done_before p i q →
    leaf (k_mem k') src q l = cow_entry <$> leaf (k_mem k) src q l ∧
    leaf (k_mem k') dst q l = cow_entry <$> leaf (k_mem k) src q l;
  lp_todo : ∀ q l, leaf_pos q l → ¬ done_before p i q →
    leaf (k_mem k') src q l = leaf (k_mem k) src q l ∧
    leaf (k_mem k') dst q l = leaf (k_mem k) dst q l;
  lp_refs : k_refs k' = foldl (λ r f, page_ref f r) (k_refs k) (frames_below (k_mem k) d p i);
  lp_kernel : kernel_pml4_phys k' = kernel_pml4_phys k;
}.

Lemma snoc_prefix_inj (p q : list Z) i j :
  (p ++ [i]) `prefix_of` q → (p ++ [j]) `prefix_of` q → i = j.
Proof.
  intros [r ->] [u Hu]. rewrite <- !app_assoc in Hu. apply app_inv_head in Hu. by injection Hu.
Qed.

Lemma not_done_here p i q : (p ++ [i]) `prefix_of` q → ¬ done_before p i q.
Proof. intros Hpre (j & Hj & Hpre'). pose proof (snoc_prefix_inj p q i j Hpre Hpre'). lia. Qed.

Lemma done_before_succ p i q :
  0 ≤ i → done_before p (i + 1) q ↔ done_before p i q ∨ (p ++ [i]) `prefix_of` q.
Proof.
  intros Hi. split.
  - intros (j & Hj & Hpre). destruct (decide (j = i)) as [->|]; [by right|left; exists j; split; [lia|done]].
  - intros [(j & Hj & Hpre)|Hpre]; [exists j|exists i]; (split; [lia|done]).
Qed.

Lemma frames_below_succ m d p i :
  0 ≤ i → frames_below m d p (i + 1) = frames_below m d p i ++
    (if walk m src (p ++ [i]) is Some _ then frames_at m src d (p ++ [i]) else []).
Proof.
  intros Hi. unfold frames_below. rewrite seqZ_app by lia.
  change (seqZ (0 + i) 1) with [0 + i]. rewrite Z.add_0_l, fmap_app, join_app.
  cbn [fmap list_fmap mjoin list_join]. by rewrite app_nil_r.
Qed.

Lemma leaf_none m root p q l : walk m root p = None → p `prefix_of` q → leaf m root q l = None.
Proof. intros Hw [r ->]. unfold leaf. by rewrite walk_none_app. Qed.

Section level.
Context (d : nat) (p : list Z) (s t : Z) (k : kmem) (Hpre : subtree_pre (S d) p s t k).

Lemma level_len : (length p ≤ 2)%nat.
Proof. pose proof (sp_depth _ _ _ _ _ Hpre). lia. Qed.

(** A slot that is not present is skipped. *)
Lemma level_skip i k1 :
  0 ≤ i → level_progress d p k i k1 → walk (k_mem k) src (p ++ [i]) = None →
  level_progress d p k (i + 1) k1.
Proof.
  intros Hi [P1 P2 P3 P4 P5 P6 P7] Hnone. split; [exact P1|exact P2| | | | |exact P7].
  - intros q Hq Hn. apply P3; [done|]. rewrite done_before_succ in Hn by done. tauto.
  - intros q l Hq [Hdone|Hhere]%done_before_succ; [by apply P4| |done].
    destruct (P5 q l Hq (not_done_here _ _ _ Hhere)) as [-> ->].
    rewrite (leaf_none _ _ _ _ _ Hnone Hhere). split; [done|].
    apply (sp_leaf _ _ _ _ _ Hpre); [done|]. by eapply prefix_app_l.
  - intros q l Hq Hn. apply P5; [done|]. rewrite done_before_succ in Hn by done. tauto.
  - rewrite frames_below_succ, Hnone, app_nil_r by done. exact P6.
Qed.

(** After the subtree of slot [i] has been copied from a state [k2] that
    agrees with [k1] except for the new table, slot [i] is done. *)
Lemma level_finish i k1 k2 k3 s' :
  0 ≤ i → path_ok user_half (p ++ [i]) → level_progress d p k i k1 →
  walk (k_mem k) src (p ++ [i]) = Some s' →
  pair_step k1 k2 → k_refs k2 = k_refs k1 → kernel_pml4_phys k2 = kernel_pml4_phys k1 →
  (∀ q, path_ok user_half q → walk (k_mem k2) src q = walk (k_mem k1) src q) →
  (∀ q, path_ok user_half q → q ≠ p ++ [i] → walk (k_mem k2) dst q = walk (k_mem k1) dst q) →
  (∀ q l, leaf_pos q l → leaf (k_mem k2) src q l = leaf (k_mem k1) src q l ∧
                         leaf (k_mem k2) dst q l = leaf (k_mem k1) dst q l) →
  copied d (p ++ [i]) k2 k3 → level_progress d p k (i + 1) k3.
Proof.
  intros Hi Hpi [P1 P2 P3 P4 P5 P6 P7] Hsome HP Hr Hk Hws Hwd Hl [C1 C2 C3 C4 C5 C6 C7].
  split.
  - eapply pair_step_trans; [exact P1|]. by eapply pair_step_trans.
  - intros q Hq. rewrite C2, Hws, P2; done.
  - intros q Hq Hn. rewrite done_before_succ in Hn by done.
    rewrite C3; [|done|unfold below; tauto]. rewrite Hwd; [apply P3; tauto|done|].
    intros ->. apply Hn. by right.
  - intros q l Hq [Hdone|Hhere]%done_before_succ; [| |done].
    + destruct (C5 q l Hq) as [-> ->]; [intros H; by apply (not_done_here p i q H)|].
      destruct (Hl q l Hq) as [-> ->]. by apply P4.
    + destruct (C4 q l Hq Hhere) as [-> ->]. destruct (Hl q l Hq) as [-> _].
      by destruct (P5 q l Hq (not_done_here _ _ _ Hhere)) as [-> _].
  - intros q l Hq Hn. rewrite done_before_succ in Hn by done.
    destruct (C5 q l Hq) as [-> ->]; [tauto|]. destruct (Hl q l Hq) as [-> ->]. apply P5; tauto.
  - rewrite frames_below_succ, Hsome, foldl_app, <- P6, <- Hr, C6 by done. f_equal.
    apply frames_at_ext; [|done| |].
    + rewrite length_app. pose proof (sp_depth _ _ _ _ _ Hpre). simpl. lia.
    + intros q Hq _. rewrite Hws, P2; done.
    + intros q l Hq Hhere. destruct (Hl q l Hq) as [-> _].
      by destruct (P5 q l Hq (not_done_here _ _ _ Hhere)) as [-> _].
  - congruence.
Qed.

(** A present slot: a table is allocated and installed before the child runs. *)
Lemma level_enter i k1 n s' :
  path_ok user_half (p ++ [i]) → level_progress d p k i k1 →
  next_table (k_mem k1) s i = Some s' → n ∈ free_set (k_pmm k1) → 0 < n →
  let ka := with_new_table n k1 in
  let k2 := set_ent t i (Z.lor (n * 4096) (Z.land (ent (k_mem ka) s i) (~64 PTE_ADDR_MASK))) ka in
  region_step user_half dst k1 k2 ∧
  (∀ q, path_ok user_half q → q ≠ p ++ [i] → walk (k_mem k2) dst q = walk (k_mem k1) dst q) ∧
  (∀ q l, leaf_pos q l → leaf (k_mem k2) dst q l = leaf (k_mem k1) dst q l) ∧
  Z.land (ent (k_mem k2) s i) PTE_ADDR_MASK = s' ∧
  subtree_pre d (p ++ [i]) s' (n * 4096) k2.
Proof.
  intros Hpi [P1 P2 P3 P4 P5 P6 P7] Hnt Hn Hpos ka k2.
  pose proof Hpre as [Hd Hp _ Hs Ht Hbel Hlf].
  pose proof (pr_wf _ _ P1) as HW1. pose proof HW1 as (W1 & W2 & Hdis).
  assert (walk (k_mem k1) src p = Some s) as Hs1 by (by rewrite P2).
  assert (walk (k_mem k1) dst p = Some t) as Ht1.
  { rewrite P3; [done..|]. intros (j & _ & Hpj). by apply snoc_not_prefix in Hpj. }
  assert (∀ q, (p ++ [i]) `prefix_of` q → below p q) as Hb.
  { intros q [r ->]. split; [by rewrite <- app_assoc; eexists|].
    intros E%(f_equal length). rewrite !length_app in E. simpl in E. lia. }
  assert (∀ q, path_ok user_half q → (p ++ [i]) `prefix_of` q → walk (k_mem k1) dst q = None) as Hnone.
  { intros q Hq Hpq. rewrite P3; [auto|done|by apply not_done_here]. }
  assert (tst (ent (k_mem k1) s i) PTE_PRESENT = true ∧ s' = Z.land (ent (k_mem k1) s i) PTE_ADDR_MASK)
    as [Hpr ->].
  { unfold next_table in Hnt. destruct (tst _ _); [|done]. by injection Hnt as <-. }
  assert (idx_ok i) as Hi by eauto with seedos.
  assert (ent (k_mem ka) s i = ent (k_mem k1) s i) as Ea.
  { exact (new_table_ent user_half src k1 k1 (since_refl _ _ _ W1) n Hn p s i Hp Hs1 Hi). }
  set (e := ent (k_mem k1) s i) in *. unfold k2. rewrite Ea.
  assert (Z.land (Z.land e (~64 PTE_ADDR_MASK)) PTE_ADDR_MASK = 0) as Hf.
  { rewrite <- Z.land_assoc. change (Z.land (~64 PTE_ADDR_MASK) PTE_ADDR_MASK) with 0.
    apply Z.land_0_r. }
  assert (tst (Z.land e (~64 PTE_ADDR_MASK)) PTE_PRESENT = true) as Hfp by (by rewrite tst_flags).
  destruct (install_dst k1 p t i _ n HW1 Hpi Ht1 (Hnone _ Hpi ltac:(done)) Hn Hpos Hf Hfp)
    as (R & Hwd & Hld).
  set (k2' := set_ent t i _ (with_new_table n k1)) in *.
  pose proof (other_walk _ _ _ _ _ _ R W1 (disjoint_sym _ _ _ _ _ Hdis)) as Hws.
  split; [exact R|]. split; [|split; [|split]].
  - intros q Hq Hne. by rewrite Hwd, decide_False.
  - intros q l (Hq & Hq3 & Hl). by apply Hld.
  - change ka with (with_new_table n k1). fold k2'.
    rewrite (other_ent _ _ _ _ _ _ R W1 (disjoint_sym _ _ _ _ _ Hdis) p s i); eauto with seedos.
  - split.
    + rewrite length_app. simpl. lia.
    + exact Hpi.
    + exact (pr_wf _ _ (dst_pair_step _ _ HW1 R)).
    + rewrite Hws by done. by rewrite walk_snoc, Hs1.
    + rewrite Hwd by done. by rewrite decide_True.
    + intros q Hq [Hpq Hne]. rewrite Hwd, decide_False by done. by apply Hnone.
    + intros q l Hq Hpq. pose proof Hq as (Hq' & Hq3 & Hl). rewrite Hld by done.
      destruct (P5 q l Hq (not_done_here _ _ _ Hpq)) as [_ ->]. apply Hlf; [done|].
      by eapply prefix_app_l.
Qed.

Context (child : Z → Z → kmem → kmem + kmem).
Context (Hchild : ∀ p s t k, p ≠ [] → subtree_pre d p s t k → subtree_post d p k (child s t k)).

(** The loop body of [cow_level]. *)
Definition level_body (i : Z) (k1 : kmem) : kmem + kmem :=
  if negb (tst (ent (k_mem k1) s i) PTE_PRESENT) then inl k1
  else
    let '(new, k1) := alloc_page_table k1 in
    if new =? 0 then inr k1
    else
      let k1 := set_ent t i (Z.lor new (Z.land (ent (k_mem k1) s i) (~64 PTE_ADDR_MASK))) k1 in
      child (Z.land (ent (k_mem k1) s i) PTE_ADDR_MASK) new k1.

Lemma level_body_ok i k1 :
  0 ≤ i < Z.of_nat (width p) → level_progress d p k i k1 →
  match level_body i k1 with
  | inl k' => level_progress d p k (i + 1) k'
  | inr k' => pair_step k k' ∧ free_set (k_pmm k') ⊆ {[0]} ∧ kernel_pml4_phys k' = kernel_pml4_phys k
  end.
Proof.
  intros Hi HP. pose proof level_len as Hlen. pose proof Hpre as [_ Hp _ Hs _ _ _].
  assert (path_ok user_half (p ++ [i])) as Hpi by (by apply width_iff).
  pose proof (lp_step _ _ _ _ _ HP) as PS. pose proof (pr_wf _ _ PS) as (W1 & W2 & Hdis).
  assert (walk (k_mem k) src (p ++ [i]) = next_table (k_mem k1) s i) as Hnt.
  { rewrite <- (lp_walk_src _ _ _ _ _ HP), walk_snoc, (lp_walk_src _ _ _ _ _ HP), Hs by done. done. }
  unfold level_body. destruct (tst (ent (k_mem k1) s i) PTE_PRESENT) eqn:Hpr; cbn [negb].
  2:{ apply level_skip; [lia|exact HP|]. rewrite Hnt. unfold next_table. by rewrite Hpr. }
  destruct (alloc_page_table_cases k1 (sw_pmm _ _ _ W1) (sw_phys _ _ _ W1))
    as [[Hoom ->]|(n & Hn & Hpos & ->)].
  { split; [exact PS|split; [exact Hoom|exact (lp_kernel _ _ _ _ _ HP)]]. }
  destruct (Z.eqb_spec (n * 4096) 0); [lia|]. fold (with_new_table n k1).
  assert (next_table (k_mem k1) s i = Some (Z.land (ent (k_mem k1) s i) PTE_ADDR_MASK)) as Hsome
    by (unfold next_table; by rewrite Hpr).
  destruct (level_enter i k1 n _ Hpi HP Hsome Hn ltac:(lia)) as (R & Hwd & Hld & Es & Hsub).
  set (k2 := set_ent t i _ (with_new_table n k1)) in *. rewrite Es.
  pose proof (dst_pair_step k1 k2 (pr_wf _ _ PS) R) as PS2.
  assert (p ++ [i] ≠ []) as Hne by (clear; by destruct p).
  pose proof (Hchild _ _ _ _ Hne Hsub) as Hpost.
  destruct (child _ _ k2) as [k3|k3]; cbn [subtree_post] in Hpost.
  - eapply (level_finish i k1 k2 k3); [lia|done|exact HP|rewrite Hnt; exact Hsome|exact PS2|done|done| |done| |done].
    + exact (other_walk _ _ _ _ _ _ R W1 (disjoint_sym _ _ _ _ _ Hdis)).
    + intros q l Hq. split; [|by apply Hld]. destruct Hq as (Hq & Hq3 & Hl).
      exact (other_leaf _ _ _ _ _ _ R W1 (disjoint_sym _ _ _ _ _ Hdis) q l Hq Hq3 Hl).
  - destruct Hpost as (PS3 & Hoom & Hk). split; [|split; [exact Hoom|]].
    + eapply pair_step_trans; [exact PS|]. by eapply pair_step_trans.
    + rewrite Hk. exact (lp_kernel _ _ _ _ _ HP).
Qed.

Lemma cow_level_ok : subtree_post (S d) p k (cow_level (width p) child s t k).
Proof.
  pose proof level_len as Hlen. pose proof Hpre as [Hdep Hp HW Hs Ht Hbel Hlf].
  change (cow_level (width p) child s t k) with (for_until (width p) 0 level_body k).
  pose proof (for_until_ind (λ i k', 0 ≤ i ∧ level_progress d p k i k')
    (λ k', pair_step k k' ∧ free_set (k_pmm k') ⊆ {[0]} ∧ kernel_pml4_phys k' = kernel_pml4_phys k)
    (width p) 0 level_body k) as Hind.
  cbv beta in Hind. rewrite Z.add_0_l in Hind.
  assert (0 ≤ 0 ∧ level_progress d p k 0 k) as H0.
  { split; [done|]. split; auto using pair_step_refl. intros q l Hq (j & Hj & _). lia. }
  specialize (Hind H0). clear H0.
  assert (∀ j k1, 0 ≤ j < Z.of_nat (width p) → 0 ≤ j ∧ level_progress d p k j k1 →
    match level_body j k1 with
    | inl k' => 0 ≤ j + 1 ∧ level_progress d p k (j + 1) k'
    | inr k' => pair_step k k' ∧ free_set (k_pmm k') ⊆ {[0]} ∧ kernel_pml4_phys k' = kernel_pml4_phys k
    end) as Hstep.
  { intros j k1 Hj [_ HP]. pose proof (level_body_ok j k1 Hj HP) as Hb.
    destruct (level_body j k1); [split; [lia|exact Hb]|exact Hb]. }
  specialize (Hind Hstep). clear Hstep.
  destruct (for_until (width p) 0 level_body k) as [k'|k']; cbn [subtree_post]; [|exact Hind].
  destruct Hind as [_ [P1 P2 P3 P4 P5 P6 P7]].
  assert (∀ q, done_before p (Z.of_nat (width p)) q → below p q) as Hdb.
  { intros q (j & _ & [r ->]). split; [by rewrite <- app_assoc; eexists|].
    intros E%(f_equal length). rewrite !length_app in E. simpl in E. lia. }
  split; [exact P1|exact P2| | | |exact P6|exact P7].
  - intros q Hq Hn. apply P3; [done|]. intros H. apply Hn, Hdb, H.
  - intros q l Hq [r ->]. apply P4; [done|]. destruct Hq as (Hq & Hq3 & _).
    destruct r as [|j r]; [rewrite app_nil_r in Hq3; lia|].
    exists j. split; [apply width_iff; [done|lia|eauto with seedos]|].
    exists r. by rewrite <- app_assoc.
  - intros q l Hq Hn. apply P5; [done|]. intros H. apply Hn, Hdb, H.
Qed.

End level.

End cow.

(** ** The whole copy *)

(** Frames mapped in the user half, one entry per mapping. *)
Definition user_frames (root : Z) (k : kmem) : list Z := frames_at (k_mem k) root 3 [].

(** A region none of whose slots is written keeps its translations. *)
Lemma slots_kept I root k k' :
  space_wf I root k → (∀ a, slot_of I root k a → rd (k_mem k') a = rd (k_mem k) a) →
  ∀ va, I (PML4_INDEX va) → pte_at root va k' = pte_at root va k.
Proof.
  intros Hwf Hslot va HI.
  assert (∀ q t j, slot_ok I q j → walk (k_mem k) root q = Some t →
    ent (k_mem k') t j = ent (k_mem k) t j) as He by (intros q t j Hq Hw; apply Hslot; by exists q, t, j).
  assert (walk (k_mem k') root (upper_path va) = walk (k_mem k) root (upper_path va)) as Hw.
  { apply walk_ext. intros r j s t E Hr. pose proof (upper_path_ok I va HI) as Hok. rewrite E in Hok.
    unfold next_table. rewrite (He r t j); eauto with seedos. }
  unfold pte_at, leaf. rewrite Hw. destruct (walk (k_mem k) root _) as [t|] eqn:E; [|done].
  cbn [mbind option_bind]. rewrite (He (upper_path va) t); eauto with seedos.
Qed.

Lemma cow_levels_ok src dst k :
  subtree_pre src dst 3 [] src dst k →
  subtree_post src dst 3 [] k
    (cow_level PAGE_TABLE_ENTRIES_USER
       (cow_level PAGE_TABLE_ENTRIES (cow_level PAGE_TABLE_ENTRIES cow_pt)) src dst k).
Proof.
  assert (∀ d child, (∀ p s t k, p ≠ [] → subtree_pre src dst d p s t k →
      subtree_post src dst d p k (child s t k)) →
    ∀ p s t k, p ≠ [] → subtree_pre src dst (S d) p s t k →
      subtree_post src dst (S d) p k (cow_level PAGE_TABLE_ENTRIES child s t k)) as Hlift.
  { intros d child Hc p s t k0 Hne Hp. pose proof (cow_level_ok src dst d p s t k0 Hp child Hc) as H.
    destruct p as [|i p]; [by destruct Hne|exact H]. }
  intros Hpre. apply (cow_level_ok src dst 2 [] src dst k Hpre).
  apply Hlift, Hlift. intros p s t k0 _. apply cow_pt_ok.
Qed.

Lemma fresh_root_subtree src n k k1 :
  space_wf user_half src k → fresh_root_spec src n k k1 →
  subtree_pre src (n * 4096) 3 [] src (n * 4096) k1.
Proof.
  intros Hwf Hfr. destruct (fr_others _ _ _ _ Hfr user_half src Hwf) as (W1 & Hd & _ & _).
  assert (∀ q, path_ok user_half q → q ≠ [] → walk (k_mem k1) (n * 4096) q = None) as Hnone.
  { intros [|i q] (Hf & _ & Hu) Hne; [done|]. inversion_clear Hf as [|? ? Hi _].
    cbn [walk]. unfold next_table. unfold user_half, idx_ok in *.
    by rewrite (fr_user_empty _ _ _ _ Hfr) by lia. }
  split; [reflexivity| | |reflexivity|reflexivity| |].
  - split_and!; [constructor|simpl; lia|done].
  - split_and!; [exact W1|apply Hfr|exact Hd].
  - intros q Hq [_ Hne]. by apply Hnone.
  - intros q l (Hq & Hq3 & _) _. unfold leaf. rewrite Hnone; [done..|]. by intros ->.
Qed.

Lemma slot_of_walk I root k k' a :
  (∀ q, path_ok I q → walk (k_mem k') root q = walk (k_mem k) root q) →
  slot_of I root k' a → slot_of I root k a.
Proof.
  intros Hw (p & t & i & Hs & Hp & E). exists p, t, i. rewrite <- Hw by apply Hs. auto.
Qed.

Lemma slot_not_free I root k a :
  space_wf I root k → slot_of I root k a → ((a / 4096) ∉ free_set (k_pmm k)).
Proof.
  intros Hwf (p & t & i & (Hp & Hi & _) & Hw & ->).
  destruct (sw_used _ _ _ Hwf p t Hp Hw) as (Ha & _ & Hf). by rewrite slot_page.
Qed.

(** The upper half of a fresh root belongs to no user region. *)
Lemma fresh_kernel_slot src n k k1 i :
  space_wf user_half src k → n ∈ free_set (k_pmm k) → fresh_root_spec src n k k1 → 256 ≤ i < 512 →
  let a := n * 4096 + 8 * i in
  ¬ slot_of user_half src k1 a ∧ ¬ slot_of user_half (n * 4096) k1 a ∧
  ((a / 4096) ∉ free_set (k_pmm k1)).
Proof.
  intros Hwf Hn Hfr Hi a. assert (idx_ok i) as Hio by (unfold idx_ok; lia).
  assert ((n * 4096) mod 4096 = 0) as Hna by (apply Z.mod_mul; lia).
  assert (a / 4096 = n) as Ea by (unfold a; rewrite (slot_page _ _ Hna Hio); apply Z.div_mul; lia).
  destruct (fr_others _ _ _ _ Hfr user_half src Hwf) as (W1 & Hd & Hws & _). split; [|split].
  - intros Hs%(slot_of_walk user_half src k k1 a Hws). apply (slot_not_free _ _ _ _ Hwf) in Hs.
    apply Hs. by rewrite Ea.
  - intros (p & t & j & (Hp & Hj & Hh) & Hw & E). destruct p as [|x p].
    + injection Hw as <-. destruct (slot_inj _ _ _ _ Hna Hna Hio Hj E) as [_ <-].
      specialize (Hh eq_refl). unfold user_half in Hh. lia.
    + pose proof (sp_below _ _ _ _ _ _ _ (fresh_root_subtree _ _ _ _ Hwf Hfr) (x :: p) Hp) as H.
      rewrite H in Hw; [discriminate Hw|]. split; [apply prefix_nil|discriminate].
  - rewrite Ea, (fr_pmm _ _ _ _ Hfr), take_page_free_set, elem_of_difference, elem_of_singleton.
    tauto.
Qed.

