(* ===== verification/VmmFree.v ===== *)
(** * Releasing an address space

    [vmm_free_user_address_space] reads the tree and frees pages; it writes no
    table.  The theorem says exactly which pages the allocator gets back: the
    root, every user table and every mapped frame, whether or not another
    address space still maps it. *)
From S2P Require Import Prelude Pmm Page Vmm VmmWalk VmmMap VmmProps VmmCow.
Local Open Scope Z_scope.

(** Pages released for a table: the frames of a page table, or the tables of
    an upper level and what is released for each of them. *)
Fixpoint releases (m : gmap Z Z) (d : nat) (n : Z) (t x : Z) : Prop :=
  match d with
  | O => ∃ l, 0 ≤ l < n ∧ next_table m t l = Some (x * 4096)
  | S d' => ∃ i t', 0 ≤ i < n ∧ next_table m t i = Some t' ∧
                    (t' = x * 4096 ∨ releases m d' 512 t' x)
  end.

(** [k'] is [k] after releasing the pages in [P]. *)
Record released (P : Z → Prop) (k k' : kmem) : Prop := {
  re_mem : k_mem k' = k_mem k;
  re_refs : k_refs k' = k_refs k;
  re_kernel : kernel_pml4_phys k' = kernel_pml4_phys k;
  re_wf : pmm_wf (k_pmm k');
  re_total : total_pages (k_pmm k') = total_pages (k_pmm k);
  re_free : ∀ x, x ∈ free_set (k_pmm k') ↔
    x ∈ free_set (k_pmm k) ∨ (0 ≤ x < total_pages (k_pmm k) ∧ P x);
}.

#[global] Instance released_proper :
  Proper (pointwise_relation Z iff ==> eq ==> eq ==> iff) released.
Proof.
  assert (∀ P Q k k', pointwise_relation Z iff P Q → released P k k' → released Q k k') as H.
  { intros P Q k k' HPQ []. split; try done. intros x. by rewrite re_free0, (HPQ x). }
  intros P Q HPQ k ? <- k' ? <-. split; apply H; [done|by symmetry].
Qed.

Lemma released_nothing k P : pmm_wf (k_pmm k) → (∀ x, ¬ P x) → released P k k.
Proof. intros Hwf HP. split; try done. intros x. specialize (HP x). tauto. Qed.

Lemma released_trans P Q R k0 k1 k2 :
  released P k0 k1 → released Q k1 k2 → (∀ x, R x ↔ P x ∨ Q x) → released R k0 k2.
Proof.
  intros [] [] HR. split; try congruence. intros x. rewrite re_free1, re_free0, HR, re_total0. tauto.
Qed.

Lemma k_pmm_free_released a k :
  pmm_wf (k_pmm k) → 0 ≤ a → a mod 4096 = 0 →
  released (λ x, a = x * 4096) k (k_pmm_free a k).
Proof.
  intros Hwf Ha Hal. split; try done; cbn [k_pmm_free k_pmm set_pmm].
  - by apply pmm_free_wf.
  - apply pmm_free_total.
  - intros x. destruct (pmm_free_cases a (k_pmm k) Ha) as [(_ & Hr & Hn & ->)|[Hc ->]];
      unfold PAGE_SIZE in *.
    + rewrite give_page_free_set by (split; [apply Z.div_pos; lia|done]).
      rewrite elem_of_union, elem_of_singleton.
      assert (0 ≤ a / 4096) by (apply Z.div_pos; lia).
      assert (x = a / 4096 ↔ a = x * 4096) as <- by (split; intros; zdm).
      split; [intros [->|]; [right; split; [lia|done]|by left]|naive_solver].
    + split; [by left|]. intros [?|[Hx ->]]; [done|]. rewrite Z.div_mul, Z.mod_mul in Hc by lia.
      naive_solver lia.
Qed.

(** Entries name aligned page addresses. *)
Lemma next_table_page m t i t' :
  next_table m t i = Some t' → 0 ≤ t' ∧ t' mod 4096 = 0.
Proof.
  unfold next_table. destruct (tst _ _); [|done]. intros [= <-]. split.
  - apply Z.land_nonneg. right. done.
  - change (Z.land (Z.land (ent m t i) PTE_ADDR_MASK) PTE_ADDR_MASK) with 0 || idtac.
    change 4096 with (2 ^ 12). rewrite <- Z.land_ones, <- Z.land_assoc by lia.
    change (Z.land PTE_ADDR_MASK (Z.ones 12)) with 0. apply Z.land_0_r.
Qed.

(** A loop that releases one set per index releases their union. *)
Lemma for_loop_released (P : Z → Z → Prop) n f k :
  pmm_wf (k_pmm k) →
  (∀ i k', 0 ≤ i < Z.of_nat n → k_mem k' = k_mem k → pmm_wf (k_pmm k') → released (P i) k' (f i k')) →
  released (λ x, ∃ i, 0 ≤ i < Z.of_nat n ∧ P i x) k (for_loop n 0 f k).
Proof.
  intros Hwf Hf.
  pose proof (for_loop_ind (λ j k', 0 ≤ j ∧ released (λ x, ∃ i, 0 ≤ i < j ∧ P i x) k k') n 0 f k) as H.
  destruct H as [_ H]; [| |by rewrite Z.add_0_l in H].
  - split; [done|]. apply released_nothing; [done|]. intros x (i & Hi & _). lia.
  - intros j k' Hj [_ Hr]. split; [lia|].
    eapply released_trans; [exact Hr|apply Hf; [lia|apply Hr|apply Hr]|].
    intros x. split.
    + intros (i & Hi & Hx). destruct (decide (i = j)) as [->|]; [by right|left; exists i; split; [lia|done]].
    + intros [(i & Hi & Hx)|Hx]; [exists i|exists j]; (split; [lia|done]).
Qed.

Lemma free_pt_released t k :
  pmm_wf (k_pmm k) → released (releases (k_mem k) 0 512 t) k (free_pt t k).
Proof.
  intros Hwf. apply (for_loop_released (λ l x, next_table (k_mem k) t l = Some (x * 4096)) 512); [done|].
  intros l k' _ Hm Hwf'. rewrite Hm. destruct (tst (ent (k_mem k) t l) PTE_PRESENT) eqn:E.
  - assert (next_table (k_mem k) t l = Some (Z.land (ent (k_mem k) t l) PTE_ADDR_MASK)) as Hn
      by (unfold next_table; by rewrite E).
    destruct (next_table_page _ _ _ _ Hn) as [H1 H2]. rewrite Hn.
    assert (pointwise_relation Z iff (λ x, Some (Z.land (ent (k_mem k) t l) PTE_ADDR_MASK) = Some (x * 4096))
      (λ x, Z.land (ent (k_mem k) t l) PTE_ADDR_MASK = x * 4096)) as ->
      by (intros x; split; [by intros [= ->]|by intros ->]).
    exact (k_pmm_free_released _ k' Hwf' H1 H2).
  - apply released_nothing; [done|]. unfold next_table. by rewrite E.
Qed.

Lemma free_level_released n d child t k :
  pmm_wf (k_pmm k) →
  (∀ t' k', k_mem k' = k_mem k → pmm_wf (k_pmm k') →
     released (releases (k_mem k) d 512 t') k' (child t' k')) →
  released (releases (k_mem k) (S d) (Z.of_nat n) t) k (free_level n child t k).
Proof.
  intros Hwf Hc.
  assert (pointwise_relation Z iff (releases (k_mem k) (S d) (Z.of_nat n) t)
    (λ x, ∃ i, 0 ≤ i < Z.of_nat n ∧ ∃ t', next_table (k_mem k) t i = Some t' ∧
       (t' = x * 4096 ∨ releases (k_mem k) d 512 t' x))) as -> by (intros x; cbn; naive_solver).
  apply for_loop_released; [exact Hwf|]. intros i k' Hi Hm Hwf'. rewrite Hm.
  destruct (tst (ent (k_mem k) t i) PTE_PRESENT) eqn:E; cbn [negb].
  2:{ apply released_nothing; [exact Hwf'|]. unfold next_table. rewrite E. by intros x (? & ? & _). }
  assert (next_table (k_mem k) t i = Some (Z.land (ent (k_mem k) t i) PTE_ADDR_MASK)) as Hn
    by (unfold next_table; by rewrite E).
  set (t' := Z.land (ent (k_mem k) t i) PTE_ADDR_MASK) in *.
  destruct (next_table_page _ _ _ _ Hn) as [H1 H2].
  pose proof (Hc t' k' Hm Hwf') as Hchild.
  rewrite (re_mem _ _ _ Hchild), Hm. fold t'.
  eapply released_trans; [exact Hchild|exact (k_pmm_free_released t' _ (re_wf _ _ _ Hchild) H1 H2)|].
  intros x. rewrite Hn. split.
  - intros (t1 & [= <-] & [->|Hr]); [by right|by left].
  - intros [Hr|Hr]; exists t'; (split; [done|]); [by right|by left].
Qed.

(** C27 [vmm_free_user_address_space_spec]: releasing an address space writes no
    memory and gives back exactly the root, every table below the user half of
    the root and every frame mapped there; the free counter stays exact. *)
Theorem vmm_free_user_address_space_spec root k :
  pmm_wf (k_pmm k) → 0 ≤ root → root mod 4096 = 0 →
  released (λ x, root = x * 4096 ∨ releases (k_mem k) 3 256 root x) k
    (vmm_free_user_address_space root k).
Proof.
  intros Hwf Hr Hal. unfold vmm_free_user_address_space.
  set (k1 := free_level _ _ root k).
  assert (released (releases (k_mem k) 3 256 root) k k1) as H1.
  { apply (free_level_released PAGE_TABLE_ENTRIES_USER 2); [exact Hwf|]. intros t2 k2 Hm2 Hw2.
    rewrite <- Hm2. apply (free_level_released PAGE_TABLE_ENTRIES 1); [exact Hw2|].
    intros t3 k3 Hm3 Hw3. rewrite <- Hm3.
    apply (free_level_released PAGE_TABLE_ENTRIES 0); [exact Hw3|].
    intros t4 k4 Hm4 Hw4. rewrite <- Hm4. by apply free_pt_released. }
  eapply released_trans; [exact H1|exact (k_pmm_free_released root k1 (re_wf _ _ _ H1) Hr Hal)|].
  intros x. cbv beta. tauto.
Qed.

(** ** A concrete machine for the memory manager

    Sixty-four pages, a kernel root in page 2 whose user half is empty and a
    data frame in page 9.  The
    hypotheses of the address-space theorems hold on it, and the theorems are
    applied to it; the last section runs fork and exit on it. *)
Definition pmm_64 : pmm := Pmm 0 0x1000 (wr (wr ∅ 0 7) 1 2) 8 64 60 60.

Definition machine : kmem :=
  Kmem pmm_64 (PageRefs (Some ∅) 64) (wr ∅ (0x2000 + 8 * 511) 0x1003) 0x2000.

Lemma pmm_64_wf : pmm_wf pmm_64.
Proof.
  split; [|cbn; lia|done|by vm_compute].
  intros j. cbn [bitmap pmm_64]. rewrite !rd_wr. repeat (case_decide; [lia|]).
  unfold rd. rewrite lookup_empty. cbn. lia.
Qed.

Lemma machine_root_used : used_page (k_pmm machine) 0x2000.
Proof.
  split; [reflexivity|split; [vm_compute; split; reflexivity|]]. intros [_ H]%elem_of_free_set.
  vm_compute in H. discriminate H.
Qed.

Lemma machine_wf : space_wf user_half 0x2000 machine.
Proof.
  apply space_wf_empty; [exact pmm_64_wf|cbn; lia|exact machine_root_used|].
  intros i Hi Hu. unfold idx_ok, user_half in *. unfold ent. cbn [k_mem machine].
  rewrite rd_wr_ne by lia. unfold rd. by rewrite lookup_empty.
Qed.

(** The machine with one writable user page mapped at 4 MiB. *)
Definition mapped : Z * kmem := vmm_map_page 0x2000 0x400000 0x9000 7 machine.

Lemma mapped_wf : space_wf user_half 0x2000 mapped.2.
Proof.
  exact (rs_wf _ _ _ _ (space_exec_step user_half 0x2000 machine (DoMap 0x400000 0x9000 7)
    machine_wf eq_refl)).
Qed.

Lemma mapped_result : vmm_map_page 0x2000 0x400000 0x9000 7 machine = (0, mapped.2).
Proof.
  assert (mapped.1 = 0) as <- by (vm_compute; reflexivity). exact (surjective_pairing mapped).
Qed.

Lemma vmm_map_page_maps_witness :
  mapped.1 = 0 ∧ vmm_get_physical 0x2000 0x400000 mapped.2 = 0x9000 ∧
  vmm_get_pte_flags 0x2000 0x400000 mapped.2 = 7 ∧
  pte_at 0x2000 0x401000 mapped.2 = None.
Proof.
  destruct (vmm_map_page_maps user_half 0x2000 0x400000 0x9000 7 machine mapped.2
    machine_wf ltac:(reflexivity) ltac:(lia) ltac:(reflexivity) ltac:(reflexivity) mapped_result)
    as (H1 & H2 & H3 & _).
  split; [exact (f_equal fst mapped_result)|]. split; [exact H1|]. split; [exact H2|].
  rewrite H3; [reflexivity|reflexivity|]. intros H. vm_compute in H. discriminate H.
Defined.

(** The same machine with a single free page: the page directory pointer table
    can be allocated, the page directory cannot. *)
Definition pmm_full : pmm := Pmm 0 0x1000 (wr ∅ 0 7) 1 4 1 1.

Definition machine_full : kmem :=
  Kmem pmm_full (PageRefs (Some ∅) 64) (wr ∅ (0x2000 + 8 * 511) 0x1003) 0x2000.

Lemma machine_full_wf : space_wf user_half 0x2000 machine_full.
Proof.
  apply space_wf_empty.
  - split; [|cbn; lia|done|by vm_compute].
    intros j. cbn [bitmap pmm_full machine_full k_pmm]. rewrite rd_wr. case_decide; [lia|].
    unfold rd. rewrite lookup_empty. cbn. lia.
  - cbn. lia.
  - split; [reflexivity|split; [vm_compute; split; reflexivity|]]. intros [_ H]%elem_of_free_set.
    vm_compute in H. discriminate H.
  - intros i Hi Hu. unfold idx_ok, user_half in *. unfold ent. cbn [k_mem machine_full].
    rewrite rd_wr_ne by lia. unfold rd. by rewrite lookup_empty.
Qed.


Lemma vmm_unmap_page_unmaps_witness :
  let r := vmm_unmap_page 0x2000 0x400000 mapped.2 in
  r.1 = 0 ∧ vmm_get_physical 0x2000 0x400000 r.2 = 0.
Proof.
  pose proof (vmm_unmap_page_unmaps user_half 0x2000 0x400000 mapped.2 mapped_wf
    ltac:(reflexivity)) as H.
  cbn zeta. destruct (vmm_unmap_page 0x2000 0x400000 mapped.2) as [r k'].
  destruct H as (H1 & H2 & _).
  assert (r = 0) as Hr.
  { apply H1; [|vm_compute; reflexivity]. exists 0x9007. vm_compute. reflexivity. }
  split; [exact Hr|]. exact (proj1 (H2 Hr)).
Defined.

Lemma vmm_set_pte_flags_spec_witness :
  let r := vmm_set_pte_flags 0x2000 0x400000 5 mapped.2 in
  r.1 = 0 ∧ vmm_get_pte_flags 0x2000 0x400000 r.2 = 5.
Proof.
  pose proof (vmm_set_pte_flags_spec user_half 0x2000 0x400000 5 mapped.2 mapped_wf
    ltac:(reflexivity) ltac:(lia) ltac:(reflexivity) ltac:(reflexivity)) as H.
  cbn zeta. destruct (vmm_set_pte_flags 0x2000 0x400000 5 mapped.2) as [r k'].
  assert (pte_at 0x2000 0x400000 mapped.2 = Some 0x9007) as E by (vm_compute; reflexivity).
  rewrite E in H. destruct H as (H1 & _ & H2 & _). split; [exact H1|exact H2].
Defined.

(** Two address spaces: the kernel root and a process created next to it. *)
Definition created : kmem := fresh_root 0x2000 3 machine.

Lemma created_spec : fresh_root_spec 0x2000 3 machine created.
Proof.
  apply fresh_root_ok; [exact pmm_64_wf|cbn; lia| |lia|reflexivity|apply machine_root_used].
  apply elem_of_free_set. split; [cbn; lia|vm_compute; reflexivity].
Qed.

Lemma address_spaces_isolated_witness :
  let k' := foldl (space_exec 0x2000) created
    [DoMap 0x400000 0x9000 7; DoSetFlags 0x400000 5; DoUnmap 0x400000; DoMap 0x800000 0xa000 7] in
  pte_at 0x3000 0x400000 k' = None ∧ space_wf user_half 0x3000 k'.
Proof.
  destruct (fr_others _ _ _ _ created_spec user_half 0x2000 machine_wf) as (W1 & Hd & _ & _).
  destruct (address_spaces_isolated user_half user_half 0x2000 0x3000 created
    [DoMap 0x400000 0x9000 7; DoSetFlags 0x400000 5; DoUnmap 0x400000; DoMap 0x800000 0xa000 7]
    W1 (fr_wf _ _ _ _ created_spec) Hd ltac:(repeat constructor)) as (_ & H2 & _ & H3).
  cbn zeta. split; [|exact H2]. rewrite H3; [|reflexivity]. vm_compute. reflexivity.
Defined.

Lemma user_range_check_iff_witness :
  user_range_check 0x2000 0x400ff0 16 PTE_WRITABLE PTE_COW mapped.2 = true ∧
  byte_allowed 0x2000 mapped.2 PTE_WRITABLE PTE_COW 0x400fff.
Proof.
  pose proof (user_range_check_iff 0x2000 0x400ff0 16 PTE_WRITABLE PTE_COW mapped.2
    ltac:(split; lia) ltac:(vm_compute; split; congruence) ltac:(reflexivity)
    ltac:(vm_compute; split; congruence) ltac:(reflexivity)) as H.
  assert (user_range_check 0x2000 0x400ff0 16 PTE_WRITABLE PTE_COW mapped.2 = true) as E
    by (vm_compute; reflexivity).
  split; [exact E|]. apply (proj1 H E). lia.
Defined.

Lemma vmm_create_address_space_spec_witness :
  match vmm_create_address_space machine with
  | Done (root, k') => root = 0x3000 ∧ ent (k_mem k') root 511 = 0x1003
  | Halted => False
  end.
Proof.
  pose proof (vmm_create_address_space_spec machine pmm_64_wf ltac:(cbn; lia) machine_root_used) as H.
  destruct (vmm_create_address_space machine) as [[root k']|] eqn:E.
  - destruct H as (n & -> & _ & _ & Hfr).
    assert (n * 4096 = 0x3000) as En.
    { assert (match vmm_create_address_space machine with Done (r, _) => r = 0x3000 | Halted => False end)
        as Hr by (vm_compute; reflexivity). rewrite E in Hr. exact Hr. }
    split; [exact En|]. rewrite (fr_kernel_half _ _ _ _ Hfr 511 ltac:(lia)). vm_compute. reflexivity.
  - vm_compute in H. discriminate H.
Defined.

(** Forking the process with one writable page. *)
Definition forked_space : Z * kmem := vmm_copy_address_space_cow 0x2000 mapped.2.

Lemma forked_child : forked_space.1 = 0x6000.
Proof. vm_compute. reflexivity. Qed.


(** ** Releasing address spaces *)

Lemma vmm_free_user_address_space_spec_witness :
  let k' := vmm_free_user_address_space 0x2000 mapped.2 in
  k_mem k' = k_mem mapped.2 ∧ 2 ∈ free_set (k_pmm k') ∧ pmm_wf (k_pmm k').
Proof.
  pose proof (vmm_free_user_address_space_spec 0x2000 mapped.2 (sw_pmm _ _ _ mapped_wf)
    ltac:(lia) ltac:(reflexivity)) as H.
  cbn zeta. split; [exact (re_mem _ _ _ H)|]. split; [|exact (re_wf _ _ _ H)].
  apply (re_free _ _ _ H). right. split; [vm_compute; split; congruence|]. left. reflexivity.
Defined.

(** The frame of a page shared after fork goes back to the allocator when the
    child's address space is released, while the parent still maps it. *)
Theorem fork_exit_frees_parent_frame :
  let k' := vmm_free_user_address_space 0x6000 forked_space.2 in
  bitmap_is_used 9 (k_pmm forked_space.2) = true ∧ bitmap_is_used 9 (k_pmm k') = false ∧
  pte_at 0x2000 0x400000 k' = Some 0x9205.
Proof. vm_compute. auto. Qed.
