(* ===== verification/Heap.v ===== *)
(** * Kernel heap ([mm/heap.c], [mm/heap.h])

    A first-fit free-list allocator with splitting and forward coalescing.
    Heap memory is a flat byte memory indexed by virtual address; headers and
    links are little-endian 8-byte words in it.  Pages come from a
    [PageSource], the part of the physical and virtual memory managers the
    heap calls. *)
From S2P Require Import Prelude Pmm Page Vmm.
Local Open Scope Z_scope.

(** ** The page source *)

Class PageSource (P : Type) := {
  ps_alloc : P → Z * P;
  ps_free : Z → P → P;
  ps_map : Z → Z → P → Z * P;
  ps_unmap : Z → P → Z * P;
}.

(** The kernel's own: frames from the bitmap allocator, mapped present and
    writable into the kernel address space. *)
#[global] Instance kmem_page_source : PageSource kmem := {|
  ps_alloc := λ k, let '(a, p) := pmm_alloc (k_pmm k) in (a, set_pmm p k);
  ps_free := k_pmm_free;
  ps_map := λ virt phys k,
    vmm_map_page (vmm_get_kernel_pml4 k) virt phys (Z.lor PTE_PRESENT PTE_WRITABLE) k;
  ps_unmap := λ virt k, vmm_unmap_page (vmm_get_kernel_pml4 k) virt k;
|}.

(** ** State *)

Definition MIN_ALLOC_SIZE : Z := 16.
Definition HEAP_ALIGNMENT : Z := 16.
Definition INITIAL_HEAP_PAGES : nat := 16.
Definition HEAP_GROW_PAGES : Z := 16.
Definition BLOCK_FREE : Z := 1.
Definition BLOCK_FLAGS_MASK : Z := 0xF.
Definition SIZE_MASK : Z := ~64 BLOCK_FLAGS_MASK.

(** [sizeof(block_header_t)] and [sizeof(free_block_t)]. *)
Definition sizeof_header : Z := 8.
Definition sizeof_free_block : Z := 24.

Record heap := Heap {
  h_mem : gmap Z Z;
  heap_start : Z;
  heap_end : Z;
  free_list : Z;
  total_allocated : Z;
  total_free : Z;
}.

Definition set_h_mem (m : gmap Z Z) (h : heap) : heap :=
  Heap m (heap_start h) (heap_end h) (free_list h) (total_allocated h) (total_free h).

Definition set_heap_end (e : Z) (h : heap) : heap :=
  Heap (h_mem h) (heap_start h) e (free_list h) (total_allocated h) (total_free h).

Definition set_free_list (l : Z) (h : heap) : heap :=
  Heap (h_mem h) (heap_start h) (heap_end h) l (total_allocated h) (total_free h).

Definition set_total_allocated (n : Z) (h : heap) : heap :=
  Heap (h_mem h) (heap_start h) (heap_end h) (free_list h) n (total_free h).

Definition set_total_free (n : Z) (h : heap) : heap :=
  Heap (h_mem h) (heap_start h) (heap_end h) (free_list h) (total_allocated h) n.

(** ** Blocks *)

Definition get64 (h : heap) (a : Z) : Z := load 8 (h_mem h) a.

Definition put64 (a v : Z) (h : heap) : heap := set_h_mem (store 8 (h_mem h) a v) h.

(** The fields of a [free_block_t] at [b]. *)
Definition size_and_flags (h : heap) (b : Z) : Z := get64 h b.
Definition b_next (h : heap) (b : Z) : Z := get64 h (b + 8).
Definition b_prev (h : heap) (b : Z) : Z := get64 h (b + 16).
Definition set_size_and_flags (b v : Z) (h : heap) : heap := put64 b v h.
Definition set_next (b v : Z) (h : heap) : heap := put64 (b + 8) v h.
Definition set_prev (b v : Z) (h : heap) : heap := put64 (b + 16) v h.

Definition block_size (h : heap) (b : Z) : Z := Z.land (size_and_flags h b) SIZE_MASK.

Definition block_is_free (h : heap) (b : Z) : bool := tst (size_and_flags h b) BLOCK_FREE.

Definition block_set_free (b : Z) (h : heap) : heap :=
  set_size_and_flags b (Z.lor (size_and_flags h b) BLOCK_FREE) h.

Definition block_set_used (b : Z) (h : heap) : heap :=
  set_size_and_flags b (Z.land (size_and_flags h b) (~64 BLOCK_FREE)) h.

Definition block_data (b : Z) : Z := u64 (b + sizeof_header).

Definition data_to_block (ptr : Z) : Z := u64 (ptr - sizeof_header).

Definition next_block (h : heap) (b : Z) : Z := u64 (b + block_size h b).

Definition align_up (size : Z) : Z :=
  Z.land (u64 (size + HEAP_ALIGNMENT - 1)) (~64 (HEAP_ALIGNMENT - 1)).

(** ** Free list *)

Definition free_list_insert (b : Z) (h : heap) : heap :=
  let h := set_next b (free_list h) h in
  let h := set_prev b 0 h in
  let h := if free_list h =? 0 then h else set_prev (free_list h) b h in
  set_free_list b h.

Definition free_list_remove (b : Z) (h : heap) : heap :=
  let h := if b_prev h b =? 0 then set_free_list (b_next h b) h
           else set_next (b_prev h b) (b_next h b) h in
  if b_next h b =? 0 then h else set_prev (b_next h b) (b_prev h b) h.

(** ** Growing *)

(** One iteration of the page loop of [heap_expand]; [inr] is [goto cleanup].
    The list is [allocated_phys]. *)
Definition expand_page {P : Type} `{!PageSource P} (i : Z) (s : list Z * heap * P)
    : (list Z * heap * P) + (list Z * heap * P) :=
  let '(phys_list, h, p) := s in
  let '(phys, p) := ps_alloc p in
  if phys =? PMM_ALLOC_FAILED then inr (phys_list, h, p)
  else
    let '(result, p) := ps_map (heap_end h) phys p in
    if negb (result =? 0) then inr (phys_list, h, ps_free phys p)
    else inl (phys_list ++ [phys], set_heap_end (u64 (heap_end h + PAGE_SIZE)) h, p).

(** The cleanup loop. *)
Definition expand_cleanup {P : Type} `{!PageSource P} (new_region : Z) (phys_list : list Z) (p : P) : P :=
  for_loop (length phys_list) 0 (λ i p,
    let '(_, p) := ps_unmap (u64 (new_region + i * PAGE_SIZE)) p in
    ps_free (nth (Z.to_nat i) phys_list 0) p) p.

Definition heap_expand {P : Type} `{!PageSource P} (min_size : Z) (h : heap) (p : P) : Z * heap * P :=
  let pages_needed := u64 (min_size + PAGE_SIZE - 1) / PAGE_SIZE in
  let pages_needed := if pages_needed <? HEAP_GROW_PAGES then HEAP_GROW_PAGES else pages_needed in
  if 64 <? pages_needed then (0, h, p)
  else
    let new_region := heap_end h in
    match for_until (Z.to_nat pages_needed) 0 expand_page ([], h, p) with
    | inl (_, h, p) =>
        let blk_size := u64 (pages_needed * PAGE_SIZE) in
        let h := set_size_and_flags new_region (Z.lor blk_size BLOCK_FREE) h in
        let h := set_total_free (u64 (total_free h + (blk_size - sizeof_header))) h in
        (new_region, free_list_insert new_region h, p)
    | inr (phys_list, h, p) =>
        (0, set_heap_end new_region h, expand_cleanup new_region phys_list p)
    end.

(** One page of [kheap_init]. *)
Definition init_heap_page {P : Type} `{!PageSource P} (i : Z) (s : Z * P) : (Z * P) + unit :=
  let '(end_, p) := s in
  let '(phys, p) := ps_alloc p in
  if phys =? PMM_ALLOC_FAILED then inr tt
  else
    let '(result, p) := ps_map end_ phys p in
    if negb (result =? 0) then inr tt else inl (u64 (end_ + PAGE_SIZE), p).

(** [stale] is what the heap's virtual addresses held before. *)
Definition kheap_init {P : Type} `{!PageSource P} (stale : gmap Z Z) (p : P) : outcome (heap * P) :=
  let start := 0xFFFFFFFF00000000 in
  match for_until INITIAL_HEAP_PAGES 0 init_heap_page (start, p) with
  | inr _ => Halted
  | inl (end_, p) =>
      let initial_size := Z.of_nat INITIAL_HEAP_PAGES * PAGE_SIZE in
      let h := Heap stale start end_ 0 0 0 in
      let h := set_size_and_flags start (Z.lor initial_size BLOCK_FREE) h in
      let h := set_next start 0 h in
      let h := set_prev start 0 h in
      let h := set_free_list start h in
      Done (set_total_free (initial_size - sizeof_header) h, p)
  end.

(** ** Allocation *)

(** Take [total_size] bytes from the free block [b] of [current_size] bytes,
    which is already off the free list: the tail becomes a free block when it
    is large enough. *)
Definition carve (b current_size total_size : Z) (h : heap) : Z * heap :=
  let remaining := u64 (current_size - total_size) in
  let '(total_size, h) :=
    if sizeof_free_block + MIN_ALLOC_SIZE <=? remaining then
      let new_free := u64 (b + total_size) in
      let h := set_size_and_flags new_free (Z.lor remaining BLOCK_FREE) h in
      let h := free_list_insert new_free h in
      let h := set_size_and_flags b total_size h in
      (total_size, set_total_free (u64 (total_free h - (total_size - sizeof_header))) h)
    else
      let total_size := current_size in
      (total_size, set_total_free (u64 (total_free h - (total_size - sizeof_header))) h) in
  let h := block_set_used b h in
  let h := set_total_allocated (u64 (total_allocated h + (total_size - sizeof_header))) h in
  (block_data b, h).

(** The search of the free list; [None] when the fuel runs out, [Some 0] when
    the list ends. *)
Fixpoint first_fit (fuel : nat) (h : heap) (total_size current : Z) : option Z :=
  match fuel with
  | O => None
  | S fuel' =>
      if current =? 0 then Some 0
      else if total_size <=? block_size h current then Some current
      else first_fit fuel' h total_size (b_next h current)
  end.

(** A free list has no more blocks than fit in the heap. *)
Definition list_fuel (h : heap) : nat := S (Z.to_nat ((heap_end h - heap_start h) / 16)).

(** [None]: the search of a cyclic list does not end. *)
Definition kmalloc {P : Type} `{!PageSource P} (size : Z) (h : heap) (p : P) : option (Z * heap * P) :=
  if size =? 0 then Some (0, h, p)
  else
    let total_size := align_up (u64 (sizeof_header + size)) in
    let total_size := if total_size <? sizeof_free_block then sizeof_free_block else total_size in
    current ← first_fit (list_fuel h) h total_size (free_list h);
    if negb (current =? 0) then
      let current_size := block_size h current in
      let '(ptr, h) := carve current current_size total_size (free_list_remove current h) in
      Some (ptr, h, p)
    else
      let '(new_block, h, p) := heap_expand total_size h p in
      if new_block =? 0 then Some (0, h, p)
      else
        let h := free_list_remove new_block h in
        let '(ptr, h) := carve new_block (block_size h new_block) total_size h in
        Some (ptr, h, p).

Definition kzalloc {P : Type} `{!PageSource P} (size : Z) (h : heap) (p : P) : option (Z * heap * P) :=
  '(ptr, h, p) ← kmalloc size h p;
  if negb (ptr =? 0) then
    Some (ptr, for_loop (Z.to_nat size) 0 (λ i h, set_h_mem (wr (h_mem h) (ptr + i) 0) h) h, p)
  else Some (ptr, h, p).

Definition kfree (ptr : Z) (h : heap) : heap :=
  if ptr =? 0 then h
  else
    let block := data_to_block ptr in
    let size := block_size h block in
    if (block <? heap_start h) || (heap_end h <=? block) then h
    else if block_is_free h block then h
    else
      let h := set_total_allocated (u64 (total_allocated h - (size - sizeof_header))) h in
      let h := set_total_free (u64 (total_free h + (size - sizeof_header))) h in
      let next := next_block h block in
      let h :=
        if (next <? heap_end h) && block_is_free h next then
          let h := free_list_remove next h in
          let size := u64 (size + block_size h next) in
          set_size_and_flags block size h
        else h in
      let h := block_set_free block h in
      free_list_insert block h.

Definition krealloc {P : Type} `{!PageSource P} (ptr size : Z) (h : heap) (p : P)
    : option (Z * heap * P) :=
  if ptr =? 0 then kmalloc size h p
  else if size =? 0 then Some (0, kfree ptr h, p)
  else
    let block := data_to_block ptr in
    let old_size := u64 (block_size h block - sizeof_header) in
    let total_needed := align_up (u64 (sizeof_header + size)) in
    if total_needed <=? block_size h block then Some (ptr, h, p)
    else
      '(new_ptr, h, p) ← kmalloc size h p;
      if new_ptr =? 0 then Some (0, h, p)
      else
        let copy_size := if old_size <? size then old_size else size in
        let h := for_loop (Z.to_nat copy_size) 0
          (λ i h, set_h_mem (wr (h_mem h) (new_ptr + i) (rd (h_mem h) (ptr + i))) h) h in
        Some (new_ptr, kfree ptr h, p).

Definition kheap_get_used (h : heap) : Z := total_allocated h.

Definition kheap_get_free (h : heap) : Z := total_free h.
