(* ===== verification/HeapInv.v ===== *)
(** * Heap representation

    The heap is a sequence of blocks that tile the bytes from [heap_start] to
    [heap_end]; the free blocks, in some order, form the doubly linked free
    list.  The lemmas here say what each memory update of [mm/heap.c] does to
    the tiling and to the list. *)
From S2P Require Import Prelude Pmm Page Vmm Heap.
Local Open Scope Z_scope.

Record blk := Blk { bk_size : Z; bk_free : bool }.

Definition blk_ok (b : blk) : Prop := 32 ≤ bk_size b ∧ bk_size b mod 16 = 0.

(** Header word of a block. *)
Definition blk_header (b : blk) : Z := bk_size b + (if bk_free b then 1 else 0).

Definition bytes_of (bs : list blk) : Z := foldr (λ b n, bk_size b + n) 0 bs.

(** The blocks [bs] lie one after the other from [a] to [e]. *)
Fixpoint tiles (m : gmap Z Z) (a : Z) (bs : list blk) (e : Z) : Prop :=
  match bs with
  | [] => a = e
  | b :: bs' => blk_ok b ∧ load 8 m a = blk_header b ∧ tiles m (a + bk_size b) bs' e
  end.

(** The blocks with their addresses. *)
Fixpoint placed (a : Z) (bs : list blk) : list (Z * blk) :=
  match bs with
  | [] => []
  | b :: bs' => (a, b) :: placed (a + bk_size b) bs'
  end.

Definition free_addrs (a : Z) (bs : list blk) : list Z :=
  (filter (λ x, bk_free x.2 = true) (placed a bs)).*1.

(** Allocated payloads: pointer and length. *)
Definition used_payloads (a : Z) (bs : list blk) : list (Z * Z) :=
  (λ x, (x.1 + 8, bk_size x.2 - 8)) <$> filter (λ x, bk_free x.2 = false) (placed a bs).

(** A doubly linked list segment: [prev] before its first block, [next] after
    its last. *)
Fixpoint dll (m : gmap Z Z) (prev : Z) (l : list Z) (next : Z) : Prop :=
  match l with
  | [] => True
  | b :: l' => load 8 m (b + 8) = hd next l' ∧ load 8 m (b + 16) = prev ∧ dll m b l' next
  end.

(** The block before a segment that follows [l]. *)
Fixpoint last_or (p : Z) (l : list Z) : Z :=
  match l with
  | [] => p
  | b :: l' => last_or b l'
  end.

(** The free list of [h] is [l]. *)
Definition flist (h : heap) (l : list Z) : Prop :=
  free_list h = hd 0 l ∧ dll (h_mem h) 0 l 0.

(** Addresses of free blocks: distinct, room for the links in each. *)
Definition sep (l : list Z) : Prop :=
  NoDup l ∧ (∀ x y, x ∈ l → y ∈ l → x = y ∨ x + 24 ≤ y ∨ y + 24 ≤ x) ∧
  (∀ x, x ∈ l → 0 < x < 2 ^ 64).

(** Only link words of the blocks in [l] differ. *)
Definition links_frame (l : list Z) (m m' : gmap Z Z) : Prop :=
  ∀ z, (∀ y, y ∈ l → ¬ (y + 8 ≤ z < y + 24)) → rd m' z = rd m z.

(** ** Tiling *)

Lemma bytes_of_app bs cs : bytes_of (bs ++ cs) = bytes_of bs + bytes_of cs.
Proof. unfold bytes_of. induction bs as [|b bs IH]; simpl; lia. Qed.

Lemma tiles_app m a bs cs e :
  tiles m a (bs ++ cs) e ↔ tiles m a bs (a + bytes_of bs) ∧ tiles m (a + bytes_of bs) cs e.
Proof.
  revert a. induction bs as [|b bs IH]; intros a; cbn [tiles app bytes_of foldr].
  - rewrite Z.add_0_r. naive_solver.
  - rewrite IH. fold (bytes_of bs). rewrite Z.add_assoc. tauto.
Qed.

Lemma tiles_end m a bs e : tiles m a bs e → e = a + bytes_of bs.
Proof.
  revert a. induction bs as [|b bs IH]; intros a; cbn [tiles bytes_of foldr]; [lia|].
  intros (_ & _ & H). apply IH in H. unfold bytes_of in H. lia.
Qed.

Lemma tiles_ok m a bs e : tiles m a bs e → Forall blk_ok bs.
Proof.
  revert a. induction bs as [|b bs IH]; intros a; cbn [tiles]; [constructor|].
  intros (Hb & _ & H). constructor; eauto.
Qed.

Lemma bytes_of_nonneg bs : Forall blk_ok bs → 32 * Z.of_nat (length bs) ≤ bytes_of bs ∧ bytes_of bs mod 16 = 0.
Proof.
  unfold blk_ok. induction 1 as [|b bs [Hb Hm] _ IH]; cbn [bytes_of foldr length]; [done|].
  fold (bytes_of bs). split; [lia|]. destruct IH as [_ IH].
  rewrite Z.add_mod, Hm, IH by lia. done.
Qed.

Lemma placed_app a bs cs : placed a (bs ++ cs) = placed a bs ++ placed (a + bytes_of bs) cs.
Proof.
  revert a. induction bs as [|b bs IH]; intros a; cbn [placed app bytes_of foldr].
  - by rewrite Z.add_0_r.
  - fold (bytes_of bs). by rewrite IH, Z.add_assoc.
Qed.

Lemma free_addrs_app a bs cs :
  free_addrs a (bs ++ cs) = free_addrs a bs ++ free_addrs (a + bytes_of bs) cs.
Proof. unfold free_addrs. by rewrite placed_app, list.filter_app, fmap_app. Qed.

Lemma used_payloads_app a bs cs :
  used_payloads a (bs ++ cs) = used_payloads a bs ++ used_payloads (a + bytes_of bs) cs.
Proof. unfold used_payloads. by rewrite placed_app, list.filter_app, fmap_app. Qed.

(** A placed block splits the sequence. *)
Lemma placed_split a bs x b :
  (x, b) ∈ placed a bs → ∃ bs1 bs2, bs = bs1 ++ b :: bs2 ∧ x = a + bytes_of bs1.
Proof.
  revert a. induction bs as [|c bs IH]; intros a; cbn [placed]; [by intros ?%not_elem_of_nil|].
  intros [[= -> ->]|Hin]%elem_of_cons.
  - exists [], bs. cbn. split; [done|lia].
  - destruct (IH _ Hin) as (bs1 & bs2 & -> & ->). exists (c :: bs1), bs2.
    cbn [app bytes_of foldr]. split; [done|]. unfold bytes_of. lia.
Qed.

Lemma placed_range a bs x b :
  Forall blk_ok bs → (x, b) ∈ placed a bs →
  a ≤ x ∧ x + bk_size b ≤ a + bytes_of bs ∧ 32 ≤ bk_size b ∧ (a mod 16 = 0 → x mod 16 = 0).
Proof.
  intros Hok Hin. destruct (placed_split a bs x b Hin) as (bs1 & bs2 & -> & ->).
  apply Forall_app in Hok as [H1 H2]. inversion_clear H2 as [|? ? Hb H3].
  rewrite bytes_of_app. cbn [bytes_of foldr]. fold (bytes_of bs2).
  destruct (bytes_of_nonneg bs1 H1) as [? Hm1], (bytes_of_nonneg bs2 H3). destruct Hb.
  split_and!; [lia|lia|lia|]. intros Ha. by rewrite Z.add_mod, Ha, Hm1 by lia.
Qed.

(** Distinct placed blocks do not overlap. *)
Lemma placed_apart a bs x b y c :
  Forall blk_ok bs → (x, b) ∈ placed a bs → (y, c) ∈ placed a bs →
  (x = y ∧ b = c) ∨ x + bk_size b ≤ y ∨ y + bk_size c ≤ x.
Proof.
  revert a. induction bs as [|d bs IH]; intros a Hok; cbn [placed]; [by intros ?%not_elem_of_nil|].
  inversion_clear Hok as [|? ? Hd Hok'].
  intros [[= -> ->]|Hx]%elem_of_cons [[= -> ->]|Hy]%elem_of_cons.
  - by left.
  - destruct (placed_range _ _ _ _ Hok' Hy). lia.
  - destruct (placed_range _ _ _ _ Hok' Hx). lia.
  - by apply (IH (a + bk_size d)).
Qed.

Lemma length_placed a bs : length (placed a bs) = length bs.
Proof. revert a. induction bs as [|b bs IH]; intros a; cbn; [done|]. by rewrite IH. Qed.

Lemma free_addrs_nodup a bs : Forall blk_ok bs → NoDup (free_addrs a bs).
Proof.
  unfold free_addrs. revert a. induction bs as [|b bs IH]; intros a Hok; [constructor|].
  inversion_clear Hok as [|? ? Hb Hok']. cbn [placed]. rewrite filter_cons.
  case_decide; [|by apply IH]. cbn [fmap list_fmap]. constructor; [|by apply IH].
  intros ([y c] & E & [_ Hin]%list_elem_of_filter)%list_elem_of_fmap. cbn in E. subst y.
  destruct (placed_range _ _ _ _ Hok' Hin) as (? & _). destruct Hb. lia.
Qed.

Lemma used_payloads_nodup a bs : Forall blk_ok bs → NoDup (used_payloads a bs).
Proof.
  unfold used_payloads. revert a. induction bs as [|b bs IH]; intros a Hok; [constructor|].
  inversion_clear Hok as [|? ? Hb Hok']. cbn [placed]. rewrite filter_cons.
  case_decide; [|by apply IH]. cbn [fmap list_fmap]. constructor; [|by apply IH].
  intros ([y c] & [= E _] & [_ Hin]%list_elem_of_filter)%list_elem_of_fmap. cbn in E.
  destruct (placed_range _ _ _ _ Hok' Hin) as (? & _). destruct Hb. lia.
Qed.

Lemma placed_header m a bs e x b :
  tiles m a bs e → (x, b) ∈ placed a bs → load 8 m x = blk_header b.
Proof.
  revert a. induction bs as [|c bs IH]; intros a; cbn [placed tiles]; [by intros _ ?%not_elem_of_nil|].
  intros (_ & Hh & Ht) [[= -> ->]|Hin]%elem_of_cons; eauto.
Qed.

(** ** Bytes no header and no allocation owns *)

Definition free_interior (a : Z) (bs : list blk) (z : Z) : Prop :=
  ∃ x b, (x, b) ∈ placed a bs ∧ bk_free b = true ∧ x + 8 ≤ z < x + bk_size b.

(** Updates inside free blocks keep the tiling. *)
Lemma tiles_frame m m' a bs e :
  tiles m a bs e → (∀ x b, (x, b) ∈ placed a bs → load 8 m' x = load 8 m x) → tiles m' a bs e.
Proof.
  revert a. induction bs as [|b bs IH]; intros a; cbn [tiles placed]; [done|].
  intros (Hb & Hh & Ht) Hsame. split_and!; [done| |].
  - rewrite <- Hh. apply (Hsame a b). by left.
  - apply IH; [done|]. intros x c Hin. apply (Hsame x c). by right.
Qed.

Lemma header_not_interior a bs x b z :
  Forall blk_ok bs → (x, b) ∈ placed a bs → x ≤ z < x + 8 → ¬ free_interior a bs z.
Proof.
  intros Hok Hin Hz (y & c & Hy & _ & Hzy).
  destruct (placed_apart a bs x b y c Hok Hin Hy) as [[-> ->]|[?|?]].
  - lia.
  - destruct (placed_range _ _ _ _ Hok Hin) as (_ & _ & ? & _). lia.
  - lia.
Qed.

Lemma used_not_interior a bs x b z :
  Forall blk_ok bs → (x, b) ∈ placed a bs → bk_free b = false → x ≤ z < x + bk_size b →
  ¬ free_interior a bs z.
Proof.
  intros Hok Hin Hu Hz (y & c & Hy & Hf & Hzy).
  destruct (placed_apart a bs x b y c Hok Hin Hy) as [[-> ->]|[?|?]]; [congruence|lia|lia].
Qed.

(** Replacing a run of blocks by another run of the same length. *)
Lemma tiles_splice m m' a bs1 mid cs bs2 e :
  tiles m a (bs1 ++ mid ++ bs2) e →
  let x := a + bytes_of bs1 in
  bytes_of cs = bytes_of mid →
  tiles m' x cs (x + bytes_of cs) →
  (∀ z, z < x ∨ x + bytes_of mid ≤ z → ¬ free_interior a (bs1 ++ mid ++ bs2) z → rd m' z = rd m z) →
  tiles m' a (bs1 ++ cs ++ bs2) e.
Proof.
  intros Ht x Hlen Hcs Hframe. pose proof (tiles_ok _ _ _ _ Ht) as Hok.
  assert (∀ y b, (y, b) ∈ placed a (bs1 ++ mid ++ bs2) → y + 8 ≤ x ∨ x + bytes_of mid ≤ y →
    load 8 m' y = load 8 m y) as Hh.
  { intros y b Hin Hy. apply load_ext. intros z Hz. apply Hframe; [lia|].
    eapply header_not_interior; [done|exact Hin|lia]. }
  rewrite !placed_app in Hh. fold x in Hh.
  pose proof Hok as Hok'. apply Forall_app in Hok' as [Hok1 [_ Hok2]%Forall_app].
  rewrite !tiles_app in Ht |- *. fold x in Ht |- *. destruct Ht as (T1 & T2 & T3).
  rewrite Hlen in *. split_and!; [|exact Hcs|].
  - apply (tiles_frame m); [exact T1|]. intros y b Hin. apply (Hh y b).
    + apply elem_of_app. by left.
    + left. destruct (placed_range _ _ _ _ Hok1 Hin) as (_ & ? & ? & _). unfold x. lia.
  - apply (tiles_frame m); [exact T3|]. intros y b Hin. apply (Hh y b).
    + rewrite !elem_of_app. auto.
    + right. destruct (placed_range _ _ _ _ Hok2 Hin) as (? & _). lia.
Qed.

(** ** Linked list *)

Lemma dll_app m p l1 l2 n :
  dll m p (l1 ++ l2) n ↔ dll m p l1 (hd n l2) ∧ dll m (last_or p l1) l2 n.
Proof.
  revert p. induction l1 as [|b l1 IH]; intros p; [cbn; tauto|].
  cbn [dll app last_or]. rewrite IH.
  assert (hd n (l1 ++ l2) = hd (hd n l2) l1) as -> by (by destruct l1).
  tauto.
Qed.

Lemma last_or_app p l q : last_or p (l ++ [q]) = q.
Proof. revert p. induction l as [|b l IH]; intros p; [done|apply IH]. Qed.

Lemma dll_ext m m' p l n :
  (∀ x, x ∈ l → load 8 m' (x + 8) = load 8 m (x + 8) ∧ load 8 m' (x + 16) = load 8 m (x + 16)) →
  dll m p l n → dll m' p l n.
Proof.
  revert p. induction l as [|b l IH]; intros p H; [done|]. cbn [dll].
  intros (H1 & H2 & H3). destruct (H b ltac:(by left)) as [E1 E2].
  split_and!; [by rewrite E1|by rewrite E2|]. apply IH; [|done]. intros x Hx. apply H. by right.
Qed.

Lemma sep_subset l l' : sep l → NoDup l' → (∀ x, x ∈ l' → x ∈ l) → sep l'.
Proof. intros (H1 & H2 & H3) Hn Hs. split_and!; [done| |]; eauto. Qed.

Lemma hd_elem (n : Z) l : l ≠ [] → hd n l ∈ l.
Proof. destruct l; [done|]. intros _. by left. Qed.

Lemma links_frame_trans l m1 m2 m3 : links_frame l m1 m2 → links_frame l m2 m3 → links_frame l m1 m3.
Proof. intros H1 H2 z Hz. rewrite H2, H1; done. Qed.

Lemma links_frame_mono l l' m m' : links_frame l m m' → (∀ x, x ∈ l → x ∈ l') → links_frame l' m m'.
Proof. intros H Hs z Hz. apply H. intros y Hy. apply Hz, Hs, Hy. Qed.

Lemma links_frame_next l m b v : b ∈ l → links_frame l m (store 8 m (b + 8) v).
Proof. intros Hb z Hz. specialize (Hz b Hb). apply store_frame. lia. Qed.

Lemma links_frame_prev l m b v : b ∈ l → links_frame l m (store 8 m (b + 16) v).
Proof. intros Hb z Hz. specialize (Hz b Hb). apply store_frame. lia. Qed.

Section insert.
Context (h : heap) (l : list Z) (b : Z) (Hl : flist h l) (Hsep : sep (b :: l)).

Lemma free_list_insert_flist : flist (free_list_insert b h) (b :: l).
Proof.
  destruct Hl as [Hhd Hd], Hsep as (Hnd & Hap & Hr). split; [done|].
  pose proof (Hr b ltac:(by left)) as Hrb.
  assert (0 ≤ free_list h < 2 ^ 64) as Hfl.
  { rewrite Hhd. destruct l as [|c l']; [done|]. pose proof (Hr c ltac:(by right; left)). simpl. lia. }
  unfold free_list_insert, set_next, set_prev, put64. cbn [h_mem set_h_mem free_list set_free_list].
  destruct l as [|c l']; cbn [hd] in Hhd; rewrite Hhd.
  - cbn [Z.eqb h_mem set_h_mem set_free_list dll hd]. split_and!; [| |done].
    + rewrite load_store_ne by lia. by apply load_store_eq.
    + by apply load_store_eq.
  - pose proof (Hr c ltac:(by right; left)). destruct (Z.eqb_spec c 0); [lia|].
    inversion_clear Hnd as [|? ? Hnb Hnd']. inversion_clear Hnd' as [|? ? Hnc _].
    assert (∀ y, y ∈ c :: l' → b + 24 ≤ y ∨ y + 24 ≤ b) as Hab.
    { intros y Hy. destruct (Hap b y ltac:(by left) ltac:(by right)) as [->|]; [done|lia]. }
    pose proof (Hab c ltac:(by left)).
    cbn [h_mem set_h_mem set_free_list dll hd] in *. destruct Hd as (D1 & D2 & D3).
    split_and!.
    + rewrite !load_store_ne by lia. apply load_store_eq. lia.
    + rewrite load_store_ne by lia. by apply load_store_eq.
    + rewrite !load_store_ne by lia. exact D1.
    + apply load_store_eq. lia.
    + eapply dll_ext; [|exact D3]. intros x Hx.
      pose proof (Hab x ltac:(by right)).
      destruct (Hap c x ltac:(by right; left) ltac:(by right; right)) as [<-|Hcx]; [done|].
      rewrite !load_store_ne by lia. done.
Qed.

Lemma free_list_insert_frame : links_frame (b :: l) (h_mem h) (h_mem (free_list_insert b h)).
Proof.
  destruct Hl as [Hhd Hd]. unfold free_list_insert, set_next, set_prev, put64.
  cbn [h_mem set_h_mem free_list set_free_list].
  assert (b ∈ b :: l) as Hb by (by left).
  apply (links_frame_trans _ _ (store 8 (h_mem h) (b + 8) (free_list h))); [by apply links_frame_next|].
  eapply links_frame_trans; [by apply (links_frame_prev _ _ b 0)|].
  destruct (Z.eqb_spec (free_list h) 0) as [|Hne]; [intros z _; reflexivity|].
  cbn [h_mem set_h_mem]. apply links_frame_prev. rewrite Hhd. right. apply hd_elem.
  intros ->. by rewrite Hhd in Hne.
Qed.

End insert.

Lemma free_list_insert_rest b h :
  heap_start (free_list_insert b h) = heap_start h ∧ heap_end (free_list_insert b h) = heap_end h ∧
  total_allocated (free_list_insert b h) = total_allocated h ∧
  total_free (free_list_insert b h) = total_free h.
Proof. unfold free_list_insert. cbn. by destruct (free_list h =? 0). Qed.

Section remove.
Context (h : heap) (l1 l2 : list Z) (b : Z).
Context (Hl : flist h (l1 ++ b :: l2)) (Hsep : sep (l1 ++ b :: l2)).

Let pr := last_or 0 l1.
Let nx := hd 0 l2.

Lemma remove_links : b_next h b = nx ∧ b_prev h b = pr.
Proof. destruct Hl as [_ (_ & H1 & H2 & _)%dll_app]. done. Qed.

Lemma remove_elems :
  (pr ≠ 0 → pr ∈ l1) ∧ (nx ≠ 0 → nx ∈ l2) ∧ 0 ≤ pr < 2 ^ 64 ∧ 0 ≤ nx < 2 ^ 64 ∧
  (l1 ≠ [] → pr ≠ 0) ∧ (l2 ≠ [] → nx ≠ 0).
Proof.
  destruct Hsep as (_ & _ & Hr).
  assert (∀ x, x ∈ l1 → 0 < x < 2 ^ 64) as R1 by (intros x Hx; apply Hr, elem_of_app; by left).
  assert (∀ x, x ∈ l2 → 0 < x < 2 ^ 64) as R2 by (intros x Hx; apply Hr, elem_of_app; right; by right).
  assert (l1 = [] ∨ pr ∈ l1) as Hp.
  { unfold pr. destruct (decide (l1 = [])) as [->|Hne]; [by left|right].
    destruct (exists_last Hne) as (l & q & ->). rewrite last_or_app. apply elem_of_app. right. by left. }
  assert (l2 = [] ∨ nx ∈ l2) as Hn.
  { unfold nx. destruct l2; [by left|right; by left]. }
  split_and!.
  - intros Hne. destruct Hp as [E|]; [|done]. unfold pr in Hne. by rewrite E in Hne.
  - intros Hne. destruct Hn as [E|]; [|done]. unfold nx in Hne. by rewrite E in Hne.
  - destruct Hp as [E|Hin]; [unfold pr; by rewrite E|specialize (R1 _ Hin); lia].
  - destruct Hp as [E|Hin]; [unfold pr; by rewrite E|specialize (R1 _ Hin); lia].
  - destruct Hn as [E|Hin]; [unfold nx; by rewrite E|specialize (R2 _ Hin); lia].
  - destruct Hn as [E|Hin]; [unfold nx; by rewrite E|specialize (R2 _ Hin); lia].
  - intros Hne. destruct Hp as [E|Hin]; [done|specialize (R1 _ Hin); lia].
  - intros Hne. destruct Hn as [E|Hin]; [done|specialize (R2 _ Hin); lia].
Qed.

Lemma remove_apart x : x ∈ l1 ++ l2 → b + 24 ≤ x ∨ x + 24 ≤ b.
Proof.
  destruct Hsep as (Hnd & Hap & _). intros Hx.
  assert (x ≠ b) as Hne.
  { intros ->. apply list.NoDup_app in Hnd as (_ & H1 & H2). inversion_clear H2 as [|? ? H3 _].
    apply elem_of_app in Hx as [Hx|Hx]; [|done]. apply (H1 b Hx). by left. }
  destruct (Hap b x) as [->|?]; [..|done|lia].
  - apply elem_of_app. right. by left.
  - rewrite elem_of_app, elem_of_cons. apply elem_of_app in Hx. tauto.
Qed.

Lemma free_list_remove_eq :
  let m1 := if pr =? 0 then h_mem h else store 8 (h_mem h) (pr + 8) nx in
  let m2 := if nx =? 0 then m1 else store 8 m1 (nx + 16) pr in
  let f := if pr =? 0 then nx else free_list h in
  free_list_remove b h = set_free_list f (set_h_mem m2 h).
Proof.
  destruct remove_links as [En Ep], remove_elems as (Hp & _).
  unfold free_list_remove. rewrite En, Ep. cbn zeta.
  set (h1 := if pr =? 0 then _ else _).
  assert (b_next h1 b = nx ∧ b_prev h1 b = pr) as [-> ->].
  { unfold h1. destruct (Z.eqb_spec pr 0) as [|Hne]; [done|].
    pose proof (remove_apart pr ltac:(apply elem_of_app; left; auto)).
    unfold b_next, b_prev, get64 in *. cbn [h_mem set_next put64 set_h_mem].
    rewrite !load_store_ne by lia. done. }
  unfold h1. destruct (pr =? 0), (nx =? 0); by destruct h.
Qed.

(** The links of the remaining blocks after the removal. *)
Lemma remove_load x :
  x ∈ l1 ++ l2 →
  load 8 (h_mem (free_list_remove b h)) (x + 8) =
    (if decide (x = pr) then nx else load 8 (h_mem h) (x + 8)) ∧
  load 8 (h_mem (free_list_remove b h)) (x + 16) =
    (if decide (x = nx) then pr else load 8 (h_mem h) (x + 16)).
Proof.
  intros Hx. destruct remove_elems as (Hpi & Hni & Hpr & Hnr & Hpn & Hnn).
  destruct Hsep as (Hnd & Hap & Hr).
  assert (0 < x) as Hx0.
  { apply Hr. rewrite elem_of_app, elem_of_cons. apply elem_of_app in Hx. tauto. }
  assert (∀ y, y ∈ l1 ++ l2 → x = y ∨ x + 24 ≤ y ∨ y + 24 ≤ x) as Hapx.
  { intros y Hy. apply Hap; rewrite elem_of_app, elem_of_cons; apply elem_of_app in Hx, Hy; tauto. }
  assert (pr = 0 ∨ x = pr ∨ x + 24 ≤ pr ∨ pr + 24 ≤ x) as Hp.
  { destruct (decide (pr = 0)); [by left|right; apply Hapx, elem_of_app; left; auto]. }
  assert (nx = 0 ∨ x = nx ∨ x + 24 ≤ nx ∨ nx + 24 ≤ x) as Hn.
  { destruct (decide (nx = 0)); [by left|right; apply Hapx, elem_of_app; right; auto]. }
  rewrite free_list_remove_eq. cbn [h_mem set_free_list set_h_mem].
  destruct (Z.eqb_spec pr 0) as [Ep|Ep], (Z.eqb_spec nx 0) as [En|En]; split; case_decide;
    try lia; rewrite ?(load_store_ne _ _ _ (nx + 16)) by lia;
    rewrite ?(load_store_ne _ _ _ (pr + 8)) by lia; subst; try done; by apply load_store_eq.
Qed.

Lemma free_list_remove_flist : flist (free_list_remove b h) (l1 ++ l2).
Proof.
  destruct remove_elems as (Hpi & Hni & Hpr & Hnr & Hpn & Hnn).
  pose proof remove_load as HL. destruct Hl as [Hhd Hd], Hsep as (Hnd & _ & Hr).
  apply list.NoDup_app in Hnd as (Hnd1 & Hdis & Hnd2). inversion_clear Hnd2 as [|? ? Hnb Hnd2'].
  assert (∀ x, x ∈ l1 → x ≠ nx) as H1n.
  { intros x Hx ->. destruct (decide (nx = 0)) as [E|E].
    - rewrite E in Hx. pose proof (Hr 0 ltac:(apply elem_of_app; by left)). lia.
    - apply (Hdis nx Hx). right. auto. }
  assert (∀ x, x ∈ l2 → x ≠ pr) as H2p.
  { intros x Hx ->. destruct (decide (pr = 0)) as [E|E].
    - rewrite E in Hx. pose proof (Hr 0 ltac:(apply elem_of_app; right; by right)). lia.
    - apply (Hdis pr); [auto|by right]. }
  apply dll_app in Hd as [D1 (D2 & D3 & D4)]. split.
  { rewrite free_list_remove_eq. cbn [free_list set_free_list]. destruct l1 as [|c l1'].
    - reflexivity.
    - destruct (Z.eqb_spec pr 0) as [E|]; [destruct (Hpn ltac:(discriminate) E)|]. exact Hhd. }
  apply dll_app. fold nx pr. split.
  - destruct (decide (l1 = [])) as [->|Hne]; [exact I|].
    destruct (exists_last Hne) as (l & q & El).
    assert (pr = q) as Eq by (unfold pr; rewrite El; apply last_or_app).
    rewrite El in *. apply list.NoDup_app in Hnd1 as (_ & Hq & _).
    apply dll_app in D1 as [D1 (D5 & D6 & _)]. apply dll_app. split; [|split_and!].
    + apply (dll_ext (h_mem h)); [|exact D1]. intros x Hx.
      assert (x ∈ l ++ [q]) as Hx' by (apply elem_of_app; by left).
      destruct (HL x ltac:(apply elem_of_app; by left)) as [-> ->].
      rewrite !decide_False; [done|by apply H1n|]. rewrite Eq. intros ->. apply (Hq q Hx). by left.
    + destruct (HL q ltac:(apply elem_of_app; left; apply elem_of_app; right; by left)) as [-> _].
      by rewrite decide_True.
    + destruct (HL q ltac:(apply elem_of_app; left; apply elem_of_app; right; by left)) as [_ ->].
      rewrite decide_False; [exact D6|]. apply H1n, elem_of_app. right. by left.
    + exact I.
  - destruct l2 as [|c l2']; [exact I|]. cbn [hd] in nx. inversion_clear Hnd2' as [|? ? Hc _].
    destruct D4 as (D5 & D6 & D7). cbn [dll].
    destruct (HL c ltac:(apply elem_of_app; right; by left)) as [-> ->].
    rewrite (decide_True (P := c = nx)) by done. rewrite decide_False by (apply H2p; by left).
    split_and!; [exact D5|done|]. apply (dll_ext (h_mem h)); [|exact D7]. intros x Hx.
    destruct (HL x ltac:(apply elem_of_app; right; by right)) as [-> ->].
    rewrite !decide_False; [done| |apply H2p; by right]. intros ->. by apply Hc.
Qed.

Lemma free_list_remove_frame :
  links_frame (l1 ++ l2) (h_mem h) (h_mem (free_list_remove b h)).
Proof.
  destruct remove_elems as (Hpi & Hni & _). rewrite free_list_remove_eq.
  cbn [h_mem set_free_list set_h_mem].
  eapply (links_frame_trans _ _ (if pr =? 0 then h_mem h else store 8 (h_mem h) (pr + 8) nx)).
  - destruct (Z.eqb_spec pr 0); [by intros z _|]. apply links_frame_next, elem_of_app. left. auto.
  - destruct (Z.eqb_spec nx 0); [by intros z _|]. apply links_frame_prev, elem_of_app. right. auto.
Qed.

End remove.

Lemma free_list_remove_rest b h :
  heap_start (free_list_remove b h) = heap_start h ∧ heap_end (free_list_remove b h) = heap_end h ∧
  total_allocated (free_list_remove b h) = total_allocated h ∧
  total_free (free_list_remove b h) = total_free h.
Proof. unfold free_list_remove. cbn zeta. by repeat case_match. Qed.
