(* ===== verification/HeapProps.v ===== *)
(** * Correctness of the kernel heap

    Against the view of the heap as a finite map of live allocations, pointer
    to length: [kmalloc] adds a fresh disjoint range of at least the requested
    size, [kfree] removes one, neither touches the bytes of any other live
    allocation, and the statistics follow.  Requests must be larger than 8
    bytes: smaller ones get a 24-byte block whose recorded size loses its low
    bits. *)
From S2P Require Import Prelude Pmm Page Vmm Heap HeapInv.
Local Open Scope Z_scope.

(** ** Invariant *)

Definition used_bytes (bs : list blk) : Z :=
  foldr (λ b n, (if bk_free b then 0 else bk_size b - 8) + n) 0 bs.

(** Free bytes, headers included, plus one header per allocation. *)
Definition free_bytes (bs : list blk) : Z :=
  foldr (λ b n, (if bk_free b then bk_size b else 8) + n) 0 bs.

(** [l] lists the free blocks of the tiling [bs]. *)
Record heap_core (h : heap) (bs : list blk) (l : list Z) : Prop := {
  hi_tiles : tiles (h_mem h) (heap_start h) bs (heap_end h);
  hi_start : 0 < heap_start h ∧ heap_start h mod 16 = 0;
  hi_end : heap_end h < 2 ^ 64;
  hi_perm : l ≡ₚ free_addrs (heap_start h) bs;
  hi_used : total_allocated h = used_bytes bs;
  hi_free : ∃ regions, total_free h = u64 (free_bytes bs - 8 * regions);
}.

Definition heap_inv (h : heap) (bs : list blk) (l : list Z) : Prop :=
  heap_core h bs l ∧ flist h l.

Lemma used_bytes_app bs cs : used_bytes (bs ++ cs) = used_bytes bs + used_bytes cs.
Proof. unfold used_bytes. induction bs as [|b bs IH]; simpl; lia. Qed.

Lemma free_bytes_app bs cs : free_bytes (bs ++ cs) = free_bytes bs + free_bytes cs.
Proof. unfold free_bytes. induction bs as [|b bs IH]; simpl; lia. Qed.

Lemma used_bytes_bound bs : Forall blk_ok bs → 0 ≤ used_bytes bs ≤ bytes_of bs.
Proof.
  unfold used_bytes, bytes_of, blk_ok. induction 1 as [|b bs [Hb _] _ IH]; cbn [foldr]; [lia|].
  destruct (bk_free b); lia.
Qed.

(** ** Headers *)

Lemma header_size b : blk_ok b → bk_size b < 2 ^ 64 → Z.land (blk_header b) SIZE_MASK = bk_size b.
Proof.
  intros [Hb Hm] Hlt. unfold SIZE_MASK. change BLOCK_FLAGS_MASK with (Z.ones 4).
  unfold blk_header. destruct (bk_free b); rewrite land_not_ones by (zdm || lia);
    change (2 ^ 4) with 16; zdm.
Qed.

Lemma header_free b : blk_ok b → tst (blk_header b) BLOCK_FREE = bk_free b.
Proof.
  intros [Hb Hm]. unfold BLOCK_FREE, blk_header. rewrite tst_odd.
  assert (Z.odd (bk_size b) = false) as Ho.
  { rewrite Zodd_mod. apply Z.eqb_neq. zdm. }
  rewrite Z.odd_add, Ho. by destruct (bk_free b).
Qed.

Lemma lor_free n : n mod 16 = 0 → Z.lor n BLOCK_FREE = n + 1.
Proof.
  intros Hn. symmetry. apply Z.add_nocarry_lor. apply Z.bits_inj'. intros i Hi.
  rewrite Z.land_spec, Z.bits_0. change BLOCK_FREE with (2 ^ 0). rewrite Z.pow2_bits_eqb by lia.
  destruct (Z.eqb_spec 0 i) as [<-|]; [|apply andb_false_r].
  rewrite Z.bit0_odd, Zodd_mod. by replace (n mod 2) with 0 by zdm.
Qed.

Lemma land_not_free n (f : bool) :
  0 ≤ n < 2 ^ 64 - 1 → n mod 16 = 0 → Z.land (n + (if f then 1 else 0)) (~64 BLOCK_FREE) = n.
Proof.
  intros Hr Hn. change BLOCK_FREE with (Z.ones 1).
  rewrite land_not_ones by (destruct f; lia). change (2 ^ 1) with 2. destruct f; zdm.
Qed.

Lemma align_up_spec x : 0 ≤ x < 2 ^ 64 - 16 → align_up x = (x + 15) / 16 * 16.
Proof.
  intros Hx. unfold align_up, HEAP_ALIGNMENT. rewrite (u64_small (x + 16 - 1)) by lia.
  change (16 - 1) with (Z.ones 4). rewrite land_not_ones by lia.
  change (2 ^ 4) with 16. f_equal. f_equal. lia.
Qed.

(** ** Consequences of the invariant *)

Section inv.
Context (h : heap) (bs : list blk) (l : list Z) (Hinv : heap_core h bs l).

Lemma inv_ok : Forall blk_ok bs.
Proof. exact (tiles_ok _ _ _ _ (hi_tiles _ _ _ Hinv)). Qed.

Lemma inv_placed x b :
  (x, b) ∈ placed (heap_start h) bs →
  heap_start h ≤ x ∧ x + bk_size b ≤ heap_end h ∧ blk_ok b ∧ x mod 16 = 0 ∧
  size_and_flags h x = blk_header b ∧ block_size h x = bk_size b ∧
  block_is_free h x = bk_free b.
Proof.
  intros Hin. pose proof inv_ok as Hok. destruct (hi_start _ _ _ Hinv) as [Hs Hsa].
  pose proof (tiles_end _ _ _ _ (hi_tiles _ _ _ Hinv)) as He.
  destruct (placed_range _ _ _ _ Hok Hin) as (H1 & H2 & H3 & H4).
  pose proof (placed_header _ _ _ _ _ _ (hi_tiles _ _ _ Hinv) Hin) as Hh.
  assert (blk_ok b) as Hb.
  { destruct (placed_split _ _ _ _ Hin) as (bs1 & bs2 & E & _). rewrite E in Hok.
    apply Forall_app in Hok as [_ Hok]. by inversion Hok. }
  pose proof (hi_end _ _ _ Hinv).
  unfold block_size, block_is_free, size_and_flags, get64. rewrite Hh.
  rewrite header_size, header_free by (done || lia). split_and!; auto; lia.
Qed.

Lemma inv_free_placed x : x ∈ l ↔ ∃ b, (x, b) ∈ placed (heap_start h) bs ∧ bk_free b = true.
Proof.
  rewrite (hi_perm _ _ _ Hinv). unfold free_addrs. rewrite list_elem_of_fmap. split.
  - intros ([y b] & -> & [Hf Hin]%list_elem_of_filter). by exists b.
  - intros (b & Hin & Hf). exists (x, b). split; [done|]. by apply list_elem_of_filter.
Qed.

Lemma inv_sep : sep l.
Proof.
  pose proof inv_ok as Hok. split_and!.
  - rewrite (hi_perm _ _ _ Hinv). apply free_addrs_nodup, Hok.
  - intros x y (b & Hx & _)%inv_free_placed (c & Hy & _)%inv_free_placed.
    destruct (placed_range _ _ _ _ Hok Hx) as (_ & _ & ? & _).
    destruct (placed_range _ _ _ _ Hok Hy) as (_ & _ & ? & _).
    destruct (placed_apart _ _ _ _ _ _ Hok Hx Hy) as [[-> _]|?]; [by left|lia].
  - intros x (b & Hx & _)%inv_free_placed. destruct (inv_placed x b Hx) as (? & ? & [? _] & _).
    destruct (hi_start _ _ _ Hinv). pose proof (hi_end _ _ _ Hinv). lia.
Qed.

(** Links of free blocks are interior. *)
Lemma inv_links z x : x ∈ l → x + 8 ≤ z < x + 24 → free_interior (heap_start h) bs z.
Proof.
  intros (b & Hin & Hf)%inv_free_placed Hz. exists x, b. split_and!; [done|done|lia|].
  destruct (inv_placed x b Hin) as (_ & _ & [? _] & _). lia.
Qed.

Lemma inv_length : Z.of_nat (length l) ≤ (heap_end h - heap_start h) / 16.
Proof.
  rewrite (hi_perm _ _ _ Hinv). unfold free_addrs. rewrite length_fmap.
  pose proof (length_filter (λ x : Z * blk, bk_free x.2 = true) (placed (heap_start h) bs)) as Hle.
  rewrite length_placed in Hle.
  destruct (bytes_of_nonneg bs inv_ok) as [Hb _].
  rewrite (tiles_end _ _ _ _ (hi_tiles _ _ _ Hinv)).
  etrans; [|apply (Z.div_le_mono (16 * Z.of_nat (length bs))); lia].
  rewrite Z.mul_comm, Z.div_mul by lia. lia.
Qed.

End inv.

(** ** Taking a block *)

(** Bytes outside the block at [x] that are not interior to a free block are
    the same. *)
Definition outside_same (h h' : heap) (bs : list blk) (x n : Z) : Prop :=
  ∀ z, z < x ∨ x + n ≤ z → ¬ free_interior (heap_start h) bs z → rd (h_mem h') z = rd (h_mem h) z.

Section carve.
Context (h : heap) (bs1 bs2 : list blk) (S T x : Z) (l : list Z).
Let bs := bs1 ++ [Blk S true] ++ bs2.
Context (Hcore : heap_core h bs (x :: l)) (Hl : flist h l).
Context (Hx : x = heap_start h + bytes_of bs1).
Context (HT : 32 ≤ T ≤ S) (HTm : T mod 16 = 0).

Lemma carve_placed : (x, Blk S true) ∈ placed (heap_start h) bs.
Proof. unfold bs. rewrite Hx, !placed_app. rewrite !elem_of_app. right. left. by left. Qed.

Lemma carve_facts :
  x mod 16 = 0 ∧ S mod 16 = 0 ∧ 0 < x ∧ x + S < 2 ^ 64 ∧ size_and_flags h x = S + 1.
Proof.
  destruct (inv_placed h bs _ Hcore x _ carve_placed) as (H1 & H2 & [_ H3] & H4 & H5 & _).
  pose proof (hi_end _ _ _ Hcore). destruct (hi_start _ _ _ Hcore). simpl in *. split_and!; try done; lia.
Qed.

(** The list without [x] also fits next to any block inside [x]. *)
Lemma carve_apart y z : y ∈ l → x ≤ z → z + 24 ≤ x + S → z + 24 ≤ y ∨ y + 24 ≤ z.
Proof.
  intros Hy Hz1 Hz2. destruct (inv_sep h bs _ Hcore) as (Hnd & _ & _).
  inversion_clear Hnd as [|? ? Hnx _].
  assert (y ∈ x :: l) as Hy' by (by right).
  apply (inv_free_placed h bs _ Hcore) in Hy' as (c & Hc & _).
  destruct (inv_placed h bs _ Hcore y c Hc) as (_ & _ & [? _] & _).
  destruct (placed_apart _ _ _ _ _ _ (inv_ok _ _ _ Hcore) carve_placed Hc) as [[<- _]|[?|?]];
    [done|simpl in *; lia|lia].
Qed.

Lemma carve_sep_tail : T + 24 ≤ S → sep ((x + T) :: l).
Proof.
  intros Hfit. destruct carve_facts as (Hxm & HSm & Hx0 & Hxs & _).
  destruct (inv_sep h bs _ Hcore) as (Hnd & Hap & Hr). inversion_clear Hnd as [|? ? Hnx Hnd'].
  assert (∀ y, y ∈ l → x + T + 24 ≤ y ∨ y + 24 ≤ x + T) as Hy.
  { intros y Hin. apply (carve_apart y (x + T) Hin); lia. }
  split_and!.
  - constructor; [|done]. intros Hin. destruct (Hy _ Hin); lia.
  - intros a b [->|Ha]%elem_of_cons [->|Hb]%elem_of_cons; [by left|right; auto| |].
    + right. destruct (Hy a Ha); lia.
    + apply Hap; by right.
  - intros a [->|Ha]%elem_of_cons; [lia|]. apply Hr. by right.
Qed.

Lemma flist_store a v :
  (∀ y, y ∈ l → a + 8 ≤ y + 8 ∨ y + 24 ≤ a) → flist (set_size_and_flags a v h) l.
Proof.
  intros Ha. destruct Hl as [Hhd Hd]. split; [exact Hhd|].
  apply (dll_ext (h_mem h)); [|exact Hd]. intros y Hy. specialize (Ha y Hy).
  unfold set_size_and_flags, put64. cbn [h_mem set_h_mem]. by rewrite !load_store_ne by lia.
Qed.

(** The state after the tail has been made a free block. *)
Let tail : heap := free_list_insert (x + T) (set_size_and_flags (x + T) (S - T + 1) h).

Lemma tail_facts :
  T + 24 ≤ S →
  flist tail ((x + T) :: l) ∧ load 8 (h_mem tail) (x + T) = S - T + 1 ∧
  (∀ z, z < x + T ∨ x + S ≤ z → ¬ free_interior (heap_start h) bs z →
     rd (h_mem tail) z = rd (h_mem h) z).
Proof.
  intros Hfit. destruct carve_facts as (Hxm & HSm & Hx0 & Hxs & _).
  pose proof (carve_sep_tail Hfit) as Hsep.
  assert (flist (set_size_and_flags (x + T) (S - T + 1) h) l) as Hl1.
  { apply flist_store. intros y Hy. destruct (carve_apart y (x + T) Hy); lia. }
  pose proof (free_list_insert_frame _ _ (x + T) Hl1 Hsep) as Hfr. fold tail in Hfr.
  split_and!.
  - by apply free_list_insert_flist.
  - rewrite (load_ext 8 (h_mem (set_size_and_flags (x + T) (S - T + 1) h))).
    + unfold set_size_and_flags, put64. cbn [h_mem set_h_mem]. apply load_store_eq. lia.
    + intros z Hz. apply (Hfr z). intros y [->|Hy]%elem_of_cons; [lia|].
      destruct (carve_apart y (x + T) Hy); lia.
  - intros z Hz Hni. rewrite Hfr.
    + unfold set_size_and_flags, put64. cbn [h_mem set_h_mem]. apply store_frame. lia.
    + intros y [->|Hy]%elem_of_cons; [lia|]. intros Hzy. apply Hni.
      apply (inv_links h bs _ Hcore z y); [by right|done].
Qed.

(** What a successful allocation in a heap with tiling [bs] leaves behind. *)
Definition carved (res : Z * heap) : Prop :=
  ∃ cs l' n, T ≤ n ∧ bytes_of cs = S ∧
    res.1 = x + 8 ∧ heap_inv res.2 (bs1 ++ cs ++ bs2) l' ∧
    heap_start res.2 = heap_start h ∧ heap_end res.2 = heap_end h ∧
    used_payloads x cs = [(x + 8, n - 8)] ∧ outside_same h res.2 bs x S.

Lemma carve_perm cs :
  free_addrs x cs = [] ∨ (T + 24 ≤ S ∧ free_addrs x cs = [x + T]) → bytes_of cs = S →
  (if decide (free_addrs x cs = []) then l else (x + T) :: l) ≡ₚ
  free_addrs (heap_start h) (bs1 ++ cs ++ bs2).
Proof.
  intros Hcs Hlen. pose proof (hi_perm _ _ _ Hcore) as Hp.
  assert (l ≡ₚ free_addrs (heap_start h) bs1 ++ free_addrs (x + S) bs2) as HP.
  { apply (Permutation.Permutation_cons_inv (a := x)). rewrite Hp. unfold bs.
    rewrite !free_addrs_app, <- Hx. cbn. rewrite Z.add_0_r. by rewrite Permutation_middle. }
  rewrite !free_addrs_app, <- Hx, Hlen.
  destruct Hcs as [->|[_ ->]]; case_decide; try done.
  rewrite HP. cbn. by rewrite Permutation_middle.
Qed.

Lemma carve_totals cs n :
  used_bytes cs = n - 8 → free_bytes cs = S - n + 8 → bytes_of cs = S →
  Forall blk_ok (bs1 ++ cs ++ bs2) →
  u64 (total_allocated h + (n - 8)) = used_bytes (bs1 ++ cs ++ bs2) ∧
  ∃ r, u64 (total_free h - (n - 8)) = u64 (free_bytes (bs1 ++ cs ++ bs2) - 8 * r).
Proof.
  intros Hu Hf Hlen Hok. destruct carve_facts as (_ & _ & Hx0 & _ & _).
  pose proof (tiles_end _ _ _ _ (hi_tiles _ _ _ Hcore)) as He.
  pose proof (hi_end _ _ _ Hcore). destruct (hi_start _ _ _ Hcore) as [Hs0 _].
  pose proof (used_bytes_bound _ Hok) as Hb.
  rewrite (hi_used _ _ _ Hcore). unfold bs in *.
  rewrite !used_bytes_app, !free_bytes_app, !bytes_of_app in *. rewrite Hu, Hf, Hlen in *.
  cbn [used_bytes bytes_of free_bytes foldr bk_free bk_size] in *. split.
  - rewrite u64_small by lia. lia.
  - destruct (hi_free _ _ _ Hcore) as [r ->]. exists r. rewrite u64_idemp_sub. f_equal.
    rewrite !free_bytes_app. cbn [free_bytes foldr bk_free bk_size]. lia.
Qed.

(** The whole block is handed out. *)
Lemma carve_whole : S - T < 40 → carved (carve x S T h).
Proof.
  intros Hr. destruct carve_facts as (Hxm & HSm & Hx0 & Hxs & Hh).
  unfold carve. rewrite u64_small by lia. unfold sizeof_free_block, MIN_ALLOC_SIZE, sizeof_header.
  destruct (Z.leb_spec (24 + 16) (S - T)); [lia|].
  assert (Forall blk_ok (bs1 ++ [Blk S false] ++ bs2)) as Hok.
  { pose proof (inv_ok _ _ _ Hcore) as H1. unfold bs in H1.
    rewrite !Forall_app in *. destruct H1 as (? & H1 & ?). split_and!; try done.
    inversion_clear H1. by constructor. }
  destruct (carve_totals [Blk S false] S) as [Ea Ef]; [cbn; lia|cbn; lia|cbn; lia|done|].
  set (h' := set_total_allocated _ _).
  exists [Blk S false], l, S. cbn [fst snd].
  assert (h_mem h' = store 8 (h_mem h) x S) as Em.
  { unfold h', block_set_used, set_size_and_flags, put64. cbn [h_mem set_total_allocated set_h_mem set_total_free].
    f_equal. unfold size_and_flags, get64 in Hh |- *. cbn [h_mem set_total_free]. rewrite Hh.
    apply (land_not_free S true); lia. }
  assert (outside_same h h' bs x S) as Hout.
  { intros z Hz _. rewrite Em. apply store_frame. lia. }
  split_and!; [lia|cbn; lia|unfold block_data; apply u64_small; unfold sizeof_header; lia| |done|done|done|exact Hout].
  split.
  - split; change (heap_start h') with (heap_start h); change (heap_end h') with (heap_end h);
      [|apply Hcore|apply Hcore| |exact Ea|exact Ef].
    + apply (tiles_splice (h_mem h) _ _ _ [Blk S true]); [apply Hcore|done| |].
      * rewrite <- Hx. cbn [tiles bytes_of foldr bk_size]. rewrite Em, load_store_eq by lia.
        rewrite !Forall_app in Hok. destruct Hok as (_ & Hok & _). inversion_clear Hok.
        split; [done|split; [unfold blk_header; cbn; lia|lia]].
      * intros z Hz Hni. apply Hout; [|exact Hni]. rewrite <- Hx in Hz. cbn in Hz. lia.
    + pose proof (carve_perm [Blk S false]) as Hp. cbn in Hp. rewrite Z.add_0_r in Hp.
      apply Hp; [by left|done].
  - destruct Hl as [Hhd Hd]. split; [exact Hhd|]. rewrite Em. apply (dll_ext (h_mem h)); [|exact Hd].
    intros y Hy. destruct (carve_apart y x Hy); [lia|lia| |]; by rewrite !load_store_ne by lia.
Qed.

(** The tail goes back to the free list. *)
Lemma carve_split : 40 ≤ S - T → carved (carve x S T h).
Proof.
  intros Hr. destruct carve_facts as (Hxm & HSm & Hx0 & Hxs & Hh).
  unfold carve. rewrite !(u64_small (S - T)) by lia. unfold sizeof_free_block, MIN_ALLOC_SIZE, sizeof_header.
  destruct (Z.leb_spec (24 + 16) (S - T)); [|lia].
  rewrite (u64_small (x + T)), lor_free by (zdm || lia). fold tail.
  destruct tail_facts as (Htl & Hth & Hto); [lia|].
  destruct (free_list_insert_rest (x + T) (set_size_and_flags (x + T) (S - T + 1) h)) as (Es & Ee & Ea0 & Ef0).
  fold tail in Es, Ee, Ea0, Ef0. change (heap_start (set_size_and_flags _ _ h)) with (heap_start h) in Es.
  change (heap_end (set_size_and_flags _ _ h)) with (heap_end h) in Ee.
  assert (Forall blk_ok (bs1 ++ [Blk T false; Blk (S - T) true] ++ bs2)) as Hok.
  { pose proof (inv_ok _ _ _ Hcore) as H1. unfold bs in H1.
    rewrite !Forall_app in *. destruct H1 as (? & _ & ?). split_and!; try done.
    repeat constructor; cbn; try lia. zdm. }
  destruct (carve_totals [Blk T false; Blk (S - T) true] T) as [Ea Ef]; [cbn; lia|cbn; lia|cbn; lia|done|].
  set (h' := set_total_allocated _ _).
  exists [Blk T false; Blk (S - T) true], ((x + T) :: l), T. cbn [fst snd].
  assert (h_mem h' = store 8 (store 8 (h_mem tail) x T) x T) as Em.
  { unfold h', block_set_used, set_size_and_flags, put64. cbn [h_mem set_total_allocated set_h_mem set_total_free].
    f_equal. unfold size_and_flags, get64. cbn [h_mem set_total_free set_h_mem]. rewrite load_store_eq by lia.
    rewrite <- (Z.add_0_r T) at 1. apply (land_not_free T false); lia. }
  assert (outside_same h h' bs x S) as Hout.
  { intros z Hz Hni. rewrite Em, !store_frame by lia. apply Hto; [lia|done]. }
  split_and!; [lia|cbn; lia|unfold block_data; apply u64_small; unfold sizeof_header; lia| |exact Es|exact Ee|done|exact Hout].
  assert (heap_core h' (bs1 ++ [Blk T false; Blk (S - T) true] ++ bs2) ((x + T) :: l)) as Hc'.
  { split; change (heap_start h') with (heap_start tail); change (heap_end h') with (heap_end tail);
      rewrite ?Es, ?Ee; [|apply Hcore|apply Hcore| | |].
    - apply (tiles_splice (h_mem h) _ _ _ [Blk S true]); [apply Hcore|cbn; lia| |].
      + rewrite <- Hx. cbn [tiles bytes_of foldr bk_size]. rewrite Em, load_store_eq by lia.
        rewrite !load_store_ne by lia. rewrite Hth.
        rewrite !Forall_app in Hok. destruct Hok as (_ & Hok & _).
        inversion_clear Hok as [|? ? H1 H2]. inversion_clear H2.
        split; [done|split; [unfold blk_header; cbn; lia|split; [done|split; [unfold blk_header; cbn; lia|lia]]]].
      + intros z Hz Hni. apply Hout; [|exact Hni]. rewrite <- Hx in Hz. cbn in Hz. lia.
    - pose proof (carve_perm [Blk T false; Blk (S - T) true]) as Hp. cbn in Hp.
      apply Hp; [right; split; [lia|done]|lia].
    - rewrite <- Ea. change (total_allocated h') with (u64 (total_allocated tail + (T - 8))).
      by rewrite Ea0.
    - destruct Ef as [r Ef]. exists r. rewrite <- Ef.
      change (total_free h') with (u64 (total_free tail - (T - 8))). by rewrite Ef0. }
  split; [exact Hc'|]. destruct Htl as [Hhd Hd]. split; [exact Hhd|]. rewrite Em.
  apply (dll_ext (h_mem tail)); [|exact Hd]. intros y Hy.
  assert (x + 8 ≤ y + 8 ∨ y + 24 ≤ x) as Hyx.
  { apply elem_of_cons in Hy as [->|Hy]; [lia|]. destruct (carve_apart y x Hy); lia. }
  by rewrite !load_store_ne by lia.
Qed.

Lemma carve_ok : carved (carve x S T h).
Proof. destruct (decide (40 ≤ S - T)); [by apply carve_split|apply carve_whole; lia]. Qed.

End carve.

(** ** Updates inside free blocks *)

Definition interior_only (h h' : heap) (bs : list blk) : Prop :=
  ∀ z, ¬ free_interior (heap_start h) bs z → rd (h_mem h') z = rd (h_mem h) z.

Lemma core_frame h h' bs l l' :
  heap_core h bs l → l' ≡ₚ l → interior_only h h' bs →
  heap_start h' = heap_start h → heap_end h' = heap_end h →
  total_allocated h' = total_allocated h → total_free h' = total_free h →
  heap_core h' bs l'.
Proof.
  intros Hc Hp Hi Es Ee Ea Ef. split; rewrite ?Es, ?Ee, ?Ea, ?Ef; try apply Hc.
  - apply (tiles_frame (h_mem h)); [apply Hc|]. intros x b Hin. apply load_ext. intros z Hz.
    apply Hi. eapply header_not_interior; [apply (inv_ok _ _ _ Hc)|exact Hin|lia].
  - rewrite Hp. apply Hc.
Qed.

Lemma remove_core h bs l1 x l2 :
  heap_inv h bs (l1 ++ x :: l2) →
  let h' := free_list_remove x h in
  heap_core h' bs (x :: l1 ++ l2) ∧ flist h' (l1 ++ l2) ∧ interior_only h h' bs.
Proof.
  intros [Hc Hl]. pose proof (inv_sep _ _ _ Hc) as Hsep. cbn zeta.
  assert (interior_only h (free_list_remove x h) bs) as Hi.
  { intros z Hz. apply (free_list_remove_frame h l1 l2 x Hl Hsep z). intros y Hy Hzy. apply Hz.
    apply (inv_links _ _ _ Hc z y); [|done].
    rewrite elem_of_app, elem_of_cons. apply elem_of_app in Hy. tauto. }
  destruct (free_list_remove_rest x h) as (Es & Ee & Ea & Ef). split_and!; [|by apply free_list_remove_flist|done].
  apply (core_frame h _ bs (l1 ++ x :: l2)); try done. by rewrite Permutation_middle.
Qed.

(** ** The search *)

Lemma first_fit_spec fuel h T p l :
  dll (h_mem h) p l 0 → (length l < fuel)%nat → (∀ x, x ∈ l → x ≠ 0) →
  (first_fit fuel h T (hd 0 l) = Some 0 ∧ ∀ x, x ∈ l → block_size h x < T) ∨
  (∃ l1 x l2, l = l1 ++ x :: l2 ∧ first_fit fuel h T (hd 0 l) = Some x ∧ T ≤ block_size h x ∧
     ∀ y, y ∈ l1 → block_size h y < T).
Proof.
  revert fuel p. induction l as [|b l IH]; intros fuel p Hd Hf Hnz; (destruct fuel as [|fuel]; [simpl in Hf; lia|]).
  - left. split; [done|]. by intros x ?%not_elem_of_nil.
  - destruct Hd as (Hn & _ & Hd). cbn [hd first_fit].
    assert (b ≠ 0) as Hb0 by (apply Hnz; by left).
    destruct (Z.eqb_spec b 0); [done|].
    destruct (Z.leb_spec T (block_size h b)).
    + right. exists [], b, l. split_and!; [done|done|done|]. by intros y ?%not_elem_of_nil.
    + change (b_next h b) with (load 8 (h_mem h) (b + 8)). rewrite Hn.
      destruct (IH fuel b Hd) as [[-> Hall]|(l1 & x & l2 & -> & -> & Hle & Hall)].
      * simpl in Hf. lia.
      * intros x Hx. apply Hnz. by right.
      * left. split; [done|]. intros x [->|Hx]%elem_of_cons; auto.
      * right. exists (b :: l1), x, l2. split_and!; [done|done|done|].
        intros y [->|Hy]%elem_of_cons; auto.
Qed.

Lemma kmalloc_search h bs l T :
  heap_inv h bs l →
  (first_fit (list_fuel h) h T (free_list h) = Some 0 ∧ ∀ x, x ∈ l → block_size h x < T) ∨
  (∃ l1 x l2, l = l1 ++ x :: l2 ∧ x ≠ 0 ∧
     first_fit (list_fuel h) h T (free_list h) = Some x ∧ T ≤ block_size h x).
Proof.
  intros [Hc [Hhd Hd]]. destruct (inv_sep _ _ _ Hc) as (_ & _ & Hr).
  assert (∀ x, x ∈ l → x ≠ 0) as Hnz by (intros x Hx; specialize (Hr x Hx); lia).
  rewrite Hhd. destruct (first_fit_spec (list_fuel h) h T 0 l Hd) as [H|(l1 & x & l2 & -> & H1 & H2 & _)].
  - unfold list_fuel. pose proof (inv_length _ _ _ Hc). lia.
  - exact Hnz.
  - by left.
  - right. exists l1, x, l2. split_and!; [done| |done|done]. apply Hnz, elem_of_app. right. by left.
Qed.

(** ** Allocation from a free block *)

(** The bytes of every live allocation are kept. *)
Definition live_same (h h' : heap) (bs : list blk) : Prop :=
  ∀ q n z, (q, n) ∈ used_payloads (heap_start h) bs → q ≤ z < q + n →
    rd (h_mem h') z = rd (h_mem h) z.

Definition allocated (size : Z) (h : heap) (bs : list blk) (ptr : Z) (h' : heap) : Prop :=
  ∃ bs' l' n, heap_inv h' bs' l' ∧ size ≤ n ∧
    used_payloads (heap_start h') bs' ≡ₚ (ptr, n) :: used_payloads (heap_start h) bs ∧
    heap_start h' = heap_start h ∧ heap_end h ≤ heap_end h' ∧ live_same h h' bs ∧
    ptr mod 16 = 8 ∧ 0 < ptr.

Lemma used_payload_placed a bs q n :
  (q, n) ∈ used_payloads a bs ↔
  ∃ b, (q - 8, b) ∈ placed a bs ∧ bk_free b = false ∧ n = bk_size b - 8.
Proof.
  unfold used_payloads. rewrite list_elem_of_fmap. split.
  - intros ([x b] & [= -> ->] & [Hf Hin]%list_elem_of_filter). exists b. cbn in *.
    replace (x + 8 - 8) with x by lia. done.
  - intros (b & Hin & Hf & ->). exists (q - 8, b). cbn. split; [f_equal; lia|].
    by apply list_elem_of_filter.
Qed.

(** Live bytes are outside any free block. *)
Lemma live_outside h bs l q n z x b :
  heap_core h bs l → (q, n) ∈ used_payloads (heap_start h) bs → q ≤ z < q + n →
  ¬ free_interior (heap_start h) bs z ∧
  ((x, b) ∈ placed (heap_start h) bs → bk_free b = true → z < x ∨ x + bk_size b ≤ z).
Proof.
  intros Hc (c & Hin & Hf & ->)%used_payload_placed Hz. pose proof (inv_ok _ _ _ Hc) as Hok. split.
  - eapply used_not_interior; [done|exact Hin|done|lia].
  - intros Hx Hfx. destruct (placed_apart _ _ _ _ _ _ Hok Hin Hx) as [[_ ->]|[?|?]]; [congruence|lia|lia].
Qed.

Lemma take_block h bs l1 x l2 T :
  heap_inv h bs (l1 ++ x :: l2) → T ≤ block_size h x → 32 ≤ T → T mod 16 = 0 →
  let res := carve x (block_size h x) T (free_list_remove x h) in
  allocated (T - 8) h bs res.1 res.2 ∧ heap_end res.2 = heap_end h.
Proof.
  intros Hinv HTS HT HTm. pose proof Hinv as [Hc _].
  destruct (remove_core h bs l1 x l2 Hinv) as (Hc' & Hl' & Hi).
  destruct (free_list_remove_rest x h) as (Es & Ee & _).
  assert (x ∈ l1 ++ x :: l2) as Hx by (apply elem_of_app; right; by left).
  apply (inv_free_placed _ _ _ Hc) in Hx as ([S f] & Hpl & Hf). cbn in Hf. subst f.
  destruct (inv_placed _ _ _ Hc x _ Hpl) as (_ & _ & _ & Hxm & _ & HS & _). cbn in HS. rewrite HS in *.
  destruct (placed_split _ _ _ _ Hpl) as (bs1 & bs2 & Ebs & Exx).
  set (h1 := free_list_remove x h) in *. cbn zeta.
  assert (bs = bs1 ++ [Blk S true] ++ bs2) as -> by exact Ebs. clear Ebs.
  destruct (carve_ok h1 bs1 bs2 S T x (l1 ++ l2) Hc' Hl' ltac:(by rewrite Es) ltac:(lia) HTm)
    as (cs & l' & n & Hn & Hlen & Hptr & Hinv' & Es' & Ee' & Hup & Hout).
  destruct (carve x S T h1) as [ptr h2]. cbn [fst snd] in *. split; [|congruence].
  exists (bs1 ++ cs ++ bs2), l', (n - 8). split_and!; [done|lia| |congruence|rewrite Ee', Ee; lia| | |].
  - rewrite Es', Es, !used_payloads_app, <- Exx, Hup, Hlen, Hptr.
    cbn [used_payloads placed bytes_of foldr bk_size]. rewrite Z.add_0_r.
    change (used_payloads x [Blk S true]) with (@nil (Z * Z)). cbn [app]. by rewrite Permutation_middle.
  - intros q k z Hq Hz. destruct (live_outside h _ _ q k z x (Blk S true) Hc Hq Hz) as [H1 H2].
    rewrite (Hout z); [by apply Hi|by apply H2|by rewrite Es].
  - rewrite Hptr. zdm.
  - destruct (hi_start _ _ _ Hc). destruct (inv_placed _ _ _ Hc x _ Hpl) as (? & _). lia.
Qed.

(** ** Growing *)

Lemma expand_pages {P} `{!PageSource P} (n : nat) (h : heap) (p : P) :
  0 ≤ heap_end h → heap_end h + Z.of_nat n * 4096 < 2 ^ 64 →
  match for_until n 0 expand_page ([], h, p) with
  | inl (_, h', _) => h' = set_heap_end (heap_end h + Z.of_nat n * 4096) h
  | inr (_, h', _) => set_heap_end (heap_end h) h' = h
  end.
Proof.
  intros H0 Hn.
  pose proof (for_until_ind
    (λ i (s : list Z * heap * P), 0 ≤ i ∧ s.1.2 = set_heap_end (heap_end h + i * 4096) h)
    (λ s : list Z * heap * P, set_heap_end (heap_end h) s.1.2 = h)
    n 0 expand_page ([], h, p)) as H.
  destruct (for_until n 0 expand_page ([], h, p)) as [[[pl h'] p']|[[pl h'] p']];
    [destruct H as [_ H]; [| |rewrite Z.add_0_l in H; exact H]|apply H].
  1,3: split; [done|]; cbn; rewrite Z.add_0_r; by destruct h.
  all: intros i [[pl0 h0] p0] Hi [_ E]; cbn in E; subst h0; unfold expand_page.
  all: destruct (ps_alloc p0) as [phys p1]; case_if; [cbn; by destruct h|].
  all: destruct (ps_map _ phys p1) as [r p2]; case_if; [cbn; by destruct h|].
  all: split; [lia|]; cbn; unfold PAGE_SIZE; rewrite u64_small by lia.
  all: unfold set_heap_end; cbn; f_equal; lia.
Qed.

(** A new region of [n] bytes at the end of the heap. *)
Definition grown (n : Z) (h : heap) : heap :=
  let h := set_heap_end (heap_end h + n) h in
  let h := set_size_and_flags (heap_end h - n) (n + 1) h in
  let h := set_total_free (u64 (total_free h + (n - 8))) h in
  free_list_insert (heap_end h - n) h.

Lemma grown_ok n h bs l :
  heap_inv h bs l → 32 ≤ n → n mod 16 = 0 → heap_end h + n < 2 ^ 64 →
  heap_inv (grown n h) (bs ++ [Blk n true]) (heap_end h :: l) ∧
  heap_start (grown n h) = heap_start h ∧ heap_end (grown n h) = heap_end h + n ∧
  live_same h (grown n h) bs.
Proof.
  intros [Hc Hl] Hn Hnm Hfit. pose proof (tiles_end _ _ _ _ (hi_tiles _ _ _ Hc)) as He.
  destruct (bytes_of_nonneg bs (inv_ok _ _ _ Hc)) as [Hb0 Hbm].
  destruct (hi_start _ _ _ Hc) as [Hs0 Hsm]. pose proof (inv_sep _ _ _ Hc) as (Hnd & Hap & Hr).
  assert (∀ y, y ∈ l → y + 24 ≤ heap_end h) as Hle.
  { intros y (b & Hin & _)%(inv_free_placed _ _ _ Hc).
    destruct (inv_placed _ _ _ Hc y b Hin) as (_ & ? & [? _] & _). lia. }
  set (e := heap_end h) in *.
  set (h3 := set_total_free (u64 (total_free h + (n - 8)))
               (set_size_and_flags e (n + 1) (set_heap_end (e + n) h))).
  assert (grown n h = free_list_insert e h3) as Eg.
  { unfold grown. cbn [heap_end set_heap_end set_size_and_flags put64 set_h_mem set_total_free total_free].
    fold e. by replace (e + n - n) with e by lia. }
  assert (flist h3 l) as Hl3.
  { destruct Hl as [Hhd Hd]. split; [exact Hhd|]. apply (dll_ext (h_mem h)); [|exact Hd].
    intros y Hy. specialize (Hle y Hy). cbn [h_mem h3 set_total_free set_size_and_flags put64 set_h_mem].
    by rewrite !load_store_ne by lia. }
  assert (sep (e :: l)) as Hsep.
  { split_and!.
    - constructor; [|done]. intros Hin. specialize (Hle _ Hin). lia.
    - intros a b [->|Ha]%elem_of_cons [->|Hb]%elem_of_cons; [by left| | |by apply Hap].
      + specialize (Hle b Hb). lia.
      + specialize (Hle a Ha). lia.
    - intros a [->|Ha]%elem_of_cons; [lia|by apply Hr]. }
  pose proof (free_list_insert_frame h3 l e Hl3 Hsep) as Hfr.
  destruct (free_list_insert_rest e h3) as (Es & Ee & Ea & Ef). rewrite <- Eg in *.
  assert (∀ z, z < e → ¬ free_interior (heap_start h) bs z → rd (h_mem (grown n h)) z = rd (h_mem h) z) as Hsame.
  { intros z Hz Hni. rewrite Hfr.
    - cbn [h_mem h3 set_total_free set_size_and_flags put64 set_h_mem]. apply store_frame. lia.
    - intros y [->|Hy]%elem_of_cons; [lia|]. intros Hzy. apply Hni. by apply (inv_links _ _ _ Hc z y). }
  split; [|split; [exact Es|split; [exact Ee|]]].
  - split; [|rewrite Eg; by apply free_list_insert_flist].
    split; change (heap_start h3) with (heap_start h) in Es; change (heap_end h3) with (e + n) in Ee;
      rewrite ?Es, ?Ee; [|done|done| | |].
    + rewrite tiles_app, <- He. fold e. split.
      * apply (tiles_frame (h_mem h)); [exact (hi_tiles _ _ _ Hc)|]. intros x b Hin. apply load_ext. intros z Hz.
        destruct (inv_placed _ _ _ Hc x b Hin) as (_ & ? & [? _] & _).
        apply Hsame; [lia|]. eapply header_not_interior; [apply (inv_ok _ _ _ Hc)|exact Hin|lia].
      * cbn [tiles bk_size]. split; [split; [done|done]|split; [|done]].
        rewrite (load_ext 8 (h_mem h3)).
        -- cbn [h_mem h3 set_total_free set_size_and_flags put64 set_h_mem].
           rewrite load_store_eq by lia. done.
        -- intros z Hz. apply (Hfr z). intros y [->|Hy]%elem_of_cons; [lia|]. specialize (Hle y Hy). lia.
    + rewrite free_addrs_app, <- He. fold e. rewrite (hi_perm _ _ _ Hc).
      change (free_addrs e [Blk n true]) with [e]. by rewrite Permutation_cons_append.
    + rewrite Ea, used_bytes_app. cbn. rewrite Z.add_0_r. apply Hc.
    + destruct (hi_free _ _ _ Hc) as [r Hr0]. exists (r + 1). rewrite Ef, free_bytes_app.
      cbn [h3 total_free set_total_free free_bytes foldr bk_free bk_size]. rewrite Hr0, u64_idemp_add.
      f_equal. lia.
  - intros q k z Hq Hz. destruct (live_outside _ _ _ _ _ _ 0 (Blk 0 true) Hc Hq Hz) as [Hni _].
    apply Hsame; [|exact Hni]. apply used_payload_placed in Hq as (b & Hin & _ & ->).
    destruct (inv_placed _ _ _ Hc _ _ Hin) as (_ & ? & _). lia.
Qed.

Lemma heap_expand_ok {P} `{!PageSource P} T h bs l (p : P) :
  heap_inv h bs l → 0 < T < 2 ^ 63 → heap_end h + 64 * 4096 < 2 ^ 64 →
  ∃ p', heap_expand T h p = (0, h, p') ∨
        ∃ n, heap_expand T h p = (heap_end h, grown n h, p') ∧
             T ≤ n ≤ 64 * 4096 ∧ 32 ≤ n ∧ n mod 16 = 0.
Proof.
  intros [Hc Hl] HT Hfit. unfold heap_expand, PAGE_SIZE, HEAP_GROW_PAGES.
  destruct (hi_start _ _ _ Hc) as [Hs0 _].
  pose proof (tiles_end _ _ _ _ (hi_tiles _ _ _ Hc)) as He.
  destruct (bytes_of_nonneg bs (inv_ok _ _ _ Hc)) as [Hb0 _].
  rewrite (u64_small (T + 4096 - 1)) by lia.
  set (np := if (T + 4096 - 1) / 4096 <? 16 then 16 else (T + 4096 - 1) / 4096).
  assert (16 ≤ np ∧ T ≤ np * 4096) as [Hnp HTn] by (unfold np; case_if; zdm).
  destruct (Z.ltb_spec 64 np); [exists p; by left|].
  pose proof (expand_pages (Z.to_nat np) h p ltac:(lia) ltac:(lia)) as Hex.
  rewrite Z2Nat.id in Hex by lia.
  destruct (for_until (Z.to_nat np) 0 expand_page ([], h, p)) as [[[pl h'] p']|[[pl h'] p']].
  - exists p'. right. exists (np * 4096). subst h'. rewrite (u64_small (np * 4096)) by lia.
    rewrite lor_free by zdm. split_and!; [|lia|lia|lia|zdm].
    unfold grown, sizeof_header. cbn [heap_end set_heap_end set_size_and_flags put64 set_h_mem set_total_free].
    by replace (heap_end h + np * 4096 - np * 4096) with (heap_end h) by lia.
  - exists (expand_cleanup (heap_end h) pl p'). left. by rewrite Hex.
Qed.

(** ** [kmalloc] *)

Definition request_size (size : Z) : Z :=
  let t := align_up (u64 (sizeof_header + size)) in
  if t <? sizeof_free_block then sizeof_free_block else t.

Lemma request_size_ok size :
  8 < size < 2 ^ 62 →
  size ≤ request_size size - 8 ∧ 32 ≤ request_size size < 2 ^ 63 ∧ request_size size mod 16 = 0.
Proof.
  intros Hs. unfold request_size, sizeof_header, sizeof_free_block.
  rewrite (u64_small (8 + size)), align_up_spec by lia.
  destruct (Z.ltb_spec ((8 + size + 15) / 16 * 16) 24); [zdm|].
  split; [zdm|split; [zdm|apply Z.mod_mul; lia]].
Qed.

(** Allocation from a region that was just added. *)
Lemma take_new_region h bs l n T :
  heap_inv h bs l → T ≤ n → 32 ≤ T → T mod 16 = 0 → n mod 16 = 0 → heap_end h + n < 2 ^ 64 →
  let h1 := free_list_remove (heap_end h) (grown n h) in
  let res := carve (heap_end h) (block_size h1 (heap_end h)) T h1 in
  allocated (T - 8) h bs res.1 res.2 ∧ heap_end res.2 = heap_end h + n.
Proof.
  intros Hinv HTn HT HTm Hnm Hfit.
  destruct (grown_ok n h bs l Hinv ltac:(lia) Hnm Hfit) as (Hg & Es & Ee & Hlive).
  destruct Hinv as [Hc _]. pose proof (tiles_end _ _ _ _ (hi_tiles _ _ _ Hc)) as He.
  assert ((heap_end h, Blk n true) ∈ placed (heap_start (grown n h)) (bs ++ [Blk n true])) as Hpl.
  { rewrite Es, placed_app, <- He. apply elem_of_app. right. by left. }
  destruct (inv_placed _ _ _ (proj1 Hg) _ _ Hpl) as (_ & _ & _ & _ & _ & Hbs & _). cbn in Hbs.
  destruct (take_block _ _ [] (heap_end h) l T Hg ltac:(lia) ltac:(lia) HTm) as [Ha Hend].
  destruct (remove_core _ _ [] (heap_end h) l Hg) as (Hcr & _ & _).
  destruct (free_list_remove_rest (heap_end h) (grown n h)) as (Esr & _).
  rewrite <- Esr in Hpl. destruct (inv_placed _ _ _ Hcr _ _ Hpl) as (_ & _ & _ & _ & _ & Hbr & _). cbn in Hbr.
  cbn zeta. rewrite Hbr. rewrite Hbs in *. split; [|by rewrite Hend].
  destruct Ha as (bs' & l' & m & A1 & A2 & A3 & A4 & A5 & A6 & A7 & A8).
  exists bs', l', m. split_and!; [done|done| |congruence|lia| |done|done].
  - rewrite A3, Es, used_payloads_app. cbn. by rewrite app_nil_r.
  - intros q k z Hq Hz. rewrite (A6 q k z); [by apply (Hlive q k z)| |done].
    rewrite Es, used_payloads_app. apply elem_of_app. by left.
Qed.

Lemma kmalloc_ok {P} `{!PageSource P} size h bs l (p : P) :
  heap_inv h bs l → 8 < size < 2 ^ 62 → heap_end h + 64 * 4096 < 2 ^ 64 →
  ∃ ptr h' p', kmalloc size h p = Some (ptr, h', p') ∧
    heap_end h' ≤ heap_end h + 64 * 4096 ∧
    ((ptr = 0 ∧ h' = h ∧ ∀ x, x ∈ l → block_size h x < request_size size) ∨
     (ptr ≠ 0 ∧ allocated size h bs ptr h')).
Proof.
  intros Hinv Hsz Hfit. destruct (request_size_ok size Hsz) as (Hge & HT & HTm).
  unfold kmalloc. destruct (Z.eqb_spec size 0) as [|_]; [lia|].
  change (if align_up _ <? _ then _ else _) with (request_size size).
  set (T := request_size size) in *.
  assert (∀ h0 h1 bs1 ptr, allocated (T - 8) h0 bs1 ptr h1 → ptr ≠ 0 ∧ allocated size h0 bs1 ptr h1) as Hweak.
  { intros h0 h1 bs1 ptr (bs' & l' & n & H1 & H2 & H3 & H4 & H5 & H6 & H7 & H8). split; [lia|].
    exists bs', l', n. split_and!; try done. lia. }
  destruct (kmalloc_search h bs l T Hinv) as [[-> Hall]|(l1 & x & l2 & -> & Hx0 & -> & Hle)];
    cbn [mbind option_bind].
  - cbn [Z.eqb negb]. destruct (heap_expand_ok T h bs l p Hinv ltac:(lia) Hfit)
      as (p' & [->|(n & -> & Hn & Hn32 & Hnm)]).
    + exists 0, h, p'. split_and!; [done|lia|]. left. done.
    + destruct (take_new_region h bs l n T Hinv ltac:(lia) ltac:(lia) HTm Hnm ltac:(lia)) as [Ha Hend].
      destruct (carve _ _ T _) as [ptr h2]. cbn [fst snd] in *.
      pose proof Hinv as [Hc _]. destruct (hi_start _ _ _ Hc) as [Hs0 _].
      pose proof (tiles_end _ _ _ _ (hi_tiles _ _ _ Hc)) as He.
      destruct (bytes_of_nonneg bs (inv_ok _ _ _ Hc)) as [Hb0 _].
      destruct (Z.eqb_spec (heap_end h) 0); [lia|].
      exists ptr, h2, p'. split_and!; [done|lia|]. right. by apply Hweak.
  - destruct (Z.eqb_spec x 0); [done|]. cbn [negb].
    destruct (take_block h bs l1 x l2 T Hinv Hle ltac:(lia) HTm) as [Ha Hend].
    destruct (carve x _ T _) as [ptr h2]. cbn [fst snd] in *.
    exists ptr, h2, p. split_and!; [done|lia|]. right. by apply Hweak.
Qed.

(** ** Giving a block back *)

Section release.
Context (h : heap) (bs1 mid bs2 : list blk) (l lr : list Z) (S M x : Z) (h2 : heap).
Let bs := bs1 ++ mid ++ bs2.
Let bs' := bs1 ++ [Blk M true] ++ bs2.
Context (Hcore : heap_core h bs l) (Hx : x = heap_start h + bytes_of bs1).
Context (Hmid : bytes_of mid = M) (Hused : used_payloads x mid = [(x + 8, S - 8)]).
Context (HS : 32 ≤ S ≤ M) (Hfree : l ≡ₚ free_addrs x mid ++ lr).
Context (Hub : used_bytes mid = S - 8) (Hfb : free_bytes mid = M - S + 8).
Context (Hl2 : flist h2 lr) (Hh2 : load 8 (h_mem h2) x = M + 1).
Context (Es : heap_start h2 = heap_start h) (Ee : heap_end h2 = heap_end h).
Context (Ea : total_allocated h2 = u64 (total_allocated h - (S - 8))).
Context (Ef : total_free h2 = u64 (total_free h + (S - 8))).
Context (Hsame : ∀ z, z < x ∨ x + 8 ≤ z → ¬ free_interior (heap_start h) bs z →
  rd (h_mem h2) z = rd (h_mem h) z).

Lemma release_mid : Forall blk_ok bs ∧ M mod 16 = 0 ∧ x mod 16 = 0 ∧
  heap_start h ≤ x ∧ x + M + bytes_of bs2 = heap_end h ∧ 0 ≤ bytes_of bs2.
Proof.
  pose proof (inv_ok _ _ _ Hcore) as Hok. pose proof Hok as Hok'. unfold bs in Hok'.
  apply Forall_app in Hok' as [H1 [H2 H3]%Forall_app].
  pose proof (tiles_end _ _ _ _ (hi_tiles _ _ _ Hcore)) as He. unfold bs in He.
  rewrite !bytes_of_app in He. destruct (hi_start _ _ _ Hcore) as [_ Hsm].
  destruct (bytes_of_nonneg _ H1) as [? Hm1], (bytes_of_nonneg _ H2) as [_ Hm2], (bytes_of_nonneg _ H3).
  split_and!; [done|by rewrite <- Hmid| |lia|lia|lia]. rewrite Hx, Z.add_mod, Hsm, Hm1 by lia. done.
Qed.

Lemma release_placed_used : ∃ b, (x, b) ∈ placed (heap_start h) bs ∧ bk_free b = false.
Proof.
  assert ((x + 8, S - 8) ∈ used_payloads (heap_start h) bs) as (b & Hin & Hf & _)%used_payload_placed.
  { unfold bs. rewrite !used_payloads_app, <- Hx, Hused, !elem_of_app. right. left. by left. }
  exists b. replace (x + 8 - 8) with x in Hin by lia. done.
Qed.

Lemma release_apart y : y ∈ lr → x + 24 ≤ y ∨ y + 24 ≤ x.
Proof.
  intros Hy. destruct release_placed_used as (b & Hin & Hf).
  assert (y ∈ l) as (c & Hc & Hfc)%(inv_free_placed _ _ _ Hcore).
  { rewrite Hfree. apply elem_of_app. by right. }
  destruct (inv_placed _ _ _ Hcore _ _ Hc) as (_ & _ & [? _] & _).
  destruct (inv_placed _ _ _ Hcore _ _ Hin) as (_ & _ & [? _] & _).
  destruct (placed_apart _ _ _ _ _ _ (inv_ok _ _ _ Hcore) Hin Hc) as [[_ ->]|?]; [congruence|lia].
Qed.

Lemma release_sep : sep (x :: lr).
Proof.
  destruct release_mid as (_ & _ & _ & Hx1 & Hx2 & Hx3). destruct (hi_start _ _ _ Hcore).
  pose proof (hi_end _ _ _ Hcore). destruct (inv_sep _ _ _ Hcore) as (Hnd & Hap & Hr).
  rewrite Hfree in Hnd. apply list.NoDup_app in Hnd as (_ & _ & Hnd).
  assert (∀ y, y ∈ lr → y ∈ l) as Hsub by (intros y Hy; rewrite Hfree; apply elem_of_app; by right).
  split_and!.
  - constructor; [|done]. intros Hin. destruct (release_apart x Hin); lia.
  - intros a b [->|Ha]%elem_of_cons [->|Hb]%elem_of_cons; [by left| | |by apply Hap; apply Hsub].
    + right. by apply release_apart.
    + right. destruct (release_apart a Ha); lia.
  - intros a [->|Ha]%elem_of_cons; [lia|by apply Hr, Hsub].
Qed.

Lemma release_interior z :
  free_interior (heap_start h) bs z → x ≤ z < x + M ∨ free_interior (heap_start h) bs' z.
Proof.
  intros (y & b & Hin & Hf & Hz). unfold bs in Hin. rewrite !placed_app, <- Hx, !elem_of_app in Hin.
  assert (∀ c, (y, c) ∈ placed (heap_start h) bs1 ∨ (y, c) ∈ placed (x + M) bs2 →
    (y, c) ∈ placed (heap_start h) bs') as Hkeep.
  { intros c Hc. unfold bs'. rewrite !placed_app, <- Hx. cbn [bytes_of foldr bk_size].
    rewrite Z.add_0_r, !elem_of_app. tauto. }
  rewrite Hmid in Hin. destruct Hin as [Hin|[Hin|Hin]].
  - right. exists y, b. split; [apply Hkeep; by left|done].
  - left. destruct release_mid as (Hok & _). unfold bs in Hok.
    apply Forall_app in Hok as [_ [H2 _]%Forall_app].
    destruct (placed_range _ _ _ _ H2 Hin) as (? & ? & _). lia.
  - right. exists y, b. split; [apply Hkeep; by right|done].
Qed.

Lemma release_mem z :
  z < x ∨ x + M ≤ z → ¬ free_interior (heap_start h) bs z →
  rd (h_mem (free_list_insert x h2)) z = rd (h_mem h) z.
Proof.
  intros Hz Hni. rewrite <- Hsame by (done || lia).
  apply (free_list_insert_frame h2 lr x Hl2 release_sep z).
  intros y [->|Hy]%elem_of_cons; [lia|]. intros Hzy. apply Hni.
  apply (inv_links _ _ _ Hcore z y); [|done]. rewrite Hfree. apply elem_of_app. by right.
Qed.

Lemma release_ok :
  let h' := free_list_insert x h2 in
  heap_inv h' bs' (x :: lr) ∧ heap_start h' = heap_start h ∧ heap_end h' = heap_end h ∧
  used_payloads (heap_start h) bs ≡ₚ (x + 8, S - 8) :: used_payloads (heap_start h) bs' ∧
  (∀ q n z, (q, n) ∈ used_payloads (heap_start h) bs' → q ≤ z < q + n →
     rd (h_mem h') z = rd (h_mem h) z).
Proof.
  destruct release_mid as (Hok & HMm & Hxm & Hx1 & Hx2 & Hx3). pose proof release_sep as Hsep.
  destruct (free_list_insert_rest x h2) as (Es' & Ee' & Ea' & Ef'). cbn zeta.
  rewrite Es in Es'. rewrite Ee in Ee'. pose proof (hi_end _ _ _ Hcore). destruct (hi_start _ _ _ Hcore).
  assert (heap_inv (free_list_insert x h2) bs' (x :: lr)) as Hinv.
  { split; [|by apply free_list_insert_flist]. split; rewrite ?Es', ?Ee'; try apply Hcore.
    - apply (tiles_splice (h_mem h) _ _ _ mid); [apply Hcore|cbn; lia| |].
      + rewrite <- Hx. cbn [tiles bytes_of foldr bk_size].
        split; [split; [cbn; lia|done]|split; [|lia]]. rewrite (load_ext 8 (h_mem h2)); [done|].
        intros z Hz. apply (free_list_insert_frame h2 lr x Hl2 Hsep z).
        intros y [->|Hy]%elem_of_cons; [lia|]. destruct (release_apart y Hy); lia.
      + rewrite <- Hx, Hmid. intros z Hz Hni. by apply release_mem.
    - unfold bs'. rewrite !free_addrs_app, <- Hx. cbn [bytes_of foldr bk_size]. rewrite Z.add_0_r.
      change (free_addrs x [Blk M true]) with [x].
      pose proof (hi_perm _ _ _ Hcore) as Hp. unfold bs in Hp.
      rewrite Hfree, !free_addrs_app, <- Hx, Hmid in Hp.
      rewrite Permutation_app_comm in Hp. rewrite (Permutation_app_comm (free_addrs (heap_start h) bs1)) in Hp.
      rewrite <- app_assoc in Hp. rewrite (Permutation_app_comm (free_addrs x mid)) in Hp.
      apply Permutation.Permutation_app_inv_r in Hp.
      rewrite Hp, (Permutation_app_comm (free_addrs (x + M) bs2)). by rewrite Permutation_middle.
    - rewrite Ea', Ea, (hi_used _ _ _ Hcore). unfold bs, bs'. rewrite !used_bytes_app, Hub.
      cbn [used_bytes foldr bk_free]. apply Forall_app in Hok as [Hok1 [_ Hok2]%Forall_app].
      pose proof (used_bytes_bound _ Hok1). pose proof (used_bytes_bound _ Hok2).
      rewrite u64_small; lia.
    - destruct (hi_free _ _ _ Hcore) as [r Hr]. exists r. rewrite Ef', Ef, Hr, u64_idemp_add.
      f_equal. unfold bs, bs'. rewrite !free_bytes_app, Hfb. cbn [free_bytes foldr bk_free bk_size]. lia. }
  split; [exact Hinv|split; [exact Es'|split; [exact Ee'|split]]].
  - unfold bs, bs'. rewrite !used_payloads_app, <- Hx, Hused, Hmid. cbn [bytes_of foldr bk_size].
    rewrite Z.add_0_r. change (used_payloads x [Blk M true]) with (@nil (Z * Z)).
    cbn [app]. by rewrite Permutation_middle.
  - intros q n z Hq Hz. rewrite <- Es' in Hq.
    destruct (live_outside _ _ _ q n z x (Blk M true) (proj1 Hinv) Hq Hz) as [Hni Hout]. rewrite Es' in Hni.
    assert (z < x ∨ x + M ≤ z) as Hzo.
    { apply Hout; [|done]. rewrite Es'. unfold bs'. rewrite !placed_app, <- Hx, !elem_of_app.
      right. left. by left. }
    apply release_mem; [exact Hzo|]. intros Hint%release_interior. destruct Hint; [lia|done].
Qed.

End release.

(** ** [kfree] *)

Definition freed (ptr n : Z) (h : heap) (bs : list blk) (h' : heap) : Prop :=
  ∃ bs' l', heap_inv h' bs' l' ∧ heap_start h' = heap_start h ∧ heap_end h' = heap_end h ∧
    used_payloads (heap_start h) bs ≡ₚ (ptr, n) :: used_payloads (heap_start h') bs' ∧
    (∀ q k z, (q, k) ∈ used_payloads (heap_start h') bs' → q ≤ z < q + k →
       rd (h_mem h') z = rd (h_mem h) z).

(** The state with the counters of [kfree] updated. *)
Definition counted_free (S : Z) (h : heap) : heap :=
  set_total_free (u64 (total_free h + (S - 8)))
    (set_total_allocated (u64 (total_allocated h - (S - 8))) h).

Lemma counted_free_flist S h l : flist h l → flist (counted_free S h) l.
Proof. done. Qed.

Section free_block.
Context (h : heap) (bs1 bs2 : list blk) (l : list Z) (S x : Z).
Let bs := bs1 ++ [Blk S false] ++ bs2.
Context (Hinv : heap_inv h bs l) (Hx : x = heap_start h + bytes_of bs1).

Lemma free_block_facts :
  (x, Blk S false) ∈ placed (heap_start h) bs ∧ 32 ≤ S ∧ S mod 16 = 0 ∧ 0 < x ∧
  heap_start h ≤ x ∧ x + S ≤ heap_end h ∧ heap_end h < 2 ^ 64 ∧ size_and_flags h x = S.
Proof.
  assert ((x, Blk S false) ∈ placed (heap_start h) bs) as Hin.
  { unfold bs. rewrite !placed_app, <- Hx, !elem_of_app. right. left. by left. }
  destruct (inv_placed _ _ _ (proj1 Hinv) x _ Hin) as (H1 & H2 & [H3 H4] & _ & H5 & _).
  destruct (hi_start _ _ _ (proj1 Hinv)). pose proof (hi_end _ _ _ (proj1 Hinv)).
  unfold blk_header in H5. cbn in *. split_and!; try done; lia.
Qed.

(** No free neighbour: the block itself becomes free. *)
Lemma free_alone :
  freed (x + 8) (S - 8) h bs (free_list_insert x (block_set_free x (counted_free S h))).
Proof.
  destruct free_block_facts as (Hin & HS & HSm & Hx0 & Hs & He & Hend & Hh). destruct Hinv as [Hc Hl].
  set (h2 := block_set_free x (counted_free S h)).
  assert (h_mem h2 = store 8 (h_mem h) x (S + 1)) as Em.
  { unfold h2, block_set_free, set_size_and_flags, put64. cbn [h_mem set_h_mem].
    change (size_and_flags (counted_free S h) x) with (size_and_flags h x). by rewrite Hh, lor_free. }
  assert (∀ y, y ∈ l → x + 24 ≤ y ∨ y + 24 ≤ x) as Hap.
  { intros y (c & Hy & Hf)%(inv_free_placed _ _ _ Hc).
    destruct (inv_placed _ _ _ Hc _ _ Hy) as (_ & _ & [? _] & _).
    destruct (placed_apart _ _ _ _ _ _ (inv_ok _ _ _ Hc) Hin Hy) as [[_ <-]|?]; [done|cbn in *; lia]. }
  destruct (release_ok h bs1 [Blk S false] bs2 l l S S x h2) as (R1 & R2 & R3 & R4 & R5); try done;
    try (cbn; lia).
  - destruct Hl as [Hhd Hd]. split; [exact Hhd|]. apply (dll_ext (h_mem h)); [|exact Hd].
    intros y Hy. specialize (Hap y Hy). rewrite Em. by rewrite !load_store_ne by lia.
  - rewrite Em. apply load_store_eq. lia.
  - intros z Hz _. rewrite Em. apply store_frame. lia.
  - exists (bs1 ++ [Blk S true] ++ bs2), (x :: l). rewrite R2. split_and!; try done.
Qed.

Context (N : Z) (bs3 : list blk) (Hbs2 : bs2 = Blk N true :: bs3).

Lemma next_placed : (x + S, Blk N true) ∈ placed (heap_start h) bs.
Proof.
  unfold bs. rewrite Hbs2, !placed_app, <- Hx, !elem_of_app. right. right. cbn.
  rewrite Z.add_0_r. by left.
Qed.

(** Taking the neighbour off the list does not change its header. *)
Lemma next_size : block_size (free_list_remove (x + S) (counted_free S h)) (x + S) = N.
Proof.
  destruct Hinv as [Hc Hl]. destruct (inv_placed _ _ _ Hc _ _ next_placed) as (_ & _ & _ & _ & _ & Hsz & _).
  cbn in Hsz. rewrite <- Hsz. clear Hsz.
  assert (x + S ∈ l) as (l1 & l2 & El)%list_elem_of_split.
  { apply (inv_free_placed _ _ _ Hc). exists (Blk N true). split; [exact next_placed|done]. }
  pose proof (inv_sep _ _ _ Hc) as Hsep. rewrite El in Hsep, Hl.
  unfold block_size, size_and_flags, get64. f_equal. apply load_ext. intros z Hz.
  apply (free_list_remove_frame (counted_free S h) l1 l2 (x + S) Hl Hsep z).
  intros y Hy. destruct (remove_apart h l1 l2 (x + S) Hl Hsep y Hy); lia.
Qed.

(** A free neighbour is absorbed. *)
Lemma free_coalesce :
  let hr := free_list_remove (x + S) (counted_free S h) in
  freed (x + 8) (S - 8) h bs
    (free_list_insert x (block_set_free x (set_size_and_flags x (S + N) hr))).
Proof.
  destruct free_block_facts as (Hin & HS & HSm & Hx0 & Hs & He & Hend & Hh). pose proof Hinv as [Hc Hl].
  pose proof next_placed as HinN.
  destruct (inv_placed _ _ _ Hc _ _ HinN) as (_ & HeN & [HN HNm] & _). cbn in HeN, HN, HNm.
  assert (x + S ∈ l) as (l1 & l2 & ->)%list_elem_of_split.
  { apply (inv_free_placed _ _ _ Hc). by exists (Blk N true). }
  pose proof (inv_sep _ _ _ Hc) as Hsep.
  set (hr := free_list_remove (x + S) (counted_free S h)).
  pose proof (free_list_remove_flist (counted_free S h) l1 l2 (x + S) Hl Hsep) as Hlr.
  pose proof (free_list_remove_frame (counted_free S h) l1 l2 (x + S) Hl Hsep) as Hfr.
  destruct (free_list_remove_rest (x + S) (counted_free S h)) as (Es & Ee & Ea & Ef).
  fold hr in Hlr, Hfr, Es, Ee, Ea, Ef.
  set (h2 := block_set_free x (set_size_and_flags x (S + N) hr)). cbn zeta.
  assert (h_mem h2 = store 8 (store 8 (h_mem hr) x (S + N)) x (S + N + 1)) as Em.
  { unfold h2, block_set_free, set_size_and_flags, put64. cbn [h_mem set_h_mem].
    unfold size_and_flags, get64. cbn [h_mem set_h_mem]. rewrite load_store_eq by lia.
    rewrite lor_free; [done|]. rewrite Z.add_mod, HSm, HNm by lia. done. }
  assert (∀ y, y ∈ l1 ++ l2 → y ∈ l1 ++ (x + S) :: l2) as Hsub.
  { intros y. rewrite !elem_of_app, elem_of_cons. tauto. }
  assert (∀ y, y ∈ l1 ++ l2 → x + 24 ≤ y ∨ y + 24 ≤ x) as Hap.
  { intros y (c & Hy & Hf)%Hsub%(inv_free_placed _ _ _ Hc).
    destruct (inv_placed _ _ _ Hc _ _ Hy) as (_ & _ & [? _] & _).
    destruct (placed_apart _ _ _ _ _ _ (inv_ok _ _ _ Hc) Hin Hy) as [[_ <-]|?]; [done|cbn in *; lia]. }
  assert (bs = bs1 ++ [Blk S false; Blk N true] ++ bs3) as Ebs by (unfold bs; by rewrite Hbs2).
  rewrite Ebs in *.
  destruct (release_ok h bs1 [Blk S false; Blk N true] bs3 (l1 ++ (x + S) :: l2) (l1 ++ l2) S (S + N) x h2)
    as (R1 & R2 & R3 & R4 & R5); try done; try (cbn; lia).
  - change (free_addrs x [Blk S false; Blk N true]) with [x + S]. symmetry. cbn [app]. apply Permutation_middle.
  - destruct Hlr as [Hhd Hd]. split; [exact Hhd|]. apply (dll_ext (h_mem hr)); [|exact Hd].
    intros y Hy. specialize (Hap y Hy). rewrite Em. by rewrite !load_store_ne by lia.
  - rewrite Em. apply load_store_eq. lia.
  - intros z Hz Hni. rewrite Em, !store_frame by lia. apply (Hfr z). intros y Hy Hzy. apply Hni.
    apply (inv_links _ _ _ Hc z y); [by apply Hsub|done].
  - assert (freed (x + 8) (S - 8) h (bs1 ++ [Blk S false; Blk N true] ++ bs3) (free_list_insert x h2)) as HF;
      [|exact HF].
    exists (bs1 ++ [Blk (S + N) true] ++ bs3), (x :: l1 ++ l2). rewrite R2. split_and!; try done.
Qed.

End free_block.

Lemma kfree_ok ptr n h bs l :
  heap_inv h bs l → (ptr, n) ∈ used_payloads (heap_start h) bs → freed ptr n h bs (kfree ptr h).
Proof.
  intros Hinv (b & Hin & Hf & ->)%used_payload_placed. pose proof Hinv as [Hc Hl].
  destruct b as [S f]. cbn in Hf. subst f. cbn [bk_size].
  destruct (inv_placed _ _ _ Hc _ _ Hin) as (H1 & H2 & [H3 H4] & H5 & H6 & H7 & H8). cbn in *.
  destruct (placed_split _ _ _ _ Hin) as (bs1 & bs2 & -> & Ex).
  destruct (hi_start _ _ _ Hc). pose proof (hi_end _ _ _ Hc).
  set (x := ptr - 8) in *. replace ptr with (x + 8) by lia. unfold kfree.
  destruct (Z.eqb_spec (x + 8) 0); [lia|]. unfold data_to_block, sizeof_header.
  replace (x + 8 - 8) with x by lia. rewrite (u64_small x) by lia.
  destruct (Z.ltb_spec x (heap_start h)); [lia|]. destruct (Z.leb_spec (heap_end h) x); [lia|].
  cbn [orb]. rewrite H8, H7.
  change (set_total_free _ (set_total_allocated _ h)) with (counted_free S h).
  assert (next_block (counted_free S h) x = x + S) as ->.
  { unfold next_block. change (block_size (counted_free S h) x) with (block_size h x).
    rewrite H7. apply u64_small. lia. }
  change (heap_end (counted_free S h)) with (heap_end h).
  change (block_is_free (counted_free S h) (x + S)) with (block_is_free h (x + S)).
  pose proof (tiles_end _ _ _ _ (hi_tiles _ _ _ Hc)) as He. rewrite bytes_of_app in He.
  destruct bs2 as [|[N [|]] bs3]; cbn [bytes_of foldr bk_size] in He.
  - destruct (Z.ltb_spec (x + S) (heap_end h)); [lia|]. cbn [andb].
    exact (free_alone h bs1 [] l S x Hinv Ex).
  - assert ((x + S, Blk N true) ∈ placed (heap_start h) (bs1 ++ [Blk S false] ++ Blk N true :: bs3)) as HinN.
    { rewrite !placed_app, <- Ex, !elem_of_app. right. right. cbn. rewrite Z.add_0_r. by left. }
    destruct (inv_placed _ _ _ Hc _ _ HinN) as (_ & HeN & [HN HNm] & _ & _ & HbN & HfN). cbn in *.
    rewrite HfN. destruct (Z.ltb_spec (x + S) (heap_end h)); [|lia]. cbn [andb].
    pose proof (free_coalesce h bs1 _ l S x Hinv Ex N bs3 eq_refl) as Hco. cbn zeta in Hco.
    rewrite (next_size h bs1 _ l S x Hinv Ex N bs3 eq_refl).
    rewrite (u64_small (S + N)) by lia. exact Hco.
  - assert ((x + S, Blk N false) ∈ placed (heap_start h) (bs1 ++ [Blk S false] ++ Blk N false :: bs3)) as HinN.
    { rewrite !placed_app, <- Ex, !elem_of_app. right. right. cbn. rewrite Z.add_0_r. by left. }
    destruct (inv_placed _ _ _ Hc _ _ HinN) as (_ & _ & _ & _ & _ & _ & HfN). cbn in HfN.
    rewrite HfN, andb_false_r. exact (free_alone h bs1 _ l S x Hinv Ex).
Qed.
