(* ===== verification/HeapSpec.v ===== *)
(** * What the kernel heap promises

    The abstract heap is the map of live allocations with the bytes their
    owners wrote.  Every heap operation is simulated by a step of the abstract
    heap; zeroing, reallocation and initialisation follow. *)
From S2P Require Import Prelude Pmm Page Vmm Heap HeapInv HeapProps.
Local Open Scope Z_scope.

(** ** Abstract heap *)

(** Live allocations (pointer to length) and the contents of their bytes. *)
Record aheap := AHeap { live : gmap Z Z; contents : Z → Z }.

Inductive heap_op :=
| OpMalloc (size : Z)
| OpKfree (ptr : Z)
| OpWrite (ptr off v : Z).

Definition in_live (A : aheap) (z : Z) : Prop :=
  ∃ q n, live A !! q = Some n ∧ q ≤ z < q + n.

Inductive aheap_step (A : aheap) : heap_op → Z → aheap → Prop :=
| astep_malloc size ptr n c :
    0 < ptr → ptr mod 16 = 8 → size ≤ n →
    (∀ q k, live A !! q = Some k → q + k ≤ ptr ∨ ptr + n ≤ q) →
    (∀ z, in_live A z → c z = contents A z) →
    aheap_step A (OpMalloc size) ptr (AHeap (<[ptr := n]> (live A)) c)
| astep_malloc_fail size : aheap_step A (OpMalloc size) 0 A
| astep_free ptr n :
    live A !! ptr = Some n →
    aheap_step A (OpKfree ptr) 0 (AHeap (delete ptr (live A)) (contents A))
| astep_free_null : aheap_step A (OpKfree 0) 0 A
| astep_write ptr off v n :
    live A !! ptr = Some n → 0 ≤ off < n →
    aheap_step A (OpWrite ptr off v) 0
      (AHeap (live A) (λ z, if z =? ptr + off then v else contents A z)).

(** What a client may ask for in abstract state [A]. *)
Definition op_allowed (A : aheap) (o : heap_op) : Prop :=
  match o with
  | OpMalloc size => 8 < size < 2 ^ 62
  | OpKfree ptr => ptr = 0 ∨ is_Some (live A !! ptr)
  | OpWrite ptr off _ => ∃ n, live A !! ptr = Some n ∧ 0 ≤ off < n
  end.

Definition heap_exec {P : Type} `{!PageSource P} (o : heap_op) (h : heap) (p : P)
    : option (Z * heap * P) :=
  match o with
  | OpMalloc size => kmalloc size h p
  | OpKfree ptr => Some (0, kfree ptr h, p)
  | OpWrite ptr off v => Some (0, set_h_mem (wr (h_mem h) (ptr + off) v) h, p)
  end.

(** [h] represents the abstract heap [A]. *)
Definition heap_rel (h : heap) (A : aheap) : Prop :=
  ∃ bs l, heap_inv h bs l ∧
    (∀ q n, live A !! q = Some n ↔ (q, n) ∈ used_payloads (heap_start h) bs) ∧
    (∀ z, in_live A z → rd (h_mem h) z = contents A z).

(** Live allocations are disjoint, inside the heap and 8 modulo 16. *)
Lemma live_placed h A q n :
  heap_rel h A → live A !! q = Some n →
  heap_start h + 8 ≤ q ∧ q + n ≤ heap_end h ∧ q mod 16 = 8 ∧ 24 ≤ n ∧
  ∀ q' n', live A !! q' = Some n' → q = q' ∨ q + n < q' ∨ q' + n' < q.
Proof.
  intros (bs & l & [Hc _] & Hlive & _) Hq. pose proof (inv_ok _ _ _ Hc) as Hok.
  apply Hlive, used_payload_placed in Hq as (b & Hin & Hf & ->).
  destruct (inv_placed _ _ _ Hc _ _ Hin) as (H1 & H2 & [H3 H4] & H5 & _).
  split_and!; [lia|lia|zdm|lia|]. intros q' n' (b' & Hin' & Hf' & ->)%Hlive%used_payload_placed.
  destruct (placed_apart _ _ _ _ _ _ Hok Hin Hin') as [[E _]|?]; [left; lia|right; lia].
Qed.

Lemma used_payloads_fun h bs l q n n' :
  heap_core h bs l → (q, n) ∈ used_payloads (heap_start h) bs →
  (q, n') ∈ used_payloads (heap_start h) bs → n = n'.
Proof.
  intros Hc (b & Hin & _ & ->)%used_payload_placed (b' & Hin' & _ & ->)%used_payload_placed.
  destruct (placed_apart _ _ _ _ _ _ (inv_ok _ _ _ Hc) Hin Hin') as [[_ ->]|?]; [done|].
  destruct (inv_placed _ _ _ Hc _ _ Hin) as (_ & _ & [? _] & _).
  destruct (inv_placed _ _ _ Hc _ _ Hin') as (_ & _ & [? _] & _). lia.
Qed.

(** A fresh payload is apart from the live ones. *)
Lemma allocated_rel size h A bs ptr h' :
  (∀ q n, live A !! q = Some n ↔ (q, n) ∈ used_payloads (heap_start h) bs) →
  (∀ z, in_live A z → rd (h_mem h) z = contents A z) →
  allocated size h bs ptr h' →
  ∃ n, size ≤ n ∧ ptr mod 16 = 8 ∧ 0 < ptr ∧
    (∀ q k, live A !! q = Some k → q + k ≤ ptr ∨ ptr + n ≤ q) ∧
    (∀ z, in_live A z → rd (h_mem h') z = contents A z) ∧
    heap_rel h' (AHeap (<[ptr := n]> (live A)) (rd (h_mem h'))).
Proof.
  intros Hlive Hcont (bs' & l' & n & Hinv' & Hn & Hup & Es & _ & Hsame & Hm & Hp0).
  pose proof (proj1 Hinv') as Hc'.
  assert (∀ q k, (q, k) ∈ used_payloads (heap_start h') bs' ↔ (q, k) = (ptr, n) ∨ live A !! q = Some k) as Hu.
  { intros q k. rewrite Hup, elem_of_cons, Hlive. done. }
  assert ((ptr, n) ∈ used_payloads (heap_start h') bs') as Hpn by (apply Hu; by left).
  assert (live A !! ptr = None) as Hfresh.
  { destruct (live A !! ptr) as [k|] eqn:E; [|done]. exfalso.
    pose proof (inv_ok _ _ _ Hc') as Hok. assert (NoDup ((ptr, n) :: used_payloads (heap_start h) bs)) as Hnd.
    { rewrite <- Hup. apply used_payloads_nodup, Hok. }
    inversion_clear Hnd as [|? ? Hni _]. apply Hni. rewrite <- Hlive.
    rewrite E. f_equal. apply (used_payloads_fun h' bs' l' ptr); [done| |done]. apply Hu. by right. }
  exists n. split_and!; [done|done|done| | |].
  - intros q k Hq. assert ((q, k) ∈ used_payloads (heap_start h') bs') as Hqk by (apply Hu; by right).
    apply used_payload_placed in Hqk as (b & Hb & _ & ->), Hpn as (c & Hcc & _ & ->).
    destruct (placed_apart _ _ _ _ _ _ (inv_ok _ _ _ Hc') Hb Hcc) as [[E _]|?]; [|lia].
    assert (q = ptr) as -> by lia. congruence.
  - intros z Hz. rewrite <- Hcont by done. destruct Hz as (q & k & Hq & Hz).
    apply (Hsame q k z); [by apply Hlive|done].
  - exists bs', l'. split_and!; [done| |done]. intros q k. rewrite Hu. cbn [live].
    destruct (decide (q = ptr)) as [->|Hne].
    + rewrite lookup_insert_eq, Hfresh. naive_solver.
    + rewrite lookup_insert_ne by done. naive_solver.
Qed.

(** A store into a live payload touches no header and no link. *)
Lemma write_live h bs l q n z v :
  heap_inv h bs l → (q, n) ∈ used_payloads (heap_start h) bs → q ≤ z < q + n →
  heap_inv (set_h_mem (wr (h_mem h) z v) h) bs l.
Proof.
  intros [Hc [Hhd Hd]] (b & Hin & Hf & ->)%used_payload_placed Hz.
  pose proof (inv_ok _ _ _ Hc) as Hok. pose proof Hc as [Ht Hs He Hp Hu Hfr]. split.
  - split; try done. cbn [h_mem set_h_mem heap_start heap_end]. apply (tiles_frame (h_mem h)); [done|].
    intros x c Hx. apply load_wr_ne. destruct (inv_placed _ _ _ Hc _ _ Hx) as (_ & _ & [? _] & _).
    destruct (placed_apart _ _ _ _ _ _ Hok Hin Hx) as [[<- _]|[?|?]]; lia.
  - split; [exact Hhd|]. cbn [h_mem set_h_mem]. apply (dll_ext (h_mem h)); [|exact Hd].
    intros x (c & Hx & Hfx)%(inv_free_placed _ _ _ Hc).
    destruct (inv_placed _ _ _ Hc _ _ Hx) as (_ & _ & [? _] & _).
    destruct (placed_apart _ _ _ _ _ _ Hok Hin Hx) as [[_ ->]|[?|?]]; [congruence| |];
      rewrite !load_wr_ne by lia; done.
Qed.

Lemma write_rel h A ptr off v n :
  heap_rel h A → live A !! ptr = Some n → 0 ≤ off < n →
  heap_rel (set_h_mem (wr (h_mem h) (ptr + off) v) h)
    (AHeap (live A) (λ z, if z =? ptr + off then v else contents A z)).
Proof.
  intros (bs & l & Hinv & Hlive & Hcont) Hptr Hoff. exists bs, l. split_and!; [|done|].
  - apply (write_live h bs l ptr n); [done|by apply Hlive|lia].
  - intros z Hz. cbn [h_mem set_h_mem contents]. rewrite rd_wr.
    destruct (Z.eqb_spec z (ptr + off)) as [->|Hne]; [by rewrite decide_True|].
    rewrite decide_False by lia. by apply Hcont.
Qed.

Lemma freed_rel h A bs ptr n h' :
  (∀ q k, live A !! q = Some k ↔ (q, k) ∈ used_payloads (heap_start h) bs) →
  (∀ z, in_live A z → rd (h_mem h) z = contents A z) →
  NoDup (used_payloads (heap_start h) bs) →
  live A !! ptr = Some n → freed ptr n h bs h' →
  heap_rel h' (AHeap (delete ptr (live A)) (contents A)).
Proof.
  intros Hlive Hcont Hnd Hptr (bs' & l' & Hinv' & _ & _ & Hup & Hsame).
  rewrite Hup in Hnd. inversion_clear Hnd as [|? ? Hni _].
  assert (∀ q k, delete ptr (live A) !! q = Some k ↔ (q, k) ∈ used_payloads (heap_start h') bs') as Hd.
  { intros q k. destruct (decide (q = ptr)) as [->|Hne].
    - rewrite lookup_delete_eq. split; [done|]. intros Hin. exfalso.
      assert (live A !! ptr = Some k) as E by (apply Hlive; rewrite Hup; by right).
      rewrite Hptr in E. injection E as <-. done.
    - rewrite lookup_delete_ne, Hlive, Hup, elem_of_cons by done. naive_solver. }
  exists bs', l'. split_and!; [done|exact Hd|]. intros z (q & k & Hq & Hz). cbn [live contents] in *.
  rewrite (Hsame q k z); [|by apply Hd|done]. apply Hcont. exists q, k. split; [|done].
  apply lookup_delete_Some in Hq. by destruct Hq.
Qed.

Lemma kfree_rel h A ptr :
  heap_rel h A → is_Some (live A !! ptr) →
  heap_rel (kfree ptr h) (AHeap (delete ptr (live A)) (contents A)) ∧
  heap_start (kfree ptr h) = heap_start h ∧ heap_end (kfree ptr h) = heap_end h.
Proof.
  intros (bs & l & Hinv & Hlive & Hcont) [n Hptr].
  pose proof (kfree_ok ptr n h bs l Hinv ltac:(by apply Hlive)) as Hf. split.
  - eapply freed_rel; try done. apply used_payloads_nodup, (inv_ok _ _ _ (proj1 Hinv)).
  - destruct Hf as (? & ? & _ & ? & ? & _). done.
Qed.

Lemma kmalloc_rel {P} `{!PageSource P} size h A (p : P) :
  heap_rel h A → 8 < size < 2 ^ 62 → heap_end h + 64 * 4096 < 2 ^ 64 →
  ∃ ptr h' p', kmalloc size h p = Some (ptr, h', p') ∧
    ((ptr = 0 ∧ h' = h) ∨
     ∃ n, 0 < ptr ∧ ptr mod 16 = 8 ∧ size ≤ n ∧
       (∀ q k, live A !! q = Some k → q + k ≤ ptr ∨ ptr + n ≤ q) ∧
       (∀ z, in_live A z → rd (h_mem h') z = contents A z) ∧
       heap_rel h' (AHeap (<[ptr := n]> (live A)) (rd (h_mem h')))).
Proof.
  intros (bs & l & Hinv & Hlive & Hcont) Hsz Hfit.
  destruct (kmalloc_ok size h bs l p Hinv Hsz Hfit) as (ptr & h' & p' & -> & _ & [(-> & -> & _)|[_ Ha]]).
  - exists 0, h, p'. auto.
  - exists ptr, h', p'. split; [done|right].
    destruct (allocated_rel size h A bs ptr h' Hlive Hcont Ha) as (n & ? & ? & ? & ? & ? & ?).
    by exists n.
Qed.


(** ** Statistics *)

Lemma used_bytes_payloads a bs :
  used_bytes bs = foldr (λ x n, x.2 + n) 0 (used_payloads a bs).
Proof.
  unfold used_payloads. revert a. induction bs as [|b bs IH]; intros a; [done|].
  cbn [used_bytes foldr placed]. rewrite filter_cons. fold (used_bytes bs). rewrite (IH (a + bk_size b)).
  destruct (bk_free b) eqn:E; case_decide as Hd; cbn in Hd; try congruence; cbn; lia.
Qed.

(** The counter behind [kheap_get_used] is the sum of
    the lengths of the live allocations. *)
Theorem kheap_get_used_exact h A :
  heap_rel h A →
  kheap_get_used h = foldr (λ x n, x.2 + n) 0 (map_to_list (live A)).
Proof.
  intros (bs & l & [Hc _] & Hlive & _). unfold kheap_get_used.
  rewrite (hi_used _ _ _ Hc), (used_bytes_payloads (heap_start h)).
  apply (foldr_permutation_proper (=)); [apply _|intros; lia|].
  apply NoDup_Permutation.
  - apply used_payloads_nodup, (inv_ok _ _ _ Hc).
  - apply NoDup_map_to_list.
  - intros [q n]. rewrite <- Hlive. symmetry. apply elem_of_map_to_list.
Qed.

(** ** Filling a payload *)

Lemma heap_rel_ext h A c :
  heap_rel h A → (∀ z, in_live A z → c z = contents A z) → heap_rel h (AHeap (live A) c).
Proof.
  intros (bs & l & Hinv & Hlive & Hcont) Hc. exists bs, l. split_and!; [done|done|].
  intros z Hz. rewrite Hcont, <- Hc; done.
Qed.

(** The abstract heap after the first [i] bytes at [ptr] were set to [g]. *)
Definition filled (A : aheap) (ptr i : Z) (g : Z → Z) : aheap :=
  AHeap (live A) (λ z, if (ptr <=? z) && (z <? ptr + i) then g (z - ptr) else contents A z).

Lemma fill_loop (f : Z → heap → Z) (g : Z → Z) h A ptr k n :
  heap_rel h A → live A !! ptr = Some k → Z.of_nat n ≤ k →
  (∀ i h', 0 ≤ i < Z.of_nat n → heap_rel h' (filled A ptr i g) → f i h' = g i) →
  let h' := for_loop n 0 (λ i h, set_h_mem (wr (h_mem h) (ptr + i) (f i h)) h) h in
  heap_rel h' (filled A ptr (Z.of_nat n) g) ∧ heap_start h' = heap_start h ∧ heap_end h' = heap_end h.
Proof.
  intros Hrel Hptr Hn Hf.
  apply (for_loop_ind (λ i h', 0 ≤ i → heap_rel h' (filled A ptr i g) ∧
    heap_start h' = heap_start h ∧ heap_end h' = heap_end h)
    n 0 (λ i h, set_h_mem (wr (h_mem h) (ptr + i) (f i h)) h) h); [| |lia].
  - intros _. split; [|done]. apply (heap_rel_ext h A); [done|]. intros z _.
    destruct (Z.leb_spec ptr z), (Z.ltb_spec z (ptr + 0)); try done. lia.
  - intros i h' Hi IH _. destruct (IH ltac:(lia)) as (Hr & Es & Ee).
    split; [|split; [exact Es|exact Ee]]. rewrite (Hf i h') by (done || lia).
    apply (heap_rel_ext _ (AHeap (live A) (λ z, if z =? ptr + i then g i else contents (filled A ptr i g) z)));
      [apply (write_rel h' (filled A ptr i g) ptr i (g i) k); [done|exact Hptr|lia]|].
    intros z _. cbn [contents filled].
    destruct (Z.leb_spec ptr z), (Z.ltb_spec z (ptr + i)), (Z.ltb_spec z (ptr + (i + 1))),
      (Z.eqb_spec z (ptr + i)); cbn [andb]; try done; try lia.
    f_equal. lia.
Qed.

(** [kzalloc] is an allocation whose first [size] bytes are
    zero and that leaves the bytes of every live allocation alone. *)
Theorem kzalloc_zeroed {P} `{!PageSource P} size h A (p : P) :
  heap_rel h A → 8 < size < 2 ^ 62 → heap_end h + 64 * 4096 < 2 ^ 64 →
  ∃ ptr h' p', kzalloc size h p = Some (ptr, h', p') ∧
    (ptr = 0 ∧ h' = h ∨
     ∃ n c, aheap_step A (OpMalloc size) ptr (AHeap (<[ptr := n]> (live A)) c) ∧
            heap_rel h' (AHeap (<[ptr := n]> (live A)) c) ∧
            ∀ i, 0 ≤ i < size → rd (h_mem h') (ptr + i) = 0).
Proof.
  intros Hrel Hsz Hfit. unfold kzalloc.
  destruct (kmalloc_rel size h A p Hrel Hsz Hfit) as (ptr & h1 & p' & -> & [[-> ->]|(n & H1 & H2 & H3 & H4 & H5 & H6)]);
    cbn [mbind option_bind].
  { exists 0, h, p'. split; [done|by left]. }
  destruct (Z.eqb_spec ptr 0); [lia|]. cbn [negb].
  set (A1 := AHeap (<[ptr := n]> (live A)) (rd (h_mem h1))) in *.
  destruct (fill_loop (λ _ _, 0) (λ _, 0) h1 A1 ptr n (Z.to_nat size)) as (Hr & _).
  { done. } { apply lookup_insert_eq. } { lia. } { done. }
  rewrite Z2Nat.id in Hr by lia. eexists ptr, _, p'. split; [done|]. right.
  exists n, (contents (filled A1 ptr size (λ _, 0))). split_and!; [|exact Hr|].
  - constructor; [done|done|done|done|]. intros z Hz. cbn [filled contents A1].
    destruct (Z.leb_spec ptr z), (Z.ltb_spec z (ptr + size)); cbn [andb]; try by apply H5.
    exfalso. destruct Hz as (q & k & Hq & Hz). destruct (H4 q k Hq); lia.
  - intros i Hi. destruct Hr as (bs & l & _ & _ & Hc). rewrite Hc.
    + cbn [filled contents]. destruct (Z.leb_spec ptr (ptr + i)), (Z.ltb_spec (ptr + i) (ptr + size)); done || lia.
    + exists ptr, n. cbn [filled live A1]. rewrite lookup_insert_eq. split; [done|lia].
Qed.

(** ** Reallocation *)

Lemma live_block h A ptr n :
  heap_rel h A → live A !! ptr = Some n →
  data_to_block ptr = ptr - 8 ∧ block_size h (ptr - 8) = n + 8 ∧ 0 < ptr ∧ 24 ≤ n ∧ n < 2 ^ 64 - 16.
Proof.
  intros (bs & l & [Hc _] & Hlive & _) Hptr.
  apply Hlive, used_payload_placed in Hptr as (b & Hin & _ & ->).
  destruct (inv_placed _ _ _ Hc _ _ Hin) as (? & ? & [? _] & _ & _ & -> & _).
  destruct (hi_start _ _ _ Hc). pose proof (hi_end _ _ _ Hc).
  assert (16 ≤ heap_start h) by zdm. unfold data_to_block, sizeof_header. rewrite u64_small by lia. split_and!; lia.
Qed.

(** Copying a live payload into a fresh one and freeing the old one. *)
Lemma move_payload h1 A ptr n new m k :
  live A !! ptr = Some n → 0 < new → k ≤ n → k ≤ m → 0 ≤ k → 0 < n → 0 < m →
  (∀ q j, live A !! q = Some j → q + j ≤ new ∨ new + m ≤ q) →
  (∀ z, in_live A z → rd (h_mem h1) z = contents A z) →
  heap_rel h1 (AHeap (<[new := m]> (live A)) (rd (h_mem h1))) →
  let h2 := for_loop (Z.to_nat k) 0
    (λ i h, set_h_mem (wr (h_mem h) (new + i) (rd (h_mem h) (ptr + i))) h) h1 in
  ∃ c, heap_rel (kfree ptr h2) (AHeap (<[new := m]> (delete ptr (live A))) c) ∧
    (∀ i, 0 ≤ i < k → c (new + i) = contents A (ptr + i)) ∧
    (∀ z, in_live A z → c z = contents A z).
Proof.
  intros Hptr Hnew Hkn Hkm Hk0 Hn0 Hm0 Hdis Hold Hrel.
  set (A1 := AHeap (<[new := m]> (live A)) (rd (h_mem h1))) in *.
  assert (ptr ≠ new) as Hne by (intros ->; destruct (Hdis _ _ Hptr); lia).
  assert (live A1 !! ptr = Some n) as Hptr1 by (cbn; by rewrite lookup_insert_ne).
  assert (∀ i, 0 ≤ i < k → in_live A (ptr + i)) as Hin by (intros i Hi; exists ptr, n; split; [done|lia]).
  destruct (fill_loop (λ i h, rd (h_mem h) (ptr + i)) (λ i, contents A (ptr + i)) h1 A1 new m (Z.to_nat k))
    as (Hr & _); [done|apply lookup_insert_eq|lia| |].
  { intros i h' Hi (bs & l & _ & _ & Hc). rewrite Hc.
    - cbn [filled contents A1]. destruct (Hdis ptr n Hptr), (Z.leb_spec new (ptr + i)),
        (Z.ltb_spec (ptr + i) (new + i)); cbn [andb]; try (apply Hold, Hin; lia); lia.
    - exists ptr, n. cbn [filled live]. split; [exact Hptr1|lia]. }
  rewrite Z2Nat.id in Hr by lia. cbn zeta.
  set (h2 := for_loop _ _ _ _) in *.
  destruct (kfree_rel h2 (filled A1 new k (λ i, contents A (ptr + i))) ptr Hr) as [Hf _].
  { cbn [filled live]. eauto. }
  exists (contents (filled A1 new k (λ i, contents A (ptr + i)))). split_and!.
  - cbn [filled live A1] in Hf. by rewrite delete_insert_ne in Hf by done.
  - intros i Hi. cbn [filled contents].
    destruct (Z.leb_spec new (new + i)), (Z.ltb_spec (new + i) (new + k)); cbn [andb]; try lia.
    f_equal. lia.
  - intros z Hz. cbn [filled contents A1]. pose proof Hz as (q & j & Hq & Hzq).
    destruct (Hdis q j Hq), (Z.leb_spec new z), (Z.ltb_spec z (new + k)); cbn [andb]; try lia; by apply Hold.
Qed.

(** C28 [krealloc_preserves]: resizing a live allocation either keeps it in
    place because the block is already large enough, fails leaving the heap
    untouched, or moves it: the new block is large enough, holds the first
    [min(old, new)] bytes, the old pointer is no longer live and every other
    allocation keeps its bytes. *)
Theorem krealloc_preserves {P} `{!PageSource P} ptr n size h A (p : P) :
  heap_rel h A → live A !! ptr = Some n → 8 < size < 2 ^ 62 → heap_end h + 64 * 4096 < 2 ^ 64 →
  ∃ r h' p', krealloc ptr size h p = Some (r, h', p') ∧
    (r = ptr ∧ h' = h ∧ size ≤ n ∨
     r = 0 ∧ h' = h ∨
     ∃ m c, 0 < r ∧ size ≤ m ∧ heap_rel h' (AHeap (<[r := m]> (delete ptr (live A))) c) ∧
       (∀ i, 0 ≤ i < Z.min n size → c (r + i) = contents A (ptr + i)) ∧
       (∀ z, in_live A z → c z = contents A z)).
Proof.
  intros Hrel Hptr Hsz Hfit. destruct (live_block h A ptr n Hrel Hptr) as (Eb & Es & Hp0 & Hn & Hn2).
  unfold krealloc. rewrite Eb, Es. unfold sizeof_header.
  destruct (Z.eqb_spec ptr 0); [lia|]. destruct (Z.eqb_spec size 0); [lia|].
  replace (n + 8 - 8) with n by lia. rewrite (u64_small n), (u64_small (8 + size)), align_up_spec by lia.
  destruct (Z.leb_spec ((8 + size + 15) / 16 * 16) (n + 8)).
  { exists ptr, h, p. split; [done|]. left. split_and!; [done|done|zdm]. }
  destruct (kmalloc_rel size h A p Hrel Hsz Hfit) as (r & h1 & p' & -> & [[-> ->]|(m & H1 & H2 & H3 & H4 & H5 & H6)]);
    cbn [mbind option_bind].
  { exists 0, h, p'. split; [done|]. by right; left. }
  destruct (Z.eqb_spec r 0); [lia|].
  assert ((if n <? size then n else size) = Z.min n size) as -> by (case_if; lia).
  destruct (move_payload h1 A ptr n r m (Z.min n size)) as (c & Hr & Hc1 & Hc2); try done; try lia.
  eexists r, _, p'. split; [done|]. right. right. by exists m, c.
Qed.

(** ** Initialisation *)

Lemma init_heap_pages {P} `{!PageSource P} n s (p : P) :
  0 ≤ s → s + Z.of_nat n * 4096 < 2 ^ 64 →
  match for_until n 0 init_heap_page (s, p) with
  | inl (e, _) => e = s + Z.of_nat n * 4096
  | inr _ => True
  end.
Proof.
  intros Hs Hn.
  pose proof (for_until_ind (λ i (x : Z * P), 0 ≤ i ∧ x.1 = s + i * 4096) (λ _ : unit, True)
    n 0 init_heap_page (s, p)) as H.
  destruct (for_until n 0 init_heap_page (s, p)) as [[e p']|]; [|done].
  destruct H as [_ H]; [split; [done|cbn; lia]| |rewrite Z.add_0_l in H; exact H].
  intros i [e0 p0] Hi [_ E]. cbn in E. subst e0. unfold init_heap_page.
  destruct (ps_alloc p0) as [phys p1]. case_if; [done|].
  destruct (ps_map _ phys p1) as [r p2]. case_if; [done|].
  split; [lia|]. cbn. unfold PAGE_SIZE. rewrite u64_small by lia. lia.
Qed.

(** The heap after initialisation over memory that held [stale]. *)
Definition initial_heap (stale : gmap Z Z) : heap :=
  let s := 0xFFFFFFFF00000000 in
  let h := Heap stale s (s + 65536) 0 0 0 in
  let h := set_prev s 0 (set_next s 0 (set_size_and_flags s 65537 h)) in
  set_total_free 65528 (set_free_list s h).

Lemma initial_heap_rel stale : heap_rel (initial_heap stale) (AHeap ∅ (λ _, 0)).
Proof.
  unfold initial_heap. exists [Blk 65536 true], [0xFFFFFFFF00000000].
  split_and!; [split| |]; cbn [heap_start heap_end h_mem set_size_and_flags set_next set_prev
    set_free_list set_total_free put64 set_h_mem].
  - split; [|done|done|done|done|by exists 1].
    cbn [heap_start heap_end h_mem set_size_and_flags set_next set_prev set_free_list set_total_free put64 set_h_mem].
    split; [done|split; [|done]].
    rewrite !load_store_ne by lia. rewrite load_store_eq by done. done.
  - split; [done|]. cbn [h_mem set_size_and_flags set_next set_prev set_free_list set_total_free put64 set_h_mem dll].
    split; [|split; [|done]].
    + rewrite load_store_ne by lia. by apply load_store_eq.
    + by apply load_store_eq.
  - intros q n. cbn. split; [done|]. by intros ?%not_elem_of_nil.
  - intros z (q & n & Hq & _). done.
Qed.

(** Unless it halts because pages run out, [kheap_init]
    leaves a heap without allocations, sixteen pages long, whose counters say
    so. *)
Theorem kheap_init_ok {P} `{!PageSource P} stale (p : P) :
  match kheap_init stale p with
  | Halted => ∃ u, for_until INITIAL_HEAP_PAGES 0 init_heap_page (0xFFFFFFFF00000000, p) = inr u
  | Done (h, _) =>
      heap_rel h (AHeap ∅ (λ _, 0)) ∧ heap_end h = heap_start h + 16 * 4096 ∧
      kheap_get_used h = 0 ∧ kheap_get_free h = 16 * 4096 - 8
  end.
Proof.
  unfold kheap_init. pose proof (init_heap_pages INITIAL_HEAP_PAGES 0xFFFFFFFF00000000 p) as H.
  destruct (for_until INITIAL_HEAP_PAGES 0 init_heap_page (0xFFFFFFFF00000000, p)) as [[e p']|u];
    [|by exists u].
  rewrite H by (done || unfold INITIAL_HEAP_PAGES; lia). clear H.
  split; [exact (initial_heap_rel stale)|done].
Qed.

(** ** The kernel heap on a concrete machine

    The initial heap over the sixty-four-page machine, the theorems applied to
    it, and runs that show where the allocator departs from its interface:
    requests of at most eight bytes, sizes near the top of the address range,
    and the count of free bytes. *)
From S2P Require Import VmmWalk VmmMap VmmProps VmmCow VmmFree.

Definition heap0 : heap := initial_heap ∅.

Definition empty_aheap : aheap := AHeap ∅ (λ _, 0).


Lemma kheap_get_used_exact_witness : kheap_get_used heap0 = 0.
Proof. exact (kheap_get_used_exact heap0 empty_aheap (initial_heap_rel ∅)). Defined.

Lemma kzalloc_zeroed_witness :
  match kzalloc 40 heap0 machine with
  | Some (ptr, h', _) => ptr = 0xFFFFFFFF00000008 ∧ rd (h_mem h') (ptr + 39) = 0
  | None => False
  end.
Proof.
  destruct (kzalloc_zeroed 40 heap0 empty_aheap machine (initial_heap_rel ∅) ltac:(lia) ltac:(cbn; lia))
    as (ptr & h' & p' & E & H).
  assert (match kzalloc 40 heap0 machine with Some (q, _, _) => q = 0xFFFFFFFF00000008 | None => False end)
    as Hq by (vm_compute; reflexivity).
  rewrite E in Hq |- *. split; [exact Hq|].
  destruct H as [[E0 _]|(n & c & _ & _ & Hz)]; [rewrite Hq in E0; discriminate E0|].
  apply Hz. lia.
Defined.

(** Growing a 100-byte allocation to 2000 bytes moves it. *)
Lemma krealloc_preserves_witness :
  match kmalloc 100 heap0 machine with
  | Some (ptr, h1, p1) =>
      ptr = 0xFFFFFFFF00000008 ∧
      ∃ r h' p', krealloc ptr 2000 h1 p1 = Some (r, h', p') ∧ r ≠ ptr
  | None => False
  end.
Proof.
  destruct (kmalloc_rel 100 heap0 empty_aheap machine (initial_heap_rel ∅) ltac:(lia) ltac:(cbn; lia))
    as (ptr & h1 & p1 & E & H).
  assert (match kmalloc 100 heap0 machine with
          | Some (q, h, p) => q = 0xFFFFFFFF00000008 ∧ heap_end h = 0xFFFFFFFF00010000 ∧
              match krealloc q 2000 h p with Some (r, _, _) => (r =? q) = false | None => False end
          | None => False end) as Hq by (vm_compute; auto).
  rewrite E in Hq |- *. destruct Hq as (Hq & He & Hr). split; [exact Hq|].
  destruct H as [[E0 _]|(n & _ & _ & _ & _ & _ & Hrel)]; [rewrite Hq in E0; discriminate E0|].
  destruct (krealloc_preserves ptr n 2000 h1 _ p1 Hrel (lookup_insert_eq _ _ _) ltac:(lia)
    ltac:(rewrite He; lia)) as (r & h' & p' & E' & _).
  exists r, h', p'. split; [exact E'|]. rewrite E' in Hr. apply Z.eqb_neq. exact Hr.
Defined.

(** ** Departures from the interface *)

(** An eight-byte allocation takes 24 bytes but its header reads back as 16:
    after it is freed the heap still counts 8 bytes as allocated. *)
Theorem small_allocation_leaks :
  match kmalloc 8 heap0 machine with
  | Some (ptr, h1, _) =>
      kheap_get_used h1 = 16 ∧ block_size h1 (data_to_block ptr) = 16 ∧
      kheap_get_used (kfree ptr h1) = 8
  | None => False
  end.
Proof. vm_compute. auto. Qed.

(** A request close to 2^64 wraps and is granted a 24-byte block. *)
Theorem huge_allocation_granted :
  match kmalloc (2 ^ 64 - 8) heap0 machine with
  | Some (ptr, h1, _) => ptr = 0xFFFFFFFF00000008 ∧ size_and_flags h1 (data_to_block ptr) = 24
  | None => False
  end.
Proof. vm_compute. auto. Qed.

(** Splitting the initial block once makes the free counter 8 larger than the
    usable bytes of the only free block. *)
Theorem free_counter_overcounts :
  match kmalloc 100 heap0 machine with
  | Some (_, h1, _) => kheap_get_free h1 = block_size h1 (free_list h1)
  | None => False
  end.
Proof. vm_compute. reflexivity. Qed.
