(* ===== verification/Console.v ===== *)
(** * Framebuffer console ([drivers/tty/console.c])

    Text and pixel output with a ring of scrollback lines.  Video memory is a
    map from the signed element offset [fb[...]] indexes, relative to the
    framebuffer's address, to the pixel stored there.  The font is built from
    a file outside the sources and is a parameter. *)
From S2P Require Import Prelude.
Local Open Scope Z_scope.

Definition SCROLLBACK_LINES : Z := 1000.
Definition MAX_COLS : Z := 160.
Definition CURSOR_BLINK_TICKS : Z := 50.
Definition CURSOR_COLOR : Z := 0xCCCCCC.

(** ** State *)

Record console_cell := Cell { ch : Z; color : Z }.

Record console_line := Line { cells : gmap Z console_cell; length_ : Z }.

(** The scrollback ring, the view into it and the write column. *)
Record sback := Sback {
  scrollback : gmap Z console_line;
  scrollback_head : Z;
  scrollback_count : Z;
  view_offset : Z;
  current_col : Z;
}.

Record limine_framebuffer := Fb { width : Z; height : Z; pitch : Z }.

Record cursor := Cursor {
  cursor_visible : bool;
  cursor_enabled : bool;
  cursor_last_toggle : Z;
  cursor_draw_x : Z;
  cursor_draw_y : Z;
}.

Record console := Con {
  con_sb : sback;
  framebuffer : option limine_framebuffer;
  screen_rows : Z;
  screen_cols : Z;
  con_cur : cursor;
  fullscreen_mode : Z;
  vram : gmap Z Z;
}.

Definition set_sb (s : sback) (c : console) : console :=
  Con s (framebuffer c) (screen_rows c) (screen_cols c) (con_cur c) (fullscreen_mode c) (vram c).

Definition set_cur (k : cursor) (c : console) : console :=
  Con (con_sb c) (framebuffer c) (screen_rows c) (screen_cols c) k (fullscreen_mode c) (vram c).

Definition set_vram (v : gmap Z Z) (c : console) : console :=
  Con (con_sb c) (framebuffer c) (screen_rows c) (screen_cols c) (con_cur c) (fullscreen_mode c) v.

Definition set_view_offset (v : Z) (s : sback) : sback :=
  Sback (scrollback s) (scrollback_head s) (scrollback_count s) v (current_col s).

Definition set_current_col (v : Z) (s : sback) : sback :=
  Sback (scrollback s) (scrollback_head s) (scrollback_count s) (view_offset s) v.

(** Lines and cells never written are zero, as static storage is. *)
Definition zero_cell : console_cell := Cell 0 0.
Definition zero_line : console_line := Line ∅ 0.
Definition get_line (s : sback) (i : Z) : console_line := default zero_line (scrollback s !! i).
Definition get_cell (l : console_line) (i : Z) : console_cell := default zero_cell (cells l !! i).

Definition set_line (i : Z) (l : console_line) (s : sback) : sback :=
  Sback (<[i := l]> (scrollback s)) (scrollback_head s) (scrollback_count s) (view_offset s) (current_col s).

Definition set_length (n : Z) (l : console_line) : console_line := Line (cells l) n.

(** ** Scrollback ring *)

Definition scrollback_init (s : sback) : sback :=
  set_line 0 (set_length 0 (get_line s 0)) (Sback (scrollback s) 0 1 0 0).

Definition scrollback_newline (s : sback) : sback :=
  let head := Z.rem (scrollback_head s + 1) SCROLLBACK_LINES in
  let count := if scrollback_count s <? SCROLLBACK_LINES
               then scrollback_count s + 1 else scrollback_count s in
  set_line head (set_length 0 (get_line s head)) (Sback (scrollback s) head count (view_offset s) 0).

Definition scrollback_putchar (c colr : Z) (s : sback) : sback :=
  if current_col s <? MAX_COLS then
    let line := get_line s (scrollback_head s) in
    let line := Line (<[current_col s := Cell c colr]> (cells line)) (length_ line) in
    let s := set_current_col (current_col s + 1) s in
    set_line (scrollback_head s) (set_length (current_col s) line) s
  else s.

Definition scrollback_get_line (lines_from_bottom : Z) (s : sback) : option console_line :=
  if scrollback_count s <=? lines_from_bottom then None
  else Some (get_line s
    (Z.rem (scrollback_head s - lines_from_bottom + SCROLLBACK_LINES) SCROLLBACK_LINES)).

(** Returns the two out-parameters [x] and [y]. *)
Definition get_cursor_position (c : console) : Z * Z :=
  let cursor_row := scrollback_count (con_sb c) - 1 in
  let cursor_row := if screen_rows c <=? cursor_row then screen_rows c - 1 else cursor_row in
  (current_col (con_sb c) * 8, cursor_row * 16).

(** ** Drawing *)

(** The doubly nested loop of the drawing primitives: [nrows] by [ncols]
    pixels from ([x], [y]) take the values of [f]. *)
Definition draw_block (pitch4 x y : Z) (nrows ncols : nat) (f : Z → Z → Z) (v : gmap Z Z) : gmap Z Z :=
  for_loop nrows 0 (λ row v,
    for_loop ncols 0 (λ col v, <[(y + row) * pitch4 + (x + col) := f row col]> v) v) v.

Definition console_fill_rect (x y w h colr : Z) (c : console) : console :=
  match framebuffer c with
  | None => c
  | Some fb =>
      let fb_w := s32 (width fb) in
      let fb_h := s32 (height fb) in
      set_vram (draw_block (pitch fb / 4) x y (Z.to_nat (Z.min h (fb_h - y)))
        (Z.to_nat (Z.min w (fb_w - x))) (λ _ _, colr) (vram c)) c
  end.

Definition console_draw_image (px : Z → Z) (img_w img_h x y : Z) (c : console) : console :=
  match framebuffer c with
  | None => c
  | Some fb =>
      let fb_w := s32 (width fb) in
      let fb_h := s32 (height fb) in
      set_vram (draw_block (pitch fb / 4) x y (Z.to_nat (Z.min img_h (fb_h - y)))
        (Z.to_nat (Z.min img_w (fb_w - x))) (λ row col, px (row * img_w + col)) (vram c)) c
  end.

Section Font.
(** [font_data]: sixteen bytes per character, one bit per pixel. *)
Context (font_data : Z → Z).

Definition glyph_pixel (c colr row col : Z) : Z :=
  if tst (font_data (u8 c * 16 + row)) (Z.shiftr 0x80 col) then colr else 0.

Definition console_draw_char (c x y colr : Z) (con : console) : console :=
  match framebuffer con with
  | None => con
  | Some fb =>
      let fb_w := s32 (width fb) in
      let fb_h := s32 (height fb) in
      if (x <? 0) || (y <? 0) || (fb_w <=? x) || (fb_h <=? y) then con
      else
        let max_row := if fb_h <? y + 16 then fb_h - y else 16 in
        let max_col := if fb_w <? x + 8 then fb_w - x else 8 in
        set_vram (draw_block (pitch fb / 4) x y (Z.to_nat max_row) (Z.to_nat max_col)
          (glyph_pixel c colr) (vram con)) con
  end.

Fixpoint console_draw_string (str : list Z) (x y colr : Z) (con : console) : console :=
  match str with
  | [] => con
  | c :: str => console_draw_string str (x + 8) y colr (console_draw_char c x y colr con)
  end.

(** One row of [render_view]. *)
Definition render_row (row : Z) (c : console) : console :=
  let lines_from_bottom := view_offset (con_sb c) + (screen_rows c - 1 - row) in
  match scrollback_get_line lines_from_bottom (con_sb c) with
  | None => c
  | Some line =>
      let y := row * 16 in
      for_loop (Z.to_nat (Z.min (length_ line) (screen_cols c))) 0 (λ col c,
        let cl := get_cell line col in
        console_draw_char (ch cl) (col * 8) y (color cl) c) c
  end.

Definition render_view (c : console) : console :=
  match framebuffer c with
  | None => c
  | Some fb =>
      let c := console_fill_rect 0 0 (s32 (width fb)) (s32 (height fb)) 0 c in
      for_loop (Z.to_nat (screen_rows c)) 0 render_row c
  end.

(** ** Text cursor *)

Definition draw_cursor (c : console) : console :=
  match framebuffer c with
  | None => c
  | Some fb =>
      if 0 <? view_offset (con_sb c) then c
      else
        let '(x, y) := get_cursor_position c in
        if (x <? 0) || (y <? 0) || (s32 (width fb) <=? x) || (s32 (height fb) <? y + 16) then c
        else
          let c := console_fill_rect x (y + 14) 8 2 CURSOR_COLOR c in
          let k := con_cur c in
          set_cur (Cursor (cursor_visible k) (cursor_enabled k) (cursor_last_toggle k) x y) c
  end.

Definition erase_cursor (c : console) : console :=
  match framebuffer c with
  | None => c
  | Some fb =>
      let x := cursor_draw_x (con_cur c) in
      let y := cursor_draw_y (con_cur c) in
      if (x <? 0) || (y <? 0) || (s32 (width fb) <=? x) || (s32 (height fb) <? y + 16) then c
      else console_fill_rect x (y + 14) 8 2 0 c
  end.

Definition set_cursor_visible (b : bool) (c : console) : console :=
  let k := con_cur c in
  set_cur (Cursor b (cursor_enabled k) (cursor_last_toggle k) (cursor_draw_x k) (cursor_draw_y k)) c.

Definition set_last_toggle (t : Z) (c : console) : console :=
  let k := con_cur c in
  set_cur (Cursor (cursor_visible k) (cursor_enabled k) t (cursor_draw_x k) (cursor_draw_y k)) c.

Definition console_update_cursor (ticks : Z) (c : console) : console :=
  if negb (cursor_enabled (con_cur c)) || (0 <? view_offset (con_sb c)) then c
  else
    let '(cur_x, cur_y) := get_cursor_position c in
    if cursor_visible (con_cur c) &&
       (negb (cur_x =? cursor_draw_x (con_cur c)) || negb (cur_y =? cursor_draw_y (con_cur c))) then
      set_last_toggle ticks (draw_cursor (erase_cursor c))
    else if CURSOR_BLINK_TICKS <=? u64 (ticks - cursor_last_toggle (con_cur c)) then
      let c := set_last_toggle ticks c in
      if cursor_visible (con_cur c) then set_cursor_visible false (erase_cursor c)
      else set_cursor_visible true (draw_cursor c)
    else c.

Definition console_hide_cursor (c : console) : console :=
  if cursor_visible (con_cur c) then set_cursor_visible false (erase_cursor c) else c.

Definition console_show_cursor (c : console) : console :=
  if negb (cursor_visible (con_cur c)) && (view_offset (con_sb c) =? 0)
  then set_cursor_visible true (draw_cursor c) else c.

Definition console_set_fullscreen (enabled : Z) (c : console) : console :=
  let c := Con (con_sb c) (framebuffer c) (screen_rows c) (screen_cols c) (con_cur c) enabled (vram c) in
  if negb (enabled =? 0) then console_hide_cursor c else console_show_cursor c.

Definition console_get_fullscreen (c : console) : Z := fullscreen_mode c.

(** ** Initialisation, clearing, cursor position *)

Definition console_init (fb : option limine_framebuffer) (c : console) : console :=
  let k := Cursor false true 0 0 0 in
  let '(cols, rows) :=
    match fb with
    | Some fb => (s32 (width fb / 8), s32 (height fb / 16))
    | None => (80, 25)
    end in
  Con (scrollback_init (con_sb c)) fb rows cols k (fullscreen_mode c) (vram c).

Definition console_clear (colr : Z) (c : console) : console :=
  match framebuffer c with
  | None => c
  | Some fb =>
      let c := console_fill_rect 0 0 (s32 (width fb)) (s32 (height fb)) colr c in
      set_sb (scrollback_init (con_sb c)) c
  end.

Definition console_get_cursor (c : console) : Z * Z := get_cursor_position c.

(** The [while] loop of [console_set_cursor]: every turn adds a line, so
    [SCROLLBACK_LINES] turns are enough. *)
Fixpoint add_rows (fuel : nat) (target_row : Z) (s : sback) : sback :=
  match fuel with
  | O => s
  | S fuel' =>
      if (scrollback_count s <=? target_row) && (scrollback_count s <? SCROLLBACK_LINES)
      then add_rows fuel' target_row (scrollback_newline s) else s
  end.

Definition console_set_cursor (x y : Z) (c : console) : console :=
  let col := Z.quot x 8 in
  let col := if MAX_COLS <=? col then MAX_COLS - 1 else col in
  let target_row := Z.quot y 16 in
  set_sb (add_rows (Z.to_nat SCROLLBACK_LINES) target_row (set_current_col col (con_sb c))) c.

Definition console_get_dimensions (c : console) : Z * Z := (screen_cols c, screen_rows c).

(** ** Writing characters *)

Definition NL : Z := 10.
Definition CR : Z := 13.
Definition BS : Z := 8.
Definition TAB : Z := 9.
Definition SPACE : Z := 32.

(** [if (scrollback_count > screen_rows) render_view();] after a new line. *)
Definition newline_render (c : console) : console :=
  let c := set_sb (scrollback_newline (con_sb c)) c in
  if screen_rows c <? scrollback_count (con_sb c) then render_view c else c.

(** The tab: up to four cells recorded, then drawn. *)
Definition put_tab (screen_row colr : Z) (c : console) : console :=
  let old_col := current_col (con_sb c) in
  let c := for_loop 4 0 (λ _ c,
    if current_col (con_sb c) <? MAX_COLS
    then set_sb (scrollback_putchar SPACE colr (con_sb c)) c else c) c in
  for_loop (Z.to_nat (current_col (con_sb c) - old_col)) old_col (λ i c,
    console_draw_char SPACE (i * 8) (screen_row * 16) colr c) c.

Definition console_putchar (ch colr : Z) (c : console) : console :=
  match framebuffer c with
  | None => c
  | Some _ =>
      if negb (fullscreen_mode c =? 0) then c
      else
        let c := if 0 <? view_offset (con_sb c)
                 then render_view (set_sb (set_view_offset 0 (con_sb c)) c) else c in
        let screen_row := scrollback_count (con_sb c) - 1 in
        let screen_row := if screen_rows c <=? screen_row then screen_rows c - 1 else screen_row in
        let c :=
          if ch =? NL then newline_render c
          else if ch =? CR then set_sb (set_current_col 0 (con_sb c)) c
          else if ch =? BS then
            if 0 <? current_col (con_sb c) then
              let s := set_current_col (current_col (con_sb c) - 1) (con_sb c) in
              let s := set_line (scrollback_head s)
                         (set_length (current_col s) (get_line s (scrollback_head s))) s in
              console_fill_rect (current_col s * 8) (screen_row * 16) 8 16 0 (set_sb s c)
            else c
          else if ch =? TAB then put_tab screen_row colr c
          else
            let draw_col := current_col (con_sb c) in
            let c := set_sb (scrollback_putchar ch colr (con_sb c)) c in
            console_draw_char ch (draw_col * 8) (screen_row * 16) colr c in
        if screen_cols c <=? current_col (con_sb c) then newline_render c else c
  end.

Fixpoint console_puts (str : list Z) (colr : Z) (c : console) : console :=
  match str with
  | [] => c
  | x :: str => console_puts str colr (console_putchar x colr c)
  end.

(** ** Scrolling *)

Definition console_scroll_back (lines : Z) (c : console) : console :=
  match framebuffer c with
  | None => c
  | Some _ =>
      if lines <=? 0 then c
      else
        let s := con_sb c in
        let max_offset := if screen_rows c <? scrollback_count s
                          then scrollback_count s - screen_rows c else 0 in
        let v := s32 (view_offset s + lines) in
        let v := if max_offset <? v then max_offset else v in
        render_view (set_sb (set_view_offset v s) c)
  end.

Definition console_scroll_forward (lines : Z) (c : console) : console :=
  match framebuffer c with
  | None => c
  | Some _ =>
      if lines <=? 0 then c
      else
        let s := con_sb c in
        let v := view_offset s - lines in
        let v := if v <? 0 then 0 else v in
        render_view (set_sb (set_view_offset v s) c)
  end.

Definition console_scroll_to_bottom (c : console) : console :=
  if view_offset (con_sb c) =? 0 then c
  else
    let c := render_view (set_sb (set_view_offset 0 (con_sb c)) c) in
    if cursor_visible (con_cur c) then draw_cursor c else c.

Definition console_is_scrolled_back (c : console) : bool := 0 <? view_offset (con_sb c).

End Font.
