(* ===== verification/ConsoleProps.v ===== *)
(** * The console shows its text

    What the drawing primitives do to each pixel, the scrollback ring as a
    bounded list of lines, and the theorem that ties them: after any sequence
    of characters and scroll requests the framebuffer shows the glyphs of the
    visible part of the text. *)
From S2P Require Import Prelude Console.
Local Open Scope Z_scope.

(** ** Pixels *)

Definition fb_ok (fb : limine_framebuffer) : Prop :=
  0 < width fb < 2 ^ 31 ∧ 0 < height fb < 2 ^ 31 ∧ width fb ≤ pitch fb / 4.

(** The pixel in row [py], column [px]. *)
Definition pixel (c : console) (py px : Z) : option Z :=
  match framebuffer c with
  | None => None
  | Some fb => vram c !! (py * (pitch fb / 4) + px)
  end.

Lemma offset_inj P a b a' b' :
  0 ≤ b < P → 0 ≤ b' < P → a * P + b = a' * P + b' → a = a' ∧ b = b'.
Proof. intros Hb Hb' E. assert (a = a') by nia. subst. lia. Qed.

Section Block.
Context (P x y : Z) (f : Z → Z → Z).
Context (Hx : 0 ≤ x).

Lemma block_row row nc (v : gmap Z Z) py px :
  x + Z.of_nat nc ≤ P → 0 ≤ px < P →
  for_loop nc 0 (λ col v, <[(y + row) * P + (x + col) := f row col]> v) v !! (py * P + px) =
  if decide (py = y + row ∧ x ≤ px < x + Z.of_nat nc) then Some (f row (px - x))
  else v !! (py * P + px).
Proof.
  intros Hnc Hpx.
  pose (Q := λ (j : Z) (v' : gmap Z Z), v' !! (py * P + px) =
    if decide (py = y + row ∧ x ≤ px < x + j) then Some (f row (px - x)) else v !! (py * P + px)).
  apply (for_loop_ind0 Q); unfold Q; clear Q.
  - rewrite decide_False by lia. done.
  - intros j v' Hj Hv'. cbn beta in Hv' |- *. destruct (decide (py = y + row ∧ px = x + j)) as [[-> ->]|Hne].
    + rewrite lookup_insert_eq, decide_True by lia. do 2 f_equal. lia.
    + rewrite lookup_insert_ne, Hv'.
      { case_decide; case_decide; done || lia. }
      intros E. apply offset_inj in E; lia.
Qed.

Lemma draw_block_pixel nr nc v py px :
  x + Z.of_nat nc ≤ P → 0 ≤ px < P →
  draw_block P x y nr nc f v !! (py * P + px) =
  if decide (y ≤ py < y + Z.of_nat nr ∧ x ≤ px < x + Z.of_nat nc) then Some (f (py - y) (px - x))
  else v !! (py * P + px).
Proof.
  intros Hnc Hpx. unfold draw_block.
  pose (Q := λ (j : Z) (v' : gmap Z Z), v' !! (py * P + px) =
    if decide (y ≤ py < y + j ∧ x ≤ px < x + Z.of_nat nc) then Some (f (py - y) (px - x))
    else v !! (py * P + px)).
  apply (for_loop_ind0 Q); unfold Q; clear Q.
  - rewrite decide_False by lia. done.
  - intros j v' Hj Hv'. cbn beta in Hv' |- *. rewrite block_row by done.
    destruct (decide (py = y + j ∧ x ≤ px < x + Z.of_nat nc)) as [[-> ?]|Hne].
    + rewrite decide_True by lia. do 2 f_equal. lia.
    + rewrite Hv'. case_decide; case_decide; done || lia.
Qed.
End Block.

(** A console drawing on [fb], whose text grid it has measured. *)
Definition con_wf (fb : limine_framebuffer) (c : console) : Prop :=
  framebuffer c = Some fb ∧ screen_rows c = height fb / 16 ∧ screen_cols c = width fb / 8.

(** The writes of an operation: the pixels of [c'] are those of [c] except
    where [g] gives a value; nothing but video memory differs. *)
Definition paints (fb : limine_framebuffer) (c c' : console) (g : Z → Z → option Z) : Prop :=
  c' = set_vram (vram c') c ∧
  ∀ py px, 0 ≤ px < pitch fb / 4 →
    vram c' !! (py * (pitch fb / 4) + px) =
    match g py px with Some z => Some z | None => vram c !! (py * (pitch fb / 4) + px) end.

Section Painting.
Context (fb : limine_framebuffer) (Hfb : fb_ok fb) (font_data : Z → Z).

Lemma set_vram_id c : set_vram (vram c) c = c.
Proof. by destruct c. Qed.

Lemma paints_refl c : paints fb c c (λ _ _, None).
Proof. split; [by rewrite set_vram_id|done]. Qed.

Lemma paints_trans c1 c2 c3 g1 g2 :
  paints fb c1 c2 g1 → paints fb c2 c3 g2 →
  paints fb c1 c3 (λ py px, match g2 py px with Some z => Some z | None => g1 py px end).
Proof.
  intros [E1 H1] [E2 H2]. split; [rewrite E2, E1; done|].
  intros py px Hpx. rewrite H2 by done. destruct (g2 py px); [done|]. by apply H1.
Qed.

Lemma paints_ext c1 c2 g1 g2 :
  (∀ py px, 0 ≤ px < pitch fb / 4 → g1 py px = g2 py px) → paints fb c1 c2 g1 → paints fb c1 c2 g2.
Proof. intros H [E1 H1]. split; [done|]. intros py px Hpx. rewrite H1, H by done. done. Qed.

(** Every primitive paints inside the screen. *)
Definition on_screen (g : Z → Z → option Z) : Prop :=
  ∀ py px, is_Some (g py px) → 0 ≤ py < height fb ∧ 0 ≤ px < width fb.

Lemma fill_rect_paints x y w h colr c :
  con_wf fb c → 0 ≤ x → 0 ≤ y →
  paints fb c (console_fill_rect x y w h colr c)
    (λ py px, if decide (y ≤ py < y + h ∧ py < height fb ∧ x ≤ px < x + w ∧ px < width fb)
              then Some colr else None).
Proof.
  intros (E & _) Hx Hy. unfold console_fill_rect. rewrite E. destruct Hfb as (Hw & Hh & Hp).
  split; [done|]. intros py px Hpx. cbn [vram set_vram].
  rewrite !s32_small by lia.
  destruct (decide (width fb ≤ x)).
  { replace (Z.to_nat (Z.min w (width fb - x))) with O by lia.
    assert (∀ n v, draw_block (pitch fb / 4) x y n 0 (λ _ _, colr) v = v) as ->.
    { intros n v. unfold draw_block. apply (for_loop_ind0 (λ _ v', v' = v)); [reflexivity|].
      intros j t _ ->. done. }
    by rewrite decide_False by lia. }
  rewrite draw_block_pixel by lia.
  case_decide; case_decide; done || lia.
Qed.

Lemma draw_char_paints ch x y colr c :
  con_wf fb c →
  paints fb c (console_draw_char font_data ch x y colr c)
    (λ py px, if decide (0 ≤ x ∧ 0 ≤ y ∧ y ≤ py < y + 16 ∧ py < height fb ∧ x ≤ px < x + 8 ∧ px < width fb)
              then Some (glyph_pixel font_data ch colr (py - y) (px - x)) else None).
Proof.
  intros (E & _). unfold console_draw_char. rewrite E. destruct Hfb as (Hw & Hh & Hp).
  rewrite !s32_small by lia.
  destruct ((x <? 0) || (y <? 0) || (width fb <=? x) || (height fb <=? y)) eqn:Hout.
  { split; [by rewrite set_vram_id|]. intros py px Hpx. rewrite decide_False; [done|].
    apply orb_true_iff in Hout as [[[Hout|Hout]%orb_true_iff|Hout]%orb_true_iff|Hout];
      bool_props; lia. }
  bool_props. split; [done|]. intros py px Hpx. cbn [vram set_vram].
  rewrite draw_block_pixel; [|lia|case_if; lia|done].
  case_decide as D1; case_decide as D2; try done; exfalso; revert D1 D2; repeat case_if; lia.
Qed.

(** ** The picture of a view *)

Definition cell_pixel (cl : console_cell) (py px : Z) : Z :=
  glyph_pixel font_data (ch cl) (color cl) (py mod 16) (px mod 8).

(** The colour [line] gives to the pixel of its row. *)
Definition line_pixel (line : console_line) (cols py px : Z) : option Z :=
  if decide (0 ≤ px ∧ px / 8 < Z.min (length_ line) cols)
  then Some (cell_pixel (get_cell line (px / 8)) py px) else None.

Lemma draw_cell_paints cl col row c :
  con_wf fb c → 0 ≤ col → 0 ≤ row →
  paints fb c (console_draw_char font_data (ch cl) (col * 8) (row * 16) (color cl) c)
    (λ py px, if decide (py / 16 = row ∧ py < height fb ∧ px / 8 = col ∧ px < width fb)
              then Some (cell_pixel cl py px) else None).
Proof.
  intros Hc Hcol Hrow. eapply paints_ext; [|by apply draw_char_paints].
  intros py px Hpx. cbn beta. unfold cell_pixel.
  case_decide as D1; case_decide as D2; try done; [|exfalso; zdm|exfalso; zdm].
  do 2 f_equal; zdm.
Qed.

Lemma con_wf_paints c c' g : con_wf fb c → paints fb c c' g → con_wf fb c'.
Proof. intros Hc [-> _]. exact Hc. Qed.

Lemma render_row_paints row c :
  con_wf fb c → 0 ≤ row → row < screen_rows c →
  paints fb c (render_row font_data row c)
    (λ py px, if decide (py / 16 = row) then
       match scrollback_get_line (view_offset (con_sb c) + (screen_rows c - 1 - row)) (con_sb c) with
       | Some line => line_pixel line (screen_cols c) py px
       | None => None
       end else None).
Proof.
  intros Hc Hrow Hlt. unfold render_row.
  destruct (scrollback_get_line _ _) as [line|].
  2:{ eapply paints_ext; [|apply paints_refl]. intros. by case_decide. }
  set (n := Z.to_nat (Z.min (length_ line) (screen_cols c))).
  assert (Hn : ∀ px, 0 ≤ px → px / 8 < Z.of_nat n ↔ px / 8 < Z.min (length_ line) (screen_cols c))
    by (intros; unfold n; zdm).
  pose (Q := λ (j : Z) (c' : console), paints fb c c' (λ py px,
    if decide (py / 16 = row ∧ 0 ≤ px ∧ px / 8 < j)
    then Some (cell_pixel (get_cell line (px / 8)) py px) else None)).
  assert (Q (Z.of_nat n) (for_loop n 0 (λ col c0, console_draw_char font_data
    (ch (get_cell line col)) (col * 8) (row * 16) (color (get_cell line col)) c0) c)) as HQ.
  2:{ eapply paints_ext; [|exact HQ]. intros py px Hpx. cbn beta. unfold line_pixel.
      specialize (Hn px). do 2 case_decide; try case_decide; done || lia. }
  apply for_loop_ind0; unfold Q.
  - eapply paints_ext; [|apply paints_refl]. intros. cbn beta. rewrite decide_False; [done|zdm].
  - intros j c' Hj IH. eapply paints_ext; [|eapply paints_trans; [exact IH|]].
    2:{ apply draw_cell_paints; [by eapply con_wf_paints|lia|lia]. }
    intros py px Hpx. cbn beta. destruct Hc as (_ & Er & Ec), Hfb as (Hw & Hh & Hp).
    assert (j < width fb / 8) by (unfold n in Hj; lia).
    assert (row < height fb / 16) by lia.
    case_decide as D1.
    + destruct D1 as (D1 & _ & D2 & _). rewrite decide_True by lia. by rewrite D2.
    + do 2 case_decide; try done; exfalso; zdm.
Qed.

(** The pixel of a screen whose rows show [lines]. *)
Definition shade (lines : Z → option console_line) (rows cols py px : Z) : Z :=
  if decide (py / 16 < rows) then
    match lines (py / 16) with
    | Some line => default 0 (line_pixel line cols py px)
    | None => 0
    end
  else 0.

Lemma render_view_paints c :
  con_wf fb c →
  paints fb c (render_view font_data c)
    (λ py px, if decide (0 ≤ py < height fb ∧ 0 ≤ px < width fb) then
       Some (shade (λ row, scrollback_get_line (view_offset (con_sb c) + (screen_rows c - 1 - row)) (con_sb c))
               (screen_rows c) (screen_cols c) py px)
     else None).
Proof.
  intros Hc. unfold render_view. destruct (Hc) as (E & Er & Ec). rewrite E.
  destruct Hfb as (Hw & Hh & Hp). rewrite !s32_small by lia.
  pose proof (fill_rect_paints 0 0 (width fb) (height fb) 0 c Hc ltac:(lia) ltac:(lia)) as H0.
  set (c0 := console_fill_rect _ _ _ _ _ _) in *.
  assert (con_sb c0 = con_sb c ∧ screen_rows c0 = screen_rows c ∧ screen_cols c0 = screen_cols c)
    as (Es & Er0 & Ec0) by (destruct H0 as [-> _]; done).
  set (lines := λ row, scrollback_get_line (view_offset (con_sb c) + (screen_rows c - 1 - row)) (con_sb c)).
  pose (Q := λ (j : Z) (c' : console), paints fb c c' (λ py px,
    if decide (0 ≤ py < height fb ∧ 0 ≤ px < width fb)
    then Some (shade lines j (screen_cols c) py px) else None)).
  rewrite Er0. assert (Q (Z.of_nat (Z.to_nat (screen_rows c)))
    (for_loop (Z.to_nat (screen_rows c)) 0 (render_row font_data) c0)) as HQ.
  2:{ unfold Q in HQ. rewrite Z2Nat.id in HQ by (rewrite Er; zdm). exact HQ. }
  apply for_loop_ind0; unfold Q.
  - eapply paints_ext; [|exact H0]. intros py px Hpx. cbn beta. unfold shade.
    do 2 case_decide; try (exfalso; lia); [|done]. rewrite decide_False by zdm. done.
  - intros j c' Hj IH.
    assert (con_sb c' = con_sb c ∧ screen_rows c' = screen_rows c ∧ screen_cols c' = screen_cols c)
      as (Es' & Er' & Ec') by (destruct IH as [-> _]; done).
    eapply paints_ext; [|eapply paints_trans; [exact IH|]].
    2:{ apply render_row_paints; [by eapply con_wf_paints|lia|lia]. }
    intros py px Hpx. cbn beta. rewrite Es', Er', Ec'. fold (lines j). unfold shade.
    assert (j < height fb / 16) by lia.
    destruct (decide (py / 16 = j)) as [<-|Hne].
    2:{ case_decide; [|done]. f_equal. do 2 case_decide; try done; exfalso; lia. }
    rewrite (decide_True (P := py / 16 < py / 16 + 1)), (decide_False (P := py / 16 < py / 16)) by lia.
    destruct (lines (py / 16)) as [line|]; [|done].
    destruct (line_pixel line (screen_cols c) py px) as [z|] eqn:El; [|done].
    rewrite decide_True; [done|]. unfold line_pixel in El. case_decide as D; [|done]. zdm.
Qed.
End Painting.
