(* ===== verification/ConsoleSpec.v ===== *)
(** * The console as a text buffer

    The abstract console: a list of lines, newest first, of which the last
    thousand are kept, and a view offset into it.  The scrollback ring
    represents the list, and the framebuffer shows the visible lines. *)
From S2P Require Import Prelude Console ConsoleProps.
Local Open Scope Z_scope.

Abbreviation text := (list (list console_cell)).

(** ** The abstract text *)

Definition t_newline (t : text) : text := take 1000 ([] :: t).

Lemma t_newline_length t : length (t_newline t) = Nat.min 1000 (S (length t)).
Proof. unfold t_newline. by rewrite length_take. Qed.

(** The effect of a character other than newline on the current line. *)
Definition t_edit (c colr : Z) (cur : list console_cell) : list console_cell :=
  if c =? BS then take (pred (length cur)) cur
  else if c =? TAB then cur ++ replicate (4 `min` (160 - length cur)) (Cell SPACE colr)
  else cur ++ [Cell c colr].

Definition t_put (cols c colr : Z) (t : text) : text :=
  let t := if c =? NL then t_newline t
           else match t with [] => [] | cur :: old => t_edit c colr cur :: old end in
  if cols <=? Z.of_nat (length (hd [] t)) then t_newline t else t.

(** ** The ring represents a text *)

Definition line_rel (L : console_line) (l : list console_cell) : Prop :=
  length_ L = Z.of_nat (length l) ∧ ∀ i x, l !! i = Some x → get_cell L (Z.of_nat i) = x.

Definition slot (s : sback) (k : nat) : Z := (scrollback_head s - Z.of_nat k) mod 1000.

Record ring_rel (s : sback) (t : text) : Prop := {
  rr_count : scrollback_count s = Z.of_nat (length t);
  rr_max : (length t ≤ 1000)%nat;
  rr_head : 0 ≤ scrollback_head s < 1000;
  rr_col : ∃ cur old, t = cur :: old ∧ current_col s = Z.of_nat (length cur);
  rr_lines : ∀ k l, t !! k = Some l → line_rel (get_line s (slot s k)) l;
}.

Lemma get_line_rel s t k :
  ring_rel s t → 0 ≤ k →
  match scrollback_get_line k s with
  | Some L => ∃ l, t !! Z.to_nat k = Some l ∧ line_rel L l
  | None => t !! Z.to_nat k = None
  end.
Proof.
  intros [Hc Hm Hh _ Hl] Hk. unfold scrollback_get_line, SCROLLBACK_LINES. case_if.
  - apply lookup_ge_None_2. lia.
  - destruct (lookup_lt_is_Some_2 t (Z.to_nat k)) as [l El]; [lia|]. exists l. split; [done|].
    pose proof (Hl _ _ El) as H. unfold slot in H. rewrite Z2Nat.id in H by done.
    rewrite Z.rem_mod_nonneg by lia.
    replace ((scrollback_head s - k + 1000) mod 1000) with ((scrollback_head s - k) mod 1000) by zdm.
    done.
Qed.

Lemma get_set_line s i j l :
  get_line (set_line i l s) j = if decide (i = j) then l else get_line s j.
Proof.
  unfold get_line, set_line. cbn [scrollback]. rewrite lookup_insert. by case_decide.
Qed.

Lemma get_line_col s n i : get_line (set_current_col n s) i = get_line s i.
Proof. done. Qed.

Lemma newline_rel s t : ring_rel s t → ring_rel (scrollback_newline s) (t_newline t).
Proof.
  intros [Hc Hm Hh (cur & old & -> & Hcol) Hl].
  unfold scrollback_newline, SCROLLBACK_LINES, t_newline.
  assert (E : Z.rem (scrollback_head s + 1) 1000 = (scrollback_head s + 1) mod 1000)
    by (apply Z.rem_mod_nonneg; lia). rewrite E.
  assert (length (take 1000 ([] :: cur :: old)) = Nat.min 1000 (S (length (cur :: old)))) as El
    by (rewrite length_take; done).
  split.
  - cbn [scrollback_count set_line]. rewrite El. case_if; lia.
  - rewrite El. lia.
  - cbn [scrollback_head set_line]. zdm.
  - cbn [current_col set_line]. exists [], (take 999 (cur :: old)). done.
  - intros k l Hk. rewrite get_set_line. unfold slot. cbn [scrollback_head set_line].
    destruct k as [|k].
    + simpl in Hk. injection Hk as <-. rewrite decide_True; [|zdm].
      split; [done|]. intros i x. by rewrite lookup_nil.
    + assert (S k < length (take 1000 ([] :: cur :: old)))%nat
        by (by eapply lookup_lt_Some). rewrite El in H.
      rewrite decide_False by zdm.
      rewrite lookup_take in Hk. case_decide; [|done]. simpl in Hk.
      replace ((_ - Z.of_nat (S k)) mod 1000) with (slot s k) by (unfold slot; zdm).
      apply Hl. done.
Qed.

(** Replacing the current line. *)
Lemma edit_rel s cur old L cur' :
  ring_rel s (cur :: old) → line_rel L cur' →
  ring_rel (set_line (scrollback_head s) L (set_current_col (Z.of_nat (length cur')) s)) (cur' :: old).
Proof.
  intros [Hc Hm Hh _ Hl] HL. split; [done|done|done|by exists cur', old|].
  intros k l Hk. rewrite get_set_line, get_line_col. unfold slot.
  cbn [scrollback_head set_line set_current_col].
  destruct k as [|k]; simpl in Hk.
  - injection Hk as <-. rewrite decide_True by zdm. done.
  - assert (k < length old)%nat by (by eapply lookup_lt_Some). simpl in Hm.
    rewrite decide_False by zdm. apply Hl. done.
Qed.

Lemma putchar_line_rel L cur x :
  line_rel L cur →
  line_rel (Line (<[Z.of_nat (length cur) := x]> (cells L)) (Z.of_nat (length (cur ++ [x])))) (cur ++ [x]).
Proof.
  intros [_ H]. split; [done|]. intros i y Hi. unfold get_cell. cbn [cells].
  apply lookup_app_Some in Hi as [Hi|[Hge Hi]].
  - assert (i < length cur)%nat by (by eapply lookup_lt_Some).
    rewrite lookup_insert_ne by lia. by apply H.
  - assert (i - length cur < 1)%nat by (by apply lookup_lt_Some in Hi).
    replace (i - length cur)%nat with O in Hi by lia. injection Hi as ->.
    replace i with (length cur) by lia. by rewrite lookup_insert_eq.
Qed.

Lemma putchar_rel s cur old c colr :
  ring_rel s (cur :: old) → (length cur < 160)%nat →
  ring_rel (scrollback_putchar c colr s) ((cur ++ [Cell c colr]) :: old).
Proof.
  intros Hr Hlt. pose proof Hr as [_ _ _ (? & ? & [= <- <-] & Hcol) Hl].
  unfold scrollback_putchar, MAX_COLS. rewrite Hcol.
  assert ((Z.of_nat (length cur) <? 160) = true) as -> by lia.
  cbn [current_col set_current_col scrollback_head set_length cells].
  replace (Z.of_nat (length cur) + 1) with (Z.of_nat (length (cur ++ [Cell c colr])))
    by (rewrite length_app; simpl; lia).
  apply (edit_rel s cur old); [done|]. apply putchar_line_rel.
  specialize (Hl O cur eq_refl). unfold slot in Hl.
  by replace ((scrollback_head s - Z.of_nat 0) mod 1000) with (scrollback_head s) in Hl
    by (destruct Hr; zdm).
Qed.

Lemma backspace_rel s cur old :
  ring_rel s (cur :: old) → cur ≠ [] →
  let s' := set_current_col (current_col s - 1) s in
  ring_rel (set_line (scrollback_head s') (set_length (current_col s') (get_line s' (scrollback_head s'))) s')
    (take (pred (length cur)) cur :: old).
Proof.
  intros Hr Hne s'. pose proof Hr as [_ _ _ (? & ? & [= <- <-] & Hcol) Hl]. unfold s'.
  cbn [current_col set_current_col scrollback_head]. rewrite Hcol, get_line_col.
  assert (length cur ≠ O) by (by destruct cur).
  assert (El : length (take (pred (length cur)) cur) = pred (length cur)) by (rewrite length_take; lia).
  replace (Z.of_nat (length cur) - 1) with (Z.of_nat (length (take (pred (length cur)) cur)))
    by (rewrite El; lia).
  apply (edit_rel s cur old); [done|].
  specialize (Hl O cur eq_refl). unfold slot in Hl.
  replace ((scrollback_head s - Z.of_nat 0) mod 1000) with (scrollback_head s) in Hl
    by (destruct Hr; zdm).
  destruct Hl as [_ Hl]. split; [done|]. intros i x Hi.
  rewrite lookup_take in Hi. case_decide; [|done]. by apply Hl.
Qed.

(** ** The framebuffer shows the text *)

(** The line in screen row [row]: the text starts at the top until it fills
    the screen; from then on its visible part ends [v] lines above the last. *)
Definition shown (rows v : Z) (t : text) (row : Z) : list console_cell :=
  let k := v + (Z.min (Z.of_nat (length t)) rows - 1 - row) in
  if k <? 0 then [] else default [] (t !! Z.to_nat k).

Section Shows.
Context (font_data : Z → Z) (fb : limine_framebuffer) (Hfb : fb_ok fb).

Definition text_pixel (l : list console_cell) (py px : Z) : Z :=
  match l !! Z.to_nat (px / 8) with
  | Some cl => cell_pixel font_data cl py px
  | None => 0
  end.

Definition picture (c : console) (t : text) (v : Z) : Prop :=
  ∀ py px, 0 ≤ py < 16 * screen_rows c → 0 ≤ px < 8 * screen_cols c →
    pixel c py px = Some (text_pixel (shown (screen_rows c) v t (py / 16)) py px).

Record shows (c : console) (t : text) (v : Z) : Prop := {
  sh_wf : con_wf fb c;
  sh_ring : ring_rel (con_sb c) t;
  sh_view : view_offset (con_sb c) = v;
  sh_range : v = 0 ∨ 0 < v ≤ Z.of_nat (length t) - screen_rows c;
  sh_full : fullscreen_mode c = 0;
  sh_cursor : cursor_visible (con_cur c) = false;
  sh_picture : picture c t v;
}.

Lemma line_pixel_rel L l cols py px :
  line_rel L l → 0 ≤ px < 8 * cols → default 0 (line_pixel font_data L cols py px) = text_pixel l py px.
Proof.
  intros [Hlen Hl] Hpx. unfold line_pixel, text_pixel. case_decide as D.
  - destruct (lookup_lt_is_Some_2 l (Z.to_nat (px / 8))) as [x Hx]; [zdm|].
    rewrite Hx. specialize (Hl _ _ Hx). rewrite Z2Nat.id in Hl by zdm. by rewrite Hl.
  - rewrite lookup_ge_None_2; [done|]. zdm.
Qed.

Lemma paints_pixel c c' g py px :
  con_wf fb c → paints fb c c' g → 0 ≤ px < 8 * screen_cols c →
  pixel c' py px = match g py px with Some z => Some z | None => pixel c py px end.
Proof.
  intros (E & _ & Ec) [Ev Hv] Hpx. destruct Hfb as (Hw & Hh & Hp).
  assert (framebuffer c' = Some fb) as E' by (rewrite Ev; done).
  unfold pixel. rewrite E', E. apply Hv. split; [lia|]. rewrite Ec in Hpx. zdm.
Qed.

(** Rendering a view draws its picture, once the text fills the screen. *)
Lemma render_shows c t v :
  con_wf fb c → ring_rel (con_sb c) t → view_offset (con_sb c) = v → 0 ≤ v ≤ Z.of_nat (length t) - screen_rows c →
  fullscreen_mode c = 0 → cursor_visible (con_cur c) = false →
  shows (render_view font_data c) t v.
Proof.
  intros Hwf Hr Hv Hran Hful Hcur. pose proof (render_view_paints fb Hfb font_data c Hwf) as Hp.
  pose proof Hp as [Ev _].
  assert (con_sb (render_view font_data c) = con_sb c ∧ screen_rows (render_view font_data c) = screen_rows c
    ∧ screen_cols (render_view font_data c) = screen_cols c) as (Es & Er & Ec) by (rewrite Ev; done).
  split; [by eapply con_wf_paints|by rewrite Es|by rewrite Es|rewrite Er; lia|by rewrite Ev|by rewrite Ev|].
  intros py px Hpy Hpx. rewrite Er in *. rewrite Ec in *.
  rewrite (paints_pixel c _ _ py px Hwf Hp Hpx). cbn beta.
  destruct Hwf as (_ & Er0 & Ec0). rewrite decide_True by zdm. f_equal.
  unfold shade. rewrite decide_True by zdm. rewrite Hv. unfold shown.
  replace (Z.min _ _) with (screen_rows c) by lia.
  set (k := v + (screen_rows c - 1 - py / 16)).
  assert (0 ≤ k) by (unfold k; zdm). assert ((k <? 0) = false) as -> by lia.
  pose proof (get_line_rel _ _ k Hr ltac:(lia)) as Hg.
  destruct (scrollback_get_line k (con_sb c)) as [L|].
  - destruct Hg as (l & -> & HL). by apply line_pixel_rel.
  - by rewrite Hg.
Qed.

Lemma newline_render_shows c t :
  shows c t 0 → 1 ≤ screen_rows c < 1000 → shows (newline_render font_data c) (t_newline t) 0.
Proof.
  intros [Hwf Hr Hv Hran Hful Hcur Hpic] Hrows. unfold newline_render.
  pose proof (newline_rel _ _ Hr) as Hr'. set (s' := scrollback_newline (con_sb c)) in *.
  assert (view_offset s' = 0) as Hv' by exact Hv.
  pose proof (rr_count _ _ Hr') as Hc'. cbn [con_sb set_sb screen_rows].
  case_if.
  - apply render_shows; [done..|cbn [set_sb screen_rows]; lia|done|done].
  - split; [done|done|done|by left|done|done|]. intros py px Hpy Hpx. cbn [set_sb screen_rows screen_cols] in *.
    transitivity (pixel c py px); [done|]. rewrite Hpic by done. do 2 f_equal.
    unfold shown. rewrite <- Hc'. pose proof (t_newline_length t) as El.
    assert (length (t_newline t) = S (length t)) as El' by lia. clear El. rename El' into El.
    rewrite El in Hc'. replace (Z.min (scrollback_count s') _) with (Z.of_nat (S (length t))) by lia.
    replace (Z.min (Z.of_nat (length t)) _) with (Z.of_nat (length t)) by lia.
    unfold t_newline. assert (0 ≤ py / 16) by zdm. set (r := py / 16) in *.
    case_if; case_if; try done; [|lia|].
    + replace (Z.to_nat _) with O by lia. done.
    + rewrite lookup_take, decide_True by (pose proof (rr_max _ _ Hr'); lia).
      replace (Z.to_nat (0 + (Z.of_nat (S (length t)) - 1 - r))) with
        (S (Z.to_nat (0 + (Z.of_nat (length t) - 1 - r)))) by lia. done.
Qed.

(** Redrawing cells of the current line. *)
Lemma edit_shows c c' cur old s' cur' g :
  shows c (cur :: old) 0 → ring_rel s' (cur' :: old) → view_offset s' = 0 →
  paints fb (set_sb s' c) c' g →
  (∀ py px, 0 ≤ px < 8 * screen_cols c → 0 ≤ py < 16 * screen_rows c →
     match g py px with
     | Some z => py / 16 = Z.min (Z.of_nat (length (cur :: old))) (screen_rows c) - 1 ∧ z = text_pixel cur' py px
     | None => py / 16 = Z.min (Z.of_nat (length (cur :: old))) (screen_rows c) - 1 →
         text_pixel cur' py px = text_pixel cur py px
     end) →
  shows c' (cur' :: old) 0.
Proof.
  intros [Hwf Hr Hv Hran Hful Hcur Hpic] Hr' Hv' Hp Hg. pose proof Hp as [Ev _].
  assert (con_sb c' = s' ∧ screen_rows c' = screen_rows c ∧ screen_cols c' = screen_cols c)
    as (Es & Er & Ec) by (rewrite Ev; done).
  split; [by apply (con_wf_paints fb (set_sb s' c) c' g)|by rewrite Es|by rewrite Es|by left
         |by rewrite Ev|by rewrite Ev|].
  intros py px Hpy Hpx. rewrite Er in *. rewrite Ec in *.
  rewrite (paints_pixel (set_sb s' c) _ _ py px Hwf Hp Hpx).
  specialize (Hg py px Hpx Hpy). specialize (Hpic py px Hpy Hpx).
  change (pixel (set_sb s' c) py px) with (pixel c py px). rewrite Hpic.
  unfold shown. change (length (cur' :: old)) with (length (cur :: old)).
  set (m := Z.min _ _) in *. set (k := 0 + (m - 1 - py / 16)).
  destruct (decide (k = 0)) as [Ek|Ek].
  - rewrite Ek. cbn. assert (py / 16 = m - 1) as Hrow by (unfold k in Ek; lia).
    destruct (g py px) as [z|]; [by destruct Hg as [_ ->]|]. f_equal. symmetry. exact (Hg Hrow).
  - destruct (g py px) as [z|]; [destruct Hg; unfold k in Ek; lia|]. do 2 f_equal.
    case_if; [done|]. destruct (Z.to_nat k) eqn:E0; [lia|done].
Qed.

(** Text pixels of an extended and of a shortened line. *)
Lemma text_pixel_app l l' py px :
  0 ≤ px → px / 8 < Z.of_nat (length l) → text_pixel (l ++ l') py px = text_pixel l py px.
Proof. intros H0 H. unfold text_pixel. rewrite lookup_app_l by zdm. done. Qed.

Lemma text_pixel_beyond l py px : 0 ≤ px → Z.of_nat (length l) ≤ px / 8 → text_pixel l py px = 0.
Proof. intros H0 H. unfold text_pixel. rewrite lookup_ge_None_2 by zdm. done. Qed.

Lemma text_pixel_at l cl py px :
  l !! Z.to_nat (px / 8) = Some cl → text_pixel l py px = cell_pixel font_data cl py px.
Proof. intros H. unfold text_pixel. by rewrite H. Qed.

(** The row the cursor is in. *)
Lemma cursor_row s t rows :
  ring_rel s t →
  (if rows <=? scrollback_count s - 1 then rows - 1 else scrollback_count s - 1) =
  Z.min (Z.of_nat (length t)) rows - 1.
Proof. intros Hr. rewrite (rr_count _ _ Hr). case_if; lia. Qed.

Lemma text_nonempty s cur old : ring_rel s (cur :: old) → current_col s = Z.of_nat (length cur).
Proof. intros [_ _ _ (? & ? & [= <- <-] & H) _]. done. Qed.

Lemma putc_shows c cur old ch colr :
  shows c (cur :: old) 0 → Z.of_nat (length cur) < screen_cols c ≤ 160 → 1 ≤ screen_rows c →
  let row := Z.min (Z.of_nat (length (cur :: old))) (screen_rows c) - 1 in
  shows (console_draw_char font_data ch (Z.of_nat (length cur) * 8) (row * 16) colr
          (set_sb (scrollback_putchar ch colr (con_sb c)) c))
    ((cur ++ [Cell ch colr]) :: old) 0.
Proof.
  intros Hsh Hlen Hrows row. pose proof Hsh as [Hwf Hr Hv _ _ _ _].
  pose proof (putchar_rel _ _ _ ch colr Hr ltac:(lia)) as Hr'.
  eapply edit_shows; [exact Hsh|exact Hr'| | |].
  - unfold scrollback_putchar. case_if; exact Hv.
  - apply (draw_cell_paints fb Hfb font_data (Cell ch colr)); [exact Hwf|lia|unfold row; simpl; lia].
  - intros py px Hpx Hpy. cbn beta. fold row. case_decide as D.
    + destruct D as (D1 & _ & D2 & _). split; [done|]. symmetry. apply text_pixel_at.
      rewrite D2, Nat2Z.id. apply list_lookup_middle. done.
    + intros Hrow. destruct (decide (px / 8 < Z.of_nat (length cur))); [apply text_pixel_app; lia|].
      destruct Hwf as (_ & Er & Ec).
      rewrite !text_pixel_beyond; [done|lia|lia|lia|]. rewrite length_app. simpl.
      assert (px / 8 ≠ Z.of_nat (length cur)); [|lia]. intros E. apply D. zdm.
Qed.

Lemma backspace_shows c cur old :
  shows c (cur :: old) 0 → cur ≠ [] → 1 ≤ screen_rows c →
  let row := Z.min (Z.of_nat (length (cur :: old))) (screen_rows c) - 1 in
  let s := set_current_col (current_col (con_sb c) - 1) (con_sb c) in
  let s := set_line (scrollback_head s) (set_length (current_col s) (get_line s (scrollback_head s))) s in
  shows (console_fill_rect (current_col s * 8) (row * 16) 8 16 0 (set_sb s c))
    (take (pred (length cur)) cur :: old) 0.
Proof.
  intros Hsh Hne Hrows row s1 s. pose proof Hsh as [Hwf Hr Hv _ _ _ _].
  pose proof (backspace_rel _ _ _ Hr Hne) as Hr'. fold s1 in Hr'. fold s in Hr'.
  assert (Hcol : current_col s = Z.of_nat (length cur) - 1)
    by (unfold s, s1; cbn [current_col set_line set_current_col]; by rewrite (text_nonempty _ _ _ Hr)).
  assert (length cur ≠ O) by (by destruct cur).
  eapply edit_shows; [exact Hsh|exact Hr'|exact Hv| |].
  - apply (fill_rect_paints fb Hfb); [exact Hwf|lia|unfold row; simpl; lia].
  - intros py px Hpx Hpy. cbn beta. fold row. case_decide as D.
    + split; [zdm|]. symmetry. apply text_pixel_beyond; [lia|]. rewrite length_take. zdm.
    + intros Hrow. destruct Hwf as (_ & Er & Ec). unfold text_pixel. rewrite lookup_take.
      case_decide; [done|]. rewrite lookup_ge_None_2; [done|]. zdm.
Qed.

(** ** Tabs *)

Lemma tab_ring colr c cur old :
  ring_rel (con_sb c) (cur :: old) →
  ∃ s', for_loop 4 0 (λ _ c, if current_col (con_sb c) <? MAX_COLS
          then set_sb (scrollback_putchar SPACE colr (con_sb c)) c else c) c = set_sb s' c ∧
    view_offset s' = view_offset (con_sb c) ∧
    ring_rel s' ((cur ++ replicate (4 `min` (160 - length cur)) (Cell SPACE colr)) :: old).
Proof.
  intros Hr. pose (Q := λ (j : Z) (c' : console), ∃ s', c' = set_sb s' c ∧
    view_offset s' = view_offset (con_sb c) ∧
    ring_rel s' ((cur ++ replicate (Z.to_nat j `min` (160 - length cur)) (Cell SPACE colr)) :: old)).
  apply (for_loop_ind0 Q 4); unfold Q.
  - exists (con_sb c). rewrite app_nil_r. split; [by destruct c|done].
  - intros j c' Hj (s' & -> & Hv & Hr'). cbn [con_sb set_sb].
    rewrite (text_nonempty _ _ _ Hr'), length_app, length_replicate. unfold MAX_COLS.
    case_if.
    + exists (scrollback_putchar SPACE colr s'). split; [done|]. split.
      { unfold scrollback_putchar. case_if; exact Hv. }
      replace (Z.to_nat (j + 1) `min` (160 - length cur))%nat
        with (S (Z.to_nat j `min` (160 - length cur))) by lia.
      rewrite replicate_S_end, app_assoc. apply putchar_rel; [done|].
      rewrite length_app, length_replicate. lia.
    + exists s'. split; [done|split; [done|]].
      by replace (Z.to_nat (j + 1) `min` (160 - length cur))%nat
        with (Z.to_nat j `min` (160 - length cur))%nat by lia.
Qed.

Lemma draw_spaces_paints n col0 row colr c :
  con_wf fb c → 0 ≤ col0 → 0 ≤ row →
  paints fb c (for_loop n col0 (λ i c, console_draw_char font_data SPACE (i * 8) (row * 16) colr c) c)
    (λ py px, if decide (py / 16 = row ∧ py < height fb ∧ col0 ≤ px / 8 < col0 + Z.of_nat n ∧ px < width fb)
              then Some (cell_pixel font_data (Cell SPACE colr) py px) else None).
Proof.
  intros Hwf H0 Hrow. pose (Q := λ (j : Z) (c' : console), paints fb c c' (λ py px,
    if decide (py / 16 = row ∧ py < height fb ∧ col0 ≤ px / 8 < j ∧ px < width fb)
    then Some (cell_pixel font_data (Cell SPACE colr) py px) else None)).
  apply (for_loop_ind Q); unfold Q.
  - eapply paints_ext; [|apply paints_refl]. intros. cbn beta. rewrite decide_False by lia. done.
  - intros j c' Hj IH. eapply paints_ext; [|eapply paints_trans; [exact IH|]].
    2:{ apply (draw_cell_paints fb Hfb font_data (Cell SPACE colr)); [by eapply con_wf_paints|lia|lia]. }
    intros py px Hpx. cbn beta. repeat case_decide; done || lia.
Qed.

Lemma tab_shows c cur old colr :
  shows c (cur :: old) 0 → 1 ≤ screen_rows c →
  let row := Z.min (Z.of_nat (length (cur :: old))) (screen_rows c) - 1 in
  shows (put_tab font_data row colr c)
    ((cur ++ replicate (4 `min` (160 - length cur)) (Cell SPACE colr)) :: old) 0.
Proof.
  intros Hsh Hrows row. pose proof Hsh as [Hwf Hr Hv _ _ _ _].
  destruct (tab_ring colr c cur old Hr) as (s' & E & Hv' & Hr'). unfold put_tab. rewrite E.
  cbn [con_sb set_sb]. rewrite (text_nonempty _ _ _ Hr), (text_nonempty _ _ _ Hr').
  rewrite length_app, length_replicate.
  set (n := (4 `min` (160 - length cur))%nat) in *.
  replace (Z.to_nat (Z.of_nat (length cur + n) - Z.of_nat (length cur))) with n by lia.
  eapply edit_shows; [exact Hsh|exact Hr'|by rewrite Hv'| |].
  - apply draw_spaces_paints; [exact Hwf|lia|unfold row; simpl; lia].
  - intros py px Hpx Hpy. cbn beta. fold row. destruct Hwf as (_ & Er & Ec). case_decide as D.
    + split; [lia|]. symmetry. apply text_pixel_at.
      rewrite lookup_app_r by lia. apply lookup_replicate. split; [done|lia].
    + intros Hrow. destruct (decide (px / 8 < Z.of_nat (length cur))); [apply text_pixel_app; lia|].
      rewrite !text_pixel_beyond; [done|lia|lia|lia|]. rewrite length_app, length_replicate. zdm.
Qed.

(** ** Characters and scrolling *)

(** The text grid fits the ring. *)
Definition grid_ok : Prop := 1 ≤ height fb / 16 < 1000 ∧ 1 ≤ width fb / 8 ≤ 160.
Context (Hgrid : grid_ok).

(** A console in use: the current line has room. *)
Definition typing (c : console) (t : text) (v : Z) : Prop :=
  shows c t v ∧ Z.of_nat (length (hd [] t)) < width fb / 8.

Lemma shows_text c t v : shows c t v → ∃ cur old, t = cur :: old.
Proof. intros [_ [_ _ _ (cur & old & -> & _) _] _ _ _ _ _]. eauto. Qed.

Lemma unscroll_shows c t v :
  shows c t v →
  shows (if 0 <? view_offset (con_sb c)
         then render_view font_data (set_sb (set_view_offset 0 (con_sb c)) c) else c) t 0.
Proof.
  intros Hsh. pose proof Hsh as [Hwf [? ? ? ? ?] Hv Hran Hful Hcur _]. rewrite Hv. case_if.
  - apply render_shows; [done|by split|done|cbn [set_sb screen_rows]; lia|done|done].
  - by destruct Hran as [->|?]; [|lia].
Qed.

Lemma wrap_typing c t :
  shows c t 0 →
  let c' := if screen_cols c <=? current_col (con_sb c) then newline_render font_data c else c in
  typing c' (if width fb / 8 <=? Z.of_nat (length (hd [] t)) then t_newline t else t) 0.
Proof.
  intros Hsh. destruct (shows_text _ _ _ Hsh) as (cur & old & ->).
  pose proof Hsh as [(_ & Er & Ec) Hr _ _ _ _ _]. destruct Hgrid as [Hg1 Hg2].
  rewrite (text_nonempty _ _ _ Hr), Ec. cbn [hd]. case_if.
  - split; [apply newline_render_shows; [done|lia]|]. simpl. lia.
  - split; [done|]. simpl. lia.
Qed.

Lemma put_typing c t v ch colr :
  typing c t v → ch ≠ CR →
  typing (console_putchar font_data ch colr c) (t_put (width fb / 8) ch colr t) 0.
Proof.
  intros [Hsh Hlen] HCR. unfold console_putchar.
  pose proof Hsh as [(E & _) _ _ _ Hful _ _]. rewrite E, Hful. cbn [negb Z.eqb].
  pose proof (unscroll_shows _ _ _ Hsh) as Hsh0. set (c0 := if 0 <? _ then _ else _) in *. clearbody c0.
  clear Hsh E Hful. destruct (shows_text _ _ _ Hsh0) as (cur & old & ->). cbn [hd] in Hlen.
  pose proof Hsh0 as [(_ & Er & Ec) Hr _ _ _ _ _]. destruct Hgrid as [Hg1 Hg2].
  rewrite (cursor_row _ _ _ Hr). unfold t_put, t_edit. apply wrap_typing.
  destruct (ch =? NL); [apply newline_render_shows; [done|lia]|].
  destruct (Z.eqb_spec ch CR); [done|].
  destruct (ch =? BS).
  - rewrite (text_nonempty _ _ _ Hr). case_if.
    + rewrite <- (text_nonempty _ _ _ Hr). apply backspace_shows; [done|by intros ->|lia].
    + destruct cur; [done|simpl in *; lia].
  - destruct (ch =? TAB); [apply tab_shows; [done|lia]|].
    rewrite (text_nonempty _ _ _ Hr). apply putc_shows; [done|lia|lia].
Qed.

Inductive console_event :=
| Put (c colr : Z)
| ScrollBack (lines : Z)
| ScrollForward (lines : Z)
| ScrollBottom.

Definition console_exec (e : console_event) (c : console) : console :=
  match e with
  | Put ch colr => console_putchar font_data ch colr c
  | ScrollBack n => console_scroll_back font_data n c
  | ScrollForward n => console_scroll_forward font_data n c
  | ScrollBottom => console_scroll_to_bottom font_data c
  end.

(** The same on the text and its view offset. *)
Definition text_exec (e : console_event) (s : text * Z) : text * Z :=
  let '(t, v) := s in
  match e with
  | Put ch colr => (t_put (width fb / 8) ch colr t, 0)
  | ScrollBack n => (t, if n <=? 0 then v else Z.min (v + n) (Z.of_nat (length t) - height fb / 16))
  | ScrollForward n => (t, if n <=? 0 then v else Z.max 0 (v - n))
  | ScrollBottom => (t, 0)
  end.

(** Carriage returns are left out, and scrolling starts once the text fills
    the screen. *)
Definition event_ok (s : text * Z) (e : console_event) : Prop :=
  match e with
  | Put ch _ => ch ≠ CR
  | ScrollBack n | ScrollForward n => n < 2 ^ 30 ∧ height fb / 16 ≤ Z.of_nat (length s.1)
  | ScrollBottom => True
  end.

Fixpoint events_ok (s : text * Z) (es : list console_event) : Prop :=
  match es with
  | [] => True
  | e :: es => event_ok s e ∧ events_ok (text_exec e s) es
  end.

Lemma event_typing c s e :
  typing c s.1 s.2 → event_ok s e →
  typing (console_exec e c) (text_exec e s).1 (text_exec e s).2.
Proof.
  destruct s as [t v]. cbn [fst snd]. intros Hty He. destruct e as [ch colr|n|n|]; cbn [console_exec text_exec fst snd].
  { by apply (put_typing c t v). }
  all: destruct Hty as [Hsh Hlen]; pose proof Hsh as [(E & Er & Ec) Hr Hv Hran Hful Hcur _];
    destruct Hgrid as [Hg1 Hg2]; pose proof Hr as [Hcnt Hmax ? ? ?]; simpl in He.
  - unfold console_scroll_back. rewrite E. case_if; [done|]. split; [|done].
    rewrite Hv, Hcnt, Er. unfold s32. rewrite swrap_small by lia.
    apply render_shows; [done|by split| |cbn [set_sb screen_rows]; lia|done|done].
    cbn [con_sb set_sb view_offset set_view_offset]. repeat case_if; lia.
  - unfold console_scroll_forward. rewrite E. case_if; [done|]. split; [|done]. rewrite Hv.
    apply render_shows; [done|by split| |cbn [set_sb screen_rows]; lia|done|done].
    cbn [con_sb set_sb view_offset set_view_offset]. repeat case_if; lia.
  - split; [|done]. unfold console_scroll_to_bottom. rewrite Hv. destruct (Z.eqb_spec v 0) as [->|]; [exact Hsh|].
    assert (shows (render_view font_data (set_sb (set_view_offset 0 (con_sb c)) c)) t 0) as H'
      by (apply render_shows; [done|by split|done|cbn [set_sb screen_rows]; lia|done|done]).
    by rewrite (sh_cursor _ _ _ H').
Qed.

Definition console_run (es : list console_event) (c : console) : console :=
  fold_left (λ c e, console_exec e c) es c.

Definition text_run (es : list console_event) (s : text * Z) : text * Z :=
  fold_left (λ s e, text_exec e s) es s.

Lemma events_typing es c s :
  typing c s.1 s.2 → events_ok s es →
  typing (console_run es c) (text_run es s).1 (text_run es s).2.
Proof.
  revert c s. induction es as [|e es IH]; intros c s Hty Hok; [done|].
  destruct Hok as [He Hes]. apply (IH (console_exec e c) (text_exec e s)); [|done].
  by apply event_typing.
Qed.

Lemma clear_typing c :
  con_wf fb c → fullscreen_mode c = 0 → cursor_visible (con_cur c) = false →
  typing (console_clear 0 c) [[]] 0.
Proof.
  intros Hwf Hful Hcur. unfold console_clear. destruct (Hwf) as (E & Er & Ec). rewrite E.
  pose proof (fill_rect_paints fb Hfb 0 0 (s32 (width fb)) (s32 (height fb)) 0 c Hwf ltac:(lia) ltac:(lia)) as Hp.
  set (c' := console_fill_rect _ _ _ _ _ _) in *. pose proof Hp as [Ev _]. destruct Hgrid as [Hg1 Hg2].
  destruct (Hfb) as (Hw & Hh & _). split; [|simpl; lia].
  assert (screen_rows c' = screen_rows c ∧ screen_cols c' = screen_cols c) as [Er' Ec'] by (by rewrite Ev).
  split.
  - rewrite Ev. exact Hwf.
  - split; [done|simpl; lia|done|by exists [], []|].
    intros k l Hk. destruct k; [|done]. injection Hk as <-. cbn [con_sb set_sb]. unfold scrollback_init.
    rewrite get_set_line, decide_True by done. split; [done|]. intros i x. by rewrite lookup_nil.
  - done.
  - by left.
  - by rewrite Ev.
  - by rewrite Ev.
  - intros py px Hpy Hpx. cbn [set_sb screen_rows screen_cols] in *. rewrite Er' in *. rewrite Ec' in *.
    change (pixel (set_sb _ c') py px) with (pixel c' py px).
    rewrite (paints_pixel c _ _ py px Hwf Hp Hpx). cbn beta. rewrite !s32_small by lia.
    rewrite decide_True by zdm. f_equal. unfold shown, text_pixel. case_if; [by rewrite lookup_nil|].
    destruct (Z.to_nat (_ + _)) as [|[|]]; cbn [default lookup list_lookup]; by rewrite ?lookup_nil.
Qed.
End Shows.

