(* ===== verification/ConsoleBounds.v ===== *)
(** * The console writes only to the framebuffer

    Every operation of the console keeps its state well-formed and changes no
    memory outside the framebuffer. *)
From S2P Require Import Prelude Console ConsoleProps ConsoleSpec.
Local Open Scope Z_scope.

Section Bounds.
Context (font_data : Z → Z) (fb : limine_framebuffer) (Hfb : fb_ok fb) (Hrows : 1 ≤ height fb / 16).

Definition safe (c : console) : Prop :=
  con_wf fb c ∧ 1 ≤ scrollback_count (con_sb c).

(** From a safe state, [c'] is safe and differs in video memory only inside
    the framebuffer. *)
Definition confined (c c' : console) : Prop :=
  safe c → safe c' ∧ ∀ k, ¬ 0 ≤ k < pitch fb / 4 * height fb → vram c' !! k = vram c !! k.

#[local] Instance confined_preorder : PreOrder confined.
Proof.
  split.
  - intros c Hc. done.
  - intros c1 c2 c3 H12 H23 Hc. destruct (H12 Hc) as [Hc2 H2]. destruct (H23 Hc2) as [Hc3 H3].
    split; [done|]. intros k Hk. by rewrite H3, H2.
Qed.

Lemma paints_confined c c' g :
  (safe c → paints fb c c' g) → (∀ py px, 0 ≤ px → is_Some (g py px) → 0 ≤ py < height fb ∧ px < width fb) →
  confined c c'.
Proof.
  intros Hp Hg Hc. destruct (Hp Hc) as [Ev Hv]. split; [rewrite Ev; exact Hc|].
  destruct Hfb as (Hw & Hh & HP). intros k Hk. set (P := pitch fb / 4) in *.
  assert (k = k / P * P + k mod P) as -> by (rewrite (Z.mul_comm _ P); apply Z.div_mod; lia).
  assert (Hm : 0 ≤ k mod P < P) by (apply Z.mod_pos_bound; lia).
  rewrite Hv by done. destruct (g (k / P) (k mod P)) as [z|] eqn:E; [|done].
  exfalso. apply Hk. destruct (Hg (k / P) (k mod P)) as [H1 H2]; [lia|by rewrite E|].
  pose proof (Z.div_mod k P ltac:(lia)). nia.
Qed.

Lemma sb_confined c s : (safe c → 1 ≤ scrollback_count s) → confined c (set_sb s c).
Proof. intros H Hc. split; [split; [apply Hc|by apply H]|done]. Qed.

Lemma cur_confined c k : confined c (set_cur k c).
Proof. done. Qed.

Lemma fill_confined x y w h colr c : 0 ≤ x → 0 ≤ y → confined c (console_fill_rect x y w h colr c).
Proof.
  intros Hx Hy. eapply paints_confined; [intros [Hwf _]; by apply (fill_rect_paints fb Hfb)|].
  intros py px Hpx [z Hz]. cbn beta in Hz. case_decide; [lia|done].
Qed.

Lemma char_confined ch x y colr c : confined c (console_draw_char font_data ch x y colr c).
Proof.
  eapply paints_confined; [intros [Hwf _]; by apply (draw_char_paints fb Hfb)|].
  intros py px Hpx [z Hz]. cbn beta in Hz. case_decide; [lia|done].
Qed.

Lemma render_confined c : confined c (render_view font_data c).
Proof.
  eapply paints_confined; [intros [Hwf _]; by apply (render_view_paints fb Hfb)|].
  intros py px Hpx [z Hz]. cbn beta in Hz. case_decide; [lia|done].
Qed.

Lemma image_confined px iw ih x y c : 0 ≤ x → 0 ≤ y → confined c (console_draw_image px iw ih x y c).
Proof.
  intros Hx Hy. destruct Hfb as (Hw & Hh & HP).
  unfold console_draw_image. destruct (framebuffer c) as [fb0|] eqn:E; [|done].
  eapply (paints_confined _ _ (λ qy qx, if decide (y ≤ qy < y + Z.of_nat (Z.to_nat (Z.min ih (height fb - y))) ∧
      x ≤ qx < x + Z.of_nat (Z.to_nat (Z.min iw (width fb - x))))
    then Some (px ((qy - y) * iw + (qx - x))) else None)).
  - intros [(E' & _) _]. rewrite E in E'. injection E' as ->. rewrite !s32_small by lia. split; [done|].
    intros qy qx Hq. cbn [vram set_vram]. destruct (decide (x ≤ width fb)).
    + rewrite draw_block_pixel by lia. by case_decide.
    + replace (Z.to_nat (Z.min iw (width fb - x))) with O by lia. rewrite decide_False by lia.
      unfold draw_block. apply (for_loop_ind0 (λ _ v', v' !! _ = vram c !! _)); [reflexivity|].
      intros j t _ H. exact H.
  - intros qy qx Hq [z Hz]. case_decide; [|done]. lia.
Qed.

Lemma for_loop_confined n i f c : (∀ j c', confined c' (f j c')) → confined c (for_loop n i f c).
Proof.
  intros Hf. apply (for_loop_ind (λ _ c', confined c c')); [done|].
  intros j t _ H. by transitivity t.
Qed.

Lemma newline_confined c : confined c (newline_render font_data c).
Proof.
  unfold newline_render. etransitivity; [apply (sb_confined c (scrollback_newline (con_sb c)))|].
  - intros [_ H]. cbn [scrollback_newline scrollback_count set_line]. case_if; lia.
  - case_if; [apply render_confined|done].
Qed.

Lemma confined_from c c' : (safe c → confined c c') → confined c c'.
Proof. intros H Hc. by apply (H Hc). Qed.

Lemma tab_confined row colr c : confined c (put_tab font_data row colr c).
Proof.
  unfold put_tab. etransitivity; [|apply for_loop_confined; intros; apply char_confined].
  apply for_loop_confined. intros j c'. case_if; [|done]. apply sb_confined.
  intros [_ H]. unfold scrollback_putchar. case_if; exact H.
Qed.

Lemma putchar_count c colr s : scrollback_count (scrollback_putchar c colr s) = scrollback_count s.
Proof. unfold scrollback_putchar. by case_if. Qed.

Lemma put_confined ch colr c : confined c (console_putchar font_data ch colr c).
Proof.
  unfold console_putchar. destruct (framebuffer c); [|done]. case_if; [done|].
  set (c0 := if 0 <? view_offset (con_sb c) then _ else c).
  transitivity c0.
  { unfold c0. case_if; [|done]. etransitivity; [|apply render_confined]. apply sb_confined. by intros []. }
  clearbody c0. clear c E l.
  set (row := if screen_rows c0 <=? scrollback_count (con_sb c0) - 1 then _ else _).
  set (c1 := if ch =? NL then _ else _). cbn zeta.
  transitivity c1; [|case_if; [apply newline_confined|done]]. unfold c1. clear c1.
  apply confined_from. intros [(_ & Er & _) Hcnt].
  assert (0 ≤ row) by (unfold row; case_if; lia). clearbody row.
  case_if; [apply newline_confined|]. case_if; [apply sb_confined; by intros []|].
  case_if; [|case_if; [apply tab_confined|]].
  - case_if; [|done]. etransitivity; [|apply fill_confined].
    + apply sb_confined. done.
    + cbn [current_col set_line set_current_col]. lia.
    + lia.
  - etransitivity; [|apply char_confined]. apply sb_confined. by rewrite putchar_count.
Qed.

Lemma draw_cursor_confined c : confined c (draw_cursor c).
Proof.
  unfold draw_cursor. destruct (framebuffer c); [|done]. case_if; [done|].
  destruct (get_cursor_position c) as [x y]. case_if; [done|].
  etransitivity; [|apply cur_confined]. apply fill_confined; lia.
Qed.

Lemma erase_cursor_confined c : confined c (erase_cursor c).
Proof. unfold erase_cursor. destruct (framebuffer c); [|done]. case_if; [done|]. apply fill_confined; lia. Qed.

Lemma visible_confined b c : confined c (set_cursor_visible b c).
Proof. apply cur_confined. Qed.

Lemma hide_confined c : confined c (console_hide_cursor c).
Proof.
  unfold console_hide_cursor. case_if; [|done]. etransitivity; [apply erase_cursor_confined|apply visible_confined].
Qed.

Lemma show_confined c : confined c (console_show_cursor c).
Proof.
  unfold console_show_cursor. case_if; [|done]. etransitivity; [apply draw_cursor_confined|apply visible_confined].
Qed.

Lemma update_cursor_confined ticks c : confined c (console_update_cursor ticks c).
Proof.
  unfold console_update_cursor. case_if; [done|]. destruct (get_cursor_position c) as [x y].
  case_if; [|case_if; [|done]].
  - transitivity (erase_cursor c); [apply erase_cursor_confined|].
    transitivity (draw_cursor (erase_cursor c)); [apply draw_cursor_confined|apply cur_confined].
  - transitivity (set_last_toggle ticks c); [apply cur_confined|].
    case_if; [transitivity (erase_cursor (set_last_toggle ticks c)); [apply erase_cursor_confined|]
             |transitivity (draw_cursor (set_last_toggle ticks c)); [apply draw_cursor_confined|]];
      apply visible_confined.
Qed.

Lemma add_rows_count n r s : 1 ≤ scrollback_count s → 1 ≤ scrollback_count (add_rows n r s).
Proof.
  revert s. induction n as [|n IH]; intros s Hs; [done|]. cbn [add_rows]. case_if; [|done].
  apply IH. cbn [scrollback_newline scrollback_count set_line]. case_if; lia.
Qed.

(** ** All operations *)

Inductive console_op :=
| OPuts (str : list Z) (colr : Z)
| OClear (colr : Z)
| OSetCursor (x y : Z)
| OFillRect (x y w h colr : Z)
| ODrawString (str : list Z) (x y colr : Z)
| ODrawImage (px : Z → Z) (w h x y : Z)
| OScrollBack (n : Z)
| OScrollForward (n : Z)
| OScrollToBottom
| OUpdateCursor (ticks : Z)
| OSetFullscreen (enabled : Z).

Definition op_exec (o : console_op) (c : console) : console :=
  match o with
  | OPuts str colr => console_puts font_data str colr c
  | OClear colr => console_clear colr c
  | OSetCursor x y => console_set_cursor x y c
  | OFillRect x y w h colr => console_fill_rect x y w h colr c
  | ODrawString str x y colr => console_draw_string font_data str x y colr c
  | ODrawImage px w h x y => console_draw_image px w h x y c
  | OScrollBack n => console_scroll_back font_data n c
  | OScrollForward n => console_scroll_forward font_data n c
  | OScrollToBottom => console_scroll_to_bottom font_data c
  | OUpdateCursor ticks => console_update_cursor ticks c
  | OSetFullscreen e => console_set_fullscreen e c
  end.

(** Rectangles and images have their corner at non-negative coordinates; the
    characters are clipped by the code. *)
Definition op_ok (o : console_op) : Prop :=
  match o with
  | OFillRect x y _ _ _ | ODrawImage _ _ _ x y => 0 ≤ x ∧ 0 ≤ y
  | _ => True
  end.

Lemma op_confined o c : op_ok o → confined c (op_exec o c).
Proof.
  destruct o as [str colr|colr|x y|x y w h colr|str x y colr|px w h x y|n|n| |ticks|e]; cbn [op_ok op_exec].
  - intros _. revert c. induction str as [|ch str IH]; intros c; [done|].
    transitivity (console_putchar font_data ch colr c); [apply put_confined|apply IH].
  - intros _. unfold console_clear. destruct (framebuffer c); [|done].
    etransitivity; [apply (fill_confined 0 0); lia|]. apply sb_confined. done.
  - intros _. apply sb_confined. intros [_ H]. by apply add_rows_count.
  - intros []. by apply fill_confined.
  - intros _. revert x c. induction str as [|ch str IH]; intros x c; [done|].
    etransitivity; [apply char_confined|apply IH].
  - intros []. by apply image_confined.
  - intros _. unfold console_scroll_back. destruct (framebuffer c); [|done]. case_if; [done|].
    etransitivity; [|apply render_confined]. apply sb_confined. by intros [].
  - intros _. unfold console_scroll_forward. destruct (framebuffer c); [|done]. case_if; [done|].
    etransitivity; [|apply render_confined]. apply sb_confined. by intros [].
  - intros _. unfold console_scroll_to_bottom. case_if; [done|].
    transitivity (render_view font_data (set_sb (set_view_offset 0 (con_sb c)) c)).
    { etransitivity; [|apply render_confined]. apply sb_confined. by intros []. }
    case_if; [apply draw_cursor_confined|done].
  - intros _. apply update_cursor_confined.
  - intros _. unfold console_set_fullscreen.
    transitivity (Con (con_sb c) (framebuffer c) (screen_rows c) (screen_cols c) (con_cur c) e (vram c)); [done|].
    case_if; [apply hide_confined|apply show_confined].
Qed.

Definition ops_run (os : list console_op) (c : console) : console := fold_left (λ c o, op_exec o c) os c.

Lemma ops_confined os c : Forall op_ok os → confined c (ops_run os c).
Proof.
  revert c. induction os as [|o os IH]; intros c Hos; [done|]. inversion_clear Hos.
  transitivity (op_exec o c); [by apply op_confined|by apply IH].
Qed.
End Bounds.


(** ** The console on a small screen

    A screen of three columns and two rows with a font whose letter A has one
    pixel, the theorems applied to it, and runs that show where screen,
    scrollback and cursor disagree. *)
Definition small_fb : limine_framebuffer := Fb 24 32 128.

(** Letters A to Z have their top left pixel set. *)
Definition dot_font (a : Z) : Z := if (65 * 16 <=? a) && (a <=? 90 * 16) && (a mod 16 =? 0) then 0x80 else 0.

Definition blank (fb : limine_framebuffer) : console :=
  console_init (Some fb) (Con (Sback ∅ 0 0 0 0) None 0 0 (Cursor false false 0 0 0) 0 ∅).



(** ** Departures *)

(** A carriage return followed by one character leaves the rest of the line on
    the screen but removes it from the scrollback line. *)
Theorem carriage_return_truncates :
  let c := console_puts dot_font [65; 66; CR; 67] 7 (console_clear 0 (blank small_fb)) in
  pixel c 0 8 = Some 7 ∧ length_ (get_line (con_sb c) 0) = 1 ∧ pixel (render_view dot_font c) 16 8 = Some 0.
Proof. vm_compute. auto. Qed.

(** Scrolling back while the text does not fill the screen moves it from the
    top to the bottom row. *)
Theorem short_scroll_moves_text :
  let c := console_puts dot_font [65] 7 (console_clear 0 (blank small_fb)) in
  let c' := console_scroll_back dot_font 1 c in
  pixel c 0 0 = Some 7 ∧ pixel c 16 0 = Some 0 ∧ pixel c' 0 0 = Some 0 ∧ pixel c' 16 0 = Some 7.
Proof. vm_compute. auto. Qed.

(** Setting the cursor below the last line forgets the column. *)
Theorem set_cursor_loses_column :
  console_get_cursor (console_set_cursor 16 16 (blank small_fb)) = (0, 16).
Proof. vm_compute. reflexivity. Qed.

(** On a screen wider than 160 columns a line never wraps: the characters
    after the 160th overwrite each other on the screen and are not recorded. *)
Theorem wide_screen_never_wraps :
  let c := console_puts dot_font (repeat 65 170) 7 (blank (Fb 1600 16 6400)) in
  current_col (con_sb c) = 160 ∧ scrollback_count (con_sb c) = 1.
Proof. vm_compute. auto. Qed.
