(* ===== verification/Keyboard.v ===== *)
(** * Keyboard driver ([drivers/input/keyboard.c])

    Scancode translation and the ring buffer between the interrupt handlers
    (keyboard and serial line) and the reader. *)
From S2P Require Import Prelude.
Local Open Scope Z_scope.

Definition KBD_BUFFER_SIZE : Z := 64.

Definition KEY_ESCAPE : Z := 0x1B.
Definition KEY_BACKSPACE : Z := 0x08.
Definition KEY_TAB : Z := 0x09.
Definition KEY_ENTER : Z := 0x0A.
Definition KEY_F1 : Z := 0x80.
Definition KEY_F11 : Z := 0x8A.
Definition KEY_UP : Z := 0x90.
Definition KEY_DOWN : Z := 0x91.
Definition KEY_LEFT : Z := 0x92.
Definition KEY_RIGHT : Z := 0x93.
Definition KEY_HOME : Z := 0x94.
Definition KEY_END : Z := 0x95.
Definition KEY_PAGEUP : Z := 0x96.
Definition KEY_PAGEDOWN : Z := 0x97.
Definition KEY_INSERT : Z := 0x98.
Definition KEY_DELETE : Z := 0x99.

(** ** Translation tables

    Entries 0 to 88 of the tables, as characters; the rest are zero. *)

(** Keys 59 to 88: function, cursor and keypad keys, the same in both tables. *)
Definition special_keys : list Z :=
  [KEY_F1; KEY_F1 + 1; KEY_F1 + 2; KEY_F1 + 3; KEY_F1 + 4;
   KEY_F1 + 5; KEY_F1 + 6; KEY_F1 + 7; KEY_F1 + 8; KEY_F1 + 9; 0; 0; KEY_HOME;
   KEY_UP; KEY_PAGEUP; 45; KEY_LEFT; 0; KEY_RIGHT; 43; KEY_END;
   KEY_DOWN; KEY_PAGEDOWN; KEY_INSERT; KEY_DELETE; 0; 0; 0; KEY_F11; KEY_F11 + 1].

Definition scancode_table : list Z :=
  [0; KEY_ESCAPE; 49; 50; 51; 52; 53; 54;                 (* 1 2 3 4 5 6 *)
   55; 56; 57; 48; 45; 61; KEY_BACKSPACE; KEY_TAB;         (* 7 8 9 0 - = *)
   113; 119; 101; 114; 116; 121; 117; 105;                 (* q w e r t y u i *)
   111; 112; 91; 93; KEY_ENTER; 0; 97; 115;                (* o p [ ] a s *)
   100; 102; 103; 104; 106; 107; 108; 59;                  (* d f g h j k l ; *)
   39; 96; 0; 92; 122; 120; 99; 118;                       (* ' ` \ z x c v *)
   98; 110; 109; 44; 46; 47; 0; 42;                        (* b n m , . / * *)
   0; 32; 0] ++ special_keys.

Definition scancode_table_shift : list Z :=
  [0; KEY_ESCAPE; 33; 64; 35; 36; 37; 94;                 (* ! @ # $ % ^ *)
   38; 42; 40; 41; 95; 43; KEY_BACKSPACE; KEY_TAB;         (* & * ( ) _ + *)
   81; 87; 69; 82; 84; 89; 85; 73;                         (* Q W E R T Y U I *)
   79; 80; 123; 125; KEY_ENTER; 0; 65; 83;                 (* O P { } A S *)
   68; 70; 71; 72; 74; 75; 76; 58;                         (* D F G H J K L : *)
   34; 126; 0; 124; 90; 88; 67; 86;                        (* double quote ~ | Z X C V *)
   66; 78; 77; 60; 62; 63; 0; 42;                          (* B N M < > ? * *)
   0; 32; 0] ++ special_keys.

(** The table entries have type [char]. *)
Definition scancode_to_ascii (sc : Z) : Z := s8 (nth (Z.to_nat sc) scancode_table 0).

Definition scancode_to_ascii_shift (sc : Z) : Z := s8 (nth (Z.to_nat sc) scancode_table_shift 0).

(** ** State *)

Record keyboard := Kbd {
  buffer : gmap Z Z;
  buffer_head : Z;
  buffer_tail : Z;
  shift_pressed : bool;
  ctrl_pressed : bool;
  alt_pressed : bool;
  caps_lock : bool;
}.

Definition set_ring (b : gmap Z Z) (h t : Z) (k : keyboard) : keyboard :=
  Kbd b h t (shift_pressed k) (ctrl_pressed k) (alt_pressed k) (caps_lock k).

Definition set_mods (s c a l : bool) (k : keyboard) : keyboard :=
  Kbd (buffer k) (buffer_head k) (buffer_tail k) s c a l.

(** ** The ring *)

Definition buffer_put (c : Z) (k : keyboard) : keyboard :=
  let next := Z.rem (buffer_head k + 1) KBD_BUFFER_SIZE in
  if negb (next =? buffer_tail k)
  then set_ring (wr (buffer k) (buffer_head k) c) next (buffer_tail k) k
  else k.

Definition buffer_get (k : keyboard) : Z * keyboard :=
  if buffer_head k =? buffer_tail k then (-1, k)
  else
    let c := rd (buffer k) (buffer_tail k) in
    (u8 c, set_ring (buffer k) (buffer_head k) (Z.rem (buffer_tail k + 1) KBD_BUFFER_SIZE) k).

(** ** Interrupt handler *)

Definition is_lower (c : Z) : bool := (97 <=? c) && (c <=? 122).
Definition is_upper (c : Z) : bool := (65 <=? c) && (c <=? 90).

(** The character of a key press, 0 for none. *)
Definition key_char (scancode : Z) (k : keyboard) : Z :=
  let use_shift := xorb (shift_pressed k) (caps_lock k) in
  let c :=
    if is_lower (scancode_to_ascii scancode)
    then if use_shift then scancode_to_ascii_shift scancode else scancode_to_ascii scancode
    else if shift_pressed k then scancode_to_ascii_shift scancode else scancode_to_ascii scancode in
  if negb (c =? 0) then
    if ctrl_pressed k && is_lower c then s8 (c - 97 + 1)
    else if ctrl_pressed k && is_upper c then s8 (c - 65 + 1)
    else c
  else 0.

(** [byte] is what the controller's data port returns. *)
Definition keyboard_irq_handler (byte : Z) (k : keyboard) : keyboard :=
  let released := tst byte 0x80 in
  let scancode := Z.land byte 0x7F in
  if (scancode =? 0x2A) || (scancode =? 0x36) then
    set_mods (negb released) (ctrl_pressed k) (alt_pressed k) (caps_lock k) k
  else if scancode =? 0x1D then
    set_mods (shift_pressed k) (negb released) (alt_pressed k) (caps_lock k) k
  else if scancode =? 0x38 then
    set_mods (shift_pressed k) (ctrl_pressed k) (negb released) (caps_lock k) k
  else if scancode =? 0x3A then
    if negb released
    then set_mods (shift_pressed k) (ctrl_pressed k) (alt_pressed k) (negb (caps_lock k)) k
    else k
  else if released then k
  else
    let c := key_char scancode k in
    if negb (c =? 0) then buffer_put c k else k.

(** The state [keyboard_init] sets up before it registers the handler. *)
Definition keyboard_init (k : keyboard) : keyboard := Kbd (buffer k) 0 0 false false false false.

Definition keyboard_getchar (k : keyboard) : Z * keyboard := buffer_get k.

Definition keyboard_has_input (k : keyboard) : bool := negb (buffer_head k =? buffer_tail k).

Definition keyboard_inject (c : Z) (k : keyboard) : keyboard := buffer_put c k.

(** [keyboard_read] halts until an interrupt.  [wakeups] are the effects of
    the interrupts that end each [hlt]; [None] when they run out, and the read
    blocks. *)
Fixpoint keyboard_read (wakeups : list (keyboard → keyboard)) (k : keyboard)
    : option (Z * list (keyboard → keyboard) * keyboard) :=
  let '(c, k') := keyboard_getchar k in
  if negb (c =? -1) then Some (s8 c, wakeups, k')
  else match wakeups with
       | [] => None
       | w :: ws => keyboard_read ws (w k')
       end.

(** ** The keyboard ring is a queue

    The ring as a bounded queue, also when interrupts arrive between the
    memory accesses of a reader, and what each key press puts into it. *)
(** ** The ring holds a queue *)

Record ring_queue (k : keyboard) (q : list Z) : Prop := {
  rq_head : 0 ≤ buffer_head k < 64;
  rq_tail : 0 ≤ buffer_tail k < 64;
  rq_len : Z.of_nat (length q) = (buffer_head k - buffer_tail k) mod 64;
  rq_elems : ∀ i c, q !! i = Some c → rd (buffer k) ((buffer_tail k + Z.of_nat i) mod 64) = c;
}.

(** The queue of 63 characters that drops what does not fit. *)
Definition q_put (c : Z) (q : list Z) : list Z := if (length q <? 63)%nat then q ++ [c] else q.

Lemma put_queue c k q : ring_queue k q → ring_queue (buffer_put c k) (q_put c q).
Proof.
  intros [Hh Ht Hl He]. unfold buffer_put, q_put, KBD_BUFFER_SIZE.
  rewrite Z.rem_mod_nonneg by lia.
  destruct (Nat.ltb_spec (length q) 63) as [Hlt|Hge]; case_if.
  - split; cbn [buffer_head buffer_tail buffer set_ring]; [zdm|done|rewrite length_app; simpl; zdm|].
    intros i x Hi. apply lookup_app_Some in Hi as [Hi|[Hge Hi]].
    + assert (i < length q)%nat by (by eapply lookup_lt_Some). rewrite rd_wr_ne by zdm. by apply He.
    + assert (i - length q < 1)%nat by (by apply lookup_lt_Some in Hi).
      replace (i - length q)%nat with O in Hi by lia. injection Hi as <-.
      replace ((buffer_tail k + Z.of_nat i) mod 64) with (buffer_head k) by zdm. apply rd_wr_eq.
  - exfalso. zdm.
  - exfalso. zdm.
  - by split.
Qed.

(** ** A reader interrupted between its memory accesses *)

Inductive reader :=
| Idle
| Checked                 (* head and tail differed *)
| Loaded (c : Z).         (* the character has been read *)

(** Either an interrupt handler runs [buffer_put], or the reader does its next
    access of [buffer_get]. *)
Inductive action :=
| Interrupt (c : Z)
| Advance.

Inductive obs :=
| ObsPut (c : Z)
| ObsGet (r : Z).

Definition act (a : action) (s : keyboard * reader) : list obs * (keyboard * reader) :=
  let '(k, r) := s in
  match a, r with
  | Interrupt c, _ => ([ObsPut c], (buffer_put c k, r))
  | Advance, Idle =>
      if buffer_head k =? buffer_tail k then ([ObsGet (-1)], (k, Idle)) else ([], (k, Checked))
  | Advance, Checked => ([], (k, Loaded (rd (buffer k) (buffer_tail k))))
  | Advance, Loaded c =>
      ([ObsGet (u8 c)],
       (set_ring (buffer k) (buffer_head k) (Z.rem (buffer_tail k + 1) KBD_BUFFER_SIZE) k, Idle))
  end.

Fixpoint acts (l : list action) (s : keyboard * reader) : list obs * (keyboard * reader) :=
  match l with
  | [] => ([], s)
  | a :: l =>
      let '(o, s) := act a s in
      let '(os, s) := acts l s in (o ++ os, s)
  end.

(** Uninterrupted, the accesses make up [buffer_get]. *)
Lemma get_uninterrupted k :
  let '(r, k') := buffer_get k in
  acts [Advance; Advance; Advance] (k, Idle) =
    if r =? -1 then ([ObsGet (-1); ObsGet (-1); ObsGet (-1)], (k, Idle)) else ([ObsGet r], (k', Idle)).
Proof.
  unfold buffer_get. cbn [acts act]. destruct (buffer_head k =? buffer_tail k) eqn:E; cbn [fst snd].
  - do 3 (cbn [acts act]; rewrite ?E). reflexivity.
  - cbn [acts act]. assert ((u8 (rd (buffer k) (buffer_tail k)) =? -1) = false) as ->; [|done].
    apply Z.eqb_neq. pose proof (u8_bound (rd (buffer k) (buffer_tail k))). lia.
Qed.

(** The queue accepts an observation. *)
Definition q_obs (o : obs) (q : list Z) : option (list Z) :=
  match o, q with
  | ObsPut c, _ => Some (q_put c q)
  | ObsGet r, [] => if r =? -1 then Some [] else None
  | ObsGet r, c :: q => if r =? u8 c then Some q else None
  end.

Fixpoint q_run (os : list obs) (q : list Z) : option (list Z) :=
  match os with
  | [] => Some q
  | o :: os => match q_obs o q with Some q' => q_run os q' | None => None end
  end.

Lemma q_run_app os os' q :
  q_run (os ++ os') q = match q_run os q with Some q' => q_run os' q' | None => None end.
Proof. revert q. induction os as [|o os IH]; intros q; [done|]. simpl. destruct (q_obs o q); [apply IH|done]. Qed.

(** What the reader has seen so far is still at the front of the queue. *)
Definition reader_ok (r : reader) (q : list Z) : Prop :=
  match r with
  | Idle => True
  | Checked => q ≠ []
  | Loaded c => head q = Some c
  end.

Lemma q_put_head c q x : head q = Some x → head (q_put c q) = Some x.
Proof. unfold q_put. destruct (_ <? _)%nat; [|done]. by destruct q. Qed.

Lemma act_queue a k r q :
  ring_queue k q → reader_ok r q →
  let '(os, (k', r')) := act a (k, r) in
  ∃ q', q_run os q = Some q' ∧ ring_queue k' q' ∧ reader_ok r' q'.
Proof.
  intros Hq Hr. destruct a as [c|]; cbn [act].
  - exists (q_put c q). split; [done|split; [by apply put_queue|]].
    destruct r as [| |x]; [done| |by apply q_put_head].
    cbn in *. unfold q_put. destruct (_ <? _)%nat; [|done]. by destruct q.
  - pose proof Hq as [Hh Ht Hl He]. destruct r as [| |c]; cbn in Hr.
    + destruct (Z.eqb_spec (buffer_head k) (buffer_tail k)) as [E|E].
      * exists q. assert (q = []) as -> by (destruct q; [done|simpl in Hl; zdm]). done.
      * exists q. split; [done|split; [done|]]. intros ->. simpl in Hl. zdm.
    + exists q. split; [done|split; [done|]]. destruct q as [|x q]; [done|]. cbn. f_equal.
      rewrite <- (He O x eq_refl). f_equal. zdm.
    + destruct q as [|x q]; [done|]. injection Hr as ->. exists q. cbn [q_run q_obs].
      rewrite Z.eqb_refl. split; [done|split; [|done]].
      unfold KBD_BUFFER_SIZE. rewrite Z.rem_mod_nonneg by lia.
      split; cbn [buffer_head buffer_tail buffer set_ring]; [done|zdm|simpl in Hl; zdm|].
      intros i y Hi. specialize (He (S i) y Hi). rewrite <- He. f_equal. zdm.
Qed.

Lemma acts_queue l k r q :
  ring_queue k q → reader_ok r q →
  let '(os, (k', r')) := acts l (k, r) in
  ∃ q', q_run os q = Some q' ∧ ring_queue k' q' ∧ reader_ok r' q'.
Proof.
  revert k r q. induction l as [|a l IH]; intros k r q Hq Hr; [by exists q|].
  cbn [acts]. pose proof (act_queue a k r q Hq Hr) as Ha.
  destruct (act a (k, r)) as [o [k1 r1]]. destruct Ha as (q1 & E1 & Hq1 & Hr1).
  specialize (IH k1 r1 q1 Hq1 Hr1). destruct (acts l (k1, r1)) as [os [k2 r2]].
  destruct IH as (q2 & E2 & Hq2 & Hr2). exists q2. rewrite q_run_app, E1. done.
Qed.

Lemma init_queue k : ring_queue (keyboard_init k) [].
Proof. split; cbn; [lia|lia|done|]. intros i c. by rewrite lookup_nil. Qed.

(** C36 [keyboard_ring_fifo]: however interrupts and the accesses of a reader
    interleave, the characters put and the results returned are those of a
    queue of 63 characters that drops what does not fit; a reader never sees
    a stale or torn entry. *)
Theorem keyboard_ring_fifo k0 l :
  let '(os, (k, _)) := acts l (keyboard_init k0, Idle) in
  ∃ q, q_run os [] = Some q ∧ ring_queue k q.
Proof.
  pose proof (acts_queue l (keyboard_init k0) Idle [] (init_queue k0) I) as H.
  destruct (acts l (keyboard_init k0, Idle)) as [os [k r]].
  destruct H as (q & E & Hq & _). by exists q.
Qed.

(** ** Key presses *)

(** The scancodes of the modifier keys. *)
Definition is_modifier (sc : Z) : bool :=
  (sc =? 0x2A) || (sc =? 0x36) || (sc =? 0x1D) || (sc =? 0x38) || (sc =? 0x3A).

(** What a key means: letters follow shift and caps lock and become control
    characters, other keys follow shift alone. *)
Definition key_meaning (sc : Z) (shift ctrl caps : bool) : Z :=
  let l := scancode_to_ascii sc in
  if is_lower l then if ctrl then l - 96 else if xorb shift caps then l - 32 else l
  else if shift then scancode_to_ascii_shift sc else l.

Lemma forallb_seq (P : Z → bool) n :
  forallb P (map Z.of_nat (seq 0 n)) = true → ∀ z, 0 ≤ z < Z.of_nat n → P z = true.
Proof.
  intros H z Hz. rewrite forallb_forall in H. apply H. apply in_map_iff.
  exists (Z.to_nat z). split; [lia|]. apply in_seq. lia.
Qed.

Lemma key_char_meaning sc k :
  0 ≤ sc < 128 → key_char sc k = key_meaning sc (shift_pressed k) (ctrl_pressed k) (caps_lock k).
Proof.
  intros Hsc. destruct k as [b h t s c a l]. cbn.
  pose (k' := λ s c l : bool, Kbd ∅ 0 0 s c false l).
  change (key_char sc (Kbd b h t s c a l)) with (key_char sc (k' s c l)).
  apply Z.eqb_eq. revert sc Hsc.
  apply (forallb_seq (λ sc, key_char sc (k' s c l) =? key_meaning sc s c l) 128).
  destruct s, c, l; vm_compute; reflexivity.
Qed.

Lemma scancode_land b : 0 ≤ b < 128 → Z.land b 0x7F = b ∧ tst b 0x80 = false.
Proof.
  intros Hb. split.
  - change 0x7F with (Z.ones 7). rewrite Z.land_ones by lia. apply Z.mod_small. lia.
  - change 0x80 with (2 ^ 7). rewrite tst_pow2 by lia.
    rewrite <- (Z.mod_small b (2 ^ 7)) by lia. apply Z.mod_pow2_bits_high. lia.
Qed.

Lemma scancode_released b : 0 ≤ b < 128 → Z.land (b + 128) 0x7F = b ∧ tst (b + 128) 0x80 = true.
Proof.
  intros Hb. split.
  - change 0x7F with (Z.ones 7). rewrite Z.land_ones by lia. zdm.
  - change 0x80 with (2 ^ 7). rewrite tst_pow2 by lia. rewrite Z.testbit_odd, Z.shiftr_div_pow2 by lia.
    assert ((b + 2 ^ 7) / 2 ^ 7 = 1) as -> by zdm. done.
Qed.

(** Pressing a key that is not a modifier puts its
    meaning, when it has one, into the ring and leaves the modifiers alone;
    releasing it does nothing; modifier keys follow their press and release,
    caps lock toggles on press, and none of them touches the ring. *)
Theorem keyboard_irq_meaning sc k :
  0 ≤ sc < 128 →
  let c := key_meaning sc (shift_pressed k) (ctrl_pressed k) (caps_lock k) in
  if is_modifier sc then
    keyboard_irq_handler sc k =
      set_mods (if (sc =? 0x2A) || (sc =? 0x36) then true else shift_pressed k)
        (if sc =? 0x1D then true else ctrl_pressed k) (if sc =? 0x38 then true else alt_pressed k)
        (if sc =? 0x3A then negb (caps_lock k) else caps_lock k) k ∧
    keyboard_irq_handler (sc + 128) k =
      set_mods (if (sc =? 0x2A) || (sc =? 0x36) then false else shift_pressed k)
        (if sc =? 0x1D then false else ctrl_pressed k) (if sc =? 0x38 then false else alt_pressed k)
        (caps_lock k) k
  else
    keyboard_irq_handler sc k = (if c =? 0 then k else buffer_put c k) ∧
    keyboard_irq_handler (sc + 128) k = k.
Proof.
  intros Hsc c. unfold keyboard_irq_handler.
  destruct (scancode_land sc Hsc) as [E1 E2], (scancode_released sc Hsc) as [E3 E4].
  rewrite E1, E2, E3, E4, key_char_meaning by done. fold c. unfold is_modifier.
  destruct (Z.eqb_spec sc 0x2A) as [->|]; [split; by destruct k|].
  destruct (Z.eqb_spec sc 0x36) as [->|]; [split; by destruct k|].
  destruct (Z.eqb_spec sc 0x1D) as [->|]; [split; by destruct k|].
  destruct (Z.eqb_spec sc 0x38) as [->|]; [split; by destruct k|].
  destruct (Z.eqb_spec sc 0x3A) as [->|]; [split; by destruct k|].
  cbn [orb negb]. by destruct (c =? 0).
Qed.

(** Control and a shifted letter: the third control character. *)
Lemma keyboard_irq_meaning_witness :
  let k := Kbd ∅ 0 0 true true false false in
  keyboard_irq_handler 0x2E k = buffer_put 3 k ∧ keyboard_irq_handler (0x2E + 128) k = k.
Proof. exact (keyboard_irq_meaning 0x2E (Kbd ∅ 0 0 true true false false) ltac:(lia)). Defined.
