(* ===== verification/Serial.v ===== *)
(** * Serial port driver ([drivers/tty/serial.c])

    Output through port writes, which are recorded in order, and input bytes
    translated and filtered into the keyboard ring.  Waiting for the
    transmitter has no effect on the state. *)
From S2P Require Import Prelude Keyboard.
Local Open Scope Z_scope.

Definition COM1 : Z := 0x3F8.
Definition IRQ_COM1 : Z := 34.
Definition UART_IER : Z := 1.
Definition UART_IER_RDA : Z := 1.

(** The port writes so far, newest last, and the escape-sequence state. *)
Record serial := Serial {
  port_log : list (Z * Z);
  csi_state : Z;
}.

Definition outb (port value : Z) (s : serial) : serial :=
  Serial (port_log s ++ [(port, u8 value)]) (csi_state s).

Definition set_csi (n : Z) (s : serial) : serial := Serial (port_log s) n.

Definition serial_init (s : serial) : serial :=
  let s := outb (COM1 + 1) 0x00 s in
  let s := outb (COM1 + 3) 0x80 s in
  let s := outb (COM1 + 0) 0x01 s in
  let s := outb (COM1 + 1) 0x00 s in
  let s := outb (COM1 + 3) 0x03 s in
  let s := outb (COM1 + 2) 0xC7 s in
  outb (COM1 + 4) 0x0B s.

Definition serial_putchar (c : Z) (s : serial) : serial := outb COM1 c s.

Fixpoint serial_puts (str : list Z) (s : serial) : serial :=
  match str with
  | [] => s
  | c :: str =>
      let s := if c =? 10 then serial_putchar 13 s else s in
      serial_puts str (serial_putchar c s)
  end.

(** The [switch] returns for states 1 and 2; the byte is a [uint8_t]. *)
Definition serial_dispatch_byte (byte : Z) (st : serial * keyboard) : serial * keyboard :=
  let '(s, k) := st in
  if csi_state s =? 1 then (set_csi (if byte =? 91 then 2 else 0) s, k)
  else if csi_state s =? 2 then
    if (0x40 <=? byte) && (byte <=? 0x7E) then (set_csi 0 s, k) else (s, k)
  else if byte =? 0x1B then (set_csi 1 s, k)
  else
    let byte := if byte =? 13 then 10 else if byte =? 0x7F then 8 else byte in
    (s, keyboard_inject (s8 byte) k).

(** [bytes] is what the receiver holds: the loop ends when it is empty. *)
Definition serial_irq_handler (bytes : list Z) (st : serial * keyboard) : serial * keyboard :=
  fold_left (λ st b, serial_dispatch_byte b st) bytes st.

(** The registration of the handler is in the interrupt controller. *)
Definition serial_irq_init (s : serial) : serial := outb (COM1 + UART_IER) UART_IER_RDA s.

(** ** What a terminal sends *)

(** Enter sends a carriage return and backspace a delete. *)
Definition line_char (b : Z) : Z := if b =? 13 then 10 else if b =? 0x7F then 8 else b.

(** Complete input: characters, two-byte escapes and control sequences, of
    which only the characters count. *)
Inductive terminal_input : list Z → list Z → Prop :=
| ti_end : terminal_input [] []
| ti_char b bs cs :
    b ≠ 0x1B → terminal_input bs cs → terminal_input (b :: bs) (line_char b :: cs)
| ti_escape b bs cs :
    b ≠ 91 → terminal_input bs cs → terminal_input (0x1B :: b :: bs) cs
| ti_control params final bs cs :
    Forall (λ b, ¬ 0x40 ≤ b ≤ 0x7E) params → 0x40 ≤ final ≤ 0x7E →
    terminal_input bs cs → terminal_input (0x1B :: 91 :: params ++ final :: bs) cs.

Lemma control_params params s k bs :
  csi_state s = 2 → Forall (λ b, ¬ 0x40 ≤ b ≤ 0x7E) params →
  serial_irq_handler (params ++ bs) (s, k) = serial_irq_handler bs (s, k).
Proof.
  intros Hs Hp. unfold serial_irq_handler. rewrite fold_left_app. f_equal.
  induction Hp as [|b params Hb _ IH]; [done|]. cbn [fold_left serial_dispatch_byte].
  rewrite Hs. cbn [Z.eqb Pos.eqb].
  assert ((0x40 <=? b) && (b <=? 0x7E) = false) as -> by lia. exact IH.
Qed.

(** Input of a terminal reaches the keyboard ring
    without its escape sequences and with line ends and deletes translated,
    and leaves the filter ready for the next character; output and modifier
    state are untouched. *)
Theorem serial_input_filtered bs cs :
  terminal_input bs cs → ∀ s k, csi_state s = 0 →
  serial_irq_handler bs (s, k) = (s, fold_left (λ k c, keyboard_inject (s8 c) k) cs k).
Proof.
  induction 1 as [|b bs cs Hb _ IH|b bs cs Hb _ IH|params final bs cs Hp Hf _ IH]; intros s k Hs; [done| | |].
  - unfold serial_irq_handler. cbn [fold_left serial_dispatch_byte]. rewrite Hs. cbn [Z.eqb].
    assert ((b =? 0x1B) = false) as -> by lia. by apply IH.
  - unfold serial_irq_handler. cbn [fold_left serial_dispatch_byte]. rewrite Hs.
    cbn [Z.eqb Pos.eqb csi_state set_csi serial_dispatch_byte].
    assert ((b =? 91) = false) as -> by lia.
    replace (set_csi 0 (set_csi 1 s)) with s by (destruct s; cbn in *; by subst). by apply IH.
  - transitivity (serial_irq_handler (params ++ final :: bs) (set_csi 2 s, k)).
    { unfold serial_irq_handler. cbn [fold_left serial_dispatch_byte]. rewrite Hs. done. }
    rewrite control_params by done. unfold serial_irq_handler.
    cbn [fold_left serial_dispatch_byte csi_state set_csi Z.eqb Pos.eqb].
    assert ((0x40 <=? final) && (final <=? 0x7E) = true) as -> by lia.
    replace (set_csi 0 (set_csi 2 s)) with s by (destruct s; cbn in *; by subst). by apply IH.
Qed.

(** An arrow key between two letters, then Enter. *)
Lemma serial_input_filtered_witness :
  serial_irq_handler [97; 0x1B; 91; 65; 98; 13] (Serial [] 0, Kbd ∅ 0 0 false false false false) =
  (Serial [] 0, keyboard_inject 10 (keyboard_inject 98 (keyboard_inject 97 (Kbd ∅ 0 0 false false false false)))).
Proof.
  rewrite (serial_input_filtered [97; 0x1B; 91; 65; 98; 13] [97; 98; 10]); [reflexivity| |reflexivity].
  apply (ti_char 97); [lia|]. apply (ti_control [] 65); [constructor|lia|].
  apply (ti_char 98); [lia|]. apply (ti_char 13); [lia|constructor].
Defined.
