(* ===== verification/Terminal.v ===== *)
(** * Terminals ([drivers/tty/terminal.c], [drivers/tty/tty_dev.c])

    A terminal routes characters to the console, the serial port or both.
    Terminals are objects behind pointers; the pointer 0 is NULL and stands
    for the active terminal.  The configuration enables both outputs. *)
From S2P Require Import Prelude Console Keyboard Serial.
Local Open Scope Z_scope.

Definition TERM_BACKEND_SERIAL : Z := 1.
Definition TERM_BACKEND_FB : Z := 2.
Definition TERM_BACKEND_ALL : Z := 3.
Definition CONFIG_CONSOLE_COLOR_DEFAULT : Z := 0xFFFFFF.

Record terminal := Term { backends : Z; term_color : Z }.

(** The terminal objects, the active one, and the two devices. *)
Record tty := Tty {
  terms : gmap Z terminal;
  active_terminal : Z;
  dev_con : console;
  dev_ser : serial;
}.

(** The address of [terminal_default]. *)
Definition terminal_default : Z := 1.

Definition initial_terms : gmap Z terminal :=
  {[ terminal_default := Term TERM_BACKEND_ALL CONFIG_CONSOLE_COLOR_DEFAULT ]}.

Definition deref (d : tty) (p : Z) : terminal := default (Term 0 0) (terms d !! p).

(** [if (!term) term = active_terminal;] *)
Definition or_active (d : tty) (p : Z) : Z := if p =? 0 then active_terminal d else p.

Definition set_con (c : console) (d : tty) : tty := Tty (terms d) (active_terminal d) c (dev_ser d).

Definition set_ser (s : serial) (d : tty) : tty := Tty (terms d) (active_terminal d) (dev_con d) s.

Definition set_term (p : Z) (t : terminal) (d : tty) : tty :=
  Tty (<[p := t]> (terms d)) (active_terminal d) (dev_con d) (dev_ser d).

Definition terminal_init (d : tty) : tty :=
  Tty (terms d) terminal_default (dev_con d) (serial_init (dev_ser d)).

Definition terminal_get_active (d : tty) : Z := active_terminal d.

Definition terminal_set_active (term : Z) (d : tty) : tty :=
  if negb (term =? 0) then Tty (terms d) term (dev_con d) (dev_ser d) else d.

Definition terminal_create (term bk colr : Z) (d : tty) : tty :=
  if term =? 0 then d else set_term term (Term bk colr) d.

Definition terminal_set_color (term colr : Z) (d : tty) : tty :=
  let term := or_active d term in
  set_term term (Term (backends (deref d term)) colr) d.

Section Output.
Context (font_data : Z → Z).

(** The body of [terminal_putchar] once the terminal object is known. *)
Definition route (t : terminal) (c : Z) (d : tty) : tty :=
  let d := if tst (backends t) TERM_BACKEND_FB
           then set_con (console_putchar font_data c (term_color t) (dev_con d)) d else d in
  if tst (backends t) TERM_BACKEND_SERIAL
  then set_ser (serial_putchar c (dev_ser d)) d else d.

Definition terminal_putchar (term c : Z) (d : tty) : tty := route (deref d (or_active d term)) c d.

Fixpoint puts_loop (term : Z) (str : list Z) (d : tty) : tty :=
  match str with
  | [] => d
  | c :: str => puts_loop term str (terminal_putchar term c d)
  end.

Definition terminal_puts (term : Z) (str : list Z) (d : tty) : tty := puts_loop (or_active d term) str d.

(** ESC [2J ESC [H *)
Definition clear_sequence : list Z := [27; 91; 50; 74; 27; 91; 72].

Definition terminal_clear (term : Z) (d : tty) : tty :=
  let t := deref d (or_active d term) in
  let d := if tst (backends t) TERM_BACKEND_FB then set_con (console_clear 0 (dev_con d)) d else d in
  if tst (backends t) TERM_BACKEND_SERIAL then set_ser (serial_puts clear_sequence (dev_ser d)) d else d.

(** Column and row. *)
Definition terminal_get_cursor (term : Z) (d : tty) : Z * Z :=
  let t := deref d (or_active d term) in
  let '(px, py) := if tst (backends t) TERM_BACKEND_FB then console_get_cursor (dev_con d) else (0, 0) in
  (Z.quot px 8, Z.quot py 16).

Definition terminal_get_dimensions (term : Z) (d : tty) : Z * Z :=
  let t := deref d (or_active d term) in
  if tst (backends t) TERM_BACKEND_FB then console_get_dimensions (dev_con d) else (80, 24).

Definition terminal_scroll_back (term lines : Z) (d : tty) : tty :=
  if tst (backends (deref d (or_active d term))) TERM_BACKEND_FB
  then set_con (console_scroll_back font_data lines (dev_con d)) d else d.

Definition terminal_scroll_forward (term lines : Z) (d : tty) : tty :=
  if tst (backends (deref d (or_active d term))) TERM_BACKEND_FB
  then set_con (console_scroll_forward font_data lines (dev_con d)) d else d.

Definition terminal_scroll_to_bottom (term : Z) (d : tty) : tty :=
  if tst (backends (deref d (or_active d term))) TERM_BACKEND_FB
  then set_con (console_scroll_to_bottom font_data (dev_con d)) d else d.

Definition terminal_is_scrolled_back (term : Z) (d : tty) : bool :=
  if tst (backends (deref d (or_active d term))) TERM_BACKEND_FB
  then console_is_scrolled_back (dev_con d) else false.

(** ** The TTY device *)

(** [private] is the terminal pointer stored in the file. *)
Definition tty_write (private : Z) (buf : list Z) (count : Z) (d : tty) : Z * tty :=
  let term := if private =? 0 then terminal_get_active d else private in
  (count, for_loop (Z.to_nat count) 0 (λ i d, terminal_putchar term (nth (Z.to_nat i) buf 0) d) d).

End Output.

(** The non-blocking part of [tty_read]: the ring never holds more than 63
    characters, so 64 turns are enough. *)
Fixpoint read_available (fuel : nat) (cbuf : list Z) (count : Z) (k : keyboard) : list Z * keyboard :=
  match fuel with
  | O => (cbuf, k)
  | S fuel' =>
      if (Z.of_nat (length cbuf) <? count) && keyboard_has_input k then
        let '(c, k) := keyboard_getchar k in
        if c <? 0 then (cbuf, k) else read_available fuel' (cbuf ++ [u8 c]) count k
      else (cbuf, k)
  end.

(** The bytes stored in [buf]; [None] when the read blocks for ever. *)
Definition tty_read (null_buf : bool) (count : Z) (wakeups : list (keyboard → keyboard)) (k : keyboard)
    : option (list Z * list (keyboard → keyboard) * keyboard) :=
  if null_buf || (count =? 0) then Some ([], wakeups, k)
  else
    '(c, wakeups, k) ← keyboard_read wakeups k;
    let '(cbuf, k) := read_available 64 [u8 c] count k in
    Some (cbuf, wakeups, k).

Definition tty_close : Z := 0.

(** ** Output reaches the enabled devices *)

(** The console after [str] in colour [colr]; the serial port after [str]. *)
Definition con_out (font_data : Z → Z) (t : terminal) (str : list Z) (c : console) : console :=
  if tst (backends t) TERM_BACKEND_FB then console_puts font_data str (term_color t) c else c.

Definition ser_out (t : terminal) (str : list Z) (s : serial) : serial :=
  if tst (backends t) TERM_BACKEND_SERIAL
  then Serial (port_log s ++ map (λ c, (COM1, u8 c)) str) (csi_state s) else s.

(** What routing [str] to [t] makes of the devices. *)
Definition routed (font_data : Z → Z) (t : terminal) (str : list Z) (d : tty) : tty :=
  Tty (terms d) (active_terminal d) (con_out font_data t str (dev_con d)) (ser_out t str (dev_ser d)).

Lemma route_fold font_data t str d :
  fold_left (λ d c, route font_data t c d) str d = routed font_data t str d.
Proof.
  revert d. induction str as [|c str IH]; intros d.
  - unfold routed, con_out, ser_out. destruct d as [ts a cn [l z]]. cbn. rewrite app_nil_r. by repeat case_if.
  - cbn [fold_left]. rewrite IH. unfold routed, con_out, ser_out, route.
    destruct d as [ts a cn [l z]]. repeat case_if; cbn; rewrite ?E; cbn; by rewrite <- ?app_assoc.
Qed.

Lemma routed_app font_data t s1 s2 d :
  routed font_data t (s1 ++ s2) d = routed font_data t s2 (routed font_data t s1 d).
Proof. by rewrite <- !route_fold, fold_left_app. Qed.

(** Routing does not change the terminals. *)
Lemma putchar_fold font_data p str d :
  fold_left (λ d c, terminal_putchar font_data p c d) str d =
  routed font_data (deref d (or_active d p)) str d.
Proof.
  rewrite <- route_fold. revert d. induction str as [|c str IH]; intros d; [done|].
  cbn [fold_left]. rewrite IH. unfold terminal_putchar.
  set (t := deref d (or_active d p)).
  replace (deref (route font_data t c d) (or_active (route font_data t c d) p)) with t; [done|].
  unfold t, route. by repeat case_if.
Qed.

Lemma puts_routed font_data p str d :
  terminal_puts font_data p str d = routed font_data (deref d (or_active d p)) str d.
Proof.
  unfold terminal_puts. assert (∀ q d, puts_loop font_data q str d =
    fold_left (λ d c, terminal_putchar font_data q c d) str d) as ->.
  { induction str as [|c str IH]; intros q d0; [done|]. cbn. by rewrite IH. }
  rewrite putchar_fold. f_equal. unfold or_active. destruct (p =? 0) eqn:E; [by case_if|by rewrite E].
Qed.

(** ** Reading from the keyboard *)

Lemma get_queue k c q :
  ring_queue k (c :: q) → ∃ k', buffer_get k = (u8 c, k') ∧ ring_queue k' q.
Proof.
  intros Hq. pose proof (acts_queue [Advance; Advance; Advance] k Idle (c :: q) Hq I) as H.
  pose proof (get_uninterrupted k) as Hg. destruct (buffer_get k) as [r k'] eqn:Eg.
  rewrite Hg in H. destruct (r =? -1).
  - destruct H as (q' & Hq' & _). cbn [q_run q_obs] in Hq'.
    pose proof (u8_bound c). assert ((-1 =? u8 c) = false) as Eu by lia. by rewrite Eu in Hq'.
  - destruct H as (q' & Hq' & Hk' & _). cbn [q_run q_obs] in Hq'.
    destruct (Z.eqb_spec r (u8 c)) as [->|]; [|done].
    injection Hq' as ->. by exists k'.
Qed.

Lemma has_input_queue k q : ring_queue k q → keyboard_has_input k = negb (length q =? 0)%nat.
Proof.
  intros [Hh Ht Hl _]. unfold keyboard_has_input. f_equal.
  destruct (Nat.eqb_spec (length q) 0); [apply Z.eqb_eq|apply Z.eqb_neq]; zdm.
Qed.

Lemma queue_length k q : ring_queue k q → (length q < 64)%nat.
Proof. intros [_ _ Hl _]. zdm. Qed.

Lemma read_available_queue n cbuf count k q :
  ring_queue k q → (length q < n)%nat →
  ∃ k', read_available n cbuf count k =
    (cbuf ++ map u8 (take (Z.to_nat count - length cbuf) q), k') ∧
    ring_queue k' (drop (Z.to_nat count - length cbuf) q).
Proof.
  revert cbuf k q. induction n as [|n IH]; intros cbuf k q Hq Hn; [lia|].
  cbn [read_available]. rewrite (has_input_queue _ _ Hq).
  destruct (Z.ltb_spec (Z.of_nat (length cbuf)) count) as [Hlt|Hge]; cbn [andb].
  2:{ exists k. replace (Z.to_nat count - length cbuf)%nat with O by lia. by rewrite app_nil_r. }
  destruct q as [|c q]; cbn [length Nat.eqb negb].
  { exists k. rewrite take_nil, drop_nil, app_nil_r. done. }
  destruct (get_queue _ _ _ Hq) as (k1 & E & Hq1). unfold keyboard_getchar. rewrite E.
  pose proof (u8_bound c). assert ((u8 c <? 0) = false) as -> by lia.
  destruct (IH (cbuf ++ [u8 (u8 c)]) k1 q Hq1 ltac:(simpl in Hn; lia)) as (k' & E' & Hq').
  rewrite length_app in E', Hq'. cbn [length] in E', Hq'.
  replace (Z.to_nat count - length cbuf)%nat with (S (Z.to_nat count - (length cbuf + 1))) by lia.
  exists k'. rewrite E'. cbn [take drop map]. rewrite (u8_small (u8 c)) by lia.
  by rewrite <- app_assoc.
Qed.

Lemma u8_s8 c : 0 ≤ c < 256 → u8 (s8 c) = c.
Proof. intros. unfold u8, s8, wrap, swrap. zdm. Qed.

(** With input waiting, a read of [count] bytes
    returns, in order, as many of the waiting characters as fit and leaves the
    rest in the ring. *)
Theorem tty_read_takes_available k q count wakeups :
  ring_queue k q → q ≠ [] → 0 < count →
  ∃ k', tty_read false count wakeups k = Some (map u8 (take (Z.to_nat count) q), wakeups, k') ∧
    ring_queue k' (drop (Z.to_nat count) q).
Proof.
  intros Hq Hne Hc. unfold tty_read. assert ((count =? 0) = false) as -> by lia. cbn [orb].
  destruct q as [|c q]; [done|]. destruct (get_queue _ _ _ Hq) as (k1 & E & Hq1).
  pose proof (u8_bound c). pose proof (queue_length _ _ Hq1).
  assert (keyboard_read wakeups k = Some (s8 (u8 c), wakeups, k1)) as ->.
  { destruct wakeups; cbn [keyboard_read]; unfold keyboard_getchar; rewrite E;
      assert ((u8 c =? -1) = false) as -> by lia; done. }
  cbn [mbind option_bind].
  destruct (read_available_queue 64 [u8 (s8 (u8 c))] count k1 q Hq1 ltac:(lia)) as (k' & E' & Hq').
  rewrite E'. exists k'. rewrite u8_s8 by lia. cbn [length] in *.
  destruct (Z.to_nat count) as [|m] eqn:Em; [lia|].
  replace (S m - 1)%nat with m in Hq' |- * by lia. done.
Qed.

Definition kbd_ab : keyboard :=
  keyboard_inject 98 (keyboard_inject 97 (Kbd ∅ 0 0 false false false false)).

Lemma tty_read_takes_available_witness :
  ∃ k', tty_read false 1 [] kbd_ab = Some ([97], [], k') ∧ ring_queue k' [98].
Proof.
  refine (tty_read_takes_available kbd_ab [97; 98] 1 [] _ _ _); [|discriminate|reflexivity].
  exact (put_queue 98 _ [97] (put_queue 97 _ [] (init_queue (Kbd ∅ 0 0 false false false false)))).
Defined.
