(* ===== verification/Kprintf.v ===== *)
(** * Formatted output ([kernel/kprintf.c])

    The formatter over any character sink, its instances on terminals, and the
    log function.  Format strings and string arguments are the characters
    before the terminating NUL; an argument list is the sequence of the values
    passed, of which [va_arg] takes the next. *)
From S2P Require Import Prelude Console Keyboard Serial Terminal.
Local Open Scope Z_scope.

(** A variadic argument: an integer or pointer slot, or a string pointer,
    [None] for NULL. *)
Inductive arg :=
| AWord (v : Z)
| AStr (s : option (list Z)).

(** [va_arg] of an integer type: the conversion [cast] truncates the slot.
    Taking an argument of the wrong kind, or one too many, is undefined. *)
Definition va_word (cast : Z → Z) (args : list arg) : option (Z * list arg) :=
  match args with
  | AWord v :: args => Some (cast v, args)
  | _ => None
  end.

Definition va_str (args : list arg) : option (option (list Z) * list arg) :=
  match args with
  | AStr s :: args => Some (s, args)
  | _ => None
  end.

Definition null_string : list Z := [40; 110; 117; 108; 108; 41].  (* (null) *)

(** The digit characters. *)
Definition digit_char (uppercase : bool) (d : Z) : Z :=
  if d <? 10 then 48 + d else if uppercase then 65 + (d - 10) else 97 + (d - 10).

(** The digit loop: the characters in the order they enter [buf], least
    significant first.  A 64-bit value has at most 64 digits. *)
Fixpoint digits_loop (fuel : nat) (uppercase : bool) (base value : Z) : list Z :=
  match fuel with
  | O => []
  | S fuel' =>
      if 0 <? value
      then digit_char uppercase (value mod base) :: digits_loop fuel' uppercase base (value / base)
      else []
  end.

Definition number_buf (uppercase : bool) (base value : Z) : list Z :=
  if value =? 0 then [48] else digits_loop 64 uppercase base value.

Section Engine.
Context {D : Type} (putchar : Z → D → D).

(** The sink and [count]. *)
Abbreviation out := (D * Z)%type.

Definition kputc (c : Z) (st : out) : out := (putchar c st.1, s32 (st.2 + 1)).

Fixpoint emit (s : list Z) (st : out) : out :=
  match s with
  | [] => st
  | c :: s => emit s (kputc c st)
  end.

(** [for (i = 0; i < n; i++) kputc(term, c, count);] *)
Definition kpad (c n : Z) (st : out) : out := for_loop (Z.to_nat n) 0 (λ _, kputc c) st.

Definition kputs_padded (s : option (list Z)) (width : Z) (left_align : bool) (st : out) : out :=
  let s := default null_string s in
  let len := Z.of_nat (length s) in
  let st := if negb left_align && (len <? width) then kpad 32 (width - len) st else st in
  let st := emit s st in
  if left_align && (len <? width) then kpad 32 (width - len) st else st.

Definition kputs (s : option (list Z)) (st : out) : out := kputs_padded s 0 false st.

Definition print_uint_padded (value base : Z) (uppercase : bool) (width : Z) (zero_pad left_align : bool)
    (st : out) : out :=
  let buf := number_buf uppercase base value in
  let num_len := Z.of_nat (length buf) in
  let padding := if num_len <? width then width - num_len else 0 in
  let st := if negb left_align && (0 <? padding) then kpad (if zero_pad then 48 else 32) padding st else st in
  let st := emit (rev buf) st in
  if left_align && (0 <? padding) then kpad 32 padding st else st.

Definition print_int_padded (value width : Z) (zero_pad left_align : bool) (st : out) : out :=
  let negative := value <? 0 in
  let uval := if negative then u64 (- value) else u64 value in
  let buf := number_buf false 10 uval in
  let num_len := Z.of_nat (length buf) + (if negative then 1 else 0) in
  let padding := if num_len <? width then width - num_len else 0 in
  let '(negative, st) :=
    if negb left_align && (0 <? padding) then
      let '(negative, st) := if zero_pad && negative then (false, kputc 45 st) else (negative, st) in
      (negative, kpad (if zero_pad then 48 else 32) padding st)
    else (negative, st) in
  let st := if negative then kputc 45 st else st in
  let st := emit (rev buf) st in
  if left_align && (0 <? padding) then kpad 32 padding st else st.

(** ** The format loop *)

(** The flag loop: the rest of the format, [zero_pad] and [left_align]. *)
Fixpoint skip_flags (fmt : list Z) (zero_pad left_align : bool) : list Z * bool * bool :=
  match fmt with
  | c :: fmt' =>
      if c =? 45 then skip_flags fmt' zero_pad true
      else if c =? 48 then skip_flags fmt' true left_align
      else (fmt, zero_pad, left_align)
  | [] => (fmt, zero_pad, left_align)
  end.

Definition is_digit (c : Z) : bool := (48 <=? c) && (c <=? 57).

Fixpoint read_width (fmt : list Z) (width : Z) : list Z * Z :=
  match fmt with
  | c :: fmt' =>
      if is_digit c then read_width fmt' (s32 (width * 10 + (c - 48))) else (fmt, width)
  | [] => (fmt, width)
  end.

Definition read_long (fmt : list Z) : list Z * Z :=
  match fmt with
  | c :: fmt' =>
      if c =? 108 then
        match fmt' with
        | c' :: fmt'' => if c' =? 108 then (fmt'', 2) else (fmt', 1)
        | [] => (fmt', 1)
        end
      else (fmt, 0)
  | [] => (fmt, 0)
  end.

Definition signed_cast (is_long : Z) : Z → Z := if is_long =? 0 then s32 else s64.
Definition unsigned_cast (is_long : Z) : Z → Z := if is_long =? 0 then u32 else u64.

(** The [switch] on the conversion character, which is not NUL. *)
Definition convert (c is_long width : Z) (zero_pad left_align : bool) (args : list arg) (st : out)
    : option (list arg * out) :=
  let unsigned base upper :=
    '(v, args) ← va_word (unsigned_cast is_long) args;
    Some (args, print_uint_padded v base upper width zero_pad left_align st) in
  if c =? 99 then                                            (* c *)
    '(v, args) ← va_word (λ v, s8 (s32 v)) args;
    Some (args, kputc v st)
  else if c =? 115 then                                      (* s *)
    '(s, args) ← va_str args;
    Some (args, kputs_padded s width left_align st)
  else if (c =? 100) || (c =? 105) then                      (* d i *)
    '(v, args) ← va_word (signed_cast is_long) args;
    Some (args, print_int_padded v width zero_pad left_align st)
  else if c =? 117 then unsigned 10 false                    (* u *)
  else if (c =? 120) || (c =? 88) then unsigned 16 (c =? 88) (* x X *)
  else if c =? 111 then unsigned 8 false                     (* o *)
  else if c =? 98 then unsigned 2 false                      (* b *)
  else if c =? 112 then                                      (* p *)
    '(v, args) ← va_word u64 args;
    Some (args, print_uint_padded v 16 false 0 false false (kputs (Some [48; 120]) st))
  else if c =? 37 then Some (args, kputc 37 st)
  else Some (args, kputc c (kputc 37 st)).

(** Every turn takes at least one character of the format. *)
Fixpoint format_loop (fuel : nat) (fmt : list Z) (args : list arg) (st : out) : option out :=
  match fuel with
  | O => None
  | S fuel' =>
      match fmt with
      | [] => Some st
      | c :: fmt =>
          if negb (c =? 37) then format_loop fuel' fmt args (kputc c st)
          else
            let '(fmt, zero_pad, left_align) := skip_flags fmt false false in
            let zero_pad := if left_align then false else zero_pad in
            let '(fmt, width) := read_width fmt 0 in
            let '(fmt, is_long) := read_long fmt in
            match fmt with
            | [] => Some st
            | c :: fmt =>
                '(args, st) ← convert c is_long width zero_pad left_align args st;
                format_loop fuel' fmt args st
            end
      end
  end.

Definition vprintf (fmt : list Z) (args : list arg) (d : D) : option out :=
  format_loop (S (length fmt)) fmt args (d, 0).
End Engine.

(** ** On terminals *)

Section OnTerminals.
Context (font_data : Z → Z).

(** A NULL terminal is replaced by the active one before the first character. *)
Definition tkvprintf (term : Z) (fmt : list Z) (args : list arg) (d : tty) : option (tty * Z) :=
  let term := if term =? 0 then terminal_get_active d else term in
  vprintf (terminal_putchar font_data term) fmt args d.

Definition kvprintf (fmt : list Z) (args : list arg) (d : tty) : option (tty * Z) :=
  tkvprintf (terminal_get_active d) fmt args d.

Definition tkprintf (term : Z) (fmt : list Z) (args : list arg) (d : tty) : option (tty * Z) :=
  tkvprintf term fmt args d.

Definition kprintf (fmt : list Z) (args : list arg) (d : tty) : option (tty * Z) :=
  tkvprintf (terminal_get_active d) fmt args d.

Definition LOG_TRACE : Z := 5.
Definition CONFIG_LOG_LEVEL : Z := LOG_TRACE.

(** The local terminal is a copy of the active one with its own colour; it is
    read and never written. *)
Definition kprintf_log (level : Z) (prefix : list Z) (colr : Z) (fmt : list Z) (args : list arg) (d : tty)
    : option (tty * Z) :=
  if CONFIG_LOG_LEVEL <? level then Some (d, 0)
  else
    let term := Term (backends (deref d (terminal_get_active d))) colr in
    let d := fold_left (λ d c, route font_data term c d) prefix d in
    '(d, count) ← vprintf (route font_data term) fmt args d;
    Some (route font_data term 10 d, count).
End OnTerminals.
