(* ===== verification/KprintfProps.v ===== *)
(** * The formatter writes what its format says

    The format language as an automaton that splits a format into directives,
    the text of each directive, and the theorem that the formatter sends
    exactly that text to its sink.  Printed numbers read back as the value
    printed and fit the buffers. *)
From S2P Require Import Prelude Console Keyboard Serial Terminal Kprintf.
Local Open Scope Z_scope.

(** ** Directives *)

Inductive directive :=
| Lit (c : Z)
| Conv (c is_long width : Z) (zero_pad left_align : bool).

(** Where the automaton is inside a directive. *)
Inductive pstate :=
| InText
| InFlags (zero_pad left_align : bool)
| InWidth (zero_pad left_align : bool) (width : Z)
| InLong (zero_pad left_align : bool) (width is_long : Z).

Fixpoint parse (p : pstate) (fmt : list Z) : list directive :=
  match fmt with
  | [] => []
  | c :: fmt =>
      match p with
      | InText => if c =? 37 then parse (InFlags false false) fmt else Lit c :: parse InText fmt
      | InFlags z l =>
          if c =? 45 then parse (InFlags z true) fmt
          else if c =? 48 then parse (InFlags true l) fmt
          else if is_digit c then parse (InWidth z l (s32 (c - 48))) fmt
          else if c =? 108 then parse (InLong z l 0 1) fmt
          else Conv c 0 0 (z && negb l) l :: parse InText fmt
      | InWidth z l w =>
          if is_digit c then parse (InWidth z l (s32 (w * 10 + (c - 48)))) fmt
          else if c =? 108 then parse (InLong z l w 1) fmt
          else Conv c 0 w (z && negb l) l :: parse InText fmt
      | InLong z l w n =>
          if (c =? 108) && (n =? 1) then parse (InLong z l w 2) fmt
          else Conv c n w (z && negb l) l :: parse InText fmt
      end
  end.

(** ** Text of a directive *)

Definition spaces (n : Z) : list Z := repeat 32 (Z.to_nat n).

(** [sign ++ digits] in a field of [w] characters. *)
Definition field (w : Z) (zero_pad left_align : bool) (sign digits : list Z) : list Z :=
  let n := w - Z.of_nat (length (sign ++ digits)) in
  if left_align then sign ++ digits ++ spaces n
  else if zero_pad then sign ++ repeat 48 (Z.to_nat n) ++ digits
  else spaces n ++ sign ++ digits.

Definition numeral (uppercase : bool) (base v : Z) : list Z := rev (number_buf uppercase base v).

Definition uint_text (base : Z) (upper : bool) (w : Z) (z l : bool) (v : Z) : list Z :=
  field w z l [] (numeral upper base v).

Definition int_text (w : Z) (z l : bool) (v : Z) : list Z :=
  field w z l (if v <? 0 then [45] else []) (numeral false 10 (u64 (Z.abs v))).

Definition render_one (d : directive) (args : list arg) : option (list Z * list arg) :=
  match d with
  | Lit c => Some ([c], args)
  | Conv c n w z l =>
      let unsigned base upper :=
        '(v, args) ← va_word (unsigned_cast n) args; Some (uint_text base upper w z l v, args) in
      if c =? 99 then '(v, args) ← va_word (λ v, s8 (s32 v)) args; Some ([v], args)
      else if c =? 115 then
        '(s, args) ← va_str args; Some (field w false l [] (default null_string s), args)
      else if (c =? 100) || (c =? 105) then
        '(v, args) ← va_word (signed_cast n) args; Some (int_text w z l v, args)
      else if c =? 117 then unsigned 10 false
      else if (c =? 120) || (c =? 88) then unsigned 16 (c =? 88)
      else if c =? 111 then unsigned 8 false
      else if c =? 98 then unsigned 2 false
      else if c =? 112 then
        '(v, args) ← va_word u64 args; Some ([48; 120] ++ numeral false 16 v, args)
      else if c =? 37 then Some ([37], args)
      else Some ([37; c], args)
  end.

Fixpoint render (ds : list directive) (args : list arg) : option (list Z) :=
  match ds with
  | [] => Some []
  | d :: ds =>
      '(s, args) ← render_one d args;
      rest ← render ds args;
      Some (s ++ rest)
  end.

(** ** The formatter emits the text *)

Section Engine.
Context {D : Type} (putchar : Z → D → D).

Lemma emit_app a b st : emit putchar (a ++ b) st = emit putchar b (emit putchar a st).
Proof. revert st. induction a as [|c a IH]; intros st; [done|]. apply IH. Qed.

Lemma kpad_emit c n st : kpad putchar c n st = emit putchar (repeat c (Z.to_nat n)) st.
Proof.
  unfold kpad. generalize 0. revert st. induction (Z.to_nat n) as [|m IH]; intros st i; [done|].
  cbn [for_loop repeat emit]. apply IH.
Qed.

Lemma spaces_neg n : n ≤ 0 → spaces n = [].
Proof. intros. unfold spaces. by replace (Z.to_nat n) with O by lia. Qed.

Lemma repeat_neg (c n : Z) : n ≤ 0 → repeat c (Z.to_nat n) = [].
Proof. intros. by replace (Z.to_nat n) with O by lia. Qed.

Lemma field_0 s : field 0 false false [] s = s.
Proof. unfold field. cbn [app]. rewrite spaces_neg by lia. done. Qed.

Lemma kputs_text s w l st :
  kputs_padded putchar s w l st = emit putchar (field w false l [] (default null_string s)) st.
Proof.
  unfold kputs_padded, field. cbn [app]. set (t := default null_string s).
  destruct l; cbn [negb andb]; case_if;
    rewrite ?kpad_emit, ?emit_app; unfold spaces; rewrite ?repeat_neg by lia; done.
Qed.

Lemma uint_emits v base upper w z l st :
  print_uint_padded putchar v base upper w z l st = emit putchar (uint_text base upper w z (l) v) st.
Proof.
  unfold print_uint_padded, uint_text, field, numeral. cbn [app]. rewrite length_rev.
  set (buf := number_buf upper base v). set (n := Z.of_nat (length buf)).
  destruct (Z.ltb_spec n w).
  - assert ((0 <? w - n) = true) as -> by lia.
    destruct l; cbn [negb andb]; rewrite kpad_emit; [by rewrite emit_app|].
    destruct z; by rewrite emit_app.
  - rewrite !andb_false_r. unfold spaces. rewrite repeat_neg by lia.
    destruct l; [by rewrite app_nil_r|]. destruct z; [|done]. rewrite repeat_neg by lia. done.
Qed.

Lemma int_emits v w z l st :
  print_int_padded putchar v w z l st = emit putchar (int_text w z l v) st.
Proof.
  unfold print_int_padded, int_text, field, numeral. rewrite !length_app, length_rev.
  replace (if v <? 0 then u64 (- v) else u64 v) with (u64 (Z.abs v))
    by (destruct (Z.ltb_spec v 0); f_equal; lia).
  set (buf := number_buf false 10 (u64 (Z.abs v))).
  replace (Z.of_nat (length (if v <? 0 then [45] else []) + length buf))
    with (Z.of_nat (length buf) + (if v <? 0 then 1 else 0)) by (destruct (v <? 0); simpl; lia).
  set (n := Z.of_nat (length buf) + _).
  destruct (Z.ltb_spec n w).
  - assert ((0 <? w - n) = true) as -> by lia.
    destruct l, z, (v <? 0); cbn [negb andb]; rewrite ?kpad_emit; cbn [app emit];
      rewrite ?emit_app; cbn [emit]; by rewrite ?emit_app.
  - rewrite !andb_false_r. unfold spaces. rewrite !repeat_neg by lia. rewrite app_nil_r.
    destruct l, z, (v <? 0); done.
Qed.

Lemma convert_renders c n w (z l : bool) args st :
  convert putchar c n w (if l then false else z) l args st =
  match render_one (Conv c n w (z && negb l) l) args with
  | Some (s, args) => Some (args, emit putchar s st)
  | None => None
  end.
Proof.
  replace (if l then false else z) with (z && negb l) by (by destruct z, l).
  unfold convert, render_one.
  repeat case_if; try done; try (destruct args as [|[?|?] ?]; [done| |]; try done);
    cbn [mbind option_bind va_word va_str];
    rewrite ?kputs_text, ?uint_emits, ?int_emits; try done.
  unfold kputs, uint_text. rewrite kputs_text, !field_0. by rewrite emit_app.
Qed.

(** The three loops that read a directive follow the automaton. *)
Lemma parse_flags (z l : bool) fmt :
  parse (InFlags z l) fmt = let '(f, z', l') := skip_flags fmt z l in parse (InWidth z' l' 0) f.
Proof.
  revert z l. induction fmt as [|c fmt IH]; intros z l; [done|]. cbn [parse skip_flags].
  destruct (Z.eqb_spec c 45); [apply IH|]. destruct (Z.eqb_spec c 48); [apply IH|].
  cbn [parse]. done.
Qed.

Lemma parse_width z l w fmt :
  parse (InWidth z l w) fmt =
  let '(f, w') := read_width fmt w in
  match read_long f with
  | ([], _) => []
  | (c :: r, n) => Conv c n w' (z && negb l) l :: parse InText r
  end.
Proof.
  revert w. induction fmt as [|c fmt IH]; intros w; [done|]. cbn [parse read_width].
  destruct (is_digit c); [apply IH|]. cbn [read_long].
  destruct (c =? 108); [|done]. destruct fmt as [|c' fmt]; [done|]. cbn [parse].
  destruct (c' =? 108); cbn [andb]; [|done]. destruct fmt as [|c'' fmt]; [done|]. cbn [parse].
  by rewrite andb_false_r.
Qed.

Lemma parse_text fmt :
  parse InText fmt =
  match fmt with
  | [] => []
  | c :: fmt =>
      if c =? 37 then
        let '(f, z, l) := skip_flags fmt false false in
        let '(f, w) := read_width f 0 in
        match read_long f with
        | ([], _) => []
        | (c :: r, n) => Conv c n w (z && negb l) l :: parse InText r
        end
      else Lit c :: parse InText fmt
  end.
Proof.
  destruct fmt as [|c fmt]; [done|]. cbn [parse]. case_if; [|done].
  rewrite parse_flags. destruct (skip_flags fmt false false) as [[f z] l]. apply parse_width.
Qed.

Lemma skip_flags_length fmt z l : (length (skip_flags fmt z l).1.1 ≤ length fmt)%nat.
Proof.
  revert z l. induction fmt as [|c fmt IH]; intros z l; [done|]. cbn [skip_flags].
  repeat case_if; cbn [fst snd length]; [specialize (IH z true)|specialize (IH true l)|]; lia.
Qed.

Lemma read_width_length fmt w : (length (read_width fmt w).1 ≤ length fmt)%nat.
Proof.
  revert w. induction fmt as [|c fmt IH]; intros w; [done|]. cbn [read_width].
  case_if; cbn [fst length]; [|lia]. specialize (IH (s32 (w * 10 + (c - 48)))). lia.
Qed.

Lemma read_long_length fmt : (length (read_long fmt).1 ≤ length fmt)%nat.
Proof. destruct fmt as [|c [|c' fmt]]; cbn [read_long]; repeat case_if; cbn; lia. Qed.

Lemma format_renders n fmt args st :
  (length fmt < n)%nat →
  format_loop putchar n fmt args st =
  match render (parse InText fmt) args with Some s => Some (emit putchar s st) | None => None end.
Proof.
  revert fmt args st. induction n as [|n IH]; intros fmt args st Hn; [lia|].
  rewrite parse_text. cbn [format_loop]. destruct fmt as [|c fmt]; [done|]. cbn [length] in Hn.
  destruct (Z.eqb_spec c 37) as [->|Hc]; cbn [negb].
  2:{ rewrite IH by lia. cbn [render render_one mbind option_bind].
      by destruct (render (parse InText fmt) args). }
  pose proof (skip_flags_length fmt false false) as H1.
  destruct (skip_flags fmt false false) as [[f z] l]. cbn [fst] in H1.
  pose proof (read_width_length f 0) as H2. destruct (read_width f 0) as [f2 w]. cbn [fst] in H2.
  pose proof (read_long_length f2) as H3. destruct (read_long f2) as [[|c r] ln]; [done|].
  cbn [fst length] in H3. rewrite convert_renders. cbn [render].
  destruct (render_one _ args) as [[s args']|]; [|done]. cbn [mbind option_bind].
  rewrite IH by lia. destruct (render (parse InText r) args'); [|done]. cbn. by rewrite emit_app.
Qed.

Lemma s32_idemp a b : s32 (s32 a + b) = s32 (a + b).
Proof.
  unfold s32, swrap. f_equal. change (2 ^ 32) with 4294967296. change (2 ^ (32 - 1)) with 2147483648.
  replace ((a + 2147483648) mod 4294967296 - 2147483648 + b + 2147483648)
    with ((a + 2147483648) mod 4294967296 + b) by lia.
  rewrite Zplus_mod_idemp_l. f_equal. lia.
Qed.

Lemma emit_fold s d n :
  emit putchar s (d, s32 n) = (fold_left (λ d c, putchar c d) s d, s32 (n + Z.of_nat (length s))).
Proof.
  revert d n. induction s as [|c s IH]; intros d n.
  - cbn. by rewrite Z.add_0_r.
  - cbn [emit]. unfold kputc. cbn [fst snd]. rewrite s32_idemp, IH. cbn [fold_left length].
    do 2 f_equal. lia.
Qed.

Lemma vprintf_renders fmt args d :
  vprintf putchar fmt args d =
  match render (parse InText fmt) args with
  | Some s => Some (fold_left (λ d c, putchar c d) s d, s32 (Z.of_nat (length s)))
  | None => None
  end.
Proof.
  unfold vprintf. rewrite format_renders by lia. destruct (render _ args) as [s|]; [|done].
  change (d, 0) with (d, s32 0). by rewrite emit_fold.
Qed.
End Engine.

(** ** Numbers *)

Definition digit_value (c : Z) : Z := if c <=? 57 then c - 48 else if c <=? 70 then c - 55 else c - 87.

Definition read_numeral (base : Z) (s : list Z) : Z := fold_left (λ a c, a * base + digit_value c) s 0.

Definition read_int (s : list Z) : Z :=
  match s with
  | 45 :: s => - read_numeral 10 s
  | _ => read_numeral 10 s
  end.

Lemma digit_char_value upper d : 0 ≤ d < 16 → digit_value (digit_char upper d) = d.
Proof. intros. unfold digit_value, digit_char. destruct upper; repeat case_if; lia. Qed.

Lemma digits_value n upper base v :
  2 ≤ base ≤ 16 → 0 ≤ v < base ^ Z.of_nat n →
  fold_right (λ c a, a * base + digit_value c) 0 (digits_loop n upper base v) = v.
Proof.
  intros Hb. revert v. induction n as [|n IH]; intros v Hv; [simpl in *; lia|].
  cbn [digits_loop]. case_if; [|simpl; lia]. cbn [fold_right].
  rewrite Nat2Z.inj_succ, Z.pow_succ_r in Hv by lia.
  assert (0 ≤ v mod base < base) by (apply Z.mod_pos_bound; lia).
  rewrite digit_char_value by lia.
  rewrite IH; [pose proof (Z.div_mod v base); lia|].
  split; [apply Z.div_pos; lia|apply Z.div_lt_upper_bound; lia].
Qed.

Lemma digits_length n k upper base v :
  2 ≤ base → 0 ≤ v < base ^ Z.of_nat k → (length (digits_loop n upper base v) ≤ k)%nat.
Proof.
  intros Hb. revert k v. induction n as [|n IH]; intros k v Hv; [simpl; lia|].
  cbn [digits_loop]. case_if; [|simpl; lia]. destruct k as [|k]; [simpl in Hv; lia|]. cbn [length].
  rewrite Nat2Z.inj_succ, Z.pow_succ_r in Hv by lia.
  assert (length (digits_loop n upper base (v / base)) ≤ k)%nat; [|lia].
  apply IH. split; [apply Z.div_pos; lia|apply Z.div_lt_upper_bound; lia].
Qed.

Lemma read_rev base l : read_numeral base (rev l) = fold_right (λ c a, a * base + digit_value c) 0 l.
Proof.
  unfold read_numeral. rewrite <- (rev_involutive l) at 2. by rewrite fold_left_rev_right.
Qed.

Lemma pow64_le base : 2 ≤ base → 2 ^ 64 ≤ base ^ 64.
Proof. intros. apply Z.pow_le_mono_l. lia. Qed.

Lemma numeral_value upper base v :
  2 ≤ base ≤ 16 → 0 ≤ v < 2 ^ 64 → read_numeral base (numeral upper base v) = v.
Proof.
  intros Hb Hv. unfold numeral, number_buf. rewrite read_rev. case_if; [by subst|].
  apply digits_value; [done|]. pose proof (pow64_le base). change (Z.of_nat 64) with 64. lia.
Qed.

Lemma numeral_length k upper base v :
  2 ≤ base → 0 ≤ v < base ^ Z.of_nat k → (0 < k)%nat → (length (numeral upper base v) ≤ k)%nat.
Proof.
  intros Hb Hv Hk. unfold numeral, number_buf. rewrite length_rev. case_if; [simpl; lia|].
  by apply digits_length.
Qed.

Lemma digits_head n upper base v :
  2 ≤ base ≤ 16 → Forall (λ c, c ≠ 45) (digits_loop n upper base v).
Proof.
  intros Hb. revert v. induction n as [|n IH]; intros v; [constructor|]. cbn [digits_loop].
  case_if; [|constructor]. constructor; [|apply IH].
  assert (0 ≤ v mod base < base) by (apply Z.mod_pos_bound; lia).
  unfold digit_char. destruct upper; repeat case_if; lia.
Qed.

Lemma read_int_unsigned v : read_int (numeral false 10 v) = read_numeral 10 (numeral false 10 v).
Proof.
  assert (Forall (λ c, c ≠ 45) (numeral false 10 v)) as H.
  { unfold numeral, number_buf. case_if; [by repeat constructor|].
    apply Forall_rev, digits_head. lia. }
  destruct H as [|c l Hc _]; [done|]. unfold read_int. by repeat case_match.
Qed.

(** The text of a 64-bit number in any base the
    formats use reads back as that number, with or without a sign, and the
    digits fit the buffers of 65 and 21 characters. *)
Theorem numbers_read_back upper base v i :
  2 ≤ base ≤ 16 → 0 ≤ v < 2 ^ 64 → - 2 ^ 63 ≤ i < 2 ^ 63 →
  read_numeral base (uint_text base upper 0 false false v) = v ∧
  read_int (int_text 0 false false i) = i ∧
  (length (number_buf upper base v) < 65)%nat ∧
  (length (number_buf false 10 (u64 (Z.abs i))) < 21)%nat.
Proof.
  intros Hb Hv Hi. unfold uint_text. rewrite field_0.
  assert (Hu : 0 ≤ u64 (Z.abs i) < 2 ^ 64) by (pose proof (u64_bound (Z.abs i)); lia).
  assert (Ei : u64 (Z.abs i) = Z.abs i) by (apply u64_small; lia).
  split; [by apply numeral_value|]. split; [|split].
  - unfold int_text, field. rewrite spaces_neg by lia. cbn [app]. case_if; cbn [app].
    + cbn [read_int]. rewrite numeral_value by (done || lia). lia.
    + rewrite read_int_unsigned, numeral_value by (done || lia). lia.
  - rewrite <- length_rev. pose proof (numeral_length 64 upper base v) as H. unfold numeral in H.
    pose proof (pow64_le base). change (Z.of_nat 64) with 64 in H. lia.
  - rewrite <- length_rev. pose proof (numeral_length 20 false 10 (u64 (Z.abs i))) as H. unfold numeral in H.
    change (10 ^ Z.of_nat 20) with 100000000000000000000 in H. lia.
Qed.

Lemma numbers_read_back_witness :
  read_numeral 16 (uint_text 16 true 0 false false 0xBEEF) = 0xBEEF ∧
  read_int (int_text 0 false false (- 2 ^ 63)) = - 2 ^ 63.
Proof.
  destruct (numbers_read_back true 16 0xBEEF (- 2 ^ 63) ltac:(lia) ltac:(lia) ltac:(lia)) as (H1 & H2 & _).
  exact (conj H1 H2).
Defined.

(** ** Terminals and the log *)


(** A message at an enabled level puts its prefix,
    its text and a line end, in the level's colour, on the devices of the
    active terminal, and returns the length of the text; a message above the
    level changes nothing. *)
Theorem kprintf_log_writes font_data level prefix colr fmt args d :
  kprintf_log font_data level prefix colr fmt args d =
  if CONFIG_LOG_LEVEL <? level then Some (d, 0)
  else
    match render (parse InText fmt) args with
    | Some s =>
        Some (routed font_data (Term (backends (deref d (active_terminal d))) colr) (prefix ++ s ++ [10]) d,
              s32 (Z.of_nat (length s)))
    | None => None
    end.
Proof.
  unfold kprintf_log, terminal_get_active. case_if; [done|].
  rewrite vprintf_renders. destruct (render _ args) as [s|]; [|done]. cbn [mbind option_bind].
  do 2 f_equal. by rewrite !routed_app, <- !route_fold.
Qed.
