(* ===== verification/Alloc.v ===== *)
(** * The allocator interface

    What the threads and processes rely on when they call [kmalloc] and
    [kfree], stated once as a class, and the kernel heap as its instance. *)
From S2P Require Import Prelude Pmm Page Vmm Heap HeapInv HeapProps HeapSpec.
Local Open Scope Z_scope.

(** [a_ok h L k]: the live allocations of [h] are [L] (pointer to length), and
    the address range has room for the growth of [k] more calls.  An
    allocation fails or is fresh, large enough, disjoint from the live ones
    and 8 modulo 16. *)
Class Allocator (H : Type) := {
  a_malloc : Z → H → Z * H;
  a_free : Z → H → H;
  a_ok : H → gmap Z Z → nat → Prop;
  a_malloc_ok size h L k :
    a_ok h L (S k) → 8 < size < 2 ^ 62 →
    let '(r, h') := a_malloc size h in
    (r = 0 ∧ a_ok h' L k) ∨
    ∃ n, 0 < r ∧ r + n < 2 ^ 64 ∧ r mod 16 = 8 ∧ size ≤ n ∧ L !! r = None ∧
      (∀ q m, L !! q = Some m → q + m ≤ r ∨ r + n ≤ q) ∧ a_ok h' (<[r := n]> L) k;
  a_free_ok p h L k : a_ok h L k → is_Some (L !! p) → a_ok (a_free p h) (delete p L) k;
  a_weaken h L k : a_ok h L (S k) → a_ok h L k;
  a_live_ok p n h L k : a_ok h L k → L !! p = Some n → 0 < p ∧ p mod 16 = 8 ∧ 0 < n;
}.

(** [kfree(NULL)] does nothing. *)
Definition a_free_maybe {H : Type} `{!Allocator H} (p : Z) (h : H) : H := if p =? 0 then h else a_free p h.

Section HeapAllocator.
Context {P : Type} `{!PageSource P}.

Definition heap_malloc (size : Z) (s : heap * P) : Z * (heap * P) :=
  match kmalloc size s.1 s.2 with
  | Some (r, h, p) => (r, (h, p))
  | None => (0, s)
  end.

Definition heap_ok (s : heap * P) (L : gmap Z Z) (k : nat) : Prop :=
  (∃ c, heap_rel s.1 (AHeap L c)) ∧ heap_end s.1 + Z.of_nat k * (64 * 4096) < 2 ^ 64 ∧ 0 < heap_start s.1.

Lemma heap_malloc_ok size s L k :
  heap_ok s L (S k) → 8 < size < 2 ^ 62 →
  let '(r, s') := heap_malloc size s in
  (r = 0 ∧ heap_ok s' L k) ∨
  ∃ n, 0 < r ∧ r + n < 2 ^ 64 ∧ r mod 16 = 8 ∧ size ≤ n ∧ L !! r = None ∧
    (∀ q m, L !! q = Some m → q + m ≤ r ∨ r + n ≤ q) ∧ heap_ok s' (<[r := n]> L) k.
Proof.
  destruct s as [h p]. intros [[c Hrel] [Hfit Hs]] Hsz. cbn [fst snd] in *.
  pose proof Hrel as (bs & l & Hinv & Hlive & Hcont). unfold heap_malloc. cbn [fst snd].
  destruct (kmalloc_ok size h bs l p Hinv Hsz ltac:(lia)) as (r & h' & p' & -> & Hend & [(-> & -> & _)|[_ Ha]]).
  { left. split; [done|]. split; [by exists c|]. cbn [fst]. lia. }
  right. pose proof Ha as (bs' & l' & n' & _ & _ & _ & Es & _).
  destruct (allocated_rel size h (AHeap L c) bs r h' Hlive Hcont Ha) as (n & Hn & Hm & Hr & Hd & _ & Hrel').
  cbn [live] in *. destruct (live_placed _ _ r n Hrel' ltac:(apply lookup_insert_eq)) as (Hr1 & Hr2 & _ & Hn24 & _).
  exists n. split_and!; try done; [lia| |].
  - destruct (L !! r) as [m|] eqn:E; [|done].
    destruct (live_placed _ _ r m Hrel E) as (_ & _ & _ & Hm24 & _). specialize (Hd r m E). lia.
  - split; [by eexists|]. cbn [fst]. rewrite Es. split; [lia|exact Hs].
Qed.

Lemma heap_free_ok ptr s L k :
  heap_ok s L k → is_Some (L !! ptr) → heap_ok (kfree ptr s.1, s.2) (delete ptr L) k.
Proof.
  destruct s as [h p]. intros [[c Hrel] [Hfit Hs]] Hptr. cbn [fst snd] in *.
  destruct (kfree_rel h (AHeap L c) ptr Hrel Hptr) as (Hrel' & E1 & E2).
  split; [by exists c|]. cbn [fst]. by rewrite E1, E2.
Qed.

Lemma heap_live_ok ptr n s L k : heap_ok s L k → L !! ptr = Some n → 0 < ptr ∧ ptr mod 16 = 8 ∧ 0 < n.
Proof.
  intros [[c Hrel] [_ Hs]] Hp. destruct (live_placed _ _ ptr n Hrel Hp) as (? & _ & ? & ? & _). lia.
Qed.

Lemma heap_weaken s L k : heap_ok s L (S k) → heap_ok s L k.
Proof. intros (H1 & H2 & H3). split; [done|]. split; [lia|done]. Qed.

#[global] Instance heap_allocator : Allocator (heap * P) := {|
  a_malloc := heap_malloc;
  a_free := λ ptr s, (kfree ptr s.1, s.2);
  a_ok := heap_ok;
  a_malloc_ok := heap_malloc_ok;
  a_free_ok := heap_free_ok;
  a_weaken := heap_weaken;
  a_live_ok := heap_live_ok;
|}.
End HeapAllocator.
