(* ===== verification/Kthread.v ===== *)
(** * Kernel threads ([kernel/kthread.c], [kernel/kthread_switch.S])

    Thread control blocks are objects behind pointers, linked from the genesis
    thread through [next]; freeing one removes it from the store.  A context
    switch saves and loads the stack pointer.  The idle loop of the scheduler
    waits for interrupts: what happens during each [hlt] is an argument. *)
From S2P Require Import Prelude Pmm Page Vmm Heap HeapInv HeapProps HeapSpec Alloc.
Local Open Scope Z_scope.

Definition KTHREAD_STACK_SIZE : Z := 16384.

(** [sizeof(kthread_t)]: ten fields of eight bytes. *)
Definition sizeof_kthread : Z := 80.

Inductive thread_state := THREAD_READY | THREAD_RUNNING | THREAD_BLOCKED | THREAD_EXITED.

#[global] Instance thread_state_eq_dec : EqDecision thread_state.
Proof. solve_decision. Defined.

Record kthread := Kthread {
  kt_name : Z;
  kt_id : Z;
  kt_rsp : Z;
  stack_base : Z;
  kt_state : thread_state;
  kt_next : Z;
  wait_next : Z;
  kt_entry : Z;
  kt_arg : Z;
  wake_tick : Z;
}.

Definition zero_kthread : kthread := Kthread 0 0 0 0 THREAD_READY 0 0 0 0 0.

(** [stacks] holds the words [kthread_create] puts on new stacks; [cpu_rsp] is
    the stack pointer of the processor, [tick_count] the timer's count. *)
Record sched := Sched {
  threads : gmap Z kthread;
  current_kthread : Z;
  next_thread_id : Z;
  preempt_count : Z;
  tick_count : Z;
  cpu_rsp : Z;
  stacks : gmap Z Z;
}.

(** The address of [genesis_kthread], outside the heap. *)
Definition genesis_kthread : Z := 1.

Definition thr (s : sched) (p : Z) : kthread := default zero_kthread (threads s !! p).

Definition set_threads (m : gmap Z kthread) (s : sched) : sched :=
  Sched m (current_kthread s) (next_thread_id s) (preempt_count s) (tick_count s) (cpu_rsp s) (stacks s).

Definition set_thr (p : Z) (t : kthread) (s : sched) : sched := set_threads (<[p := t]> (threads s)) s.

Definition set_current (p : Z) (s : sched) : sched :=
  Sched (threads s) p (next_thread_id s) (preempt_count s) (tick_count s) (cpu_rsp s) (stacks s).

Definition set_preempt (n : Z) (s : sched) : sched :=
  Sched (threads s) (current_kthread s) (next_thread_id s) n (tick_count s) (cpu_rsp s) (stacks s).

Definition set_ticks (n : Z) (s : sched) : sched :=
  Sched (threads s) (current_kthread s) (next_thread_id s) (preempt_count s) n (cpu_rsp s) (stacks s).

Definition set_cpu_rsp (n : Z) (s : sched) : sched :=
  Sched (threads s) (current_kthread s) (next_thread_id s) (preempt_count s) (tick_count s) n (stacks s).

(** Updates of one field of a control block. *)
Definition with_state (st : thread_state) (t : kthread) : kthread :=
  Kthread (kt_name t) (kt_id t) (kt_rsp t) (stack_base t) st (kt_next t) (wait_next t)
    (kt_entry t) (kt_arg t) (wake_tick t).

Definition with_next (n : Z) (t : kthread) : kthread :=
  Kthread (kt_name t) (kt_id t) (kt_rsp t) (stack_base t) (kt_state t) n (wait_next t)
    (kt_entry t) (kt_arg t) (wake_tick t).

Definition with_wait_next (n : Z) (t : kthread) : kthread :=
  Kthread (kt_name t) (kt_id t) (kt_rsp t) (stack_base t) (kt_state t) (kt_next t) n
    (kt_entry t) (kt_arg t) (wake_tick t).

Definition with_rsp (r : Z) (t : kthread) : kthread :=
  Kthread (kt_name t) (kt_id t) r (stack_base t) (kt_state t) (kt_next t) (wait_next t)
    (kt_entry t) (kt_arg t) (wake_tick t).

Definition with_wake (w : Z) (t : kthread) : kthread :=
  Kthread (kt_name t) (kt_id t) (kt_rsp t) (stack_base t) (kt_state t) (kt_next t) (wait_next t)
    (kt_entry t) (kt_arg t) w.

Definition upd (p : Z) (f : kthread → kthread) (s : sched) : sched := set_thr p (f (thr s p)) s.

Definition set_state (p : Z) (st : thread_state) (s : sched) : sched := upd p (with_state st) s.

Definition is_state (s : sched) (p : Z) (st : thread_state) : bool := bool_decide (kt_state (thr s p) = st).

(** ** Preemption *)

Definition preempt_disable (s : sched) : sched := set_preempt (s32 (preempt_count s + 1)) s.

Definition preempt_enable (s : sched) : sched := set_preempt (s32 (preempt_count s - 1)) s.

Definition preempt_enabled (s : sched) : bool := preempt_count s =? 0.

(** ** Context switch

    The call pushes the return address and the routine six registers; the
    other thread left its stack the same way. *)
Definition kthread_switch (old new_rsp : Z) (s : sched) : sched :=
  let s := upd old (with_rsp (u64 (cpu_rsp s - 56))) s in
  set_cpu_rsp (u64 (new_rsp + 56)) s.

Definition kthread_current (s : sched) : Z := current_kthread s.

Definition kthread_set_current (p : Z) (s : sched) : sched := set_current p s.

Definition kthread_exit (s : sched) : sched :=
  let exiting := current_kthread s in
  let s := set_state exiting THREAD_EXITED s in
  let s := kthread_set_current genesis_kthread s in
  kthread_switch exiting (kt_rsp (thr s genesis_kthread)) s.

(** ** Walks along the thread list

    A list without a cycle has at most as many threads as the store. *)
Definition list_fuel (s : sched) : nat := S (size (threads s)).

(** [t = ...; while (t != NULL) { body; t = t->next; }] *)
Fixpoint walk (fuel : nat) (body : Z → sched → sched) (t : Z) (s : sched) : sched :=
  match fuel with
  | O => s
  | S fuel' =>
      if t =? 0 then s
      else let s := body t s in walk fuel' body (kt_next (thr s t)) s
  end.

Fixpoint find_id (fuel : nat) (id t : Z) (s : sched) : Z :=
  match fuel with
  | O => 0
  | S fuel' =>
      if t =? 0 then 0
      else if kt_id (thr s t) =? id then t else find_id fuel' id (kt_next (thr s t)) s
  end.

Definition kthread_get_kthread (id : Z) (s : sched) : Z := find_id (list_fuel s) id genesis_kthread s.

(** [while (t != stop && t->state != THREAD_READY) t = t->next;] *)
Fixpoint find_ready (fuel : nat) (stop t : Z) (s : sched) : Z :=
  match fuel with
  | O => t
  | S fuel' =>
      if negb (t =? stop) && negb (is_state s t THREAD_READY)
      then find_ready fuel' stop (kt_next (thr s t)) s else t
  end.

(** ** Sleeping threads *)

Definition wake_one (now t : Z) (s : sched) : sched :=
  if is_state s t THREAD_BLOCKED && negb (wake_tick (thr s t) =? 0) && (wake_tick (thr s t) <=? now)
  then upd t (λ th, with_wake 0 (with_state THREAD_READY th)) s else s.

Definition kthread_wake_sleepers (s : sched) : sched :=
  walk (list_fuel s) (wake_one (tick_count s)) genesis_kthread s.

(** ** The scheduler *)

(** The idle loop, entered while the current thread is blocked: [hlts] gives
    the effect of the interrupts during each [hlt]; [None] when they run out. *)
Fixpoint idle (hlts : list (sched → sched)) (s : sched) : option sched :=
  if is_state s (current_kthread s) THREAD_BLOCKED then
    match hlts with
    | [] => None
    | h :: hlts =>
        let s := kthread_wake_sleepers (h s) in
        if is_state s (current_kthread s) THREAD_BLOCKED then
          let t := find_ready (list_fuel s) 0 genesis_kthread s in
          if negb (t =? 0) then
            let old := current_kthread s in
            let s := set_state t THREAD_RUNNING (set_current t s) in
            Some (kthread_switch old (kt_rsp (thr s t)) s)
          else idle hlts s
        else idle hlts s
    end
  else Some (set_state (current_kthread s) THREAD_RUNNING s).

(** The thread the scheduler picks: the first ready one after the current
    thread, or else from the head of the list up to the current thread. *)
Definition pick_next (s : sched) : Z :=
  let cur := current_kthread s in
  let next := find_ready (list_fuel s) 0 (kt_next (thr s cur)) s in
  if next =? 0 then find_ready (list_fuel s) cur genesis_kthread s else next.

Definition kthread_schedule (hlts : list (sched → sched)) (s : sched) : option sched :=
  if 0 <? preempt_count s then Some s
  else
    let s := kthread_wake_sleepers s in
    let next := pick_next s in
    if negb (next =? 0) && negb (next =? current_kthread s) then
      let old := current_kthread s in
      let s := if is_state s old THREAD_RUNNING then set_state old THREAD_READY s else s in
      let s := set_state next THREAD_RUNNING (set_current next s) in
      Some (kthread_switch old (kt_rsp (thr s next)) s)
    else if is_state s (current_kthread s) THREAD_BLOCKED then idle hlts s
    else Some s.

Definition kthread_yield (hlts : list (sched → sched)) (s : sched) : option sched :=
  kthread_schedule hlts (set_state (current_kthread s) THREAD_READY s).

Definition kthread_sleep (ms : Z) (hlts : list (sched → sched)) (s : sched) : option sched :=
  let ticks := u64 (ms + 9) / 10 in
  let cur := current_kthread s in
  let s := upd cur (with_wake (u64 (tick_count s + ticks))) s in
  kthread_schedule hlts (set_state cur THREAD_BLOCKED s).

Definition kthread_block (hlts : list (sched → sched)) (s : sched) : option sched :=
  let cur := current_kthread s in
  kthread_schedule hlts (upd cur (with_wake 0) (set_state cur THREAD_BLOCKED s)).

Definition kthread_unblock (t : Z) (s : sched) : sched :=
  if is_state s t THREAD_BLOCKED then set_state t THREAD_READY s else s.

(** The threading part of [apic_timer_handler]. *)
Definition timer_tick (hlts : list (sched → sched)) (s : sched) : option sched :=
  let s := set_ticks (u64 (tick_count s + 1)) s in
  if negb (kthread_current s =? 0)
  then kthread_schedule hlts (kthread_wake_sleepers s) else Some s.

(** ** Creation and reaping *)

Section WithHeap.
Context {H : Type} `{!Allocator H} (kthread_trampoline : Z).

(** [while (iter->next != NULL) iter = iter->next;] *)
Fixpoint last_thread (fuel : nat) (t : Z) (s : sched) : Z :=
  match fuel with
  | O => t
  | S fuel' => if negb (kt_next (thr s t) =? 0) then last_thread fuel' (kt_next (thr s t)) s else t
  end.

(** The initial frame: the trampoline's address above six zero registers. *)
Definition push_frame (top : Z) (m : gmap Z Z) : gmap Z Z :=
  for_loop 6 0 (λ i m, wr m (u64 (top - 16 - 8 * i)) 0) (wr m (u64 (top - 8)) kthread_trampoline).

Definition kthread_create (name entry arg : Z) (hp : H) (s : sched) : outcome (Z * H * sched) :=
  let s := preempt_disable s in
  let '(p, hp) := a_malloc sizeof_kthread hp in
  if p =? 0 then Done (0, hp, preempt_enable s)
  else
    let id := next_thread_id s in
    let s := Sched (threads s) (current_kthread s) (u64 (id + 1)) (preempt_count s) (tick_count s)
               (cpu_rsp s) (stacks s) in
    let '(base, hp) := a_malloc KTHREAD_STACK_SIZE hp in
    if base =? 0 then Done (0, a_free p hp, preempt_enable s)
    else
      let stack_top := Z.land (u64 (base + KTHREAD_STACK_SIZE)) (~64 0xF) in
      let s := set_thr p (Kthread name id stack_top base THREAD_READY 0 0 entry arg 0) s in
      if current_kthread s =? 0 then Halted
      else
        let last := last_thread (list_fuel s) genesis_kthread s in
        let s := upd last (with_next p) s in
        let s := Sched (threads s) (current_kthread s) (next_thread_id s) (preempt_count s) (tick_count s)
                   (cpu_rsp s) (push_frame stack_top (stacks s)) in
        let s := upd p (with_rsp (u64 (stack_top - 56))) s in
        Done (id, hp, preempt_enable s).

Definition kthread_init (reaper_name reaper_task genesis_name : Z) (hp : H) (s : sched)
    : outcome (Z * H * sched) :=
  let g := thr s genesis_kthread in
  let s := set_thr genesis_kthread
    (Kthread genesis_name 0 0 0 THREAD_RUNNING 0 (wait_next g) 0x1337 0 (wake_tick g)) s in
  kthread_create reaper_name reaper_task 0 hp (set_current genesis_kthread s).

Definition delete_thr (p : Z) (s : sched) : sched := set_threads (delete p (threads s)) s.

(** The loop of [kthread_reap]. *)
Fixpoint reap_loop (fuel : nat) (prev iter : Z) (hp : H) (s : sched) : H * sched :=
  match fuel with
  | O => (hp, s)
  | S fuel' =>
      if iter =? 0 then (hp, s)
      else if is_state s iter THREAD_EXITED then
        let to_free := iter in
        let next := kt_next (thr s iter) in
        let s := upd prev (with_next next) s in
        let base := stack_base (thr s to_free) in
        let hp := if negb (base =? 0) then a_free base hp else hp in
        reap_loop fuel' prev next (a_free to_free hp) (delete_thr to_free s)
      else reap_loop fuel' iter (kt_next (thr s iter)) hp s
  end.

Definition kthread_reap (hp : H) (s : sched) : H * sched :=
  let s := preempt_disable s in
  let '(hp, s) := reap_loop (list_fuel s) genesis_kthread (kt_next (thr s genesis_kthread)) hp s in
  (hp, preempt_enable s).
End WithHeap.
