(* ===== verification/KthreadProps.v ===== *)
(** * The scheduler is round robin

    The thread list as a list of pointers, the walks along it as folds, the
    choice of the scheduler as the first ready thread in cyclic order, and the
    invariant of the thread table. *)
From S2P Require Import Prelude Pmm Page Vmm Heap HeapInv HeapProps HeapSpec Alloc Kthread.
Local Open Scope Z_scope.

(** ** Control blocks *)

Lemma thr_upd p f s q : thr (upd p f s) q = if decide (p = q) then f (thr s p) else thr s q.
Proof.
  unfold upd, set_thr, thr, set_threads. cbn [threads]. rewrite lookup_insert. by case_decide.
Qed.

Lemma thr_upd_eq p f s : thr (upd p f s) p = f (thr s p).
Proof. rewrite thr_upd. by rewrite decide_True. Qed.

Lemma thr_upd_ne p f s q : p ≠ q → thr (upd p f s) q = thr s q.
Proof. intros. rewrite thr_upd. by rewrite decide_False. Qed.

Lemma is_state_spec s p st : is_state s p st = true ↔ kt_state (thr s p) = st.
Proof. apply bool_decide_eq_true. Qed.

(** A thread not in the store reads as ready, so a blocked one is in it. *)
Lemma not_ready_dom s p : kt_state (thr s p) ≠ THREAD_READY → is_Some (threads s !! p).
Proof. unfold thr. destruct (threads s !! p); [by eexists|done]. Qed.

(** ** Links *)

(** The same threads, linked the same way. *)
Definition links_eq (s s' : sched) : Prop :=
  (∀ p, is_Some (threads s !! p) ↔ is_Some (threads s' !! p)) ∧
  ∀ p, kt_next (thr s p) = kt_next (thr s' p).

#[export] Instance links_eq_equiv : Equivalence links_eq.
Proof.
  split.
  - done.
  - intros s s' [H1 H2]. split; intros p; [by rewrite H1|by rewrite H2].
  - intros s1 s2 s3 [H1 H2] [H3 H4]. split; intros p; [by rewrite H1, H3|by rewrite H2, H4].
Qed.

Lemma links_upd p f s :
  is_Some (threads s !! p) → (∀ t, kt_next (f t) = kt_next t) → links_eq s (upd p f s).
Proof.
  intros Hp Hf. split; intros q.
  - unfold upd, set_thr, set_threads. cbn [threads]. rewrite lookup_insert.
    case_decide; [subst; split; [by eexists|done]|done].
  - rewrite thr_upd. case_decide; [subst; by rewrite Hf|done].
Qed.

(** [l] is the list from [p] along [next] to NULL. *)
Fixpoint chain (s : sched) (p : Z) (l : list Z) : Prop :=
  match l with
  | [] => p = 0
  | q :: l => p = q ∧ q ≠ 0 ∧ is_Some (threads s !! q) ∧ chain s (kt_next (thr s q)) l
  end.

#[export] Instance chain_proper : Proper (links_eq ==> eq ==> eq ==> iff) chain.
Proof.
  intros s s' [H1 H2] p ? <- l ? <-. revert p. induction l as [|q l IH]; intros p; [done|].
  cbn [chain]. by rewrite H1, <- H2, IH.
Qed.

Lemma chain_app s p l1 l2 :
  chain s p (l1 ++ l2) → ∃ q, chain s q l2 ∧ (l2 = [] → q = 0).
Proof.
  revert p. induction l1 as [|x l1 IH]; intros p; cbn [app chain].
  - intros H. exists p. split; [done|]. by intros ->.
  - intros (_ & _ & _ & H). by eapply IH.
Qed.

Lemma chain_next s p l1 q l2 : chain s p (l1 ++ q :: l2) → chain s (kt_next (thr s q)) l2.
Proof.
  revert p. induction l1 as [|x l1 IH]; intros p; cbn [app chain].
  - by intros (_ & _ & _ & H).
  - intros (_ & _ & _ & H). by eapply IH.
Qed.

Lemma chain_elem s p l q : chain s p l → q ∈ l → q ≠ 0 ∧ is_Some (threads s !! q).
Proof.
  revert p. induction l as [|x l IH]; intros p; [by intros _ ?%not_elem_of_nil|].
  intros (-> & H0 & Hs & Hc) [->|Hq]%elem_of_cons; [done|]. by eapply IH.
Qed.

(** ** Walks *)

Lemma walk_fold fuel body p l s :
  (∀ t s', t ∈ l → links_eq s s' → links_eq s' (body t s')) →
  chain s p l → (length l < fuel)%nat →
  walk fuel body p s = fold_left (λ s t, body t s) l s ∧
  links_eq s (fold_left (λ s t, body t s) l s).
Proof.
  intros Hb. revert fuel p s Hb. induction l as [|q l IH]; intros fuel p s Hb Hc Hn;
    (destruct fuel as [|fuel]; [cbn in Hn; lia|]); cbn [walk chain length fold_left] in *.
  - by subst.
  - destruct Hc as (-> & H0 & Hs & Hc). assert ((q =? 0) = false) as -> by lia.
    assert (links_eq s (body q s)) as Hl by (apply Hb; [by left|done]).
    destruct (IH fuel (kt_next (thr (body q s) q)) (body q s)) as [E H].
    + intros t s' Ht Hs'. apply Hb; [by right|]. by transitivity (body q s).
    + destruct (Hl) as [_ E]. rewrite <- E. by rewrite <- Hl.
    + lia.
    + split; [done|]. by transitivity (body q s).
Qed.

Lemma find_ready_null fuel p l s :
  chain s p l → (length l < fuel)%nat →
  find_ready fuel 0 p s = default 0 (find (λ t, is_state s t THREAD_READY) l).
Proof.
  revert fuel p. induction l as [|q l IH]; intros fuel p Hc Hn;
    (destruct fuel as [|fuel]; [cbn in Hn; lia|]); cbn [find_ready chain length find] in *.
  - by subst.
  - destruct Hc as (-> & H0 & Hs & Hc). assert ((q =? 0) = false) as -> by lia. cbn [negb andb].
    destruct (is_state s q THREAD_READY); cbn [negb]; [done|]. apply IH; [done|lia].
Qed.

Lemma find_ready_stop fuel p l1 cur l2 s :
  chain s p (l1 ++ cur :: l2) → cur ∉ l1 → (length l1 < fuel)%nat →
  find_ready fuel cur p s = default cur (find (λ t, is_state s t THREAD_READY) l1).
Proof.
  revert fuel p. induction l1 as [|q l1 IH]; intros fuel p Hc Hni Hn;
    (destruct fuel as [|fuel]; [cbn in Hn; lia|]); cbn [find_ready app chain length find] in *.
  - destruct Hc as (-> & _). by rewrite Z.eqb_refl.
  - destruct Hc as (-> & H0 & Hs & Hc). apply not_elem_of_cons in Hni as [Hne Hni].
    assert ((q =? cur) = false) as -> by lia. cbn [negb andb].
    destruct (is_state s q THREAD_READY); cbn [negb]; [done|]. by apply IH; [..|lia].
Qed.

(** ** The thread table *)

Record sched_wf (s : sched) (l : list Z) : Prop := {
  wf_chain : chain s genesis_kthread l;
  wf_nodup : NoDup l;
  wf_dom : ∀ p, is_Some (threads s !! p) → p ∈ l;
  wf_current : current_kthread s ∈ l;
  wf_ids : ∀ p, p ∈ l → 0 ≤ kt_id (thr s p) < next_thread_id s;
  wf_ids_inj : ∀ p q, p ∈ l → q ∈ l → kt_id (thr s p) = kt_id (thr s q) → p = q;
  wf_running : ∀ p, kt_state (thr s p) = THREAD_RUNNING → p = current_kthread s;
}.

Lemma wf_size s l : sched_wf s l → size (threads s) = length l.
Proof.
  intros Hwf. rewrite <- (size_dom (D := gset Z)).
  assert (dom (threads s) = list_to_set l) as ->.
  { apply set_eq. intros p. rewrite elem_of_list_to_set, elem_of_dom. split; [apply Hwf|].
    intros Hp. by eapply chain_elem; [apply Hwf|]. }
  apply size_list_to_set, Hwf.
Qed.

Lemma wf_fuel s l : sched_wf s l → list_fuel s = S (length l).
Proof. intros Hwf. unfold list_fuel. by rewrite (wf_size s l). Qed.

Lemma wf_genesis s l : sched_wf s l → ∃ l', l = genesis_kthread :: l'.
Proof.
  intros Hwf. pose proof (wf_chain _ _ Hwf) as Hc. destruct l as [|q l]; [done|].
  destruct Hc as (<- & _). by exists l.
Qed.

Lemma wf_split s l :
  sched_wf s l → ∃ l1 l2, l = l1 ++ current_kthread s :: l2 ∧ (current_kthread s ∉ l1) ∧ (current_kthread s ∉ l2).
Proof.
  intros Hwf. destruct (list_elem_of_split _ _ (wf_current _ _ Hwf)) as (l1 & l2 & E).
  exists l1, l2. split; [done|]. pose proof (wf_nodup _ _ Hwf) as Hnd. rewrite E in Hnd.
  apply list.NoDup_app in Hnd as (_ & H1 & H2). inversion_clear H2. split; [|done].
  intros Hin. apply (H1 _ Hin). by left.
Qed.

(** ** Waking *)

Definition woken (now : Z) (t : kthread) : kthread :=
  if bool_decide (kt_state t = THREAD_BLOCKED) && negb (wake_tick t =? 0) && (wake_tick t <=? now)
  then with_wake 0 (with_state THREAD_READY t) else t.

Lemma wake_one_thr now t s p : thr (wake_one now t s) p = if decide (t = p) then woken now (thr s p) else thr s p.
Proof.
  unfold wake_one, woken, is_state. destruct (decide (t = p)) as [->|Hne].
  - case_if; [by rewrite thr_upd_eq|done].
  - case_if; [by rewrite thr_upd_ne|done].
Qed.

Lemma wake_one_links now t s : links_eq s (wake_one now t s).
Proof.
  unfold wake_one. case_if; [|done]. apply links_upd; [|done].
  apply not_ready_dom. match goal with H : is_state _ _ _ = true |- _ => apply is_state_spec in H; rewrite H end. done.
Qed.

Lemma wake_fold now l s p :
  NoDup l →
  thr (fold_left (λ s t, wake_one now t s) l s) p = if decide (p ∈ l) then woken now (thr s p) else thr s p.
Proof.
  revert s. induction l as [|q l IH]; intros s Hnd; cbn [fold_left].
  - by rewrite decide_False by apply not_elem_of_nil.
  - inversion_clear Hnd as [|? ? Hq Hnd']. rewrite IH by done. rewrite wake_one_thr.
    destruct (decide (q = p)) as [->|Hne].
    + rewrite (decide_False (P := p ∈ l)), decide_True by (done || by left). done.
    + destruct (decide (p ∈ l)); [by rewrite decide_True by (by right)|].
      rewrite decide_False; [done|]. intros [->|?]%elem_of_cons; done.
Qed.

(** Scalars the walk leaves alone. *)
Definition same_cpu (s s' : sched) : Prop :=
  current_kthread s' = current_kthread s ∧ next_thread_id s' = next_thread_id s ∧
  preempt_count s' = preempt_count s ∧ tick_count s' = tick_count s ∧ cpu_rsp s' = cpu_rsp s ∧
  stacks s' = stacks s.

#[export] Instance same_cpu_preorder : PreOrder same_cpu.
Proof. split; [done|]. intros s1 s2 s3 (?&?&?&?&?&?) (?&?&?&?&?&?). unfold same_cpu. split_and!; congruence. Qed.

Lemma wake_fold_cpu now l s : same_cpu s (fold_left (λ s t, wake_one now t s) l s).
Proof.
  revert s. induction l as [|q l IH]; intros s; [done|]. cbn [fold_left].
  transitivity (wake_one now q s); [|apply IH]. unfold wake_one. by case_if.
Qed.

(** What [kthread_wake_sleepers] does to a table. *)
Lemma wake_sleepers_spec s l :
  sched_wf s l →
  let s' := kthread_wake_sleepers s in
  same_cpu s s' ∧ links_eq s s' ∧
  ∀ p, thr s' p = if decide (p ∈ l) then woken (tick_count s) (thr s p) else thr s p.
Proof.
  intros Hwf. unfold kthread_wake_sleepers.
  destruct (walk_fold (list_fuel s) (wake_one (tick_count s)) genesis_kthread l s) as [-> Hl].
  - intros. apply wake_one_links.
  - apply Hwf.
  - rewrite (wf_fuel s l) by done. lia.
  - split; [apply wake_fold_cpu|split; [done|]]. intros p. apply wake_fold, Hwf.
Qed.

Lemma woken_id now t : kt_id (woken now t) = kt_id t.
Proof. unfold woken. by case_if. Qed.

Lemma woken_running now t : kt_state (woken now t) = THREAD_RUNNING → kt_state t = THREAD_RUNNING.
Proof. unfold woken. case_if; [done|done]. Qed.

(** A change of the table that keeps links, identifiers and who may run. *)
Lemma wf_update s s' l :
  sched_wf s l → links_eq s s' → next_thread_id s' = next_thread_id s → current_kthread s' ∈ l →
  (∀ p, kt_id (thr s' p) = kt_id (thr s p)) →
  (∀ p, kt_state (thr s' p) = THREAD_RUNNING → p = current_kthread s') →
  sched_wf s' l.
Proof.
  intros [H1 H2 H3 H4 H5 H6 H7] Hl En Hcur Hid Hrun. split; [by rewrite <- Hl|done| |done| | |done].
  - intros p Hp. apply H3. by apply Hl.
  - intros p Hp. rewrite Hid, En. by apply H5.
  - intros p q Hp Hq. rewrite !Hid. by apply H6.
Qed.

Lemma wake_sleepers_wf s l : sched_wf s l → sched_wf (kthread_wake_sleepers s) l.
Proof.
  intros Hwf. destruct (wake_sleepers_spec s l Hwf) as ((E1 & E2 & _) & Hl & Ht).
  apply (wf_update s); [exact Hwf|exact Hl|exact E2|rewrite E1; exact (wf_current _ _ Hwf)| |].
  - intros p. rewrite Ht. case_decide; [apply woken_id|done].
  - intros p. rewrite Ht, E1. case_decide; [intros Hr%woken_running; revert Hr|]; apply (wf_running _ _ Hwf).
Qed.

(** ** The choice of the scheduler *)

(** [r] lists the other threads in the order the scheduler tries them. *)
Definition rotation (l : list Z) (cur : Z) (r : list Z) : Prop :=
  ∃ l1 l2, l = l1 ++ cur :: l2 ∧ r = l2 ++ l1.

Lemma rotation_other s l r t :
  sched_wf s l → rotation l (current_kthread s) r → t ∈ r → t ∈ l ∧ t ≠ current_kthread s.
Proof.
  intros Hwf (l1 & l2 & E & ->) Ht. apply elem_of_app in Ht.
  rewrite E, elem_of_app, elem_of_cons. split; [tauto|]. intros ->.
  pose proof (wf_nodup _ _ Hwf) as Hnd. rewrite E in Hnd. apply list.NoDup_app in Hnd as (_ & Hd & Hnd).
  inversion_clear Hnd. destruct Ht as [?|Ht]; [done|]. apply (Hd _ Ht). by left.
Qed.

Lemma find_none_elem {A} (f : A → bool) l x : find f l = None → x ∈ l → f x = false.
Proof. intros H Hx. apply (find_none f l H). by apply list_elem_of_In. Qed.

Lemma find_split {A} (f : A → bool) l x :
  find f l = Some x → ∃ la lb, l = la ++ x :: lb ∧ ∀ y, y ∈ la → f y = false.
Proof.
  induction l as [|z l IH]; [done|]. cbn. destruct (f z) eqn:E.
  - intros [= ->]. exists [], l. split; [done|]. by intros y ?%not_elem_of_nil.
  - intros (la & lb & -> & H)%IH. exists (z :: la), lb. split; [done|].
    intros y [->|Hy]%elem_of_cons; [done|by apply H].
Qed.

Lemma find_app {A} (f : A → bool) l1 l2 :
  find f (l1 ++ l2) = match find f l1 with Some x => Some x | None => find f l2 end.
Proof. induction l1 as [|x l1 IH]; [done|]. cbn. by destruct (f x). Qed.

Lemma find_elem {A} (f : A → bool) l x : find f l = Some x → x ∈ l ∧ f x = true.
Proof. intros H. apply find_some in H. by rewrite list_elem_of_In. Qed.

Lemma pick_next_spec s l r :
  sched_wf s l → rotation l (current_kthread s) r →
  pick_next s = default (current_kthread s) (find (λ t, is_state s t THREAD_READY) r).
Proof.
  intros Hwf (l1 & l2 & E & ->). unfold pick_next. rewrite (wf_fuel s l Hwf).
  pose proof (wf_chain _ _ Hwf) as Hc. pose proof (wf_nodup _ _ Hwf) as Hnd. rewrite E in Hc, Hnd.
  assert (length l = length l1 + S (length l2))%nat as El by (rewrite E, length_app; done).
  rewrite (find_ready_null _ _ l2) by (done || lia || by eapply chain_next).
  rewrite find_app. destruct (find _ l2) as [t|] eqn:Ef; cbn [from_option id].
  - apply find_elem in Ef as [Hin _].
    destruct (chain_elem s genesis_kthread _ t Hc) as [Ht0 _].
    { apply elem_of_app. right. by right. }
    by assert ((t =? 0) = false) as -> by lia.
  - cbn [Z.eqb]. rewrite (find_ready_stop _ _ l1 (current_kthread s) l2); [done|done| |lia].
    apply list.NoDup_app in Hnd as (_ & Hd & _). intros Hin. apply (Hd _ Hin). by left.
Qed.

(** The state after switching from the current thread to [t]. *)
Definition switched (t : Z) (s : sched) : sched :=
  let old := current_kthread s in
  let s := if is_state s old THREAD_RUNNING then set_state old THREAD_READY s else s in
  let s := set_state t THREAD_RUNNING (set_current t s) in
  kthread_switch old (kt_rsp (thr s t)) s.

Lemma schedule_spec hlts s l r :
  sched_wf s l → preempt_count s ≤ 0 → rotation l (current_kthread s) r →
  let s1 := kthread_wake_sleepers s in
  kthread_schedule hlts s =
  match find (λ t, is_state s1 t THREAD_READY) r with
  | Some t => Some (switched t s1)
  | None => if is_state s1 (current_kthread s) THREAD_BLOCKED then idle hlts s1 else Some s1
  end.
Proof.
  intros Hwf Hp Hr s1. unfold kthread_schedule. assert ((0 <? preempt_count s) = false) as -> by lia.
  fold s1. pose proof (wake_sleepers_wf s l Hwf) as Hwf1. fold s1 in Hwf1.
  destruct (wake_sleepers_spec s l Hwf) as ((E1 & _) & _). fold s1 in E1.
  rewrite (pick_next_spec s1 l r) by (done || by rewrite E1).
  destruct (find _ r) as [t|] eqn:Ef; cbn [from_option id].
  - apply find_elem in Ef as [Hin _].
    destruct (rotation_other s l r t Hwf Hr Hin) as [Htl Hne].
    destruct (chain_elem s genesis_kthread _ t (wf_chain _ _ Hwf) Htl) as [Ht0 _]. rewrite <- E1 in Hne.
    assert ((t =? 0) = false) as -> by lia. assert ((t =? current_kthread s1) = false) as -> by lia. done.
  - rewrite Z.eqb_refl, andb_false_r, E1. done.
Qed.

Lemma switched_thr t s p :
  t ≠ current_kthread s →
  thr (switched t s) p =
    if decide (p = t) then with_state THREAD_RUNNING (thr s p)
    else if decide (p = current_kthread s) then
      with_rsp (u64 (cpu_rsp s - 56))
        (if is_state s p THREAD_RUNNING then with_state THREAD_READY (thr s p) else thr s p)
    else thr s p.
Proof.
  intros Hne. unfold switched, kthread_switch, set_state.
  set (s1 := if is_state s (current_kthread s) THREAD_RUNNING then _ else s).
  assert (∀ q, thr s1 q = if decide (q = current_kthread s) then
    if is_state s q THREAD_RUNNING then with_state THREAD_READY (thr s q) else thr s q else thr s q) as H1.
  { intros q. unfold s1. destruct (decide (q = current_kthread s)) as [->|Hq].
    - case_if; [by rewrite thr_upd_eq|done].
    - case_if; [by rewrite thr_upd_ne|done]. }
  assert (cpu_rsp s1 = cpu_rsp s) as Ec by (unfold s1; by case_if).
  cbn zeta. change (thr (set_cpu_rsp ?x ?y) p) with (thr y p).
  rewrite thr_upd. change (cpu_rsp (upd t _ (set_current t s1))) with (cpu_rsp s1). rewrite Ec.
  destruct (decide (current_kthread s = p)) as [<-|Hp].
  - rewrite decide_False by done. rewrite decide_True by done. rewrite thr_upd_ne by done.
    change (thr (set_current t s1) ?q) with (thr s1 q). by rewrite H1, decide_True.
  - rewrite thr_upd. change (thr (set_current t s1) ?q) with (thr s1 q). destruct (decide (t = p)) as [->|Htp].
    + rewrite decide_True by done. f_equal. by rewrite H1, decide_False by congruence.
    + rewrite decide_False, decide_False by congruence. by rewrite H1, decide_False by congruence.
Qed.

Lemma switched_links t s l :
  sched_wf s l → t ∈ l → links_eq s (switched t s).
Proof.
  intros Hwf Ht. unfold switched, kthread_switch, set_state.
  assert (is_Some (threads s !! t)) as Hst by (by eapply chain_elem; [apply (wf_chain _ _ Hwf)|]).
  assert (is_Some (threads s !! current_kthread s)) as Hsc
    by (eapply chain_elem; [apply (wf_chain _ _ Hwf)|apply (wf_current _ _ Hwf)]).
  set (s1 := if is_state s (current_kthread s) THREAD_RUNNING then _ else s).
  assert (links_eq s s1) as L1 by (unfold s1; case_if; [by apply links_upd|done]).
  assert (links_eq s1 (upd t (with_state THREAD_RUNNING) (set_current t s1))) as L2.
  { apply (links_upd t (with_state THREAD_RUNNING) (set_current t s1)); [|done]. by apply L1. }
  transitivity s1; [done|]. transitivity (upd t (with_state THREAD_RUNNING) (set_current t s1)); [done|].
  apply (links_upd (current_kthread s) (with_rsp (u64 (cpu_rsp s1 - 56)))); [|done]. by apply L2, L1.
Qed.

Lemma switched_wf t s l :
  sched_wf s l → t ∈ l → t ≠ current_kthread s → sched_wf (switched t s) l.
Proof.
  intros Hwf Ht Hne. assert (current_kthread (switched t s) = t) as Ec by (unfold switched; by case_if).
  apply (wf_update s); [done|by apply (switched_links t s l)| |by rewrite Ec| |].
  - unfold switched. by case_if.
  - intros p. rewrite switched_thr by done. repeat case_decide; [done| |done]. by case_if.
  - intros p. rewrite switched_thr, Ec by done. repeat case_decide; [done| |].
    + case_if; [done|]. intros Hr. exfalso. cbn in Hr.
      match goal with H : is_state _ _ _ = false |- _ => apply not_true_iff_false in H; apply H end.
      by apply is_state_spec.
    + intros Hr%(wf_running _ _ Hwf). done.
Qed.
