(* ===== verification/KthreadMem.v ===== *)
(** * Threads own their memory

    The invariant of the thread table together with the heap: every thread but
    the first owns its control block and its stack, no block has two owners,
    and creating, running and reaping threads keeps it so. *)
From S2P Require Import Prelude Pmm Page Vmm Heap HeapInv HeapProps HeapSpec Alloc Kthread KthreadProps.
Local Open Scope Z_scope.

Section Ownership.
Context {H : Type} `{!Allocator H}.

(** The heap blocks of the threads in [l]. *)
Definition blocks (s : sched) (l : list Z) : list Z := flat_map (λ p, [p; stack_base (thr s p)]) l.

(** The genesis thread is static and runs on the boot stack. *)
Definition owned (s : sched) (l : list Z) : list Z := blocks s (tail l).

Record threads_ok (hp : H) (s : sched) (l : list Z) (L : gmap Z Z) (k : nat) : Prop := {
  tk_wf : sched_wf s l;
  tk_heap : a_ok hp L k;
  tk_nodup : NoDup (owned s l);
  tk_live : ∀ q, q ∈ owned s l → is_Some (L !! q);
  tk_current : current_kthread s = genesis_kthread ∨ kt_state (thr s (current_kthread s)) ≠ THREAD_EXITED;
}.

Lemma blocks_ext s s' l :
  (∀ p, p ∈ l → stack_base (thr s' p) = stack_base (thr s p)) → blocks s' l = blocks s l.
Proof.
  induction l as [|p l IH]; intros Hl; [done|]. unfold blocks in *. cbn [flat_map].
  rewrite Hl by (by left). f_equal. apply IH. intros q Hq. apply Hl. by right.
Qed.

Lemma blocks_app s l1 l2 : blocks s (l1 ++ l2) = blocks s l1 ++ blocks s l2.
Proof. apply flat_map_app. Qed.

Lemma elem_of_tail {A} (x : A) l : x ∈ tail l → x ∈ l.
Proof. destruct l; [done|]. by right. Qed.

(** Changes that leave links, identifiers and stacks alone. *)
Lemma ok_update hp s s' l L k :
  threads_ok hp s l L k → links_eq s s' → next_thread_id s' = next_thread_id s → current_kthread s' ∈ l →
  (∀ p, kt_id (thr s' p) = kt_id (thr s p)) →
  (∀ p, stack_base (thr s' p) = stack_base (thr s p)) →
  (∀ p, kt_state (thr s' p) = THREAD_RUNNING → p = current_kthread s') →
  (current_kthread s' = genesis_kthread ∨ kt_state (thr s' (current_kthread s')) ≠ THREAD_EXITED) →
  threads_ok hp s' l L k.
Proof.
  intros [H1 H2 H3 H4 H5] Hl En Hcur Hid Hst Hrun Hex.
  assert (owned s' l = owned s l) as Eo by (apply blocks_ext; intros; apply Hst).
  split; [by apply (wf_update s)|done|by rewrite Eo|by rewrite Eo|done].
Qed.

Lemma ok_thread hp s l L k p : threads_ok hp s l L k → p ∈ l → is_Some (threads s !! p).
Proof. intros Hok Hp. by eapply chain_elem; [apply (wf_chain _ _ (tk_wf _ _ _ _ _ Hok))|]. Qed.

(** Updating one thread. *)
Lemma ok_upd hp s l L k p f :
  threads_ok hp s l L k → p ∈ l →
  (∀ t, kt_next (f t) = kt_next t ∧ kt_id (f t) = kt_id t ∧ stack_base (f t) = stack_base t) →
  (kt_state (f (thr s p)) = THREAD_RUNNING → p = current_kthread s) →
  (p = current_kthread s → p = genesis_kthread ∨ kt_state (f (thr s p)) ≠ THREAD_EXITED) →
  threads_ok hp (upd p f s) l L k.
Proof.
  intros Hok Hp Hf Hrun Hex. pose proof Hok as [Hwf _ _ _ Hcur].
  apply (ok_update hp s); [done| |done|apply (wf_current _ _ Hwf)| | | |].
  - apply links_upd; [by eapply ok_thread|apply Hf].
  - intros q. rewrite thr_upd. case_decide; [subst; apply Hf|done].
  - intros q. rewrite thr_upd. case_decide; [subst; apply Hf|done].
  - intros q. rewrite thr_upd. case_decide; [subst; done|]. apply (wf_running _ _ Hwf).
  - change (current_kthread (upd p f s)) with (current_kthread s). rewrite thr_upd.
    case_decide; [subst; by apply Hex|done].
Qed.

Lemma ok_scalars hp s s' l L k :
  threads_ok hp s l L k → threads s' = threads s → current_kthread s' = current_kthread s →
  next_thread_id s' = next_thread_id s → threads_ok hp s' l L k.
Proof.
  intros Hok Et Ec En. assert (∀ p, thr s' p = thr s p) as Hthr by (intros; unfold thr; by rewrite Et).
  pose proof Hok as [Hwf _ _ _ Hcur].
  apply (ok_update hp s); [done| |done|rewrite Ec; apply (wf_current _ _ Hwf)| | | |].
  - split; intros p; [by rewrite Et|by rewrite Hthr].
  - intros p. by rewrite Hthr.
  - intros p. by rewrite Hthr.
  - intros p. rewrite Hthr, Ec. apply (wf_running _ _ Hwf).
  - by rewrite Hthr, Ec.
Qed.

(** ** Running *)

Lemma wake_ok hp s l L k : threads_ok hp s l L k → threads_ok hp (kthread_wake_sleepers s) l L k.
Proof.
  intros Hok. pose proof Hok as [Hwf _ _ _ Hcur].
  destruct (wake_sleepers_spec s l Hwf) as ((E1 & E2 & _) & Hl & Ht).
  apply (ok_update hp s); [done|done|done|rewrite E1; apply (wf_current _ _ Hwf)| | | |].
  - intros p. rewrite Ht. case_decide; [apply woken_id|done].
  - intros p. rewrite Ht. case_decide; [|done]. unfold woken. by case_if.
  - apply (wf_running _ _ (wake_sleepers_wf s l Hwf)).
  - rewrite E1, Ht. destruct Hcur as [?|Hcur]; [by left|right].
    case_decide; [|done]. unfold woken. by case_if.
Qed.

Lemma switched_ok hp s l L k t :
  threads_ok hp s l L k → t ∈ l → t ≠ current_kthread s → threads_ok hp (switched t s) l L k.
Proof.
  intros Hok Ht Hne. pose proof Hok as [Hwf _ _ _ Hcur].
  pose proof (switched_wf t s l Hwf Ht Hne) as Hwf'.
  assert (current_kthread (switched t s) = t) as Ec by (unfold switched; by case_if).
  apply (ok_update hp s); [done|by apply (switched_links t s l)| |by rewrite Ec| | | |].
  - unfold switched. by case_if.
  - intros p. rewrite switched_thr by done. repeat case_decide; [done| |done]. by case_if.
  - intros p. rewrite switched_thr by done. repeat case_decide; [done| |done]. by case_if.
  - apply (wf_running _ _ Hwf').
  - right. rewrite Ec, switched_thr, decide_True by done. done.
Qed.

(** What interrupts may do to the table while the processor waits. *)
Definition benign (h : sched → sched) : Prop :=
  ∀ hp s l L k, threads_ok hp s l L k → threads_ok hp (h s) l L k.

Lemma idle_ok hlts hp s s' l L k :
  threads_ok hp s l L k → Forall benign hlts → idle hlts s = Some s' → threads_ok hp s' l L k.
Proof.
  revert s. induction hlts as [|h hlts IH]; intros s Hok Hb; cbn [idle].
  - case_if; [done|]. intros [= <-]. apply ok_upd; [done|apply (wf_current _ _ (tk_wf _ _ _ _ _ Hok))|done|done|].
    intros _. by right.
  - inversion_clear Hb as [|? ? Hh Hb'].
    destruct (is_state s (current_kthread s) THREAD_BLOCKED).
    2:{ intros [= <-]. apply ok_upd; [done|apply (wf_current _ _ (tk_wf _ _ _ _ _ Hok))|done|done|].
        intros _. by right. }
    set (s1 := kthread_wake_sleepers (h s)).
    assert (threads_ok hp s1 l L k) as Hok1 by (by apply wake_ok, Hh).
    destruct (is_state s1 (current_kthread s1) THREAD_BLOCKED) eqn:Eb; [|by apply IH].
    pose proof (tk_wf _ _ _ _ _ Hok1) as Hwf1.
    rewrite (find_ready_null _ _ l) by (apply (wf_chain _ _ Hwf1) || (rewrite (wf_fuel _ _ Hwf1); lia)).
    destruct (find _ l) as [t|] eqn:Ef; cbn [from_option id Z.eqb negb]; [|by apply IH].
    apply find_elem in Ef as [Ht Hr]. apply is_state_spec in Hr, Eb.
    destruct (chain_elem _ _ _ _ (wf_chain _ _ Hwf1) Ht) as [Ht0 _].
    assert ((t =? 0) = false) as -> by lia. cbn [negb]. intros [= <-].
    assert (is_state s1 (current_kthread s1) THREAD_RUNNING = false) as Enr.
    { apply not_true_iff_false. rewrite is_state_spec. congruence. }
    pose proof (switched_ok hp s1 l L k t Hok1 Ht ltac:(congruence)) as Hsw.
    unfold switched in Hsw. rewrite Enr in Hsw. exact Hsw.
Qed.

Lemma schedule_ok hlts hp s s' l L k :
  threads_ok hp s l L k → Forall benign hlts → kthread_schedule hlts s = Some s' → threads_ok hp s' l L k.
Proof.
  intros Hok Hb. destruct (decide (preempt_count s ≤ 0)) as [Hp|Hp].
  2:{ unfold kthread_schedule. assert ((0 <? preempt_count s) = true) as -> by lia. by intros [= <-]. }
  pose proof (tk_wf _ _ _ _ _ Hok) as Hwf. destruct (wf_split s l Hwf) as (l1 & l2 & E & _).
  assert (rotation l (current_kthread s) (l2 ++ l1)) as Hr by (by exists l1, l2).
  rewrite (schedule_spec hlts s l (l2 ++ l1)) by done.
  pose proof (wake_ok hp s l L k Hok) as Hok1. set (s1 := kthread_wake_sleepers s) in *.
  destruct (wake_sleepers_spec s l Hwf) as ((E1 & _) & _). fold s1 in E1.
  destruct (find _ (l2 ++ l1)) as [t|] eqn:Ef.
  - intros [= <-]. apply find_elem in Ef as [Ht _].
    destruct (rotation_other s l _ t Hwf Hr Ht) as [Htl Hne]. apply switched_ok; [done|done|congruence].
  - case_if; [by apply idle_ok|by intros [= <-]].
Qed.

(** ** Creating *)

Lemma chain_frame s s' p l :
  (∀ q, q ∈ l → threads s' !! q = threads s !! q) → chain s p l → chain s' p l.
Proof.
  revert p. induction l as [|x l IH]; intros p Hf; [done|]. cbn [chain].
  intros (-> & H0 & Hs & Hc). assert (thr s' x = thr s x) as E by (unfold thr; rewrite Hf by (by left); done).
  split_and!; [done|done|rewrite Hf by (by left); done|]. rewrite E. apply IH; [|done].
  intros q Hq. apply Hf. by right.
Qed.

Lemma last_thread_chain fuel p l x s :
  chain s p (l ++ [x]) → (length l < fuel)%nat → last_thread fuel p s = x.
Proof.
  revert fuel p. induction l as [|q l IH]; intros fuel p Hc Hn;
    (destruct fuel as [|fuel]; [cbn in Hn; lia|]); cbn [app chain last_thread] in *.
  - destruct Hc as (-> & _ & _ & ->). done.
  - destruct Hc as (-> & H0 & _ & Hc). assert (kt_next (thr s q) ≠ 0) as Hn0.
    { destruct (l ++ [x]) as [|y l'] eqn:E; [by destruct l|]. by destruct Hc as (-> & ? & _). }
    assert ((kt_next (thr s q) =? 0) = false) as -> by lia. apply IH; [done|cbn in Hn; lia].
Qed.

(** Replacing the tail of the list after [x]. *)
Lemma chain_relink s s' p l x l1 l2 :
  chain s p (l ++ x :: l1) → (∀ q, q ∈ l → threads s' !! q = threads s !! q) →
  is_Some (threads s' !! x) → chain s' (kt_next (thr s' x)) l2 → chain s' p (l ++ x :: l2).
Proof.
  revert p. induction l as [|y l IH]; intros p Hc Hf Hx H2; cbn [app chain] in *.
  - destruct Hc as (-> & H0 & _ & _). done.
  - destruct Hc as (-> & H0 & Hs & Hc).
    assert (thr s' y = thr s y) as E by (unfold thr; rewrite Hf by (by left); done).
    split_and!; [done|done|rewrite Hf by (by left); done|]. rewrite E. apply IH; [done| |done|done].
    intros q Hq. apply Hf. by right.
Qed.

Lemma elem_snoc {A} (x y : A) l : x ∈ l ++ [y] ↔ x ∈ l ∨ x = y.
Proof. by rewrite elem_of_app, list_elem_of_singleton. Qed.

Lemma tail_app {A} (a b : list A) : a ≠ [] → tail (a ++ b) = tail a ++ b.
Proof. by destruct a. Qed.

Lemma lookup_upd p f s q : q ≠ p → threads (upd p f s) !! q = threads s !! q.
Proof. intros. unfold upd, set_thr, set_threads. cbn [threads]. by rewrite lookup_insert_ne. Qed.

Lemma lookup_upd_eq p f s : threads (upd p f s) !! p = Some (f (thr s p)).
Proof. unfold upd, set_thr, set_threads. cbn [threads]. by rewrite lookup_insert_eq. Qed.

(** A new thread [p] linked after the last thread [x] owns its two blocks. *)
Lemma link_owned s s' l0 x p t :
  (p ∉ l0 ++ [x]) → threads s' = <[p := t]> (<[x := with_next p (thr s x)]> (threads s)) →
  owned s' ((l0 ++ [x]) ++ [p]) = owned s (l0 ++ [x]) ++ [p; stack_base t].
Proof.
  intros Hpl Et.
  assert (Hthr : ∀ q, thr s' q = if decide (q = p) then t else if decide (q = x) then with_next p (thr s x) else thr s q).
  { intros q. unfold thr. rewrite Et, !lookup_insert. repeat case_decide; subst; done. }
  unfold owned. rewrite tail_app by (by destruct l0). rewrite blocks_app. f_equal.
  - apply blocks_ext. intros q Hq%elem_of_tail. rewrite Hthr, decide_False by congruence. case_decide; [by subst|done].
  - unfold blocks. cbn. by rewrite Hthr, decide_True.
Qed.

(** Linking a new thread [p] after the last thread [x]. *)
Lemma link_ok hp s s' l0 x p t L k :
  threads_ok hp s (l0 ++ [x]) L k →
  p ≠ 0 → threads s !! p = None → p ∉ l0 ++ [x] →
  threads s' = <[p := t]> (<[x := with_next p (thr s x)]> (threads s)) →
  kt_next t = 0 → kt_state t = THREAD_READY → kt_id t = next_thread_id s →
  current_kthread s' = current_kthread s → next_thread_id s' = next_thread_id s + 1 →
  NoDup (owned s (l0 ++ [x]) ++ [p; stack_base t]) → is_Some (L !! p) → is_Some (L !! stack_base t) →
  threads_ok hp s' ((l0 ++ [x]) ++ [p]) L k.
Proof.
  intros [Hwf Hh Hnd Hlv Hcur] Hp0 Hnone Hpl Et Etn Ets Eti Ec En Hnd' Hlp Hlb.
  pose proof Hwf as [H1 H2 H3 H4 H5 H6 H7].
  assert (p ≠ x) as Hpx by (intros ->; apply Hpl, elem_of_app; right; by left).
  assert (Hthr : ∀ q, thr s' q = if decide (q = p) then t else if decide (q = x) then with_next p (thr s x) else thr s q).
  { intros q. unfold thr. rewrite Et, !lookup_insert. repeat case_decide; subst; done. }
  assert (x ∉ l0) as Hx0.
  { apply list.NoDup_app in H2 as (_ & Hd & _). intros Hin. apply (Hd _ Hin). by left. }
  assert (∀ q, kt_id (thr s' q) = if decide (q = p) then next_thread_id s else kt_id (thr s q)) as Hids.
  { intros q. rewrite Hthr. repeat case_decide; subst; done. }
  split; [split| | | |].
  - rewrite <- app_assoc. cbn [app]. apply (chain_relink s s' genesis_kthread l0 x []); [done| | |].
    + intros q Hq. rewrite Et, !lookup_insert_ne; [done|congruence|].
      intros <-. apply Hpl, elem_of_app. by left.
    + rewrite Et, lookup_insert_ne, lookup_insert_eq by done. done.
    + rewrite Hthr, decide_False, decide_True by done. cbn [kt_next with_next chain].
      split_and!; [done|done|by rewrite Et, lookup_insert_eq|]. by rewrite Hthr, decide_True.
  - apply list.NoDup_app. split_and!; [done| |apply NoDup_singleton].
    intros q Hq ->%list_elem_of_singleton. done.
  - intros q. rewrite Et, !lookup_insert, elem_of_app, list_elem_of_singleton.
    repeat case_decide; [by right; congruence| |intros; left; by apply H3].
    intros _. subst. left. apply elem_of_app. right. by left.
  - rewrite Ec. apply elem_of_app. by left.
  - intros q. rewrite elem_snoc, Hids, En. intros [Hq| ->].
    + rewrite decide_False by congruence. specialize (H5 q Hq). lia.
    + rewrite decide_True by done. specialize (H5 _ H4). lia.
  - intros q q' Hq Hq'. apply elem_snoc in Hq, Hq'. rewrite !Hids.
    destruct Hq as [Hq| ->], Hq' as [Hq'| ->]; repeat case_decide; subst; try done; [by apply H6| |]; intros E.
    + specialize (H5 q Hq). lia.
    + specialize (H5 q' Hq'). lia.
  - intros q. rewrite Hthr, Ec. repeat case_decide; [congruence| |by apply H7].
    subst. by apply H7.
  - done.
  - by rewrite (link_owned s s' l0 x p t).
  - rewrite (link_owned s s' l0 x p t) by done.
    intros q [Hq|[->|[->|[]%elem_of_nil]%elem_of_cons]%elem_of_cons]%elem_of_app; [by apply Hlv|done|done].
  - rewrite Ec, Hthr. rewrite decide_False by (intros E; rewrite E in H4; done).
    case_decide; [subst; exact Hcur|done].
Qed.
End Ownership.
