(* ===== verification/KthreadInv.v ===== *)
(** * Thread operations keep the invariant

    Creation appends a ready thread with its own stack, reaping removes
    exactly the exited threads and returns their memory, and every operation
    keeps the table and the ownership of memory intact. *)
From S2P Require Import Prelude Pmm Page Vmm Heap HeapInv HeapProps HeapSpec Alloc Kthread KthreadProps KthreadMem.
Local Open Scope Z_scope.

Section Ops.
Context {H : Type} `{!Allocator H} (kthread_trampoline : Z).

Lemma owned_self s l p : p ∈ tail l → p ∈ owned s l.
Proof. intros Hp. apply list_elem_of_In, in_flat_map. exists p. split; [by apply list_elem_of_In|by left]. Qed.

(** A block that is not live is not a thread. *)
Lemma fresh_thread hp s l L k p :
  threads_ok hp s l L k → L !! p = None → p mod 16 = 8 → (p ∉ l) ∧ threads s !! p = None.
Proof.
  intros Hok Hp Hm. assert (p ∉ l) as Hl.
  { intros Hin. destruct (wf_genesis _ _ (tk_wf _ _ _ _ _ Hok)) as [l' ->].
    apply elem_of_cons in Hin as [->|Hin]; [done|].
    destruct (tk_live _ _ _ _ _ Hok p) as [n Hn]; [by apply owned_self|]. congruence. }
  split; [done|]. destruct (threads s !! p) eqn:E; [|done].
  destruct Hl. apply (wf_dom _ _ (tk_wf _ _ _ _ _ Hok)). by rewrite E.
Qed.

Lemma stack_top_eq base n :
  0 < base → base mod 16 = 8 → KTHREAD_STACK_SIZE ≤ n → base + n < 2 ^ 64 →
  Z.land (u64 (base + KTHREAD_STACK_SIZE)) (~64 0xF) = base + KTHREAD_STACK_SIZE - 8.
Proof.
  unfold KTHREAD_STACK_SIZE. intros H0 Hm Hn Hb. rewrite u64_small by lia.
  change 0xF with (Z.ones 4). rewrite land_not_ones by lia. zdm.
Qed.

Lemma push_frame_top top m :
  64 ≤ top < 2 ^ 64 → rd (push_frame kthread_trampoline top m) (top - 8) = kthread_trampoline.
Proof.
  intros Ht. unfold push_frame.
  apply (for_loop_ind0 (λ _ m, rd m (top - 8) = kthread_trampoline)).
  - rewrite u64_small by lia. apply rd_wr_eq.
  - intros j t Hj IH. rewrite rd_wr_ne; [exact IH|]. rewrite u64_small by lia. lia.
Qed.

(** Moving the identifier counter forward keeps the invariant. *)
Lemma ok_next_id hp s s' l L k :
  threads_ok hp s l L k → threads s' = threads s → current_kthread s' = current_kthread s →
  next_thread_id s ≤ next_thread_id s' → threads_ok hp s' l L k.
Proof.
  intros [[H1 H2 H3 H4 H5 H6 H7] Hh Hnd Hlv Hcur] Et Ec En.
  assert (∀ p, thr s' p = thr s p) as Hthr by (intros; unfold thr; by rewrite Et).
  assert (owned s' l = owned s l) as Eo by (apply blocks_ext; intros; by rewrite Hthr).
  split; [split| | | |].
  - by apply (chain_frame s); [intros; rewrite Et|].
  - done.
  - intros p. rewrite Et. apply H3.
  - by rewrite Ec.
  - intros p Hp. rewrite Hthr. specialize (H5 p Hp). lia.
  - intros p q. rewrite !Hthr. apply H6.
  - intros p. rewrite Hthr, Ec. apply H7.
  - done.
  - by rewrite Eo.
  - by rewrite Eo.
  - by rewrite Ec, Hthr.
Qed.

(** What [kthread_create] leaves behind in the thread [p]. *)
Definition created (entry arg id p : Z) (s : sched) : Prop :=
  let t := thr s p in
  kt_id t = id ∧ kt_state t = THREAD_READY ∧ kt_entry t = entry ∧ kt_arg t = arg ∧
  stack_base t ≤ kt_rsp t ∧ kt_rsp t + 56 ≤ stack_base t + KTHREAD_STACK_SIZE ∧
  rd (stacks s) (kt_rsp t + 48) = kthread_trampoline.

(** A thread block that the failed stack allocation leaves unused. *)
Lemma a_undo p n hp L k : a_ok hp (<[p := n]> L) k → L !! p = None → a_ok (a_free p hp) L k.
Proof.
  intros Hh HL. apply (a_free_ok p) in Hh; [|by rewrite lookup_insert_eq]. by rewrite delete_insert_id in Hh.
Qed.

Lemma ok_heap hp hp' s l L L' k k' :
  threads_ok hp s l L k → a_ok hp' L' k' → (∀ q, is_Some (L !! q) → is_Some (L' !! q)) → threads_ok hp' s l L' k'.
Proof. intros [H1 H2 H3 H4 H5] Hh HL. split; try done. intros q Hq. by apply HL, H4. Qed.

(** The thread [p] with the stack [base], once both allocations succeeded. *)
Lemma create_link name entry arg hp s l L k p base :
  threads_ok hp s l L k → next_thread_id s < 2 ^ 64 - 1 →
  p ≠ 0 → p ∉ l → threads s !! p = None → p ≠ base → p ∉ owned s l → base ∉ owned s l →
  is_Some (L !! p) → is_Some (L !! base) →
  0 < base → base mod 16 = 8 → base + KTHREAD_STACK_SIZE < 2 ^ 64 →
  let top := base + KTHREAD_STACK_SIZE - 8 in
  let s1 := set_thr p (Kthread name (next_thread_id s) top base THREAD_READY 0 0 entry arg 0)
              (Sched (threads s) (current_kthread s) (u64 (next_thread_id s + 1)) (preempt_count s)
                 (tick_count s) (cpu_rsp s) (stacks s)) in
  let s2 := upd (last_thread (list_fuel s1) genesis_kthread s1) (with_next p) s1 in
  let s3 := Sched (threads s2) (current_kthread s2) (next_thread_id s2) (preempt_count s2) (tick_count s2)
              (cpu_rsp s2) (push_frame kthread_trampoline top (stacks s2)) in
  let s4 := upd p (with_rsp (u64 (top - 56))) s3 in
  threads_ok hp s4 (l ++ [p]) L k ∧ created entry arg (next_thread_id s) p s4 ∧
  owned s4 (l ++ [p]) = owned s l ++ [p; base].
Proof.
  intros Hok Hid Hp0 Hpl Hpn Hpb Hpo Hbo HLp HLb Hb Hb8 Hbt top s1 s2 s3 s4.
  pose proof (tk_wf _ _ _ _ _ Hok) as Hwf. pose proof (wf_ids _ _ Hwf _ (wf_current _ _ Hwf)) as Hid0.
  destruct (exists_last (l := l)) as (l0 & x & ->); [by destruct (wf_genesis _ _ Hwf) as [l' ->]|].
  assert (last_thread (list_fuel s1) genesis_kthread s1 = x) as Ex.
  { apply (last_thread_chain _ _ l0).
    - apply (chain_frame s); [|apply (wf_chain _ _ Hwf)]. intros q Hq. unfold s1, set_thr, set_threads. cbn [threads].
      rewrite lookup_insert_ne by congruence. done.
    - unfold list_fuel, s1, set_thr, set_threads. cbn [threads]. rewrite map_size_insert_None by done.
      rewrite (wf_size _ _ Hwf), length_app. lia. }
  assert (x ≠ p) as Hxp by (intros ->; apply Hpl, elem_of_app; right; by left).
  assert (thr s3 p = Kthread name (next_thread_id s) top base THREAD_READY 0 0 entry arg 0) as Ep.
  { transitivity (thr s1 p); [|unfold thr, s1, set_thr, set_threads; cbn [threads]; by rewrite lookup_insert_eq].
    change (thr s2 p = thr s1 p). unfold s2. by rewrite Ex, thr_upd_ne. }
  assert (threads s4 = <[p := with_rsp (u64 (top - 56)) (thr s3 p)]> (<[x := with_next p (thr s x)]> (threads s))) as Et.
  { unfold s4, upd at 1, set_thr, set_threads. cbn [threads]. change (threads s3) with (threads s2).
    unfold s2. rewrite Ex. unfold upd, set_thr, set_threads. cbn [threads].
    assert (thr s1 x = thr s x) as -> by (unfold thr, s1, set_thr, set_threads; cbn [threads]; by rewrite lookup_insert_ne).
    unfold s1, set_thr, set_threads. cbn [threads]. by rewrite (insert_insert_ne _ x p), insert_insert_eq by done. }
  split_and!.
  - apply (link_ok hp s s4 l0 x p (with_rsp (u64 (top - 56)) (thr s3 p))); try done; rewrite ?Ep; try done.
    + change (u64 (next_thread_id s + 1) = next_thread_id s + 1). rewrite u64_small; lia.
    + cbn [with_rsp stack_base]. apply list.NoDup_app. split_and!; [apply Hok| |].
      * intros q Hq [->|[->|[]%elem_of_nil]%elem_of_cons]%elem_of_cons; done.
      * apply list.NoDup_cons. split; [by intros ?%list_elem_of_singleton|apply NoDup_singleton].
  - unfold created. assert (thr s4 p = with_rsp (u64 (top - 56)) (thr s3 p)) as ->.
    { unfold thr at 1. by rewrite Et, lookup_insert_eq. }
    rewrite Ep. cbn [with_rsp kt_id kt_state kt_entry kt_arg stack_base kt_rsp].
    unfold top, KTHREAD_STACK_SIZE in *. rewrite u64_small by lia.
    split_and!; try done; try lia.
    change (stacks s4) with (push_frame kthread_trampoline top (stacks s2)).
    replace (base + 16384 - 8 - 56 + 48) with (top - 8) by (unfold top; lia).
    apply push_frame_top. unfold top. lia.
  - rewrite (link_owned s s4 l0 x p _ Hpl Et), Ep. done.
Qed.

(** Threads and their blocks are added and nothing else is allocated. *)
Record grown (s : sched) (l : list Z) (L : gmap Z Z) (s' : sched) (l' : list Z) (L' : gmap Z Z) : Prop := {
  gr_current : current_kthread s' = current_kthread s;
  gr_next : next_thread_id s' ≤ next_thread_id s + 1;
  gr_list : ∀ q, q ∈ l → q ∈ l';
  gr_live : ∀ q, is_Some (L' !! q) ↔ is_Some (L !! q) ∨ q ∈ owned s' l';
  gr_new : ∀ q, q ∈ owned s' l' → q ∈ owned s l ∨ L !! q = None;
  gr_old : ∀ q, q ∈ owned s l → q ∈ owned s' l';
}.

Lemma grown_none s l L s' :
  (∀ q, q ∈ owned s l → is_Some (L !! q)) → current_kthread s' = current_kthread s → threads s' = threads s →
  next_thread_id s' ≤ next_thread_id s + 1 → grown s l L s' l L.
Proof.
  intros Hlv Ec Et En. assert (owned s' l = owned s l) as Eo.
  { apply blocks_ext. intros p _. unfold thr. by rewrite Et. }
  split; rewrite ?Eo; try done; [|naive_solver]. intros q. split; [by left|]. intros [?|?]; [done|by apply Hlv].
Qed.

Lemma grown_thread s l L s' p base n m :
  owned s' (l ++ [p]) = owned s l ++ [p; base] → (∀ q, q ∈ owned s l → is_Some (L !! q)) → L !! p = None → L !! base = None →
  current_kthread s' = current_kthread s → next_thread_id s' ≤ next_thread_id s + 1 →
  grown s l L s' (l ++ [p]) (<[base := m]> (<[p := n]> L)).
Proof.
  intros Eo Hlv Hp Hb Ec En. assert (∀ q, q ∈ owned s' (l ++ [p]) ↔ q ∈ owned s l ∨ q = p ∨ q = base) as Ho.
  { intros q. rewrite Eo, elem_of_app, elem_of_cons, list_elem_of_singleton. done. }
  split; try done.
  - intros q Hq. apply elem_of_app. by left.
  - intros q. rewrite Ho, !lookup_insert. repeat case_decide; naive_solver.
  - intros q [Hq|[->| ->]]%Ho; [by left|by right..].
  - intros q Hq. apply Ho. by left.
Qed.

Lemma create_ok name entry arg hp s l L k :
  threads_ok hp s l L (S (S k)) → next_thread_id s < 2 ^ 64 - 1 →
  ∃ id hp' s' l' L', kthread_create kthread_trampoline name entry arg hp s = Done (id, hp', s') ∧
    threads_ok hp' s' l' L' k ∧ grown s l L s' l' L' ∧
    ((id = 0 ∧ l' = l) ∨ (id = next_thread_id s ∧ ∃ p, l' = l ++ [p] ∧ created entry arg id p s')).
Proof.
  intros Hok Hid. pose proof Hok as [Hwf Hh Hnd Hlv Hcur]. unfold kthread_create.
  pose proof (wf_ids _ _ Hwf _ (wf_current _ _ Hwf)) as Hid0.
  pose proof (a_malloc_ok sizeof_kthread hp L (S k) Hh ltac:(unfold sizeof_kthread; lia)) as Hm.
  destruct (a_malloc sizeof_kthread hp) as [p hp1].
  destruct Hm as [[-> Hh1]|(n & Hp & Hpn & Hpm & Hn & HLp & _ & Hh1)].
  { eexists _, _, _, l, L. split; [reflexivity|]. split_and!; [|apply grown_none; try done; cbn; lia|by left].
    apply (ok_scalars hp1 s); [|done..]. apply (ok_heap hp _ s l L L _ _ Hok); [by apply a_weaken|done]. }
  assert ((p =? 0) = false) as -> by lia.
  pose proof (a_malloc_ok KTHREAD_STACK_SIZE hp1 _ k Hh1 ltac:(unfold KTHREAD_STACK_SIZE; lia)) as Hm.
  destruct (a_malloc KTHREAD_STACK_SIZE hp1) as [base hp2].
  destruct (fresh_thread hp s l L _ p Hok HLp Hpm) as [Hpl Hpn0].
  destruct Hm as [[-> Hh2]|(m & Hb & Hbm & Hbm8 & Hm & HLb & _ & Hh2)].
  { assert (u64 (next_thread_id s + 1) = next_thread_id s + 1) as En by (apply u64_small; lia).
    eexists _, _, _, l, L. split; [reflexivity|]. split_and!; [|apply grown_none; try done; cbn; lia|by left].
    apply (ok_next_id _ s); [|done|done|].
    - apply (ok_heap hp _ s l L L _ _ Hok); [|done]. by apply (a_undo p n).
    - change (next_thread_id s ≤ u64 (next_thread_id s + 1)). rewrite u64_small; lia. }
  assert ((base =? 0) = false) as -> by lia.
  assert (p ≠ base) as Hpb by (intros ->; by rewrite lookup_insert_eq in HLb).
  rewrite lookup_insert_ne in HLb by done.
  rewrite (stack_top_eq base m) by done. cbv zeta.
  assert ((current_kthread _ =? 0) = false) as ->.
  { apply Z.eqb_neq. intros E. change (current_kthread s = 0) in E.
    pose proof (wf_current _ _ Hwf) as Hc. rewrite E in Hc.
    by destruct (chain_elem _ _ _ _ (wf_chain _ _ Hwf) Hc). }
  set (L' := <[base := m]> (<[p := n]> L)) in *.
  assert (∀ q, is_Some (L !! q) → is_Some (L' !! q) ∧ q ≠ p ∧ q ≠ base) as HL'.
  { intros q [v Hv]. unfold L'. rewrite !lookup_insert. repeat case_decide; split_and!; congruence || done. }
  assert (threads_ok hp2 (preempt_disable s) l L' k) as Hok2.
  { apply (ok_scalars hp2 s); [|done..]. apply (ok_heap hp _ s l L L' _ _ Hok); [done|intros q Hq; by apply HL']. }
  destruct (create_link name entry arg hp2 (preempt_disable s) l L' k p base) as (Hok3 & Hcr & Hown); try done.
  { lia. }
  { intros Hq%Hlv%HL'. by destruct Hq as (_ & ? & _). }
  { intros Hq%Hlv%HL'. by destruct Hq as (_ & _ & ?). }
  { unfold L'. rewrite lookup_insert_ne, lookup_insert_eq by done. done. }
  { unfold L'. by rewrite lookup_insert_eq. }
  { lia. }
  eexists _, _, _, (l ++ [p]), L'. split; [reflexivity|]. split_and!; [eapply ok_scalars; [exact Hok3|reflexivity..]| |].
  { apply grown_thread; [exact Hown|exact Hlv|done|done|done|].
    change (u64 (next_thread_id s + 1) ≤ next_thread_id s + 1). rewrite u64_small; lia. }
  right. split; [reflexivity|]. exists p. split; [reflexivity|]. exact Hcr.
Qed.
(** ** Reaping *)
Lemma nodup_middle {A} (x : A) l1 l2 : NoDup (l1 ++ x :: l2) → (x ∉ l1 ++ l2) ∧ NoDup (l1 ++ l2).
Proof.
  intros Hn. assert (NoDup (x :: l1 ++ l2)) as [? ?]%list.NoDup_cons by (by rewrite Permutation_middle). done.
Qed.

Lemma middle_app {A} (l1 : list A) x y l2 : l1 ++ x :: y :: l2 = (l1 ++ [x]) ++ y :: l2.
Proof. by rewrite <- app_assoc. Qed.

Lemma middle_drop {A} (l1 : list A) x l2 : (l1 ++ [x]) ++ l2 = l1 ++ x :: l2.
Proof. by rewrite <- app_assoc. Qed.

Definition alive (s : sched) (p : Z) : bool := negb (is_state s p THREAD_EXITED).

(** Unlinking the exited thread [x] that follows [prev]. *)
Definition unlink (prev x : Z) (s : sched) : sched :=
  delete_thr x (upd prev (with_next (kt_next (thr s x))) s).

Lemma unlink_lookup prev x s q :
  threads (unlink prev x s) !! q =
  if decide (q = x) then None
  else if decide (q = prev) then Some (with_next (kt_next (thr s x)) (thr s prev)) else threads s !! q.
Proof.
  unfold unlink, delete_thr, upd, set_thr, set_threads. cbn [threads].
  rewrite lookup_delete, lookup_insert. repeat case_decide; subst; done.
Qed.

Lemma unlink_thr prev x s q :
  q ≠ x → thr (unlink prev x s) q = if decide (q = prev) then with_next (kt_next (thr s x)) (thr s prev) else thr s q.
Proof.
  intros Hq. unfold thr at 1. rewrite unlink_lookup, decide_False by done. by case_decide.
Qed.

Lemma unlink_field {B} (g : kthread → B) prev x s q :
  (∀ n t, g (with_next n t) = g t) → q ≠ x → g (thr (unlink prev x s) q) = g (thr s q).
Proof. intros Hg Hq. rewrite unlink_thr by done. case_decide; [subst; apply Hg|done]. Qed.

Lemma unlink_wf s l1 prev x l2 :
  sched_wf s (l1 ++ prev :: x :: l2) → current_kthread s ≠ x → sched_wf (unlink prev x s) (l1 ++ prev :: l2).
Proof.
  intros [H1 H2 H3 H4 H5 H6 H7] Hc.
  assert (x ∉ l1 ++ prev :: l2) as Hx.
  { rewrite middle_app in H2. apply nodup_middle in H2 as [H2 _]. by rewrite middle_drop in H2. }
  assert (prev ∉ l1 ++ l2) as Hpv.
  { apply nodup_middle in H2 as [H2 _]. intros Hin. apply H2, elem_of_app.
    apply elem_of_app in Hin as [?|?]; [by left|right; by right]. }
  assert (∀ q, q ∈ l1 ++ prev :: x :: l2 ↔ q = x ∨ q ∈ l1 ++ prev :: l2) as Hin.
  { intros q. rewrite !elem_of_app, !elem_of_cons. tauto. }
  split.
  - apply (chain_relink s _ genesis_kthread l1 prev (x :: l2)); [done| | |].
    + intros q Hq. rewrite unlink_lookup, !decide_False; [done| |].
      * intros ->. apply Hpv, elem_of_app. by left.
      * intros ->. apply Hx, elem_of_app. by left.
    + rewrite unlink_lookup, decide_False, decide_True; [done..|].
      intros ->. apply Hx, elem_of_app. right. by left.
    + rewrite unlink_thr, decide_True; [|done|intros ->; apply Hx, elem_of_app; right; by left].
      cbn [with_next kt_next]. apply (chain_frame s).
      * intros q Hq. rewrite unlink_lookup, !decide_False; [done| |].
        -- intros ->. apply Hpv, elem_of_app. by right.
        -- intros ->. apply Hx, elem_of_app. right. by right.
      * rewrite middle_app in H1. by apply chain_next in H1.
  - rewrite middle_app in H2. apply nodup_middle in H2 as [_ H2]. by rewrite middle_drop in H2.
  - intros q. rewrite unlink_lookup. case_decide; [by intros []|]. intros Hq.
    assert (q ∈ l1 ++ prev :: x :: l2) as Hq'.
    { case_decide; [subst; apply elem_of_app; right; by left|by apply H3]. }
    apply Hin in Hq' as [?|?]; done.
  - apply Hin in H4 as [?|?]; done.
  - intros q Hq. rewrite (unlink_field kt_id) by first [done|congruence]. apply H5, Hin. by right.
  - intros q q' Hq Hq'. rewrite !(unlink_field kt_id) by first [done|congruence]. apply H6; apply Hin; by right.
  - intros q Hq. destruct (decide (q = x)) as [->|Hqx].
    + unfold thr in Hq. by rewrite unlink_lookup, decide_True in Hq.
    + rewrite (unlink_field kt_state) in Hq by done. by apply H7.
Qed.
(** A thread that exited is neither running nor the first thread. *)
Lemma exited_not_current hp s l1 prev x l2 L k :
  threads_ok hp s (l1 ++ prev :: x :: l2) L k → alive s x = false → current_kthread s ≠ x.
Proof.
  intros [Hwf _ _ _ Hcur] Hx <-. unfold alive, is_state in Hx. apply negb_false_iff, bool_decide_eq_true in Hx.
  destruct Hcur as [E|E]; [|done]. rewrite E in Hwf. destruct (wf_genesis _ _ Hwf) as [l' El].
  pose proof (wf_nodup _ _ Hwf) as Hn. rewrite middle_app in El, Hn. rewrite El in Hn.
  destruct (l1 ++ [prev]) as [|y l3] eqn:E3; [by destruct l1|]. cbn [app] in El. injection El as -> El.
  apply list.NoDup_cons in Hn as [Hn _]. apply Hn. rewrite <- El. apply elem_of_app. right. by left.
Qed.

Lemma unlink_ok hp s l1 prev x l2 L k :
  threads_ok hp s (l1 ++ prev :: x :: l2) L k → alive s x = false →
  let base := stack_base (thr s x) in
  (base =? 0) = false ∧
  threads_ok (a_free x (a_free base hp)) (unlink prev x s) (l1 ++ prev :: l2) (delete x (delete base L)) k.
Proof.
  intros Hok Hx base. pose proof (exited_not_current _ _ _ _ _ _ _ _ Hok Hx) as Hc.
  destruct Hok as [Hwf Hh Hnd Hlv Hcur].
  assert (owned s (l1 ++ prev :: x :: l2) =
          blocks s (tail (l1 ++ [prev])) ++ x :: base :: blocks s l2) as Eo.
  { unfold owned. rewrite middle_app, tail_app by (by destruct l1). by rewrite blocks_app. }
  rewrite Eo in Hnd, Hlv.
  assert (x ≠ base ∧ ∀ q, q ∈ blocks s (tail (l1 ++ [prev])) ++ blocks s l2 → q ≠ x ∧ q ≠ base) as [Hxb Hq].
  { pose proof Hnd as [Hx1 Hn1]%nodup_middle. apply nodup_middle in Hn1 as [Hb1 _]. split.
    - intros E. apply Hx1. rewrite elem_of_app, elem_of_cons. auto.
    - intros q Hq. split; intros E; rewrite E in Hq; [|done]. apply Hx1. rewrite elem_of_app, elem_of_cons.
      apply elem_of_app in Hq as [?|?]; auto. }
  destruct (Hlv base) as [n Hn]; [rewrite elem_of_app, !elem_of_cons; auto|].
  destruct (Hlv x) as [n' Hn']; [rewrite elem_of_app, !elem_of_cons; auto|].
  destruct (a_live_ok base n hp L k Hh Hn) as (Hb0 & _ & _). split; [lia|].
  assert (owned (unlink prev x s) (l1 ++ prev :: l2) = blocks s (tail (l1 ++ [prev])) ++ blocks s l2) as Eo'.
  { unfold owned. rewrite <- middle_drop, tail_app, <- blocks_app by (by destruct l1).
    apply blocks_ext. intros q Hin. apply unlink_field; [done|]. intros ->.
    pose proof (wf_nodup _ _ Hwf) as Hx1. rewrite middle_app in Hx1. apply nodup_middle in Hx1 as [Hx1 _].
    apply Hx1. apply elem_of_app in Hin as [?%elem_of_tail|?]; apply elem_of_app; auto. }
  split.
  - by apply unlink_wf.
  - apply a_free_ok; [apply a_free_ok; [done|by rewrite Hn]|]. by rewrite lookup_delete_ne, Hn' by done.
  - rewrite Eo'. apply nodup_middle in Hnd as [_ Hnd]. by apply nodup_middle in Hnd as [_ Hnd].
  - rewrite Eo'. intros q Hin. destruct (Hq q Hin) as [H1 H2]. rewrite !lookup_delete_ne by done.
    apply Hlv. rewrite elem_of_app, !elem_of_cons. apply elem_of_app in Hin as [?|?]; auto.
  - rewrite (unlink_field kt_state) by done. exact Hcur.
Qed.
(** Nothing but its link changes in a thread that stays. *)
Definition kept (s s' : sched) (p : Z) : Prop := with_next 0 (thr s' p) = with_next 0 (thr s p).

Lemma kept_field {B} (g : kthread → B) s s' p :
  (∀ n t, g (with_next n t) = g t) → kept s s' p → g (thr s' p) = g (thr s p).
Proof. intros Hg Hk. rewrite <- (Hg 0 (thr s' p)), <- (Hg 0 (thr s p)). by rewrite Hk. Qed.

Lemma alive_kept s s' p : kept s s' p → alive s' p = alive s p.
Proof. intros Hk. unfold alive, is_state. by rewrite (kept_field kt_state s s' p). Qed.

Lemma filter_kept s s' l : (∀ q, q ∈ l → kept s s' q) → List.filter (alive s') l = List.filter (alive s) l.
Proof. intros Hl. apply filter_ext_in. intros q Hq%list_elem_of_In. by apply alive_kept, Hl. Qed.

Lemma reap_loop_ok l2 : ∀ fuel l1 prev hp s L k,
  threads_ok hp s (l1 ++ prev :: l2) L k → (length l2 < fuel)%nat →
  ∃ hp' s' L', reap_loop fuel prev (kt_next (thr s prev)) hp s = (hp', s') ∧
    threads_ok hp' s' (l1 ++ prev :: List.filter (alive s) l2) L' k ∧
    (∀ q, q ∉ List.filter (λ p, negb (alive s p)) l2 → kept s s' q) ∧ current_kthread s' = current_kthread s ∧
    (∀ q, is_Some (L' !! q) ↔ is_Some (L !! q) ∧ q ∉ blocks s (List.filter (λ p, negb (alive s p)) l2)).
Proof.
  induction l2 as [|x l2 IH]; intros fuel l1 prev hp s L k Hok Hf; (destruct fuel as [|fuel]; [cbn in Hf; lia|]).
  all: pose proof (chain_next _ _ _ _ _ (wf_chain _ _ (tk_wf _ _ _ _ _ Hok))) as Hc; cbn [chain length] in *.
  { rewrite Hc. exists hp, s, L. cbn. split_and!; try done. intros q. split; [|tauto]. intros; split; [done|]. apply not_elem_of_nil. }
  destruct Hc as (Ex & Hx0 & _ & _). cbn [reap_loop]. rewrite Ex. assert ((x =? 0) = false) as -> by lia.
  destruct (alive s x) eqn:Ea; cbn [List.filter]; rewrite Ea; unfold alive in Ea; cbn [negb].
  - apply negb_true_iff in Ea. rewrite Ea.
    destruct (IH fuel (l1 ++ [prev]) x hp s L k) as (hp' & s' & L' & -> & Hok' & Hr); [by rewrite <- middle_app|lia|].
    rewrite <- middle_app in Hok'. by exists hp', s', L'.
  - pose proof Ea as Ea'. apply negb_false_iff in Ea. rewrite Ea. cbv zeta.
    destruct (unlink_ok _ _ _ _ _ _ _ _ Hok Ea') as [Hb Hok'].
    pose proof (wf_nodup _ _ (tk_wf _ _ _ _ _ Hok)) as Hn.
    assert (x ∉ (l1 ++ [prev]) ++ l2) as Hxl by (rewrite middle_app in Hn; apply nodup_middle in Hn as [Hn _]; exact Hn).
    assert (prev ≠ x) as Hpx by (intros ->; apply Hxl; rewrite middle_drop, elem_of_app; right; by left).
    assert (∀ q, q ≠ x → kept s (unlink prev x s) q) as Hk1.
    { intros q Hq. by apply (unlink_field (with_next 0)). }
    rewrite thr_upd_ne, Hb by done. cbn [negb]. fold (unlink prev x s).
    assert (kt_next (thr s x) = kt_next (thr (unlink prev x s) prev)) as -> by (by rewrite unlink_thr, decide_True).
    destruct (IH fuel l1 prev _ _ _ k Hok') as (hp' & s' & L' & -> & Hok'' & Hk & Hcur & HL); [lia|].
    assert (∀ q, q ∈ l2 → q ≠ x) as Hl2 by (intros q Hq ->; apply Hxl, elem_of_app; by right).
    rewrite (filter_kept s) in Hok'' by auto.
    assert (List.filter (λ p, negb (alive (unlink prev x s) p)) l2 = List.filter (λ p, negb (alive s p)) l2) as Ef.
    { apply filter_ext_in. intros p Hp%list_elem_of_In. by rewrite (alive_kept s) by auto. }
    rewrite Ef in Hk, HL. exists hp', s', L'. split_and!; [done|done| |done|].
    + intros q [Hqx Hq]%not_elem_of_cons. unfold kept. rewrite (Hk q) by done. by apply Hk1.
    + intros q. rewrite HL. change (blocks s (x :: ?l)) with (x :: stack_base (thr s x) :: blocks s l).
      rewrite (blocks_ext s).
      2:{ intros p [Hp _]%list_elem_of_In%filter_In. apply unlink_field; [done|]. by apply Hl2, list_elem_of_In. }
      rewrite !lookup_delete_is_Some, !elem_of_cons. naive_solver.
Qed.

(** [kthread_reap] frees exactly the exited threads. *)
Lemma reap_ok hp s l L k :
  threads_ok hp s l L k →
  ∃ hp' s' L', kthread_reap hp s = (hp', s') ∧
    threads_ok hp' s' (genesis_kthread :: List.filter (alive s) (tail l)) L' k ∧
    (∀ q, q ∉ List.filter (λ p, negb (alive s p)) (tail l) → kept s s' q) ∧ current_kthread s' = current_kthread s ∧
    (∀ q, is_Some (L' !! q) ↔ is_Some (L !! q) ∧ q ∉ blocks s (List.filter (λ p, negb (alive s p)) (tail l))).
Proof.
  intros Hok. assert (threads_ok hp (preempt_disable s) l L k) as Hok0 by (by eapply ok_scalars).
  destruct (wf_genesis _ _ (tk_wf _ _ _ _ _ Hok)) as [l' ->]. cbn [tail].
  destruct (reap_loop_ok l' (list_fuel (preempt_disable s)) [] genesis_kthread hp _ L k Hok0)
    as (hp' & s' & L' & E & Hok' & Hk & Hc & HL).
  { rewrite (wf_fuel _ _ (tk_wf _ _ _ _ _ Hok0)). cbn. lia. }
  exists hp', (preempt_enable s'), L'. unfold kthread_reap. rewrite E. split_and!; try done.
  by eapply ok_scalars.
Qed.
End Ops.
