(* ===== verification/KthreadRun.v ===== *)
(** * Runs of the thread subsystem

    The operations as a step relation, the safety of every run by induction on
    it, and what creation and reaping achieve. *)
From S2P Require Import Prelude Pmm Page Vmm Heap HeapInv HeapProps HeapSpec Alloc Kthread KthreadProps KthreadMem KthreadInv.
Local Open Scope Z_scope.

Section Runs.
Context {H : Type} `{!Allocator H} (kthread_trampoline : Z).

(** One call into the thread subsystem.  Waiting for interrupts is part of the
    calls that schedule; [kthread_unblock] is called on a thread. *)
Inductive kstep : H * sched → H * sched → Prop :=
  | KYield hlts hp s s' : Forall benign hlts → kthread_yield hlts s = Some s' → kstep (hp, s) (hp, s')
  | KSleep ms hlts hp s s' : Forall benign hlts → kthread_sleep ms hlts s = Some s' → kstep (hp, s) (hp, s')
  | KBlock hlts hp s s' : Forall benign hlts → kthread_block hlts s = Some s' → kstep (hp, s) (hp, s')
  | KUnblock p hp s : is_Some (threads s !! p) → kstep (hp, s) (hp, kthread_unblock p s)
  | KExit hp s : kstep (hp, s) (hp, kthread_exit s)
  | KTick hlts hp s s' : Forall benign hlts → timer_tick hlts s = Some s' → kstep (hp, s) (hp, s')
  | KDisable hp s : kstep (hp, s) (hp, preempt_disable s)
  | KEnable hp s : kstep (hp, s) (hp, preempt_enable s)
  | KCreate name entry arg id hp s hp' s' :
      next_thread_id s < 2 ^ 64 - 1 →
      kthread_create kthread_trampoline name entry arg hp s = Done (id, hp', s') → kstep (hp, s) (hp', s')
  | KReap hp s hp' s' : kthread_reap hp s = (hp', s') → kstep (hp, s) (hp', s').

Lemma current_ok hp s l L k f :
  threads_ok hp s l L k →
  (∀ t, kt_next (f t) = kt_next t ∧ kt_id (f t) = kt_id t ∧ stack_base (f t) = stack_base t) →
  (∀ t, kt_state t ≠ THREAD_EXITED → kt_state (f t) ≠ THREAD_EXITED) →
  threads_ok hp (upd (current_kthread s) f s) l L k.
Proof.
  intros Hok Hf Hst. apply ok_upd; [done|apply (wf_current _ _ (tk_wf _ _ _ _ _ Hok))|done|done|].
  intros _. destruct (tk_current _ _ _ _ _ Hok) as [?|Hc]; [by left|right]. by apply Hst.
Qed.

Lemma exit_thr s q :
  thr (kthread_exit s) q =
  if decide (current_kthread s = q) then with_rsp (u64 (cpu_rsp s - 56)) (with_state THREAD_EXITED (thr s q)) else thr s q.
Proof.
  unfold kthread_exit. set (s1 := kthread_set_current _ _).
  transitivity (thr (upd (current_kthread s) (with_rsp (u64 (cpu_rsp s - 56))) s1) q); [done|].
  rewrite thr_upd. change (thr s1) with (thr (set_state (current_kthread s) THREAD_EXITED s)). unfold set_state.
  rewrite !thr_upd. repeat case_decide; subst; done.
Qed.

Lemma exit_ok hp s l L k : threads_ok hp s l L k → threads_ok hp (kthread_exit s) l L k.
Proof.
  intros Hok. pose proof (tk_wf _ _ _ _ _ Hok) as Hwf. unfold kthread_exit.
  set (s1 := kthread_set_current _ _). set (c := current_kthread s) in *.
  assert (∀ q, thr (upd c (with_rsp (u64 (cpu_rsp s1 - 56))) s1) q = thr (kthread_exit s) q) as Ht' by done.
  assert (∀ q, thr (upd c (with_rsp (u64 (cpu_rsp s1 - 56))) s1) q = _) as Ht
    by (intros q; rewrite Ht'; apply exit_thr). clear Ht'. fold c in Ht.
  apply (ok_scalars hp (upd c (with_rsp (u64 (cpu_rsp s1 - 56))) s1)); [|done..].
  apply (ok_update hp s); [done| |done| | | | |].
  - transitivity (set_state c THREAD_EXITED s).
    + apply links_upd; [eapply ok_thread; [done|apply (wf_current _ _ Hwf)]|done].
    + transitivity s1; [split; done|]. apply links_upd; [|done].
      change (is_Some (threads (set_state c THREAD_EXITED s) !! c)). unfold set_state. by rewrite lookup_upd_eq.
  - destruct (wf_genesis _ _ Hwf) as [l' ->]. by left.
  - intros q. rewrite Ht. by case_decide; subst.
  - intros q. rewrite Ht. by case_decide; subst.
  - intros q. rewrite Ht. case_decide; [done|]. intros Hr%(wf_running _ _ Hwf). by subst.
  - by left.
Qed.

Lemma kstep_ok x y l L k :
  kstep x y → threads_ok x.1 x.2 l L (S (S k)) → ∃ l' L', threads_ok y.1 y.2 l' L' k.
Proof.
  assert (∀ hp s, threads_ok hp s l L (S (S k)) → threads_ok hp s l L k) as Hweak.
  { intros hp s Hok. apply (ok_heap hp hp s l L L _ _ Hok); [|done]. apply a_weaken, a_weaken, Hok. }
  intros Hstep Hok. destruct Hstep as
    [hlts hp s s' Hb E|ms hlts hp s s' Hb E|hlts hp s s' Hb E|p hp s Hp|hp s|hlts hp s s' Hb E|hp s|hp s
    |name entry arg id hp s hp' s' Hid E|hp s hp' s' E]; cbn [fst snd] in *.
  - exists l, L. apply Hweak. eapply schedule_ok; [|done|exact E]. by apply current_ok.
  - exists l, L. apply Hweak. eapply schedule_ok; [|done|exact E].
    set (s1 := upd _ _ s). change (current_kthread s) with (current_kthread s1).
    apply current_ok; [by apply current_ok|done|done].
  - exists l, L. apply Hweak. eapply schedule_ok; [|done|exact E].
    set (s1 := set_state _ _ s). change (current_kthread s) with (current_kthread s1).
    apply current_ok; [by apply current_ok|done|done].
  - exists l, L. apply Hweak. unfold kthread_unblock. case_if; [|done].
    apply ok_upd; [done|apply (wf_dom _ _ (tk_wf _ _ _ _ _ Hok)), Hp|done|done|]. intros _. by right.
  - exists l, L. by apply Hweak, exit_ok.
  - exists l, L. apply Hweak. unfold timer_tick in E.
    assert (threads_ok hp (set_ticks (u64 (tick_count s + 1)) s) l L (S (S k))) as Hok1 by (by eapply ok_scalars).
    destruct (negb _); [|by injection E as <-]. eapply schedule_ok; [|done|exact E]. by apply wake_ok.
  - exists l, L. apply Hweak. by eapply ok_scalars.
  - exists l, L. apply Hweak. by eapply ok_scalars.
  - destruct (create_ok kthread_trampoline name entry arg hp s l L k Hok Hid) as (id' & hp1 & s1 & l' & L' & E' & Hok' & _).
    rewrite E in E'. injection E' as -> -> ->. by exists l', L'.
  - destruct (reap_ok hp s l L _ Hok) as (hp1 & s1 & L' & E' & Hok' & _). rewrite E in E'. injection E' as -> ->.
    eexists _, L'. apply (ok_heap hp1 hp1 s1 _ L' L' _ _ Hok'); [|done]. apply a_weaken, a_weaken, Hok'.
Qed.


(** ** From exit to reaping *)
Lemma find_id_chain fuel id p l s :
  chain s p l → (length l < fuel)%nat →
  find_id fuel id p s = default 0 (find (λ q, kt_id (thr s q) =? id) l).
Proof.
  revert fuel p. induction l as [|x l IH]; intros fuel p Hc Hn; (destruct fuel as [|fuel]; [cbn in Hn; lia|]);
    cbn [chain find_id find length] in *.
  - by subst.
  - destruct Hc as (-> & H0 & _ & Hc). assert ((x =? 0) = false) as -> by lia.
    case_if; [done|]. apply IH; [done|lia].
Qed.

Lemma get_kthread_gone s l id :
  sched_wf s l → (∀ q, q ∈ l → kt_id (thr s q) ≠ id) → kthread_get_kthread id s = 0.
Proof.
  intros Hwf Hid. unfold kthread_get_kthread.
  rewrite (find_id_chain _ _ _ l) by (apply (wf_chain _ _ Hwf) || (rewrite (wf_fuel _ _ Hwf); lia)).
  destruct (find _ l) as [q|] eqn:E; [|done]. apply find_elem in E as [Hq E]. apply Z.eqb_eq in E. by destruct (Hid q).
Qed.

(** When a thread other than the genesis thread
    exits, the reaper's next pass removes it from the list (with every other
    thread that exited before), its identifier no longer finds a thread,
    exactly the control blocks and stacks of the exited threads go back to the
    heap, and the threads that stay keep everything but their link. *)
Theorem exited_thread_reclaimed hp s l L k :
  threads_ok hp s l L k → current_kthread s ≠ genesis_kthread →
  let p := current_kthread s in
  let gone := List.filter (λ q, bool_decide (q = p) || negb (alive s q)) (tail l) in
  let l' := genesis_kthread :: List.filter (λ q, negb (bool_decide (q = p)) && alive s q) (tail l) in
  ∃ hp' s' L', kthread_reap hp (kthread_exit s) = (hp', s') ∧ threads_ok hp' s' l' L' k ∧
    p ∈ gone ∧ threads s' !! p = None ∧ kthread_get_kthread (kt_id (thr s p)) s' = 0 ∧
    (∀ q, is_Some (L' !! q) ↔ is_Some (L !! q) ∧ q ∉ blocks s gone) ∧
    (∀ q, q ∈ l' → kept s s' q).
Proof.
  intros Hok Hg p gone l'. pose proof (exit_ok _ _ _ _ _ Hok) as Hok1.
  pose proof (tk_wf _ _ _ _ _ Hok) as Hwf.
  assert (∀ q, alive (kthread_exit s) q = negb (bool_decide (q = p)) && alive s q) as Ha.
  { intros q. unfold alive, is_state. rewrite exit_thr. fold p. case_decide as E.
    - subst q. by rewrite (bool_decide_eq_true_2 (p = p)).
    - by rewrite (bool_decide_eq_false_2 (q = p)) by congruence. }
  destruct (reap_ok hp (kthread_exit s) l L k Hok1) as (hp' & s' & L' & E & Hok' & Hk & _ & HL).
  rewrite (filter_ext_in _ (λ q, negb (bool_decide (q = p)) && alive s q)) in Hok' by (intros; apply Ha).
  assert (List.filter (λ q, negb (alive (kthread_exit s) q)) (tail l) = gone) as Eg.
  { apply filter_ext_in. intros q _. rewrite Ha, negb_andb, negb_involutive. done. }
  rewrite Eg in Hk, HL. pose proof (wf_current _ _ Hwf) as Hc. destruct (wf_genesis _ _ Hwf) as [l0 ->].
  assert (genesis_kthread ∉ l0) as Hgl by (pose proof (wf_nodup _ _ Hwf) as [??]%list.NoDup_cons; done).
  assert (∀ q, q ∈ l' → q ∈ genesis_kthread :: l0 ∧ q ≠ p ∧ q ∉ gone) as Hl'.
  { intros q [->|Hq]%elem_of_cons.
    - split_and!; [by left|done|]. by intros [?%list_elem_of_In _]%list_elem_of_In%filter_In.
    - apply list_elem_of_In, filter_In in Hq as [Hq%list_elem_of_In Ht]. unfold gone, tail.
      apply andb_true_iff in Ht as [Ht1%negb_true_iff%bool_decide_eq_false Ht2]. split_and!; [by right|done|].
      intros [_ Hn]%list_elem_of_In%filter_In. rewrite bool_decide_eq_false_2, Ht2 in Hn by done. done. }
  assert (∀ q, q ∈ l' → kept s s' q) as Hkept.
  { intros q Hq. destruct (Hl' q Hq) as (_ & Hne & Hn). unfold kept. rewrite (Hk q Hn), exit_thr.
    rewrite decide_False; [done|]. intros Eq. apply Hne. by symmetry. }
  pose proof (tk_wf _ _ _ _ _ Hok') as Hwf'.
  exists hp', s', L'. split_and!; [done|done| | | | |done].
  - apply list_elem_of_In, filter_In. rewrite bool_decide_eq_true_2 by done. split; [|done].
    apply list_elem_of_In. by apply elem_of_cons in Hc as [?|?].
  - destruct (threads s' !! p) eqn:Et; [|done]. destruct (Hl' p) as (_ & ? & _); [|done].
    apply (wf_dom _ _ Hwf'). by rewrite Et.
  - apply (get_kthread_gone s' l' _ Hwf'). intros q Hq Eid.
    rewrite (kept_field kt_id s s' q) in Eid by auto.
    destruct (Hl' q Hq) as (Hql & ? & _). by apply (wf_ids_inj _ _ Hwf) in Eid.
  - intros q. rewrite HL. erewrite blocks_ext; [done|]. intros x _. rewrite exit_thr. by case_decide.
Qed.
End Runs.

(** ** What the thread subsystem promises

    The choice of the scheduler, that a ready thread runs after at most one
    round, and that every operation keeps the thread table well-formed and
    owns its memory exactly once. *)
(** C9 [schedule_round_robin]: with preemption enabled the scheduler first
    makes every sleeper whose time has come ready, and then runs the first
    ready thread after the current one in cyclic list order: the old thread
    is ready again if it was running, its stack pointer is saved, the new
    thread is marked running on its own stack, and no other thread changes.
    When no other thread is ready the current thread goes on, or idles if it
    is blocked. *)
Theorem schedule_round_robin hlts s l r :
  sched_wf s l → preempt_count s ≤ 0 → rotation l (current_kthread s) r →
  let s1 := kthread_wake_sleepers s in
  (∀ p, p ∈ l → thr s1 p = woken (tick_count s) (thr s p)) ∧
  match find (λ t, is_state s1 t THREAD_READY) r with
  | Some t =>
      ∃ s', kthread_schedule hlts s = Some s' ∧ sched_wf s' l ∧ current_kthread s' = t ∧
        cpu_rsp s' = u64 (kt_rsp (thr s t) + 56) ∧
        kt_state (thr s' t) = THREAD_RUNNING ∧
        kt_rsp (thr s' (current_kthread s)) = u64 (cpu_rsp s - 56) ∧
        kt_state (thr s' (current_kthread s)) ≠ THREAD_RUNNING ∧
        ∀ p, p ≠ t → p ≠ current_kthread s → thr s' p = thr s1 p
  | None =>
      kthread_schedule hlts s =
      if is_state s1 (current_kthread s) THREAD_BLOCKED then idle hlts s1 else Some s1
  end.
Proof.
  intros Hwf Hp Hr s1. destruct (wake_sleepers_spec s l Hwf) as ((E1 & _ & _ & _ & E2 & _) & _ & Ht).
  fold s1 in E1, E2, Ht. split. { intros p Hp'. by rewrite Ht, decide_True. }
  rewrite (schedule_spec hlts s l r) by done. fold s1. destruct (find _ r) as [t|] eqn:Ef; [|done].
  apply find_elem in Ef as [Hin Hst].
  destruct (rotation_other s l r t Hwf Hr Hin) as [Htl Hne]. rewrite <- E1 in Hne.
  pose proof (wake_sleepers_wf s l Hwf) as Hwf1. fold s1 in Hwf1.
  exists (switched t s1). split; [done|]. split; [by apply switched_wf|].
  split; [unfold switched; by case_if|]. split_and!.
  - unfold switched, kthread_switch. set (s2 := if is_state s1 _ _ then _ else s1).
    cbn [cpu_rsp set_cpu_rsp]. do 2 f_equal. unfold set_state. rewrite thr_upd_eq. cbn [kt_rsp with_state].
    change (thr (set_current t s2) t) with (thr s2 t). transitivity (kt_rsp (thr s1 t)).
    + unfold s2, set_state. case_if; [by rewrite thr_upd_ne|done].
    + rewrite Ht, decide_True by done. unfold woken. by case_if.
  - rewrite switched_thr, decide_True by done. done.
  - rewrite switched_thr, decide_False, decide_True by congruence. by rewrite E2.
  - rewrite switched_thr, decide_False, decide_True by congruence. cbn. case_if; [done|].
    intros Hr'. by rewrite (proj2 (is_state_spec _ _ _) Hr') in *.
  - intros p Hpt Hpc. by rewrite switched_thr, decide_False, decide_False by congruence.
Qed.

(** ** Fairness *)

(** [n] yields in a row. *)
Fixpoint yields (n : nat) (s : sched) : option sched :=
  match n with
  | O => Some s
  | S n => s' ← kthread_yield [] s; yields n s'
  end.

Lemma rotation_next l cur ra c rb :
  rotation l cur (ra ++ c :: rb) → rotation l c (rb ++ cur :: ra).
Proof.
  intros (l1 & l2 & -> & E). apply app_eq_app in E as (k & [[-> ->]|[-> E]]).
  - exists k, (rb ++ cur :: l2). split; by rewrite <- app_assoc.
  - destruct k as [|x k]; cbn in E; [subst l1|injection E as <- ->].
    + exists [], (rb ++ cur :: ra). rewrite !app_nil_r. done.
    + exists (l1 ++ cur :: ra), k. split; [by rewrite <- app_assoc|by rewrite <- app_assoc].
Qed.

(** Marking the current thread ready. *)
Lemma ready_wf s l : sched_wf s l → sched_wf (set_state (current_kthread s) THREAD_READY s) l.
Proof.
  intros Hwf. apply (wf_update s); [done| |done|apply (wf_current _ _ Hwf)| |].
  - apply links_upd; [|done]. eapply chain_elem; [apply (wf_chain _ _ Hwf)|apply (wf_current _ _ Hwf)].
  - intros p. unfold set_state. rewrite thr_upd. case_decide; [by subst|done].
  - intros p. unfold set_state. rewrite thr_upd. case_decide; [done|]. apply (wf_running _ _ Hwf).
Qed.

Lemma yield_to_first s l r t :
  sched_wf s l → preempt_count s = 0 → rotation l (current_kthread s) r → t ∈ r →
  kt_state (thr s t) = THREAD_READY →
  ∃ ra c rb s', r = ra ++ c :: rb ∧ (t ∉ ra) ∧ kthread_yield [] s = Some s' ∧ sched_wf s' l ∧
    preempt_count s' = 0 ∧ current_kthread s' = c ∧ (t ≠ c → kt_state (thr s' t) = THREAD_READY).
Proof.
  intros Hwf Hp Hr Ht Hst. unfold kthread_yield. pose proof (ready_wf s l Hwf) as Hwf0.
  set (s0 := set_state _ _ s) in *. pose proof (wake_sleepers_wf s0 l Hwf0) as Hwf1.
  destruct (wake_sleepers_spec s0 l Hwf0) as ((E1 & _ & E3 & _) & _ & Hth).
  set (s1 := kthread_wake_sleepers s0) in *.
  destruct (rotation_other s l r t Hwf Hr Ht) as [Htl Htc].
  assert (thr s1 t = thr s t) as Et.
  { rewrite Hth, decide_True by done. unfold s0, set_state. rewrite thr_upd_ne by done.
    unfold woken. rewrite Hst. done. }
  rewrite (schedule_spec [] s0 l r) by (done || (cbn; lia)). fold s1.
  destruct (find (λ x, is_state s1 x THREAD_READY) r) as [c|] eqn:Ef.
  2:{ exfalso. apply (find_none_elem _ _ t) in Ef; [|done]. apply not_true_iff_false in Ef.
      apply Ef, is_state_spec. by rewrite Et. }
  destruct (find_elem _ _ _ Ef) as [Hc _]. apply find_split in Ef as (ra & rb & -> & Hra).
  destruct (rotation_other s l _ c Hwf Hr Hc) as [Hcl Hcc].
  assert (c ≠ current_kthread s1) as Hcc1 by (by rewrite E1).
  exists ra, c, rb, (switched c s1). split_and!; [reflexivity| |reflexivity| | | |].
  - intros Hin. apply Hra, not_true_iff_false in Hin. apply Hin, is_state_spec. by rewrite Et.
  - by apply switched_wf.
  - assert (preempt_count s1 = 0) as Ep by (rewrite E3; exact Hp). unfold switched. case_if; exact Ep.
  - unfold switched. by case_if.
  - intros Hne. rewrite switched_thr, decide_False, decide_False by (done || by rewrite E1). by rewrite Et.
Qed.

(** C30 [ready_thread_runs]: while the threads only yield, a ready thread runs
    after at most as many yields as there are other threads: none starves. *)
Theorem ready_thread_runs s l t :
  sched_wf s l → preempt_count s = 0 → t ∈ l → t ≠ current_kthread s →
  kt_state (thr s t) = THREAD_READY →
  ∃ n s', (n < length l)%nat ∧ yields n s = Some s' ∧ current_kthread s' = t.
Proof.
  intros Hwf Hp Ht Hne Hst. destruct (wf_split s l Hwf) as (l1 & l2 & E & _).
  assert (rotation l (current_kthread s) (l2 ++ l1)) as Hr by (by exists l1, l2).
  assert (t ∈ l2 ++ l1) as Htr.
  { rewrite E, elem_of_app, elem_of_cons in Ht. apply elem_of_app. naive_solver. }
  assert (length (l2 ++ l1) < length l)%nat as Hlen by (rewrite E, !length_app; cbn; lia).
  apply list_elem_of_split in Htr as (ra & rb & Er). rewrite Er in Hr.
  assert (S (length ra) < length l)%nat as Hlt by (rewrite Er, length_app in Hlen; cbn in Hlen; lia).
  clear E Ht Er Hlen l1 l2 Hne.
  assert (∃ n s', (n ≤ S (length ra))%nat ∧ yields n s = Some s' ∧ current_kthread s' = t) as (n & s' & Hn & H);
    [|exists n, s'; split; [lia|done]].
  clear Hlt. remember (length ra) as m eqn:Em. revert ra rb s Hwf Hp Hst Hr Em.
  induction (lt_wf m) as [m _ IH]. intros ra rb s Hwf Hp Hst Hr ->.
  destruct (yield_to_first s l (ra ++ t :: rb) t Hwf Hp Hr) as (xa & c & xb & s1 & E & Hxa & Ey & Hwf1 & Hp1 & Hc & Hst1);
    [apply elem_of_app; right; by left|done|].
  destruct (decide (t = c)) as [->|Hne].
  { exists 1%nat, s1. split; [lia|]. cbn [yields]. by rewrite Ey. }
  assert (∃ k, ra = xa ++ c :: k ∧ xb = k ++ t :: rb) as (k & -> & ->).
  { apply app_eq_app in E as (k & [[-> E]|[-> E]]); destruct k as [|x k]; cbn in E; try congruence.
    - injection E as <- ->. by exists k.
    - injection E as <- _. destruct Hxa. apply elem_of_app. right. by left. }
  rewrite length_app in *. cbn [length] in *.
  destruct (IH (length k) ltac:(lia) k (rb ++ current_kthread s :: xa) s1 Hwf1 Hp1 (Hst1 Hne)) as (n & s' & Hn & Hy & Hc').
  - rewrite Hc. rewrite <- app_assoc in Hr. cbn [app] in Hr. apply rotation_next in Hr.
    by rewrite <- app_assoc in Hr.
  - done.
  - exists (S n), s'. split; [lia|]. cbn [yields]. by rewrite Ey.
Qed.

(** ** Concrete thread tables

    A table of three threads on which the theorems about threads are applied,
    and runs of the code on corner cases. *)

(** An allocator that never reuses memory. *)
Record bump := Bump { bump_live : gmap Z Z; bump_next : Z }.

Definition bump_malloc (size : Z) (b : bump) : Z * bump :=
  let n := (size + 15) / 16 * 16 in
  if bump_next b + n <? 2 ^ 63 then (bump_next b, Bump (<[bump_next b := n]> (bump_live b)) (bump_next b + n))
  else (0, b).

Definition bump_ok (b : bump) (L : gmap Z Z) (k : nat) : Prop :=
  bump_live b = L ∧ 0 < bump_next b ∧ bump_next b mod 16 = 8 ∧
  ∀ q m, L !! q = Some m → 0 < q ∧ q mod 16 = 8 ∧ 0 < m ∧ q + m ≤ bump_next b.

#[global] Program Instance bump_allocator : Allocator bump := {
  a_malloc := bump_malloc;
  a_free p b := Bump (delete p (bump_live b)) (bump_next b);
  a_ok := bump_ok;
}.
Next Obligation.
  intros size b L k (HL & Hn & Hm & Hq) Hs. unfold bump_malloc.
  assert (size ≤ (size + 15) / 16 * 16 ∧ ((size + 15) / 16 * 16) mod 16 = 0) as [Hr Hr0] by zdm.
  set (n := (size + 15) / 16 * 16) in *. destruct (bump_next b + n <? 2 ^ 63) eqn:E; [right|left; done].
  exists n. assert (L !! bump_next b = None) as HN.
  { destruct (L !! bump_next b) eqn:EL; [|done]. apply Hq in EL. lia. }
  split_and!; try done; try lia.
  - intros q m Hqm. apply Hq in Hqm. lia.
  - split_and!; cbn [bump_live bump_next]; [by rewrite HL|lia|zdm|]. intros q m. rewrite lookup_insert.
    case_decide; [intros [= <-]; subst; lia|]. intros Hqm%Hq. lia.
Qed.
Next Obligation.
  intros p b L k (HL & Hn & Hm & Hq) _. split_and!; cbn [bump_live bump_next]; [by rewrite HL|done|done|].
  intros q m [_ Hqm]%lookup_delete_Some. by apply Hq.
Qed.
Next Obligation. intros b L k Hok. exact Hok. Qed.
Next Obligation. intros p n b L k (_ & _ & _ & Hq) Hp. apply Hq in Hp. lia. Qed.

(** The genesis thread is ready, the thread at 1000 runs, and the one at 30008
    sleeps until tick 5; it is tick 7. *)
Definition three_threads : sched :=
  Sched (<[1 := Kthread 0 0 500 0 THREAD_READY 1000 0 0 0 0]>
        (<[1000 := Kthread 0 1 600 2008 THREAD_RUNNING 30008 0 0 0 0]>
        (<[30008 := Kthread 0 2 40000 32008 THREAD_BLOCKED 0 0 0 0 5]> ∅)))
    1000 3 0 7 9000 ∅.

Definition three_list : list Z := [1; 1000; 30008].

Lemma three_wf : sched_wf three_threads three_list.
Proof.
  assert (∀ p, thr three_threads p =
    if decide (p = 1) then Kthread 0 0 500 0 THREAD_READY 1000 0 0 0 0
    else if decide (p = 1000) then Kthread 0 1 600 2008 THREAD_RUNNING 30008 0 0 0 0
    else if decide (p = 30008) then Kthread 0 2 40000 32008 THREAD_BLOCKED 0 0 0 0 5 else zero_kthread) as Ht.
  { intros p. unfold thr, three_threads. cbn [threads]. rewrite !lookup_insert. repeat case_decide; subst; done. }
  assert (∀ p, p ∈ three_list ↔ p = 1 ∨ p = 1000 ∨ p = 30008) as Hl by (intros p; unfold three_list; set_solver).
  split.
  - vm_compute. split_and!; congruence || eauto.
  - apply (bool_decide_unpack _). by vm_compute.
  - intros p. rewrite Hl. unfold three_threads. cbn [threads]. rewrite !lookup_insert.
    repeat case_decide; subst; try tauto. rewrite lookup_empty. by intros [].
  - apply Hl. by right; left.
  - intros p Hp%Hl. rewrite Ht. destruct Hp as [->|[->| ->]]; vm_compute; done.
  - intros p q Hp%Hl Hq%Hl. rewrite !Ht.
    destruct Hp as [->|[->| ->]], Hq as [->|[->| ->]]; vm_compute; done.
  - intros p. rewrite Ht. repeat case_decide; subst; done.
Qed.

Definition three_live : gmap Z Z :=
  <[1000 := 96]> (<[2008 := 16384]> (<[30008 := 96]> (<[32008 := 16384]> ∅))).

Definition three_heap : bump := Bump three_live 50008.

Lemma three_ok k : threads_ok three_heap three_threads three_list three_live k.
Proof.
  split; [apply three_wf| | | |].
  - split_and!; [done|done|done|]. intros q m. unfold three_live. rewrite !lookup_insert.
    repeat case_decide; try (intros [= <-]; subst; vm_compute; by split_and!).
  - apply (bool_decide_unpack _). by vm_compute.
  - intros q. change (owned three_threads three_list) with [1000; 2008; 30008; 32008].
    intros Hq. assert (q = 1000 ∨ q = 2008 ∨ q = 30008 ∨ q = 32008) as Hq' by set_solver.
    destruct Hq' as [->|[->|[->| ->]]]; vm_compute; eauto.
  - by right.
Qed.

(** The sleeper's time has come and it runs next. *)
Lemma schedule_round_robin_witness :
  ∃ s', kthread_schedule [] three_threads = Some s' ∧ current_kthread s' = 30008 ∧ cpu_rsp s' = 40056 ∧
    kt_state (thr s' 30008) = THREAD_RUNNING.
Proof.
  destruct (schedule_round_robin [] three_threads three_list [30008; 1]) as [_ Hm].
  - apply three_wf.
  - by vm_compute.
  - by exists [1], [30008].
  - change (find _ [30008; 1]) with (Some 30008) in Hm. destruct Hm as (s' & E & _ & Hc & Hr & Hs & _).
    exists s'. split_and!; [exact E|exact Hc|exact Hr|exact Hs].
Defined.

Lemma ready_thread_runs_witness :
  ∃ n s', (n < 3)%nat ∧ yields n three_threads = Some s' ∧ current_kthread s' = genesis_kthread.
Proof.
  apply (ready_thread_runs three_threads three_list genesis_kthread).
  - apply three_wf.
  - by vm_compute.
  - by left.
  - by vm_compute.
  - by vm_compute.
Defined.


Lemma exited_thread_reclaimed_witness :
  ∃ hp' s' L', kthread_reap three_heap (kthread_exit three_threads) = (hp', s') ∧
    threads_ok hp' s' [1; 30008] L' 0 ∧ kthread_get_kthread 1 s' = 0.
Proof.
  destruct (exited_thread_reclaimed three_heap three_threads three_list three_live 0)
    as (hp' & s' & L' & E & Hok & _ & _ & Hg & _); [apply three_ok|by vm_compute|].
  exists hp', s', L'. split_and!; [exact E|exact Hok|exact Hg].
Defined.

(** ** Corner cases *)

(** The genesis thread sleeps until tick 500 when the running thread exits. *)
Definition genesis_asleep : sched :=
  upd 1 (λ t, with_wake 500 (with_state THREAD_BLOCKED t)) three_threads.

(** It is resumed at tick 7, still marked blocked: its sleep is cut short. *)
Example exit_cuts_sleep :
  let s := kthread_exit genesis_asleep in
  current_kthread s = genesis_kthread ∧ cpu_rsp s = 556 ∧
  kt_state (thr s genesis_kthread) = THREAD_BLOCKED ∧ wake_tick (thr s genesis_kthread) = 500 ∧ tick_count s = 7.
Proof. by vm_compute. Qed.

(** Sleeping for no time before the first tick has wake tick zero, which
    means not sleeping: no later tick wakes the thread. *)
Example sleep_zero_at_boot :
  ∃ s, kthread_sleep 0 [] (set_ticks 0 three_threads) = Some s ∧
    kt_state (thr s 1000) = THREAD_BLOCKED ∧ ∀ now, woken now (thr s 1000) = thr s 1000.
Proof. eexists. split; [by vm_compute|]. split; [by vm_compute|]. intros now. by vm_compute. Qed.
