(* ===== verification/Sync.v ===== *)
(** * Synchronisation ([kernel/sync.c], [kernel/sync.h])

    Spinlocks, mutexes and condition variables.  The code between
    [preempt_disable] and [preempt_enable] runs without a context switch; the
    operations that sleep are cut at the calls of [kthread_block]. *)
From S2P Require Import Prelude Pmm Page Vmm Heap HeapInv HeapProps HeapSpec Alloc Kthread KthreadProps.
Local Open Scope Z_scope.

(** ** Spinlocks

    [__sync_lock_test_and_set(&locked, 1)]: the old value and the new word. *)
Definition test_and_set (locked : Z) : Z * Z := (locked, 1).

Definition spin_init (locked : Z) : Z := 0.

Definition spin_unlock (locked : Z) : Z := 0.

Definition spin_trylock (locked : Z) : Z * Z :=
  let '(old, locked) := test_and_set locked in (if old =? 0 then 1 else 0, locked).

(** The spin: [others] gives what the other holders do to the word between two
    attempts; [None] when it runs out before the lock is free. *)
Fixpoint spin_lock (others : list (Z → Z)) (locked : Z) : option Z :=
  let '(old, locked) := test_and_set locked in
  if old =? 0 then Some locked
  else match others with
       | [] => None
       | o :: others => spin_lock others (o locked)
       end.

(** The interrupt flag is bit 9 of the flags register. *)
Definition IF : Z := 0x200.

Definition irq_save (rflags : Z) : Z * Z := (rflags, Z.land rflags (~64 IF)).

Definition irq_restore (flags rflags : Z) : Z := flags.

Definition spin_lock_irqsave (others : list (Z → Z)) (rflags locked : Z) : option (Z * Z * Z) :=
  let '(flags, rflags) := irq_save rflags in
  locked ← spin_lock others locked; Some (flags, rflags, locked).

Definition spin_unlock_irqrestore (flags rflags locked : Z) : Z * Z :=
  (irq_restore flags rflags, 0).

(** ** Wait queues

    Linked through [wait_next]; the head and tail pointers are in the object
    the threads wait for. *)
Definition waitq_add (q : Z * Z) (thread : Z) (s : sched) : (Z * Z) * sched :=
  let '(head, tail) := q in
  let s := upd thread (with_wait_next 0) s in
  if tail =? 0 then ((thread, thread), s)
  else ((head, thread), upd tail (with_wait_next thread) s).

Definition waitq_remove (q : Z * Z) (s : sched) : Z * (Z * Z) * sched :=
  let '(head, tail) := q in
  if head =? 0 then (0, q, s)
  else
    let thread := head in
    let head := wait_next (thr s thread) in
    let tail := if head =? 0 then 0 else tail in
    (thread, (head, tail), upd thread (with_wait_next 0) s).

(** ** Mutexes *)
Record mutex := Mutex { locked : Z; owner : Z; m_wait : Z * Z }.

Record cond := Cond { c_wait : Z * Z }.

Definition mutex_init (m : mutex) : mutex := Mutex 0 0 (0, 0).

Definition cond_init (c : cond) : cond := Cond (0, 0).

(** One round of [mutex_lock], from [preempt_disable] to [preempt_enable]:
    [true] when the mutex was taken, [false] when the thread was queued and
    calls [kthread_block] next. *)
Definition mutex_lock_round (m : mutex) (s : sched) : bool * mutex * sched :=
  let s := preempt_disable s in
  if locked m =? 0 then
    (true, Mutex 1 (kthread_current s) (m_wait m), preempt_enable s)
  else
    let '(q, s) := waitq_add (m_wait m) (kthread_current s) s in
    (false, Mutex (locked m) (owner m) q, preempt_enable s).

(** Give up the mutex and wake the first thread that waits for it. *)
Definition release (m : mutex) (s : sched) : mutex * sched :=
  let '(waiter, q, s) := waitq_remove (m_wait m) s in
  (Mutex 0 0 q, if negb (waiter =? 0) then kthread_unblock waiter s else s).

Definition mutex_unlock (m : mutex) (s : sched) : mutex * sched :=
  let s := preempt_disable s in
  let '(m, s) := release m s in
  (m, preempt_enable s).

Definition mutex_trylock (m : mutex) (s : sched) : Z * mutex * sched :=
  let s := preempt_disable s in
  if negb (locked m =? 0) then (0, m, preempt_enable s)
  else (1, Mutex 1 (kthread_current s) (m_wait m), preempt_enable s).

(** ** Condition variables *)

(** [cond_wait] up to its first [kthread_block]. *)
Definition cond_wait_begin (c : cond) (m : mutex) (s : sched) : cond * mutex * sched :=
  let s := preempt_disable s in
  let '(q, s) := waitq_add (c_wait c) (kthread_current s) s in
  let '(m, s) := release m s in
  (Cond q, m, preempt_enable s).

(** A round of the loop that takes the mutex back. *)
Definition cond_wait_round (m : mutex) (s : sched) : bool * mutex * sched :=
  let s := preempt_disable s in
  if negb (locked m =? 0) then
    let '(q, s) := waitq_add (m_wait m) (kthread_current s) s in
    (false, Mutex (locked m) (owner m) q, preempt_enable s)
  else (true, Mutex 1 (kthread_current s) (m_wait m), preempt_enable s).

Definition cond_signal (c : cond) (s : sched) : cond * sched :=
  let s := preempt_disable s in
  let '(waiter, q, s) := waitq_remove (c_wait c) s in
  let s := if negb (waiter =? 0) then kthread_unblock waiter s else s in
  (Cond q, preempt_enable s).

(** The queue holds no thread twice, so it is no longer than the table. *)
Fixpoint broadcast_loop (fuel : nat) (q : Z * Z) (s : sched) : (Z * Z) * sched :=
  match fuel with
  | O => (q, s)
  | S fuel' =>
      let '(waiter, q, s) := waitq_remove q s in
      if waiter =? 0 then (q, s) else broadcast_loop fuel' q (kthread_unblock waiter s)
  end.

Definition cond_broadcast (c : cond) (s : sched) : cond * sched :=
  let s := preempt_disable s in
  let '(q, s) := broadcast_loop (list_fuel s) (c_wait c) s in
  (Cond q, preempt_enable s).
