(* ===== verification/SyncProps.v ===== *)
(** * Wait queues, mutual exclusion and wake-ups *)
From S2P Require Import Prelude Pmm Page Vmm Heap HeapInv HeapProps HeapSpec Alloc Kthread KthreadProps Sync.
Local Open Scope Z_scope.

(** ** The queue as a list *)
Fixpoint wchain (s : sched) (p : Z) (l : list Z) : Prop :=
  match l with
  | [] => p = 0
  | x :: l => p = x ∧ x ≠ 0 ∧ wchain s (wait_next (thr s x)) l
  end.

(** The threads that wait in [q], first come first. *)
Definition waitq (s : sched) (q : Z * Z) (l : list Z) : Prop :=
  wchain s q.1 l ∧ q.2 = List.last l 0 ∧ NoDup l.

Lemma wchain_frame s s' p l :
  (∀ x, x ∈ l → wait_next (thr s' x) = wait_next (thr s x)) → wchain s p l → wchain s' p l.
Proof.
  revert p. induction l as [|x l IH]; intros p Hf; [done|]. cbn [wchain]. intros (-> & H0 & Hc).
  split_and!; [done|done|]. rewrite Hf by (by left). apply IH; [|done]. intros y Hy. apply Hf. by right.
Qed.

Lemma wchain_snoc s s' p l y t :
  wchain s p (l ++ [y]) → (∀ x, x ∈ l → wait_next (thr s' x) = wait_next (thr s x)) →
  wait_next (thr s' y) = t → t ≠ 0 → wait_next (thr s' t) = 0 → wchain s' p (l ++ [y; t]).
Proof.
  revert p. induction l as [|x l IH]; intros p Hc Hf Hy Ht0 Ht; cbn [app wchain] in *.
  - destruct Hc as (-> & H0 & _). done.
  - destruct Hc as (-> & H0 & Hc). split_and!; [done|done|]. rewrite Hf by (by left).
    apply IH; [done| |done|done|done]. intros z Hz. apply Hf. by right.
Qed.

Lemma thr_wait_next t n s x :
  wait_next (thr (upd t (with_wait_next n) s) x) = if decide (t = x) then n else wait_next (thr s x).
Proof. rewrite thr_upd. by case_decide. Qed.

Lemma wchain_nonzero s p l x : wchain s p l → x ∈ l → x ≠ 0.
Proof.
  revert p. induction l as [|y l IH]; intros p; [by intros _ ?%not_elem_of_nil|].
  intros (_ & H0 & Hc) [->|Hx]%elem_of_cons; [done|by eapply IH].
Qed.

Lemma waitq_add_ok s q l t :
  waitq s q l → t ≠ 0 → t ∉ l →
  let '(q', s') := waitq_add q t s in
  waitq s' q' (l ++ [t]) ∧ ∀ x, with_wait_next 0 (thr s' x) = with_wait_next 0 (thr s x).
Proof.
  destruct q as [h e]. intros (Hc & He & Hn) Ht Htl. cbn [fst snd] in *. unfold waitq_add.
  destruct (decide (l = [])) as [->|Hne].
  - cbn in He. subst e. cbn [Z.eqb]. split.
    + split_and!; [|done|apply NoDup_singleton]. cbn [fst app wchain]. split_and!; [done|done|].
      by rewrite thr_wait_next, decide_True.
    + intros x. rewrite thr_upd. case_decide; by subst.
  - destruct (exists_last Hne) as (l0 & z & ->). rewrite last_last in He. subst e.
    assert (z ∈ l0 ++ [z]) as Hz by (apply elem_of_app; right; by left).
    assert (z ≠ 0) as Hz0 by (by apply (wchain_nonzero _ _ _ _ Hc)). assert (z ≠ t) as Hzt by congruence.
    assert ((z =? 0) = false) as -> by lia. apply list.NoDup_app in Hn as Hn'. destruct Hn' as (_ & Hd & _).
    split.
    + split_and!; cbn [fst snd].
      * rewrite <- app_assoc. apply (wchain_snoc s); [done| |by rewrite thr_wait_next, decide_True|done|].
        -- intros x Hx. rewrite !thr_wait_next. rewrite !decide_False; [done| |].
           ++ intros ->. apply Htl, elem_of_app. by left.
           ++ intros ->. apply (Hd x Hx). by left.
        -- by rewrite !thr_wait_next, decide_False, decide_True.
      * by rewrite last_last.
      * apply list.NoDup_app. split_and!; [done| |apply NoDup_singleton]. by intros x Hx ->%list_elem_of_singleton.
    + intros x. rewrite !thr_upd. repeat case_decide; subst; done.
Qed.

Lemma waitq_remove_ok s q l :
  waitq s q l →
  let '(t, q', s') := waitq_remove q s in
  t = hd 0 l ∧ waitq s' q' (tail l) ∧ ∀ x, with_wait_next 0 (thr s' x) = with_wait_next 0 (thr s x).
Proof.
  destruct q as [h e]. intros (Hc & He & Hn). unfold waitq_remove. cbn [fst snd] in *.
  destruct l as [|x l]; cbn [wchain hd tail] in *; [by subst|].
  destruct Hc as (-> & H0 & Hc). assert ((x =? 0) = false) as -> by lia.
  apply list.NoDup_cons in Hn as [Hx Hn]. split_and!; [done| |].
  - split_and!; cbn [fst snd]; [| |done].
    + apply (wchain_frame s); [|done]. intros y Hy. rewrite thr_wait_next, decide_False; [done|congruence].
    + destruct l as [|y l]; cbn [wchain] in Hc; [by rewrite Hc|]. destruct Hc as (-> & Hy & _).
      assert ((y =? 0) = false) as -> by lia. done.
  - intros y. rewrite thr_upd. case_decide; by subst.
Qed.

(** ** Wake-ups *)

(** A control block without its place in a queue. *)
Definition unqueued (t : kthread) : kthread := with_wait_next 0 t.

Definition awake (t : kthread) : kthread :=
  if bool_decide (kt_state t = THREAD_BLOCKED) then with_state THREAD_READY t else t.

Lemma unblock_thr p s x : thr (kthread_unblock p s) x = if decide (p = x) then awake (thr s x) else thr s x.
Proof.
  unfold kthread_unblock, is_state, set_state. case_bool_decide as E.
  - rewrite thr_upd. case_decide; [subst|done]. unfold awake. by rewrite bool_decide_eq_true_2.
  - case_decide; [subst|done]. unfold awake. by rewrite bool_decide_eq_false_2.
Qed.

Lemma unblock_wait_next p s x : wait_next (thr (kthread_unblock p s) x) = wait_next (thr s x).
Proof. rewrite unblock_thr. unfold awake. case_decide; [|done]. by case_bool_decide. Qed.

Lemma awake_unqueued t t' : unqueued t = unqueued t' → unqueued (awake t) = unqueued (awake t').
Proof.
  intros E. assert (kt_state t = kt_state t') as Es by (by apply (f_equal kt_state) in E).
  unfold awake. rewrite Es. case_bool_decide; [|done]. apply (f_equal (with_state THREAD_READY)) in E. exact E.
Qed.

Lemma waitq_frame s s' q l :
  (∀ x, wait_next (thr s' x) = wait_next (thr s x)) → waitq s q l → waitq s' q l.
Proof. intros Hf (Hc & He & Hn). split_and!; [by apply (wchain_frame s)|done|done]. Qed.

(** Taking the first thread of the queue, if any, and waking it. *)
Lemma wake_first_ok s q l :
  waitq s q l →
  let '(t, q', s1) := waitq_remove q s in
  let s' := if negb (t =? 0) then kthread_unblock t s1 else s1 in
  waitq s' q' (tail l) ∧
  ∀ x, unqueued (thr s' x) = unqueued (if decide (hd_error l = Some x) then awake (thr s x) else thr s x).
Proof.
  intros Hq. pose proof (waitq_remove_ok s q l Hq) as Hr. destruct (waitq_remove q s) as [[t q'] s1].
  destruct Hr as (-> & Hq' & Hs). destruct l as [|x l]; cbn [hd tail hd_error Z.eqb negb] in *.
  { split; [done|]. intros y. rewrite decide_False by done. apply Hs. }
  destruct Hq as ((_ & H0 & _) & _). assert ((x =? 0) = false) as -> by lia. cbn [negb]. split.
  - by apply (waitq_frame s1); [apply unblock_wait_next|].
  - intros y. rewrite unblock_thr. case_decide as E.
    + rewrite decide_True by congruence. apply awake_unqueued, Hs.
    + rewrite decide_False by congruence. apply Hs.
Qed.

Lemma broadcast_ok l : ∀ fuel q s,
  waitq s q l → (length l < fuel)%nat →
  let '(q', s') := broadcast_loop fuel q s in
  q' = (0, 0) ∧ ∀ x, unqueued (thr s' x) = unqueued (if decide (x ∈ l) then awake (thr s x) else thr s x).
Proof.
  induction l as [|y l IH]; intros fuel q s Hq Hf; (destruct fuel as [|fuel]; [cbn in Hf; lia|]); cbn [broadcast_loop].
  - destruct q as [h e]. destruct Hq as (Hc & He & _). cbn in Hc, He. subst. cbn. split; [done|]. done.
  - pose proof (wake_first_ok s q (y :: l) Hq) as Hw. pose proof (waitq_remove_ok s q (y :: l) Hq) as Hr.
    destruct (waitq_remove q s) as [[t q'] s1]. destruct Hr as (-> & _). cbn [hd tail hd_error] in *.
    pose proof Hq as ((_ & H0 & _) & _ & Hn). assert ((y =? 0) = false) as E0 by lia. rewrite E0 in *.
    cbn [negb] in Hw. destruct Hw as [Hq' Hs]. cbn [length] in Hf.
    pose proof (IH fuel q' (kthread_unblock y s1) Hq' ltac:(lia)) as Hb.
    destruct (broadcast_loop fuel q' _) as [q2 s2]. destruct Hb as [-> Hb]. split; [done|].
    apply list.NoDup_cons in Hn as [Hyl _]. intros x. rewrite Hb. destruct (decide (x = y)) as [->|Hxy].
    + rewrite decide_False, decide_True; [|by left|done]. by rewrite Hs, decide_True.
    + assert (unqueued (thr (kthread_unblock y s1) x) = unqueued (thr s x)) as Ex
        by (rewrite Hs, decide_False by congruence; done).
      destruct (decide (x ∈ l)); [rewrite decide_True by (by right); by apply awake_unqueued|].
      rewrite decide_False; [done|]. by intros [?|?]%elem_of_cons.
Qed.

Lemma queue_short s l : NoDup l → (∀ x, x ∈ l → is_Some (threads s !! x)) → (length l < list_fuel s)%nat.
Proof.
  intros Hn Hl. unfold list_fuel. rewrite <- (size_dom (D := gset Z)), <- (size_list_to_set (C := gset Z) l Hn).
  assert (size (list_to_set l : gset Z) ≤ size (dom (threads s)))%nat as Hs; [|lia].
  apply subseteq_size. intros x Hx%elem_of_list_to_set. by apply elem_of_dom, Hl.
Qed.

(** ** Mutexes under preemption

    Threads that lock, wait and signal, interrupted by the timer at any point
    where preemption is enabled: the mutex has at most one holder, and the wait
    queues are first come first served. *)
(** A thread that finds the mutex locked joins
    the end of its queue; releasing the mutex, or signalling a condition,
    takes the first waiting thread off the queue and makes it ready if it
    sleeps; a broadcast ends and does so for every waiting thread; and nothing
    else of any thread changes. *)
Theorem waiters_served_in_order m c s lm lc :
  waitq s (m_wait m) lm → waitq s (c_wait c) lc → (∀ x, x ∈ lc → is_Some (threads s !! x)) →
  (locked m ≠ 0 → current_kthread s ≠ 0 → current_kthread s ∉ lm →
     let '(taken, m', s') := mutex_lock_round m s in
     taken = false ∧ locked m' = locked m ∧ owner m' = owner m ∧
     waitq s' (m_wait m') (lm ++ [current_kthread s]) ∧ ∀ x, unqueued (thr s' x) = unqueued (thr s x)) ∧
  (let '(m', s') := mutex_unlock m s in
   locked m' = 0 ∧ owner m' = 0 ∧ waitq s' (m_wait m') (tail lm) ∧
   ∀ x, unqueued (thr s' x) = unqueued (if decide (hd_error lm = Some x) then awake (thr s x) else thr s x)) ∧
  (let '(c', s') := cond_signal c s in
   waitq s' (c_wait c') (tail lc) ∧
   ∀ x, unqueued (thr s' x) = unqueued (if decide (hd_error lc = Some x) then awake (thr s x) else thr s x)) ∧
  (let '(c', s') := cond_broadcast c s in
   c_wait c' = (0, 0) ∧
   ∀ x, unqueued (thr s' x) = unqueued (if decide (x ∈ lc) then awake (thr s x) else thr s x)).
Proof.
  intros Hm0 Hc0 Hl. assert (waitq (preempt_disable s) (m_wait m) lm) as Hm by (by apply (waitq_frame s)).
  assert (waitq (preempt_disable s) (c_wait c) lc) as Hc by (by apply (waitq_frame s)). split_and!.
  - intros Hk H0 Hn. unfold mutex_lock_round. assert ((locked m =? 0) = false) as -> by lia.
    pose proof (waitq_add_ok (preempt_disable s) (m_wait m) lm (current_kthread s) Hm H0 Hn) as Ha.
    change (kthread_current (preempt_disable s)) with (current_kthread s).
    destruct (waitq_add _ _ _) as [q s']. destruct Ha as [Hq Hs]. split_and!; try done. by apply (waitq_frame s').
  - unfold mutex_unlock, release. pose proof (wake_first_ok (preempt_disable s) (m_wait m) lm Hm) as Hw.
    destruct (waitq_remove _ _) as [[t q] s1]. destruct Hw as [Hq Hs]. split_and!; try done.
    by eapply waitq_frame; [|exact Hq].
  - unfold cond_signal. pose proof (wake_first_ok (preempt_disable s) (c_wait c) lc Hc) as Hw.
    destruct (waitq_remove _ _) as [[t q] s1]. destruct Hw as [Hq Hs]. split_and!; try done.
    by eapply waitq_frame; [|exact Hq].
  - unfold cond_broadcast. pose proof Hc as (_ & _ & Hn).
    pose proof (broadcast_ok lc (list_fuel (preempt_disable s)) (c_wait c) (preempt_disable s) Hc) as Hb.
    destruct (broadcast_loop _ _ _) as [q s']. destruct Hb as [-> Hs]; [|done].
    by apply (queue_short (preempt_disable s)).
Qed.

(** ** Threads that use one mutex and one condition variable *)

(** Where a thread is: [Locking] before a round of [mutex_lock], [Queued]
    between its [preempt_enable] and [kthread_block]; [Waiting], [Relocking]
    and [Requeued] are the like points of [cond_wait]. *)
Inductive point := Outside | Locking | Queued | Holding | Waiting | Relocking | Requeued.

#[global] Instance point_eq_dec : EqDecision point.
Proof. solve_decision. Defined.

Record sys := Sys {
  sy_sched : sched;
  sy_mutex : mutex;
  sy_cond : cond;
  sy_at : Z → point;
}.

Definition me (y : sys) : Z := current_kthread (sy_sched y).

Definition at_point (y : sys) : point := sy_at y (me y).

(** The running thread arrives at [p]; the rest of the system becomes [s], [m], [c]. *)
Definition arrive (p : point) (s : sched) (m : mutex) (c : cond) (y : sys) : sys :=
  Sys s m c (λ t, if decide (t = me y) then p else sy_at y t).

Definition with_sched (s : sched) (y : sys) : sys := Sys s (sy_mutex y) (sy_cond y) (sy_at y).

Inductive sstep : sys → sys → Prop :=
  | S_lock y : at_point y = Outside → sstep y (arrive Locking (sy_sched y) (sy_mutex y) (sy_cond y) y)
  | S_round y taken m s : at_point y = Locking →
      mutex_lock_round (sy_mutex y) (sy_sched y) = (taken, m, s) →
      sstep y (arrive (if taken : bool then Holding else Queued) s m (sy_cond y) y)
  | S_block y hlts s : at_point y = Queued → kthread_block hlts (sy_sched y) = Some s →
      sstep y (arrive Locking s (sy_mutex y) (sy_cond y) y)
  | S_trylock y r m s : at_point y = Outside →
      mutex_trylock (sy_mutex y) (sy_sched y) = (r, m, s) →
      sstep y (arrive (if r =? 0 then Outside else Holding) s m (sy_cond y) y)
  | S_unlock y m s : at_point y = Holding → mutex_unlock (sy_mutex y) (sy_sched y) = (m, s) →
      sstep y (arrive Outside s m (sy_cond y) y)
  | S_wait y c m s : at_point y = Holding →
      cond_wait_begin (sy_cond y) (sy_mutex y) (sy_sched y) = (c, m, s) →
      sstep y (arrive Waiting s m c y)
  | S_wait_block y hlts s p : (at_point y = Waiting ∨ at_point y = Requeued) → p = Relocking →
      kthread_block hlts (sy_sched y) = Some s → sstep y (arrive p s (sy_mutex y) (sy_cond y) y)
  | S_relock y taken m s : at_point y = Relocking →
      cond_wait_round (sy_mutex y) (sy_sched y) = (taken, m, s) →
      sstep y (arrive (if taken : bool then Holding else Requeued) s m (sy_cond y) y)
  | S_signal y c s : cond_signal (sy_cond y) (sy_sched y) = (c, s) →
      sstep y (Sys s (sy_mutex y) c (sy_at y))
  | S_broadcast y c s : cond_broadcast (sy_cond y) (sy_sched y) = (c, s) →
      sstep y (Sys s (sy_mutex y) c (sy_at y))
  | S_yield y hlts s : kthread_yield hlts (sy_sched y) = Some s → sstep y (with_sched s y)
  | S_sleep y ms hlts s : kthread_sleep ms hlts (sy_sched y) = Some s → sstep y (with_sched s y)
  | S_exit y : sstep y (with_sched (kthread_exit (sy_sched y)) y)
  | S_tick y hlts s : timer_tick hlts (sy_sched y) = Some s → sstep y (with_sched s y).

(** Any threads, none of them in the mutex. *)
Definition sys_start (s : sched) (m : mutex) (c : cond) : sys := Sys s (mutex_init m) (cond_init c) (λ _, Outside).

(** The mutex is free and nobody is inside, or it records its only holder. *)
Definition exclusive (y : sys) : Prop :=
  (locked (sy_mutex y) = 0 ∧ owner (sy_mutex y) = 0 ∧ ∀ t, sy_at y t ≠ Holding) ∨
  (locked (sy_mutex y) = 1 ∧ ∀ t, sy_at y t = Holding ↔ t = owner (sy_mutex y)).

(** Steps that move the running thread between points outside the mutex. *)
Lemma exclusive_arrive p s q c y :
  exclusive y → at_point y ≠ Holding → p ≠ Holding →
  exclusive (arrive p s (Mutex (locked (sy_mutex y)) (owner (sy_mutex y)) q) c y).
Proof.
  unfold at_point. intros [(E1 & E2 & Hn)|[E1 Ho]] Hp Hp'; [left|right]; cbn.
  - split_and!; [done|done|]. intros t. by case_decide.
  - split; [done|]. intros t. case_decide; [|apply Ho]. subst. split; [done|]. intros E. by apply Ho in E.
Qed.

Lemma exclusive_take s q c y :
  exclusive y → locked (sy_mutex y) = 0 → exclusive (arrive Holding s (Mutex 1 (me y) q) c y).
Proof.
  intros [(E1 & E2 & Hn)|[E1 Ho]] E0; [|congruence]. right. cbn. split; [done|]. intros t.
  case_decide; [by subst|]. split; [|done]. intros Ht. by apply Hn in Ht.
Qed.

Lemma exclusive_give p s q c y :
  exclusive y → at_point y = Holding → p ≠ Holding → exclusive (arrive p s (Mutex 0 0 q) c y).
Proof.
  unfold at_point. intros [(E1 & E2 & Hn)|[E1 Ho]] Hh Hp; [by apply Hn in Hh|]. left. cbn. split_and!; [done|done|].
  intros t. case_decide; [done|]. intros Ht. apply Ho in Hh, Ht. congruence.
Qed.

Lemma sstep_exclusive y y' : sstep y y' → exclusive y → exclusive y'.
Proof.
  intros Hs He. assert (∀ s c, exclusive (Sys s (sy_mutex y) c (sy_at y))) as Hsame by (intros; exact He).
  assert (∀ p s, at_point y ≠ Holding → p ≠ Holding → exclusive (arrive p s (sy_mutex y) (sy_cond y) y)) as Hmove.
  { intros p s H1 H2. pose proof (exclusive_arrive p s (m_wait (sy_mutex y)) (sy_cond y) y He H1 H2) as H.
    by destruct (sy_mutex y). }
  destruct Hs as [y Hp|y b m s Hp E|y hl s Hp E|y r m s Hp E|y m s Hp E|y c m s Hp E|y hl s p Hp -> E|y b m s Hp E
    |y c s E|y c s E|y hl s E|y ms hl s E|y|y hl s E]; try apply Hsame.
  - apply Hmove; congruence.
  - unfold mutex_lock_round in E. destruct (Z.eqb_spec (locked (sy_mutex y)) 0) as [E0|E0].
    + injection E as <- <- <-. by apply exclusive_take.
    + destruct (waitq_add _ _ _) as [q s1]. injection E as <- <- <-. apply exclusive_arrive; congruence.
  - apply Hmove; congruence.
  - unfold mutex_trylock in E. destruct (Z.eqb_spec (locked (sy_mutex y)) 0) as [E0|E0]; cbn [negb] in E; injection E as <- <- <-.
    + by apply exclusive_take.
    + apply Hmove; cbn; congruence.
  - unfold mutex_unlock, release in E. destruct (waitq_remove _ _) as [[t q] s1]. injection E as <- <-.
    by apply exclusive_give.
  - unfold cond_wait_begin, release in E. destruct (waitq_add _ _ _) as [q0 s0].
    destruct (waitq_remove _ _) as [[t q] s1]. injection E as <- <- <-. by apply exclusive_give.
  - apply Hmove; [destruct Hp; congruence|done].
  - unfold cond_wait_round in E. destruct (Z.eqb_spec (locked (sy_mutex y)) 0) as [E0|E0]; cbn [negb] in E.
    + injection E as <- <- <-. by apply exclusive_take.
    + destruct (waitq_add _ _ _) as [q s1]. injection E as <- <- <-. apply exclusive_arrive; congruence.
Qed.

(** C18 [mutex_excludes]: whatever the threads do and whenever the timer
    preempts them, at most one thread is between taking and giving up the
    mutex; the mutex is locked exactly while there is one, and its owner
    field names it. *)
Theorem mutex_excludes s m c y :
  rtc sstep (sys_start s m c) y →
  (∀ t u, sy_at y t = Holding → sy_at y u = Holding → t = u) ∧
  (locked (sy_mutex y) = 0 ∨ locked (sy_mutex y) = 1) ∧
  (locked (sy_mutex y) = 1 ↔ ∃ t, sy_at y t = Holding) ∧
  (∀ t, sy_at y t = Holding → owner (sy_mutex y) = t).
Proof.
  intros Hr. assert (exclusive y) as He.
  { assert (exclusive (sys_start s m c)) as H0 by (left; done). revert H0.
    induction Hr as [|x y z Hxy _ IH]; [done|]. intros H0. by apply IH, (sstep_exclusive x). }
  destruct He as [(E1 & E2 & Hn)|[E1 Ho]].
  - split_and!; [|by left| |]; [intros t u Ht; by apply Hn in Ht| |intros t Ht; by apply Hn in Ht].
    split; [congruence|]. intros [t Ht]. by apply Hn in Ht.
  - split_and!; [|by right| |]; [|split; [intros _; exists (owner (sy_mutex y)); by apply Ho|done]|].
    + intros t u Ht Hu. apply Ho in Ht, Hu. congruence.
    + intros t Ht. symmetry. by apply Ho.
Qed.

(** ** Runs of two threads with a mutex *)
(** The thread at 1000 runs; the genesis thread is ready. *)
Definition two_threads : sched :=
  Sched (<[1 := Kthread 0 0 500 0 THREAD_READY 1000 0 0 0 0]>
        (<[1000 := Kthread 0 1 600 2008 THREAD_RUNNING 0 0 0 0 0]> ∅)) 1000 2 0 7 9000 ∅.

Definition free_mutex : mutex := Mutex 0 0 (0, 0).

Definition empty_cond : cond := Cond (0, 0).

Definition two_start : sys := sys_start two_threads free_mutex empty_cond.

(** The next step of the running thread, or a timer interrupt. *)
Inductive action := ALock | ARound | ABlock | AUnlock | ATick.

Definition act (a : action) (y : sys) : option sys :=
  match a, at_point y with
  | ALock, Outside => Some (arrive Locking (sy_sched y) (sy_mutex y) (sy_cond y) y)
  | ARound, Locking =>
      let '(taken, m, s) := mutex_lock_round (sy_mutex y) (sy_sched y) in
      Some (arrive (if taken : bool then Holding else Queued) s m (sy_cond y) y)
  | ABlock, Queued =>
      s ← kthread_block [] (sy_sched y); Some (arrive Locking s (sy_mutex y) (sy_cond y) y)
  | AUnlock, Holding =>
      let '(m, s) := mutex_unlock (sy_mutex y) (sy_sched y) in Some (arrive Outside s m (sy_cond y) y)
  | ATick, _ => s ← timer_tick [] (sy_sched y); Some (with_sched s y)
  | _, _ => None
  end.

Fixpoint acts (l : list action) (y : sys) : option sys :=
  match l with
  | [] => Some y
  | a :: l => y' ← act a y; acts l y'
  end.

Lemma act_sound a y y' : act a y = Some y' → sstep y y'.
Proof.
  unfold act. destruct a, (at_point y) eqn:Ep; try done; try (intros (s & Es & [= <-])%bind_Some); try (intros [= <-]);
    try (by apply (S_tick y [])).
  - by apply S_lock.
  - destruct (mutex_lock_round _ _) as [[b m] s] eqn:E. intros [= <-]. by apply S_round.
  - by eapply S_block.
  - destruct (mutex_unlock _ _) as [m s] eqn:E. intros [= <-]. by apply S_unlock.
Qed.

Lemma acts_sound l y y' : acts l y = Some y' → rtc sstep y y'.
Proof.
  revert y. induction l as [|a l IH]; intros y; cbn [acts]; [intros [= <-]; apply rtc_refl|].
  intros (y1 & Ha & Hl)%bind_Some. eapply rtc_l; [by eapply act_sound|by apply IH].
Qed.

(** A run exists if it computes. *)
Lemma acts_run (P : sys → Prop) l y :
  match acts l y with Some y' => P y' | None => False end → ∃ y', rtc sstep y y' ∧ P y'.
Proof. destruct (acts l y) as [y'|] eqn:E; [|done]. exists y'. split; [by apply (acts_sound l)|done]. Qed.

(** The thread at 1000 takes the mutex, the timer preempts it, and the genesis
    thread finds the mutex locked: it is queued but does not sleep yet. *)
Lemma contended_run :
  ∃ y, rtc sstep two_start y ∧ sy_at y 1000 = Holding ∧ sy_at y 1 = Queued.
Proof. apply (acts_run _ [ALock; ARound; ATick; ALock; ARound]). vm_compute. done. Qed.

Lemma mutex_excludes_witness :
  ∃ y, rtc sstep two_start y ∧ sy_at y 1 = Queued ∧ ∀ t, sy_at y t = Holding → t = 1000.
Proof.
  destruct contended_run as (y & Hr & Hh & Hq). exists y. split; [done|]. split; [done|].
  destruct (mutex_excludes two_threads free_mutex empty_cond y Hr) as (Hu & _).
  intros t Ht. exact (Hu t 1000 Ht Hh).
Defined.

(** Both threads wait: the genesis thread for the mutex. *)
Definition waiting_threads : sched :=
  upd 1 (with_state THREAD_BLOCKED) two_threads.

Lemma waiters_served_in_order_witness :
  let '(m', s') := mutex_unlock (Mutex 1 1000 (1, 1)) waiting_threads in
  locked m' = 0 ∧ waitq s' (m_wait m') [] ∧ kt_state (thr s' 1) = THREAD_READY.
Proof.
  assert (waitq waiting_threads (1, 1) [1]) as Hq.
  { split_and!; [|done|apply NoDup_singleton]. vm_compute. done. }
  destruct (waiters_served_in_order (Mutex 1 1000 (1, 1)) empty_cond waiting_threads [1] [])
    as (_ & Hm & _); [done|by split_and!; [|done|apply NoDup_nil_2]|by intros x ?%not_elem_of_nil|].
  destruct (mutex_unlock _ _) as [m' s']. destruct Hm as (E1 & _ & Hq' & Hs). split_and!; [done|done|].
  specialize (Hs 1). apply (f_equal kt_state) in Hs. exact Hs.
Defined.

(** ** A lost wake-up

    In [contended_run] the genesis thread is in the queue but still ready.  The
    holder runs again and unlocks: it takes the genesis thread off the queue
    and does not wake it, since it is not blocked.  Then the genesis thread
    calls [kthread_block]: it sleeps with the mutex free and the queue empty. *)
Example mutex_wakeup_lost :
  ∃ y, rtc sstep two_start y ∧ locked (sy_mutex y) = 0 ∧ m_wait (sy_mutex y) = (0, 0) ∧
    sy_at y 1 = Locking ∧ kt_state (thr (sy_sched y) 1) = THREAD_BLOCKED ∧ wake_tick (thr (sy_sched y) 1) = 0 ∧
    current_kthread (sy_sched y) = 1000 ∧ sy_at y 1000 = Outside.
Proof.
  apply (acts_run _ [ALock; ARound; ATick; ALock; ARound; ATick; AUnlock; ATick; ABlock]). vm_compute. done.
Qed.
