(* ===== verification/Ext2.v ===== *)
(** * The ext2 file system ([fs/ext2.c], [fs/ext2.h])

    A read-only file system on a RAM disk.  The disk is part of byte memory
    [m]; structures are read at their offsets, so a pointer to an inode is its
    address.  Divisions by the block size and by the inodes per group are for
    non-zero divisors: a superblock with zeros traps in the code. *)
From S2P Require Import Prelude.
Local Open Scope Z_scope.
Local Open Scope c_scope.

Definition EXT2_MAGIC : Z := 0xEF53.
Definition EXT2_ROOT_INO : Z := 2.
Definition EXT2_S_IFMT : Z := 0xF000.
Definition EXT2_S_IFREG : Z := 0x8000.
Definition EXT2_S_IFDIR : Z := 0x4000.

(** ** On-disk structures *)

(** [ext2_superblock_t] *)
Definition s_inodes_count (m : gmap Z Z) (sb : Z) : Z := load 4 m sb.
Definition s_blocks_count (m : gmap Z Z) (sb : Z) : Z := load 4 m (sb + 4).
Definition s_log_block_size (m : gmap Z Z) (sb : Z) : Z := load 4 m (sb + 24).
Definition s_blocks_per_group (m : gmap Z Z) (sb : Z) : Z := load 4 m (sb + 32).
Definition s_inodes_per_group (m : gmap Z Z) (sb : Z) : Z := load 4 m (sb + 40).
Definition s_magic (m : gmap Z Z) (sb : Z) : Z := load 2 m (sb + 56).
Definition s_rev_level (m : gmap Z Z) (sb : Z) : Z := load 4 m (sb + 76).
Definition s_inode_size (m : gmap Z Z) (sb : Z) : Z := load 2 m (sb + 88).

(** [ext2_group_desc_t], 32 bytes each. *)
Definition bg_inode_table (m : gmap Z Z) (gdt group : Z) : Z := load 4 m (gdt + 32 * group + 8).

(** [ext2_inode_t] *)
Definition i_mode (m : gmap Z Z) (inode : Z) : Z := load 2 m inode.
Definition i_size (m : gmap Z Z) (inode : Z) : Z := load 4 m (inode + 4).
Definition i_block (m : gmap Z Z) (inode i : Z) : Z := load 4 m (inode + 40 + 4 * i).
Definition i_dir_acl (m : gmap Z Z) (inode : Z) : Z := load 4 m (inode + 108).

(** [ext2_dirent_t] *)
Definition d_inode (m : gmap Z Z) (e : Z) : Z := load 4 m e.
Definition d_rec_len (m : gmap Z Z) (e : Z) : Z := load 2 m (e + 4).
Definition d_name_len (m : gmap Z Z) (e : Z) : Z := load 1 m (e + 6).
Definition d_name (e : Z) : Z := e + 8.

(** [ext2_t] *)
Record ext2 := Ext2 {
  disk : Z;
  disk_size : Z;
  sb : Z;
  gdt : Z;
  block_size : Z;
  inodes_per_group : Z;
  inode_size : Z;
  groups_count : Z;
}.

(** ** Blocks *)

Definition ext2_block_ptr (fs : ext2) (block_num : Z) : Z :=
  if block_num =? 0 then 0 else u64 (disk fs + block_num * block_size fs).

Definition ext2_read_indirect (fs : ext2) (m : gmap Z Z) (indirect_block index : Z) : Z :=
  let block := ext2_block_ptr fs indirect_block in
  if block =? 0 then 0 else load 4 m (block + 4 * index).

Definition ext2_get_block_num (fs : ext2) (m : gmap Z Z) (inode logical_block : Z) : Z :=
  let ptrs_per_block := block_size fs / 4 in
  if logical_block <? 12 then i_block m inode logical_block
  else
    let logical_block := logical_block - 12 in
    if logical_block <? ptrs_per_block then ext2_read_indirect fs m (i_block m inode 12) logical_block
    else
      let logical_block := logical_block - ptrs_per_block in
      if logical_block <? u32 (ptrs_per_block * ptrs_per_block) then
        let idx1 := logical_block / ptrs_per_block in
        let idx2 := logical_block mod ptrs_per_block in
        let indirect := ext2_read_indirect fs m (i_block m inode 13) idx1 in
        ext2_read_indirect fs m indirect idx2
      else
        let logical_block := logical_block - u32 (ptrs_per_block * ptrs_per_block) in
        if logical_block <? u64 (ptrs_per_block * ptrs_per_block * ptrs_per_block) then
          let idx1 := logical_block / u32 (ptrs_per_block * ptrs_per_block) in
          let rem := logical_block mod u32 (ptrs_per_block * ptrs_per_block) in
          let idx2 := rem / ptrs_per_block in
          let idx3 := rem mod ptrs_per_block in
          let dbl_indirect := ext2_read_indirect fs m (i_block m inode 14) idx1 in
          let indirect := ext2_read_indirect fs m dbl_indirect idx2 in
          ext2_read_indirect fs m indirect idx3
        else 0.

(** ** Mounting *)

(** The result is the return value and the file-system context, which a
    failed call leaves half filled.  A group size of zero halts: the division
    that counts the groups traps. *)
Definition ext2_init (m : gmap Z Z) (dsk size : Z) (fs : ext2) : outcome (Z * ext2) :=
  if (dsk =? 0) || (size <? 2048) then Done (- EINVAL, fs)
  else
    let s := dsk + 1024 in
    if negb (s_magic m s =? EXT2_MAGIC) then
      Done (- EINVAL, Ext2 dsk size s (gdt fs) (block_size fs) (inodes_per_group fs) (inode_size fs) (groups_count fs))
    else if s_blocks_per_group m s =? 0 then Halted
    else
      let bs := u32 (Z.shiftl 1024 (s_log_block_size m s)) in
      let isz := if s_rev_level m s =? 0 then 128 else s_inode_size m s in
      let groups := u32 (u32 (s_blocks_count m s + s_blocks_per_group m s) - 1) / s_blocks_per_group m s in
      let gdt_block := if bs =? 1024 then 2 else 1 in
      let fs := Ext2 dsk size s 0 bs (s_inodes_per_group m s) isz groups in
      Done (0, Ext2 dsk size s (ext2_block_ptr fs gdt_block) bs (s_inodes_per_group m s) isz groups).

(** ** Inodes *)

(** The address of inode [ino], or 0. *)
Definition ext2_read_inode (fs : ext2) (m : gmap Z Z) (ino : Z) : Z :=
  if (ino =? 0) || (s_inodes_count m (sb fs) <? ino) then 0
  else
    let index := ino - 1 in
    let group := index / inodes_per_group fs in
    let local_index := index mod inodes_per_group fs in
    let inode_table_block := bg_inode_table m (gdt fs) group in
    let offset := local_index * inode_size fs in
    let block_offset := u32 (offset / block_size fs) in
    let byte_offset := offset mod block_size fs in
    let table := ext2_block_ptr fs (u32 (inode_table_block + block_offset)) in
    if table =? 0 then 0 else table + byte_offset.

Definition ext2_is_directory (m : gmap Z Z) (inode : Z) : bool :=
  if inode =? 0 then false else Z.land (i_mode m inode) EXT2_S_IFMT =? EXT2_S_IFDIR.

Definition ext2_is_regular_file (m : gmap Z Z) (inode : Z) : bool :=
  if inode =? 0 then false else Z.land (i_mode m inode) EXT2_S_IFMT =? EXT2_S_IFREG.

Definition ext2_get_file_size (m : gmap Z Z) (inode : Z) : Z :=
  if inode =? 0 then 0
  else if ext2_is_regular_file m inode
  then Z.lor (u64 (Z.shiftl (i_dir_acl m inode) 32)) (i_size m inode)
  else i_size m inode.

(** ** Directories *)

(** [s1] is on the disk, [s2] a string of which only the start counts. *)
Fixpoint ext2_strncmp (m : gmap Z Z) (s1 : Z) (s2 : list Z) (n : nat) : Z :=
  match n with
  | O => 0
  | S n' =>
      let c1 := s8 (rd m s1) in
      let c2 := s8 (hd 0 s2) in
      if negb (c1 =? c2) then c1 - c2
      else if c1 =? 0 then 0
      else ext2_strncmp m (s1 + 1) (tail s2) n'
  end.

Section Lookup.
Context (fs : ext2) (m : gmap Z Z).

(** The test on one entry. *)
Definition dirent_matches (entry : Z) (name : list Z) (name_len : Z) : bool :=
  negb (d_inode m entry =? 0) && (d_name_len m entry =? name_len) &&
  (ext2_strncmp m (d_name entry) name (Z.to_nat name_len) =? 0).

(** The inner loop, over the entries of one block: [inr] is the [return],
    [inl] the offset at which it ends; an entry advances it by at least one
    byte, so the block size bounds the rounds. *)
Fixpoint dir_block_loop (fuel : nat) (block size : Z) (name : list Z) (name_len block_offset offset : Z) : Z + Z :=
  match fuel with
  | O => inl offset
  | S fuel' =>
      if (block_offset <? block_size fs) && (offset <? size) then
        let entry := block + block_offset in
        if d_rec_len m entry =? 0 then inl offset
        else if dirent_matches entry name name_len then inr (d_inode m entry)
        else dir_block_loop fuel' block size name name_len
               (u32 (block_offset + d_rec_len m entry)) (u64 (offset + d_rec_len m entry))
      else inl offset
  end.

(** The outer loop, which need not end: [None] when the fuel does not
    suffice. *)
Fixpoint dir_loop (fuel : nat) (dir_inode size : Z) (name : list Z) (name_len offset : Z) : option Z :=
  match fuel with
  | O => None
  | S fuel' =>
      if offset <? size then
        let logical_block := u32 (offset / block_size fs) in
        let block_offset := offset mod block_size fs in
        let block_num := ext2_get_block_num fs m dir_inode logical_block in
        if block_num =? 0 then
          dir_loop fuel' dir_inode size name name_len (u64 (offset + (block_size fs - block_offset)))
        else
          match dir_block_loop (S (Z.to_nat (block_size fs))) (ext2_block_ptr fs block_num) size name name_len
                  block_offset offset with
          | inr ino => Some ino
          | inl offset => dir_loop fuel' dir_inode size name name_len offset
          end
      else Some 0
  end.

Definition ext2_lookup_in_dir (fuel : nat) (dir_inode : Z) (name : list Z) (name_len : Z) : option Z :=
  dir_loop fuel dir_inode (ext2_get_file_size m dir_inode) name name_len 0.

(** ** Paths *)

(** [while ( *p == '/') p++;] *)
Fixpoint skip_slashes (p : list Z) : list Z :=
  match p with
  | c :: p' => if c =? 47 then skip_slashes p' else p
  | [] => []
  end.

(** [while ( *end && *end != '/') end++;] as the length [end - p]. *)
Fixpoint name_length (p : list Z) : nat :=
  match p with
  | c :: p' => if c =? 47 then O else S (name_length p')
  | [] => O
  end.

(** [dir_fuel] is the fuel of each directory search. *)
Fixpoint lookup_loop (fuel dir_fuel : nat) (ino : Z) (p : list Z) : option Z :=
  match fuel with
  | O => None
  | S fuel' =>
      match p with
      | [] => Some ino
      | _ =>
          let p := skip_slashes p in
          match p with
          | [] => Some ino
          | _ =>
              let name_len := name_length p in
              let dir := ext2_read_inode fs m ino in
              if dir =? 0 then Some 0
              else if negb (ext2_is_directory m dir) then Some 0
              else
                ino ← ext2_lookup_in_dir dir_fuel dir p (Z.of_nat name_len);
                if ino =? 0 then Some 0 else lookup_loop fuel' dir_fuel ino (drop name_len p)
          end
      end
  end.

(** A path is its bytes up to the terminator. *)
Definition ext2_lookup (dir_fuel : nat) (path : list Z) : option Z :=
  if negb (hd 0 path =? 47) then Some 0
  else lookup_loop (S (length path)) dir_fuel EXT2_ROOT_INO (tail path).
End Lookup.

(** ** Reading *)

Definition ext2_memcpy (dst src n : Z) (m : gmap Z Z) : gmap Z Z :=
  for_loop (Z.to_nat n) 0 (λ i m, wr m (dst + i) (rd m (src + i))) m.

Definition zero_fill (dst n : Z) (m : gmap Z Z) : gmap Z Z :=
  for_loop (Z.to_nat n) 0 (λ i m, wr m (dst + i) 0) m.

(** Every round reads at least one byte, so [size] bounds the rounds. *)
Fixpoint read_loop (fs : ext2) (fuel : nat) (inode offset dst size total_read : Z) (m : gmap Z Z) : Z * gmap Z Z :=
  match fuel with
  | O => (total_read, m)
  | S fuel' =>
      if 0 <? size then
        let logical_block := u32 (offset / block_size fs) in
        let block_offset := offset mod block_size fs in
        let to_read := if size <? block_size fs - block_offset then size else block_size fs - block_offset in
        let block_num := ext2_get_block_num fs m inode logical_block in
        let m := if block_num =? 0 then zero_fill dst to_read m
                 else ext2_memcpy dst (ext2_block_ptr fs block_num + block_offset) to_read m in
        read_loop fs fuel' inode (u64 (offset + to_read)) (dst + to_read) (size - to_read) (total_read + to_read) m
      else (total_read, m)
  end.

Definition clamp_size (file_size offset size : Z) : Z :=
  if file_size <? u64 (offset + size) then file_size - offset else size.

Definition ext2_read_file (fs : ext2) (inode offset buf size : Z) (m : gmap Z Z) : Z * gmap Z Z :=
  if (inode =? 0) || (buf =? 0) then (- EINVAL, m)
  else
    let file_size := ext2_get_file_size m inode in
    if file_size <=? offset then (0, m)
    else
      let size := clamp_size file_size offset size in
      read_loop fs (S (Z.to_nat size)) inode offset buf size 0 m.
