(* ===== verification/Ext2Props.v ===== *)
(** * Blocks, directories and files of ext2: lemmas *)
From S2P Require Import Prelude Ext2.
Local Open Scope Z_scope.

(** ** The block tree *)

(** The way from an inode to a logical block: an index into [i_block] and then
    one index per indirect block, for [p] pointers per block. *)
Definition block_path (p lb : Z) : list Z :=
  if lb <? 12 then [lb]
  else if lb - 12 <? p then [12; lb - 12]
  else if lb - 12 - p <? p * p then [13; (lb - 12 - p) / p; (lb - 12 - p) mod p]
  else if lb - 12 - p - p * p <? p * p * p then
    [14; (lb - 12 - p - p * p) / (p * p); (lb - 12 - p - p * p) mod (p * p) / p; (lb - 12 - p - p * p) mod p]
  else [].

(** The block numbers read on the way. *)
Fixpoint follow (fs : ext2) (m : gmap Z Z) (b : Z) (path : list Z) : list Z :=
  b :: match path with
       | [] => []
       | i :: path => follow fs m (ext2_read_indirect fs m b i) path
       end.

Definition block_trace (fs : ext2) (m : gmap Z Z) (inode lb : Z) : list Z :=
  match block_path (block_size fs / 4) lb with
  | [] => []
  | i :: path => follow fs m (i_block m inode i) path
  end.

(** The block sizes ext2 has: 1 to 64 KiB. *)
Definition block_size_ok (fs : ext2) : Prop := 1024 ≤ block_size fs ≤ 65536 ∧ block_size fs mod 4 = 0.

Lemma ptrs_bound fs : block_size_ok fs → 256 ≤ block_size fs / 4 ≤ 16384.
Proof. intros [Hb _]. zdm. Qed.

Lemma mod_mod_square x p : 0 < p → (x mod (p * p)) mod p = x mod p.
Proof. intros Hp. apply Z.mod_mod_divide. by exists p. Qed.

Lemma get_block_num_trace fs m inode lb :
  block_size_ok fs → 0 ≤ lb →
  ext2_get_block_num fs m inode lb = List.last (block_trace fs m inode lb) 0.
Proof.
  intros Hb Hlb. pose proof (ptrs_bound fs Hb) as Hp. unfold ext2_get_block_num, block_trace, block_path. cbv zeta.
  set (p := block_size fs / 4) in *.
  assert (0 ≤ p * p ≤ 268435456) as Hpp by nia. rewrite (u32_small (p * p)) by lia.
  assert (0 ≤ p * p * p ≤ 4398046511104) as Hppp by nia. rewrite (u64_small (p * p * p)) by lia.
  destruct (lb <? 12) eqn:E1; [done|]. destruct (lb - 12 <? p) eqn:E2; [done|].
  destruct (lb - 12 - p <? p * p) eqn:E3; [done|]. destruct (lb - 12 - p - p * p <? p * p * p) eqn:E4; [|done].
  cbn [follow List.last]. f_equal. set (x := lb - 12 - p - p * p) in *.
  apply mod_mod_square. lia.
Qed.

Lemma path_bounds p lb :
  0 < p → 0 ≤ lb →
  match block_path p lb with
  | [] => 12 + p + p * p + p * p * p ≤ lb
  | i :: path => 0 ≤ i < 15 ∧ Forall (λ j, 0 ≤ j < p) path
  end.
Proof.
  intros Hp Hlb. unfold block_path. repeat case_if; cbn [app]; try lia.
  - split; [lia|constructor].
  - split; [lia|]. repeat constructor; lia.
  - set (x := lb - 12 - p) in *. split; [lia|]. pose proof (Z.mod_pos_bound x p Hp).
    repeat constructor; try lia; [apply Z.div_pos; lia|apply Z.div_lt_upper_bound; lia].
  - set (x := lb - 12 - p - p * p) in *. split; [lia|]. pose proof (Z.mod_pos_bound x p Hp).
    pose proof (Z.mod_pos_bound x (p * p) ltac:(nia)).
    repeat constructor; try lia.
    + apply Z.div_pos; nia.
    + apply Z.div_lt_upper_bound; nia.
    + apply Z.div_pos; lia.
    + apply Z.div_lt_upper_bound; lia.
Qed.

(** The logical block a path leads to. *)
Definition path_block (p : Z) (path : list Z) : Z :=
  match path with
  | [i] => i
  | [_; a] => 12 + a
  | [_; a; b] => 12 + p + a * p + b
  | [_; a; b; c] => 12 + p + p * p + (a * p + b) * p + c
  | _ => 0
  end.

Lemma path_block_path p lb :
  0 < p → 0 ≤ lb < 12 + p + p * p + p * p * p → path_block p (block_path p lb) = lb.
Proof.
  intros Hp Hlb. unfold block_path. repeat case_if; cbn [path_block]; try lia.
  - set (x := lb - 12 - p) in *. pose proof (Z.div_mod x p ltac:(lia)). lia.
  - set (x := lb - 12 - p - p * p) in *.
    pose proof (Z.div_mod x (p * p) ltac:(nia)) as Ea. set (r := x mod (p * p)) in *.
    pose proof (Z.div_mod r p ltac:(lia)) as Eb.
    assert (r mod p = x mod p) as Ec by (by apply mod_mod_square).
    rewrite Ec in Eb. nia.
Qed.

(** ** What reads depend on *)

(** The first [N] blocks of the disk, in memory below 2^64. *)
Definition disk_area (fs : ext2) (N a : Z) : Prop := disk fs ≤ a < disk fs + N * block_size fs.

Definition disk_placed (fs : ext2) (N : Z) : Prop := 0 ≤ disk fs ∧ disk fs + N * block_size fs < 2 ^ 64.

Definition inode_area (inode a : Z) : Prop := inode ≤ a < inode + 128.

Lemma block_ptr_eq fs N b :
  disk_placed fs N → 0 < b < N → 0 < block_size fs → ext2_block_ptr fs b = disk fs + b * block_size fs.
Proof.
  intros [H0 H1] Hb Hs. unfold ext2_block_ptr. assert ((b =? 0) = false) as -> by lia. apply u64_small. nia.
Qed.

Lemma read_indirect_frame fs m m' N b i :
  disk_placed fs N → (∀ a, disk_area fs N a → rd m' a = rd m a) → 0 ≤ b < N → 0 < block_size fs →
  0 ≤ i < block_size fs / 4 → ext2_read_indirect fs m' b i = ext2_read_indirect fs m b i.
Proof.
  intros Hd Hf Hb Hs Hi. unfold ext2_read_indirect. destruct (Z.eq_dec b 0) as [->|Hb0]; [done|].
  rewrite (block_ptr_eq fs N) by (done || lia). case_if; [done|]. apply load_ext. intros a Ha. apply Hf.
  assert (4 * (block_size fs / 4) ≤ block_size fs) by zdm. unfold disk_area. nia.
Qed.

Lemma follow_frame fs m m' N b path :
  disk_placed fs N → (∀ a, disk_area fs N a → rd m' a = rd m a) → 0 < block_size fs →
  Forall (λ i, 0 ≤ i < block_size fs / 4) path → Forall (λ b, 0 ≤ b < N) (follow fs m b path) →
  follow fs m' b path = follow fs m b path.
Proof.
  intros Hd Hf Hs Hp. revert b. induction Hp as [|i path Hi _ IH]; intros b; cbn [follow]; [done|].
  intros [Hb Ht]%list.Forall_cons. rewrite (read_indirect_frame fs m m' N) by done. f_equal. by apply IH.
Qed.

Lemma block_trace_frame fs m m' N inode lb :
  disk_placed fs N → (∀ a, disk_area fs N a → rd m' a = rd m a) → (∀ a, inode_area inode a → rd m' a = rd m a) →
  block_size_ok fs → 0 ≤ lb → Forall (λ b, 0 ≤ b < N) (block_trace fs m inode lb) →
  block_trace fs m' inode lb = block_trace fs m inode lb.
Proof.
  intros Hd Hf Hi Hb Hlb. unfold block_trace. pose proof (ptrs_bound fs Hb) as Hp.
  pose proof (path_bounds (block_size fs / 4) lb ltac:(lia) Hlb) as Hpath.
  destruct (block_path _ lb) as [|i path]; [done|]. destruct Hpath as [Hi15 Hpath].
  assert (i_block m' inode i = i_block m inode i) as ->.
  { apply load_ext. intros a Ha. apply Hi. unfold inode_area. lia. }
  apply (follow_frame fs m m' N); try done. destruct Hb. lia.
Qed.

(** ** File contents *)

Definition file_byte (fs : ext2) (m : gmap Z Z) (inode i : Z) : Z :=
  let b := ext2_get_block_num fs m inode (i / block_size fs) in
  if b =? 0 then 0 else rd m (ext2_block_ptr fs b + i mod block_size fs).

(** The blocks of bytes [lo] to [hi] of the file are among the first [N]. *)
Definition file_mapped (fs : ext2) (m : gmap Z Z) (inode N lo hi : Z) : Prop :=
  ∀ i, lo ≤ i < hi → Forall (λ b, 0 ≤ b < N) (block_trace fs m inode (i / block_size fs)).

Lemma last_elem (P : Z → Prop) l : Forall P l → l ≠ [] → P (List.last l 0).
Proof.
  intros Hl Hne. destruct (exists_last Hne) as (l' & x & ->). rewrite last_last.
  apply Forall_app in Hl as [_ Hx]. by apply list.Forall_cons in Hx as [? _].
Qed.

Lemma get_block_num_bound fs m inode N lb :
  block_size_ok fs → 0 ≤ lb → 0 < N → Forall (λ b, 0 ≤ b < N) (block_trace fs m inode lb) →
  0 ≤ ext2_get_block_num fs m inode lb < N.
Proof.
  intros Hb Hlb HN Ht. rewrite get_block_num_trace by done.
  destruct (block_trace fs m inode lb) eqn:E; [cbn; lia|]. by apply (last_elem (λ b, 0 ≤ b < N)).
Qed.

Lemma memcpy_rd dst src n m a :
  0 ≤ n → src + n ≤ dst ∨ dst + n ≤ src →
  rd (ext2_memcpy dst src n m) a = if decide (dst ≤ a < dst + n) then rd m (src + (a - dst)) else rd m a.
Proof.
  intros Hn Hd. unfold ext2_memcpy.
  pose (Q := λ (j : Z) (m' : gmap Z Z), ∀ a, rd m' a = if decide (dst ≤ a < dst + j) then rd m (src + (a - dst)) else rd m a).
  assert (Q (Z.of_nat (Z.to_nat n)) (for_loop (Z.to_nat n) 0 (λ i m, wr m (dst + i) (rd m (src + i))) m)) as HQ.
  { apply (for_loop_ind0 Q); unfold Q.
    - intros x. rewrite decide_False by lia. done.
    - intros j t Hj IH x. rewrite rd_wr. destruct (decide (dst + j = x)) as [<-|Hne].
      + rewrite IH, decide_False, decide_True by lia. f_equal. lia.
      + rewrite IH. repeat case_decide; (done || lia). }
  rewrite Z2Nat.id in HQ by done. apply HQ.
Qed.

Lemma zero_fill_rd dst n m a :
  0 ≤ n → rd (zero_fill dst n m) a = if decide (dst ≤ a < dst + n) then 0 else rd m a.
Proof.
  intros Hn. unfold zero_fill.
  pose (Q := λ (j : Z) (m' : gmap Z Z), ∀ a, rd m' a = if decide (dst ≤ a < dst + j) then 0 else rd m a).
  assert (Q (Z.of_nat (Z.to_nat n)) (for_loop (Z.to_nat n) 0 (λ i m, wr m (dst + i) 0) m)) as HQ.
  { apply (for_loop_ind0 Q); unfold Q.
    - intros x. rewrite decide_False by lia. done.
    - intros j t Hj IH x. rewrite rd_wr. destruct (decide (dst + j = x)) as [<-|Hne].
      + by rewrite decide_True by lia.
      + rewrite IH. repeat case_decide; (done || lia). }
  rewrite Z2Nat.id in HQ by done. apply HQ.
Qed.

(** One block's part of a read: the bytes of the file at [offset]. *)
Lemma read_chunk fs m inode N offset dst k :
  block_size_ok fs → disk_placed fs N → 0 ≤ offset → 0 ≤ k ≤ block_size fs - offset mod block_size fs → 0 < N →
  (∀ a, disk_area fs N a → ¬ dst ≤ a < dst + k) →
  Forall (λ b, 0 ≤ b < N) (block_trace fs m inode (offset / block_size fs)) →
  let b := ext2_get_block_num fs m inode (offset / block_size fs) in
  ∀ a, rd (if b =? 0 then zero_fill dst k m
           else ext2_memcpy dst (ext2_block_ptr fs b + offset mod block_size fs) k m) a =
       if decide (dst ≤ a < dst + k) then file_byte fs m inode (offset + (a - dst)) else rd m a.
Proof.
  intros Hb Hd Ho Hk HN Hdis Ht b a. pose proof Hb as [Hbs _].
  pose proof (get_block_num_bound fs m inode N (offset / block_size fs) Hb ltac:(apply Z.div_pos; lia) HN Ht) as Hbn. fold b in Hbn.
  pose proof (Z.mod_pos_bound offset (block_size fs) ltac:(lia)) as Hmod.
  assert (∀ j, 0 ≤ j < k → (offset + j) / block_size fs = offset / block_size fs ∧
                           (offset + j) mod block_size fs = offset mod block_size fs + j) as Hdiv.
  { intros j Hj. pose proof (Z.div_mod offset (block_size fs) ltac:(lia)) as E. split; symmetry.
    - apply (Z.div_unique _ _ _ (offset mod block_size fs + j)); lia.
    - apply (Z.mod_unique _ _ (offset / block_size fs)); lia. }
  assert (∀ j, 0 ≤ j < k → file_byte fs m inode (offset + j) =
            if b =? 0 then 0 else rd m (ext2_block_ptr fs b + (offset mod block_size fs + j))) as Hfb.
  { intros j Hj. unfold file_byte. destruct (Hdiv j Hj) as [-> ->]. done. }
  destruct (Z.eqb_spec b 0) as [E0|E0].
  - rewrite zero_fill_rd by lia. case_decide; [|done]. by rewrite Hfb by lia.
  - rewrite memcpy_rd; [|lia|].
    + case_decide; [|done]. rewrite Hfb by lia. f_equal. lia.
    + rewrite (block_ptr_eq fs N) by (done || lia). set (src := _ + offset mod block_size fs).
      destruct (Z.le_gt_cases (src + k) dst) as [?|H1]; [by left|].
      destruct (Z.le_gt_cases (dst + k) src) as [?|H2]; [by right|]. exfalso.
      apply (Hdis (Z.max src dst)); [|lia]. unfold disk_area, src in *. nia.
Qed.

Section Reading.
Context (fs : ext2) (N inode buf n : Z) (m0 : gmap Z Z).
Hypothesis Hb : block_size_ok fs.
Hypothesis Hd : disk_placed fs N.
Hypothesis HN : 0 < N.
Hypothesis Hdisk : ∀ a, disk_area fs N a → ¬ buf ≤ a < buf + n.
Hypothesis Hinode : ∀ a, inode_area inode a → ¬ buf ≤ a < buf + n.

(** Memory that differs from [m0] at most in the buffer. *)
Definition agrees (m : gmap Z Z) : Prop := ∀ a, ¬ buf ≤ a < buf + n → rd m a = rd m0 a.

Lemma agrees_block_num m lb :
  agrees m → 0 ≤ lb → Forall (λ b, 0 ≤ b < N) (block_trace fs m0 inode lb) →
  block_trace fs m inode lb = block_trace fs m0 inode lb ∧
  ext2_get_block_num fs m inode lb = ext2_get_block_num fs m0 inode lb.
Proof.
  intros Ha Hlb Ht. assert (block_trace fs m inode lb = block_trace fs m0 inode lb) as E.
  { apply (block_trace_frame fs m0 m N); try done; intros a Hin; apply Ha; first [by apply Hdisk|by apply Hinode]. }
  split; [done|]. rewrite !get_block_num_trace by done. by rewrite E.
Qed.

Lemma agrees_file_byte m i :
  agrees m → 0 ≤ i → Forall (λ b, 0 ≤ b < N) (block_trace fs m0 inode (i / block_size fs)) →
  file_byte fs m inode i = file_byte fs m0 inode i.
Proof.
  intros Ha Hi Ht. pose proof Hb as [Hbs _]. assert (0 ≤ i / block_size fs) as Hlb by (apply Z.div_pos; lia).
  unfold file_byte. rewrite (proj2 (agrees_block_num m _ Ha Hlb Ht)).
  pose proof (get_block_num_bound fs m0 inode N _ Hb Hlb HN Ht) as Hbn. case_if; [done|].
  apply Ha, Hdisk. rewrite (block_ptr_eq fs N) by (done || lia).
  pose proof (Z.mod_pos_bound i (block_size fs) ltac:(lia)). unfold disk_area. nia.
Qed.

Lemma read_loop_ok fuel : ∀ offset dst size total m,
  (Z.to_nat size < fuel)%nat → 0 ≤ size → 0 ≤ offset → offset + size ≤ 2 ^ 32 * block_size fs →
  buf ≤ dst → dst + size ≤ buf + n → agrees m → file_mapped fs m0 inode N offset (offset + size) →
  ∃ m', read_loop fs fuel inode offset dst size total m = (total + size, m') ∧
    ∀ a, rd m' a = if decide (dst ≤ a < dst + size) then file_byte fs m0 inode (offset + (a - dst)) else rd m a.
Proof.
  induction fuel as [|fuel IH]; intros offset dst size total m Hf Hs Ho Hlim Hd1 Hd2 Ha Hm; [lia|]. cbn [read_loop].
  destruct (Z.ltb_spec 0 size) as [Hpos|Hz].
  2:{ exists m. split; [f_equal; lia|]. intros a. by rewrite decide_False by lia. }
  pose proof Hb as [Hbs _]. pose proof (Z.mod_pos_bound offset (block_size fs) ltac:(lia)) as Hmod.
  assert (0 ≤ offset / block_size fs < 2 ^ 32) as Hlb
    by (split; [apply Z.div_pos; lia|apply Z.div_lt_upper_bound; lia]).
  rewrite (u32_small (offset / block_size fs)) by lia.
  set (k := if size <? block_size fs - offset mod block_size fs then size else block_size fs - offset mod block_size fs).
  assert (0 < k ≤ size ∧ k ≤ block_size fs - offset mod block_size fs) as Hk by (unfold k; case_if; lia).
  pose proof (Hm offset ltac:(lia)) as Ht. destruct (agrees_block_num m _ Ha (proj1 Hlb) Ht) as [Et Eb].
  assert (∀ a, disk_area fs N a → ¬ dst ≤ a < dst + k) as Hdis .
  { intros a Hin Hk'. apply (Hdisk a Hin). clear - Hk Hk' Hd1 Hd2. lia. }
  rewrite <- Et in Ht. pose proof (read_chunk fs m inode N offset dst k Hb Hd Ho ltac:(lia) HN Hdis Ht) as Hc.
  cbv zeta in *. rewrite (u64_small (offset + k)) by lia.
  set (m1 := if ext2_get_block_num fs m inode (offset / block_size fs) =? 0 then _ else _) in *.
  assert (agrees m1) as Ha1.
  { intros a Hn. rewrite Hc, decide_False by lia. by apply Ha. }
  destruct (IH (offset + k) (dst + k) (size - k) (total + k) m1) as (m' & E & Hm'); try lia; [done| |].
  { intros i Hi. apply Hm. lia. }
  exists m'. split; [rewrite E; f_equal; lia|]. intros a. rewrite Hm'.
  destruct (decide (dst + k ≤ a < dst + k + (size - k))).
  { rewrite decide_True by lia. f_equal. lia. }
  rewrite Hc. destruct (decide (dst ≤ a < dst + k)).
  - rewrite decide_True by lia. apply agrees_file_byte; [done|lia|]. apply Hm. lia.
  - by rewrite decide_False by lia.
Qed.
End Reading.

(** ** Directory search and path lookup of ext2 *)
(** Memory holds bytes. *)
Definition bytes_ok (m : gmap Z Z) : Prop := ∀ a, 0 ≤ rd m a < 256.

Lemma load_bytes n m a : bytes_ok m → 0 ≤ load n m a < 256 ^ Z.of_nat n.
Proof.
  intros Hm. revert a. induction n as [|n IH]; intros a; [by vm_compute|].
  specialize (IH (a + 1)). change (load (S n) m a) with (rd m a + 256 * load n m (a + 1)). assert (0 ≤ rd m a < 256) as Ha by apply Hm. rewrite Nat2Z.inj_succ, Z.pow_succ_r by lia. set (P := 256 ^ Z.of_nat n) in *. lia.
Qed.

Section Directories.
Context (fs : ext2) (m : gmap Z Z).
Hypothesis Hb : block_size_ok fs.
Hypothesis Hm : bytes_ok m.

(** The entries of a directory from byte [o] on, in order: holes are skipped
    block by block, and each entry says where the next one is. *)
Inductive dir_walk (dir size : Z) : Z → list Z → Prop :=
  | dw_end o : size ≤ o → dir_walk dir size o []
  | dw_hole o es : o < size → ext2_get_block_num fs m dir (o / block_size fs) = 0 →
      dir_walk dir size (o + (block_size fs - o mod block_size fs)) es → dir_walk dir size o es
  | dw_entry o b es : o < size → b = ext2_get_block_num fs m dir (o / block_size fs) → b ≠ 0 →
      d_rec_len m (ext2_block_ptr fs b + o mod block_size fs) ≠ 0 →
      dir_walk dir size (o + d_rec_len m (ext2_block_ptr fs b + o mod block_size fs)) es →
      dir_walk dir size o (ext2_block_ptr fs b + o mod block_size fs :: es).

Lemma rec_len_bound e : 0 ≤ d_rec_len m e < 65536.
Proof. apply (load_bytes 2). done. Qed.

Section Search.
Context (dir size name_len : Z) (name : list Z).
Hypothesis Hsize : 0 ≤ size < 2 ^ 32.

#[local] Abbreviation matches := (λ e, dirent_matches m e name name_len).

Lemma block_loop_ok lb b fuel : ∀ bo o es,
  b = ext2_get_block_num fs m dir lb → b ≠ 0 → dir_walk dir size o es →
  o = lb * block_size fs + bo → 0 ≤ bo → 0 ≤ o → bo < 2 ^ 31 → o < 2 ^ 40 → (Z.to_nat (block_size fs - bo) < fuel)%nat →
  match dir_block_loop fs m fuel (ext2_block_ptr fs b) size name name_len bo o with
  | inr r => ∃ e, find matches es = Some e ∧ r = d_inode m e
  | inl o' => ∃ es', dir_walk dir size o' es' ∧ find matches es = find matches es' ∧ o ≤ o' < 2 ^ 40 ∧
      (bo < block_size fs → o < size → o < o')
  end.
Proof.
  pose proof Hb as [Hbs _].
  induction fuel as [|fuel IH]; intros bo o es Eb Hb0 Hw Eo Hbo Ho Hbo2 Ho2 Hf; [lia|]. cbn [dir_block_loop].
  destruct (Z.ltb_spec bo (block_size fs)) as [Hlt|Hge]; cbn [andb].
  2:{ exists es. split_and!; (done || lia). }
  destruct (Z.ltb_spec o size) as [Hos|Hos].
  2:{ exists es. split_and!; (done || lia). }
  assert (o / block_size fs = lb ∧ o mod block_size fs = bo) as [Ed Emod].
  { split; symmetry; [apply (Z.div_unique _ _ _ bo)|apply (Z.mod_unique _ _ lb)]; lia. }
  inversion Hw as [o' Hge E1 E2|o' es' _ Hh Hw' E1 E2|o' b' es' _ Eb' _ Hr Hw' E1 E2]; subst o'; [lia| |].
  { exfalso. rewrite Ed in Hh. congruence. }
  rewrite Ed, <- Eb in Eb'. subst b'. rewrite Emod in *. set (e := ext2_block_ptr fs b + bo) in *.
  pose proof (rec_len_bound e) as Hrl. assert ((d_rec_len m e =? 0) = false) as -> by lia.
  destruct (dirent_matches m e name name_len) eqn:Em.
  { exists e. cbn [find]. by rewrite Em. }
  rewrite u32_small, u64_small by lia. subst es.
  pose proof (IH (bo + d_rec_len m e) (o + d_rec_len m e) es' Eb Hb0 Hw' ltac:(lia) ltac:(lia) ltac:(lia) ltac:(lia) ltac:(lia) ltac:(lia)) as IH'.
  destruct (dir_block_loop _ _ _ _ _ _ _ _ _) as [o1|r].
  - destruct IH' as (es1 & Hw1 & Ef & Hle & _). exists es1. cbn [find]. rewrite Em. split_and!; (done || lia).
  - destruct IH' as (e1 & Ef & ->). exists e1. cbn [find]. by rewrite Em.
Qed.

Lemma dir_loop_ok fuel : ∀ o es,
  dir_walk dir size o es → 0 ≤ o < 2 ^ 40 → (Z.to_nat (size - o) < fuel)%nat →
  dir_loop fs m fuel dir size name name_len o =
  Some (match find matches es with Some e => d_inode m e | None => 0 end).
Proof.
  pose proof Hb as [Hbs _].
  induction fuel as [|fuel IH]; intros o es Hw Ho Hf; [lia|]. cbn [dir_loop].
  destruct (Z.ltb_spec o size) as [Hos|Hos].
  2:{ inversion Hw; subst; (done || lia). }
  pose proof (Z.mod_pos_bound o (block_size fs) ltac:(lia)) as Hmod.
  pose proof (Z.div_mod o (block_size fs) ltac:(lia)) as Hdiv.
  assert (0 ≤ o / block_size fs < 2 ^ 32) as Hlb
    by (split; [apply Z.div_pos; lia|apply Z.div_lt_upper_bound; nia]).
  rewrite (u32_small (o / block_size fs)) by lia.
  destruct (Z.eqb_spec (ext2_get_block_num fs m dir (o / block_size fs)) 0) as [E0|E0].
  - inversion Hw as [o' Hge E1 E2|o' es' _ Hh Hw' E1 E2|o' b' es' _ Eb' Hb0 Hr Hw' E1 E2]; subst o'; [lia| |congruence].
    rewrite u64_small by lia. apply IH; [done|lia|lia].
  - pose proof (block_loop_ok (o / block_size fs) _ (S (Z.to_nat (block_size fs))) (o mod block_size fs) o es eq_refl E0 Hw
      ltac:(lia) ltac:(lia) ltac:(lia) ltac:(lia) ltac:(lia) ltac:(lia)) as Hl.
    destruct (dir_block_loop _ _ _ _ _ _ _ _ _) as [o1|r].
    + destruct Hl as (es' & Hw' & -> & Hle & Hlt). apply IH; [done|lia|]. specialize (Hlt ltac:(lia) Hos). lia.
    + by destruct Hl as (e & -> & ->).
Qed.
End Search.
End Directories.

(** ** Names *)

(** The name of an entry. *)
Fixpoint name_bytes (m : gmap Z Z) (a : Z) (n : nat) : list Z :=
  match n with
  | O => []
  | S n => rd m a :: name_bytes m (a + 1) n
  end.

(** A name without terminators, in bytes. *)
Definition name_ok (w : list Z) : Prop := Forall (λ c, 0 < c < 256) w.

Lemma s8_inj x y : 0 ≤ x < 256 → 0 ≤ y < 256 → s8 x = s8 y → x = y.
Proof. unfold s8, swrap. intros. zdm. Qed.

Lemma strncmp_name m a w rest :
  bytes_ok m → name_ok w →
  (ext2_strncmp m a (w ++ rest) (length w) =? 0) = bool_decide (name_bytes m a (length w) = w).
Proof.
  intros Hm Hw. revert a. induction Hw as [|c w Hc _ IH]; intros a; [done|]. cbn beta in Hc.
  cbn [length app ext2_strncmp hd tail name_bytes]. assert (0 ≤ rd m a < 256) as Ha by apply Hm.
  destruct (Z.eqb_spec (s8 (rd m a)) (s8 c)) as [E|E]; cbn [negb].
  - apply s8_inj in E; [|done|lia]. rewrite E. assert ((s8 c =? 0) = false) as ->.
    { apply Z.eqb_neq. change 0 with (s8 0). intros E0%s8_inj; lia. }
    rewrite IH. apply bool_decide_ext. split; [by intros ->|by intros [= ->]].
  - rewrite bool_decide_eq_false_2 by (intros [= ? _]; congruence). apply Z.eqb_neq. lia.
Qed.

(** An entry in use that has the name [w]. *)
Definition entry_named (m : gmap Z Z) (w : list Z) (e : Z) : bool :=
  negb (d_inode m e =? 0) && (d_name_len m e =? Z.of_nat (length w)) &&
  bool_decide (name_bytes m (d_name e) (length w) = w).

Lemma matches_named m e w rest :
  bytes_ok m → name_ok w → dirent_matches m e (w ++ rest) (Z.of_nat (length w)) = entry_named m w e.
Proof. intros Hm Hw. unfold dirent_matches, entry_named. rewrite Nat2Z.id. by rewrite strncmp_name. Qed.

(** ** Paths *)

(** The maximal parts of a path without a slash. *)
Fixpoint split_slashes (p : list Z) : list (list Z) :=
  match p with
  | [] => [[]]
  | c :: p =>
      if c =? 47 then [] :: split_slashes p
      else match split_slashes p with
           | w :: ws => (c :: w) :: ws
           | [] => [[c]]
           end
  end.

Definition components (p : list Z) : list (list Z) :=
  List.filter (λ w, negb (bool_decide (w = []))) (split_slashes p).

Lemma split_slashes_cons p : ∃ ws, split_slashes p = take (name_length p) p :: ws ∧
  (ws = [] ∧ drop (name_length p) p = [] ∨
   ∃ p', drop (name_length p) p = 47 :: p' ∧ ws = split_slashes p').
Proof.
  induction p as [|c p (ws & E & IH)]; cbn [split_slashes name_length].
  { exists []. split; [done|]. by left. }
  destruct (c =? 47) eqn:Hc.
  - exists (split_slashes p). split; [done|]. right. exists p. cbn [drop]. split; [f_equal; lia|done].
  - rewrite E. exists ws. cbn [take drop]. split; [done|exact IH].
Qed.

Lemma components_skip p : components (skip_slashes p) = components p.
Proof.
  induction p as [|c p IH]; cbn [skip_slashes]; [done|]. destruct (c =? 47) eqn:Hc; [|done].
  rewrite IH. unfold components. cbn [split_slashes]. rewrite Hc. done.
Qed.

Lemma skip_slashes_head p c p' : skip_slashes p = c :: p' → c ≠ 47.
Proof. induction p as [|d p IH]; cbn [skip_slashes]; [done|]. destruct (d =? 47) eqn:Hc; [done|]. intros [= -> _]. lia. Qed.

(** What the loop over the path takes off. *)
Lemma components_next p c p' :
  skip_slashes p = c :: p' →
  let q := skip_slashes p in
  components p = take (name_length q) q :: components (drop (name_length q) q) ∧
  take (name_length q) q ≠ [].
Proof.
  intros E q. pose proof (skip_slashes_head p c p' E) as Hc. rewrite <- (components_skip p). fold q.
  destruct (split_slashes_cons q) as (ws & Es & Hws). unfold components at 1. rewrite Es.
  assert (take (name_length q) q ≠ []) as Hne.
  { unfold q. rewrite E. cbn [name_length]. assert ((c =? 47) = false) as -> by lia. done. }
  cbn [List.filter]. rewrite bool_decide_eq_false_2 by done. cbn [negb]. split; [|done]. f_equal.
  destruct Hws as [[-> ->]|(p1 & -> & ->)]; [done|]. unfold components. cbn [split_slashes]. done.
Qed.
