(* ===== verification/Ext2Spec.v ===== *)
(** * What the file system promises

    The block map, the contents of reads, and the meaning of paths. *)
From S2P Require Import Prelude Ext2 Ext2Props.
Local Open Scope Z_scope.

(** The block number of a logical block is found by
    following one path from the inode: through [i_block] and then one slot per
    level of indirection.  Every index of the path is inside its array,
    different logical blocks have different paths, and blocks past the triple
    indirect block have number 0. *)
Theorem ext2_block_tree fs m inode :
  block_size_ok fs →
  let p := block_size fs / 4 in
  let limit := 12 + p + p * p + p * p * p in
  (∀ lb, 0 ≤ lb → ext2_get_block_num fs m inode lb = List.last (block_trace fs m inode lb) 0) ∧
  (∀ lb, 0 ≤ lb < limit → ∃ i path, block_path p lb = i :: path ∧ 0 ≤ i < 15 ∧ Forall (λ j, 0 ≤ j < p) path) ∧
  (∀ lb lb', 0 ≤ lb < limit → 0 ≤ lb' < limit → block_path p lb = block_path p lb' → lb = lb') ∧
  (∀ lb, limit ≤ lb → ext2_get_block_num fs m inode lb = 0).
Proof.
  intros Hb p limit. pose proof (ptrs_bound fs Hb) as Hp. fold p in Hp. split_and!.
  - intros lb Hlb. by apply get_block_num_trace.
  - intros lb Hlb. pose proof (path_bounds p lb ltac:(lia) ltac:(lia)) as H.
    destruct (block_path p lb) as [|i path]; [unfold limit in Hlb; lia|]. by exists i, path.
  - intros lb lb' H1 H2 E. rewrite <- (path_block_path p lb), <- (path_block_path p lb') by (done || lia). by rewrite E.
  - intros lb Hlb. assert (0 ≤ lb) by (unfold limit in Hlb; nia). rewrite get_block_num_trace by done.
    unfold block_trace. fold p. assert (block_path p lb = []) as ->; [|done].
    unfold block_path, limit in *. assert (0 ≤ p * p) by nia. assert (0 ≤ p * p * p) by nia.
    assert ((lb <? 12) = false) as -> by lia. assert ((lb - 12 <? p) = false) as -> by lia.
    assert ((lb - 12 - p <? p * p) = false) as -> by lia.
    by assert ((lb - 12 - p - p * p <? p * p * p) = false) as -> by lia.
Qed.

(** The buffer after a read of at most [size] bytes at [offset]. *)
Definition read_result (fs : ext2) (inode offset buf size : Z) (m : gmap Z Z) (res : Z * gmap Z Z) : Prop :=
  let n := Z.max 0 (Z.min size (ext2_get_file_size m inode - offset)) in
  ∃ m', res = (n, m') ∧
    ∀ a, rd m' a = if decide (buf ≤ a < buf + n) then file_byte fs m inode (offset + (a - buf)) else rd m a.

Lemma ext2_read_ok fs N inode offset buf size m :
  block_size_ok fs → disk_placed fs N → 0 < N → inode ≠ 0 → buf ≠ 0 → 0 ≤ offset → 0 ≤ size → offset + size < 2 ^ 64 →
  let flen := ext2_get_file_size m inode in
  let n := Z.max 0 (Z.min size (flen - offset)) in
  flen ≤ 2 ^ 32 * block_size fs →
  (∀ a, disk_area fs N a ∨ inode_area inode a → ¬ buf ≤ a < buf + n) →
  file_mapped fs m inode N offset (offset + n) →
  read_result fs inode offset buf size m (ext2_read_file fs inode offset buf size m).
Proof.
  intros Hb Hd HN Hi Hbuf Ho Hs Hov flen n Hlim Hdis Hmap. unfold read_result, ext2_read_file.
  assert ((inode =? 0) = false) as -> by lia. assert ((buf =? 0) = false) as -> by lia. cbn [orb]. fold flen.
  destruct (Z.leb_spec flen offset) as [Hle|Hlt].
  { exists m. split; [f_equal; unfold n; lia|]. intros a. by rewrite decide_False by (unfold n; lia). }
  assert (clamp_size flen offset size = n) as ->.
  { unfold clamp_size. rewrite u64_small by lia. unfold n. case_if; lia. }
  destruct (read_loop_ok fs N inode buf n m Hb Hd HN (λ a H, Hdis a (or_introl H)) (λ a H, Hdis a (or_intror H))
    (S (Z.to_nat n)) offset buf n 0 m) as (m' & E & Hm'); try done; unfold n in *; try lia.
  exists m'. split; [by rewrite E|exact Hm'].
Qed.

(** C21 [ext2_read_contents]: a read at [offset] returns the number of bytes up
    to the end of the file, at most [size]; it stores exactly these bytes of
    the file in the buffer, zeros for holes, and changes no other memory. *)
Theorem ext2_read_contents fs N inode offset buf size m :
  block_size_ok fs → disk_placed fs N → 0 < N → inode ≠ 0 → buf ≠ 0 → 0 ≤ offset → 0 ≤ size → offset + size < 2 ^ 64 →
  let flen := ext2_get_file_size m inode in
  let n := Z.max 0 (Z.min size (flen - offset)) in
  flen ≤ 2 ^ 32 * block_size fs →
  (∀ a, disk_area fs N a ∨ inode_area inode a → ¬ buf ≤ a < buf + n) →
  file_mapped fs m inode N offset (offset + n) →
  ∃ m', ext2_read_file fs inode offset buf size m = (n, m') ∧
    ∀ a, rd m' a = if decide (buf ≤ a < buf + n) then file_byte fs m inode (offset + (a - buf)) else rd m a.
Proof. exact (ext2_read_ok fs N inode offset buf size m). Qed.

(** ** Paths *)

Section Paths.
Context (fs : ext2) (m : gmap Z Z).

(** [resolves ino ws r]: from directory [ino] the names [ws] lead to inode [r];
    the result is 0 when a name is missing or not in a directory. *)
Inductive resolves : Z → list (list Z) → Z → Prop :=
  | res_here ino : resolves ino [] ino
  | res_nodir ino w ws :
      (ext2_read_inode fs m ino = 0 ∨ ext2_is_directory m (ext2_read_inode fs m ino) = false) →
      resolves ino (w :: ws) 0
  | res_missing ino w ws dir es :
      dir = ext2_read_inode fs m ino → dir ≠ 0 → ext2_is_directory m dir = true →
      dir_walk fs m dir (ext2_get_file_size m dir) 0 es →
      find (entry_named m w) es = None → resolves ino (w :: ws) 0
  | res_step ino w ws dir es e r :
      dir = ext2_read_inode fs m ino → dir ≠ 0 → ext2_is_directory m dir = true →
      dir_walk fs m dir (ext2_get_file_size m dir) 0 es →
      find (entry_named m w) es = Some e → resolves (d_inode m e) ws r → resolves ino (w :: ws) r.

Lemma directory_size dir : bytes_ok m → ext2_is_directory m dir = true → 0 ≤ ext2_get_file_size m dir < 2 ^ 32.
Proof.
  intros Hm Hd. unfold ext2_get_file_size. pose proof (load_bytes 4 m (dir + 4) Hm) as Hl. change (256 ^ Z.of_nat 4) with (2 ^ 32) in Hl.
  unfold ext2_is_directory, ext2_is_regular_file in *. destruct (dir =? 0); [done|]. apply Z.eqb_eq in Hd. rewrite Hd.
  exact Hl.
Qed.

Lemma search_named dir es w rest fuel :
  block_size_ok fs → bytes_ok m → ext2_is_directory m dir = true → name_ok w →
  dir_walk fs m dir (ext2_get_file_size m dir) 0 es → (Z.to_nat (ext2_get_file_size m dir) < fuel)%nat →
  ext2_lookup_in_dir fs m fuel dir (w ++ rest) (Z.of_nat (length w)) =
  Some (match find (entry_named m w) es with Some e => d_inode m e | None => 0 end).
Proof.
  intros Hb Hm Hd Hw Hwalk Hf. unfold ext2_lookup_in_dir.
  rewrite (dir_loop_ok fs m Hb Hm dir _ _ _ (directory_size dir Hm Hd) fuel 0 es Hwalk); [|lia|by rewrite Z.sub_0_r].
  assert (find (λ e, dirent_matches m e (w ++ rest) (Z.of_nat (length w))) es = find (entry_named m w) es) as ->; [|done].
  clear Hwalk. induction es as [|e es IH]; [done|]. cbn [find]. rewrite matches_named, IH by done. done.
Qed.

Lemma components_nil p : components p = [] → skip_slashes p = [].
Proof.
  intros E. destruct (skip_slashes p) as [|c p'] eqn:Es; [done|].
  destruct (components_next p c p' Es) as [E' _]. by rewrite E in E'.
Qed.

Lemma skip_slashes_suffix p : ∃ q, p = q ++ skip_slashes p.
Proof.
  induction p as [|c p [q E]]; cbn [skip_slashes]; [by exists []|]. case_if; [|by exists []].
  exists (c :: q). cbn. by f_equal.
Qed.

Lemma name_length_le p : (name_length p ≤ length p)%nat.
Proof. induction p as [|c p IH]; cbn [name_length length]; [lia|]. case_if; lia. Qed.

(** One round of the path loop takes off the first component. *)
Lemma components_step p w ws :
  components p = w :: ws → name_ok p →
  ∃ rest, skip_slashes p = w ++ rest ∧ name_length (skip_slashes p) = length w ∧ w ≠ [] ∧ name_ok w ∧
    drop (length w) (skip_slashes p) = rest ∧ components rest = ws ∧ name_ok rest ∧ (length rest < length p)%nat.
Proof.
  intros Ew Hn. destruct (skip_slashes p) as [|c p'] eqn:Es.
  { by rewrite <- components_skip, Es in Ew. }
  destruct (components_next p c p' Es) as [E Hne]. rewrite Es in *. set (q := c :: p') in *.
  rewrite Ew in E. injection E as Ew1 Ews. destruct (skip_slashes_suffix p) as [q0 E0]. rewrite Es in E0. fold q in E0.
  pose proof (name_length_le q) as Hle. set (k := name_length q) in *.
  assert (length w = k) as Hk by (rewrite Ew1; by apply length_take_le).
  assert (q = w ++ drop k q) as Eq by (rewrite Ew1; symmetry; apply take_drop).
  rewrite E0, Eq in Hn. apply Forall_app in Hn as [_ [Hw Hr]%Forall_app].
  assert (0 < k)%nat by (rewrite <- Hk; destruct w; [done|cbn; lia]).
  exists (drop k q). rewrite Hk. split_and!; try done; [by rewrite Ew1|].
  rewrite E0, length_app, length_drop. lia.
Qed.

Lemma lookup_loop_ok ino ws r :
  block_size_ok fs → bytes_ok m → resolves ino ws r →
  ∃ f0, ∀ dir_fuel, (f0 ≤ dir_fuel)%nat → ∀ fuel p, components p = ws → name_ok p → (length p < fuel)%nat →
    lookup_loop fs m fuel dir_fuel ino p = Some r.
Proof.
  intros Hb Hm. induction 1 as [ino|ino w ws Hnd|ino w ws dir es Ed H0 Hd Hwk Hf|ino w ws dir es e r Ed H0 Hd Hwk Hf _ IH].
  - exists O. intros df _ fuel p Ep%components_nil _ Hl. destruct fuel as [|fuel]; [lia|]. cbn [lookup_loop].
    destruct p; [done|]. by rewrite Ep.
  - exists O. intros df _ fuel p Ep Hn Hl. destruct fuel as [|fuel]; [lia|]. cbn [lookup_loop].
    destruct (components_step p w ws Ep Hn) as (rest & Es & _ & Hw & _). rewrite Es.
    destruct p; [done|]. destruct w as [|c w]; [done|]. cbn [app].
    destruct Hnd as [E|E]; rewrite E; [done|]. by case_if.
  - exists (S (Z.to_nat (ext2_get_file_size m dir))). intros df Hdf fuel p Ep Hn Hl. destruct fuel as [|fuel]; [lia|].
    destruct (components_step p w ws Ep Hn) as (rest & Es & El & Hw & Hnw & _).
    pose proof (search_named dir es w rest df Hb Hm Hd Hnw Hwk ltac:(lia)) as Hs. rewrite Hf, <- Es, <- El in Hs.
    cbn [lookup_loop]. destruct p; [done|]. rewrite <- Ed, Hs, Hd. destruct (skip_slashes _); [by destruct w|].
    assert ((dir =? 0) = false) as -> by lia. done.
  - destruct IH as [f1 IH]. exists (Nat.max f1 (S (Z.to_nat (ext2_get_file_size m dir)))).
    intros df Hdf fuel p Ep Hn Hl. destruct fuel as [|fuel]; [lia|].
    destruct (components_step p w ws Ep Hn) as (rest & Es & El & Hw & Hnw & Er & Ec & Hnr & Hlen).
    pose proof (search_named dir es w rest df Hb Hm Hd Hnw Hwk ltac:(lia)) as Hs. rewrite Hf, <- Es, <- El in Hs.
    rewrite <- El in Er. apply find_some in Hf as [_ Hne]. unfold entry_named in Hne.
    apply andb_true_iff in Hne as [[Hne _]%andb_true_iff _]. apply negb_true_iff in Hne.
    cbn [lookup_loop]. destruct p; [done|]. rewrite <- Ed, Hs, Hd, Er. destruct (skip_slashes _); [by destruct w|].
    assert ((dir =? 0) = false) as -> by lia. cbn [mbind option_bind negb]. rewrite Hne.
    apply IH; [lia|done|done|lia].
Qed.

(** C20 [ext2_lookup_resolves]: looking up an absolute path ends and gives what
    the components of the path, split at slashes, lead to from the root: each
    component selects the first entry in use with exactly that name in the
    directory, and a missing component or a component below a file gives 0. *)
Theorem ext2_lookup_resolves p r :
  block_size_ok fs → bytes_ok m → name_ok p → resolves EXT2_ROOT_INO (components p) r →
  ∃ f0, ∀ dir_fuel, (f0 ≤ dir_fuel)%nat → ext2_lookup fs m dir_fuel (47 :: p) = Some r.
Proof.
  intros Hb Hm Hn Hr. destruct (lookup_loop_ok _ _ _ Hb Hm Hr) as [f0 Hf]. exists f0. intros df Hdf.
  unfold ext2_lookup. cbn [hd tail Z.eqb negb]. apply Hf; [done|done|done|cbn; lia].
Qed.
End Paths.

(** ** A directory entry of length zero *)

(** The search never ends once it meets one. *)
Lemma zero_rec_len_never_ends fs m dir size name name_len o :
  let b := ext2_get_block_num fs m dir (u32 (o / block_size fs)) in
  o < size → b ≠ 0 → o mod block_size fs < block_size fs →
  d_rec_len m (ext2_block_ptr fs b + o mod block_size fs) = 0 →
  ∀ fuel, dir_loop fs m fuel dir size name name_len o = None.
Proof.
  intros b Ho Hb0 Hmod Hr fuel. induction fuel as [|fuel IH]; [done|]. cbn [dir_loop].
  assert ((o <? size) = true) as E1 by lia. rewrite E1. fold b. assert ((b =? 0) = false) as -> by lia.
  cbn [dir_block_loop]. rewrite E1. assert ((o mod block_size fs <? block_size fs) = true) as -> by lia.
  cbn [andb]. rewrite Hr. exact IH.
Qed.

(** ** A small disk *)
(** A disk of 16 blocks of 1 KiB at 0x10000: the root directory, inode 2, is in
    block 7 and has one entry, init, for inode 12, whose five bytes are in
    block 8. *)
Definition ramdisk : Z := 0x10000.

Definition disk_image : list (nat * Z * Z) :=
  [(4%nat, 1024, 16); (4%nat, 1028, 16); (4%nat, 1056, 16); (4%nat, 1064, 16); (2%nat, 1080, 0xEF53);
   (4%nat, 2056, 5);
   (2%nat, 5248, 0x41ED); (4%nat, 5252, 1024); (4%nat, 5288, 7);
   (2%nat, 6528, 0x81A4); (4%nat, 6532, 5); (4%nat, 6568, 8);
   (4%nat, 7168, 12); (2%nat, 7172, 1024); (1%nat, 7174, 4); (4%nat, 7176, 0x74696e69);
   (4%nat, 8192, 0x6c6c6568); (1%nat, 8196, 0x6f)].

Definition disk_mem : gmap Z Z :=
  foldl (λ m '(n, a, v), store n m (ramdisk + a) v) ∅ disk_image.

Definition fs0 : ext2 := Ext2 ramdisk 16384 (ramdisk + 1024) (ramdisk + 2048) 1024 16 128 1.

Example mounts : ext2_init disk_mem ramdisk 16384 (Ext2 0 0 0 0 0 0 0 0) = Done (0, fs0).
Proof. by vm_compute. Qed.

Lemma fs0_ok : block_size_ok fs0.
Proof. split; by vm_compute. Qed.

Lemma wr_bytes m a v : bytes_ok m → 0 ≤ v < 256 → bytes_ok (wr m a v).
Proof. intros Hm Hv x. rewrite rd_wr. case_decide; [lia|apply Hm]. Qed.

Lemma store_bytes n m a v : bytes_ok m → bytes_ok (store n m a v).
Proof.
  revert m a v. induction n as [|n IH]; intros m a v Hm; [done|].
  apply IH, wr_bytes; [done|]. apply Z.mod_pos_bound. lia.
Qed.

Lemma disk_mem_bytes : bytes_ok disk_mem.
Proof.
  unfold disk_mem. assert (bytes_ok ∅) as H0 by (intros a; unfold rd; rewrite lookup_empty; cbn; lia).
  generalize dependent (∅ : gmap Z Z). induction disk_image as [|[[n a] v] l IH]; intros m Hm; [done|].
  cbn [foldl]. apply IH. by apply store_bytes.
Qed.

Lemma ext2_block_tree_witness :
  ext2_get_block_num fs0 disk_mem (ramdisk + 6528) 0 = 8 ∧
  ∀ lb, 12 + 256 + 256 * 256 + 256 * 256 * 256 ≤ lb → ext2_get_block_num fs0 disk_mem (ramdisk + 6528) lb = 0.
Proof.
  destruct (ext2_block_tree fs0 disk_mem (ramdisk + 6528) fs0_ok) as (H1 & _ & _ & H2).
  split; [rewrite H1 by lia; by vm_compute|exact H2].
Defined.

(** Reading ten bytes at offset 1 gives the four that are left. *)
Lemma ext2_read_contents_witness :
  ∃ m', ext2_read_file fs0 (ramdisk + 6528) 1 0x1000 10 disk_mem = (4, m') ∧ rd m' 0x1000 = 0x65 ∧ rd m' 0x1004 = 0.
Proof.
  destruct (ext2_read_contents fs0 16 (ramdisk + 6528) 1 0x1000 10 disk_mem) as (m' & E & Hm').
  - apply fs0_ok.
  - split; by vm_compute.
  - lia.
  - by vm_compute.
  - by vm_compute.
  - lia.
  - lia.
  - by vm_compute.
  - by vm_compute.
  - intros a Ha. change (Z.max 0 (Z.min 10 (ext2_get_file_size disk_mem (ramdisk + 6528) - 1))) with 4.
    unfold disk_area, inode_area, fs0, ramdisk in Ha. cbn [disk block_size] in Ha. lia.
  - intros i Hi. change (Z.max 0 (Z.min 10 (ext2_get_file_size disk_mem (ramdisk + 6528) - 1))) with 4 in Hi.
    change (block_size fs0) with 1024. rewrite Z.div_small by lia.
    change (block_trace fs0 disk_mem (ramdisk + 6528) 0) with [8]. repeat constructor; lia.
  - exists m'. split; [exact E|]. split; rewrite Hm'; by vm_compute.
Defined.

Lemma ext2_lookup_resolves_witness :
  ∃ f0, ∀ dir_fuel, (f0 ≤ dir_fuel)%nat → ext2_lookup fs0 disk_mem dir_fuel [47; 105; 110; 105; 116] = Some 12.
Proof.
  apply (ext2_lookup_resolves fs0 disk_mem [105; 110; 105; 116] 12).
  - apply fs0_ok.
  - apply disk_mem_bytes.
  - repeat constructor; lia.
  - change (components [105; 110; 105; 116]) with [[105; 110; 105; 116]].
    apply (res_step _ _ _ _ _ (ramdisk + 5248) [ramdisk + 7168] (ramdisk + 7168)).
    + by vm_compute.
    + by vm_compute.
    + by vm_compute.
    + apply (dw_entry fs0 disk_mem (ramdisk + 5248) _ 0 7 []).
      * by vm_compute.
      * by vm_compute.
      * done.
      * by vm_compute.
      * apply dw_end. by vm_compute.
    + by vm_compute.
    + apply res_here.
Defined.

(** ** A damaged directory: the search for a name never ends. *)
Definition damaged_mem : gmap Z Z := store 2 disk_mem (ramdisk + 7172) 0.

Example damaged_directory_hangs fuel :
  ext2_lookup_in_dir fs0 damaged_mem fuel (ramdisk + 5248) [105] 1 = None.
Proof. apply zero_rec_len_never_ends; by vm_compute. Qed.

(** The clamp of [ext2_read_file] does not apply when the sum wraps. *)
Example clamp_wraps : clamp_size 5 1 (2 ^ 64 - 1) = 2 ^ 64 - 1.
Proof. by vm_compute. Qed.
