(* ===== verification/UserMem.v ===== *)
(** * User pages

    The sequence that the program loader, [brk] and [mmap] share: take a page,
    clear it, map it.  An address space that owns its frames: no frame is free,
    a page table, or mapped twice in the space. *)
From S2P Require Import Prelude Pmm Page Vmm VmmWalk VmmMap VmmProps VmmCow.
Local Open Scope Z_scope.

(** -1 when the allocator is out of pages, -2 when mapping fails. *)
Definition map_user_page (root vaddr flags : Z) (k : kmem) : Z * kmem :=
  let '(phys, p) := pmm_alloc (k_pmm k) in
  let k := set_pmm p k in
  if phys =? PMM_ALLOC_FAILED then (-1, k)
  else
    let k := set_mem (zero_page phys (k_mem k)) k in
    let '(r, k) := vmm_map_page root vaddr phys flags k in
    if r <? 0 then (-2, k_pmm_free phys k) else (0, k).

(** ** Where pages go

    While tables are added every table stays, and each page that leaves the
    free pages is a table. *)
Definition grows (I : Z → Prop) (root : Z) (k k' : kmem) : Prop :=
  (∀ q t, path_ok I q → walk (k_mem k) root q = Some t → walk (k_mem k') root q = Some t) ∧
  (∀ x, x ∈ free_set (k_pmm k) → x ∈ free_set (k_pmm k') ∨
     ∃ q, path_ok I q ∧ walk (k_mem k') root q = Some (x * 4096)).

#[global] Instance grows_preorder I root : PreOrder (grows I root).
Proof.
  split.
  - intros k. split; [done|]. by left.
  - intros k1 k2 k3 [W1 A1] [W2 A2]. split; [auto|]. intros x [Hx|(q & Hq & Hw)]%A1; [auto|]. right. eauto.
Qed.

Lemma level_grows I root k0 k p i next new k' :
  level_result I root k0 k p i (Some (next, new), k') → path_ok I (p ++ [i]) → grows I root k k'.
Proof.
  inversion 1 as [|next' k1 Hs Ep Hn Hw|n k1 Hs Hn Hpos Ep Hnone Hw]; subst; intros Hp.
  - split; [intros q t Hq; by rewrite Hw|]. rewrite Ep. by left.
  - split.
    + intros q t Hq Hq'. rewrite Hw by done. case_decide; [congruence|done].
    + intros x Hx. rewrite Ep, take_page_free_set. destruct (decide (x = n)) as [->|]; [right|left; set_solver].
      exists (p ++ [i]). by rewrite Hw, decide_True.
Qed.

Lemma store_pte_grows I root va pt v k :
  space_wf I root k → I (PML4_INDEX va) → walk (k_mem k) root (upper_path va) = Some pt →
  grows I root k (set_ent pt (PT_INDEX va) v k).
Proof.
  intros Hwf HI Hw. split; [|by left]. intros q t Hq.
  by rewrite (store_leaf_walk I root k (upper_path va)); eauto with seedos.
Qed.

Lemma map_page_grows I root va phys flags k k' :
  space_wf I root k → I (PML4_INDEX va) → vmm_map_page root va phys flags k = (0, k') →
  grows I root k k' ∧ (available k ≤ 3 + available k')%nat.
Proof.
  intros Hwf HI. pose proof (upper_path_ok I va HI) as Hp3.
  change (upper_path va) with ([PML4_INDEX va; PDPT_INDEX va] ++ [PD_INDEX va]) in Hp3.
  assert (path_ok I ([PML4_INDEX va] ++ [PDPT_INDEX va])) as Hp2 by (by apply (path_ok_prefix I _ [PD_INDEX va])).
  assert (path_ok I ([] ++ [PML4_INDEX va])) as Hp1 by (by apply (path_ok_prefix I _ [PDPT_INDEX va])).
  unfold vmm_map_page.
  pose proof (map_level_cases I root k k [] root _ flags (since_refl I root k Hwf) Hp1 eq_refl) as L1.
  destruct (map_level root _ flags k) as [[[pdpt new1]|] k1]; [|done].
  destruct (level_result_walk _ _ _ _ _ _ _ _ _ L1 Hp1) as [Hs1 W1].
  pose proof (map_level_cases I root k k1 _ pdpt _ flags Hs1 Hp2 W1) as L2.
  destruct (map_level pdpt _ flags k1) as [[[pd new2]|] k2]; [|done].
  destruct (level_result_walk _ _ _ _ _ _ _ _ _ L2 Hp2) as [Hs2 W2].
  pose proof (map_level_cases I root k k2 _ pd _ flags Hs2 Hp3 W2) as L3.
  destruct (map_level pd _ flags k2) as [[[pt new3]|] k3]; [|done].
  destruct (level_result_walk _ _ _ _ _ _ _ _ _ L3 Hp3) as [Hs3 W3].
  pose proof (available_level _ _ _ _ _ _ _ _ _ L1) as A1. pose proof (available_level _ _ _ _ _ _ _ _ _ L2) as A2.
  pose proof (available_level _ _ _ _ _ _ _ _ _ L3) as A3. intros [= <-].
  split; [|change (available (set_ent _ _ _ k3)) with (available k3); lia]. rewrite (level_grows _ _ _ _ _ _ _ _ _ L1 Hp1), (level_grows _ _ _ _ _ _ _ _ _ L2 Hp2),
    (level_grows _ _ _ _ _ _ _ _ _ L3 Hp3). apply store_pte_grows; [apply Hs3|done|done].
Qed.

(** ** Owned frames *)

Definition frame (e : Z) : Z := Z.land e PTE_ADDR_MASK.

Record space_own (I : Z → Prop) (root : Z) (k : kmem) : Prop := {
  so_wf : space_wf I root k;
  so_used : ∀ va e, I (PML4_INDEX va) → pte_at root va k = Some e → used_page (k_pmm k) (frame e);
  so_sep : ∀ va e p t, I (PML4_INDEX va) → pte_at root va k = Some e →
    path_ok I p → walk (k_mem k) root p = Some t → frame e ≠ t;
  so_inj : ∀ va vb e e', I (PML4_INDEX va) → I (PML4_INDEX vb) →
    pte_at root va k = Some e → pte_at root vb k = Some e' → frame e = frame e' → same_page va vb;
  so_small : upper_small I root k;
}.

Lemma small_path I root va k : upper_small I root k → I (PML4_INDEX va) → huge_on_path root va k = false.
Proof.
  intros Hs HI. pose proof (upper_path_ok I va HI) as Hp. unfold huge_on_path.
  destruct (walk (k_mem k) root [PML4_INDEX va]) as [pdpt|] eqn:W1; [|done].
  rewrite (Hs [PML4_INDEX va] pdpt (PDPT_INDEX va)); [|by apply (path_ok_prefix I _ [PD_INDEX va])|done].
  destruct (walk (k_mem k) root [PML4_INDEX va; PDPT_INDEX va]) as [pd|] eqn:W2; [|done].
  by apply (Hs [PML4_INDEX va; PDPT_INDEX va] pd (PD_INDEX va)).
Qed.

(** The word at an aligned user address. *)
Definition user_word (root va : Z) (k : kmem) : option Z :=
  e ← pte_at root va k; Some (rd (k_mem k) (frame e + va mod 4096)).

Lemma user_half_addr v : 0 ≤ v < USER_SPACE_TOP → user_half (PML4_INDEX v).
Proof.
  unfold USER_SPACE_TOP, user_half, PML4_INDEX. intros Hv. rewrite land_511, Z.shiftr_div_pow2 by lia.
  change (2 ^ 39) with 549755813888. zdm.
Qed.

Lemma page_of_offset f o : f mod 4096 = 0 → 0 ≤ o < 4096 → (f + o) / 4096 = f / 4096.
Proof. intros. zdm. Qed.

Lemma frame_not_slot I root k va e o :
  space_own I root k → I (PML4_INDEX va) → pte_at root va k = Some e → 0 ≤ o < 4096 →
  ¬ slot_of I root k (frame e + o) ∧ ((frame e + o) / 4096 ∉ free_set (k_pmm k)).
Proof.
  intros Ho HI He Hof. destruct (so_used _ _ _ Ho va e HI He) as (Ha & _ & Hf).
  rewrite page_of_offset by done. split; [|done]. intros (p & t & i & (Hp & Hi & _) & Hw & E).
  apply (so_sep _ _ _ Ho va e p t HI He Hp Hw).
  assert (t mod 4096 = 0) by (eapply table_aligned, Hw; [apply Ho|done]). unfold idx_ok in Hi. zdm.
Qed.

(** Anything that leaves the words outside tables and free pages alone keeps
    the contents of the pages whose entries it keeps. *)
Lemma untouched_word I root k k' va :
  space_own I root k → untouched I root k k' → I (PML4_INDEX va) →
  pte_at root va k' = pte_at root va k → user_word root va k' = user_word root va k.
Proof.
  intros Ho Hu HI E. unfold user_word. rewrite E. destruct (pte_at root va k) as [e|] eqn:He; [|done].
  cbn [mbind option_bind]. f_equal. pose proof (Z.mod_pos_bound va 4096 ltac:(lia)).
  destruct (frame_not_slot I root k va e (va mod 4096) Ho HI He); [lia|]. by apply Hu.
Qed.

Lemma map_user_page_alloc root va flags k :
  map_user_page root va flags k =
  let '(phys, k1) := alloc_page_table k in
  if phys =? 0 then (-1, k1)
  else
    let '(r, k2) := vmm_map_page root va phys flags k1 in
    if r <? 0 then (-2, k_pmm_free phys k2) else (0, k2).
Proof.
  unfold map_user_page, alloc_page_table. destruct (pmm_alloc (k_pmm k)) as [phys p].
  change PMM_ALLOC_FAILED with 0. destruct (phys =? 0) eqn:E; [done|]. by rewrite E.
Qed.

(** What one attempt leaves behind. *)
Record mapped_fresh (I : Z → Prop) (root va flags : Z) (k k' : kmem) : Prop := {
  mf_own : space_own I root k';
  mf_frame : ∃ n, n ∈ free_set (k_pmm k) ∧ 0 < n ∧
    pte_at root va k' = Some (Z.lor (n * 4096) flags) ∧ Z.land (n * 4096) PTE_ADDR_MASK = n * 4096 ∧
    (∀ o, 0 ≤ o < 4096 → o mod 8 = 0 → rd (k_mem k') (n * 4096 + o) = 0) ∧
    (∀ x, x ∈ free_set (k_pmm k) → x ∈ free_set (k_pmm k') ∨ x = n ∨
       ∃ q, path_ok I q ∧ walk (k_mem k') root q = Some (x * 4096));
  mf_tables : ∀ q t, path_ok I q → walk (k_mem k) root q = Some t → walk (k_mem k') root q = Some t;
  mf_others : ∀ vb, I (PML4_INDEX vb) → ¬ same_page va vb → pte_at root vb k' = pte_at root vb k;
  mf_step : region_step I root k k';
  mf_available : (available k ≤ 4 + available k')%nat;
  mf_rest : k_refs k' = k_refs k ∧ kernel_pml4_phys k' = kernel_pml4_phys k;
}.

(** A failed attempt leaves every translation and the free pages as before. *)
Record map_failed (I : Z → Prop) (root : Z) (k k' : kmem) : Prop := {
  fl_own : space_own I root k';
  fl_same : ∀ vb, I (PML4_INDEX vb) → pte_at root vb k' = pte_at root vb k;
  fl_step : region_step I root k k';
  fl_free : free_set (k_pmm k') = free_set (k_pmm k);
  fl_tables : ∀ q t, path_ok I q → walk (k_mem k) root q = Some t → walk (k_mem k') root q = Some t;
  fl_rest : k_refs k' = k_refs k ∧ kernel_pml4_phys k' = kernel_pml4_phys k;
}.

(** Only the allocator and the memory matter. *)
Lemma own_ext I root k k' :
  k_pmm k' = k_pmm k → k_mem k' = k_mem k → space_own I root k → space_own I root k'.
Proof.
  intros Ep Em [[W1 W2 W3 W4] Hu Hs Hi Hsm]. unfold pte_at, upper_small in *.
  by split; [split|..]; unfold pte_at, upper_small; rewrite ?Ep, ?Em.
Qed.

(** Ownership of the frames that were there depends on what changed. *)
Lemma own_kept I root k k' (P : Z → Prop) :
  space_own I root k → space_wf I root k' →
  (∀ va, I (PML4_INDEX va) → P va → pte_at root va k' = pte_at root va k) →
  free_set (k_pmm k') ⊆ free_set (k_pmm k) → total_pages (k_pmm k') = total_pages (k_pmm k) →
  (∀ p t, path_ok I p → walk (k_mem k') root p = Some t →
     walk (k_mem k) root p = Some t ∨ (t / 4096) ∈ free_set (k_pmm k)) →
  (∀ va e, I (PML4_INDEX va) → P va → pte_at root va k' = Some e →
     used_page (k_pmm k') (frame e) ∧ (frame e / 4096 ∉ free_set (k_pmm k)) ∧
     ∀ p t, path_ok I p → walk (k_mem k') root p = Some t → frame e ≠ t).
Proof.
  intros Ho Hwf Hsame Hfree Htot Htab va e HI HP He. rewrite Hsame in He by done.
  destruct (so_used _ _ _ Ho va e HI He) as (Ha & Hr & Hf). split_and!.
  - split; [done|]. rewrite Htot. split; [done|]. set_solver.
  - done.
  - intros p t Hp Hw. destruct (Htab p t Hp Hw) as [Hw0|Hin]; [by eapply so_sep|]. intros E. apply Hf. by rewrite E.
Qed.

Lemma own_same I root k k' :
  space_own I root k → region_step I root k k' → upper_small I root k' →
  (∀ va, I (PML4_INDEX va) → pte_at root va k' = pte_at root va k) → space_own I root k'.
Proof.
  intros Ho Hst Hsm Hpte.
  pose proof (own_kept I root k k' (λ _, True) Ho (rs_wf _ _ _ _ Hst) (λ va HI _, Hpte va HI) (rs_free _ _ _ _ Hst)
    (rs_total _ _ _ _ Hst) (rs_tables _ _ _ _ Hst)) as Hk.
  split.
  - apply Hst.
  - intros va e HI He. by apply (Hk va).
  - intros va e p t HI He Hp Hw. by eapply (Hk va).
  - intros va vb e e' HI HIb. rewrite !Hpte by done. by apply (so_inj _ _ _ Ho).
  - done.
Qed.

(** A page that is no table and is mapped nowhere else can be mapped. *)
Lemma own_store I root va v k k' :
  space_own I root k → region_step I root k k' → upper_small I root k' →
  (∀ vb, I (PML4_INDEX vb) → pte_at root vb k' = if decide (same_page va vb) then Some v else pte_at root vb k) →
  used_page (k_pmm k') (frame v) →
  (∀ p t, path_ok I p → walk (k_mem k') root p = Some t → frame v ≠ t) →
  (∀ vb e, I (PML4_INDEX vb) → ¬ same_page va vb → pte_at root vb k = Some e → frame e ≠ frame v) →
  space_own I root k'.
Proof.
  intros Ho Hst Hsm Hpte Hu Hsep Hfr.
  pose proof (own_kept I root k k' (λ vb, ¬ same_page va vb) Ho (rs_wf _ _ _ _ Hst)) as Hk.
  specialize (Hk ltac:(intros vb HIb Hb; by rewrite Hpte, decide_False) (rs_free _ _ _ _ Hst) (rs_total _ _ _ _ Hst)
    (rs_tables _ _ _ _ Hst)).
  assert (∀ vb e, I (PML4_INDEX vb) → pte_at root vb k' = Some e →
    (same_page va vb ∧ e = v) ∨ (¬ same_page va vb ∧ pte_at root vb k = Some e)) as Hcase.
  { intros vb e HIb He. rewrite Hpte in He by done. case_decide; [left|right]; naive_solver. }
  split; [apply Hst| | | |done].
  - intros vb e HIb He. destruct (Hcase vb e HIb He) as [[_ ->]|[Hb _]]; [done|by apply (Hk vb)].
  - intros vb e p t HIb He Hp Ht. destruct (Hcase vb e HIb He) as [[_ ->]|[Hb _]]; [by apply (Hsep p)|by eapply (Hk vb)].
  - intros vb vc e e' HIb HIc He He' Ef.
    destruct (Hcase vb e HIb He) as [[Hb ->]|[Hb Hb']], (Hcase vc e' HIc He') as [[Hc ->]|[Hc Hc']].
    + unfold same_page in *. congruence.
    + by destruct (Hfr vc e' HIc Hc Hc').
    + by destruct (Hfr vb e HIb Hb Hb').
    + by apply (so_inj _ _ _ Ho vb vc e e').
Qed.

(** A page that is no table and is not mapped can go back to the allocator. *)
Lemma free_frame I root k f :
  space_own I root k → 0 ≤ f → used_page (k_pmm k) f →
  (∀ p t, path_ok I p → walk (k_mem k) root p = Some t → f ≠ t) →
  (∀ va e, I (PML4_INDEX va) → pte_at root va k = Some e → frame e ≠ f) →
  space_own I root (k_pmm_free f k) ∧
  free_set (k_pmm (k_pmm_free f k)) = {[f / 4096]} ∪ free_set (k_pmm k) ∧
  total_pages (k_pmm (k_pmm_free f k)) = total_pages (k_pmm k).
Proof.
  intros Ho H0 (Hal & Hr & Hnf) Hsep Hfr. pose proof (so_wf _ _ _ Ho) as Hwf.
  assert (pmm_free f (k_pmm k) = give_page (f / 4096) (k_pmm k)) as E.
  { destruct (pmm_free_cases f (k_pmm k) H0) as [(_ & _ & _ & ->)|[Hc _]]; [done|].
    unfold PAGE_SIZE in Hc. destruct Hc as [Hc|[Hc|Hc]]; [done|lia|done]. }
  assert (free_set (give_page (f / 4096) (k_pmm k)) = {[f / 4096]} ∪ free_set (k_pmm k)) as Hfs
    by (apply give_page_free_set; zdm).
  assert (∀ g, used_page (k_pmm k) g → g ≠ f → used_page (give_page (f / 4096) (k_pmm k)) g) as Hu.
  { intros g (Hga & Hgr & Hgf) Hne. split; [done|split; [done|]]. rewrite Hfs. intros [Hin%elem_of_singleton|Hin]%elem_of_union; [|done].
    apply Hne. zdm. }
  unfold k_pmm_free. rewrite E. cbn [k_pmm set_pmm]. split_and!; [|done|done].
  split; cbn [k_pmm set_pmm k_mem].
  - split; cbn [k_pmm set_pmm k_mem].
    + apply give_page_wf; [apply Hwf|zdm|done].
    + apply (sw_phys _ _ _ Hwf).
    + intros p t Hp Hw. apply Hu; [by apply (sw_used _ _ _ Hwf p)|]. intros ->. by apply (Hsep p f).
    + apply (sw_inj _ _ _ Hwf).
  - intros va e HI He. apply Hu; [by apply (so_used _ _ _ Ho va)|]. by apply (Hfr va).
  - apply (so_sep _ _ _ Ho).
  - apply (so_inj _ _ _ Ho).
  - apply (so_small _ _ _ Ho).
Qed.

Section MapUserPage.
Context (I : Z → Prop) (root va flags n : Z) (k : kmem).
Hypothesis Ho : space_own I root k.
Hypothesis HI : I (PML4_INDEX va).
Hypothesis Hfm : Z.land flags PTE_ADDR_MASK = 0.
Hypothesis Hfp : tst flags PTE_PRESENT = true.
Hypothesis Hn : n ∈ free_set (k_pmm k).
Hypothesis Hpos : 0 < n.

#[local] Abbreviation k1 := (with_new_table n k).

Lemma fresh_since : since I root k k1.
Proof. apply (since_new_table I root k k (since_refl I root k (so_wf _ _ _ Ho)) n Hn Hpos). Qed.

Lemma fresh_aligned : n * 4096 = Z.land (n * 4096) PTE_ADDR_MASK ∧ (n * 4096) mod 4096 = 0 ∧ n * 4096 / 4096 = n.
Proof.
  pose proof Hn as [Hr _]%elem_of_free_set. pose proof (sw_phys _ _ _ (so_wf _ _ _ Ho)).
  assert ((n * 4096) mod 4096 = 0) by (apply Z.mod_mul; lia).
  rewrite addr_mask_page by (done || lia). split_and!; [done|done|apply Z.div_mul; lia].
Qed.

Lemma fresh_free : free_set (k_pmm k1) = free_set (k_pmm k) ∖ {[n]}.
Proof. apply take_page_free_set. Qed.

(** After any step from the state with the cleared page, its words are zero and
    it is neither free nor a table. *)
Lemma fresh_after k' :
  region_step I root k1 k' →
  used_page (k_pmm k') (n * 4096) ∧ (∀ p t, path_ok I p → walk (k_mem k') root p = Some t → n * 4096 ≠ t) ∧
  (∀ o, 0 ≤ o < 4096 → o mod 8 = 0 → rd (k_mem k') (n * 4096 + o) = 0).
Proof.
  intros Hst. destruct fresh_aligned as (_ & Hal & Hdiv). pose proof Hn as [Hr _]%elem_of_free_set.
  pose proof (since_refl I root k (so_wf _ _ _ Ho)) as Hs0. split_and!.
  - split; [done|]. rewrite Hdiv, (rs_total _ _ _ _ Hst). split; [cbn; lia|].
    pose proof (rs_free _ _ _ _ Hst) as Hf. rewrite fresh_free in Hf. set_solver.
  - intros p t Hp Hw <-. destruct (rs_tables _ _ _ _ Hst p _ Hp Hw) as [Hw1|Hin].
    + rewrite (new_table_walk I root k k Hs0 n Hn p Hp) in Hw1.
      by apply (table_not_new I root k k Hs0 n Hn p (n * 4096) Hp Hw1).
    + rewrite Hdiv, fresh_free in Hin. set_solver.
  - intros o Hof Ho8. rewrite (rs_untouched _ _ _ _ Hst).
    + assert (n * 4096 + o = n * 4096 + 8 * (o / 8)) as -> by zdm.
      change (ent (zero_page (n * 4096) (k_mem k)) (n * 4096) (o / 8) = 0).
      rewrite zero_page_ent, decide_True; [done|done|done|done|]. unfold idx_ok. zdm.
    + intros (p & t & i & (Hp & Hi & _) & Hw & E). pose proof Hw as Hw0.
      rewrite (new_table_walk I root k k Hs0 n Hn p Hp) in Hw.
      assert (t mod 4096 = 0) by (eapply table_aligned, Hw; [apply Ho|done]).
      apply (table_not_new I root k k Hs0 n Hn p t Hp Hw). unfold idx_ok in Hi. zdm.
    + rewrite page_of_offset, Hdiv, fresh_free by done. set_solver.
Qed.

Lemma map_fresh_ok k2 pt :
  since I root k1 k2 → walk (k_mem k2) root (upper_path va) = Some pt →
  grows I root k1 (set_ent pt (PT_INDEX va) (Z.lor (n * 4096) flags) k2) →
  (available k1 ≤ 3 + available k2)%nat →
  mapped_fresh I root va flags k (set_ent pt (PT_INDEX va) (Z.lor (n * 4096) flags) k2).
Proof.
  intros Hs Hw. set (v := Z.lor (n * 4096) flags). set (k' := set_ent pt (PT_INDEX va) v k2). intros [Htab Hacc] Hav.
  destruct fresh_aligned as (Hm & Hal & Hdiv). pose proof (si_wf _ _ _ _ Hs) as Hwf2.
  assert (region_step I root k1 k') as Hst1.
  { eapply region_step_trans; [by apply since_region_step|]. by apply store_pte_step. }
  pose proof (region_step_trans _ _ _ _ _ (since_region_step _ _ _ _ fresh_since) Hst1) as Hst.
  destruct (fresh_after k' Hst1) as (Hu & Hsep & Hz).
  assert (frame v = n * 4096) as Hfv by (unfold frame, v; rewrite Hm at 1; by rewrite land_lor_flags).
  assert (∀ vb, I (PML4_INDEX vb) → pte_at root vb k' = if decide (same_page va vb) then Some v else pte_at root vb k) as Hpte.
  { intros vb HIb. unfold k'. rewrite (store_pte_at I root va pt v k2 Hwf2 HI Hw vb HIb).
    assert (tst v PTE_PRESENT = true) as ->.
    { unfold v. rewrite tst_present in *. by rewrite Z.lor_spec, Hfp, orb_true_r. }
    case_decide; [done|]. unfold pte_at. rewrite (si_leaf _ _ _ _ Hs), (si_leaf _ _ _ _ fresh_since); eauto with seedos. }
  split.
  - apply (own_store I root va v k k'); try done; [|by rewrite Hfv..|].
    + apply (store_leaf_small I root k2 (upper_path va)); eauto with seedos.
      apply (si_small _ _ _ _ Hs), (si_small _ _ _ _ fresh_since), Ho.
    + intros vb e HIb _ He E. destruct (so_used _ _ _ Ho vb e HIb He) as (_ & _ & Hf). by rewrite E, Hfv, Hdiv in Hf.
  - exists n. split_and!; try done; [by rewrite Hpte, decide_True|].
    intros x Hx. destruct (decide (x = n)) as [->|Hne]; [by right; left|].
    destruct (Hacc x) as [|]; [rewrite fresh_free; set_solver|by left|by right; right].
  - intros q t Hq Ht. apply Htab; [done|]. by rewrite (new_table_walk I root k k (since_refl _ _ _ (so_wf _ _ _ Ho)) n Hn q Hq).
  - intros vb HIb Hb. by rewrite Hpte, decide_False.
  - exact Hst.
  - rewrite (available_take n k k1) by done. change (available k') with (available k2). lia.
  - destruct (si_rest _ _ _ _ Hs) as (E1 & E2 & _). split; [exact E1|exact E2].
Qed.

(** When no table page is left the page goes back. *)
Lemma map_fresh_undone k2 :
  since I root k1 k2 → free_set (k_pmm k2) = free_set (k_pmm k1) →
  map_failed I root k (k_pmm_free (n * 4096) k2).
Proof.
  intros Hs Hfr. pose proof (since_region_step _ _ _ _ Hs) as Hst1.
  destruct (fresh_after k2 Hst1) as (Hu & Hsep & _).
  pose proof (region_step_trans _ _ _ _ _ (since_region_step _ _ _ _ fresh_since) Hst1) as Hst.
  destruct fresh_aligned as (_ & _ & Hdiv).
  assert (∀ vb, I (PML4_INDEX vb) → pte_at root vb k2 = pte_at root vb k) as Hpte.
  { intros vb HIb. unfold pte_at. rewrite (si_leaf _ _ _ _ Hs), (si_leaf _ _ _ _ fresh_since); eauto with seedos. }
  assert (space_own I root k2) as Ho2.
  { apply (own_same I root k); try done. apply (si_small _ _ _ _ Hs), (si_small _ _ _ _ fresh_since), Ho. }
  destruct (free_frame I root k2 (n * 4096) Ho2 ltac:(lia) Hu) as (Ho' & Hf' & Ht'); [done| |].
  { intros vb e HIb He E. rewrite Hpte in He by done. destruct (so_used _ _ _ Ho vb e HIb He) as (_ & _ & Hnf).
    by rewrite E, Hdiv in Hnf. }
  assert (free_set (k_pmm (k_pmm_free (n * 4096) k2)) = free_set (k_pmm k)) as Hfree.
  { rewrite Hf', Hdiv, Hfr, fresh_free. apply set_eq. intros x. destruct (decide (x = n)) as [->|]; set_solver. }
  split; [done|intros vb HIb; by rewrite <- Hpte| |done| |].
  - split; [apply Ho'|apply Hst|by rewrite Hfree|rewrite Ht'; apply Hst|apply Hst].
  - intros q t Hq Ht. by apply (si_keep _ _ _ _ Hs), (si_keep _ _ _ _ fresh_since).
  - destruct (si_rest _ _ _ _ Hs) as (E1 & E2 & _). split; [exact E1|exact E2].
Qed.
End MapUserPage.

(** One attempt: a fresh zero page at the address, or nothing but the failure. *)
Lemma map_user_page_cases I root va flags k :
  space_own I root k → I (PML4_INDEX va) → Z.land flags PTE_ADDR_MASK = 0 → tst flags PTE_PRESENT = true →
  (∃ k', map_user_page root va flags k = (0, k') ∧ mapped_fresh I root va flags k k') ∨
  (∃ r k', map_user_page root va flags k = (r, k') ∧ (r = -1 ∨ r = -2) ∧ (available k ≤ 3)%nat ∧ map_failed I root k k').
Proof.
  intros Ho HI Hfm Hfp. rewrite map_user_page_alloc.
  destruct (alloc_page_table_cases k (sw_pmm _ _ _ (so_wf _ _ _ Ho)) (sw_phys _ _ _ (so_wf _ _ _ Ho)))
    as [[Hno ->]|(n & Hn & [Hpos _] & ->)]; [|change (set_mem _ _) with (with_new_table n k)].
  - right. exists (-1), k. rewrite available_oom by done. split_and!; [done|by left|lia|].
    split; try done. apply region_step_refl, Ho.
  - destruct (Z.eqb_spec (n * 4096) 0); [lia|].
    pose proof (map_page_cases I root va (n * 4096) flags (with_new_table n k)
      (si_wf _ _ _ _ (fresh_since I root n k Ho Hn Hpos)) HI) as [(k2 & pt & Hs & Hw & E)|(k2 & Hs & Hfr & Hav & E)];
      rewrite E.
    + left. rewrite <- (proj1 (fresh_aligned I root n k Ho Hn Hpos)) in E |- *. eexists. split; [done|].
      destruct (map_page_grows I root va _ flags _ _ (si_wf _ _ _ _ (fresh_since I root n k Ho Hn Hpos)) HI E) as [Hg Hav].
      exact (map_fresh_ok I root va flags n k Ho HI Hfm Hfp Hn Hpos k2 pt Hs Hw Hg Hav).
    + right. exists (-2), (k_pmm_free (n * 4096) k2). split_and!; [done|by right| |by apply (map_fresh_undone I root va flags n k)].
      rewrite (available_take n k (with_new_table n k)) by done. lia.
Qed.

(** ** Taking a page back *)

(** The loop body of [munmap] and of a shrinking [brk]. *)
Definition unmap_user_page (root vaddr : Z) (k : kmem) : kmem :=
  let phys := vmm_get_physical root vaddr k in
  if negb (phys =? 0) then k_pmm_free phys (vmm_unmap_page root vaddr k).2 else k.

(** The loop body that undoes a partial [mmap]. *)
Definition rollback_user_page (root vaddr : Z) (k : kmem) : kmem :=
  let phys := vmm_get_physical root vaddr k in
  let k := (vmm_unmap_page root vaddr k).2 in
  if negb (phys =? 0) then k_pmm_free phys k else k.

Record unmapped (I : Z → Prop) (root va : Z) (k k' : kmem) : Prop := {
  un_own : space_own I root k';
  un_gone : pte_at root va k' = None;
  un_others : ∀ vb, I (PML4_INDEX vb) → ¬ same_page va vb → pte_at root vb k' = pte_at root vb k;
  un_tables : ∀ q, path_ok I q → walk (k_mem k') root q = walk (k_mem k) root q;
  un_untouched : untouched I root k k';
  un_free : free_set (k_pmm k') =
    match pte_at root va k with Some e => {[frame e / 4096]} | None => ∅ end ∪ free_set (k_pmm k);
  un_rest : k_refs k' = k_refs k ∧ kernel_pml4_phys k' = kernel_pml4_phys k ∧
            total_pages (k_pmm k') = total_pages (k_pmm k);
}.

Section UnmapUserPage.
Context (I : Z → Prop) (root va : Z) (k : kmem).
Hypothesis Ho : space_own I root k.
Hypothesis HI : I (PML4_INDEX va).

(** Clearing the entry of a mapped page. *)
Lemma clear_pte_own pt k1 :
  walk (k_mem k) root (upper_path va) = Some pt → k1 = set_ent pt (PT_INDEX va) 0 k →
  space_own I root k1 ∧ region_step I root k k1 ∧
  ∀ vb, I (PML4_INDEX vb) → pte_at root vb k1 = if decide (same_page va vb) then None else pte_at root vb k.
Proof.
  intros Hw ->. set (k1 := set_ent pt (PT_INDEX va) 0 k).
  pose proof (store_pte_step I root va pt 0 k (so_wf _ _ _ Ho) HI Hw) as Hst. fold k1 in Hst.
  assert (∀ vb, I (PML4_INDEX vb) → pte_at root vb k1 = if decide (same_page va vb) then None else pte_at root vb k) as Hpte
    by (intros vb HIb; apply (store_pte_at I root va pt 0 k (so_wf _ _ _ Ho) HI Hw vb HIb)).
  split_and!; [|done|done].
  pose proof (own_kept I root k k1 (λ vb, ¬ same_page va vb) Ho (rs_wf _ _ _ _ Hst)) as Hk.
  specialize (Hk ltac:(intros vb HIb Hb; by rewrite Hpte, decide_False) (rs_free _ _ _ _ Hst) (rs_total _ _ _ _ Hst)
    (rs_tables _ _ _ _ Hst)).
  assert (∀ vb e, I (PML4_INDEX vb) → pte_at root vb k1 = Some e → ¬ same_page va vb ∧ pte_at root vb k = Some e) as Hold.
  { intros vb e HIb He. rewrite Hpte in He by done. by case_decide. }
  split.
  - apply Hst.
  - intros vb e HIb He. destruct (Hold vb e HIb He). by apply (Hk vb).
  - intros vb e p t HIb He Hp Ht. destruct (Hold vb e HIb He). by eapply (Hk vb).
  - intros vb vc e e' HIb HIc He He'. apply (so_inj _ _ _ Ho vb vc e e'); try done; by eapply Hold.
  - apply (store_leaf_small I root k (upper_path va)); eauto with seedos; apply Ho.
Qed.

Lemma frame_physical e : pte_at root va k = Some e → vmm_get_physical root va k = frame e ∧ 0 < frame e.
Proof.
  intros He. rewrite vmm_get_physical_pte, He. split; [done|].
  destruct (so_used _ _ _ Ho va e HI He) as (_ & Hr & _). zdm.
Qed.

Lemma unmapped_ok e pt k1 :
  walk (k_mem k) root (upper_path va) = Some pt → pte_at root va k = Some e →
  k1 = set_ent pt (PT_INDEX va) 0 k → unmapped I root va k (k_pmm_free (frame e) k1).
Proof.
  intros Hw He Hk1. destruct (clear_pte_own pt k1 Hw Hk1) as (Ho1 & Hst & Hpte).
  destruct (so_used _ _ _ Ho va e HI He) as (Ha & Hr & Hf).
  assert (k_pmm k1 = k_pmm k) as Ep by (by rewrite Hk1).
  destruct (free_frame I root k1 (frame e) Ho1) as (Ho2 & Hfs & Htot).
  - destruct (frame_physical e He). lia.
  - by rewrite Ep.
  - intros p t Hp Ht. rewrite Hk1 in Ht. unfold set_ent in Ht.
    rewrite (store_leaf_walk I root k (upper_path va) pt (PT_INDEX va) 0) in Ht; eauto with seedos; [|apply Ho].
    by apply (so_sep _ _ _ Ho va e p t).
  - intros vb e' HIb He' E. rewrite Hpte in He' by done. case_decide as Hd; [done|].
    apply Hd. by apply (so_inj _ _ _ Ho va vb e e').
  - split.
    + done.
    + transitivity (pte_at root va k1); [done|]. by rewrite Hpte, decide_True.
    + intros vb HIb Hb. transitivity (pte_at root vb k1); [done|]. by rewrite Hpte, decide_False.
    + intros q Hq. transitivity (walk (k_mem k1) root q); [done|]. rewrite Hk1.
      apply (store_leaf_walk I root k (upper_path va)); eauto with seedos. apply Ho.
    + apply Hst.
    + by rewrite He, Hfs, Ep.
    + rewrite Htot, Ep. by rewrite Hk1.
Qed.

Lemma rollback_mapped e :
  pte_at root va k = Some e → rollback_user_page root va k = unmap_user_page root va k.
Proof.
  intros He. unfold rollback_user_page, unmap_user_page. destruct (frame_physical e He) as [-> Hpos].
  by destruct (Z.eqb_spec (frame e) 0); [lia|].
Qed.

Lemma unmap_user_page_ok : unmapped I root va k (unmap_user_page root va k).
Proof.
  unfold unmap_user_page. destruct (pte_at root va k) as [e|] eqn:He.
  - destruct (frame_physical e He) as [-> Hpos]. destruct (Z.eqb_spec (frame e) 0); [lia|]. cbn [negb].
    rewrite vmm_unmap_page_walk, (small_path I) by (apply Ho || done).
    destruct (walk (k_mem k) root (upper_path va)) as [pt|] eqn:Hw; [by eapply unmapped_ok|].
    unfold pte_at, leaf in He. by rewrite Hw in He.
  - rewrite vmm_get_physical_pte, He. cbn. split; try done. rewrite He. set_solver.
Qed.
End UnmapUserPage.
