(* ===== verification/Vfs.v ===== *)
(** * Open files ([fs/vfs.c], [fs/vfs.h], the file operations of
    [drivers/tty/tty_dev.c] and of [arch/x86/kernel/syscall.c])

    An open file is an object behind a pointer, shared by the descriptors that
    refer to it and freed with the last one.  The two tables of file
    operations are constants of the kernel, so a pointer to one is its name. *)
From S2P Require Import Prelude Pmm Page Vmm Heap HeapInv HeapProps HeapSpec Alloc.
From S2P Require Import Console Keyboard Serial Terminal Ext2.
Local Open Scope Z_scope.

Definition VFS_TYPE_NONE : Z := 0.
Definition VFS_TYPE_REG : Z := 1.
Definition VFS_TYPE_CHR : Z := 3.

Definition O_RDONLY : Z := 0.
Definition O_WRONLY : Z := 1.
Definition O_RDWR : Z := 2.
Definition O_ACCMODE : Z := 3.

Definition SEEK_SET : Z := 0.
Definition SEEK_CUR : Z := 1.
Definition SEEK_END : Z := 2.

(** [NULL], [&tty_ops] and [&ext2_file_ops]. *)
Inductive file_ops := NO_OPS | tty_ops | ext2_file_ops.

#[global] Instance file_ops_eq_dec : EqDecision file_ops.
Proof. solve_decision. Defined.

Record vfs_file := VfsFile {
  f_type : Z;
  f_flags : Z;
  f_offset : Z;
  f_refcount : Z;
  f_ops : file_ops;
  f_private : Z;
}.

(** [ext2_file_private_t] *)
Record ext2_private := Ext2Private { inode_num : Z; p_inode : Z; p_size : Z }.

Definition sizeof_vfs_file : Z := 40.
Definition sizeof_ext2_private : Z := 24.

(** The heap, the file objects and the private data of ext2 files. *)
Record fstore (H : Type) := Fstore {
  fs_heap : H;
  files : gmap Z vfs_file;
  privs : gmap Z ext2_private;
}.
Arguments Fstore {H} _ _ _.
Arguments fs_heap {H} _.
Arguments files {H} _.
Arguments privs {H} _.

Definition null_file : vfs_file := VfsFile 0 0 0 0 NO_OPS 0.
Definition null_private : ext2_private := Ext2Private 0 0 0.

(** What reads and writes reach: the terminals, the keyboard, memory as the
    processor addresses it, and the mounted file system. *)
Record devices := Devices {
  d_tty : tty;
  d_kbd : keyboard;
  d_mem : gmap Z Z;
  d_ext2 : ext2;
}.

Definition set_d_mem (m : gmap Z Z) (d : devices) : devices := Devices (d_tty d) (d_kbd d) m (d_ext2 d).

Section Vfs.
Context {H : Type} `{!Allocator H} (font_data : Z → Z).

Definition file_at (s : fstore H) (p : Z) : vfs_file := default null_file (files s !! p).

Definition priv_at (s : fstore H) (p : Z) : ext2_private := default null_private (privs s !! p).

Definition set_file (p : Z) (f : vfs_file) (s : fstore H) : fstore H :=
  Fstore (fs_heap s) (<[p := f]> (files s)) (privs s).

Definition with_refcount (n : Z) (f : vfs_file) : vfs_file :=
  VfsFile (f_type f) (f_flags f) (f_offset f) n (f_ops f) (f_private f).

Definition with_offset (n : Z) (f : vfs_file) : vfs_file :=
  VfsFile (f_type f) (f_flags f) n (f_refcount f) (f_ops f) (f_private f).

Definition with_private (n : Z) (f : vfs_file) : vfs_file :=
  VfsFile (f_type f) (f_flags f) (f_offset f) (f_refcount f) (f_ops f) n.

(** ** Life of a file object *)

Definition vfs_file_alloc (s : fstore H) : Z * fstore H :=
  let '(file, hp) := a_malloc sizeof_vfs_file (fs_heap s) in
  let s := Fstore hp (files s) (privs s) in
  if file =? 0 then (0, s)
  else (file, set_file file (VfsFile VFS_TYPE_NONE 0 0 1 NO_OPS 0) s).

Definition vfs_file_ref (file : Z) (s : fstore H) : fstore H :=
  if negb (file =? 0)
  then set_file file (with_refcount (s32 (f_refcount (file_at s file) + 1)) (file_at s file)) s
  else s.

Definition ext2_file_close (file : Z) (s : fstore H) : Z * fstore H :=
  let private := f_private (file_at s file) in
  if negb (private =? 0)
  then (0, set_file file (with_private 0 (file_at s file))
             (Fstore (a_free private (fs_heap s)) (files s) (delete private (privs s))))
  else (0, s).

(** [file->ops->close(file)], when there is such an operation. *)
Definition ops_close (file : Z) (s : fstore H) : fstore H :=
  match f_ops (file_at s file) with
  | NO_OPS => s
  | tty_ops => s
  | ext2_file_ops => (ext2_file_close file s).2
  end.

Definition free_file (file : Z) (s : fstore H) : fstore H :=
  Fstore (a_free file (fs_heap s)) (delete file (files s)) (privs s).

Definition vfs_file_unref (file : Z) (s : fstore H) : fstore H :=
  if file =? 0 then s
  else
    let s := set_file file (with_refcount (s32 (f_refcount (file_at s file) - 1)) (file_at s file)) s in
    if f_refcount (file_at s file) <=? 0 then free_file file (ops_close file s) else s.

Definition vfs_close (file : Z) (s : fstore H) : Z * fstore H :=
  if file =? 0 then (- EBADF, s) else (0, vfs_file_unref file s).

(** [terminal] is the active terminal. *)
Definition tty_open (flags terminal : Z) (s : fstore H) : Z * fstore H :=
  let '(file, s) := vfs_file_alloc s in
  if file =? 0 then (0, s)
  else
    let f := file_at s file in
    (file, set_file file (VfsFile VFS_TYPE_CHR flags (f_offset f) (f_refcount f) tty_ops terminal) s).

(** ** Operations of regular files *)

Definition ext2_file_read (file buf count : Z) (s : fstore H) (d : devices) : Z * fstore H * devices :=
  let f := file_at s file in
  let priv := priv_at s (f_private f) in
  if (f_private f =? 0) || (p_inode priv =? 0) then (- EBADF, s, d)
  else if p_size priv <=? f_offset f then (0, s, d)
  else
    let count := if p_size priv <? u64 (f_offset f + count) then p_size priv - f_offset f else count in
    let '(bytes_read, m) := ext2_read_file (d_ext2 d) (p_inode priv) (f_offset f) buf count (d_mem d) in
    let s := if 0 <? bytes_read
             then set_file file (with_offset (u64 (f_offset f + bytes_read)) f) s else s in
    (bytes_read, s, set_d_mem m d).

Definition ext2_file_write : Z := - EROFS.

(** The position [whence] and [offset] ask for, from the current position and
    the size of the file; [None] is the default case. *)
Definition ext2_file_lseek (file offset whence : Z) (s : fstore H) : Z * fstore H :=
  let f := file_at s file in
  if f_private f =? 0 then (- EBADF, s)
  else
    let target :=
      if whence =? SEEK_SET then Some offset
      else if whence =? SEEK_CUR then Some (s64 (s64 (f_offset f) + offset))
      else if whence =? SEEK_END then Some (s64 (s64 (p_size (priv_at s (f_private f))) + offset))
      else None in
    match target with
    | None => (- EINVAL, s)
    | Some new_offset =>
        if new_offset <? 0 then (- EINVAL, s)
        else (new_offset, set_file file (with_offset (u64 new_offset) f) s)
    end.

(** ** Dispatch *)

(** The bytes of a buffer, and a buffer filled with bytes. *)
Definition buffer_bytes (m : gmap Z Z) (buf : Z) (count : nat) : list Z :=
  map (λ i, rd m (buf + Z.of_nat i)) (seq 0 count).

Fixpoint store_bytes (buf : Z) (bs : list Z) (m : gmap Z Z) : gmap Z Z :=
  match bs with
  | [] => m
  | b :: bs => store_bytes (buf + 1) bs (wr m buf b)
  end.

(** [None] when a read from the terminal blocks for ever; [wakeups] are the
    interrupts that may end its waiting. *)
Definition vfs_read (file buf count : Z) (wakeups : list (keyboard → keyboard)) (s : fstore H) (d : devices)
    : option (Z * fstore H * devices) :=
  if file =? 0 then Some (- EBADF, s, d)
  else if Z.land (f_flags (file_at s file)) O_ACCMODE =? O_WRONLY then Some (- EBADF, s, d)
  else
    match f_ops (file_at s file) with
    | NO_OPS => Some (- EINVAL, s, d)
    | tty_ops =>
        '(bytes, _, k) ← tty_read (buf =? 0) count wakeups (d_kbd d);
        Some (Z.of_nat (length bytes), s, Devices (d_tty d) k (store_bytes buf bytes (d_mem d)) (d_ext2 d))
    | ext2_file_ops => Some (ext2_file_read file buf count s d)
    end.

Definition vfs_write (file buf count : Z) (s : fstore H) (d : devices) : Z * devices :=
  if file =? 0 then (- EBADF, d)
  else if Z.land (f_flags (file_at s file)) O_ACCMODE =? O_RDONLY then (- EBADF, d)
  else
    match f_ops (file_at s file) with
    | NO_OPS => (- EINVAL, d)
    | tty_ops =>
        let '(r, t) := tty_write font_data (f_private (file_at s file))
                         (buffer_bytes (d_mem d) buf (Z.to_nat count)) count (d_tty d) in
        (r, Devices t (d_kbd d) (d_mem d) (d_ext2 d))
    | ext2_file_ops => (ext2_file_write, d)
    end.

Definition vfs_lseek (file offset whence : Z) (s : fstore H) : Z * fstore H :=
  if file =? 0 then (- EBADF, s)
  else
    match f_ops (file_at s file) with
    | ext2_file_ops => ext2_file_lseek file offset whence s
    | _ =>
        let f := file_at s file in
        if whence =? SEEK_END then (- ESPIPE, s)
        else if negb ((whence =? SEEK_SET) || (whence =? SEEK_CUR)) then (- EINVAL, s)
        else
          let new_offset := if whence =? SEEK_SET then offset else s64 (s64 (f_offset f) + offset) in
          if new_offset <? 0 then (- EINVAL, s)
          else (new_offset, set_file file (with_offset (u64 new_offset) f) s)
    end.
End Vfs.
