(* ===== verification/Process.v ===== *)
(** * Processes ([kernel/process.c], [kernel/process.h])

    A process control block is an object behind a pointer; 0 is NULL.  Blocks
    are linked in one list of all processes through [next] and in the list of
    their parent's children through [sibling]. *)
From S2P Require Import Prelude Pmm Page Vmm Heap HeapInv HeapProps HeapSpec Alloc Kthread.
From S2P Require Import Console Keyboard Serial Terminal Ext2 Vfs.
Local Open Scope Z_scope.

Definition PROC_MAX_FDS : nat := 256.
Definition KERNEL_STACK_SIZE : Z := 16384.
Definition USER_STACK_TOP : Z := 0x800000000.
Definition USER_STACK_SIZE : Z := 0x200000.
Definition USER_STACK_BOTTOM : Z := USER_STACK_TOP - USER_STACK_SIZE.
Definition USER_MMAP_START : Z := 0x100000000.

Inductive proc_state := PROC_EMBRYO | PROC_RUNNABLE | PROC_RUNNING | PROC_SLEEPING | PROC_ZOMBIE.

#[global] Instance proc_state_eq_dec : EqDecision proc_state.
Proof. solve_decision. Defined.

Record fd_entry := FdEntry { fd_file : Z; fd_flags : Z }.

Record process := Process {
  pid : Z;
  p_name : list Z;
  p_state : proc_state;
  pml4_phys : Z;
  brk_start : Z;
  brk : Z;
  p_kthread : Z;
  kernel_stack_top : Z;
  user_rip : Z;
  user_rsp : Z;
  user_rflags : Z;
  fs_base : Z;
  gs_base : Z;
  fd_table : list fd_entry;
  p_parent : Z;
  p_children : Z;
  p_sibling : Z;
  exit_code : Z;
  wait_pid : Z;
  pending_signals : Z;
  blocked_signals : Z;
  p_next : Z;
}.

(** [sizeof(process_t)] *)
Definition sizeof_process : Z := 4312.

Definition no_fd : fd_entry := FdEntry 0 0.

(** The block after the loop that clears it. *)
Definition zero_process : process :=
  Process 0 [] PROC_EMBRYO 0 0 0 0 0 0 0 0 0 0 (replicate PROC_MAX_FDS no_fd) 0 0 0 0 0 0 0 0.

Definition set_p_state (v : proc_state) (p : process) : process :=
  Process (pid p) (p_name p) v (pml4_phys p) (brk_start p) (brk p) (p_kthread p) (kernel_stack_top p)
    (user_rip p) (user_rsp p) (user_rflags p) (fs_base p) (gs_base p) (fd_table p) (p_parent p)
    (p_children p) (p_sibling p) (exit_code p) (wait_pid p) (pending_signals p) (blocked_signals p)
    (p_next p).

Definition set_brk (v : Z) (p : process) : process :=
  Process (pid p) (p_name p) (p_state p) (pml4_phys p) (brk_start p) v (p_kthread p) (kernel_stack_top p)
    (user_rip p) (user_rsp p) (user_rflags p) (fs_base p) (gs_base p) (fd_table p) (p_parent p)
    (p_children p) (p_sibling p) (exit_code p) (wait_pid p) (pending_signals p) (blocked_signals p)
    (p_next p).

Definition set_p_kthread (v : Z) (p : process) : process :=
  Process (pid p) (p_name p) (p_state p) (pml4_phys p) (brk_start p) (brk p) v (kernel_stack_top p)
    (user_rip p) (user_rsp p) (user_rflags p) (fs_base p) (gs_base p) (fd_table p) (p_parent p)
    (p_children p) (p_sibling p) (exit_code p) (wait_pid p) (pending_signals p) (blocked_signals p)
    (p_next p).

Definition set_fs_base (v : Z) (p : process) : process :=
  Process (pid p) (p_name p) (p_state p) (pml4_phys p) (brk_start p) (brk p) (p_kthread p)
    (kernel_stack_top p) (user_rip p) (user_rsp p) (user_rflags p) v (gs_base p) (fd_table p) (p_parent p)
    (p_children p) (p_sibling p) (exit_code p) (wait_pid p) (pending_signals p) (blocked_signals p)
    (p_next p).

Definition set_gs_base (v : Z) (p : process) : process :=
  Process (pid p) (p_name p) (p_state p) (pml4_phys p) (brk_start p) (brk p) (p_kthread p)
    (kernel_stack_top p) (user_rip p) (user_rsp p) (user_rflags p) (fs_base p) v (fd_table p) (p_parent p)
    (p_children p) (p_sibling p) (exit_code p) (wait_pid p) (pending_signals p) (blocked_signals p)
    (p_next p).

Definition set_fd_table (v : list fd_entry) (p : process) : process :=
  Process (pid p) (p_name p) (p_state p) (pml4_phys p) (brk_start p) (brk p) (p_kthread p)
    (kernel_stack_top p) (user_rip p) (user_rsp p) (user_rflags p) (fs_base p) (gs_base p) v (p_parent p)
    (p_children p) (p_sibling p) (exit_code p) (wait_pid p) (pending_signals p) (blocked_signals p)
    (p_next p).

Definition set_p_parent (v : Z) (p : process) : process :=
  Process (pid p) (p_name p) (p_state p) (pml4_phys p) (brk_start p) (brk p) (p_kthread p)
    (kernel_stack_top p) (user_rip p) (user_rsp p) (user_rflags p) (fs_base p) (gs_base p) (fd_table p) v
    (p_children p) (p_sibling p) (exit_code p) (wait_pid p) (pending_signals p) (blocked_signals p)
    (p_next p).

Definition set_p_children (v : Z) (p : process) : process :=
  Process (pid p) (p_name p) (p_state p) (pml4_phys p) (brk_start p) (brk p) (p_kthread p)
    (kernel_stack_top p) (user_rip p) (user_rsp p) (user_rflags p) (fs_base p) (gs_base p) (fd_table p)
    (p_parent p) v (p_sibling p) (exit_code p) (wait_pid p) (pending_signals p) (blocked_signals p)
    (p_next p).

Definition set_p_sibling (v : Z) (p : process) : process :=
  Process (pid p) (p_name p) (p_state p) (pml4_phys p) (brk_start p) (brk p) (p_kthread p)
    (kernel_stack_top p) (user_rip p) (user_rsp p) (user_rflags p) (fs_base p) (gs_base p) (fd_table p)
    (p_parent p) (p_children p) v (exit_code p) (wait_pid p) (pending_signals p) (blocked_signals p)
    (p_next p).

Definition set_exit_code (v : Z) (p : process) : process :=
  Process (pid p) (p_name p) (p_state p) (pml4_phys p) (brk_start p) (brk p) (p_kthread p)
    (kernel_stack_top p) (user_rip p) (user_rsp p) (user_rflags p) (fs_base p) (gs_base p) (fd_table p)
    (p_parent p) (p_children p) (p_sibling p) v (wait_pid p) (pending_signals p) (blocked_signals p)
    (p_next p).

Definition set_wait_pid (v : Z) (p : process) : process :=
  Process (pid p) (p_name p) (p_state p) (pml4_phys p) (brk_start p) (brk p) (p_kthread p)
    (kernel_stack_top p) (user_rip p) (user_rsp p) (user_rflags p) (fs_base p) (gs_base p) (fd_table p)
    (p_parent p) (p_children p) (p_sibling p) (exit_code p) v (pending_signals p) (blocked_signals p)
    (p_next p).

Definition set_p_next (v : Z) (p : process) : process :=
  Process (pid p) (p_name p) (p_state p) (pml4_phys p) (brk_start p) (brk p) (p_kthread p)
    (kernel_stack_top p) (user_rip p) (user_rsp p) (user_rflags p) (fs_base p) (gs_base p) (fd_table p)
    (p_parent p) (p_children p) (p_sibling p) (exit_code p) (wait_pid p) (pending_signals p)
    (blocked_signals p) v.

(** ** The state of the kernel

    Processor state a process switch loads: the two segment-base registers,
    the kernel stack pointers of the task segment and of the per-CPU data, and
    the root of the page tables. *)
Record cpu := Cpu {
  msr_fs_base : Z;
  msr_kernel_gs_base : Z;
  tss_rsp0 : Z;
  kernel_rsp : Z;
  cr3 : Z;
}.

Record os (H : Type) := Os {
  o_fs : fstore H;
  o_k : kmem;
  o_sched : sched;
  o_cpu : cpu;
  procs : gmap Z process;
  process_list : Z;
  current_proc : Z;
  next_pid : Z;
  init_process : Z;
}.
Arguments Os {H} _ _ _ _ _ _ _ _ _.
Arguments o_fs {H} _.
Arguments o_k {H} _.
Arguments o_sched {H} _.
Arguments o_cpu {H} _.
Arguments procs {H} _.
Arguments process_list {H} _.
Arguments current_proc {H} _.
Arguments next_pid {H} _.
Arguments init_process {H} _.

Section Processes.
Context {H : Type} `{!Allocator H}.

Definition proc (s : os H) (p : Z) : process := default zero_process (procs s !! p).

Definition set_fs (fs : fstore H) (s : os H) : os H :=
  Os fs (o_k s) (o_sched s) (o_cpu s) (procs s) (process_list s) (current_proc s) (next_pid s) (init_process s).

Definition set_k (k : kmem) (s : os H) : os H :=
  Os (o_fs s) k (o_sched s) (o_cpu s) (procs s) (process_list s) (current_proc s) (next_pid s) (init_process s).

Definition set_sched (sc : sched) (s : os H) : os H :=
  Os (o_fs s) (o_k s) sc (o_cpu s) (procs s) (process_list s) (current_proc s) (next_pid s) (init_process s).

Definition set_cpu (c : cpu) (s : os H) : os H :=
  Os (o_fs s) (o_k s) (o_sched s) c (procs s) (process_list s) (current_proc s) (next_pid s) (init_process s).

Definition set_procs (m : gmap Z process) (s : os H) : os H :=
  Os (o_fs s) (o_k s) (o_sched s) (o_cpu s) m (process_list s) (current_proc s) (next_pid s) (init_process s).

Definition set_list (l : Z) (s : os H) : os H :=
  Os (o_fs s) (o_k s) (o_sched s) (o_cpu s) (procs s) l (current_proc s) (next_pid s) (init_process s).

Definition set_current_proc (p : Z) (s : os H) : os H :=
  Os (o_fs s) (o_k s) (o_sched s) (o_cpu s) (procs s) (process_list s) p (next_pid s) (init_process s).

Definition set_init (p : Z) (s : os H) : os H :=
  Os (o_fs s) (o_k s) (o_sched s) (o_cpu s) (procs s) (process_list s) (current_proc s) (next_pid s) p.

Definition set_heap (h : H) (s : os H) : os H := set_fs (Fstore h (files (o_fs s)) (privs (o_fs s))) s.

Definition pupd (p : Z) (f : process → process) (s : os H) : os H := set_procs (<[p := f (proc s p)]> (procs s)) s.

Definition kmalloc_os (size : Z) (s : os H) : Z * os H :=
  let '(p, h) := a_malloc size (fs_heap (o_fs s)) in (p, set_heap h s).

Definition kfree_os (p : Z) (s : os H) : os H := set_heap (a_free p (fs_heap (o_fs s))) s.

Definition process_init (s : os H) : os H := Os (o_fs s) (o_k s) (o_sched s) (o_cpu s) (procs s) 0 0 1 0.

Definition process_allocate_pid (s : os H) : Z * os H :=
  (next_pid s, Os (o_fs s) (o_k s) (o_sched s) (o_cpu s) (procs s) (process_list s) (current_proc s)
                 (u64 (next_pid s + 1)) (init_process s)).

(** ** Creation *)

(** The three standard descriptors; [terminal] is the active terminal. *)
Definition open_stdio (terminal : Z) (s : os H) : list fd_entry * os H :=
  let '(f0, fs) := tty_open O_RDONLY terminal (o_fs s) in
  let '(f1, fs) := tty_open O_WRONLY terminal fs in
  let '(f2, fs) := tty_open O_WRONLY terminal fs in
  (FdEntry f0 0 :: FdEntry f1 0 :: FdEntry f2 0 :: replicate (PROC_MAX_FDS - 3) no_fd, set_fs fs s).

(** Links of a new block: first in its parent's list and in the global list. *)
Definition link_child (p parent : Z) (s : os H) : os H :=
  if negb (parent =? 0)
  then pupd parent (set_p_children p) (pupd p (set_p_sibling (p_children (proc s parent))) s)
  else s.

Definition process_add (p : Z) (s : os H) : os H :=
  if negb (p =? 0) then set_list p (pupd p (set_p_next (process_list s)) s) else s.

(** NULL or the new block; halts where [vmm_create_address_space] does. *)
Definition process_create (name : list Z) (terminal : Z) (s : os H) : outcome (Z * os H) :=
  let '(p, s) := kmalloc_os sizeof_process s in
  if p =? 0 then Done (0, s)
  else
    let '(id, s) := process_allocate_pid s in
    let s := if id =? 1 then set_init p s else s in
    let '(kernel_stack, s) := kmalloc_os KERNEL_STACK_SIZE s in
    if kernel_stack =? 0 then Done (0, kfree_os p s)
    else
      match vmm_create_address_space (o_k s) with
      | Halted => Halted
      | Done (root, k) =>
          let s := set_k k s in
          if root =? 0 then Done (0, kfree_os p (kfree_os kernel_stack s))
          else
            let '(fds, s) := open_stdio terminal s in
            let parent := current_proc s in
            let s := set_procs (<[p := Process id (take 63 name) PROC_EMBRYO root 0 0 0
                       (u64 (kernel_stack + KERNEL_STACK_SIZE)) 0 0 0 0 0 fds parent 0 0 0 (-1) 0 0 0]> (procs s)) s in
            Done (p, process_add p (link_child p parent s))
      end.

(** ** Destruction *)

Definition chain_fuel (s : os H) : nat := S (size (procs s)).

(** The loop over [&prev->link]: the pointer that leads to [p] is made to
    skip it. *)
Fixpoint unlink_after (link : process → Z) (set_link : Z → process → process) (fuel : nat) (prev p : Z)
    (s : os H) : os H :=
  match fuel with
  | O => s
  | S fuel' =>
      let cur := link (proc s prev) in
      if cur =? 0 then s
      else if cur =? p then pupd prev (set_link (link (proc s p))) s
      else unlink_after link set_link fuel' cur p s
  end.

Definition unlink_child (p : Z) (s : os H) : os H :=
  let parent := p_parent (proc s p) in
  if negb (parent =? 0) then
    let head := p_children (proc s parent) in
    if head =? 0 then s
    else if head =? p then pupd parent (set_p_children (p_sibling (proc s p))) s
    else unlink_after p_sibling set_p_sibling (chain_fuel s) head p s
  else s.

Definition unlink_process (p : Z) (s : os H) : os H :=
  let head := process_list s in
  if head =? 0 then s
  else if head =? p then set_list (p_next (proc s p)) s
  else unlink_after p_next set_p_next (chain_fuel s) head p s.

(** Close the open descriptors of a table, in order. *)
Definition close_fd (e : fd_entry) (fs : fstore H) : fd_entry * fstore H :=
  if negb (fd_file e =? 0) then (FdEntry 0 (fd_flags e), (vfs_close (fd_file e) fs).2) else (e, fs).

Fixpoint close_fds (fds : list fd_entry) (fs : fstore H) : list fd_entry * fstore H :=
  match fds with
  | [] => ([], fs)
  | e :: fds =>
      let '(e, fs) := close_fd e fs in
      let '(fds, fs) := close_fds fds fs in
      (e :: fds, fs)
  end.

Definition close_all (p : Z) (s : os H) : os H :=
  let '(fds, fs) := close_fds (fd_table (proc s p)) (o_fs s) in
  pupd p (set_fd_table fds) (set_fs fs s).

(** The thread, the address space, the stack and the block of [p]. *)
Definition release_process (p : Z) (s : os H) : os H :=
  let kt := p_kthread (proc s p) in
  let s := if negb (kt =? 0)
           then pupd p (set_p_kthread 0) (set_sched (set_state kt THREAD_EXITED (o_sched s)) s) else s in
  let root := pml4_phys (proc s p) in
  let s := if negb (root =? 0) then set_k (vmm_free_user_address_space root (o_k s)) s else s in
  let top := kernel_stack_top (proc s p) in
  let s := if negb (top =? 0) then kfree_os (u64 (top - KERNEL_STACK_SIZE)) s else s in
  let s := kfree_os p s in
  set_procs (delete p (procs s)) s.

Definition process_destroy (p : Z) (s : os H) : os H :=
  if p =? 0 then s else release_process p (close_all p (unlink_process p (unlink_child p s))).

(** ** Lookup and switching *)

Fixpoint find_pid (fuel : nat) (id p : Z) (s : os H) : Z :=
  match fuel with
  | O => 0
  | S fuel' => if p =? 0 then 0 else if pid (proc s p) =? id then p else find_pid fuel' id (p_next (proc s p)) s
  end.

Definition process_find (id : Z) (s : os H) : Z := find_pid (chain_fuel s) id (process_list s) s.

Definition process_current (s : os H) : Z := current_proc s.

Definition process_list_head (s : os H) : Z := process_list s.

Definition process_set_current (p : Z) (s : os H) : os H :=
  let s := set_current_proc p s in
  if negb (p =? 0) then
    let c := o_cpu s in
    set_cpu (Cpu (msr_fs_base c) (msr_kernel_gs_base c) (tss_rsp0 c) (kernel_stack_top (proc s p)) (cr3 c)) s
  else s.

(** Bits 63 to 48 sign-extend bit 47. *)
Definition canonical_addr (a : Z) : bool := Z.shiftr (s64 (u64 (Z.shiftl a 16))) 16 =? s64 a.

Definition canonical_or_0 (a : Z) : Z := if canonical_addr a then a else 0.

Definition process_switch (next : Z) (s : os H) : os H :=
  let prev := current_proc s in
  if (next =? 0) || (next =? prev) then s
  else
    let n := proc s next in
    let root := if (prev =? 0) || negb (pml4_phys n =? pml4_phys (proc s prev))
                then pml4_phys n else cr3 (o_cpu s) in
    let c := Cpu (canonical_or_0 (fs_base n)) (canonical_or_0 (gs_base n)) (kernel_stack_top n)
               (kernel_stack_top n) root in
    set_current_proc next (set_cpu c s).

(** ** Exit *)

(** The loop that hands the children to init, one per round. *)
Fixpoint reparent (fuel : nat) (p : Z) (s : os H) : os H :=
  match fuel with
  | O => s
  | S fuel' =>
      let child := p_children (proc s p) in
      if negb (child =? 0) then
        let init := init_process s in
        let s := pupd p (set_p_children (p_sibling (proc s child))) s in
        let s := pupd child (set_p_parent init) s in
        let s := pupd child (set_p_sibling (p_children (proc s init))) s in
        reparent fuel' p (pupd init (set_p_children child) s)
      else s
  end.

Definition wake_parent (p : Z) (s : os H) : os H :=
  let parent := p_parent (proc s p) in
  if negb (parent =? 0) && bool_decide (p_state (proc s parent) = PROC_SLEEPING) &&
     ((wait_pid (proc s parent) =? -1) || (wait_pid (proc s parent) =? s32 (pid (proc s p))))
  then pupd parent (set_p_state PROC_RUNNABLE) s else s.

(** The state in which the exiting process waits for ever. *)
Definition process_exit (status : Z) (s : os H) : os H :=
  let p := current_proc s in
  if p =? 0 then s
  else
    let s := pupd p (set_exit_code status) s in
    let s := if negb (init_process s =? 0) && negb (p =? init_process s)
             then reparent (chain_fuel s) p s else s in
    wake_parent p (pupd p (set_p_state PROC_ZOMBIE) s).

(** ** Descriptors *)

Fixpoint first_free (i : Z) (fds : list fd_entry) : Z :=
  match fds with
  | [] => -1
  | e :: fds => if fd_file e =? 0 then i else first_free (i + 1) fds
  end.

Definition process_fd_alloc (p : Z) (s : os H) : Z := first_free 0 (fd_table (proc s p)).

Definition set_fd (p fd : Z) (e : fd_entry) (s : os H) : os H :=
  pupd p (set_fd_table (<[Z.to_nat fd := e]> (fd_table (proc s p)))) s.

Definition process_fd_free (p fd : Z) (s : os H) : os H :=
  if (0 <=? fd) && (fd <? Z.of_nat PROC_MAX_FDS) then set_fd p fd no_fd s else s.
End Processes.
