(* ===== verification/MemSys.v ===== *)
(** * Memory system calls ([sys_brk], [sys_mmap] and [sys_munmap] of
    [arch/x86/kernel/syscall.c])

    [mmap_next] is the static variable of [sys_mmap]: where the next mapping
    without a fixed address goes, in any process. *)
From S2P Require Import Prelude Pmm Page Vmm VmmWalk VmmMap VmmProps UserMem.
From S2P Require Import Heap HeapInv HeapProps HeapSpec Alloc Kthread Vfs Process.
Local Open Scope Z_scope.

Definition PROT_WRITE : Z := 2.
Definition PROT_EXEC : Z := 4.
Definition MAP_FIXED : Z := 0x10.
Definition MAP_ANONYMOUS : Z := 0x20.

(** Pages that cover [n] bytes, in 64-bit arithmetic. *)
Definition pages_of (n : Z) : Z := u64 (n + PAGE_SIZE - 1) / PAGE_SIZE.

(** ** mmap *)

Definition mmap_flags (prot : Z) : Z :=
  let f := Z.lor PTE_PRESENT PTE_USER in
  let f := if negb (Z.land prot PROT_WRITE =? 0) then Z.lor f PTE_WRITABLE else f in
  if Z.land prot PROT_EXEC =? 0 then Z.lor f PTE_NX else f.

(** The loop that unmaps the first [n] pages after a failure. *)
Definition mmap_rollback (root map_addr : Z) (n : nat) (k : kmem) : kmem :=
  for_loop n 0 (λ j k, rollback_user_page root (u64 (map_addr + j * PAGE_SIZE)) k) k.

(** [inr] is the early return. *)
Definition mmap_pages (root map_addr flags : Z) (n : nat) (k : kmem) : kmem + kmem :=
  for_until n 0 (λ i k,
    let '(r, k) := map_user_page root (u64 (map_addr + i * PAGE_SIZE)) flags k in
    if r <? 0 then inr (mmap_rollback root map_addr (Z.to_nat i) k) else inl k) k.

(** Where the mapping goes, with the next [mmap_next]; [None] for a fixed
    address that is not a page boundary. *)
Definition mmap_place (addr flags num_pages mmap_next : Z) : option (Z * Z) :=
  if negb (addr =? 0) && tst flags MAP_FIXED then
    if tst addr (PAGE_SIZE - 1) then None else Some (addr, mmap_next)
  else Some (mmap_next, u64 (mmap_next + u64 (num_pages * PAGE_SIZE))).

(** [root] is the page-table root of the current process, if there is one. *)
Definition sys_mmap (root : option Z) (addr len prot flags fd : Z) (mmap_next : Z) (k : kmem) : Z * Z * kmem :=
  match root with
  | None => (- ESRCH, mmap_next, k)
  | Some root =>
      if len =? 0 then (- EINVAL, mmap_next, k)
      else if negb (tst flags MAP_ANONYMOUS) || negb (s64 fd =? -1) then (- ENOSYS, mmap_next, k)
      else
        let num_pages := pages_of len in
        match mmap_place addr flags num_pages mmap_next with
        | None => (- EINVAL, mmap_next, k)
        | Some (map_addr, mmap_next) =>
            match mmap_pages root map_addr (mmap_flags prot) (Z.to_nat num_pages) k with
            | inl k => (s64 map_addr, mmap_next, k)
            | inr k => (- ENOMEM, mmap_next, k)
            end
        end
  end.

(** ** munmap *)

Definition munmap_pages (root addr : Z) (n : nat) (k : kmem) : kmem :=
  for_loop n 0 (λ i k, unmap_user_page root (u64 (addr + i * PAGE_SIZE)) k) k.

Definition sys_munmap (root : option Z) (addr len : Z) (k : kmem) : Z * kmem :=
  match root with
  | None => (- ESRCH, k)
  | Some root =>
      if tst addr (PAGE_SIZE - 1) then (- EINVAL, k)
      else if len =? 0 then (- EINVAL, k)
      else (0, munmap_pages root addr (Z.to_nat (pages_of len)) k)
  end.

(** ** brk *)

Definition brk_flags : Z := Z.lor (Z.lor PTE_PRESENT PTE_WRITABLE) PTE_USER.

(** The loop over the new pages; [inr] is the early return, after which the
    pages mapped so far stay. *)
Definition brk_grow (root old_pages new_pages : Z) (k : kmem) : kmem + kmem :=
  for_until (Z.to_nat (new_pages - old_pages)) old_pages (λ page k,
    let '(r, k) := map_user_page root (u64 (page * PAGE_SIZE)) brk_flags k in
    if r <? 0 then inr k else inl k) k.

Definition brk_shrink (root new_pages old_pages : Z) (k : kmem) : kmem :=
  for_loop (Z.to_nat (old_pages - new_pages)) new_pages (λ page k,
    unmap_user_page root (u64 (page * PAGE_SIZE)) k) k.

(** The process is [None] when there is no current process. *)
Definition sys_brk (brk_arg : Z) (p : option process) (k : kmem) : Z * option process * kmem :=
  match p with
  | None => (- ESRCH, None, k)
  | Some p =>
      if brk_arg =? 0 then (s64 (brk p), Some p, k)
      else if brk_arg <? brk_start p then (s64 (brk p), Some p, k)
      else
        let old_pages := pages_of (brk p) in
        let new_pages := pages_of brk_arg in
        if old_pages <? new_pages then
          match brk_grow (pml4_phys p) old_pages new_pages k with
          | inl k => (s64 brk_arg, Some (set_brk brk_arg p), k)
          | inr k => (s64 (brk p), Some p, k)
          end
        else
          let k := if new_pages <? old_pages then brk_shrink (pml4_phys p) new_pages old_pages k else k in
          (s64 brk_arg, Some (set_brk brk_arg p), k)
  end.
