(* ===== verification/MemSysProps.v ===== *)
(** * Ranges of user pages

    What the loops of the memory system calls do to a range of pages. *)
From S2P Require Import Prelude Heap HeapInv HeapProps HeapSpec Alloc Kthread Vfs Process.
From S2P Require Import Pmm Page Vmm VmmWalk VmmMap VmmProps VmmCow UserMem MemSys.
Local Open Scope Z_scope.

Lemma same_page_offsets a i j :
  a mod 4096 = 0 → 0 ≤ a + i * 4096 < USER_SPACE_TOP → 0 ≤ a + j * 4096 < USER_SPACE_TOP →
  same_page (a + i * 4096) (a + j * 4096) → i = j.
Proof. unfold same_page, USER_SPACE_TOP. change (2 ^ 36) with 68719476736. intros. zdm. Qed.

(** Memory that is neither a table nor free stays through both steps. *)
Lemma untouched_trans I root k0 k k' :
  space_wf I root k → untouched I root k0 k → free_set (k_pmm k) ⊆ free_set (k_pmm k0) →
  (∀ p t, path_ok I p → walk (k_mem k) root p = Some t →
     walk (k_mem k0) root p = Some t ∨ (t / 4096) ∈ free_set (k_pmm k0)) →
  untouched I root k k' → untouched I root k0 k'.
Proof.
  intros Hwf Hu Hf Ht Hu' x Hx Hxf. rewrite Hu'; [by apply Hu| |set_solver].
  intros (p & t & i & (Hp & Hi & Hh) & Hw & ->). destruct (Ht p t Hp Hw) as [Hw0|Hin].
  - apply Hx. by exists p, t, i.
  - apply Hxf. rewrite slot_page; [done|by eapply table_aligned|done].
Qed.

Section Range.
Context (root flags a : Z) (N : nat) (k0 : kmem).
Hypothesis Ho0 : space_own user_half root k0.
Hypothesis Ha : a mod 4096 = 0.
Hypothesis Hrange : 0 ≤ a ∧ a + Z.of_nat N * 4096 ≤ USER_SPACE_TOP.
Hypothesis Hfm : Z.land flags PTE_ADDR_MASK = 0.
Hypothesis Hfp : tst flags PTE_PRESENT = true.
Hypothesis Hunmapped : ∀ j, 0 ≤ j < Z.of_nat N → pte_at root (a + j * 4096) k0 = None.

#[local] Abbreviation page j := (a + j * 4096).

Lemma page_user j : 0 ≤ j < Z.of_nat N → user_half (PML4_INDEX (page j)).
Proof. intros. apply user_half_addr. lia. Qed.

Lemma page_u64 j : 0 ≤ j < Z.of_nat N → u64 (page j) = page j.
Proof. intros. apply u64_small. unfold USER_SPACE_TOP in Hrange. lia. Qed.

Lemma page_inj i j : 0 ≤ i < Z.of_nat N → 0 ≤ j < Z.of_nat N → same_page (page i) (page j) → i = j.
Proof. intros. apply (same_page_offsets a i j); [done|lia|lia|done]. Qed.

(** Pages [lo] to [hi] of the range are mapped to cleared pages that were free
    before; everything else is as in [k0]. *)
Record span (lo hi : Z) (k : kmem) : Prop := {
  sp_own : space_own user_half root k;
  sp_pages : ∀ j, lo ≤ j < hi → ∃ x, x ∈ free_set (k_pmm k0) ∧ 0 < x ∧
    pte_at root (page j) k = Some (Z.lor (x * 4096) flags) ∧ frame (Z.lor (x * 4096) flags) = x * 4096 ∧
    (∀ o, 0 ≤ o < 4096 → o mod 8 = 0 → rd (k_mem k) (x * 4096 + o) = 0);
  sp_others : ∀ vb, user_half (PML4_INDEX vb) → (∀ j, lo ≤ j < hi → ¬ same_page (page j) vb) →
    pte_at root vb k = pte_at root vb k0;
  sp_untouched : untouched user_half root k0 k;
  sp_free : free_set (k_pmm k) ⊆ free_set (k_pmm k0);
  sp_origin : ∀ p t, path_ok user_half p → walk (k_mem k) root p = Some t →
    walk (k_mem k0) root p = Some t ∨ (t / 4096) ∈ free_set (k_pmm k0);
  sp_account : ∀ x, x ∈ free_set (k_pmm k0) → x ∈ free_set (k_pmm k) ∨
    (∃ j e, lo ≤ j < hi ∧ pte_at root (page j) k = Some e ∧ frame e = x * 4096) ∨
    (∃ q, path_ok user_half q ∧ walk (k_mem k) root q = Some (x * 4096));
  sp_rest : k_refs k = k_refs k0 ∧ kernel_pml4_phys k = kernel_pml4_phys k0 ∧
    total_pages (k_pmm k) = total_pages (k_pmm k0);
}.

Lemma span_empty i : span i i k0.
Proof.
  split; try done.
  - lia.
  - by left.
  - by left.
Qed.

(** The words of a mapped page survive a step that leaves it alone. *)
Lemma span_word k k' j e o :
  space_own user_half root k → untouched user_half root k k' → 0 ≤ j < Z.of_nat N →
  pte_at root (page j) k = Some e → 0 ≤ o < 4096 → rd (k_mem k') (frame e + o) = rd (k_mem k) (frame e + o).
Proof.
  intros Ho Hu Hj He Hof. destruct (frame_not_slot user_half root k (page j) e o Ho (page_user j Hj) He Hof).
  by apply Hu.
Qed.

Lemma span_map lo i k k' :
  0 ≤ lo ≤ i → i < Z.of_nat N → span lo i k → mapped_fresh user_half root (page i) flags k k' → span lo (i + 1) k'.
Proof.
  intros Hlo Hi Hsp Hm. pose proof (mf_step _ _ _ _ _ _ Hm) as Hst.
  destruct (mf_frame _ _ _ _ _ _ Hm) as (n & Hn & Hpos & Hpte & Hnm & Hz & Hacc).
  assert (frame (Z.lor (n * 4096) flags) = n * 4096) as Hfr
    by (unfold frame; rewrite <- Hnm at 1; by rewrite land_lor_flags).
  assert (∀ j, lo ≤ j < i → pte_at root (page j) k' = pte_at root (page j) k) as Hold.
  { intros j Hj. apply (mf_others _ _ _ _ _ _ Hm); [apply page_user; lia|]. intros E%page_inj; lia. }
  split.
  - apply Hm.
  - intros j Hj. destruct (decide (j = i)) as [->|].
    + exists n. split_and!; try done. by apply (sp_free _ _ _ Hsp).
    + destruct (sp_pages _ _ _ Hsp j ltac:(lia)) as (x & Hx & Hxp & He & Hxf & Hxz).
      exists x. rewrite Hold by lia. split_and!; try done. intros o Hof Ho8. rewrite <- (Hxz o Hof Ho8), <- Hxf.
      apply (span_word k k' j); [apply Hsp|apply Hst|lia|done|done].
  - intros vb HIb Hb. rewrite (mf_others _ _ _ _ _ _ Hm); [|done|apply Hb; lia].
    apply (sp_others _ _ _ Hsp); [done|]. intros j Hj. apply Hb. lia.
  - eapply (untouched_trans _ _ _ k); [apply Hsp|apply Hsp|apply Hsp|apply Hsp|apply Hst].
  - etrans; [apply Hst|apply Hsp].
  - intros p t Hp Hw. destruct (rs_tables _ _ _ _ Hst p t Hp Hw) as [Hw1|Hin]; [by apply (sp_origin _ _ _ Hsp)|].
    right. by apply (sp_free _ _ _ Hsp).
  - intros x [Hx|[(j & e & Hj & He & Hf)|(q & Hq & Hw)]]%(sp_account _ _ _ Hsp).
    + destruct (Hacc x Hx) as [|[->|]]; [by left| |by right; right].
      right. left. exists i, (Z.lor (n * 4096) flags). split_and!; [lia|lia|done|done].
    + right. left. exists j, e. rewrite Hold by lia. split_and!; [lia|lia|done|done].
    + right. right. exists q. split; [done|]. by apply (mf_tables _ _ _ _ _ _ Hm).
  - destruct (sp_rest _ _ _ Hsp) as (E1 & E2 & E3), (mf_rest _ _ _ _ _ _ Hm) as (E4 & E5).
    rewrite E4, E5, (rs_total _ _ _ _ Hst). done.
Qed.

Lemma span_failed lo hi k k' :
  0 ≤ lo → hi ≤ Z.of_nat N → span lo hi k → map_failed user_half root k k' → span lo hi k'.
Proof.
  intros Hlo Hhi Hsp Hf. pose proof (fl_step _ _ _ _ Hf) as Hst. pose proof (fl_same _ _ _ _ Hf) as Hsame. split.
  - apply Hf.
  - intros j Hj. destruct (sp_pages _ _ _ Hsp j Hj) as (x & Hx & Hxp & He & Hxf & Hxz).
    exists x. rewrite Hsame by (apply page_user; lia). split_and!; try done. intros o Hof Ho8.
    rewrite <- (Hxz o Hof Ho8), <- Hxf. apply (span_word k k' j); [apply Hsp|apply Hst|lia|done|done].
  - intros vb HIb Hb. rewrite Hsame by done. by apply (sp_others _ _ _ Hsp).
  - eapply (untouched_trans _ _ _ k); [apply Hsp|apply Hsp|apply Hsp|apply Hsp|apply Hst].
  - etrans; [apply Hst|apply Hsp].
  - intros p t Hp Hw. destruct (rs_tables _ _ _ _ Hst p t Hp Hw) as [Hw1|Hin]; [by apply (sp_origin _ _ _ Hsp)|].
    right. by apply (sp_free _ _ _ Hsp).
  - intros x [Hx|[(j & e & Hj & He & Hfe)|(q & Hq & Hw)]]%(sp_account _ _ _ Hsp).
    + left. by rewrite (fl_free _ _ _ _ Hf).
    + right. left. exists j, e. rewrite Hsame by (apply page_user; lia). done.
    + right. right. exists q. split; [done|]. by apply (fl_tables _ _ _ _ Hf).
  - destruct (sp_rest _ _ _ Hsp) as (E1 & E2 & E3), (fl_rest _ _ _ _ Hf) as (E4 & E5).
    rewrite E4, E5, (rs_total _ _ _ _ Hst). done.
Qed.

Lemma span_unmap lo hi k k' :
  0 ≤ lo < hi → hi ≤ Z.of_nat N → span lo hi k → unmapped user_half root (page lo) k k' → span (lo + 1) hi k'.
Proof.
  intros Hlo Hhi Hsp Hu. pose proof (un_tables _ _ _ _ _ Hu) as Htab.
  destruct (sp_pages _ _ _ Hsp lo ltac:(lia)) as (y & Hy & Hyp & Hey & Hyf & _).
  assert (free_set (k_pmm k') = {[y]} ∪ free_set (k_pmm k)) as Hfree.
  { by rewrite (un_free _ _ _ _ _ Hu), Hey, Hyf, Z.div_mul by lia. }
  assert (∀ j, lo + 1 ≤ j < hi → pte_at root (page j) k' = pte_at root (page j) k) as Hold.
  { intros j Hj. apply (un_others _ _ _ _ _ Hu); [apply page_user; lia|]. intros E%page_inj; lia. }
  split.
  - apply Hu.
  - intros j Hj. destruct (sp_pages _ _ _ Hsp j ltac:(lia)) as (x & Hx & Hxp & He & Hxf & Hxz).
    exists x. rewrite Hold by done. split_and!; try done. intros o Hof Ho8.
    rewrite <- (Hxz o Hof Ho8), <- Hxf. apply (span_word k k' j); [apply Hsp|apply Hu|lia|done|done].
  - intros vb HIb Hb. destruct (decide (same_page (page lo) vb)) as [E|Hne].
    + rewrite <- (same_page_pte _ _ _ k' E), <- (same_page_pte _ _ _ k0 E), Hunmapped by lia. apply Hu.
    + rewrite (un_others _ _ _ _ _ Hu) by done. apply (sp_others _ _ _ Hsp); [done|]. intros j Hj.
      destruct (decide (j = lo)) as [->|]; [done|]. apply Hb. lia.
  - eapply (untouched_trans _ _ _ k); [apply Hsp|apply Hsp|apply Hsp|apply Hsp|apply Hu].
  - rewrite Hfree. pose proof (sp_free _ _ _ Hsp). set_solver.
  - intros p t Hp Hw. rewrite Htab in Hw by done. by apply (sp_origin _ _ _ Hsp).
  - intros x [Hx|[(j & e & Hj & He & Hfe)|(q & Hq & Hw)]]%(sp_account _ _ _ Hsp).
    + left. set_solver.
    + destruct (decide (j = lo)) as [->|].
      * left. rewrite Hey in He. injection He as <-. rewrite Hyf in Hfe. assert (x = y) as -> by lia. set_solver.
      * right. left. exists j, e. rewrite Hold by lia. split_and!; [lia|lia|done|done].
    + right. right. exists q. by rewrite Htab.
  - destruct (sp_rest _ _ _ Hsp) as (E1 & E2 & E3), (un_rest _ _ _ _ _ Hu) as (E4 & E5 & E6).
    by rewrite E4, E5, E6.
Qed.

(** ** The loops of mmap *)

Lemma rollback_ok n k : (n ≤ N)%nat → span 0 (Z.of_nat n) k →
  span (Z.of_nat n) (Z.of_nat n) (mmap_rollback root a n k).
Proof.
  intros Hn Hsp. unfold mmap_rollback.
  apply (for_loop_ind (λ j k, span j (Z.of_nat n) k) n 0); [done|].
  intros j k' Hj Hk'. change PAGE_SIZE with 4096. rewrite page_u64 by lia.
  apply (span_unmap j (Z.of_nat n) k'); [lia|lia|done|].
  destruct (sp_pages _ _ _ Hk' j ltac:(lia)) as (x & _ & _ & He & _).
  rewrite (rollback_mapped user_half root _ k' (sp_own _ _ _ Hk') (page_user j ltac:(lia)) _ He).
  apply unmap_user_page_ok; [apply Hk'|apply page_user; lia].
Qed.

(** With four pages for each page of the range the loop runs to its end. *)
Lemma mmap_pages_ok :
  match mmap_pages root a flags N k0 with
  | inl k => span 0 (Z.of_nat N) k
  | inr k => (available k0 < 4 * N)%nat ∧ ∃ i, span i i k
  end.
Proof.
  assert (match mmap_pages root a flags N k0 with
    | inl k => span 0 (Z.of_nat N) k ∧ (available k0 ≤ 4 * Z.to_nat (Z.of_nat N) + available k)%nat
    | inr k => (available k0 < 4 * N)%nat ∧ ∃ i, span i i k end) as Hres; [|by destruct (mmap_pages _ _ _ _ _); [apply Hres|]].
  apply (for_until_ind (λ i k, span 0 i k ∧ (available k0 ≤ 4 * Z.to_nat i + available k)%nat)
    (λ k, (available k0 < 4 * N)%nat ∧ ∃ i, span i i k) N 0); [split; [apply span_empty|lia]|].
  intros i k Hi [Hsp Hav]. change PAGE_SIZE with 4096. rewrite page_u64 by lia.
  destruct (map_user_page_cases user_half root (page i) flags k (sp_own _ _ _ Hsp) (page_user i ltac:(lia)) Hfm Hfp)
    as [(k' & -> & Hm)|(r & k' & -> & Hr & Hfew & Hf)].
  - pose proof (mf_available _ _ _ _ _ _ Hm). split; [|rewrite Z2Nat.inj_add by lia; lia].
    apply (span_map 0 i k k'); [lia|lia|done|done].
  - assert ((r <? 0) = true) as -> by lia. split; [lia|]. exists i.
    pose proof (rollback_ok (Z.to_nat i) k' ltac:(lia)) as Hrb. rewrite Z2Nat.id in Hrb by lia. apply Hrb.
    apply (span_failed 0 i k k'); [lia|lia|done|done].
Qed.

(** ** The growing loop of brk

    It starts at the page whose number is [a / 4096]; after a failure the
    pages mapped so far stay. *)
Lemma brk_grow_ok :
  flags = brk_flags →
  match brk_grow root (a / 4096) (a / 4096 + Z.of_nat N) k0 with
  | inl k => span 0 (Z.of_nat N) k
  | inr k => (available k0 < 4 * N)%nat ∧ ∃ i, 0 ≤ i < Z.of_nat N ∧ span 0 i k
  end.
Proof.
  intros Efl. set (b := a / 4096). assert (a = b * 4096) as Eab by (unfold b; zdm).
  assert (match brk_grow root b (b + Z.of_nat N) k0 with
    | inl k => span 0 (b + Z.of_nat N - b) k ∧ Z.of_nat (available k0) ≤ 4 * (b + Z.of_nat N - b) + Z.of_nat (available k)
    | inr k => (available k0 < 4 * N)%nat ∧ ∃ i, 0 ≤ i < Z.of_nat N ∧ span 0 i k end) as Hres;
    [|rewrite Z.add_simpl_l in Hres; by destruct (brk_grow _ _ _ _); [apply Hres|]].
  assert (Z.to_nat (b + Z.of_nat N - b) = N) as En by lia. unfold brk_grow. rewrite En.
  apply (for_until_ind (λ p k, span 0 (p - b) k ∧ Z.of_nat (available k0) ≤ 4 * (p - b) + Z.of_nat (available k))
    (λ k, (available k0 < 4 * N)%nat ∧ ∃ i, 0 ≤ i < Z.of_nat N ∧ span 0 i k) N b).
  { rewrite Z.sub_diag. split; [apply span_empty|lia]. }
  intros p k Hp [Hsp Hav]. set (i := p - b) in *. rewrite <- Efl.
  replace (p * PAGE_SIZE) with (page i) by (unfold i; change PAGE_SIZE with 4096; lia). rewrite page_u64 by lia.
  destruct (map_user_page_cases user_half root (page i) flags k (sp_own _ _ _ Hsp) (page_user i ltac:(lia)) Hfm Hfp)
    as [(k' & -> & Hm)|(r & k' & -> & Hr & Hfew & Hf)].
  - pose proof (mf_available _ _ _ _ _ _ Hm). replace (p + 1 - b) with (i + 1) by lia.
    split; [|lia]. apply (span_map 0 i k k'); [lia|lia|done|done].
  - assert ((r <? 0) = true) as -> by lia. split; [lia|]. exists i. split; [lia|].
    apply (span_failed 0 i k k'); [lia|lia|done|done].
Qed.
End Range.

(** ** Unmapping a range *)

Section Clear.
Context (root a : Z) (N : nat) (k0 : kmem).
Hypothesis Ho0 : space_own user_half root k0.
Hypothesis Ha : a mod 4096 = 0.
Hypothesis Hrange : 0 ≤ a ∧ a + Z.of_nat N * 4096 ≤ USER_SPACE_TOP.

#[local] Abbreviation page j := (a + j * 4096).

(** The first [i] pages of the range are gone and their frames are free;
    everything else is as in [k0]. *)
Record cleared (i : Z) (k : kmem) : Prop := {
  cl_own : space_own user_half root k;
  cl_gone : ∀ j, 0 ≤ j < i → pte_at root (page j) k = None;
  cl_others : ∀ vb, user_half (PML4_INDEX vb) → (∀ j, 0 ≤ j < i → ¬ same_page (page j) vb) →
    pte_at root vb k = pte_at root vb k0 ∧ user_word root vb k = user_word root vb k0;
  cl_free : ∀ x, x ∈ free_set (k_pmm k) ↔ x ∈ free_set (k_pmm k0) ∨
    ∃ j e, 0 ≤ j < i ∧ pte_at root (page j) k0 = Some e ∧ frame e = x * 4096;
  cl_tables : ∀ q, path_ok user_half q → walk (k_mem k) root q = walk (k_mem k0) root q;
  cl_rest : k_refs k = k_refs k0 ∧ kernel_pml4_phys k = kernel_pml4_phys k0 ∧
    total_pages (k_pmm k) = total_pages (k_pmm k0);
}.

Lemma cleared_none : cleared 0 k0.
Proof. split; try done; try lia. intros x. split; [by left|]. intros [|(j & e & Hj & _)]; [done|lia]. Qed.

Lemma cleared_next i k k' :
  0 ≤ i < Z.of_nat N → cleared i k → unmapped user_half root (page i) k k' → cleared (i + 1) k'.
Proof.
  intros Hi Hc Hu. pose proof (page_user a N Hrange) as Hus. pose proof (page_inj a N Ha Hrange) as Hinj.
  assert (pte_at root (page i) k = pte_at root (page i) k0) as Hi0.
  { apply (cl_others _ _ Hc); [by apply Hus|]. intros j Hj E%Hinj; lia. }
  split.
  - apply Hu.
  - intros j Hj. destruct (decide (j = i)) as [->|]; [apply Hu|].
    rewrite (un_others _ _ _ _ _ Hu); [apply (cl_gone _ _ Hc); lia|apply Hus; lia|]. intros E%Hinj; lia.
  - intros vb HIb Hb. destruct (cl_others _ _ Hc vb HIb ltac:(intros j Hj; apply Hb; lia)) as [<- <-].
    assert (pte_at root vb k' = pte_at root vb k) as E by (apply (un_others _ _ _ _ _ Hu); [done|apply Hb; lia]).
    split; [done|]. by eapply untouched_word; [apply Hc|apply Hu| |].
  - intros x. rewrite (un_free _ _ _ _ _ Hu), elem_of_union, (cl_free _ _ Hc), Hi0. split.
    + intros [Hx|[Hx|(j & e & Hj & He & Hf)]]; [|by left|].
      * destruct (pte_at root (page i) k0) as [e|] eqn:He; [|set_solver]. apply elem_of_singleton in Hx as ->.
        right. exists i, e. destruct (so_used _ _ _ Ho0 _ e (Hus i Hi) He) as (Hal & _). split_and!; [lia|lia|done|zdm].
      * right. exists j, e. split_and!; [lia|lia|done|done].
    + intros [Hx|(j & e & Hj & He & Hf)]; [by right; left|]. destruct (decide (j = i)) as [->|].
      * left. rewrite He, Hf, Z.div_mul by lia. set_solver.
      * right. right. exists j, e. split_and!; [lia|lia|done|done].
  - intros q Hq. by rewrite (un_tables _ _ _ _ _ Hu), (cl_tables _ _ Hc).
  - destruct (cl_rest _ _ Hc) as (<- & <- & <-). apply Hu.
Qed.

Lemma munmap_pages_ok : cleared (Z.of_nat N) (munmap_pages root a N k0).
Proof.
  unfold munmap_pages. apply (for_loop_ind cleared N 0); [apply cleared_none|].
  intros i k Hi Hc. change PAGE_SIZE with 4096. rewrite (page_u64 a N Hrange) by lia.
  apply (cleared_next i k); [lia|done|]. apply unmap_user_page_ok; [apply Hc|]. apply (page_user a N Hrange). lia.
Qed.

Lemma brk_shrink_ok : cleared (Z.of_nat N) (brk_shrink root (a / 4096) (a / 4096 + Z.of_nat N) k0).
Proof.
  set (b := a / 4096). assert (a = b * 4096) as Eab by (unfold b; zdm).
  rewrite <- (Z.add_simpl_l b (Z.of_nat N)) at 1. unfold brk_shrink.
  assert (Z.to_nat (b + Z.of_nat N - b) = N) as -> by lia.
  apply (for_loop_ind (λ p k, cleared (p - b) k) N b); [rewrite Z.sub_diag; apply cleared_none|].
  intros p k Hp Hc. set (i := p - b) in *. replace (p + 1 - b) with (i + 1) by lia.
  replace (p * PAGE_SIZE) with (page i) by (unfold i; change PAGE_SIZE with 4096; lia).
  rewrite (page_u64 a N Hrange) by lia.
  apply (cleared_next i k); [lia|done|]. apply unmap_user_page_ok; [apply Hc|]. apply (page_user a N Hrange). lia.
Qed.
End Clear.

(** ** What the memory system calls do

    The functional behaviour of [mmap], [munmap] and [brk] on ranges in the
    user half of an address space that owns its frames. *)
(** The range of [n] pages at [a] lies in the user half. *)
Definition user_range (a n : Z) : Prop := a mod 4096 = 0 ∧ 0 ≤ a ∧ 0 ≤ n ∧ a + n * 4096 ≤ USER_SPACE_TOP.

(** An address on none of these pages. *)
Definition outside (a n vb : Z) : Prop :=
  user_half (PML4_INDEX vb) ∧ ∀ j, 0 ≤ j < n → ¬ same_page (a + j * 4096) vb.

(** Page [j] is mapped with [flags] to a page that was free, and reads as
    zero. *)
Definition fresh_page (root a flags j : Z) (k k' : kmem) : Prop :=
  ∃ x, x ∈ free_set (k_pmm k) ∧ 0 < x ∧ pte_at root (a + j * 4096) k' = Some (Z.lor (x * 4096) flags) ∧
    ∀ o, 0 ≤ o < 4096 → o mod 8 = 0 → user_word root (a + j * 4096 + o) k' = Some 0.

Lemma offset_same_page a j o : a mod 4096 = 0 → 0 ≤ o < 4096 → same_page (a + j * 4096 + o) (a + j * 4096).
Proof. intros Ha Ho. unfold same_page. f_equal. zdm. Qed.

Lemma offset_mod a j o : a mod 4096 = 0 → 0 ≤ o < 4096 → (a + j * 4096 + o) mod 4096 = o.
Proof. intros. zdm. Qed.

Lemma span_fresh root flags a k0 lo hi k j :
  a mod 4096 = 0 → span root flags a k0 lo hi k → lo ≤ j < hi → fresh_page root a flags j k0 k.
Proof.
  intros Ha Hsp Hj. destruct (sp_pages _ _ _ _ _ _ _ Hsp j Hj) as (x & Hx & Hpos & He & Hf & Hz).
  exists x. split_and!; try done. intros o Ho H8. unfold user_word.
  rewrite (same_page_pte root _ _ k (offset_same_page a j o Ha Ho)), He. cbn [mbind option_bind].
  by rewrite offset_mod, Hf, Hz.
Qed.

Lemma span_outside root flags a k0 lo hi k vb :
  space_own user_half root k0 → span root flags a k0 lo hi k → user_half (PML4_INDEX vb) →
  (∀ j, lo ≤ j < hi → ¬ same_page (a + j * 4096) vb) →
  pte_at root vb k = pte_at root vb k0 ∧ user_word root vb k = user_word root vb k0.
Proof.
  intros Ho Hsp HI Hb. pose proof (sp_others _ _ _ _ _ _ _ Hsp vb HI Hb) as E. split; [done|].
  by eapply untouched_word; [|apply Hsp| |].
Qed.

Lemma mmap_flags_ok prot : Z.land (mmap_flags prot) PTE_ADDR_MASK = 0 ∧ tst (mmap_flags prot) PTE_PRESENT = true.
Proof. unfold mmap_flags. by destruct (Z.land prot PROT_WRITE =? 0), (Z.land prot PROT_EXEC =? 0). Qed.

Lemma pages_of_bound n : 0 < n → n + 4095 < 2 ^ 64 → 0 < pages_of n ∧ n ≤ pages_of n * 4096 < n + 4096.
Proof. intros. unfold pages_of, PAGE_SIZE. rewrite u64_small by lia. zdm. Qed.



(** ** brk *)

Lemma pages_of_range n : 0 ≤ n ≤ USER_SPACE_TOP → 0 ≤ pages_of n ∧ pages_of n * 4096 ≤ USER_SPACE_TOP.
Proof.
  unfold USER_SPACE_TOP. intros. unfold pages_of, PAGE_SIZE. rewrite u64_small by lia. zdm.
Qed.

Lemma outside_empty a n vb : n ≤ 0 → user_half (PML4_INDEX vb) → outside a n vb.
Proof. intros. split; [done|lia]. Qed.

(** What a change of the break from [old] to [new] pages does to [k]: pages
    that joined are fresh, pages that left are gone. *)
Record brk_moved (root old new : Z) (k k' : kmem) : Prop := {
  bm_own : space_own user_half root k';
  bm_new : ∀ j, old ≤ j < new → fresh_page root 0 brk_flags j k k';
  bm_gone : ∀ j, new ≤ j < old → pte_at root (j * 4096) k' = None;
  bm_others : ∀ vb, outside (Z.min old new * 4096) (Z.max old new - Z.min old new) vb →
    pte_at root vb k' = pte_at root vb k ∧ user_word root vb k' = user_word root vb k;
}.

Lemma fresh_page_shift root old flags j k k' :
  fresh_page root (old * 4096) flags j k k' → fresh_page root 0 flags (old + j) k k'.
Proof.
  intros (x & Hx & Hpos & He & Hz). exists x.
  replace (0 + (old + j) * 4096) with (old * 4096 + j * 4096) by lia. done.
Qed.

Lemma brk_grow_moved root old new k :
  space_own user_half root k → 0 ≤ old ≤ new → new * 4096 ≤ USER_SPACE_TOP →
  match brk_grow root old new k with
  | inl k' => brk_moved root old new k k'
  | inr k' => Z.of_nat (available k) < 4 * (new - old) ∧ ∃ i, old ≤ i < new ∧ brk_moved root old i k k'
  end.
Proof.
  intros Ho Hon Htop. set (a := old * 4096). set (N := Z.to_nat (new - old)).
  assert (a / 4096 = old) as Ea by (apply Z.div_mul; lia). assert (Z.of_nat N = new - old) as EN by lia.
  pose proof (brk_grow_ok root brk_flags a N k Ho) as Hg.
  specialize (Hg ltac:(apply Z.mod_mul; lia) ltac:(lia) eq_refl eq_refl).
  rewrite EN, Ea in Hg. replace (old + (new - old)) with new in Hg by lia.
  specialize (Hg eq_refl).
  assert (∀ i k', 0 ≤ i ≤ new - old → span root brk_flags a k 0 i k' → brk_moved root old (old + i) k k') as Hmoved.
  { intros i k' Hi Hsp. split.
    - apply Hsp.
    - intros j Hj. replace j with (old + (j - old)) by lia. apply fresh_page_shift.
      apply (span_fresh _ _ _ _ 0 i); [by apply Z.mod_mul|done|lia].
    - lia.
    - intros vb [HI Hb]. apply (span_outside root brk_flags a k 0 i); try done. intros j Hj.
      specialize (Hb j ltac:(lia)). by replace (Z.min old (old + i) * 4096) with a in Hb by lia. }
  destruct (brk_grow root old new k) as [k'|k'].
  - replace new with (old + (new - old)) by lia. apply Hmoved; [lia|done].
  - destruct Hg as [Hav (i & Hi & Hsp)]. split; [lia|]. exists (old + i). split; [lia|]. apply Hmoved; [lia|done].
Qed.

Lemma brk_shrink_moved root old new k :
  space_own user_half root k → 0 ≤ new ≤ old → old * 4096 ≤ USER_SPACE_TOP →
  brk_moved root old new k (brk_shrink root new old k).
Proof.
  intros Ho Hon Htop. set (a := new * 4096). set (N := Z.to_nat (old - new)).
  assert (a / 4096 = new) as Ea by (apply Z.div_mul; lia). assert (Z.of_nat N = old - new) as EN by lia.
  pose proof (brk_shrink_ok root a N k Ho ltac:(apply Z.mod_mul; lia) ltac:(lia)) as Hc.
  rewrite EN, Ea in Hc. replace (new + (old - new)) with old in Hc by lia. split.
  - apply Hc.
  - lia.
  - intros j Hj. rewrite <- (cl_gone _ _ _ _ _ Hc (j - new)) by lia. f_equal. unfold a. lia.
  - intros vb [HI Hb]. apply (cl_others _ _ _ _ _ Hc); [done|]. intros j Hj. specialize (Hb j ltac:(lia)).
    by replace (Z.min old new * 4096) with a in Hb by lia.
Qed.

