(* ===== verification/Gdt.v ===== *)
(** * Segments and the task state ([arch/x86/kernel/gdt.c], [gdt.h], [gdt_asm.S])

    The table and the task state segment are bytes of kernel memory, at
    addresses that the linker chooses; so are the three interrupt stacks. *)
From S2P Require Import Prelude Pmm Page Vmm.
Local Open Scope Z_scope.

Definition GDT_NULL : Z := 0x00.
Definition GDT_KERNEL_CODE : Z := 0x08.
Definition GDT_KERNEL_DATA : Z := 0x10.
Definition GDT_USER_DATA : Z := 0x18.
Definition GDT_USER_CODE : Z := 0x20.
Definition GDT_TSS : Z := 0x28.
Definition GDT_ENTRIES : Z := 7.

Definition GDT_ACCESS_PRESENT : Z := Z.shiftl 1 7.
Definition GDT_ACCESS_DPL0 : Z := Z.shiftl 0 5.
Definition GDT_ACCESS_DPL3 : Z := Z.shiftl 3 5.
Definition GDT_ACCESS_CODE_DATA : Z := Z.shiftl 1 4.
Definition GDT_ACCESS_EXEC : Z := Z.shiftl 1 3.
Definition GDT_ACCESS_RW : Z := Z.shiftl 1 1.

Definition GDT_ACCESS_KERNEL_CODE : Z :=
  Z.lor (Z.lor (Z.lor (Z.lor GDT_ACCESS_PRESENT GDT_ACCESS_DPL0) GDT_ACCESS_CODE_DATA) GDT_ACCESS_EXEC) GDT_ACCESS_RW.
Definition GDT_ACCESS_KERNEL_DATA : Z := Z.lor (Z.lor (Z.lor GDT_ACCESS_PRESENT GDT_ACCESS_DPL0) GDT_ACCESS_CODE_DATA) GDT_ACCESS_RW.
Definition GDT_ACCESS_USER_CODE : Z :=
  Z.lor (Z.lor (Z.lor (Z.lor GDT_ACCESS_PRESENT GDT_ACCESS_DPL3) GDT_ACCESS_CODE_DATA) GDT_ACCESS_EXEC) GDT_ACCESS_RW.
Definition GDT_ACCESS_USER_DATA : Z := Z.lor (Z.lor (Z.lor GDT_ACCESS_PRESENT GDT_ACCESS_DPL3) GDT_ACCESS_CODE_DATA) GDT_ACCESS_RW.
Definition GDT_ACCESS_TSS : Z := Z.lor GDT_ACCESS_PRESENT 0x09.

Definition GDT_FLAG_GRANULARITY : Z := Z.shiftl 1 7.
Definition GDT_FLAG_LONG_MODE : Z := Z.shiftl 1 5.
Definition GDT_FLAGS_CODE64 : Z := GDT_FLAG_LONG_MODE.
Definition GDT_FLAGS_DATA : Z := 0x00.

Definition IST_GUARD_SIZE : Z := 4096.
Definition IST_USABLE_SIZE : Z := 8192.
Definition IST_STACK_TOTAL : Z := IST_USABLE_SIZE + IST_GUARD_SIZE.

(** Sizes and field offsets of the packed structures. *)
Definition sizeof_gdt_entry : Z := 8.
Definition sizeof_tss : Z := 104.
Definition tss_rsp0_off : Z := 4.
Definition tss_ist1_off : Z := 36.
Definition tss_ist2_off : Z := 44.
Definition tss_ist3_off : Z := 52.
Definition tss_iopb_off : Z := 102.

Section Gdt.
Context (gdt tss ist_nmi_stack ist_df_stack ist_mce_stack : Z).

Definition gdt_set_entry (index base limit access flags : Z) (m : gmap Z Z) : gmap Z Z :=
  let e := gdt + index * sizeof_gdt_entry in
  let m := store 2 m e (Z.land limit 0xFFFF) in
  let m := store 2 m (e + 2) (Z.land base 0xFFFF) in
  let m := store 1 m (e + 4) (Z.land (Z.shiftr base 16) 0xFF) in
  let m := store 1 m (e + 5) access in
  let m := store 1 m (e + 6) (Z.lor (Z.land (Z.shiftr limit 16) 0x0F) (Z.land flags 0xF0)) in
  store 1 m (e + 7) (Z.land (Z.shiftr base 24) 0xFF).

(** The sixteen bytes of slots 5 and 6. *)
Definition gdt_set_tss (m : gmap Z Z) : gmap Z Z :=
  let tss_base := tss in
  let tss_limit := sizeof_tss - 1 in
  let e := gdt + 5 * sizeof_gdt_entry in
  let m := store 2 m e (Z.land tss_limit 0xFFFF) in
  let m := store 2 m (e + 2) (Z.land tss_base 0xFFFF) in
  let m := store 1 m (e + 4) (Z.land (Z.shiftr tss_base 16) 0xFF) in
  let m := store 1 m (e + 5) GDT_ACCESS_TSS in
  let m := store 1 m (e + 6) (Z.land (Z.shiftr tss_limit 16) 0x0F) in
  let m := store 1 m (e + 7) (Z.land (Z.shiftr tss_base 24) 0xFF) in
  let m := store 4 m (e + 8) (Z.land (Z.shiftr tss_base 32) 0xFFFFFFFF) in
  store 4 m (e + 12) 0.

Definition tss_init (m : gmap Z Z) : gmap Z Z :=
  let m := for_loop (Z.to_nat sizeof_tss) 0 (λ i m, wr m (tss + i) 0) m in
  let m := store 2 m (tss + tss_iopb_off) sizeof_tss in
  let m := store 8 m (tss + tss_ist1_off) (ist_nmi_stack + IST_STACK_TOTAL) in
  let m := store 8 m (tss + tss_ist2_off) (ist_df_stack + IST_STACK_TOTAL) in
  store 8 m (tss + tss_ist3_off) (ist_mce_stack + IST_STACK_TOTAL).

Definition gdt_set_tss_rsp0 (rsp0 : Z) (m : gmap Z Z) : gmap Z Z := store 8 m (tss + tss_rsp0_off) rsp0.

(** Registers that refer to the table. *)
Record seg_regs := SegRegs {
  gdtr_limit : Z;
  gdtr_base : Z;
  reg_cs : Z;
  reg_ds : Z;
  reg_es : Z;
  reg_ss : Z;
  reg_fs : Z;
  reg_gs : Z;
  reg_tr : Z;
}.

(** [lgdt] *)
Definition lgdt (limit base : Z) (r : seg_regs) : seg_regs :=
  SegRegs limit base (reg_cs r) (reg_ds r) (reg_es r) (reg_ss r) (reg_fs r) (reg_gs r) (reg_tr r).

(** The stub in [gdt_asm.S]. *)
Definition gdt_reload (r : seg_regs) : seg_regs :=
  SegRegs (gdtr_limit r) (gdtr_base r) GDT_KERNEL_CODE GDT_KERNEL_DATA GDT_KERNEL_DATA GDT_KERNEL_DATA 0 0 (reg_tr r).

(** [ltr]; the processor also marks the descriptor busy. *)
Definition ltr (sel : Z) (m : gmap Z Z) (r : seg_regs) : gmap Z Z * seg_regs :=
  (wr m (gdt + sel + 5) (Z.lor (rd m (gdt + sel + 5)) 2),
   SegRegs (gdtr_limit r) (gdtr_base r) (reg_cs r) (reg_ds r) (reg_es r) (reg_ss r) (reg_fs r) (reg_gs r) sel).

Definition gdt_init (m : gmap Z Z) (r : seg_regs) : gmap Z Z * seg_regs :=
  let m := gdt_set_entry 0 0 0 0 0 m in
  let m := gdt_set_entry 1 0 0xFFFFF GDT_ACCESS_KERNEL_CODE (Z.lor GDT_FLAG_GRANULARITY GDT_FLAGS_CODE64) m in
  let m := gdt_set_entry 2 0 0xFFFFF GDT_ACCESS_KERNEL_DATA (Z.lor GDT_FLAG_GRANULARITY GDT_FLAGS_DATA) m in
  let m := gdt_set_entry 3 0 0xFFFFF GDT_ACCESS_USER_DATA (Z.lor GDT_FLAG_GRANULARITY GDT_FLAGS_DATA) m in
  let m := gdt_set_entry 4 0 0xFFFFF GDT_ACCESS_USER_CODE (Z.lor GDT_FLAG_GRANULARITY GDT_FLAGS_CODE64) m in
  let m := tss_init m in
  let m := gdt_set_tss m in
  let r := lgdt (GDT_ENTRIES * sizeof_gdt_entry - 1) gdt r in
  let r := gdt_reload r in
  ltr GDT_TSS m r.

(** The loop over the three stacks; a warning is logged when a page stays. *)
Definition gdt_install_ist_guards (k : kmem) : kmem :=
  let kpml4 := vmm_get_kernel_pml4 k in
  foldl (λ k base, (vmm_unmap_page kpml4 base k).2) k [ist_nmi_stack; ist_df_stack; ist_mce_stack].
End Gdt.
