(* ===== verification/Fault.v ===== *)
(** * Interrupts and page faults ([arch/x86/kernel/idt.c], [idt.h])

    The descriptor table, the dispatch of interrupts, and the page-fault
    handler with its copy-on-write part.  The fault address (register CR2) and
    the fields of the interrupt frame are arguments.  Log output is left out:
    a fault that is not handled is reported and halts the machine. *)
From S2P Require Import Prelude Pmm Page Vmm Gdt.
Local Open Scope Z_scope.

(** ** The descriptor table *)

Record idt_entry := IdtEntry {
  offset_low : Z;
  selector : Z;
  ist : Z;
  type_attr : Z;
  offset_mid : Z;
  offset_high : Z;
  idt_zero : Z;
}.

Definition IDT_SIZE : nat := 256.
Definition IDT_GATE_INTERRUPT : Z := 0x8E.

Definition idt_set_gate (n handler sel attr stack : Z) (idt : gmap Z idt_entry) : gmap Z idt_entry :=
  <[n := IdtEntry (Z.land handler 0xFFFF) (u16 sel) (Z.land stack 0x07) (u8 attr)
           (Z.land (Z.shiftr handler 16) 0xFFFF) (Z.land (Z.shiftr handler 32) 0xFFFFFFFF) 0]> idt.

(** [isr_stubs] gives the address of the stub of a vector, 0 for none. *)
Definition idt_install (isr_stubs : Z → Z) (idt : gmap Z idt_entry) : gmap Z idt_entry :=
  let idt := for_loop IDT_SIZE 0 (λ i idt,
    if negb (isr_stubs i =? 0)
    then idt_set_gate i (isr_stubs i) GDT_KERNEL_CODE IDT_GATE_INTERRUPT 0 idt else idt) idt in
  let idt := idt_set_gate 2 (isr_stubs 2) GDT_KERNEL_CODE IDT_GATE_INTERRUPT 1 idt in
  let idt := idt_set_gate 8 (isr_stubs 8) GDT_KERNEL_CODE IDT_GATE_INTERRUPT 2 idt in
  idt_set_gate 18 (isr_stubs 18) GDT_KERNEL_CODE IDT_GATE_INTERRUPT 3 idt.

Definition idt_register_irq {A : Type} (irq : Z) (handler : A) (handlers : gmap Z A) : gmap Z A :=
  if (0 <=? irq) && (irq <? 256) then <[irq := handler]> handlers else handlers.

(** ** Page faults *)

Definition PF_PRESENT : Z := 1.
Definition PF_WRITE : Z := 2.
Definition PF_USER : Z := 4.

(** [idt_memcpy] of one page, by words. *)
Definition copy_page (dst src : Z) (m : gmap Z Z) : gmap Z Z :=
  for_loop PAGE_TABLE_ENTRIES 0 (λ i m, wr m (dst + 8 * i) (rd m (src + 8 * i))) m.

(** [root] is the page-table root of the faulting process. *)
Definition handle_cow_fault (fault_addr root : Z) (k : kmem) : Z * kmem :=
  let page_addr := Z.land fault_addr (~64 0xFFF) in
  let pte_flags := vmm_get_pte_flags root page_addr k in
  let phys_addr := vmm_get_physical root page_addr k in
  if negb (tst pte_flags PTE_COW) then (-1, k)
  else
    let refcount := page_get_refcount phys_addr (k_refs k) in
    if refcount =? 1 then
      let pte_flags := Z.lor (Z.land pte_flags (~64 PTE_COW)) PTE_WRITABLE in
      (0, (vmm_set_pte_flags root page_addr pte_flags k).2)
    else
      let '(new_phys, p) := pmm_alloc (k_pmm k) in
      let k := set_pmm p k in
      if new_phys =? PMM_ALLOC_FAILED then (-1, k)
      else
        let k := set_mem (copy_page new_phys phys_addr (k_mem k)) k in
        let pte_flags := Z.lor (Z.land pte_flags (~64 PTE_COW)) PTE_WRITABLE in
        let k := (vmm_unmap_page root page_addr k).2 in
        let k := (vmm_map_page root page_addr new_phys pte_flags k).2 in
        let k := set_refs (page_set_refcount new_phys 1 (k_refs k)) k in
        let '(r, p) := page_unref phys_addr (k_refs k) (k_pmm k) in
        (0, set_refs r (set_pmm p k)).

(** [root] is [None] when there is no current process. *)
Definition handle_page_fault (error fault_addr : Z) (root : option Z) (k : kmem) : outcome kmem :=
  match root with
  | Some root =>
      if Z.land error (Z.lor (Z.lor PF_WRITE PF_PRESENT) PF_USER) =? Z.lor (Z.lor PF_WRITE PF_PRESENT) PF_USER then
        let '(r, k) := handle_cow_fault fault_addr root k in
        if r =? 0 then Done k else Halted
      else Halted
  | None => Halted
  end.

(** ** Dispatch

    [irq_handlers] act on the rest of the kernel's state together with [k];
    [apic_eoi] acknowledges an interrupt nobody handles. *)
Definition interrupt_handler {A : Type} (irq_handlers : gmap Z (A → A)) (apic_eoi : A → A)
    (set_mem_of : kmem → A → A) (mem_of : A → kmem) (int_no error fault_addr : Z) (root : option Z) (s : A) : outcome A :=
  if int_no <? 32 then
    if int_no =? 14 then
      match handle_page_fault error fault_addr root (mem_of s) with
      | Done k => Done (set_mem_of k s)
      | Halted => Halted
      end
    else Halted
  else if int_no =? 255 then Done s
  else
    match irq_handlers !! int_no with
    | Some handler => Done (handler s)
    | None => Done (apic_eoi s)
    end.

(** ** Backtrace *)

Definition is_valid_kernel_addr (addr : Z) : bool := (0xFFFF800000000000 <=? addr) && (Z.land addr 0x7 =? 0).

(** The return addresses printed from the second line on: at most nine, each
    read through an aligned pointer to the upper half. *)
Fixpoint backtrace_loop (n : nat) (m : gmap Z Z) (rbp : Z) : list Z :=
  match n with
  | O => []
  | S n' =>
      if rbp =? 0 then []
      else if negb (is_valid_kernel_addr rbp) then []
      else u64 (rd m (rbp + 8) - 1) :: backtrace_loop n' m (rd m rbp)
  end.

Definition backtrace (m : gmap Z Z) (rip rbp : Z) : list Z := rip :: backtrace_loop 9 m rbp.
