(* ===== verification/FaultProps.v ===== *)
(** * The copy-on-write fault

    A write to a shared page gives the writer its own copy. *)
From S2P Require Import Prelude Pmm Page Vmm VmmWalk VmmMap VmmProps VmmCow UserMem Fault.
Local Open Scope Z_scope.

(** ** Copying a page *)

Lemma copy_page_words dst src m a :
  dst mod 4096 = 0 → src mod 4096 = 0 → dst ≠ src →
  (a / 4096 ≠ dst / 4096 → rd (copy_page dst src m) a = rd m a) ∧
  (∀ i, idx_ok i → rd (copy_page dst src m) (dst + 8 * i) = rd m (src + 8 * i)).
Proof.
  intros Hd Hs Hne. unfold copy_page.
  pose proof (for_loop_ind (λ i m', (∀ a, a / 4096 ≠ dst / 4096 → rd m' a = rd m a) ∧
      (∀ j, 0 ≤ j < i → rd m' (dst + 8 * j) = rd m (src + 8 * j)))
    512 0 (λ i m, wr m (dst + 8 * i) (rd m (src + 8 * i))) m) as [H1 H2].
  - split; [done|lia].
  - intros i m' Hi [H1 H2]. split.
    + intros b Hb. rewrite rd_wr_ne; [by apply H1|]. intros <-. apply Hb. by apply slot_page.
    + intros j Hj. destruct (decide (j = i)) as [->|].
      * rewrite rd_wr_eq. apply H1. rewrite slot_page by done. zdm.
      * rewrite rd_wr_ne by lia. apply H2. lia.
  - split; [by apply H1|]. intros i Hi. apply H2. done.
Qed.

(** ** Mapping through tables that are there *)

Lemma map_level_present I root k0 k p t i next flags :
  since I root k0 k → path_ok I (p ++ [i]) → walk (k_mem k) root p = Some t →
  walk (k_mem k) root (p ++ [i]) = Some next →
  ∃ k', map_level t i flags k = (Some (next, 0), k') ∧ since I root k0 k' ∧ k_pmm k' = k_pmm k ∧
    ∀ q, path_ok I q → walk (k_mem k') root q = walk (k_mem k) root q.
Proof.
  intros Hs Hp Ht Hn. rewrite walk_snoc, Ht in Hn. cbn in Hn. unfold next_table in Hn.
  unfold map_level. destruct (tst (ent (k_mem k) t i) PTE_PRESENT) eqn:He; [|done]. injection Hn as ->.
  destruct (since_set_user I root k0 k p t i Hs Hp Ht He) as [Hs' Hw'].
  case_if; eexists; (split; [done|by split_and!]).
Qed.

Lemma map_page_present I root va phys flags k pt :
  space_wf I root k → I (PML4_INDEX va) → walk (k_mem k) root (upper_path va) = Some pt →
  ∃ k', vmm_map_page root va phys flags k =
      (0, set_ent pt (PT_INDEX va) (Z.lor (Z.land phys PTE_ADDR_MASK) flags) k') ∧
    since I root k k' ∧ k_pmm k' = k_pmm k ∧ walk (k_mem k') root (upper_path va) = Some pt.
Proof.
  intros Hwf HI Hpt. pose proof (upper_path_ok I va HI) as Hp3.
  change (upper_path va) with ([PML4_INDEX va; PDPT_INDEX va] ++ [PD_INDEX va]) in *.
  assert (path_ok I ([PML4_INDEX va] ++ [PDPT_INDEX va])) as Hp2 by (by apply (path_ok_prefix I _ [PD_INDEX va])).
  assert (path_ok I ([] ++ [PML4_INDEX va])) as Hp1 by (by apply (path_ok_prefix I _ [PDPT_INDEX va])).
  destruct (walk (k_mem k) root [PML4_INDEX va; PDPT_INDEX va]) as [pd|] eqn:W2;
    [|by rewrite walk_snoc, W2 in Hpt].
  destruct (walk (k_mem k) root [PML4_INDEX va]) as [pdpt|] eqn:W1;
    [|by rewrite (walk_snoc _ _ [PML4_INDEX va] _ : walk _ _ [PML4_INDEX va; PDPT_INDEX va] = _), W1 in W2].
  destruct (map_level_present I root k k [] root _ pdpt flags (since_refl I root k Hwf) Hp1 eq_refl W1)
    as (k1 & E1 & Hs1 & Ep1 & Hw1).
  destruct (map_level_present I root k k1 [PML4_INDEX va] pdpt _ pd flags Hs1 Hp2) as (k2 & E2 & Hs2 & Ep2 & Hw2);
    [by rewrite Hw1|by rewrite Hw1|].
  destruct (map_level_present I root k k2 [PML4_INDEX va; PDPT_INDEX va] pd _ pt flags Hs2 Hp3)
    as (k3 & E3 & Hs3 & Ep3 & Hw3); [by rewrite Hw2, Hw1|by rewrite Hw2, Hw1|].
  exists k3. unfold vmm_map_page. rewrite E1, E2, E3. split_and!; [done|done|congruence|].
  by rewrite Hw3, Hw2, Hw1.
Qed.

(** ** Entries *)

(** The flags of a private copy of a shared page. *)
Definition unshared_flags (e : Z) : Z :=
  Z.lor (Z.land (Z.land e (~64 PTE_ADDR_MASK)) (~64 PTE_COW)) PTE_WRITABLE.

Lemma pow2_testbit_ne i n : 0 ≤ i → 0 ≤ n → n ≠ i → Z.testbit (Z.shiftl 1 i) n = false.
Proof. intros. rewrite Z.shiftl_1_l. by apply Z.pow2_bits_false. Qed.

Lemma not64_testbit x n : 0 ≤ n < 64 → Z.testbit (~64 x) n = negb (Z.testbit x n).
Proof. intros Hn. unfold u64, wrap. rewrite Z.mod_pow2_bits_low by lia. by rewrite Z.lnot_spec by lia. Qed.

(** Bit 1 is set, bit 9 and the address bits are cleared, the others are as in
    the shared entry. *)
Lemma unshared_testbit e n : 0 ≤ n < 64 →
  Z.testbit (unshared_flags e) n =
  (n =? 1) || (negb (n =? 9) && negb ((12 <=? n) && (n <? 52)) && Z.testbit e n).
Proof.
  intros Hn. unfold unshared_flags. rewrite Z.lor_spec, !Z.land_spec, not_addr_mask_testbit, not64_testbit by done.
  destruct (decide (n = 1)) as [->|H1]; [by rewrite orb_true_r|]. rewrite (pow2_testbit_ne 1) by lia.
  assert ((n =? 1) = false) as -> by lia. rewrite orb_false_r.
  destruct (decide (n = 9)) as [->|H9]; [by rewrite andb_false_r|]. rewrite (pow2_testbit_ne 9) by lia.
  assert ((n =? 9) = false) as -> by lia. destruct (Z.testbit e n), ((12 <=? n) && (n <? 52)); done.
Qed.

Lemma unshared_mask e : Z.land (unshared_flags e) PTE_ADDR_MASK = 0.
Proof.
  apply Z.bits_inj'. intros n Hn. rewrite Z.land_spec, Z.bits_0, addr_mask_testbit by done.
  destruct (decide (n < 64)) as [Hlt|Hge].
  - rewrite unshared_testbit by lia. destruct (Z.eqb_spec n 1); [by subst|].
    destruct ((12 <=? n) && (n <? 52)); [|by rewrite andb_false_r]. by rewrite andb_false_r.
  - assert ((n <? 52) = false) as -> by lia. by rewrite !andb_false_r.
Qed.

Lemma unshared_present e : tst e PTE_PRESENT = true → tst (unshared_flags e) PTE_PRESENT = true.
Proof. rewrite !tst_present. intros He. by rewrite unshared_testbit by lia. Qed.

Lemma unshared_private e :
  tst (unshared_flags e) PTE_WRITABLE = true ∧ tst (unshared_flags e) PTE_COW = false.
Proof.
  unfold PTE_WRITABLE, PTE_COW. rewrite !Z.shiftl_1_l, !tst_pow2 by lia. by rewrite !unshared_testbit by lia.
Qed.

Lemma pte_present root va k e : pte_at root va k = Some e → tst e PTE_PRESENT = true.
Proof.
  unfold pte_at, leaf. destruct (walk _ _ _) as [t|]; [|done]. cbn. destruct (tst _ _) eqn:E; [|done]. by intros [= <-].
Qed.

Lemma tst_cow_flags e : tst (Z.land e (~64 PTE_ADDR_MASK)) PTE_COW = tst e PTE_COW.
Proof.
  unfold PTE_COW. rewrite Z.shiftl_1_l, !tst_pow2, Z.land_spec, not_addr_mask_testbit by lia.
  by rewrite andb_true_r.
Qed.

(** ** Reference counts *)

Lemma unref_keeps_page phys r p :
  refs_wf r → page_get_refcount phys r ≠ 1 → (page_unref phys r p).2 = p.
Proof.
  unfold refs_wf, page_get_refcount, page_unref. destruct (page_info r) as [arr|]; [|done]. intros Hwf.
  case_if; [done|]. intros H1. case_if; [done|]. case_if; [done|]. cbn zeta. rewrite rd_wr_eq.
  pose proof (Hwf (phys / PAGE_SIZE)). rewrite u8_small by lia. by case_if; [lia|].
Qed.

Lemma unref_get phys r p q :
  refs_wf r → counted phys r →
  page_get_refcount q (page_unref phys r p).1 =
  let c := page_get_refcount phys r in
  if decide (q / PAGE_SIZE = phys / PAGE_SIZE ∧ 0 < c < 255) then c - 1 else page_get_refcount q r.
Proof. intros Hwf Hc. by apply (page_unref_spec phys r p). Qed.

Lemma unref_uncounted phys r p : ¬ counted phys r → (page_unref phys r p).1 = r.
Proof.
  unfold counted, page_unref. intros Hc. destruct (page_info r) as [arr|]; [|done].
  destruct (Z.leb_spec (max_pages r) (phys / PAGE_SIZE)); [done|]. destruct Hc. split; [by eexists|done].
Qed.

Lemma set_refcount_counted phys c q r : counted q (page_set_refcount phys c r) ↔ counted q r.
Proof.
  unfold counted, page_set_refcount. destruct (page_info r) as [arr|] eqn:Ei; [|by rewrite Ei].
  case_if; [by rewrite Ei|]. cbn. split; intros [[? _] ?]; split; try done; by eexists.
Qed.

Lemma set_refcount_get phys c q r :
  page_get_refcount q (page_set_refcount phys c r) =
  if decide (q / PAGE_SIZE = phys / PAGE_SIZE ∧ counted phys r) then c else page_get_refcount q r.
Proof.
  unfold page_get_refcount, page_set_refcount, counted. destruct (page_info r) as [arr|] eqn:Ei.
  2:{ rewrite Ei. rewrite decide_False; [done|]. by intros (_ & [[? [=]] _]). }
  destruct (Z.leb_spec (max_pages r) (phys / PAGE_SIZE)).
  { rewrite Ei, decide_False; [done|]. intros (_ & _ & ?). lia. }
  cbn. case_decide as Hd.
  - destruct Hd as [-> _]. destruct (Z.leb_spec (max_pages r) (phys / PAGE_SIZE)); [lia|]. apply rd_wr_eq.
  - case_if; [done|]. apply rd_wr_ne. intros Eq. apply Hd. split; [done|]. split; [by eexists|done].
Qed.

Lemma set_refcount_wf phys r : refs_wf r → refs_wf (page_set_refcount phys 1 r).
Proof.
  unfold refs_wf, page_set_refcount. destruct (page_info r) as [arr|] eqn:Ei; [|by rewrite Ei].
  intros Hwf. case_if; [by rewrite Ei|]. cbn. intros i. rewrite rd_wr. case_decide; [lia|apply Hwf].
Qed.

(** ** The copy *)

Section CowCopy.
Context (root va n e pt : Z) (k : kmem).
Hypothesis Ho : space_own user_half root k.
Hypothesis HI : user_half (PML4_INDEX va).
Hypothesis He : pte_at root va k = Some e.
Hypothesis Hpt : walk (k_mem k) root (upper_path va) = Some pt.
Hypothesis Hn : n ∈ free_set (k_pmm k).
Hypothesis Hpos : 0 < n.

Definition copied_page : kmem := set_mem (copy_page (n * 4096) (frame e) (k_mem k)) (set_pmm (take_page n (k_pmm k)) k).

#[local] Abbreviation k1 := copied_page.

Lemma copied_frame_words :
  (∀ a, a / 4096 ≠ n → rd (k_mem k1) a = rd (k_mem k) a) ∧
  (∀ i, idx_ok i → rd (k_mem k1) (n * 4096 + 8 * i) = rd (k_mem k) (frame e + 8 * i)).
Proof.
  destruct (so_used _ _ _ Ho va e HI He) as (Ha & _ & Hf).
  assert (n * 4096 ≠ frame e) as Hne by (intros E; apply Hf; by rewrite <- E, Z.div_mul).
  assert ((n * 4096) mod 4096 = 0) as Hal by (apply Z.mod_mul; lia).
  split.
  - intros a Han. apply (copy_page_words _ _ (k_mem k) a Hal Ha Hne). by rewrite Z.div_mul by lia.
  - intros i Hi. by apply (copy_page_words _ _ (k_mem k) 0 Hal Ha Hne).
Qed.

Lemma copied_walk q : path_ok user_half q → walk (k_mem k1) root q = walk (k_mem k) root q.
Proof. apply (frame_page_walk user_half root n k k1 (so_wf _ _ _ Ho) Hn), copied_frame_words. Qed.

Lemma copied_pte vb : user_half (PML4_INDEX vb) → pte_at root vb k1 = pte_at root vb k.
Proof.
  intros HIb. apply (frame_page_leaf user_half root n k k1 (so_wf _ _ _ Ho) Hn); eauto with seedos.
  apply copied_frame_words.
Qed.

Lemma copied_step : region_step user_half root k k1.
Proof.
  assert (free_set (k_pmm k1) = free_set (k_pmm k) ∖ {[n]}) as Hfr by apply take_page_free_set. split.
  - apply (frame_page_wf user_half root n k k1 (so_wf _ _ _ Ho) Hn eq_refl), copied_frame_words.
  - intros a _ Hf. apply copied_frame_words. intros E. apply Hf. by rewrite E.
  - rewrite Hfr. set_solver.
  - done.
  - intros p t Hp. rewrite copied_walk by done. by left.
Qed.

Lemma copied_own : space_own user_half root k1.
Proof.
  apply (own_same user_half root k); [done|apply copied_step| |apply copied_pte].
  intros p t i Hp Hw. rewrite copied_walk in Hw by eauto with seedos.
  rewrite (frame_page_ent user_half root n k k1 (so_wf _ _ _ Ho) Hn (proj1 copied_frame_words) p t i); eauto with seedos.
  by apply (so_small _ _ _ Ho p).
Qed.

(** The new page is used, no table, and mapped nowhere yet. *)
Lemma copied_fresh :
  used_page (k_pmm k1) (n * 4096) ∧ Z.land (n * 4096) PTE_ADDR_MASK = n * 4096 ∧
  (∀ p t, path_ok user_half p → walk (k_mem k1) root p = Some t → n * 4096 ≠ t) ∧
  (∀ vb e', user_half (PML4_INDEX vb) → pte_at root vb k1 = Some e' → frame e' ≠ n * 4096).
Proof.
  pose proof Hn as [Hr _]%elem_of_free_set. pose proof (sw_phys _ _ _ (so_wf _ _ _ Ho)).
  assert ((n * 4096) mod 4096 = 0) as Hal by (apply Z.mod_mul; lia). split_and!.
  - split; [done|]. rewrite Z.div_mul by lia. split; [cbn; lia|]. cbn. rewrite take_page_free_set. set_solver.
  - apply addr_mask_page; [done|lia].
  - intros p t Hp Hw <-. rewrite copied_walk in Hw by done.
    destruct (sw_used _ _ _ (so_wf _ _ _ Ho) p _ Hp Hw) as (_ & _ & Hf). by rewrite Z.div_mul in Hf by lia.
  - intros vb e' HIb He' E. rewrite copied_pte in He' by done. destruct (so_used _ _ _ Ho vb e' HIb He') as (_ & _ & Hf).
    by rewrite E, Z.div_mul in Hf by lia.
Qed.

(** Unmapping the shared page and mapping the copy. *)
Record remapped (fl : Z) (k' : kmem) : Prop := {
  rm_own : space_own user_half root k';
  rm_step : region_step user_half root k k';
  rm_pte : ∀ vb, user_half (PML4_INDEX vb) →
    pte_at root vb k' = if decide (same_page va vb) then Some (Z.lor (n * 4096) fl) else pte_at root vb k;
  rm_words : ∀ o, 0 ≤ o < 4096 → o mod 8 = 0 → rd (k_mem k') (n * 4096 + o) = rd (k_mem k) (frame e + o);
  rm_rest : k_pmm k' = take_page n (k_pmm k) ∧ k_refs k' = k_refs k ∧ kernel_pml4_phys k' = kernel_pml4_phys k;
}.

Lemma cow_remap fl :
  Z.land fl PTE_ADDR_MASK = 0 → tst fl PTE_PRESENT = true →
  remapped fl (vmm_map_page root va (n * 4096) fl (vmm_unmap_page root va k1).2).2.
Proof.
  intros Hfm Hfp. pose proof copied_own as Ho1. destruct copied_fresh as (Hu & Hm & Hsep & Hnew).
  assert (walk (k_mem k1) root (upper_path va) = Some pt) as Hpt1 by (rewrite copied_walk; eauto with seedos).
  rewrite vmm_unmap_page_walk, Hpt1, (small_path user_half) by (apply Ho1 || done). cbn [snd].
  set (k2 := set_ent pt (PT_INDEX va) 0 k1).
  destruct (clear_pte_own user_half root va k1 Ho1 HI pt k2 Hpt1 eq_refl) as (Ho2 & Hst2 & Hpte2).
  assert (walk (k_mem k2) root (upper_path va) = Some pt) as Hpt2.
  { unfold k2. rewrite (store_leaf_walk user_half root k1 (upper_path va)); eauto with seedos. apply Ho1. }
  destruct (map_page_present user_half root va (n * 4096) fl k2 pt (so_wf _ _ _ Ho2) HI Hpt2) as (k3 & -> & Hs3 & Ep3 & Hpt3).
  cbn [snd]. rewrite Hm. set (v := Z.lor (n * 4096) fl). set (k4 := set_ent pt (PT_INDEX va) v k3).
  pose proof (store_pte_step user_half root va pt v k3 (si_wf _ _ _ _ Hs3) HI Hpt3) as Hst4. fold k4 in Hst4.
  assert (region_step user_half root k1 k4) as Hst.
  { eapply region_step_trans; [exact Hst2|]. eapply region_step_trans; [by apply since_region_step|done]. }
  assert (frame v = n * 4096) as Hfv by (unfold frame, v; rewrite <- Hm at 1; by rewrite land_lor_flags).
  assert (∀ vb, user_half (PML4_INDEX vb) →
    pte_at root vb k4 = if decide (same_page va vb) then Some v else pte_at root vb k1) as Hpte.
  { intros vb HIb. unfold k4. rewrite (store_pte_at user_half root va pt v k3 (si_wf _ _ _ _ Hs3) HI Hpt3 vb HIb).
    assert (tst v PTE_PRESENT = true) as -> by (unfold v; rewrite tst_present in *; by rewrite Z.lor_spec, Hfp, orb_true_r).
    case_decide; [done|]. transitivity (pte_at root vb k2); [|by rewrite Hpte2, decide_False].
    unfold pte_at. rewrite (si_leaf _ _ _ _ Hs3); eauto with seedos. }
  assert (k_pmm k4 = take_page n (k_pmm k)) as Epm by exact Ep3.
  split.
  - refine (own_store user_half root va v k1 k4 Ho1 Hst _ Hpte _ _ _).
    + apply (store_leaf_small user_half root k3 (upper_path va)); eauto with seedos. apply (si_small _ _ _ _ Hs3), Ho2.
    + rewrite Hfv, Epm. exact Hu.
    + intros p t Hp Hw. rewrite Hfv. apply (Hsep p); [done|].
      destruct (rs_tables _ _ _ _ Hst p t Hp Hw) as [|Hin]; [done|].
      destruct (sw_used _ _ _ (rs_wf _ _ _ _ Hst) p t Hp Hw) as (_ & _ & Hf). destruct Hf. rewrite Epm. exact Hin.
    + intros vb e' HIb _ He'. rewrite Hfv. by apply (Hnew vb).
  - eapply region_step_trans; [apply copied_step|done].
  - intros vb HIb. rewrite Hpte, copied_pte by done. done.
  - intros o Ho4 Ho8. destruct Hu as (Ha & _ & Hf). rewrite (rs_untouched _ _ _ _ Hst).
    + replace o with (8 * (o / 8)) by zdm. apply copied_frame_words. unfold idx_ok. zdm.
    + intros (p & t & i & (Hp & Hi & _) & Hw & E). apply (Hsep p t Hp Hw).
      assert (t mod 4096 = 0) by (eapply table_aligned, Hw; [apply Ho1|done]). unfold idx_ok in Hi. zdm.
    + by rewrite page_of_offset.
  - destruct (si_rest _ _ _ _ Hs3) as (E1 & E2 & _). split_and!; [done|exact E1|exact E2].
Qed.
End CowCopy.

(** Making the entry writable in place. *)
Lemma sole_owner_ok root va e pt k :
  space_own user_half root k → user_half (PML4_INDEX va) → pte_at root va k = Some e →
  walk (k_mem k) root (upper_path va) = Some pt →
  let v := Z.lor (frame e) (unshared_flags e) in
  let k' := set_ent pt (PT_INDEX va) v k in
  space_own user_half root k' ∧ untouched user_half root k k' ∧
  ∀ vb, user_half (PML4_INDEX vb) → pte_at root vb k' = if decide (same_page va vb) then Some v else pte_at root vb k.
Proof.
  intros Ho HI He Hpt v k'. pose proof (so_wf _ _ _ Ho) as Hwf.
  pose proof (store_pte_step user_half root va pt v k Hwf HI Hpt) as Hst. fold k' in Hst.
  assert (frame v = frame e) as Hfv by (unfold v; unfold frame at 1 2; by rewrite land_lor_flags by apply unshared_mask).
  assert (∀ vb, user_half (PML4_INDEX vb) →
    pte_at root vb k' = if decide (same_page va vb) then Some v else pte_at root vb k) as Hpte.
  { intros vb HIb. unfold k'. rewrite (store_pte_at user_half root va pt v k Hwf HI Hpt vb HIb).
    assert (tst v PTE_PRESENT = true) as ->; [|done].
    pose proof (unshared_present e (pte_present _ _ _ _ He)) as Hp. unfold v. rewrite tst_present in *.
    by rewrite Z.lor_spec, Hp, orb_true_r. }
  split_and!; [|apply Hst|exact Hpte].
  refine (own_store user_half root va v k k' Ho Hst _ Hpte _ _ _).
  - apply (store_leaf_small user_half root k (upper_path va)); eauto with seedos. apply Ho.
  - rewrite Hfv. by apply (so_used _ _ _ Ho va).
  - intros p t Hp Hw. rewrite Hfv. unfold k' in Hw.
    rewrite (store_leaf_walk user_half root k (upper_path va)) in Hw; eauto with seedos.
    by apply (so_sep _ _ _ Ho va e p t).
  - intros vb e' HIb Hne He' E. rewrite Hfv in E. apply Hne. by apply (so_inj _ _ _ Ho va vb e e').
Qed.

Lemma page_mask_page a : 0 ≤ a < 2 ^ 64 → Z.land a (~64 0xFFF) = a / 4096 * 4096.
Proof.
  intros Ha. apply Z.bits_inj'. intros i Hi. rewrite Z.land_spec.
  change 4096 with (2 ^ 12). rewrite <- Z.shiftr_div_pow2, <- Z.shiftl_mul_pow2, Z.shiftl_spec by lia.
  destruct (decide (i < 64)) as [Hlt|Hge].
  - rewrite not64_testbit by lia. change 0xFFF with (Z.ones 12). rewrite Z.testbit_ones_nonneg by lia.
    destruct (Z.ltb_spec i 12); cbn [negb].
    + rewrite andb_false_r. symmetry. apply Z.testbit_neg_r. lia.
    + rewrite andb_true_r, Z.shiftr_spec by lia. f_equal. lia.
  - assert (Z.testbit a i = false) as Hf.
    { rewrite <- (Z.mod_small a (2 ^ 64)) by lia. apply Z.mod_pow2_bits_high. lia. }
    rewrite Hf. cbn. rewrite Z.shiftr_spec by lia. replace (i - 12 + 12) with i by lia. done.
Qed.

(** ** What the page-fault handler promises *)
From S2P Require Import VmmFree.

(** User words read the same through two entries with the same words. *)
Lemma words_kept root va k k' e e' :
  pte_at root va k = Some e → pte_at root va k' = Some e' →
  (∀ o, 0 ≤ o < 4096 → o mod 8 = 0 → rd (k_mem k') (frame e' + o) = rd (k_mem k) (frame e + o)) →
  ∀ vb, same_page va vb → vb mod 8 = 0 → user_word root vb k' = user_word root vb k.
Proof.
  intros He He' Hw vb Hs Hal. unfold user_word. rewrite <- !(same_page_pte root va vb) by done. rewrite He, He'.
  cbn [mbind option_bind]. f_equal. apply Hw; zdm.
Qed.

(** What a handled fault at [fault] on a page shared through entry [e] leaves:
    the entry is writable and no longer shared, on the old frame or on a page
    that was free. *)
Record unshared (root fault e : Z) (copy : bool) (k k' : kmem) : Prop := {
  us_own : space_own user_half root k';
  us_entry : ∃ f, pte_at root fault k' = Some (Z.lor f (unshared_flags e)) ∧
    frame (Z.lor f (unshared_flags e)) = f ∧
    if copy then (f / 4096) ∈ free_set (k_pmm k) ∧ free_set (k_pmm k') = free_set (k_pmm k) ∖ {[f / 4096]}
    else f = frame e ∧ k_pmm k' = k_pmm k;
  us_words : ∀ vb, user_half (PML4_INDEX vb) → vb mod 8 = 0 → user_word root vb k' = user_word root vb k;
  us_others : ∀ vb, user_half (PML4_INDEX vb) → ¬ same_page fault vb → pte_at root vb k' = pte_at root vb k;
  us_untouched : untouched user_half root k k';
}.

Lemma unshared_build root fault e f (copy : bool) k k' :
  space_own user_half root k → user_half (PML4_INDEX fault) → pte_at root fault k = Some e → space_own user_half root k' →
  untouched user_half root k k' →
  (∀ vb, user_half (PML4_INDEX vb) → pte_at root vb k' =
     if decide (same_page fault vb) then Some (Z.lor f (unshared_flags e)) else pte_at root vb k) →
  frame (Z.lor f (unshared_flags e)) = f →
  (if copy then (f / 4096) ∈ free_set (k_pmm k) ∧ free_set (k_pmm k') = free_set (k_pmm k) ∖ {[f / 4096]}
   else f = frame e ∧ k_pmm k' = k_pmm k) →
  (∀ o, 0 ≤ o < 4096 → o mod 8 = 0 → rd (k_mem k') (f + o) = rd (k_mem k) (frame e + o)) →
  unshared root fault e copy k k'.
Proof.
  intros Ho HI He Ho' Hu Hpte Hf Hc Hw.
  assert (pte_at root fault k' = Some (Z.lor f (unshared_flags e))) as He' by (by rewrite Hpte, decide_True).
  split; try done.
  - by exists f.
  - intros vb HIb Hal. destruct (decide (same_page fault vb)) as [Hs|Hs].
    + apply (words_kept root fault k k' e _ He He'); [|done|done]. by rewrite Hf.
    + apply (untouched_word user_half root k k'); [done..|]. by rewrite Hpte, decide_False.
  - intros vb HIb Hs. by rewrite Hpte, decide_False.
Qed.

(** The handler on a page with entry [e], in terms of the start of the page. *)
Lemma handle_cow_unfold root fault k e :
  0 ≤ fault < USER_SPACE_TOP → pte_at root fault k = Some e → tst e PTE_COW = true →
  let va := fault / 4096 * 4096 in
  same_page va fault ∧ user_half (PML4_INDEX va) ∧ user_half (PML4_INDEX fault) ∧ pte_at root va k = Some e ∧
  handle_cow_fault fault root k =
  (if page_get_refcount (frame e) (k_refs k) =? 1 then (0, (vmm_set_pte_flags root va (unshared_flags e) k).2)
   else
     let '(new_phys, p) := pmm_alloc (k_pmm k) in
     let k := set_pmm p k in
     if new_phys =? PMM_ALLOC_FAILED then (-1, k)
     else
       let k := set_mem (copy_page new_phys (frame e) (k_mem k)) k in
       let k := (vmm_map_page root va new_phys (unshared_flags e) (vmm_unmap_page root va k).2).2 in
       let k := set_refs (page_set_refcount new_phys 1 (k_refs k)) k in
       let '(r, p) := page_unref (frame e) (k_refs k) (k_pmm k) in
       (0, set_refs r (set_pmm p k))).
Proof.
  intros Hf He Hcow va. assert (same_page va fault) as Hs by (unfold same_page, va; f_equal; zdm).
  assert (pte_at root va k = Some e) as He' by (by rewrite (same_page_pte root va fault k Hs)).
  split_and!; [done|apply user_half_addr; unfold va; zdm|by apply user_half_addr|done|].
  unfold handle_cow_fault. rewrite page_mask_page by (unfold USER_SPACE_TOP in Hf; lia). fold va.
  rewrite vmm_get_pte_flags_pte, vmm_get_physical_pte, He', tst_cow_flags, Hcow. done.
Qed.

Lemma walk_of_pte root va k e :
  pte_at root va k = Some e → ∃ pt, walk (k_mem k) root (upper_path va) = Some pt.
Proof. unfold pte_at, leaf. destruct (walk _ _ (upper_path va)) as [pt|]; [by exists pt|done]. Qed.

Lemma page_addr_masked p n :
  total_pages p ≤ 2 ^ 40 → n ∈ free_set p → Z.land (n * 4096) PTE_ADDR_MASK = n * 4096.
Proof. intros Ht [Hr _]%elem_of_free_set. apply addr_mask_page; [apply Z.mod_mul|]; lia. Qed.

Lemma cow_sole root fault k e :
  space_own user_half root k → pte_at root fault k = Some e →
  let va := fault / 4096 * 4096 in
  same_page va fault → user_half (PML4_INDEX va) → user_half (PML4_INDEX fault) → pte_at root va k = Some e →
  let k' := (vmm_set_pte_flags root va (unshared_flags e) k).2 in
  unshared root fault e false k k' ∧ k_refs k' = k_refs k.
Proof.
  intros Ho He va Hs HIv HI Hev. rewrite vmm_set_pte_flags_walk, Hev.
  destruct (walk (k_mem k) root (upper_path va)) as [pt|] eqn:Hpt; [|unfold pte_at, leaf in Hev; by rewrite Hpt in Hev].
  cbn [snd]. destruct (sole_owner_ok root va e pt k Ho HIv Hev Hpt) as (Ho' & Hu & Hpte). split; [|done].
  apply (unshared_build root fault e (frame e) false k); try done.
  - intros vb HIb. rewrite Hpte by done. apply decide_ext. unfold same_page in *. by rewrite Hs.
  - unfold frame. by rewrite land_lor_flags by apply unshared_mask.
  - intros o Ho4 Ho8. destruct (frame_not_slot user_half root k va e o Ho HIv Hev Ho4). by apply Hu.
Qed.

Lemma cow_copied root fault va k e n k4 :
  space_own user_half root k → refs_wf (k_refs k) → same_page va fault → user_half (PML4_INDEX va) →
  user_half (PML4_INDEX fault) → pte_at root va k = Some e →
  page_get_refcount (frame e) (k_refs k) ≠ 1 → n ∈ free_set (k_pmm k) → 0 < n →
  remapped root va n e k (unshared_flags e) k4 →
  let '(r, p) := page_unref (frame e) (page_set_refcount (n * 4096) 1 (k_refs k4)) (k_pmm k4) in
  let k' := set_refs r (set_pmm p (set_refs (page_set_refcount (n * 4096) 1 (k_refs k4)) k4)) in
  unshared root fault e true k k' ∧
  pte_at root fault k' = Some (Z.lor (n * 4096) (unshared_flags e)) ∧ frame (Z.lor (n * 4096) (unshared_flags e)) = n * 4096 ∧
  (counted (n * 4096) (k_refs k) → page_get_refcount (n * 4096) (k_refs k') = 1) ∧
  (counted (frame e) (k_refs k) → page_get_refcount (frame e) (k_refs k') =
     let count := page_get_refcount (frame e) (k_refs k) in if decide (0 < count < 255) then count - 1 else count).
Proof.
  intros Ho Hrw Hs HIv HI Hev Hc Hn Hpos Hrm.
  assert (pte_at root fault k = Some e) as He by (by rewrite <- (same_page_pte root va fault k Hs)).
  destruct (rm_rest _ _ _ _ _ _ _ Hrm) as (Ep & Er & _). rewrite Er, Ep.
  pose proof (page_addr_masked (k_pmm k) n (sw_phys _ _ _ (so_wf _ _ _ Ho)) Hn) as Hm.
  set (r1 := page_set_refcount (n * 4096) 1 (k_refs k)).
  destruct (so_used _ _ _ Ho va e HIv Hev) as (_ & _ & Hfe).
  assert (n * 4096 / PAGE_SIZE = n) as Hdn by (apply Z.div_mul; unfold PAGE_SIZE; lia).
  assert (frame e / PAGE_SIZE ≠ n) as Hne by (unfold PAGE_SIZE; intros E; apply Hfe; by rewrite E).
  assert (page_get_refcount (frame e) r1 = page_get_refcount (frame e) (k_refs k)) as Hr1.
  { unfold r1. rewrite set_refcount_get, decide_False; [done|]. rewrite Hdn. by intros [E _]. }
  pose proof (set_refcount_wf (n * 4096) (k_refs k) Hrw) as Hw1. fold r1 in Hw1.
  pose proof (unref_keeps_page (frame e) r1 (take_page n (k_pmm k)) Hw1 ltac:(by rewrite Hr1)) as Hp.
  pose proof (unref_get (frame e) r1 (take_page n (k_pmm k))) as Hget.
  pose proof (unref_uncounted (frame e) r1 (take_page n (k_pmm k))) as Hun.
  destruct (page_unref (frame e) r1 (take_page n (k_pmm k))) as [r p]. cbn [fst snd] in *. subst p.
  assert (∀ vb, user_half (PML4_INDEX vb) → pte_at root vb k4 =
    if decide (same_page fault vb) then Some (Z.lor (n * 4096) (unshared_flags e)) else pte_at root vb k) as Hpte.
  { intros vb HIb. rewrite (rm_pte _ _ _ _ _ _ _ Hrm vb HIb). apply decide_ext. unfold same_page in *. by rewrite Hs. }
  assert (frame (Z.lor (n * 4096) (unshared_flags e)) = n * 4096) as Hfv.
  { unfold frame. rewrite <- Hm at 1. by rewrite land_lor_flags by apply unshared_mask. }
  split; [|split; [transitivity (pte_at root fault k4); [done|by rewrite Hpte, decide_True]|split; [done|]]].
  - apply (unshared_build root fault e (n * 4096) true k); try done.
    + apply (own_ext _ _ k4); [by rewrite Ep|done|apply Hrm].
    + apply Hrm.
    + cbn [k_pmm set_refs set_pmm]. change (n * 4096 / 4096) with (n * 4096 / PAGE_SIZE). rewrite Hdn.
      split; [done|apply take_page_free_set].
    + apply Hrm.
  - assert (counted (frame e) r1 ↔ counted (frame e) (k_refs k)) as Hce by apply set_refcount_counted.
    split; cbn [k_refs set_refs]; intros Hcnt.
    + transitivity (page_get_refcount (n * 4096) r1); [|unfold r1; by rewrite set_refcount_get, decide_True].
      destruct (decide (counted (frame e) r1)) as [Hc1|Hc1]; [|by rewrite Hun].
      rewrite Hget by done. cbn zeta. rewrite decide_False; [done|]. rewrite Hdn. by intros [E _].
    + rewrite Hget by (done || by apply Hce). rewrite Hr1. cbn zeta. repeat case_decide; naive_solver.
Qed.

