(* ===== verification/UserBytes.v ===== *)
(** * Bytes of user pages

    Frames are memory of 64-bit words ([Vmm]); the program loader writes
    single bytes through the direct map. *)
From S2P Require Import Prelude Pmm Page Vmm VmmWalk VmmMap VmmProps VmmCow UserMem FaultProps.
Local Open Scope Z_scope.

(** ** Bytes of words *)

Definition get_byte (w i : Z) : Z := Z.land (Z.shiftr w (8 * i)) 255.

Definition set_byte (w i b : Z) : Z := Z.lor (Z.ldiff w (Z.shiftl 255 (8 * i))) (Z.shiftl b (8 * i)).

Definition rd8 (m : gmap Z Z) (a : Z) : Z := get_byte (rd m (a / 8 * 8)) (a mod 8).

Definition wr8 (m : gmap Z Z) (a b : Z) : gmap Z Z := wr m (a / 8 * 8) (set_byte (rd m (a / 8 * 8)) (a mod 8) b).

Lemma testbit_255 n : 0 ≤ n → Z.testbit 255 n = (n <? 8).
Proof. intros Hn. change 255 with (Z.ones 8). by rewrite Z.testbit_ones_nonneg. Qed.

Lemma get_byte_testbit w i n : 0 ≤ i → 0 ≤ n → Z.testbit (get_byte w i) n = Z.testbit w (n + 8 * i) && (n <? 8).
Proof. intros Hi Hn. unfold get_byte. by rewrite Z.land_spec, Z.shiftr_spec, testbit_255. Qed.

Lemma byte_testbit b n : 0 ≤ b < 256 → 8 ≤ n → Z.testbit b n = false.
Proof.
  intros Hb Hn. destruct (decide (b = 0)) as [->|]; [apply Z.bits_0|]. apply Z.bits_above_log2; [lia|].
  assert (Z.log2 b < 8); [|lia]. apply Z.log2_lt_pow2; lia.
Qed.

Lemma get_set_byte w i j b :
  0 ≤ i < 8 → 0 ≤ j < 8 → 0 ≤ b < 256 → get_byte (set_byte w i b) j = if decide (j = i) then b else get_byte w j.
Proof.
  intros Hi Hj Hb. apply Z.bits_inj'. intros n Hn. rewrite get_byte_testbit by lia. unfold set_byte.
  rewrite Z.lor_spec, Z.ldiff_spec, !Z.shiftl_spec by lia. replace (n + 8 * j - 8 * i) with (n + 8 * (j - i)) by lia.
  destruct (decide (j = i)) as [->|Hne].
  - replace (n + 8 * (i - i)) with n by lia. rewrite testbit_255 by done. destruct (Z.ltb_spec n 8) as [|Hn8].
    + by rewrite andb_true_r, andb_false_r.
    + by rewrite andb_false_r, (byte_testbit b n).
  - rewrite get_byte_testbit by lia. destruct (Z.ltb_spec n 8) as [|Hn8]; [|by rewrite !andb_false_r].
    rewrite !andb_true_r. destruct (decide (j < i)) as [Hlt|Hge].
    + rewrite !(Z.testbit_neg_r _ (n + 8 * (j - i))) by lia. by rewrite andb_true_r, orb_false_r.
    + rewrite (byte_testbit b), testbit_255 by lia. destruct (Z.ltb_spec (n + 8 * (j - i)) 8); [lia|].
      by rewrite andb_true_r, orb_false_r.
Qed.

Lemma get_byte_bound w i : 0 ≤ get_byte w i < 256.
Proof. unfold get_byte. change 255 with (Z.ones 8). rewrite Z.land_ones by lia. apply Z.mod_pos_bound. lia. Qed.

Lemma get_byte_0 i : get_byte 0 i = 0.
Proof. unfold get_byte. by rewrite Z.shiftr_0_l. Qed.

Lemma rd8_wr8 m a b a' : 0 ≤ b < 256 → rd8 (wr8 m a b) a' = if decide (a' = a) then b else rd8 m a'.
Proof.
  intros Hb. unfold rd8, wr8. rewrite rd_wr. case_decide as E.
  - rewrite get_set_byte by (done || apply Z.mod_pos_bound; lia). rewrite E. destruct (decide (a' = a)) as [->|Hne].
    + by rewrite decide_True.
    + rewrite decide_False; [done|]. intros Em. apply Hne. zdm.
  - destruct (decide (a' = a)) as [->|]; [done|done].
Qed.

Lemma rd_wr8 m a b x : x ≠ a / 8 * 8 → rd (wr8 m a b) x = rd m x.
Proof. intros. unfold wr8. by apply rd_wr_ne. Qed.

(** A word store changes only its own bytes. *)
Lemma rd8_wr m x v a : x mod 8 = 0 → ¬ (x ≤ a < x + 8) → rd8 (wr m x v) a = rd8 m a.
Proof. intros Hx Ha. unfold rd8. rewrite rd_wr_ne; [done|]. zdm. Qed.

(** ** Stores into frames *)

(** A store outside the tables leaves the tables alone. *)
Lemma slots_walk I root k k' q :
  (∀ a, slot_of I root k a → rd (k_mem k') a = rd (k_mem k) a) → path_ok I q →
  walk (k_mem k') root q = walk (k_mem k) root q.
Proof.
  intros Hslot Hq. apply walk_ext. intros r j s t E Hr. rewrite E in Hq. unfold next_table, ent.
  rewrite Hslot; [done|]. exists r, t, j. eauto with seedos.
Qed.

Lemma slots_own I root k k' :
  space_own I root k → k_pmm k' = k_pmm k → (∀ a, slot_of I root k a → rd (k_mem k') a = rd (k_mem k) a) →
  space_own I root k' ∧ ∀ va, I (PML4_INDEX va) → pte_at root va k' = pte_at root va k.
Proof.
  intros Ho Ep Hslot. pose proof (slots_kept I root k k' (so_wf _ _ _ Ho) Hslot) as Hpte.
  assert (∀ q, path_ok I q → walk (k_mem k') root q = walk (k_mem k) root q) as Hw by (intros q; by apply slots_walk).
  split; [|done]. destruct Ho as [[W1 W2 W3 W4] H2 H3 H4 H5]. split.
  - split; rewrite ?Ep; [done|done| |].
    + intros p t Hp. rewrite Hw by done. by apply W3.
    + intros p q t Hp Hq. rewrite !Hw by done. by apply W4.
  - intros va e HI. rewrite Ep, Hpte by done. by apply H2.
  - intros va e p t HI He Hp. rewrite Hw by done. rewrite Hpte in He by done. by eapply H3.
  - intros va vb e e' HI HI'. rewrite !Hpte by done. by apply H4.
  - intros p t i Hp Hwp. rewrite Hw in Hwp by eauto with seedos. unfold ent. rewrite Hslot; [by apply (H5 p t i)|].
    exists p, t, i. eauto with seedos.
Qed.

Definition user_byte (root va : Z) (k : kmem) : option Z :=
  e ← pte_at root va k; Some (rd8 (k_mem k) (frame e + va mod 4096)).

Lemma frame_aligned I root va k e : space_own I root k → I (PML4_INDEX va) → pte_at root va k = Some e → frame e mod 4096 = 0.
Proof. intros Ho HI He. apply (so_used _ _ _ Ho va e HI He). Qed.

Lemma user_page_eq va vb : 0 ≤ va < USER_SPACE_TOP → 0 ≤ vb < USER_SPACE_TOP → same_page va vb ↔ va / 4096 = vb / 4096.
Proof. unfold same_page, USER_SPACE_TOP. change (2 ^ 36) with 68719476736. intros. split; intros; [zdm|by f_equal]. Qed.

(** Two user addresses with the same place in memory are equal. *)
Lemma frame_offset_inj root va vb k e e' o o' :
  space_own user_half root k → 0 ≤ va < USER_SPACE_TOP → 0 ≤ vb < USER_SPACE_TOP →
  pte_at root va k = Some e → pte_at root vb k = Some e' → 0 ≤ o < 4096 → 0 ≤ o' < 4096 →
  frame e + o = frame e' + o' → va / 4096 = vb / 4096 ∧ o = o'.
Proof.
  intros Ho Hva Hvb He He' Ho1 Ho2 E.
  pose proof (user_half_addr va Hva) as HI. pose proof (user_half_addr vb Hvb) as HI'.
  pose proof (frame_aligned _ _ _ _ _ Ho HI He). pose proof (frame_aligned _ _ _ _ _ Ho HI' He').
  assert (frame e = frame e' ∧ o = o') as [Ef ->] by zdm. split; [|done].
  apply user_page_eq; [done|done|]. by apply (so_inj _ _ _ Ho va vb e e').
Qed.

(** The word at [x] of the frame behind [va] gets the value [v]. *)
Lemma store_frame_own root va k e o v :
  space_own user_half root k → 0 ≤ va < USER_SPACE_TOP → pte_at root va k = Some e → 0 ≤ o < 4096 →
  let k' := set_mem (wr (k_mem k) (frame e + o) v) k in
  space_own user_half root k' ∧ ∀ vb, user_half (PML4_INDEX vb) → pte_at root vb k' = pte_at root vb k.
Proof.
  intros Ho Hva He Hof k'. apply slots_own; [done|done|]. intros a Ha. apply rd_wr_ne.
  intros E. subst a. by destruct (frame_not_slot user_half root k va e o Ho (user_half_addr va Hva) He Hof).
Qed.

Lemma aligned_word f o : f mod 4096 = 0 → 0 ≤ o → (f + o) / 8 * 8 = f + o / 8 * 8.
Proof. intros. zdm. Qed.

Lemma store_byte_ok root va k e b :
  space_own user_half root k → 0 ≤ va < USER_SPACE_TOP → pte_at root va k = Some e → 0 ≤ b < 256 →
  let k' := set_mem (wr8 (k_mem k) (frame e + va mod 4096) b) k in
  space_own user_half root k' ∧ (∀ vb, user_half (PML4_INDEX vb) → pte_at root vb k' = pte_at root vb k) ∧
  ∀ vb, 0 ≤ vb < USER_SPACE_TOP → user_byte root vb k' = if decide (vb = va) then Some b else user_byte root vb k.
Proof.
  intros Ho Hva He Hb k'. pose proof (frame_aligned _ _ _ _ _ Ho (user_half_addr va Hva) He) as Hal.
  assert (k' = set_mem (wr (k_mem k) (frame e + va mod 4096 / 8 * 8)
    (set_byte (rd (k_mem k) (frame e + va mod 4096 / 8 * 8)) ((frame e + va mod 4096) mod 8) b)) k) as Ek
    by (unfold k', wr8; by rewrite aligned_word by (done || zdm)).
  destruct (store_frame_own root va k e (va mod 4096 / 8 * 8) (set_byte (rd (k_mem k) (frame e + va mod 4096 / 8 * 8)) ((frame e + va mod 4096) mod 8) b) Ho Hva He) as [Ho' Hpte]; [zdm|].
  rewrite <- Ek in Ho', Hpte. split_and!; [done|done|]. intros vb Hvb. unfold user_byte.
  rewrite Hpte by (by apply user_half_addr). destruct (pte_at root vb k) as [e'|] eqn:He'; cbn [mbind option_bind].
  - unfold k'. cbn [k_mem set_mem]. rewrite rd8_wr8 by done. destruct (decide (vb = va)) as [->|Hne].
    + rewrite He in He'. injection He' as <-. by rewrite decide_True.
    + rewrite decide_False; [done|]. intros E. apply Hne.
      destruct (frame_offset_inj root vb va k e' e (vb mod 4096) (va mod 4096) Ho Hvb Hva He' He); [zdm|zdm|done|zdm].
  - case_decide; [congruence|done].
Qed.

Lemma store_word_ok root va k e v :
  space_own user_half root k → 0 ≤ va < USER_SPACE_TOP → va mod 8 = 0 → pte_at root va k = Some e →
  let k' := set_mem (wr (k_mem k) (frame e + va mod 4096) v) k in
  space_own user_half root k' ∧ (∀ vb, user_half (PML4_INDEX vb) → pte_at root vb k' = pte_at root vb k) ∧
  (∀ vb, 0 ≤ vb < USER_SPACE_TOP → user_word root vb k' = if decide (vb = va) then Some v else user_word root vb k) ∧
  ∀ vb, 0 ≤ vb < USER_SPACE_TOP → ¬ (va ≤ vb < va + 8) → user_byte root vb k' = user_byte root vb k.
Proof.
  intros Ho Hva Hal He k'. pose proof (frame_aligned _ _ _ _ _ Ho (user_half_addr va Hva) He) as Hfa.
  destruct (store_frame_own root va k e (va mod 4096) v Ho Hva He) as [Ho' Hpte]; [zdm|]. split_and!; [done|done| |].
  - intros vb Hvb. unfold user_word. rewrite Hpte by (by apply user_half_addr).
    destruct (pte_at root vb k) as [e'|] eqn:He'; cbn [mbind option_bind]; [|case_decide; [congruence|done]].
    unfold k'. cbn [k_mem set_mem]. rewrite rd_wr. destruct (decide (vb = va)) as [->|Hne].
    + rewrite He in He'. injection He' as <-. by rewrite decide_True.
    + rewrite decide_False; [done|]. intros E. apply Hne.
      destruct (frame_offset_inj root vb va k e' e (vb mod 4096) (va mod 4096) Ho Hvb Hva He' He); [zdm|zdm|done|zdm].
  - intros vb Hvb Hout. unfold user_byte. rewrite Hpte by (by apply user_half_addr).
    destruct (pte_at root vb k) as [e'|] eqn:He'; cbn [mbind option_bind]; [|done].
    unfold k'. cbn [k_mem set_mem]. rewrite rd8_wr; [done|zdm|]. intros Hin. apply Hout.
    pose proof (frame_aligned _ _ _ _ _ Ho (user_half_addr vb Hvb) He') as Hfa'.
    destruct (frame_offset_inj root vb va k e' e (vb mod 4096) (vb mod 4096) Ho Hvb Hva He' He); [zdm|zdm|zdm|zdm].
Qed.

(** The bytes of a value, little end first. *)
Fixpoint le (n : nat) (v : Z) : list Z :=
  match n with
  | O => []
  | S n => v mod 256 :: le n (v / 256)
  end.

Lemma le_length n v : length (le n v) = n.
Proof. revert v. induction n; intros; cbn; auto. Qed.

(** ** Mappings of the kernel

    What [vmm_map_page] and [vmm_unmap_page] do to the part [I] of a root
    table, for callers that map frames of devices and firmware. *)
Section KernMap.
Context (I : Z → Prop) (root : Z).
Implicit Types k : kmem.

(** A word that the page tables and the allocator leave alone. *)
Definition reserved k (x : Z) : Prop := ¬ slot_of I root k x ∧ ((x / 4096) ∉ free_set (k_pmm k)).

Lemma region_reserved k k' x : space_wf I root k → region_step I root k k' → reserved k x → reserved k' x ∧ rd (k_mem k') x = rd (k_mem k) x.
Proof.
  intros Hwf Hr [Hs Hf]. split; [split|by apply (rs_untouched _ _ _ _ Hr)].
  - intros (p & t & i & Hok & Hw & ->). destruct Hok as (Hpo & Hi & Hh).
    destruct (rs_tables _ _ _ _ Hr p t Hpo Hw) as [Hw'|Hin]; [apply Hs; by exists p, t, i|].
    apply Hf. rewrite slot_page; [done| |done]. by eapply table_aligned; [apply Hr| |exact Hw].
  - intros Hin. by apply Hf, (rs_free _ _ _ _ Hr).
Qed.

(** One page. *)
Lemma map_page_ok va phys flags k :
  space_wf I root k → I (PML4_INDEX va) → tst flags PTE_PRESENT = true →
  let '(r, k') := vmm_map_page root va phys flags k in
  region_step I root k k' ∧ kernel_pml4_phys k' = kernel_pml4_phys k ∧ (available k ≤ available k' + 3)%nat ∧
  (∀ vb, I (PML4_INDEX vb) → ¬ same_page va vb → pte_at root vb k' = pte_at root vb k) ∧
  ((r = 0 ∧ pte_at root va k' = Some (Z.lor (Z.land phys PTE_ADDR_MASK) flags)) ∨ (r = -1 ∧ (available k < 3)%nat)).
Proof.
  intros Hwf HI Hp. destruct (vmm_map_page root va phys flags k) as [r k'] eqn:E.
  pose proof (space_exec_step I root k (DoMap va phys flags) Hwf HI) as Hst. cbn [space_exec] in Hst. rewrite E in Hst.
  pose proof (map_page_cases I root va phys flags k Hwf HI) as H. rewrite E in H.
  destruct H as [(k1 & pt & Hs & Hw & [= -> ->])|(k1 & Hs & Hf & Ha & [= -> ->])]; (split; [exact Hst|]).
  - destruct (map_page_grows I root va phys flags k _ Hwf HI E) as [_ Hav]. split_and!; [apply Hs|lia| |left; split; [done|]].
    + intros vb HIb Hne. rewrite (store_pte_at I root va pt _ k1 (si_wf _ _ _ _ Hs) HI Hw vb HIb), decide_False by done.
      unfold pte_at. apply (si_leaf _ _ _ _ Hs); eauto with seedos.
    + rewrite (store_pte_at I root va pt _ k1 (si_wf _ _ _ _ Hs) HI Hw va HI), decide_True by done.
      rewrite tst_present in *. by rewrite Z.lor_spec, Hp, orb_true_r.
  - split_and!; [apply Hs| | |right; split; [done|lia]].
    + unfold available. rewrite Hf. lia.
    + intros vb HIb _. unfold pte_at. apply (si_leaf _ _ _ _ Hs); eauto with seedos.
Qed.
End KernMap.
