(* ===== verification/MemWitness.v ===== *)
(** * User memory on a concrete machine

    The machine of [VmmFree] satisfies the hypotheses of the theorems on
    the memory system calls and on page faults; the last section runs calls
    whose arguments lie outside those hypotheses. *)
From S2P Require Import Prelude Alloc Kthread Vfs Process.
From S2P Require Import Pmm Page Vmm VmmWalk VmmMap VmmProps VmmCow VmmFree UserMem Fault FaultProps.
From S2P Require Import MemSys MemSysProps.
Local Open Scope Z_scope.

(** A root whose entries are zero owns an empty space. *)
Section EmptySpace.
Context (I : Z → Prop) (root : Z) (k : kmem).
Hypothesis (Hempty : ∀ i, idx_ok i → I i → ent (k_mem k) root i = 0).

Lemma empty_walk i p : idx_ok i → I i → VmmWalk.walk (k_mem k) root (i :: p) = None.
Proof. intros Hi Hu. cbn [VmmWalk.walk]. unfold next_table. by rewrite Hempty. Qed.

Lemma empty_pte va : I (PML4_INDEX va) → pte_at root va k = None.
Proof. intros HI. unfold pte_at, leaf, upper_path. by rewrite empty_walk by (done || apply index_ok). Qed.

Lemma space_own_empty : space_wf I root k → space_own I root k.
Proof.
  intros Hwf. split; [done| | | |].
  - intros va e HI He. by rewrite empty_pte in He.
  - intros va e p t HI He. by rewrite empty_pte in He.
  - intros va vb e e' HI _ He. by rewrite empty_pte in He.
  - intros [|j p] t i Hp Hw.
    + injection Hw as <-. destruct Hp as (Hi & _ & Hu). rewrite Hempty; [done|by inversion Hi|done].
    + destruct Hp as (Hi & _ & Hu). rewrite empty_walk in Hw; [done|by inversion Hi|done].
Qed.
End EmptySpace.

Lemma machine_ent_user i : idx_ok i → user_half i → ent (k_mem machine) 0x2000 i = 0.
Proof.
  intros Hi Hu. unfold idx_ok, user_half in *. unfold ent. cbn [k_mem machine].
  rewrite rd_wr_ne by lia. unfold rd. by rewrite lookup_empty.
Qed.

Lemma machine_pte va : user_half (PML4_INDEX va) → pte_at 0x2000 va machine = None.
Proof. apply empty_pte, machine_ent_user. Qed.

Lemma machine_own : space_own user_half 0x2000 machine.
Proof. exact (space_own_empty _ _ _ machine_ent_user machine_wf). Qed.

(** A page mapped at 4 MiB with the given flags, by the code under
    verification. *)
Definition user_page (flags : Z) : Z * kmem := map_user_page 0x2000 0x400000 flags machine.

Lemma user_page_own flags :
  Z.land flags PTE_ADDR_MASK = 0 → tst flags PTE_PRESENT = true → (user_page flags).1 = 0 →
  space_own user_half 0x2000 (user_page flags).2.
Proof.
  intros Hm Hp Hr. unfold user_page in *.
  destruct (map_user_page_cases user_half 0x2000 0x400000 flags machine machine_own ltac:(reflexivity) Hm Hp)
    as [(k' & E & Hk)|(r & k' & E & Hr' & _)]; rewrite E in *; cbn [fst snd] in *; [apply Hk|lia].
Qed.



(** A process whose break is at 4 MiB. *)
Definition proc_4m : process :=
  Process 7 [] PROC_RUNNING 0x2000 0x400000 0x400000 0 0 0 0 0 0 0 [] 0 0 0 0 0 0 0 0.



(** ** Calls outside the hypotheses *)

(** After a fork both processes map the frame but its count is one, so the
    first write fault makes the entry writable in place: the writer changes
    the page of the other process. *)
Theorem fork_write_shared :
  let '(r, k') := handle_cow_fault 0x400000 0x2000 forked_space.2 in
  r = 0 ∧ pte_at 0x2000 0x400000 k' = Some 0x9007 ∧ pte_at 0x6000 0x400000 k' = Some 0x9205.
Proof. vm_compute. auto. Qed.

(** [brk(-1)] wraps to page 0: every page below the break is unmapped and the
    call reports success. *)
Theorem brk_wraps :
  let p := Process 7 [] PROC_RUNNING 0x2000 0x401000 0x401000 0 0 0 0 0 0 0 [] 0 0 0 0 0 0 0 0 in
  let k := (user_page 7).2 in
  let '(r, p', k') := sys_brk (2 ^ 64 - 1) (Some p) k in
  r = -1 ∧ option_map brk p' = Some (2 ^ 64 - 1) ∧
  is_Some (pte_at 0x2000 0x400000 k) ∧ pte_at 0x2000 0x400000 k' = None.
Proof. vm_compute. split_and!; eauto. Qed.

(** A fixed mapping may be placed in the kernel half: the entry of the
    kernel's own address is made accessible to user code. *)
Theorem mmap_fixed_kernel_half :
  let '(r, _, k') := sys_mmap (Some 0x2000) 0xFFFF800000000000 4096 2 0x30 (2 ^ 64 - 1) USER_MMAP_START machine in
  r = s64 0xFFFF800000000000 ∧
  tst (vmm_get_pte_flags 0x2000 0xFFFF800000000000 k') PTE_USER = true ∧
  tst (vmm_get_pte_flags 0x2000 0xFFFF800000000000 k') PTE_WRITABLE = true.
Proof. vm_compute. auto. Qed.
