(* ===== verification/ProcSys.v ===== *)
(** * Process and file system calls ([arch/x86/kernel/syscall.c])

    The handlers as functions on the state of the kernel.  User pointers are
    checked by the code under [VmmProps] and then dereferenced: [d_mem] is
    memory as the processor addresses it. *)
From S2P Require Import Prelude Pmm Page Vmm Heap HeapInv HeapProps HeapSpec Alloc Kthread.
From S2P Require Import Console Keyboard Serial Terminal Ext2 Vfs Process UserMem MemSys.
Local Open Scope Z_scope.

Definition PATH_MAX : Z := 256.
Definition WNOHANG : Z := 1.

(** The kernel's state, the devices, and the static variable of [mmap]. *)
Record sys (H : Type) := Sys { s_os : os H; s_dev : devices; s_mmap_next : Z }.
Arguments Sys {H} _ _ _.
Arguments s_os {H} _.
Arguments s_dev {H} _.
Arguments s_mmap_next {H} _.

(** A handler returns, or stays in the kernel for ever. *)
Inductive sysres (S : Type) := Returns (r : Z) (s : S) | Stays (s : S).
Arguments Returns {S} _ _.
Arguments Stays {S} _.

Section Handlers.
Context {H : Type} `{!Allocator H} (font_data : Z → Z).

Definition set_os (o : os H) (s : sys H) : sys H := Sys o (s_dev s) (s_mmap_next s).

Definition set_dev (d : devices) (s : sys H) : sys H := Sys (s_os s) d (s_mmap_next s).

Definition set_user (m : gmap Z Z) (s : sys H) : sys H := set_dev (set_d_mem m (s_dev s)) s.

Definition on_os (f : os H → os H) (s : sys H) : sys H := set_os (f (s_os s)) s.

Definition cur (s : sys H) : Z := current_proc (s_os s).

Definition cur_proc (s : sys H) : process := proc (s_os s) (cur s).

Definition fd_at (s : sys H) (fd : Z) : fd_entry := nth (Z.to_nat fd) (fd_table (cur_proc s)) no_fd.

(** ** read, write and close *)

Definition bad_fd (fd : Z) (s : sys H) : bool :=
  (Z.of_nat PROC_MAX_FDS <=? fd) || (fd_file (fd_at s fd) =? 0).

Definition sys_read (fd buf count : Z) (wakeups : list (keyboard → keyboard)) (s : sys H) : sysres (sys H) :=
  if cur s =? 0 then Returns (- EBADF) s
  else if bad_fd fd s then Returns (- EBADF) s
  else if count =? 0 then Returns 0 s
  else if negb (vmm_user_range_writable (pml4_phys (cur_proc s)) buf count (o_k (s_os s))) then Returns (- EFAULT) s
  else
    match vfs_read (fd_file (fd_at s fd)) buf count wakeups (o_fs (s_os s)) (s_dev s) with
    | Some (r, fs, d) => Returns r (set_dev d (on_os (set_fs fs) s))
    | None => Stays s
    end.

Definition sys_write (fd buf count : Z) (s : sys H) : sysres (sys H) :=
  if cur s =? 0 then Returns (- EBADF) s
  else if bad_fd fd s then Returns (- EBADF) s
  else if count =? 0 then Returns 0 s
  else if negb (vmm_user_range_readable (pml4_phys (cur_proc s)) buf count (o_k (s_os s))) then Returns (- EFAULT) s
  else
    let '(r, d) := vfs_write font_data (fd_file (fd_at s fd)) buf count (o_fs (s_os s)) (s_dev s) in
    Returns r (set_dev d s).

Definition sys_close (fd : Z) (s : sys H) : sysres (sys H) :=
  if cur s =? 0 then Returns (- ESRCH) s
  else if Z.of_nat PROC_MAX_FDS <=? fd then Returns (- EBADF) s
  else
    let file := fd_file (fd_at s fd) in
    if file =? 0 then Returns (- EBADF) s
    else
      let s := on_os (set_fs (vfs_close file (o_fs (s_os s))).2) s in
      Returns 0 (on_os (set_fd (cur s) fd no_fd) s).

(** ** open *)

(** The loop of [copy_string_from_user]: the bytes before the terminator, or
    [None] when there is none among the first [n]. *)
Fixpoint user_string (n : nat) (user : Z) (m : gmap Z Z) : option (list Z) :=
  match n with
  | O => None
  | S n' => if rd m user =? 0 then Some [] else s ← user_string n' (user + 1) m; Some (rd m user :: s)
  end.

(** The string or a negative error number. *)
Definition copy_string_from_user (src max : Z) (m : gmap Z Z) : list Z + Z :=
  if max =? 0 then inr (- EINVAL)
  else if negb (vmm_validate_user_range src 1) then inr (- EFAULT)
  else
    let safe_max := USER_SPACE_TOP - src in
    let safe_max := if max <? safe_max then max else safe_max in
    match user_string (Z.to_nat safe_max) src m with
    | Some path => inl path
    | None => if safe_max <? max then inr (- EFAULT) else inr (- ENAMETOOLONG)
    end.

(** [lookup_fuel] bounds the directory searches of [ext2_lookup]; [Stays] when
    a search does not end. *)
Definition sys_open (lookup_fuel : nat) (pathname flags : Z) (s : sys H) : sysres (sys H) :=
  if cur s =? 0 then Returns (- ESRCH) s
  else
    let m := d_mem (s_dev s) in
    let e2 := d_ext2 (s_dev s) in
    match copy_string_from_user pathname PATH_MAX m with
    | inr err => Returns err s
    | inl path =>
        match ext2_lookup e2 m lookup_fuel path with
        | None => Stays s
        | Some ino =>
            if ino =? 0 then Returns (- ENOENT) s
            else
              let inode := ext2_read_inode e2 m ino in
              if inode =? 0 then Returns (- EIO) s
              else if negb (ext2_is_regular_file m inode) then Returns (- EISDIR) s
              else
                let p := cur s in
                let fd := process_fd_alloc p (s_os s) in
                if fd <? 0 then Returns (- EMFILE) s
                else
                  let '(file, fs) := vfs_file_alloc (o_fs (s_os s)) in
                  let s := on_os (set_fs fs) s in
                  if file =? 0 then Returns (- ENOMEM) (on_os (process_fd_free p fd) s)
                  else
                    let '(priv, o) := kmalloc_os sizeof_ext2_private (s_os s) in
                    let s := set_os o s in
                    if priv =? 0 then
                      let s := on_os (set_fs (vfs_close file (o_fs (s_os s))).2) s in
                      Returns (- ENOMEM) (on_os (process_fd_free p fd) s)
                    else
                      let fs := o_fs (s_os s) in
                      let f := VfsFile VFS_TYPE_REG (s32 flags) 0 (f_refcount (file_at fs file)) ext2_file_ops priv in
                      let fs := Fstore (fs_heap fs) (<[file := f]> (files fs))
                        (<[priv := Ext2Private ino inode (ext2_get_file_size m inode)]> (privs fs)) in
                      let s := on_os (set_fs fs) s in
                      Returns fd (on_os (set_fd p fd (FdEntry file 0)) s)
        end
    end.

(** ** Identity, exit *)

Definition sys_getpid (s : sys H) : Z := if cur s =? 0 then 0 else s64 (pid (cur_proc s)).

Definition sys_getppid (s : sys H) : Z :=
  if cur s =? 0 then 0
  else if negb (p_parent (cur_proc s) =? 0) then s64 (pid (proc (s_os s) (p_parent (cur_proc s)))) else 0.

Definition sys_exit (status : Z) (s : sys H) : sysres (sys H) :=
  if negb (cur s =? 0) then Stays (on_os (process_exit (s32 status)) s) else Stays s.

(** ** uname *)

Definition syscall_strncpy (dst : Z) (src : list Z) (n : nat) (m : gmap Z Z) : gmap Z Z :=
  let copied := take (n - 1) src in
  wr (store_bytes dst copied m) (dst + Z.of_nat (length copied)) 0.

(** "SeedOS", "seed", "0.1.0", "#1 SMP", "x86_64" *)
Definition uts_sysname : list Z := [83; 101; 101; 100; 79; 83].
Definition uts_nodename : list Z := [115; 101; 101; 100].
Definition uts_release : list Z := [48; 46; 49; 46; 48].
Definition uts_version : list Z := [35; 49; 32; 83; 77; 80].
Definition uts_machine : list Z := [120; 56; 54; 95; 54; 52].

Definition sys_uname (buf : Z) (s : sys H) : Z * sys H :=
  if cur s =? 0 then (- ESRCH, s)
  else if negb (vmm_user_range_writable (pml4_phys (cur_proc s)) buf 325 (o_k (s_os s))) then (- EFAULT, s)
  else
    let m := d_mem (s_dev s) in
    let m := syscall_strncpy buf uts_sysname 65 m in
    let m := syscall_strncpy (buf + 65) uts_nodename 65 m in
    let m := syscall_strncpy (buf + 130) uts_release 65 m in
    let m := syscall_strncpy (buf + 195) uts_version 65 m in
    let m := syscall_strncpy (buf + 260) uts_machine 65 m in
    (0, set_user m s).

(** ** arch_prctl *)

Definition ARCH_SET_GS : Z := 0x1001.
Definition ARCH_SET_FS : Z := 0x1002.
Definition ARCH_GET_FS : Z := 0x1003.
Definition ARCH_GET_GS : Z := 0x1004.

Definition wrmsr_fs (v : Z) (c : cpu) : cpu := Cpu v (msr_kernel_gs_base c) (tss_rsp0 c) (kernel_rsp c) (cr3 c).

Definition wrmsr_kernel_gs (v : Z) (c : cpu) : cpu := Cpu (msr_fs_base c) v (tss_rsp0 c) (kernel_rsp c) (cr3 c).

(** Store a base register at [addr] if the user may write there. *)
Definition get_base (addr v : Z) (s : sys H) : Z * sys H :=
  if negb (vmm_validate_user_range addr 8) then (- EFAULT, s)
  else if negb (vmm_user_range_writable (pml4_phys (cur_proc s)) addr 8 (o_k (s_os s))) then (- EFAULT, s)
  else (0, set_user (store 8 (d_mem (s_dev s)) addr v) s).

Definition sys_arch_prctl (code addr : Z) (s : sys H) : Z * sys H :=
  if cur s =? 0 then (- ESRCH, s)
  else if code =? ARCH_SET_FS then
    if negb (canonical_addr addr) then (- EINVAL, s)
    else (0, on_os (λ o, set_cpu (wrmsr_fs addr (o_cpu o)) (pupd (cur s) (set_fs_base addr) o)) s)
  else if code =? ARCH_GET_FS then get_base addr (fs_base (cur_proc s)) s
  else if code =? ARCH_SET_GS then
    if negb (canonical_addr addr) then (- EINVAL, s)
    else (0, on_os (λ o, set_cpu (wrmsr_kernel_gs addr (o_cpu o)) (pupd (cur s) (set_gs_base addr) o)) s)
  else if code =? ARCH_GET_GS then get_base addr (gs_base (cur_proc s)) s
  else (- EINVAL, s).

(** ** wait4 *)

Fixpoint children_find (fuel : nat) (ok : process → bool) (c : Z) (o : os H) : Z :=
  match fuel with
  | O => 0
  | S fuel' => if c =? 0 then 0 else if ok (proc o c) then c else children_find fuel' ok (p_sibling (proc o c)) o
  end.

Definition find_zombie_child (parent wpid : Z) (o : os H) : Z :=
  children_find (chain_fuel o)
    (λ c, negb ((0 <? wpid) && negb (s64 (pid c) =? wpid)) && bool_decide (p_state c = PROC_ZOMBIE))
    (p_children (proc o parent)) o.

Definition has_matching_children (parent wpid : Z) (o : os H) : bool :=
  negb (children_find (chain_fuel o) (λ c, (wpid =? -1) || ((0 <? wpid) && (s64 (pid c) =? wpid)))
          (p_children (proc o parent)) o =? 0).

Definition W_EXITCODE (code : Z) : Z := Z.shiftl (Z.land code 0xff) 8.

(** The wait loop.  [wakes] are the effects of what runs while the caller is in
    [hlt]; [asleep] is the inner loop. *)
Fixpoint wait_loop (wakes : list (sys H → sys H)) (asleep : bool) (wpid wstatus options : Z) (s : sys H)
    : sysres (sys H) :=
  if asleep && bool_decide (p_state (cur_proc s) = PROC_SLEEPING) then
    match wakes with
    | [] => Stays s
    | w :: wakes => wait_loop wakes true wpid wstatus options (w s)
    end
  else
    let child := find_zombie_child (cur s) wpid (s_os s) in
    if negb (child =? 0) then
      let c := proc (s_os s) child in
      let s := if negb (wstatus =? 0)
               then set_user (store 4 (d_mem (s_dev s)) wstatus (W_EXITCODE (exit_code c))) s else s in
      Returns (s64 (pid c)) (on_os (process_destroy child) s)
    else if negb (has_matching_children (cur s) wpid (s_os s)) then Returns (- ECHILD) s
    else if tst options WNOHANG then Returns 0 s
    else
      let s := on_os (pupd (cur s) (λ p, set_p_state PROC_SLEEPING (set_wait_pid (s32 wpid) p))) s in
      match wakes with
      | [] => Stays s
      | w :: wakes => wait_loop wakes true wpid wstatus options (w s)
      end.

Definition sys_wait4 (pid_arg wstatus options : Z) (wakes : list (sys H → sys H)) (s : sys H) : sysres (sys H) :=
  if cur s =? 0 then Returns (- ESRCH) s
  else if negb (wstatus =? 0) &&
          negb (vmm_user_range_writable (pml4_phys (cur_proc s)) wstatus 4 (o_k (s_os s))) then Returns (- EFAULT) s
  else wait_loop wakes false (s64 pid_arg) wstatus options s.

(** ** fork *)

(** A reference for each open descriptor. *)
Definition ref_fds (fds : list fd_entry) (fs : fstore H) : fstore H :=
  foldl (λ fs e, if negb (fd_file e =? 0) then vfs_file_ref (fd_file e) fs else fs) fs fds.

(** The child's block: a copy of the parent's with its own identity. *)
Definition child_block (id root stack_top parent : Z) (p : process) : process :=
  Process id (p_name p) PROC_RUNNABLE root (brk_start p) (brk p) 0 stack_top (user_rip p) (user_rsp p) (user_rflags p)
    (fs_base p) (gs_base p) (fd_table p) parent 0 (p_children p) 0 (-1) (pending_signals p) (blocked_signals p) (p_next p).

(** The thread that takes the child to user mode, and the result of the call;
    halts where [kthread_create] does. *)
Definition start_child (trampoline name entry id child : Z) (o : os H) (s : sys H) : outcome (sysres (sys H)) :=
  match kthread_create trampoline name entry child (fs_heap (o_fs o)) (o_sched o) with
  | Halted => Halted
  | Done (tid, h, sc) =>
      let o := set_sched sc (set_heap h o) in
      if tid =? 0 then Done (Returns (- ENOMEM) (set_os (process_destroy child o) s))
      else
        let o := pupd child (set_p_kthread (kthread_get_kthread tid (o_sched o))) o in
        Done (Returns (s64 id) (set_os o s))
  end.

(** [trampoline], [name] and [entry] are the addresses that [kthread_create]
    receives and uses. *)
Definition sys_fork (trampoline name entry : Z) (s : sys H) : outcome (sysres (sys H)) :=
  if cur s =? 0 then Done (Returns (- ESRCH) s)
  else
    let parent := cur s in
    let '(child, o) := kmalloc_os sizeof_process (s_os s) in
    if child =? 0 then Done (Returns (- ENOMEM) (set_os o s))
    else
      let '(kernel_stack, o) := kmalloc_os KERNEL_STACK_SIZE o in
      if kernel_stack =? 0 then Done (Returns (- ENOMEM) (set_os (kfree_os child o) s))
      else
        let '(root, k) := vmm_copy_address_space_cow (pml4_phys (proc o parent)) (o_k o) in
        let o := set_k k o in
        if root =? 0 then Done (Returns (- ENOMEM) (set_os (kfree_os child (kfree_os kernel_stack o)) s))
        else
          let '(id, o) := process_allocate_pid o in
          let fds := fd_table (proc o parent) in
          let o := set_fs (ref_fds fds (o_fs o)) o in
          let c := child_block id root (u64 (kernel_stack + KERNEL_STACK_SIZE)) parent (proc o parent) in
          let o := set_procs (<[child := c]> (procs o)) o in
          let o := pupd parent (set_p_children child) o in
          start_child trampoline name entry id child (process_add child o) s.
End Handlers.
