(* ===== verification/ProcList.v ===== *)
(** * Linked lists of processes

    The list of all processes and the lists of children, and what linking,
    unlinking and handing over children do to them. *)
From S2P Require Import Prelude Pmm Page Vmm Heap HeapInv HeapProps HeapSpec Alloc Kthread.
From S2P Require Import Console Keyboard Serial Terminal Ext2 Vfs Process.
Local Open Scope Z_scope.

(** ** Chains of pointers *)

Fixpoint linked (link : Z → Z) (h : Z) (l : list Z) : Prop :=
  match l with
  | [] => h = 0
  | x :: l => h = x ∧ x ≠ 0 ∧ linked link (link x) l
  end.

Lemma linked_ext link link' h l : (∀ x, x ∈ l → link' x = link x) → linked link h l → linked link' h l.
Proof.
  revert h. induction l as [|x l IH]; intros h Hl; cbn [linked]; [done|].
  intros (-> & Hx & Hc). split; [done|]. split; [done|]. rewrite Hl by set_solver. apply IH; [|done]. set_solver.
Qed.

Lemma linked_head link h l : linked link h l → h = 0 ↔ l = [].
Proof. destruct l; cbn [linked]; naive_solver. Qed.

Lemma linked_unique link h l l' : linked link h l → linked link h l' → l = l'.
Proof.
  revert h l'. induction l as [|x l IH]; intros h [|y l']; cbn [linked]; [done|naive_solver|naive_solver|].
  intros (-> & Hx & Hl) (<- & _ & Hl'). f_equal. by apply (IH (link x)).
Qed.

(** Skipping the node after [q]. *)
Lemma linked_skip link link' h l q p r :
  NoDup (l ++ q :: p :: r) → linked link h (l ++ q :: p :: r) →
  link' q = link p → (∀ x, x ≠ q → x ≠ p → link' x = link x) → linked link' h (l ++ q :: r).
Proof.
  revert h. induction l as [|x l IH]; intros h Hnd; cbn [linked app].
  - intros (-> & Hq & Hqp & Hp & Hr) Eq Hother. split; [done|]. split; [done|]. rewrite Eq.
    eapply linked_ext; [|exact Hr]. apply list.NoDup_cons in Hnd as [Hq' Hnd]. apply list.NoDup_cons in Hnd as [Hp' _].
    intros x Hx. apply Hother; set_solver.
  - intros (-> & Hx & Hc) Eq Hother. apply list.NoDup_cons in Hnd as [Hx' Hnd]. split; [done|]. split; [done|].
    rewrite Hother by set_solver. by apply IH.
Qed.

Lemma skip_nodup (l1 l2 : list Z) q p :
  NoDup (l1 ++ q :: p :: l2) →
  NoDup (l1 ++ q :: l2) ∧ p ≠ q ∧ ∀ y, y ∈ l1 ++ q :: l2 ↔ y ∈ l1 ++ q :: p :: l2 ∧ y ≠ p.
Proof.
  assert (l1 ++ q :: p :: l2 ≡ₚ p :: (l1 ++ q :: l2)) as E by solve_Permutation.
  intros Hnd. rewrite E in Hnd. apply list.NoDup_cons in Hnd as [Hp Hnd]. split_and!; [done|set_solver|].
  intros y. rewrite E, elem_of_cons. naive_solver.
Qed.

(** ** Families

    [D] are the processes, [lst] and [nx] the list of all of them, [pa] the
    parents, [ch] and [sb] the lists of children. *)
Record family (D : gset Z) (lst : Z) (nx pa ch sb : Z → Z) : Prop := {
  fa_list : ∃ l, linked nx lst l ∧ NoDup l ∧ ∀ p, p ∈ l ↔ p ∈ D;
  fa_kids : ∀ r, r ∈ D → ∃ cs, linked sb (ch r) cs ∧ NoDup cs ∧ ∀ c, c ∈ cs ↔ c ∈ D ∧ pa c = r;
  fa_parent : ∀ c, c ∈ D → pa c = 0 ∨ pa c ∈ D;
  fa_null : 0 ∉ D;
}.

Definition fput (f : Z → Z) (x v : Z) : Z → Z := λ y, if decide (y = x) then v else f y.

Lemma fput_eq f x v : fput f x v x = v.
Proof. unfold fput. by rewrite decide_True. Qed.

Lemma fput_ne f x v y : y ≠ x → fput f x v y = f y.
Proof. intros. unfold fput. by rewrite decide_False. Qed.

Lemma family_ext D lst nx pa ch sb nx' pa' ch' sb' :
  (∀ x, x ∈ D → nx' x = nx x ∧ pa' x = pa x ∧ ch' x = ch x ∧ sb' x = sb x) →
  family D lst nx pa ch sb → family D lst nx' pa' ch' sb'.
Proof.
  intros E [(l & Hl & Hnd & Hin) Hk Hp Hn]. split; [| | |done].
  - exists l. split_and!; [|done|done]. apply (linked_ext nx); [|done]. intros x Hx. by apply E, Hin.
  - intros r Hr. destruct (Hk r Hr) as (cs & Hc & Hcn & Hci). exists cs. destruct (E r Hr) as (_ & _ & -> & _).
    split_and!; [|done|].
    + apply (linked_ext sb); [|done]. intros x Hx. by apply E, Hci.
    + intros c. rewrite Hci. split; intros [Hc1 Hc2]; (split; [done|]); destruct (E c Hc1) as (_ & E2 & _ & _); congruence.
  - intros c Hc. destruct (E c Hc) as (_ & -> & _). by apply Hp.
Qed.

(** A new process, with parent [q] or none, first on the lists. *)
Lemma family_add D lst nx pa ch sb p q :
  family D lst nx pa ch sb → p ∉ D → p ≠ 0 → q = 0 ∨ q ∈ D →
  family ({[p]} ∪ D) p (fput nx p lst) (fput pa p q)
    (if decide (q = 0) then fput ch p 0 else fput (fput ch p 0) q p)
    (if decide (q = 0) then sb else fput sb p (ch q)).
Proof.
  intros [(l & Hl & Hnd & Hin) Hk Hpar Hnull] Hp Hp0 Hq. split.
  - exists (p :: l). cbn [linked]. split_and!; [done|done| | |].
    + rewrite fput_eq. eapply linked_ext; [|exact Hl]. intros x Hx. apply fput_ne. intros ->. by apply Hp, Hin.
    + apply list.NoDup_cons. split; [|done]. by rewrite Hin.
    + intros x. rewrite elem_of_cons, Hin. set_solver.
  - intros r Hr. destruct (decide (r = p)) as [->|Hrp].
    { exists []. assert (p ≠ q) as Hpq by (intros ->; destruct Hq as [->|Hq]; done).
      split_and!; [|constructor|].
      - cbn [linked]. case_decide; [by rewrite fput_eq|]. by rewrite fput_ne, fput_eq.
      - intros c. split; [by intros ?%elem_of_nil|]. intros [[->%elem_of_singleton|Hc]%elem_of_union Hpc].
        + by rewrite fput_eq in Hpc.
        + rewrite fput_ne in Hpc by (intros ->; done). destruct (Hpar c Hc) as [E|E]; [congruence|]. by rewrite Hpc in E. }
    assert (r ∈ D) as HrD by set_solver. destruct (Hk r HrD) as (cs & Hc & Hcn & Hci).
    assert (r ≠ 0) as Hr0 by (intros ->; done). assert (p ∉ cs) as Hpcs by (rewrite Hci; naive_solver).
    destruct (decide (r = q)) as [<-|Hrq].
    + exists (p :: cs). rewrite !decide_False by done. cbn [linked]. rewrite !fput_eq. split_and!; [done|done| | |].
      * eapply linked_ext; [|exact Hc]. intros x Hx. apply fput_ne. set_solver.
      * by apply list.NoDup_cons.
      * intros x. rewrite elem_of_cons, Hci, elem_of_union, elem_of_singleton. unfold fput. case_decide; naive_solver.
    + exists cs. split_and!; [|done|].
      * assert ((if decide (q = 0) then fput ch p 0 else fput (fput ch p 0) q p) r = ch r) as ->
          by (case_decide; by rewrite !fput_ne).
        case_decide; [done|]. eapply linked_ext; [|exact Hc]. intros x Hx. apply fput_ne. set_solver.
      * intros x. rewrite Hci, elem_of_union, elem_of_singleton. unfold fput. case_decide; naive_solver.
  - intros c. rewrite elem_of_union, elem_of_singleton. intros [->|Hc]; [rewrite fput_eq; set_solver|].
    rewrite fput_ne by (intros ->; done). destruct (Hpar c Hc); set_solver.
  - set_solver.
Qed.

(** The first child of [p] goes to [i]. *)
Lemma family_handover D lst nx pa ch sb p i :
  family D lst nx pa ch sb → p ∈ D → i ∈ D → p ≠ i → ch p ≠ 0 →
  let c := ch p in
  family D lst nx (fput pa c i) (fput (fput ch p (sb c)) i c) (fput sb c (ch i)) ∧ c ∈ D ∧
  ∃ cs, linked sb (ch p) (c :: cs) ∧ linked (fput sb c (ch i)) (sb c) cs ∧ pa c = p ∧ NoDup (c :: cs) ∧ (∀ x, x ∈ c :: cs → x ∈ D).
Proof.
  intros Hf Hp Hi Hpi Hch c. pose proof Hf as [(l & Hl & Hnd & Hin) Hk Hpar Hnull].
  destruct (Hk p Hp) as ([|c' cs] & Hc & Hcn & Hci); [by cbn in Hc|]. pose proof Hc as (Ec & Hc0 & Hcs). cbn [linked] in Hc.
  fold c in Ec. subst c'. assert (c ∈ D ∧ pa c = p) as [HcD Hpc] by (apply Hci; set_solver).
  apply list.NoDup_cons in Hcn as [Hccs Hcn].
  assert (linked (fput sb c (ch i)) (sb c) cs) as Hcs'.
  { eapply linked_ext; [|exact Hcs]. intros x Hx. apply fput_ne. set_solver. }
  split; [split; [by exists l| | |done]|split; [done|exists cs; split_and!; try done]].
  - intros r Hr. destruct (decide (r = i)) as [->|Hri].
    { rewrite fput_eq. destruct (Hk i Hi) as (ds & Hd & Hdn & Hdi).
      assert (c ∉ ds) as Hcd by (rewrite Hdi; naive_solver).
      exists (c :: ds). cbn [linked]. rewrite fput_eq. split_and!; [done|done| | |].
      - eapply linked_ext; [|exact Hd]. intros x Hx. apply fput_ne. set_solver.
      - by apply list.NoDup_cons.
      - intros x. rewrite elem_of_cons, Hdi. unfold fput. case_decide; naive_solver. }
    rewrite fput_ne by done. destruct (decide (r = p)) as [->|Hrp].
    { rewrite fput_eq. exists cs. split_and!; [done|done|]. intros x. specialize (Hci x). rewrite elem_of_cons in Hci.
      unfold fput. case_decide; naive_solver. }
    rewrite fput_ne by done. destruct (Hk r Hr) as (ds & Hd & Hdn & Hdi).
    assert (c ∉ ds) as Hcd by (rewrite Hdi; naive_solver).
    exists ds. split_and!; [|done|].
    + eapply linked_ext; [|exact Hd]. intros x Hx. apply fput_ne. set_solver.
    + intros x. rewrite Hdi. unfold fput. case_decide; naive_solver.
  - intros x Hx. unfold fput. case_decide; [by right|by apply Hpar].
  - by apply list.NoDup_cons.
  - intros x Hx. by apply Hci.
Qed.

Section Lists.
Context {H : Type} `{!Allocator H}.
Implicit Types s : os H.

Lemma proc_pupd p f s q : proc (pupd p f s) q = if decide (q = p) then f (proc s p) else proc s q.
Proof.
  unfold proc, pupd, set_procs. cbn [procs]. case_decide; subst; [by rewrite lookup_insert_eq|by rewrite lookup_insert_ne].
Qed.

Lemma pupd_keeps {B} (g : process → B) p f s x : (∀ r, g (f r) = g r) → g (proc (pupd p f s) x) = g (proc s x).
Proof. intros Hg. rewrite proc_pupd. case_decide; [subst; apply Hg|done]. Qed.

Lemma dom_pupd p f s : p ∈ dom (procs s) → dom (procs (pupd p f s)) = dom (procs s).
Proof. intros. unfold pupd. cbn [procs set_procs]. rewrite dom_insert_L. set_solver. Qed.

(** The rest of the state: everything but the blocks and the list head. *)
Definition same_rest s s' : Prop :=
  o_fs s' = o_fs s ∧ o_k s' = o_k s ∧ o_sched s' = o_sched s ∧ o_cpu s' = o_cpu s ∧
  current_proc s' = current_proc s ∧ next_pid s' = next_pid s ∧ init_process s' = init_process s.

#[global] Instance same_rest_preorder : PreOrder same_rest.
Proof. split; [by intros s|]. intros s1 s2 s3 (?&?&?&?&?&?&?) (?&?&?&?&?&?&?). unfold same_rest. split_and!; congruence. Qed.

(** ** Unlinking *)

Lemma unlink_after_ok link set_link fuel prev p s l :
  linked (λ x, link (proc s x)) (link (proc s prev)) l → p ∈ l → NoDup (prev :: l) → (length l < fuel)%nat →
  ∃ l1 q l2, prev :: l = l1 ++ q :: p :: l2 ∧
    unlink_after link set_link fuel prev p s = pupd q (set_link (link (proc s p))) s.
Proof.
  revert prev fuel. induction l as [|x l IH]; intros prev fuel Hc Hp Hnd Hf; [by apply not_elem_of_nil in Hp|].
  destruct fuel as [|fuel]; [cbn in Hf; lia|]. cbn [linked] in Hc. destruct Hc as (Hx & Hx0 & Hc).
  cbn [unlink_after]. rewrite Hx. assert ((x =? 0) = false) as -> by lia.
  destruct (Z.eqb_spec x p) as [->|Hne].
  - by exists [], prev, l.
  - apply list.NoDup_cons in Hnd as [_ Hnd]. apply elem_of_cons in Hp as [->|Hp]; [done|].
    destruct (IH x fuel Hc Hp Hnd ltac:(cbn in Hf; lia)) as (l1 & q & l2 & E & ->).
    exists (prev :: l1), q, l2. split; [|done]. by rewrite E.
Qed.

Lemma size_linked s l : NoDup l → (∀ x, x ∈ l → x ∈ dom (procs s)) → (length l ≤ size (procs s))%nat.
Proof.
  intros Hnd Hl. rewrite <- size_dom. rewrite <- (size_list_to_set (C := gset Z)) by done.
  apply subseteq_size. intros x. rewrite elem_of_list_to_set. apply Hl.
Qed.

(** The list of all processes without [p]. *)
Lemma unlink_process_ok p s l :
  linked (λ x, p_next (proc s x)) (process_list s) l → NoDup l → (∀ x, x ∈ l → x ∈ dom (procs s)) → p ∈ l →
  let s' := unlink_process p s in
  (∃ l', linked (λ x, p_next (proc s' x)) (process_list s') l' ∧ NoDup l' ∧ ∀ x, x ∈ l' ↔ x ∈ l ∧ x ≠ p) ∧
  (∀ x, ∃ v, proc s' x = set_p_next v (proc s x)) ∧ dom (procs s') = dom (procs s) ∧ same_rest s s'.
Proof.
  intros Hc Hnd Hdom Hp. unfold unlink_process. pose proof (size_linked s l Hnd Hdom) as Hsz.
  destruct l as [|x l]; [by apply not_elem_of_nil in Hp|]. pose proof Hc as Hc0. cbn [linked] in Hc. destruct Hc as (-> & Hx & Hc).
  assert ((x =? 0) = false) as -> by lia. pose proof Hnd as [Hxl Hnd']%list.NoDup_cons.
  assert (∀ y : process, set_p_next (p_next y) y = y) as Heta by (by intros []).
  destruct (Z.eqb_spec x p) as [->|Hne].
  - split_and!; [exists l; split_and!; [exact Hc|done|]|intros y; exists (p_next (proc s y)); by rewrite Heta|done|done].
    intros y. rewrite elem_of_cons. split; [|naive_solver]. intros Hy. split; [by right|]. by intros ->.
  - apply elem_of_cons in Hp as [->|Hp]; [done|].
    destruct (unlink_after_ok p_next set_p_next (chain_fuel s) x p s l Hc Hp Hnd) as (l1 & q & l2 & E & ->);
      [unfold chain_fuel; cbn in Hsz; lia|].
    rewrite E in Hnd, Hc0. destruct (skip_nodup _ _ _ _ Hnd) as (Hnd2 & Hpq & Hin). split_and!.
    + exists (l1 ++ q :: l2). rewrite E. split_and!; [|done|exact Hin].
      apply (linked_skip (λ x, p_next (proc s x)) _ _ l1 q p l2 Hnd Hc0).
      * by rewrite proc_pupd, decide_True.
      * intros y Hy _. by rewrite proc_pupd, decide_False.
    + intros y. rewrite proc_pupd. case_decide; [subst; by eexists|]. exists (p_next (proc s y)). by rewrite Heta.
    + apply dom_pupd. apply Hdom. rewrite E. set_solver.
    + done.
Qed.

(** ** The process tree *)

Definition tree s : Prop :=
  family (dom (procs s)) (process_list s) (λ x, p_next (proc s x)) (λ x, p_parent (proc s x))
    (λ x, p_children (proc s x)) (λ x, p_sibling (proc s x)).

(** A block without its links. *)
Definition core (r : process) : process := set_p_next 0 (set_p_sibling 0 (set_p_children 0 (set_p_parent 0 r))).

(** The lists of children without [p]. *)
Definition kids_without (p : Z) s s' : Prop :=
  ∀ r, r ∈ dom (procs s) → ∃ cs, linked (λ x, p_sibling (proc s' x)) (p_children (proc s' r)) cs ∧ NoDup cs ∧
    ∀ c, c ∈ cs ↔ (c ∈ dom (procs s) ∧ p_parent (proc s c) = r) ∧ c ≠ p.

(** A child list of another parent is not touched. *)
Lemma kids_other s p x v f r q :
  tree s → r ∈ dom (procs s) → r ≠ q → p_parent (proc s p) = q →
  (f = set_p_children v ∧ x = q) ∨ (f = set_p_sibling v ∧ p_parent (proc s x) = q) →
  ∃ cs, linked (λ y, p_sibling (proc (pupd x f s) y)) (p_children (proc (pupd x f s) r)) cs ∧ NoDup cs ∧
    ∀ c, c ∈ cs ↔ (c ∈ dom (procs s) ∧ p_parent (proc s c) = r) ∧ c ≠ p.
Proof.
  intros Ht Hr Hrq Hp Hf. destruct (fa_kids _ _ _ _ _ _ Ht r Hr) as (cs & Hl & Hnd & Hin). exists cs.
  split_and!; [|done|intros c; rewrite Hin; naive_solver].
  assert (p_children (proc (pupd x f s) r) = p_children (proc s r)) as ->.
  { rewrite proc_pupd. case_decide; [subst|done]. by destruct Hf as [[-> ->]|[-> _]]. }
  eapply linked_ext; [|exact Hl]. intros y Hy. rewrite proc_pupd. case_decide; [subst|done].
  destruct Hf as [[-> ->]|[-> E]]; [done|]. apply Hin in Hy as [_ Hy]. congruence.
Qed.

(** [p] leads the list of its parent, or follows [y] in it. *)
Lemma kids_head p s cs :
  tree s → let q := p_parent (proc s p) in
  q ∈ dom (procs s) → linked (λ x, p_sibling (proc s x)) (p_sibling (proc s p)) cs → NoDup (p :: cs) →
  (∀ c, c ∈ p :: cs ↔ c ∈ dom (procs s) ∧ p_parent (proc s c) = q) →
  kids_without p s (pupd q (set_p_children (p_sibling (proc s p))) s).
Proof.
  intros Ht q Hq Hc [Hp Hnd]%list.NoDup_cons Hin r Hr. destruct (decide (r = q)) as [->|Hrq].
  - exists cs. rewrite proc_pupd, decide_True by done. cbn [set_p_children p_children]. split_and!; [|done|].
    + eapply linked_ext; [|exact Hc]. intros y Hy. rewrite proc_pupd. by case_decide; subst.
    + intros c. rewrite <- Hin, elem_of_cons. split; [|naive_solver]. intros Hcc. split; [by right|]. by intros ->.
  - apply (kids_other s p q (p_sibling (proc s p)) _ r q); try done. by left.
Qed.

Lemma kids_skip p s l1 y l2 :
  tree s → let q := p_parent (proc s p) in
  linked (λ x, p_sibling (proc s x)) (p_children (proc s q)) (l1 ++ y :: p :: l2) → NoDup (l1 ++ y :: p :: l2) →
  (∀ c, c ∈ l1 ++ y :: p :: l2 ↔ c ∈ dom (procs s) ∧ p_parent (proc s c) = q) →
  kids_without p s (pupd y (set_p_sibling (p_sibling (proc s p))) s).
Proof.
  intros Ht q Hc Hnd Hin r Hr. assert (p_parent (proc s y) = q) as Hyq by (apply Hin; set_solver).
  destruct (decide (r = q)) as [->|Hrq].
  - destruct (skip_nodup _ _ _ _ Hnd) as (Hnd2 & Hpy & Hin2). exists (l1 ++ y :: l2). split_and!; [|done|].
    + assert (p_children (proc (pupd y (set_p_sibling (p_sibling (proc s p))) s) q) = p_children (proc s q)) as ->
        by (rewrite proc_pupd; by case_decide; subst).
      apply (linked_skip (λ x, p_sibling (proc s x)) _ _ l1 y p l2 Hnd Hc).
      * by rewrite proc_pupd, decide_True.
      * intros z Hz _. by rewrite proc_pupd, decide_False.
    + intros c. by rewrite Hin2, Hin.
  - apply (kids_other s p y (p_sibling (proc s p)) _ r q); try done. by right.
Qed.

Lemma unlink_child_ok p s :
  tree s → p ∈ dom (procs s) →
  let s' := unlink_child p s in
  kids_without p s s' ∧ (∀ x, ∃ u v, proc s' x = set_p_children u (set_p_sibling v (proc s x))) ∧
  (∀ x, x ≠ p_parent (proc s p) → p_children (proc s' x) = p_children (proc s x)) ∧
  dom (procs s') = dom (procs s) ∧ process_list s' = process_list s ∧ same_rest s s'.
Proof.
  intros Ht Hp. pose proof Ht as [_ Hk Hpar Hnull]. unfold unlink_child. set (q := p_parent (proc s p)).
  assert (∀ y : process, set_p_children (p_children y) (set_p_sibling (p_sibling y) y) = y) as Heta by (by intros []).
  destruct (Z.eqb_spec q 0) as [Hq|Hq]; cbn [negb].
  { split_and!; try done; [|intros x; eexists _, _; by rewrite Heta]. intros r Hr. destruct (Hk r Hr) as (cs & Hc & Hnd & Hin).
    exists cs. split_and!; [done|done|]. intros c. rewrite Hin. split; [|naive_solver]. intros [Hc1 Hc2].
    split; [done|]. intros ->. apply Hnull. unfold q in Hq. rewrite Hq in Hc2. by subst. }
  assert (q ∈ dom (procs s)) as HqD by (by destruct (Hpar p Hp)).
  destruct (Hk q HqD) as ([|x cs] & Hc & Hnd & Hin); [by assert (p ∈ []) as ?%elem_of_nil by (by apply Hin)|].
  pose proof Hc as (E & Hx & Hc'). rewrite E. assert ((x =? 0) = false) as -> by lia.
  destruct (Z.eqb_spec x p) as [->|Hne].
  - split_and!; [by apply (kids_head p s cs)| | |by apply dom_pupd|done|done].
    + intros y. rewrite proc_pupd. case_decide; [subst y|eexists _, _; by rewrite Heta].
      by exists (p_sibling (proc s p)), (p_sibling (proc s q)).
    + intros y Hy. rewrite proc_pupd. by rewrite decide_False.
  - assert (p ∈ cs) as Hpcs by (assert (p ∈ x :: cs) as [?|?]%elem_of_cons by (by apply Hin); done).
    assert (length (x :: cs) ≤ size (procs s))%nat as Hsz by (apply size_linked; [done|intros z Hz; by apply Hin]).
    destruct (unlink_after_ok p_sibling set_p_sibling (chain_fuel s) x p s cs Hc' Hpcs Hnd) as (l1 & y & l2 & El & ->);
      [unfold chain_fuel; cbn in Hsz; lia|].
    rewrite El in Hnd, Hc, Hin. assert (y ∈ dom (procs s)) as HyD by (apply Hin; set_solver).
    split_and!; [by apply (kids_skip p s l1 y l2)| | |by apply dom_pupd|done|done].
    + intros z. rewrite proc_pupd. case_decide; [subst z|eexists _, _; by rewrite Heta].
      by exists (p_children (proc s y)), (p_sibling (proc s p)).
    + intros z Hz. rewrite proc_pupd. by case_decide; subst.
Qed.

(** Both lists lose [p], and nothing but links changes. *)
Lemma unlink_proc_ok p s :
  tree s → p ∈ dom (procs s) → p_children (proc s p) = 0 →
  let s' := unlink_process p (unlink_child p s) in
  family (dom (procs s) ∖ {[p]}) (process_list s') (λ x, p_next (proc s' x)) (λ x, p_parent (proc s' x))
    (λ x, p_children (proc s' x)) (λ x, p_sibling (proc s' x)) ∧
  (∀ x, core (proc s' x) = core (proc s x)) ∧ (∀ x, p_parent (proc s' x) = p_parent (proc s x)) ∧
  (∀ x, x ≠ p_parent (proc s p) → p_children (proc s' x) = p_children (proc s x)) ∧
  dom (procs s') = dom (procs s) ∧ same_rest s s'.
Proof.
  intros Ht Hp Hno. pose proof Ht as [(l & Hl & Hnd & Hin) Hk Hpar Hnull].
  destruct (unlink_child_ok p s Ht Hp) as (Hkids & Hpr1 & Hch1 & Ed1 & El1 & Hs1). set (s1 := unlink_child p s) in *.
  assert (∀ x, p_next (proc s1 x) = p_next (proc s x)) as Hn1 by (intros x; by destruct (Hpr1 x) as (u & v & ->)).
  destruct (unlink_process_ok p s1 l) as (Hl2 & Hpr2 & Ed2 & Hs2); [|done|by intros x; rewrite Ed1, Hin|by apply Hin|].
  { rewrite El1. by apply (linked_ext (λ x, p_next (proc s x))). }
  set (s2 := unlink_process p s1) in *.
  assert (∀ x, p_parent (proc s2 x) = p_parent (proc s x)) as Hpa.
  { intros x. destruct (Hpr2 x) as [w ->]. by destruct (Hpr1 x) as (u & v & ->). }
  assert (∀ x, p_children (proc s2 x) = p_children (proc s1 x)) as Hch2 by (intros x; by destruct (Hpr2 x) as [w ->]).
  assert (∀ x, p_sibling (proc s2 x) = p_sibling (proc s1 x)) as Hsb2 by (intros x; by destruct (Hpr2 x) as [w ->]).
  split_and!; [| |done|intros x Hx; rewrite Hch2; by apply Hch1|by rewrite Ed2|by etransitivity].
  - assert (∀ c, c ∈ dom (procs s) → p_parent (proc s c) ≠ p) as Hnokid.
    { intros c Hc E. destruct (Hk p Hp) as (cs & Hcs & _ & Hci). rewrite Hno in Hcs.
      destruct cs; [|by destruct Hcs as (<- & ? & _)]. assert (c ∈ []) as ?%elem_of_nil by (by apply Hci). done. }
    assert (∀ x, x ∈ dom (procs s) ∖ {[p]} ↔ x ∈ dom (procs s) ∧ x ≠ p) as HD
      by (intros x; by rewrite elem_of_difference, elem_of_singleton).
    split.
    + destruct Hl2 as (l' & Hl' & Hnd' & Hin'). exists l'. split_and!; [done|done|]. intros x. by rewrite Hin', Hin, HD.
    + intros r [Hr Hrp]%HD. destruct (Hkids r Hr) as (cs & Hcs & Hcn & Hci). exists cs. rewrite Hch2.
      split_and!; [by apply (linked_ext (λ x, p_sibling (proc s1 x)))|done|]. intros c. rewrite Hci, Hpa, HD. tauto.
    + intros c [Hc Hcp]%HD. rewrite Hpa, HD. destruct (Hpar c Hc) as [?|?]; [by left|right]. split; [done|by apply Hnokid].
    + by rewrite HD; intros [].
  - intros x. destruct (Hpr2 x) as [w ->]. by destruct (Hpr1 x) as (u & v & ->).
Qed.

(** ** Handing over children *)

(** Links after a few updates, by cases on the blocks. *)
#[local] Ltac links := repeat case_decide; try done;
  cbn [p_parent p_children p_sibling p_next set_p_children set_p_sibling set_p_parent]; try congruence.

(** The first child of [p] goes to [i]. *)
Definition hand_over (p i : Z) s : os H :=
  let child := p_children (proc s p) in
  let s := pupd p (set_p_children (p_sibling (proc s child))) s in
  let s := pupd child (set_p_parent i) s in
  let s := pupd child (set_p_sibling (p_children (proc s i))) s in
  pupd i (set_p_children child) s.

Lemma hand_over_ok p i s :
  tree s → p ∈ dom (procs s) → i ∈ dom (procs s) → p ≠ i → p_children (proc s p) ≠ 0 →
  let c := p_children (proc s p) in
  let s' := hand_over p i s in
  tree s' ∧ c ∈ dom (procs s) ∧ p_parent (proc s c) = p ∧
  (∀ x, p_parent (proc s' x) = fput (λ x, p_parent (proc s x)) c i x) ∧
  (∀ x, x ≠ p → x ≠ i → p_children (proc s' x) = p_children (proc s x)) ∧
  (∀ x, core (proc s' x) = core (proc s x)) ∧ dom (procs s') = dom (procs s) ∧ same_rest s s' ∧
  ∀ cs, linked (λ x, p_sibling (proc s x)) c cs → ∃ cs', linked (λ x, p_sibling (proc s' x)) (p_children (proc s' p)) cs' ∧
    length cs = S (length cs').
Proof.
  intros Ht Hp Hi Hpi Hc c s'. destruct (family_handover _ _ _ _ _ _ p i Ht Hp Hi Hpi Hc) as (Hf & HcD & cs & Hl & Hl' & Hpc & _).
  fold c in Hf, HcD, Hl, Hl', Hpc.
  assert (dom (procs s') = dom (procs s)) as Ed.
  { unfold s', hand_over, pupd. fold c. cbn [procs set_procs]. rewrite !dom_insert_L. clear -Hp Hi HcD. set_solver. }
  assert (∀ x, p_parent (proc s' x) = fput (λ x, p_parent (proc s x)) c i x) as Epa.
  { intros x. unfold s', hand_over, fput. fold c. rewrite !proc_pupd. links. }
  assert (∀ x, p_children (proc s' x) = fput (fput (λ x, p_children (proc s x)) p (p_sibling (proc s c))) i c x) as Ech.
  { intros x. unfold s', hand_over, fput. fold c. rewrite !proc_pupd. links. }
  assert (∀ x, p_sibling (proc s' x) = fput (λ x, p_sibling (proc s x)) c (p_children (proc s i)) x) as Esb.
  { intros x. unfold s', hand_over, fput. fold c. rewrite !proc_pupd. links. }
  assert (∀ x, core (proc s' x) = core (proc s x) ∧ p_next (proc s' x) = p_next (proc s x)) as Eco.
  { intros x. unfold s', hand_over. by rewrite !(pupd_keeps core), !(pupd_keeps p_next). }
  split_and!; try done.
  - unfold tree. rewrite Ed. eapply family_ext; [|exact Hf]. intros x _. split_and!; [apply Eco|done..].
  - intros x Hxp Hxi. rewrite Ech. by rewrite !fput_ne.
  - intros x. apply Eco.
  - intros ds Hd. assert (ds = c :: cs) as -> by (by apply (linked_unique (λ x, p_sibling (proc s x)) c)).
    exists cs. split; [|done]. rewrite Ech, fput_ne, fput_eq by done. eapply linked_ext; [|exact Hl']. intros x _. apply Esb.
Qed.

Lemma reparent_ok fuel p s cs :
  let i := init_process s in
  tree s → p ∈ dom (procs s) → i ∈ dom (procs s) → p ≠ i →
  linked (λ x, p_sibling (proc s x)) (p_children (proc s p)) cs → (length cs < fuel)%nat →
  let s' := reparent fuel p s in
  tree s' ∧ p_children (proc s' p) = 0 ∧
  (∀ x, x ∈ dom (procs s) → p_parent (proc s' x) = if decide (p_parent (proc s x) = p) then i else p_parent (proc s x)) ∧
  (∀ x, x ≠ p → x ≠ i → p_children (proc s' x) = p_children (proc s x)) ∧
  (∀ x, core (proc s' x) = core (proc s x)) ∧ dom (procs s') = dom (procs s) ∧ same_rest s s'.
Proof.
  revert s cs. induction fuel as [|fuel IH]; intros s cs i Ht Hp Hi Hpi Hl Hf; [lia|]. cbn [reparent].
  destruct (Z.eqb_spec (p_children (proc s p)) 0) as [Hc|Hc]; cbn [negb].
  - split_and!; try done. intros x Hx. case_decide as Hx'; [|done]. exfalso.
    destruct (fa_kids _ _ _ _ _ _ Ht p Hp) as (ds & Hd & _ & Hin). rewrite Hc in Hd.
    assert (x ∈ ds) as Hxd by (by apply Hin). destruct ds; [by apply elem_of_nil in Hxd|]. by destruct Hd as (<- & ? & _).
  - fold i. destruct (hand_over_ok p i s Ht Hp Hi Hpi Hc) as (Ht1 & HcD & Hpc & Epa & Ech & Eco & Ed & Hs1 & Hlen).
    destruct (Hlen cs Hl) as (cs' & Hl1 & El). set (s1 := hand_over p i s) in *.
    assert (init_process s1 = i) as Ei by apply Hs1.
    destruct (IH s1 cs') as (Ht2 & Hz & Epa2 & Ech2 & Eco2 & Ed2 & Hs2); rewrite ?Ei, ?Ed; try done; [lia|].
    change (pupd i _ _) with s1. rewrite Ei, Ed in *. split_and!; try done.
    + intros x Hx. rewrite Epa2, Epa by done. unfold fput. destruct (decide (x = p_children (proc s p))) as [->|_]; [|done].
      rewrite Hpc. by repeat case_decide.
    + intros x Hxp Hxi. rewrite Ech2, Ech by done. done.
    + intros x. by rewrite Eco2, Eco.
Qed.
End Lists.
