(* ===== verification/ProcFiles.v ===== *)
(** * Open files as heap objects

    Who owns each live block of the heap, and the invariant of open files: an
    open file is a live block whose count is the number of descriptors that
    refer to it, and the private data of an ext2 file belongs to that file
    alone. *)
From S2P Require Import Prelude Pmm Page Vmm Heap HeapInv HeapProps HeapSpec Alloc Kthread.
From S2P Require Import Console Keyboard Serial Terminal Ext2 Vfs Process ProcSys.
Local Open Scope Z_scope.

(** ** Owners *)

Inductive obj := OThread | OProc | OStack (p : Z) | OFile | OPriv (f : Z) | OOther.

#[global] Instance obj_eq_dec : EqDecision obj.
Proof. solve_decision. Defined.

Definition is_file (o : obj) : bool := match o with OFile | OPriv _ => true | _ => false end.

(** The same owners but for files and their data. *)
Definition rest_same (Ow Ow' : gmap Z obj) : Prop :=
  ∀ a o, is_file o = false → Ow' !! a = Some o ↔ Ow !! a = Some o.

#[global] Instance rest_same_preorder : PreOrder rest_same.
Proof. split; [by intros Ow a o|]. intros O1 O2 O3 H1 H2 a o Ho. rewrite (H2 a o Ho). by apply H1. Qed.

Lemma rest_insert Ow a o : Ow !! a = None → is_file o = true → rest_same Ow (<[a := o]> Ow).
Proof. intros Ha Ho b o' Ho'. rewrite lookup_insert. case_decide; [subst; split; congruence|done]. Qed.

Lemma rest_delete Ow a o : Ow !! a = Some o → is_file o = true → rest_same Ow (delete a Ow).
Proof. intros Ha Ho b o' Ho'. rewrite lookup_delete. case_decide; [subst; split; congruence|done]. Qed.

(** ** Counting descriptors *)

Fixpoint refs_in (f : Z) (fds : list fd_entry) : Z :=
  match fds with
  | [] => 0
  | e :: fds => (if decide (fd_file e = f) then 1 else 0) + refs_in f fds
  end.

Lemma refs_bound f fds : 0 ≤ refs_in f fds ≤ Z.of_nat (length fds).
Proof. induction fds as [|e fds IH]; cbn [refs_in length]; [lia|]. case_decide; lia. Qed.

Lemma refs_elem f fds e : e ∈ fds → fd_file e = f → 0 < refs_in f fds.
Proof.
  induction fds as [|e' fds IH]; [by intros ?%elem_of_nil|]. cbn [refs_in].
  pose proof (refs_bound f fds). intros [->|He]%elem_of_cons Ef; [rewrite decide_True by done; lia|].
  specialize (IH He Ef). case_decide; lia.
Qed.

Lemma refs_insert f fds i e e' :
  fds !! i = Some e →
  refs_in f (<[i := e']> fds) =
  refs_in f fds - (if decide (fd_file e = f) then 1 else 0) + (if decide (fd_file e' = f) then 1 else 0).
Proof.
  revert i. induction fds as [|e0 fds IH]; intros [|i] Hi; [done..| |].
  - injection Hi as ->. cbn [refs_in]. change (<[0%nat := e']> (e :: fds)) with (e' :: fds). cbn [refs_in]. lia.
  - change (<[S i := e']> (e0 :: fds)) with (e0 :: <[i := e']> fds). cbn [refs_in]. rewrite (IH i Hi). lia.
Qed.

Lemma refs_app f l1 l2 : refs_in f (l1 ++ l2) = refs_in f l1 + refs_in f l2.
Proof. induction l1 as [|e l1 IH]; cbn [refs_in app]; [done|]. rewrite IH. lia. Qed.

Lemma refs_none f n : f ≠ 0 → refs_in f (replicate n no_fd) = 0.
Proof. intros Hf. induction n as [|n IH]; [done|]. cbn [refs_in replicate]. rewrite decide_False by (cbn; congruence). lia. Qed.

(** ** The invariant *)

Definition bump (f d : Z) (cnt : Z → Z) : Z → Z := λ g, if decide (g = f) then cnt g + d else cnt g.

Section Files.
Context {H : Type} `{!Allocator H}.
Implicit Types fs : fstore H.

(** The live blocks of the heap are the owned ones. *)
Definition heap_owned (hp : H) (Ow : gmap Z obj) (k : nat) : Prop := ∃ L, a_ok hp L k ∧ ∀ a, is_Some (L !! a) ↔ is_Some (Ow !! a).

Record fs_ok (Ow : gmap Z obj) (cnt : Z → Z) (k : nat) (fs : fstore H) : Prop := {
  fo_heap : heap_owned (fs_heap fs) Ow k;
  fo_file : ∀ f, is_Some (files fs !! f) ↔ Ow !! f = Some OFile;
  fo_count : ∀ f v, files fs !! f = Some v → f_refcount v = cnt f ∧ 0 < cnt f;
  fo_none : ∀ f, f ≠ 0 → files fs !! f = None → cnt f = 0;
  fo_ext2 : ∀ f v, files fs !! f = Some v → f_ops v = ext2_file_ops → Ow !! f_private v = Some (OPriv f);
  fo_priv : ∀ a f, Ow !! a = Some (OPriv f) →
    ∃ v, files fs !! f = Some v ∧ f_ops v = ext2_file_ops ∧ f_private v = a;
  fo_privs : ∀ a, is_Some (privs fs !! a) ↔ ∃ f, Ow !! a = Some (OPriv f);
}.

Lemma fs_ok_ext Ow cnt cnt' k fs : (∀ f, f ≠ 0 → cnt' f = cnt f) → fs_ok Ow cnt k fs → fs_ok Ow cnt' k fs.
Proof.
  intros E [(L & HL & Hdom) H2 H3 H4 H5 H6 H7]. split; try done; [by exists L| |].
  - intros f v Hv. rewrite E; [by apply (H3 f v)|]. intros ->.
    assert (is_Some (L !! 0)) as [n Hn] by (apply Hdom; rewrite (proj1 (H2 0)); [done|by eexists]).
    pose proof (a_live_ok _ _ _ _ _ HL Hn). lia.
  - intros f Hf Hn. rewrite E by done. by apply H4.
Qed.

Lemma heap_malloc_owned size hp Ow k :
  heap_owned hp Ow (S k) → 8 < size < 2 ^ 62 →
  let '(r, hp') := a_malloc size hp in
  (r = 0 ∧ heap_owned hp' Ow k) ∨
  (0 < r ∧ r + size < 2 ^ 64 ∧ r mod 16 = 8 ∧ Ow !! r = None ∧ ∀ o, heap_owned hp' (<[r := o]> Ow) k).
Proof.
  intros (L & HL & Hdom) Hsz. pose proof (a_malloc_ok size hp L k HL Hsz) as Hm.
  destruct (a_malloc size hp) as [r hp']. destruct Hm as [[-> HL']|(n & Hr & Hrn & Hm & Hn & HLr & _ & HL')].
  - left. split; [done|]. by exists L.
  - right. split_and!; [done|lia|done| |].
    + apply eq_None_not_Some. rewrite <- Hdom, HLr. by intros [].
    + intros o. eexists. split; [exact HL'|]. intros a. rewrite !lookup_insert. by case_decide.
Qed.

Lemma heap_free_owned p o hp Ow k : heap_owned hp Ow k → Ow !! p = Some o → heap_owned (a_free p hp) (delete p Ow) k.
Proof.
  intros (L & HL & Hdom) Hp. exists (delete p L). split; [apply a_free_ok; [done|]; apply Hdom; by rewrite Hp|].
  intros a. rewrite !lookup_delete. by case_decide.
Qed.

Lemma heap_owned_pos hp Ow k a o : heap_owned hp Ow k → Ow !! a = Some o → 0 < a.
Proof.
  intros (L & HL & Hdom) Ha. destruct (proj2 (Hdom a)) as [n Hn]; [by rewrite Ha|]. by apply (a_live_ok _ _ _ _ _ HL Hn).
Qed.

Lemma heap_owned_weaken hp Ow k : heap_owned hp Ow (S k) → heap_owned hp Ow k.
Proof. intros (L & HL & Hdom). exists L. split; [by apply a_weaken|done]. Qed.

Lemma file_at_some fs f v : files fs !! f = Some v → file_at fs f = v.
Proof. intros E. unfold file_at. by rewrite E. Qed.

Lemma fs_ok_pos Ow cnt k fs f : fs_ok Ow cnt k fs → is_Some (files fs !! f) → 0 < f.
Proof. intros [Hh H2 _ _ _ _ _] Hf%H2. by eapply heap_owned_pos. Qed.

(** Changing a file but not its count, or its back end. *)
Lemma set_file_ok Ow cnt k fs f v v' d :
  fs_ok Ow cnt k fs → files fs !! f = Some v → f_refcount v' = f_refcount v + d → 0 < f_refcount v' →
  f_ops v' = f_ops v ∧ f_private v' = f_private v ∨ f_ops v ≠ ext2_file_ops ∧ f_ops v' ≠ ext2_file_ops →
  fs_ok Ow (bump f d cnt) k (set_file f v' fs).
Proof.
  intros [H1 H2 H3 H4 H5 H6 H7] Hv Er Hp Ho. split; cbn [fs_heap files privs set_file]; try done.
  - intros g. rewrite lookup_insert. case_decide; [subst|by apply H2]. rewrite <- H2, Hv. naive_solver.
  - intros g w. rewrite lookup_insert. unfold bump. case_decide; [subst|rewrite decide_False by done; by apply H3].
    rewrite decide_True by done. intros [= <-]. destruct (H3 g v Hv). lia.
  - intros g Hg. rewrite lookup_insert. unfold bump. case_decide; [done|]. rewrite decide_False by done. by apply H4.
  - intros g w. rewrite lookup_insert. case_decide; [subst|by apply H5].
    intros [= <-] Hw. destruct Ho as [[E1 E2]|[E1 E2]]; [|done]. rewrite E2. apply (H5 g v Hv). congruence.
  - intros a g Ha. destruct (H6 a g Ha) as (w & Hw & Ew & Ea). destruct (decide (g = f)) as [->|Hg].
    + rewrite Hv in Hw. injection Hw as ->. exists v'. rewrite lookup_insert_eq.
      destruct Ho as [[E1 E2]|[E1 E2]]; [|done]. split_and!; congruence.
    + exists w. by rewrite lookup_insert_ne.
Qed.

Lemma vfs_file_ref_ok Ow cnt k fs f :
  fs_ok Ow cnt k fs → is_Some (files fs !! f) → cnt f + 1 < 2 ^ 31 → fs_ok Ow (bump f 1 cnt) k (vfs_file_ref f fs).
Proof.
  intros Hok [v Hv] Hb. pose proof (fs_ok_pos _ _ _ _ f Hok ltac:(by eexists)) as Hf.
  destruct (fo_count _ _ _ _ Hok f v Hv) as [Er Hc]. unfold vfs_file_ref. assert ((f =? 0) = false) as -> by lia.
  cbn [negb]. rewrite (file_at_some fs f v Hv).
  assert (f_refcount (with_refcount (s32 (f_refcount v + 1)) v) = f_refcount v + 1) as E by (cbn; rewrite s32_small; lia).
  apply (set_file_ok Ow cnt k fs f v); [done|done|done|lia|by left].
Qed.

(** A file without its last descriptor, and what it owned, are forgotten. *)
Lemma forget_file_ok Ow Ow' cnt k fs hp pv f v :
  fs_ok Ow cnt k fs → files fs !! f = Some v → cnt f = 1 → heap_owned hp Ow' k →
  (∀ a o, Ow' !! a = Some o ↔ Ow !! a = Some o ∧ a ≠ f ∧ o ≠ OPriv f) →
  (∀ a, is_Some (pv !! a) ↔ ∃ g, Ow' !! a = Some (OPriv g)) →
  fs_ok Ow' (bump f (-1) cnt) k (Fstore hp (delete f (files fs)) pv) ∧ rest_same Ow Ow'.
Proof.
  intros [H1 H2 H3 H4 H5 H6 H7] Hv Hc Hh HO Hpv. assert (Ow !! f = Some OFile) as Hf by (apply H2; by eexists).
  split; [split; cbn [fs_heap files privs]|]; try done.
  - intros g. rewrite HO, lookup_delete, <- H2. case_decide; [split; [by intros []|naive_solver]|naive_solver].
  - intros g w. rewrite lookup_delete. unfold bump. case_decide; [done|]. rewrite decide_False by done. by apply H3.
  - intros g Hg. rewrite lookup_delete. unfold bump. case_decide; [subst; rewrite decide_True by done; lia|].
    rewrite decide_False by done. by apply H4.
  - intros g w. rewrite lookup_delete, HO. case_decide; [done|]. intros Hw Ew. pose proof (H5 g w Hw Ew) as Hg.
    split_and!; [done| |congruence]. intros E. rewrite E in Hg. congruence.
  - intros a g. rewrite HO. intros (Ha & Haf & Hg). destruct (H6 a g Ha) as (w & Hw & Ew & Ea). exists w.
    rewrite lookup_delete_ne by congruence. done.
  - intros a o Ho. rewrite HO. split; [naive_solver|]. intros Ha. split_and!; [done|intros ->|intros ->]; [|done].
    rewrite Hf in Ha. by injection Ha as <-.
Qed.

(** The last descriptor of a file is closed: its private data and the file
    are freed. *)
Lemma last_close_ok Ow cnt k fs f v :
  fs_ok Ow cnt k fs → files fs !! f = Some v → cnt f = 1 →
  ∃ Ow', fs_ok Ow' (bump f (-1) cnt) k (free_file f (ops_close f (set_file f (with_refcount 0 v) fs))) ∧ rest_same Ow Ow'.
Proof.
  intros Hok Hv Hc. pose proof Hok as [H1 H2 _ _ H5 H6 H7]. assert (Ow !! f = Some OFile) as Hf by (apply H2; by eexists).
  unfold ops_close. rewrite (file_at_some _ f (with_refcount 0 v)) by (cbn [files set_file]; by rewrite lookup_insert_eq).
  cbn [f_ops with_refcount]. destruct (decide (f_ops v = ext2_file_ops)) as [Ev|Ev].
  - pose proof (H5 f v Hv Ev) as Hp. pose proof (heap_owned_pos _ _ _ _ _ H1 Hp) as Hpp.
    assert (f ≠ f_private v) as Hfp by (intros E; rewrite <- E in Hp; congruence). rewrite Ev. unfold ext2_file_close.
    rewrite (file_at_some _ f (with_refcount 0 v)) by (cbn [files set_file]; by rewrite lookup_insert_eq).
    cbn [f_private with_refcount]. assert ((f_private v =? 0) = false) as -> by lia. cbn [negb snd].
    unfold free_file, set_file. cbn [fs_heap files privs]. rewrite !delete_insert_eq.
    exists (delete f (delete (f_private v) Ow)). apply (forget_file_ok Ow _ cnt k fs _ _ f v); [done..| | |].
    + eapply heap_free_owned; [by eapply heap_free_owned|]. by rewrite lookup_delete_ne.
    + intros a o. rewrite !lookup_delete_Some. split; [intros (Ha & Hp' & Ho)|intros (Ho & Ha & Hp')].
      * split_and!; [done|congruence|]. intros ->. destruct (H6 a f Ho) as (w & Hw & _ & Ew). congruence.
      * split_and!; congruence.
    + intros a. setoid_rewrite lookup_delete_Some. setoid_rewrite lookup_delete_Some.
      rewrite lookup_delete_is_Some, H7. split; [intros (Hpa & g & Hg)|intros (g & Ha & Hpa & Hg)]; [|naive_solver].
      exists g. split_and!; [congruence|done|done].
  - assert (match f_ops v with
      | ext2_file_ops => (ext2_file_close f (set_file f (with_refcount 0 v) fs)).2 | _ => set_file f (with_refcount 0 v) fs end
      = set_file f (with_refcount 0 v) fs) as -> by (by destruct (f_ops v)).
    unfold free_file, set_file. cbn [fs_heap files privs]. rewrite delete_insert_eq.
    assert (∀ a, Ow !! a ≠ Some (OPriv f)) as Hno.
    { intros a Ha. destruct (H6 a f Ha) as (w & Hw & Ew & _). congruence. }
    exists (delete f Ow). apply (forget_file_ok Ow _ cnt k fs _ _ f v); [done..| | |].
    + by eapply heap_free_owned.
    + intros a o. rewrite lookup_delete_Some. split; [intros (Ha & Ho)|intros (Ho & Ha & _)]; [|done].
      split_and!; [done|done|]. intros ->. by apply (Hno a).
    + intros a. setoid_rewrite lookup_delete_Some. rewrite H7. split; [intros (g & Hg)|naive_solver].
      exists g. split; congruence.
Qed.

Lemma vfs_close_ok Ow cnt k fs f :
  fs_ok Ow cnt k fs → is_Some (files fs !! f) → cnt f < 2 ^ 31 →
  ∃ Ow', fs_ok Ow' (bump f (-1) cnt) k (vfs_close f fs).2 ∧ rest_same Ow Ow'.
Proof.
  intros Hok [v Hv] Hb. pose proof (fs_ok_pos _ _ _ _ f Hok ltac:(by eexists)) as Hf.
  destruct (fo_count _ _ _ _ Hok f v Hv) as [Er Hc]. unfold vfs_close, vfs_file_unref.
  assert ((f =? 0) = false) as -> by lia. cbn [snd]. rewrite (file_at_some fs f v Hv), (s32_small (f_refcount v - 1)) by lia.
  rewrite (file_at_some _ f (with_refcount (f_refcount v - 1) v)) by (cbn [files set_file]; by rewrite lookup_insert_eq).
  cbn [f_refcount with_refcount]. destruct (Z.leb_spec (f_refcount v - 1) 0).
  - replace (f_refcount v - 1) with 0 by lia. apply last_close_ok; [done|done|lia].
  - exists Ow. split; [|done]. apply (set_file_ok Ow cnt k fs f v); [done|done|done|cbn; lia|by left].
Qed.

Lemma vfs_file_alloc_ok Ow cnt k fs :
  fs_ok Ow cnt (S k) fs →
  let '(f, fs') := vfs_file_alloc fs in
  (f = 0 ∧ fs_ok Ow cnt k fs') ∨
  (0 < f ∧ Ow !! f = None ∧ fs_ok (<[f := OFile]> Ow) (bump f 1 cnt) k fs' ∧
   files fs' !! f = Some (VfsFile VFS_TYPE_NONE 0 0 1 NO_OPS 0)).
Proof.
  intros [H1 H2 H3 H4 H5 H6 H7]. unfold vfs_file_alloc.
  pose proof (heap_malloc_owned sizeof_vfs_file _ Ow k H1 ltac:(unfold sizeof_vfs_file; lia)) as Hm.
  destruct (a_malloc sizeof_vfs_file (fs_heap fs)) as [f hp]. destruct Hm as [[-> Hh]|(Hf & _ & _ & Hn & Hh)].
  { left. split; [done|]. by split. }
  assert ((f =? 0) = false) as -> by lia. right.
  assert (files fs !! f = None) as Hfn by (apply eq_None_not_Some; rewrite H2; congruence).
  split_and!; [done|done| |cbn [files set_file]; by rewrite lookup_insert_eq].
  split; cbn [fs_heap files privs set_file].
  - apply Hh.
  - intros g. rewrite !lookup_insert. case_decide; [naive_solver|]. apply H2.
  - intros g v. rewrite lookup_insert. unfold bump. case_decide; [subst|rewrite decide_False by done; by apply H3].
    rewrite decide_True by done. intros [= <-]. cbn. rewrite (H4 g) by (done || lia). lia.
  - intros g Hg. rewrite lookup_insert. unfold bump. case_decide; [done|]. rewrite decide_False by done. by apply H4.
  - intros g v. rewrite lookup_insert. case_decide; [by intros [= <-]|]. intros Hv Ev. pose proof (H5 g v Hv Ev) as Hp.
    rewrite lookup_insert_ne; [done|]. congruence.
  - intros a g. rewrite !lookup_insert. case_decide; [done|]. intros Ha. destruct (H6 a g Ha) as (v & Hv & Ev & Ep).
    exists v. rewrite decide_False by congruence. done.
  - intros a. rewrite H7. apply exist_proper. intros g. rewrite lookup_insert. case_decide; [subst; split; congruence|done].
Qed.

Lemma tty_open_ok flags terminal Ow cnt k fs :
  fs_ok Ow cnt (S k) fs →
  let '(f, fs') := tty_open flags terminal fs in
  (f = 0 ∧ fs_ok Ow cnt k fs') ∨ (0 < f ∧ Ow !! f = None ∧ fs_ok (<[f := OFile]> Ow) (bump f 1 cnt) k fs').
Proof.
  intros Hok. unfold tty_open. pose proof (vfs_file_alloc_ok Ow cnt k fs Hok) as Hm.
  destruct (vfs_file_alloc fs) as [f fs']. destruct Hm as [[-> Hok']|(Hf & Hn & Hok' & Hv)]; [by left|].
  assert ((f =? 0) = false) as -> by lia. right. split_and!; [done|done|]. rewrite (file_at_some _ _ _ Hv).
  eapply (fs_ok_ext _ (bump f 0 (bump f 1 cnt))); [intros g _; unfold bump; by case_decide; rewrite ?Z.add_0_r|].
  apply (set_file_ok _ _ _ _ f _ _ 0 Hok' Hv); [done|done|by right].
Qed.

(** Every descriptor of a table is closed. *)
Lemma close_fds_ok fds : ∀ Ow cnt k fs,
  fs_ok Ow cnt k fs → (∀ f, f ≠ 0 → refs_in f fds ≤ cnt f < 2 ^ 31) →
  ∃ Ow' fds' fs', close_fds fds fs = (fds', fs') ∧ fs_ok Ow' (λ f, cnt f - refs_in f fds) k fs' ∧ rest_same Ow Ow' ∧
    length fds' = length fds ∧ ∀ f, f ≠ 0 → refs_in f fds' = 0.
Proof.
  induction fds as [|e fds IH]; intros Ow cnt k fs Hok Hle; cbn [close_fds].
  { exists Ow, [], fs. split_and!; [done| |done|done|done]. eapply fs_ok_ext; [|done]. intros f _. cbn. lia. }
  unfold close_fd. destruct (Z.eqb_spec (fd_file e) 0) as [He|He]; cbn [negb].
  - destruct (IH Ow cnt k fs Hok) as (Ow' & fds' & fs' & -> & Hok' & Hr & El & Hz).
    { intros f Hf. specialize (Hle f Hf). cbn [refs_in] in Hle. rewrite decide_False in Hle by congruence. lia. }
    exists Ow', (e :: fds'), fs'. split_and!; [done| |done|cbn; lia|].
    + eapply fs_ok_ext; [|exact Hok']. intros f Hf. cbn [refs_in]. rewrite decide_False by congruence. lia.
    + intros f Hf. cbn [refs_in]. rewrite decide_False by congruence. by rewrite Hz.
  - assert (0 < cnt (fd_file e) < 2 ^ 31) as Hc.
    { specialize (Hle _ He). cbn [refs_in] in Hle. rewrite decide_True in Hle by done.
      pose proof (refs_bound (fd_file e) fds). lia. }
    destruct (vfs_close_ok Ow cnt k fs (fd_file e) Hok) as (Ow1 & Hok1 & Hr1); [|lia|].
    { apply not_eq_None_Some. intros En. pose proof (fo_none _ _ _ _ Hok _ He En). lia. }
    destruct (IH Ow1 _ k _ Hok1) as (Ow' & fds' & fs' & -> & Hok' & Hr & El & Hz).
    { intros f Hf. specialize (Hle f Hf). cbn [refs_in] in Hle. unfold bump. repeat case_decide; subst; try done; lia. }
    exists Ow', (FdEntry 0 (fd_flags e) :: fds'), fs'. split_and!; [done| |by etransitivity|cbn; lia|].
    + eapply fs_ok_ext; [|exact Hok']. intros f Hf. cbn [refs_in]. unfold bump. repeat case_decide; subst; try done; lia.
    + intros f Hf. cbn [refs_in fd_file]. rewrite decide_False by congruence. by rewrite Hz.
Qed.

(** Every descriptor of a table gets one more reference. *)
Lemma ref_fds_ok fds : ∀ Ow cnt k fs,
  fs_ok Ow cnt k fs → (∀ f, f ≠ 0 → cnt f + refs_in f fds < 2 ^ 31) →
  (∀ e, e ∈ fds → fd_file e ≠ 0 → 0 < cnt (fd_file e)) → fs_ok Ow (λ f, cnt f + refs_in f fds) k (ref_fds fds fs).
Proof.
  unfold ref_fds. induction fds as [|e fds IH]; intros Ow cnt k fs Hok Hle Hin; cbn [foldl].
  { eapply fs_ok_ext; [|done]. intros f _. cbn. lia. }
  destruct (Z.eqb_spec (fd_file e) 0) as [He|He]; cbn [negb].
  - eapply fs_ok_ext; [|apply (IH Ow cnt k fs Hok)].
    + intros f Hf. cbn [refs_in]. rewrite decide_False by congruence. lia.
    + intros f Hf. specialize (Hle f Hf). cbn [refs_in] in Hle. rewrite decide_False in Hle by congruence. lia.
    + intros e' He'. apply Hin. by right.
  - pose proof (Hle _ He) as Hl. cbn [refs_in] in Hl. rewrite decide_True in Hl by done. pose proof (refs_bound (fd_file e) fds).
    pose proof (Hin e ltac:(by left) He) as Hpos.
    eapply fs_ok_ext; [|apply (IH Ow (bump (fd_file e) 1 cnt))].
    + intros f Hf. cbn [refs_in]. unfold bump. repeat case_decide; subst; try done; lia.
    + apply vfs_file_ref_ok; [done| |lia]. apply not_eq_None_Some. intros En. pose proof (fo_none _ _ _ _ Hok _ He En). lia.
    + intros f Hf. specialize (Hle f Hf). cbn [refs_in] in Hle. unfold bump. repeat case_decide; subst; try done; lia.
    + intros e' He' Hne. specialize (Hin e' ltac:(by right) Hne). unfold bump. case_decide; lia.
Qed.

(** The file [f] becomes an ext2 file with the private data [priv]. *)
Lemma make_ext2_ok Ow cnt k k' fs hp f v v' priv pv :
  fs_ok Ow cnt k fs → files fs !! f = Some v → f_ops v ≠ ext2_file_ops → Ow !! priv = None →
  heap_owned hp (<[priv := OPriv f]> Ow) k' →
  f_refcount v' = f_refcount v → f_ops v' = ext2_file_ops → f_private v' = priv →
  fs_ok (<[priv := OPriv f]> Ow) cnt k' (Fstore hp (<[f := v']> (files fs)) (<[priv := pv]> (privs fs))).
Proof.
  intros [H1 H2 H3 H4 H5 H6 H7] Hv Ev Hp Hh Er Ev' Ep. assert (Ow !! f = Some OFile) as Hf by (apply H2; by eexists).
  assert (∀ a, Ow !! a ≠ Some (OPriv f)) as Hno.
  { intros a Ha. destruct (H6 a f Ha) as (w & Hw & Ew & _). congruence. }
  split; cbn [fs_heap files privs].
  - done.
  - intros g. rewrite !lookup_insert. repeat case_decide; subst; [congruence|naive_solver| |apply H2].
    rewrite H2. split; congruence.
  - intros g w. rewrite lookup_insert. case_decide; [subst|by apply H3]. intros [= <-]. rewrite Er. by apply H3.
  - intros g Hg. rewrite lookup_insert. case_decide; [done|]. by apply H4.
  - intros g w. rewrite lookup_insert. case_decide; [subst|].
    + intros [= <-] _. by rewrite lookup_insert_eq.
    + intros Hw Ew. pose proof (H5 g w Hw Ew) as Hg. rewrite lookup_insert_ne; [done|]. congruence.
  - intros a g. rewrite lookup_insert. case_decide; [subst; intros [= <-]|].
    + exists v'. by rewrite lookup_insert_eq.
    + intros Ha. destruct (H6 a g Ha) as (w & Hw & Ew & Ea). exists w.
      rewrite lookup_insert_ne; [done|]. intros ->. by apply (Hno a).
  - intros a. setoid_rewrite lookup_insert. case_decide; [naive_solver|]. apply H7.
Qed.

(** Blocks of other owners come and go. *)
Lemma fs_ok_owners Ow Ow' cnt k k' fs hp :
  fs_ok Ow cnt k fs → heap_owned hp Ow' k' →
  (∀ a o, is_file o = true → Ow' !! a = Some o ↔ Ow !! a = Some o) →
  fs_ok Ow' cnt k' (Fstore hp (files fs) (privs fs)).
Proof.
  intros [H1 H2 H3 H4 H5 H6 H7] Hh HO. split; cbn [fs_heap files privs]; try done.
  - intros f. by rewrite H2, HO.
  - intros f v Hv Ev. rewrite HO by done. by apply H5.
  - intros a f. rewrite HO by done. apply H6.
  - intros a. rewrite H7. apply exist_proper. intros g. by rewrite HO.
Qed.

Lemma fs_ok_weaken Ow cnt k fs : fs_ok Ow cnt (S k) fs → fs_ok Ow cnt k fs.
Proof.
  intros Hok. destruct fs as [hp fi pr]. apply (fs_ok_owners Ow Ow cnt (S k) k (Fstore hp fi pr) hp); [done| |done].
  apply heap_owned_weaken, (fo_heap _ _ _ _ Hok).
Qed.

Lemma vfs_read_ok f buf count wakeups Ow cnt k fs d r fs' d' :
  fs_ok Ow cnt k fs → vfs_read f buf count wakeups fs d = Some (r, fs', d') → fs_ok Ow cnt k fs'.
Proof.
  intros Hok. unfold vfs_read. destruct (f =? 0); [by intros [= _ <- _]|]. destruct (_ =? O_WRONLY); [by intros [= _ <- _]|].
  destruct (f_ops (file_at fs f)) eqn:Eo; [by intros [= _ <- _]| |].
  { intros E. destruct (tty_read _ _ _ _) as [[[bytes ?] ?]|]; [|done]. by injection E as _ <- _. }
  unfold ext2_file_read. destruct (_ || _); [by intros [= _ <- _]|]. destruct (_ <=? _); [by intros [= _ <- _]|].
  destruct (ext2_read_file _ _ _ _ _ _) as [n m]. destruct (0 <? n); [|by intros [= _ <- _]]. intros [= _ <- _].
  destruct (files fs !! f) as [v|] eqn:Ev; [|by unfold file_at in Eo; rewrite Ev in Eo].
  rewrite (file_at_some _ _ _ Ev) in *.
  eapply (fs_ok_ext _ (bump f 0 cnt)); [intros g _; unfold bump; by case_decide; rewrite ?Z.add_0_r|].
  destruct (fo_count _ _ _ _ Hok f v Ev) as [E1 E2].
  apply (set_file_ok _ _ _ _ f v _ 0 Hok Ev); [cbn; lia|cbn; lia|by left].
Qed.
End Files.
