(* ===== verification/ProcInv.v ===== *)
(** * The invariant of processes

    Every process, kernel stack, open file and thread is a live block of the
    heap with one owner and every live block has an owner; the process list and
    the tree are well formed; and a file's count is the number of descriptors
    that refer to it. *)
From S2P Require Import Prelude Pmm Page Vmm Heap HeapInv HeapProps HeapSpec Alloc.
From S2P Require Import Kthread KthreadProps KthreadMem KthreadInv.
From S2P Require Import Console Keyboard Serial Terminal Ext2 Vfs Process ProcSys ProcList ProcFiles.
Local Open Scope Z_scope.

(** ** Sums over processes *)

Definition total (g : process → Z) (m : gmap Z process) : Z := map_fold (λ _ r n, g r + n) 0 m.

Lemma total_insert g p r m : m !! p = None → total g (<[p := r]> m) = g r + total g m.
Proof. intros Hp. unfold total. apply (map_fold_insert_L (λ _ r n, g r + n)); [|done]. intros. lia. Qed.

Lemma total_delete g p r m : m !! p = Some r → total g m = g r + total g (delete p m).
Proof. intros Hp. rewrite <- (insert_delete_id m p r Hp) at 1. apply total_insert. apply lookup_delete_eq. Qed.

Lemma total_update g p r r' m : m !! p = Some r → total g (<[p := r']> m) = total g m - g r + g r'.
Proof.
  intros Hp. rewrite <- insert_delete_eq, total_insert by apply lookup_delete_eq. rewrite (total_delete g p r m Hp). lia.
Qed.

Lemma total_ext g m m' : (∀ p, g <$> m !! p = g <$> m' !! p) → total g m = total g m'.
Proof.
  intros Hm. assert (∀ m, total g m = map_fold (λ _ a n, a + n) 0 (g <$> m)) as E by (intros m0; by rewrite map_fold_fmap).
  rewrite !E. f_equal. apply map_eq. intros p. by rewrite !lookup_fmap.
Qed.

Lemma total_bound g c m : (∀ p r, m !! p = Some r → 0 ≤ g r ≤ c) → 0 ≤ total g m ≤ c * Z.of_nat (size m).
Proof.
  induction m as [|p r m Hp IH] using map_ind; [unfold total; rewrite map_fold_empty, map_size_empty; lia|].
  intros Hg. rewrite total_insert, map_size_insert_None by done.
  assert (0 ≤ g r ≤ c) by (apply (Hg p); by rewrite lookup_insert_eq).
  destruct IH; [|lia]. intros q r' Hq. apply (Hg q). rewrite lookup_insert_ne; [done|]. congruence.
Qed.

Lemma total_le g p r m : (∀ r, 0 ≤ g r) → m !! p = Some r → g r ≤ total g m.
Proof.
  intros Hg Hp. rewrite (total_delete g p r m Hp).
  enough (0 ≤ total g (delete p m)) by lia. clear Hp. generalize (delete p m). clear m. intros m.
  induction m as [|q r' m Hq IH] using map_ind; [done|]. rewrite total_insert by done. specialize (Hg r'). lia.
Qed.

Section Invariant.
Context {H : Type} `{!Allocator H}.
Implicit Types s : os H.

(** The descriptors that refer to a file. *)
Definition refs s (f : Z) : Z := total (λ r, refs_in f (fd_table r)) (procs s).

Definition sched_ok (sc : sched) (l : list Z) : Prop :=
  sched_wf sc l ∧ NoDup (owned sc l) ∧
  (current_kthread sc = genesis_kthread ∨ kt_state (thr sc (current_kthread sc)) ≠ THREAD_EXITED).

(** Owners: [Ow] maps each live heap block to its owner, [R] are the blocks of
    other subsystems, [l] lists the threads. *)
Record blocks_inv (R : gset Z) (Ow : gmap Z obj) (l : list Z) s : Prop := {
  bi_block : ∀ p r, procs s !! p = Some r →
    Ow !! p = Some OProc ∧ Ow !! (kernel_stack_top r - KERNEL_STACK_SIZE) = Some (OStack p);
  bi_proc : ∀ a, Ow !! a = Some OProc → is_Some (procs s !! a);
  bi_stack : ∀ a p, Ow !! a = Some (OStack p) →
    ∃ r, procs s !! p = Some r ∧ kernel_stack_top r - KERNEL_STACK_SIZE = a;
  bi_thread : ∀ a, Ow !! a = Some OThread ↔ a ∈ owned (o_sched s) l;
  bi_other : ∀ a, Ow !! a = Some OOther ↔ a ∈ R;
}.

(** A process that backs a thread backs one that is not running. *)
Record block_ok (l : list Z) s (r : process) : Prop := {
  bk_top : kernel_stack_top r < 2 ^ 64;
  bk_fds : length (fd_table r) = PROC_MAX_FDS;
  bk_thread : p_kthread r = 0 ∨ p_kthread r ∈ l ∧ p_kthread r ≠ current_kthread (o_sched s);
  bk_pid : 0 < pid r < next_pid s;
}.

Record table_inv (l : list Z) s : Prop := {
  ti_sched : sched_ok (o_sched s) l;
  ti_block : ∀ p, p ∈ dom (procs s) → block_ok l s (proc s p);
  ti_pids : ∀ p q, p ∈ dom (procs s) → q ∈ dom (procs s) → pid (proc s p) = pid (proc s q) → p = q;
  ti_tree : tree s;
  ti_current : current_proc s = 0 ∨ current_proc s ∈ dom (procs s);
  ti_init : (procs s = ∅ ∧ next_pid s = 1 ∧ init_process s = 0) ∨
    (init_process s ∈ dom (procs s) ∧ p_parent (proc s (init_process s)) = 0 ∧ 1 < next_pid s);
  ti_zombie : ∀ p, p ∈ dom (procs s) → p_state (proc s p) = PROC_ZOMBIE → p ≠ init_process s → p_children (proc s p) = 0;
}.

(** Room for [k] more allocations and processes. *)
Definition room (k : nat) s : Prop :=
  0 < next_pid s ∧ next_pid s + Z.of_nat k < 2 ^ 63 ∧ next_thread_id (o_sched s) + Z.of_nat k < 2 ^ 64 - 1 ∧
  256 * (Z.of_nat (size (procs s)) + Z.of_nat k) < 2 ^ 31.

Record os_inv (R : gset Z) (Ow : gmap Z obj) (l : list Z) (k : nat) s : Prop := {
  oi_fs : fs_ok Ow (refs s) k (o_fs s);
  oi_blocks : blocks_inv R Ow l s;
  oi_table : table_inv l s;
  oi_room : room k s;
}.

Definition os_ok (R : gset Z) (k : nat) s : Prop := ∃ Ow l, os_inv R Ow l k s.

(** ** Reading the tables *)

Lemma proc_some s p r : procs s !! p = Some r → proc s p = r.
Proof. intros E. unfold proc. by rewrite E. Qed.

Lemma proc_dom s p : p ∈ dom (procs s) ↔ procs s !! p = Some (proc s p).
Proof. rewrite elem_of_dom. unfold proc. destruct (procs s !! p); [naive_solver|]. split; [by intros []|done]. Qed.

Lemma proc_lookup s p r : procs s !! p = Some r ↔ p ∈ dom (procs s) ∧ proc s p = r.
Proof. rewrite proc_dom. split; [intros E; by rewrite (proc_some s p r E)|intros [-> ->]; done]. Qed.

(** A field as a map. *)
Lemma field_map {B} (g : process → B) s s' :
  dom (procs s') = dom (procs s) → (∀ x, x ∈ dom (procs s) → g (proc s' x) = g (proc s x)) →
  ∀ p, g <$> procs s' !! p = g <$> procs s !! p.
Proof.
  intros Ed Hg p. destruct (decide (p ∈ dom (procs s))) as [Hp|Hp].
  - pose proof Hp as Hp'. rewrite <- Ed in Hp'. apply proc_dom in Hp' as ->. rewrite (proj1 (proc_dom s p) Hp). cbn. by rewrite Hg.
  - pose proof Hp as Hp'. rewrite <- Ed in Hp'. apply not_elem_of_dom in Hp, Hp'. by rewrite Hp, Hp'.
Qed.

Lemma refs_same s s' f :
  dom (procs s') = dom (procs s) → (∀ x, x ∈ dom (procs s) → fd_table (proc s' x) = fd_table (proc s x)) →
  refs s' f = refs s f.
Proof. intros Ed Hf. apply total_ext, field_map; [done|]. intros x Hx. by rewrite Hf. Qed.

Lemma refs_pupd s p g f :
  p ∈ dom (procs s) →
  refs (pupd p g s) f = refs s f - refs_in f (fd_table (proc s p)) + refs_in f (fd_table (g (proc s p))).
Proof. intros Hp%proc_dom. unfold refs, pupd. cbn [procs set_procs]. by rewrite (total_update _ p (proc s p)). Qed.

Lemma refs_removed s s' p f :
  p ∈ dom (procs s) → dom (procs s') = dom (procs s) ∖ {[p]} →
  (∀ x, x ≠ p → fd_table (proc s' x) = fd_table (proc s x)) → refs s' f = refs s f - refs_in f (fd_table (proc s p)).
Proof.
  intros Hp Ed Hf. unfold refs. rewrite (total_delete _ p (proc s p) (procs s)) by (by apply proc_dom).
  enough (total (λ r, refs_in f (fd_table r)) (procs s') = total (λ r, refs_in f (fd_table r)) (delete p (procs s))) by lia.
  assert (∀ x, x ≠ p → proc (set_procs (delete p (procs s)) s) x = proc s x) as Hpr
    by (intros x Hx; unfold proc; cbn [procs set_procs]; by rewrite lookup_delete_ne).
  change (delete p (procs s)) with (procs (set_procs (delete p (procs s)) s)).
  apply total_ext, field_map; cbn [procs set_procs]; rewrite dom_delete_L; [done|].
  intros x [Hx Hxp]%elem_of_difference. rewrite elem_of_singleton in Hxp. by rewrite Hpr, Hf.
Qed.

Lemma refs_limit l k s f : table_inv l s → room k s → 0 ≤ refs s f ∧ refs s f + 256 * Z.of_nat k < 2 ^ 31.
Proof.
  intros Ht (_ & _ & _ & Hr). pose proof (total_bound (λ r, refs_in f (fd_table r)) 256 (procs s)) as Hb.
  unfold refs. destruct Hb; [|lia]. intros p r Hp%proc_lookup. destruct Hp as [Hp <-].
  pose proof (refs_bound f (fd_table (proc s p))) as Hf. rewrite (bk_fds _ _ _ (ti_block _ _ Ht p Hp)) in Hf. unfold PROC_MAX_FDS in Hf. lia.
Qed.

Lemma refs_ge s p f : p ∈ dom (procs s) → refs_in f (fd_table (proc s p)) ≤ refs s f.
Proof.
  intros Hp%proc_dom. apply (total_le (λ r, refs_in f (fd_table r)) p); [|done]. intros r. apply refs_bound.
Qed.

(** ** Changes that keep the invariant *)

Lemma blocks_same R Ow Ow' l s s' :
  blocks_inv R Ow l s → rest_same Ow Ow' → dom (procs s') = dom (procs s) →
  (∀ x, x ∈ dom (procs s) → kernel_stack_top (proc s' x) = kernel_stack_top (proc s x)) →
  owned (o_sched s') l = owned (o_sched s) l → blocks_inv R Ow' l s'.
Proof.
  intros [B1 B2 B3 B4 B5] HO Ed Htop Eo. split.
  - intros p r [Hp <-]%proc_lookup. rewrite Ed in Hp. rewrite Htop, !(HO _ _) by done. apply B1, proc_dom, Hp.
  - intros a. rewrite (HO a OProc) by done. intros Ha%B2%elem_of_dom. apply elem_of_dom. by rewrite Ed.
  - intros a p. rewrite (HO a (OStack p)) by done. intros (r & [Hp <-]%proc_lookup & E)%B3. exists (proc s' p).
    rewrite Htop by done. split; [|done]. apply proc_dom. by rewrite Ed.
  - intros a. by rewrite (HO a OThread), Eo.
  - intros a. by rewrite (HO a OOther).
Qed.

(** Fields that no list and no state belongs to. *)
Definition same_ids (r r' : process) : Prop :=
  pid r' = pid r ∧ kernel_stack_top r' = kernel_stack_top r ∧ length (fd_table r') = length (fd_table r).

Lemma table_update l s s' :
  table_inv l s → o_sched s' = o_sched s → init_process s' = init_process s →
  next_pid s' = next_pid s ∨ (next_pid s ≤ next_pid s' ∧ 1 < next_pid s) →
  dom (procs s') = dom (procs s) → (∀ x, x ∈ dom (procs s) → same_ids (proc s x) (proc s' x)) →
  (∀ x, x ∈ dom (procs s) → p_kthread (proc s' x) = p_kthread (proc s x) ∨
     p_kthread (proc s' x) ∈ l ∧ p_kthread (proc s' x) ≠ current_kthread (o_sched s)) →
  tree s' → (current_proc s' = 0 ∨ current_proc s' ∈ dom (procs s)) →
  p_parent (proc s' (init_process s)) = p_parent (proc s (init_process s)) →
  (∀ p, p ∈ dom (procs s) → p_state (proc s' p) = PROC_ZOMBIE → p ≠ init_process s → p_children (proc s' p) = 0) →
  table_inv l s'.
Proof.
  intros [T1 T2 T3 T4 T5 T6 T7] Es Ei En Ed Hids Hk Ht Hc Hi Hz. split; rewrite ?Es, ?Ed, ?Ei; try done.
  - intros p Hp. destruct (T2 p Hp) as [A1 A2 A3 A4]. destruct (Hids p Hp) as (E1 & E2 & E3).
    split; [by rewrite E2|by rewrite E3| |rewrite E1; lia]. rewrite Es. destruct (Hk p Hp) as [->|?]; [done|by right].
  - intros p q Hp Hq. destruct (Hids p Hp) as (-> & _). destruct (Hids q Hq) as (-> & _). by apply T3.
  - rewrite Hi. destruct T6 as [(E1 & E2 & E3)|(E1 & E2 & E3)]; [left|right].
    + split_and!; [|lia|done]. rewrite E1, dom_empty_L in Ed. by apply dom_empty_inv_L in Ed.
    + split_and!; [done|done|lia].
Qed.

(** Only states and registers change. *)
Definition plain (r r' : process) : Prop :=
  pid r' = pid r ∧ kernel_stack_top r' = kernel_stack_top r ∧ fd_table r' = fd_table r ∧ p_kthread r' = p_kthread r ∧
  p_parent r' = p_parent r ∧ p_children r' = p_children r ∧ p_sibling r' = p_sibling r ∧ p_next r' = p_next r.

Lemma inv_plain R Ow l k s s' :
  os_inv R Ow l k s → o_fs s' = o_fs s → o_sched s' = o_sched s → next_pid s' = next_pid s →
  init_process s' = init_process s → process_list s' = process_list s → dom (procs s') = dom (procs s) →
  (∀ x, plain (proc s x) (proc s' x)) → (current_proc s' = 0 ∨ current_proc s' ∈ dom (procs s)) →
  (∀ p, p ∈ dom (procs s) → p_state (proc s' p) = PROC_ZOMBIE → p ≠ init_process s →
     p_state (proc s p) = PROC_ZOMBIE ∨ p_children (proc s p) = 0) →
  os_inv R Ow l k s'.
Proof.
  intros [I1 I2 I3 I4] Ef Es En Ei El Ed Hpl Hc Hz. split.
  - rewrite Ef. eapply fs_ok_ext; [|exact I1]. intros f _. apply refs_same; [done|]. intros x _. apply Hpl.
  - eapply blocks_same; [exact I2|done|done| |by rewrite Es]. intros x _. apply Hpl.
  - apply (table_update l s); try done; [by left| | | | |].
    + intros x _. destruct (Hpl x) as (E1 & E2 & E3 & _). split_and!; congruence.
    + intros x _. left. apply Hpl.
    + unfold tree. rewrite Ed, El. eapply family_ext; [|exact (ti_tree _ _ I3)]. intros x _.
      destruct (Hpl x) as (_ & _ & _ & _ & E1 & E2 & E3 & E4). done.
    + destruct (Hpl (init_process s)) as (_ & _ & _ & _ & E1 & _). done.
    + intros p Hp Hs Hpi. destruct (Hpl p) as (_ & _ & _ & _ & _ & -> & _).
      destruct (Hz p Hp Hs Hpi) as [Hz'|Hz']; [by apply (ti_zombie _ _ I3)|done].
  - unfold room. rewrite En, Es. rewrite <- (size_dom (procs s')), Ed, size_dom. exact I4.
Qed.

Lemma inv_pupd R Ow l k s p f :
  os_inv R Ow l k s → p ∈ dom (procs s) → (∀ r, plain r (f r)) →
  (p_state (f (proc s p)) = PROC_ZOMBIE → p = init_process s ∨ p_state (proc s p) = PROC_ZOMBIE ∨ p_children (proc s p) = 0) →
  os_inv R Ow l k (pupd p f s).
Proof.
  intros HI Hp Hf Hz. apply (inv_plain R Ow l k s); try done.
  - by apply dom_pupd.
  - intros x. rewrite proc_pupd. case_decide; [subst; apply Hf|done].
  - apply (ti_current _ _ (oi_table _ _ _ _ _ HI)).
  - intros q Hq. rewrite proc_pupd. case_decide; [subst|by left]. intros Hs Hqi. destruct (Hz Hs) as [->|Hz']; done.
Qed.

(** The thread that backs [p]. *)
Lemma inv_kthread R Ow l k s p t :
  os_inv R Ow l k s → p ∈ dom (procs s) → t ∈ l → t ≠ current_kthread (o_sched s) →
  os_inv R Ow l k (pupd p (set_p_kthread t) s).
Proof.
  intros [I1 I2 I3 I4] Hp Ht Htc. assert (dom (procs (pupd p (set_p_kthread t) s)) = dom (procs s)) as Ed by (by apply dom_pupd).
  split.
  - eapply fs_ok_ext; [|exact I1]. intros f _. apply refs_same; [done|]. intros x _. by apply pupd_keeps.
  - eapply blocks_same; [exact I2|done|done| |done]. intros x _. by apply pupd_keeps.
  - apply (table_update l s); try done; [by left| | | |apply I3|by apply pupd_keeps|].
    + intros x _. split_and!; by rewrite pupd_keeps.
    + intros x _. rewrite proc_pupd. case_decide; [by right|by left].
    + unfold tree. rewrite Ed. eapply family_ext; [|exact (ti_tree _ _ I3)]. intros x _. by split_and!; apply pupd_keeps.
    + intros x Hx. rewrite (pupd_keeps p_state), (pupd_keeps p_children) by done. by apply (ti_zombie _ _ I3).
  - unfold room. rewrite <- (size_dom (procs (pupd p (set_p_kthread t) s))), Ed, size_dom. exact I4.
Qed.

Lemma inv_le R Ow l k k' s : (k' ≤ k)%nat → os_inv R Ow l k s → os_inv R Ow l k' s.
Proof.
  intros Hk [I1 I2 I3 I4]. split; [|done|done|unfold room in *; lia].
  clear -I1 Hk. induction Hk; [done|]. by apply IHHk, fs_ok_weaken.
Qed.
End Invariant.
