(* ===== verification/ProcSteps.v ===== *)
(** * Operations on processes keep the invariant *)
From S2P Require Import Prelude Pmm Page Vmm Heap HeapInv HeapProps HeapSpec Alloc.
From S2P Require Import Kthread KthreadProps KthreadMem KthreadInv.
From S2P Require Import Console Keyboard Serial Terminal Ext2 Vfs Process ProcSys ProcList ProcFiles ProcInv.
Local Open Scope Z_scope.

Section Steps.
Context {H : Type} `{!Allocator H}.
Implicit Types s : os H.

(** Equal blocks but for their links. *)
Lemma core_fields r r' : core r' = core r →
  pid r' = pid r ∧ kernel_stack_top r' = kernel_stack_top r ∧ fd_table r' = fd_table r ∧ p_kthread r' = p_kthread r ∧
  p_state r' = p_state r ∧ pml4_phys r' = pml4_phys r.
Proof. destruct r, r'. unfold core. cbn. intros E. injection E. intros. subst. done. Qed.

(** ** Exit *)

Lemma reparent_inv R Ow l k s p :
  os_inv R Ow l k s → p ∈ dom (procs s) → p ≠ init_process s → init_process s ∈ dom (procs s) →
  let s' := reparent (chain_fuel s) p s in
  os_inv R Ow l k s' ∧ same_rest s s' ∧ dom (procs s') = dom (procs s) ∧ p_children (proc s' p) = 0 ∧
  (∀ x, core (proc s' x) = core (proc s x)) ∧
  (∀ x, x ∈ dom (procs s) → p_parent (proc s' x) =
     if decide (p_parent (proc s x) = p) then init_process s else p_parent (proc s x)).
Proof.
  intros [I1 I2 I3 I4] Hp Hpi Hi s'. pose proof (ti_tree _ _ I3) as Ht.
  destruct (fa_kids _ _ _ _ _ _ Ht p Hp) as (cs & Hc & Hnd & Hin).
  assert (length cs ≤ size (procs s))%nat as Hsz by (apply size_linked; [done|intros x Hx; by apply Hin]).
  destruct (reparent_ok (chain_fuel s) p s cs Ht Hp Hi Hpi Hc) as (Ht' & Hz & Epa & Ech & Eco & Ed & Hs);
    [unfold chain_fuel; lia|]. fold s' in Ht', Hz, Epa, Ech, Eco, Ed, Hs.
  pose proof Hs as (E1 & E2 & E3 & E4 & E5 & E6 & E7).
  split_and!; try done. split.
  - rewrite E1. eapply fs_ok_ext; [|exact I1]. intros f _. apply refs_same; [done|]. intros x _. apply core_fields, Eco.
  - eapply blocks_same; [exact I2|done|done| |by rewrite E3]. intros x _. by destruct (core_fields _ _ (Eco x)) as (_ & ? & _).
  - apply (table_update l s); try done; [by left| | |rewrite E5; apply I3| |].
    + intros x _. destruct (core_fields _ _ (Eco x)) as (A1 & A2 & A3 & _). split_and!; congruence.
    + intros x _. left. apply core_fields, Eco.
    + rewrite Epa by done. case_decide as Hpp; [|done].
      destruct (ti_init _ _ I3) as [(E & _)|(_ & E & _)]; [by rewrite E, dom_empty_L in Hi|].
      exfalso. rewrite E in Hpp. subst p. by apply (fa_null _ _ _ _ _ _ Ht).
    + intros x Hx Hst Hxi. destruct (decide (x = p)) as [->|Hxp]; [done|]. rewrite Ech by done.
      apply (ti_zombie _ _ I3); [done| |done]. destruct (core_fields _ _ (Eco x)) as (_ & _ & _ & _ & <- & _). done.
  - unfold room. rewrite E6, E3. rewrite <- (size_dom (procs s')), Ed, size_dom. exact I4.
Qed.

Lemma wake_parent_inv R Ow l k s p :
  os_inv R Ow l k s → p ∈ dom (procs s) → os_inv R Ow l k (wake_parent p s).
Proof.
  intros HI Hp. unfold wake_parent. destruct (Z.eqb_spec (p_parent (proc s p)) 0) as [|Hq]; [done|]. cbn [negb andb].
  destruct (_ && _); [|done]. apply inv_pupd; [done| |done|done].
  by destruct (fa_parent _ _ _ _ _ _ (ti_tree _ _ (oi_table _ _ _ _ _ HI)) p Hp).
Qed.

Lemma process_exit_inv R Ow l k st s : os_inv R Ow l k s → os_inv R Ow l k (process_exit st s).
Proof.
  intros HI. unfold process_exit. set (p := current_proc s). destruct (Z.eqb_spec p 0) as [Hp0|Hp0]; [done|].
  assert (p ∈ dom (procs s)) as Hp by (by destruct (ti_current _ _ (oi_table _ _ _ _ _ HI))).
  assert (os_inv R Ow l k (pupd p (set_exit_code st) s)) as HI1.
  { apply inv_pupd; [done|done|done|]. cbn. intros Hz. right. by left. }
  set (s1 := pupd p (set_exit_code st) s) in *. assert (p ∈ dom (procs s1)) as Hp1 by (unfold s1; by rewrite dom_pupd).
  change (init_process s1) with (init_process s).
  assert (init_process s ∈ dom (procs s1)) as Hi.
  { destruct (ti_init _ _ (oi_table _ _ _ _ _ HI1)) as [(E & _)|(Hi & _)]; [|done]. by rewrite E, dom_empty_L in Hp1. }
  assert (init_process s ≠ 0) as Hi0.
  { intros E. rewrite E in Hi. by apply (fa_null _ _ _ _ _ _ (ti_tree _ _ (oi_table _ _ _ _ _ HI1))). }
  assert ((init_process s =? 0) = false) as -> by lia. cbn [negb andb].
  destruct (Z.eqb_spec p (init_process s)) as [Hpi|Hpi]; cbn [negb].
  - apply wake_parent_inv; [|by rewrite dom_pupd]. apply inv_pupd; [done|done|done|]. intros _. by left.
  - destruct (reparent_inv R Ow l k s1 p HI1 Hp1 Hpi Hi) as (HI2 & _ & Ed & Hz & _).
    set (s2 := reparent (chain_fuel s1) p s1) in *.
    apply wake_parent_inv; [|by rewrite dom_pupd; rewrite Ed]. apply inv_pupd; [done|by rewrite Ed|done|].
    intros _. right. by right.
Qed.

(** ** Files and descriptors *)

Lemma room_le k k' s : (k' ≤ k)%nat → room k s → room k' s.
Proof. unfold room. lia. Qed.

(** Descriptors and open files change together, and process numbers may be
    used up. *)
Lemma inv_files R Ow Ow' l k k' s s' :
  os_inv R Ow l k s → o_sched s' = o_sched s → init_process s' = init_process s →
  process_list s' = process_list s → current_proc s' = current_proc s →
  next_pid s' = next_pid s ∨ (next_pid s' = next_pid s + 1 ∧ 1 < next_pid s ∧ (k' < k)%nat) →
  dom (procs s') = dom (procs s) →
  (∀ x, plain (proc s x) (set_fd_table (fd_table (proc s x)) (proc s' x)) ∧ p_state (proc s' x) = p_state (proc s x)) →
  (∀ x, x ∈ dom (procs s) → length (fd_table (proc s' x)) = length (fd_table (proc s x))) →
  fs_ok Ow' (refs s') k' (o_fs s') → rest_same Ow Ow' → (k' ≤ k)%nat → os_inv R Ow' l k' s'.
Proof.
  intros [I1 I2 I3 I4] Es Ei El Ec En Ed Hpl Hlen Hfs HO Hk. split; [done| | |].
  - eapply blocks_same; [exact I2|done|done| |by rewrite Es]. intros x _. apply (Hpl x).
  - apply (table_update l s); try done; [destruct En as [?|?]; [by left|right; lia]| | | |rewrite Ec; apply I3| |].
    + intros x Hx. destruct (Hpl x) as [(E1 & E2 & _) _]. split_and!; [done|done|by apply Hlen].
    + intros x _. left. apply (Hpl x).
    + unfold tree. rewrite Ed, El. eapply family_ext; [|exact (ti_tree _ _ I3)]. intros x _.
      destruct (Hpl x) as [(_ & _ & _ & _ & E1 & E2 & E3 & E4) _]. done.
    + apply (Hpl (init_process s)).
    + intros p Hp. destruct (Hpl p) as [(_ & _ & _ & _ & _ & E & _) ->]. cbn in E. rewrite E. by apply (ti_zombie _ _ I3).
  - destruct I4 as (R1 & R2 & R3 & R4). unfold room. rewrite Es. rewrite <- (size_dom (procs s')), Ed, size_dom. lia.
Qed.

(** Descriptor [fd] of [p] becomes [e]. *)
Lemma set_fd_inv R Ow Ow' l k k' s p fd e fs' :
  os_inv R Ow l k s → p ∈ dom (procs s) → 0 ≤ fd < Z.of_nat PROC_MAX_FDS →
  let e0 := nth (Z.to_nat fd) (fd_table (proc s p)) no_fd in
  fs_ok Ow' (λ f, refs s f - (if decide (fd_file e0 = f) then 1 else 0) + (if decide (fd_file e = f) then 1 else 0)) k' fs' →
  rest_same Ow Ow' → (k' ≤ k)%nat → os_inv R Ow' l k' (set_fd p fd e (set_fs fs' s)).
Proof.
  intros HI Hp Hfd e0 Hfs HO Hk. pose proof (bk_fds _ _ _ (ti_block _ _ (oi_table _ _ _ _ _ HI) p Hp)) as Hlen.
  assert (fd_table (proc s p) !! Z.to_nat fd = Some e0) as He0 
    by (destruct (nth_lookup_or_length (fd_table (proc s p)) (Z.to_nat fd) no_fd); [done|lia]).
  unfold set_fd. change (proc (set_fs fs' s) p) with (proc s p). set (fds := <[Z.to_nat fd := e]> (fd_table (proc s p))).
  apply (inv_files R Ow Ow' l k k' s); try done; [by left|by apply (dom_pupd p _ (set_fs fs' s))| | |].
  - intros x. rewrite proc_pupd. change (proc (set_fs fs' s)) with (proc s). case_decide; [subst|]; done.
  - intros x Hx. rewrite proc_pupd. change (proc (set_fs fs' s)) with (proc s). case_decide; [subst|done].
    cbn [set_fd_table fd_table]. apply length_insert.
  - eapply fs_ok_ext; [|exact Hfs]. intros f _. rewrite (refs_pupd (set_fs fs' s)) by done.
    change (proc (set_fs fs' s)) with (proc s). cbn [set_fd_table fd_table]. unfold fds.
    rewrite (refs_insert f _ _ e0) by done. change (refs (set_fs fs' s) f) with (refs s f). lia.
Qed.

(** Only the heap and the files change. *)
Lemma set_fs_inv R Ow Ow' l k k' s fs' :
  os_inv R Ow l k s → fs_ok Ow' (refs s) k' fs' → rest_same Ow Ow' → (k' ≤ k)%nat → os_inv R Ow' l k' (set_fs fs' s).
Proof. intros HI Hfs HO Hk. apply (inv_files R Ow Ow' l k k' s); try done. by left. Qed.

(** ** Destruction *)

Lemma inv_threads R Ow l k s :
  os_inv R Ow l k s →
  ∃ L, threads_ok (fs_heap (o_fs s)) (o_sched s) l L k ∧ ∀ a, is_Some (L !! a) ↔ is_Some (Ow !! a).
Proof.
  intros [I1 I2 I3 I4]. destruct (fo_heap _ _ _ _ I1) as (L & HL & Hdom). destruct (ti_sched _ _ I3) as (H1 & H2 & H3).
  exists L. split; [|done]. split; try done. intros q Hq%(bi_thread _ _ _ _ I2). apply Hdom. by rewrite Hq.
Qed.

Lemma threads_sched hp sc l L k : threads_ok hp sc l L k → sched_ok sc l.
Proof. intros [H1 H2 H3 H4 H5]. by split_and!. Qed.

(** A thread that does not run is marked as exited. *)
Lemma mark_exited hp sc l L k kt :
  threads_ok hp sc l L k → kt ∈ l → kt ≠ current_kthread sc →
  sched_ok (set_state kt THREAD_EXITED sc) l ∧ owned (set_state kt THREAD_EXITED sc) l = owned sc l.
Proof.
  intros Hok Hkt Hne. split.
  - eapply threads_sched, ok_upd; [exact Hok|done|done|done|]. intros E. by destruct Hne.
  - apply blocks_ext. intros q _. unfold set_state. rewrite thr_upd. case_decide; [subst|]; done.
Qed.

Lemma release_process_eq p s :
  let r := proc s p in
  let hp := fs_heap (o_fs s) in
  release_process p s =
  Os (Fstore (a_free p (if kernel_stack_top r =? 0 then hp else a_free (u64 (kernel_stack_top r - KERNEL_STACK_SIZE)) hp))
        (files (o_fs s)) (privs (o_fs s)))
    (if pml4_phys r =? 0 then o_k s else vmm_free_user_address_space (pml4_phys r) (o_k s))
    (if p_kthread r =? 0 then o_sched s else set_state (p_kthread r) THREAD_EXITED (o_sched s))
    (o_cpu s) (delete p (procs s)) (process_list s) (current_proc s) (next_pid s) (init_process s).
Proof.
  unfold release_process. set (s1 := if negb (p_kthread (proc s p) =? 0) then _ else s).
  assert (pml4_phys (proc s1 p) = pml4_phys (proc s p) ∧ kernel_stack_top (proc s1 p) = kernel_stack_top (proc s p) ∧
    o_fs s1 = o_fs s ∧ o_k s1 = o_k s ∧ o_cpu s1 = o_cpu s ∧ delete p (procs s1) = delete p (procs s) ∧
    process_list s1 = process_list s ∧ current_proc s1 = current_proc s ∧ next_pid s1 = next_pid s ∧
    init_process s1 = init_process s ∧
    o_sched s1 = if p_kthread (proc s p) =? 0 then o_sched s else set_state (p_kthread (proc s p)) THREAD_EXITED (o_sched s))
    as (E1 & E2 & E3 & E4 & E5 & E6 & E7 & E8 & E9 & E10 & E11).
  { unfold s1. destruct (p_kthread (proc s p) =? 0); [done|]. cbn [negb]. rewrite proc_pupd, decide_True by done.
    split_and!; try reflexivity. apply delete_insert_eq. }
  clearbody s1. cbv zeta. rewrite E1, E4. set (k2 := vmm_free_user_address_space _ _). clearbody k2.
  set (s2 := if negb (pml4_phys (proc s p) =? 0) then _ else s1).
  assert (kernel_stack_top (proc s2 p) = kernel_stack_top (proc s p)) as ->.
  { unfold s2. rewrite <- E2. destruct (pml4_phys (proc s p) =? 0); reflexivity. }
  unfold s2, kfree_os, set_heap, set_fs, set_k, set_procs.
  destruct (pml4_phys (proc s p) =? 0), (kernel_stack_top (proc s p) =? 0);
    cbn [negb o_fs o_k o_sched o_cpu procs process_list current_proc next_pid init_process fs_heap files privs];
    rewrite E3, E5, E6, E7, E8, E9, E10, E11, ?E4; reflexivity.
Qed.

(** Block [p] and its stack [st] are given up. *)
Lemma blocks_remove R Ow Ow1 l s s' p :
  blocks_inv R Ow l s → rest_same Ow Ow1 → p ∈ dom (procs s) → dom (procs s') = dom (procs s) ∖ {[p]} →
  (∀ x, x ≠ p → kernel_stack_top (proc s' x) = kernel_stack_top (proc s x)) →
  owned (o_sched s') l = owned (o_sched s) l →
  let st := kernel_stack_top (proc s p) - KERNEL_STACK_SIZE in
  Ow1 !! p = Some OProc ∧ Ow1 !! st = Some (OStack p) ∧ blocks_inv R (delete p (delete st Ow1)) l s'.
Proof.
  intros [B1 B2 B3 B4 B5] HO Hp Ed Htop Eo st. destruct (B1 p (proc s p)) as [Hpo Hst]; [by apply proc_dom|]. fold st in Hst.
  assert (Ow1 !! p = Some OProc) as Hp1 by (by rewrite (HO p OProc)).
  assert (Ow1 !! st = Some (OStack p)) as Hst1 by (by rewrite (HO st (OStack p))).
  split_and!; [done|done|]. assert (∀ x, x ∈ dom (procs s') ↔ x ∈ dom (procs s) ∧ x ≠ p) as HD
    by (intros x; by rewrite Ed, elem_of_difference, elem_of_singleton).
  assert (∀ a o, is_file o = false → delete p (delete st Ow1) !! a = Some o ↔ Ow !! a = Some o ∧ a ≠ p ∧ a ≠ st) as HO'.
  { intros a o Ho. rewrite !lookup_delete_Some, (HO a o Ho). naive_solver. }
  split.
  - intros q r [[Hq Hqp]%HD <-]%proc_lookup. rewrite Htop by done. destruct (B1 q (proc s q)) as [A1 A2]; [by apply proc_dom|].
    rewrite !HO' by done. split; (split_and!; [done|..]); congruence.
  - intros a (Ha & Hap & _)%HO'; [|done]. apply elem_of_dom, HD. split; [by apply elem_of_dom, B2|done].
  - intros a q (Ha & Hap & Hast)%HO'; [|done]. destruct (B3 a q Ha) as (r & [Hq <-]%proc_lookup & E).
    assert (q ≠ p) as Hqp by (intros ->; by destruct Hast). exists (proc s' q). rewrite Htop by done. split; [|done].
    apply proc_dom, HD. done.
  - intros a. rewrite HO', Eo, <- B4 by done. split; [naive_solver|]. intros Ha. split_and!; congruence.
  - intros a. rewrite HO', <- B5 by done. split; [naive_solver|]. intros Ha. split_and!; congruence.
Qed.

Lemma table_remove l s s' p :
  table_inv l s → sched_ok (o_sched s') l → current_kthread (o_sched s') = current_kthread (o_sched s) →
  next_pid s' = next_pid s → init_process s' = init_process s → current_proc s' = current_proc s →
  p ∈ dom (procs s) → p ≠ current_proc s → p ≠ init_process s → dom (procs s') = dom (procs s) ∖ {[p]} →
  (∀ x, x ≠ p → core (proc s' x) = core (proc s x) ∧ p_parent (proc s' x) = p_parent (proc s x)) →
  (∀ x, x ≠ p → x ≠ p_parent (proc s p) → p_children (proc s' x) = p_children (proc s x)) → tree s' → table_inv l s'.
Proof.
  intros [T1 T2 T3 T4 T5 T6 T7] Hs Ek En Ei Ec Hp Hpc Hpi Ed Hco Hch Ht.
  assert (∀ x, x ∈ dom (procs s') ↔ x ∈ dom (procs s) ∧ x ≠ p) as HD
    by (intros x; by rewrite Ed, elem_of_difference, elem_of_singleton).
  split; rewrite ?Ei, ?Ec, ?En; try done.
  - intros q [Hq Hqp]%HD. destruct (Hco q Hqp) as [E _]. apply core_fields in E as (E1 & E2 & E3 & E4 & _).
    destruct (T2 q Hq) as [A1 A2 A3 A4]. split; by rewrite ?E1, ?E2, ?E3, ?E4, ?Ek, ?En.
  - intros q q' [Hq Hqp]%HD [Hq' Hqp']%HD. destruct (Hco q Hqp) as [E _]. apply core_fields in E as (-> & _).
    destruct (Hco q' Hqp') as [E _]. apply core_fields in E as (-> & _). by apply T3.
  - rewrite HD. destruct T5 as [?|?]; [by left|right]. done.
  - destruct T6 as [(E & _)|(E1 & E2 & E3)]; [by rewrite E, dom_empty_L in Hp|]. right.
    rewrite HD. destruct (Hco (init_process s)) as [_ ->]; [done|]. done.
  - intros q [Hq Hqp]%HD Hst Hqi. destruct (Hco q Hqp) as [E _]. apply core_fields in E as (_ & _ & _ & _ & E & _).
    rewrite E in Hst. pose proof (T7 q Hq Hst Hqi) as Hz. rewrite Hch; [done|done|]. intros ->.
    destruct (fa_kids _ _ _ _ _ _ T4 _ Hq) as (cs & Hcs & _ & Hin). rewrite Hz in Hcs.
    destruct cs; [|by destruct Hcs as (<- & ? & _)]. assert (p ∈ []) as ?%elem_of_nil by (by apply Hin). done.
Qed.

(** What is left of the other processes when [p] is gone. *)
Definition removed (p : Z) s s' : Prop :=
  dom (procs s') = dom (procs s) ∖ {[p]} ∧
  (∀ x, x ≠ p → core (proc s' x) = core (proc s x) ∧ p_parent (proc s' x) = p_parent (proc s x)) ∧
  current_proc s' = current_proc s ∧ next_pid s' = next_pid s ∧ init_process s' = init_process s ∧ o_cpu s' = o_cpu s.

(** [p] is off the lists and has no descriptors left, but is not yet freed. *)
Record detached (Ow1 : gmap Z obj) (k : nat) (p : Z) s s1 : Prop := {
  dt_family : family (dom (procs s) ∖ {[p]}) (process_list s1) (λ x, p_next (proc s1 x)) (λ x, p_parent (proc s1 x))
    (λ x, p_children (proc s1 x)) (λ x, p_sibling (proc s1 x));
  dt_same : ∀ x, x ≠ p → core (proc s1 x) = core (proc s x) ∧ p_parent (proc s1 x) = p_parent (proc s x);
  dt_children : ∀ x, x ≠ p → x ≠ p_parent (proc s p) → p_children (proc s1 x) = p_children (proc s x);
  dt_top : kernel_stack_top (proc s1 p) = kernel_stack_top (proc s p);
  dt_kthread : p_kthread (proc s1 p) = p_kthread (proc s p);
  dt_dom : dom (procs s1) = dom (procs s);
  dt_rest : o_sched s1 = o_sched s ∧ o_cpu s1 = o_cpu s ∧ current_proc s1 = current_proc s ∧ next_pid s1 = next_pid s ∧
    init_process s1 = init_process s;
  dt_fs : fs_ok Ow1 (λ f, refs s f - refs_in f (fd_table (proc s p))) k (o_fs s1);
}.

Lemma close_all_detached R Ow l k s p :
  os_inv R Ow l k s → p ∈ dom (procs s) → p_children (proc s p) = 0 →
  ∃ Ow1, detached Ow1 k p s (close_all p (unlink_process p (unlink_child p s))) ∧ rest_same Ow Ow1.
Proof.
  intros [I1 I2 I3 I4] Hp Hch. pose proof (ti_tree _ _ I3) as Ht.
  destruct (unlink_proc_ok p s Ht Hp Hch) as (Hfam & Eco & Epa & Ech & Ed & (E1 & E2 & E3 & E4 & E5 & E6 & E7)).
  set (s1 := unlink_process p (unlink_child p s)) in *. clearbody s1. unfold close_all.
  destruct (core_fields _ _ (Eco p)) as (A1 & A2 & A3 & A4 & A5 & A6).
  destruct (close_fds_ok (fd_table (proc s1 p)) Ow (refs s) k (o_fs s1)) as (Ow1 & fds & fs1 & -> & Hfs & HO & _).
  { by rewrite E1. }
  { intros f _. rewrite A3. pose proof (refs_ge s p f Hp). pose proof (refs_limit l k s f I3 I4). lia. }
  exists Ow1. split; [|done]. assert (∀ x, proc (pupd p (set_fd_table fds) (set_fs fs1 s1)) x =
    if decide (x = p) then set_fd_table fds (proc s1 p) else proc s1 x) as Hpr by (intros x; by rewrite proc_pupd).
  split.
  - eapply family_ext; [|exact Hfam]. intros x _. rewrite Hpr. by case_decide; subst.
  - intros x Hx. rewrite Hpr, decide_False by done. done.
  - intros x Hx Hx'. rewrite Hpr, decide_False by done. by apply Ech.
  - rewrite Hpr, decide_True by done. done.
  - rewrite Hpr, decide_True by done. done.
  - rewrite dom_pupd; [done|]. change (p ∈ dom (procs s1)). by rewrite Ed.
  - done.
  - cbn [o_fs pupd set_procs set_fs]. by rewrite <- A3.
Qed.

Lemma release_process_inv R Ow Ow1 l k s s1 p :
  os_inv R Ow l k s → p ∈ dom (procs s) → p ≠ current_proc s → p ≠ init_process s →
  detached Ow1 k p s s1 → rest_same Ow Ow1 →
  let s' := release_process p s1 in (∃ Ow', os_inv R Ow' l k s') ∧ removed p s s'.
Proof.
  intros HI Hp Hpc Hpi [Hfam Hco Hch Etop Ekt Ed1 (Es & Ecpu & Ec & En & Ei) Hfs] HO s'.
  pose proof (release_process_eq p s1) as E. cbv zeta in E. fold s' in E. rewrite Etop, Ekt, Es, En, Ei, Ec, Ecpu in E.
  set (k' := if pml4_phys (proc s1 p) =? 0 then _ else _) in E. clearbody k'.
  destruct (inv_threads _ _ _ _ _ HI) as (L & Hthr & _). destruct HI as [I1 I2 I3 I4].
  set (sc := if p_kthread (proc s p) =? 0 then _ else _) in E.
  assert (sched_ok sc l ∧ owned sc l = owned (o_sched s) l ∧ current_kthread sc = current_kthread (o_sched s) ∧
    next_thread_id sc = next_thread_id (o_sched s)) as (Hsc & Eo & Ecu & Eid).
  { unfold sc. destruct (Z.eqb_spec (p_kthread (proc s p)) 0) as [|Hk]; [split_and!; [apply I3|done..]|].
    destruct (bk_thread _ _ _ (ti_block _ _ I3 p Hp)) as [|[Hkl Hkc]]; [done|].
    destruct (mark_exited _ _ _ _ _ _ Hthr Hkl Hkc) as [??]. by split_and!. }
  clearbody sc.
  assert (∀ x, x ≠ p → proc s' x = proc s1 x) as Hpr.
  { intros x Hx. rewrite E. unfold proc. cbn [procs]. by rewrite lookup_delete_ne. }
  assert (dom (procs s') = dom (procs s) ∖ {[p]}) as Ed by (rewrite E; cbn [procs]; by rewrite dom_delete_L, Ed1).
  assert (∀ x, x ≠ p → core (proc s' x) = core (proc s x) ∧ p_parent (proc s' x) = p_parent (proc s x)) as Hco'
    by (intros x Hx; rewrite Hpr by done; by apply Hco).
  destruct (blocks_remove R Ow Ow1 l s s' p I2 HO Hp Ed) as (Hp1 & Hst1 & Hb').
  { intros x Hx. destruct (Hco' x Hx) as [Ex _]. by apply core_fields in Ex as (_ & ? & _). }
  { rewrite E. exact Eo. }
  set (st := kernel_stack_top (proc s p) - KERNEL_STACK_SIZE) in *.
  pose proof (heap_owned_pos _ _ _ _ _ (fo_heap _ _ _ _ Hfs) Hst1) as Hst0.
  pose proof (bk_top _ _ _ (ti_block _ _ I3 p Hp)) as Htop.
  assert (p ≠ st) as Hpst by congruence.
  split; [exists (delete p (delete st Ow1)); split; [|done| |]|rewrite E in Hco', Ed |- *; by split_and!].
  - eapply fs_ok_ext; [intros f _; apply (refs_removed s s' p f Hp Ed)|].
    { intros x Hx. destruct (Hco' x Hx) as [Ex _]. by apply core_fields in Ex as (_ & _ & ? & _). }
    rewrite E. cbn [o_fs]. assert ((kernel_stack_top (proc s p) =? 0) = false) as -> by (unfold st, KERNEL_STACK_SIZE in *; lia).
    rewrite u64_small by (fold st; unfold st, KERNEL_STACK_SIZE in *; lia). fold st. eapply fs_ok_owners; [exact Hfs|..].
    + eapply heap_free_owned; [eapply heap_free_owned; [apply Hfs|done]|]. by rewrite lookup_delete_ne.
    + intros a o Ho. rewrite !lookup_delete_Some. split; [naive_solver|]. intros Ha. destruct o; try done; split_and!; congruence.
  - apply (table_remove l s s' p); try (rewrite E; done); try done.
    + intros x Hx Hx'. rewrite Hpr by done. by apply Hch.
    + unfold tree. rewrite Ed. replace (process_list s') with (process_list s1) by (by rewrite E).
      eapply family_ext; [|exact Hfam]. intros x [_ Hx]%elem_of_difference. rewrite elem_of_singleton in Hx. by rewrite Hpr.
  - destruct I4 as (R1 & R2 & R3 & R4). unfold room. rewrite <- (size_dom (procs s')), Ed, E. cbn [o_sched next_pid]. rewrite Eid.
    assert (size (dom (procs s) ∖ {[p]}) ≤ size (dom (procs s)))%nat as Hsz 
      by (apply subseteq_size; by intros x [? _]%elem_of_difference).
    rewrite size_dom in Hsz. lia.
Qed.

Lemma process_destroy_inv R Ow l k s p :
  os_inv R Ow l k s → p ∈ dom (procs s) → p ≠ current_proc s → p ≠ init_process s → p_children (proc s p) = 0 →
  (∃ Ow', os_inv R Ow' l k (process_destroy p s)) ∧ removed p s (process_destroy p s).
Proof.
  intros HI Hp Hpc Hpi Hch. destruct (close_all_detached R Ow l k s p HI Hp Hch) as (Ow1 & Hd & HO).
  unfold process_destroy. assert ((p =? 0) = false) as ->.
  { apply Z.eqb_neq. intros ->. by apply (fa_null _ _ _ _ _ _ (ti_tree _ _ (oi_table _ _ _ _ _ HI))). }
  by apply (release_process_inv R Ow Ow1 l k s).
Qed.
End Steps.
