(* ===== verification/ProcMake.v ===== *)
(** * New processes and threads keep the invariant *)
From S2P Require Import Prelude Pmm Page Vmm Heap HeapInv HeapProps HeapSpec Alloc.
From S2P Require Import Kthread KthreadProps KthreadMem KthreadInv KthreadRun.
From S2P Require Import Console Keyboard Serial Terminal Ext2 Vfs Process ProcSys ProcList ProcFiles ProcInv ProcSteps.
Local Open Scope Z_scope.

Section Make.
Context {H : Type} `{!Allocator H}.
Implicit Types s : os H.

(** [r] is the block of a new process [p] with parent [q], linked into [s']. *)
Record added (p q : Z) (r : process) s s' : Prop := {
  ad_dom : dom (procs s') = {[p]} ∪ dom (procs s);
  ad_new : proc s' p = r;
  ad_old : ∀ x, x ∈ dom (procs s) → proc s' x = if decide (x = q) then set_p_children p (proc s x) else proc s x;
  ad_list : process_list s' = p;
  ad_rest : o_sched s' = o_sched s ∧ current_proc s' = current_proc s ∧ next_pid s' = next_pid s + 1 ∧
    init_process s' = (if decide (next_pid s = 1) then p else init_process s);
  ad_links : p_parent r = q ∧ p_children r = 0 ∧ p_next r = process_list s ∧
    p_sibling r = (if decide (q = 0) then 0 else p_children (proc s q));
  ad_ids : pid r = next_pid s ∧ p_kthread r = 0 ∧ length (fd_table r) = PROC_MAX_FDS ∧ p_state r ≠ PROC_ZOMBIE;
  ad_fresh : p ≠ 0 ∧ (p ∉ dom (procs s)) ∧ (q = 0 ∨ q ∈ dom (procs s) ∧ p_state (proc s q) ≠ PROC_ZOMBIE);
}.

Lemma added_tree l p q r s s' : table_inv l s → added p q r s s' → tree s'.
Proof.
  intros HT [A1 A2 A3 A4 A5 (L1 & L2 & L3 & L4) A7 (Hp0 & Hp & Hq)].
  assert (q = 0 ∨ q ∈ dom (procs s)) as Hq' by (destruct Hq as [?|[??]]; tauto).
  pose proof (family_add _ _ _ _ _ _ p q (ti_tree _ _ HT) Hp Hp0 Hq') as Hf. unfold tree. rewrite A1, A4.
  eapply family_ext; [|exact Hf]. intros x [->%elem_of_singleton|Hx]%elem_of_union.
  - rewrite A2, !fput_eq, L1, L2, L3, L4. split_and!; [done|done| |].
    + case_decide; [by rewrite fput_eq|]. rewrite fput_ne, fput_eq; [done|]. intros ->. by destruct Hq as [?|[??]].
    + case_decide; [|by rewrite fput_eq]. assert (procs s !! p = None) as E by (by apply not_elem_of_dom).
      unfold proc. by rewrite E.
  - assert (x ≠ p) as Hxp by (intros ->; done). rewrite !(fput_ne _ p) by done.
    assert (p_next (proc s' x) = p_next (proc s x) ∧ p_parent (proc s' x) = p_parent (proc s x) ∧
      p_sibling (proc s' x) = p_sibling (proc s x)) as (-> & -> & ->) by (rewrite A3 by done; destruct (decide (x = q)); by split_and!).
    split_and!; [done|done| |case_decide; [done|by rewrite fput_ne]].
    rewrite A3 by done. assert (x ≠ 0) as Hx0 by (intros ->; by apply (fa_null _ _ _ _ _ _ (ti_tree _ _ HT))).
    destruct (decide (q = 0)) as [->|Hq0]; [by rewrite decide_False, fput_ne|].
    destruct (decide (x = q)) as [->|Hxq]; [by rewrite fput_eq|]. by rewrite !fput_ne.
Qed.

Lemma added_table l p q r s s' : table_inv l s → added p q r s s' → kernel_stack_top r < 2 ^ 64 → 0 < next_pid s → table_inv l s'.
Proof.
  intros HT Ha Htop Hnp. pose proof (added_tree l p q r s s' HT Ha) as Ht'.
  destruct Ha as [A1 A2 A3 A4 (E1 & E2 & E3 & E4) (L1 & L2 & L3 & L4) (D1 & D2 & D3 & D4) (Hp0 & Hp & Hq)].
  destruct HT as [T1 T2 T3 T4 T5 T6 T7].
  assert (∀ x, x ∈ dom (procs s') ↔ x = p ∨ x ∈ dom (procs s)) as HD by (intros x; by rewrite A1, elem_of_union, elem_of_singleton).
  assert (∀ x, x ∈ dom (procs s) → pid (proc s' x) = pid (proc s x) ∧ kernel_stack_top (proc s' x) = kernel_stack_top (proc s x) ∧
    fd_table (proc s' x) = fd_table (proc s x) ∧ p_kthread (proc s' x) = p_kthread (proc s x) ∧
    p_state (proc s' x) = p_state (proc s x) ∧ p_parent (proc s' x) = p_parent (proc s x)) as Hold.
  { intros x Hx. rewrite A3 by done. destruct (decide (x = q)); by split_and!. }
  split; rewrite ?E1, ?E2, ?E3; try done.
  - intros x [->|Hx]%HD.
    + rewrite A2. split; rewrite ?D1, ?D2, ?E3; [done|done|by left|lia].
    + destruct (T2 x Hx) as [B1 B2 B3 B4]. destruct (Hold x Hx) as (H1 & H2 & H3 & H4 & _).
      split; rewrite ?H1, ?H2, ?H3, ?H4, ?E1, ?E3; [done|done|done|lia].
  - intros x y [->|Hx]%HD [->|Hy]%HD; [done| | |].
    + rewrite A2, D1. destruct (Hold y Hy) as (-> & _). pose proof (bk_pid _ _ _ (T2 y Hy)). lia.
    + rewrite A2, D1. destruct (Hold x Hx) as (-> & _). pose proof (bk_pid _ _ _ (T2 x Hx)). lia.
    + destruct (Hold x Hx) as (-> & _). destruct (Hold y Hy) as (-> & _). by apply T3.
  - rewrite HD. destruct T5 as [?|?]; tauto.
  - right. rewrite E4. destruct T6 as [(I1 & I2 & I3)|(I1 & I2 & I3)].
    + rewrite decide_True by done. rewrite HD, A2, L1. split_and!; [by left| |lia].
      destruct Hq as [?|[Hq _]]; [done|]. by rewrite I1, dom_empty_L in Hq.
    + rewrite decide_False by lia. rewrite HD. split_and!; [by right| |lia]. by destruct (Hold _ I1) as (_ & _ & _ & _ & _ & ->).
  - intros x [->|Hx]%HD; [by rewrite A2|]. destruct (Hold x Hx) as (_ & _ & _ & _ & -> & _). intros Hst Hxi.
    rewrite A3 by done. destruct (decide (x = q)) as [->|Hxq].
    { exfalso. destruct Hq as [->|[_ Hz]]; [by destruct (fa_null _ _ _ _ _ _ T4)|by destruct Hz]. }
    apply T7; [done|done|]. rewrite E4 in Hxi. destruct T6 as [(I1 & _)|(_ & _ & I3)]; [by rewrite I1, dom_empty_L in Hx|].
    rewrite decide_False in Hxi by lia. done.
Qed.

Lemma added_inv R Ow Ow' l k k' p q r s s' :
  let st := kernel_stack_top r - KERNEL_STACK_SIZE in
  os_inv R Ow l k s → added p q r s s' → kernel_stack_top r < 2 ^ 64 →
  (∀ a o, is_file o = false → Ow' !! a = Some o ↔ Ow !! a = Some o ∨ (a = p ∧ o = OProc) ∨ (a = st ∧ o = OStack p)) →
  fs_ok Ow' (λ f, refs s f + refs_in f (fd_table r)) k' (o_fs s') → (k' < k)%nat → os_inv R Ow' l k' s'.
Proof.
  intros st [I1 I2 I3 I4] Ha Htop HO Hfs Hk.
  pose proof (added_table l p q r s s' I3 Ha Htop ltac:(apply I4)) as HT'.
  destruct Ha as [A1 A2 A3 A4 (E1 & E2 & E3 & E4) _ _ (Hp0 & Hp & Hq)].
  assert (∀ x, x ∈ dom (procs s) → kernel_stack_top (proc s' x) = kernel_stack_top (proc s x) ∧
    fd_table (proc s' x) = fd_table (proc s x)) as Hold by (intros x Hx; rewrite A3 by done; destruct (decide (x = q)); by split_and!).
  assert (∀ x, x ∈ dom (procs s') ↔ x = p ∨ x ∈ dom (procs s)) as HD by (intros x; by rewrite A1, elem_of_union, elem_of_singleton).
  split; [| |done|].
  - eapply fs_ok_ext; [|exact Hfs]. intros f _. rewrite <- A2.
    assert (refs s f = refs s' f - refs_in f (fd_table (proc s' p))) as ->; [|lia].
    apply refs_removed; [by rewrite HD; left| |].
    + rewrite A1. apply set_eq. intros x. rewrite elem_of_difference, elem_of_union, elem_of_singleton. naive_solver.
    + intros x Hx. destruct (decide (x ∈ dom (procs s))) as [Hx'|Hx']; [by destruct (Hold x Hx') as [_ ->]|].
      assert (x ∉ dom (procs s')) as Hx2 by (rewrite HD; tauto). apply not_elem_of_dom in Hx', Hx2. unfold proc. by rewrite Hx', Hx2.
  - destruct I2 as [B1 B2 B3 B4 B5]. split.
    + intros x w [[->|Hx]%HD <-]%proc_lookup; rewrite !HO by done; [rewrite A2; tauto|].
      destruct (B1 x (proc s x)) as [C1 C2]; [by apply proc_dom|]. destruct (Hold x Hx) as [-> _]. tauto.
    + intros a [Hb|[[-> _]|[_ ?]]]%HO; [| | |done]; [|by apply elem_of_dom, HD; left|done].
      apply elem_of_dom, HD. right. by apply elem_of_dom, B2.
    + intros a x [Hb|[[_ ?]|[-> [= ->]]]]%HO; [|done| |done].
      * destruct (B3 a x Hb) as (w & [Hx <-]%proc_lookup & E). exists (proc s' x). destruct (Hold x Hx) as [-> _].
        split; [|done]. apply proc_dom, HD. by right.
      * exists (proc s' p). split; [apply proc_dom, HD; by left|by rewrite A2].
    + intros a. rewrite E1, <- B4, HO by done. naive_solver.
    + intros a. rewrite <- B5, HO by done. naive_solver.
  - destruct I4 as (R1 & R2 & R3 & R4). unfold room. rewrite E1, E3. rewrite <- (size_dom (procs s')), A1.
    rewrite size_union by (by rewrite disjoint_singleton_l). rewrite size_singleton, size_dom. lia.
Qed.

(** The global list gets the new block last. *)
Lemma process_add_added p q r s s1 :
  p ≠ 0 → (p ∉ dom (procs s)) → (q = 0 ∨ q ∈ dom (procs s) ∧ p_state (proc s q) ≠ PROC_ZOMBIE) →
  dom (procs s1) = {[p]} ∪ dom (procs s) → proc s1 p = r →
  (∀ x, x ∈ dom (procs s) → proc s1 x = if decide (x = q) then set_p_children p (proc s x) else proc s x) →
  process_list s1 = process_list s → o_sched s1 = o_sched s → current_proc s1 = current_proc s →
  next_pid s1 = next_pid s + 1 → init_process s1 = (if decide (next_pid s = 1) then p else init_process s) →
  p_parent r = q → p_children r = 0 → p_sibling r = (if decide (q = 0) then 0 else p_children (proc s q)) →
  pid r = next_pid s → p_kthread r = 0 → length (fd_table r) = PROC_MAX_FDS → p_state r ≠ PROC_ZOMBIE →
  added p q (set_p_next (process_list s) r) s (process_add p s1).
Proof.
  intros Hp0 Hp Hq Ed Er Hold El Es Ec En Ei L1 L2 L3 D1 D2 D3 D4. unfold process_add.
  assert ((p =? 0) = false) as -> by lia. cbn [negb]. rewrite El. split; try done.
  - cbn [procs set_list pupd set_procs]. rewrite dom_insert_L, Ed. set_solver.
  - change (proc (pupd p (set_p_next (process_list s)) s1) p = set_p_next (process_list s) r).
    by rewrite proc_pupd, decide_True, Er.
  - intros x Hx. change (proc (pupd p (set_p_next (process_list s)) s1) x = if decide (x = q) then set_p_children p (proc s x) else proc s x).
    rewrite proc_pupd, decide_False; [by apply Hold|]. intros ->. done.
Qed.

Lemma process_add_fs p s : o_fs (process_add p s) = o_fs s.
Proof. unfold process_add. by destruct (p =? 0). Qed.

Lemma process_add_rest p s :
  init_process (process_add p s) = init_process s ∧ o_cpu (process_add p s) = o_cpu s ∧ o_k (process_add p s) = o_k s.
Proof. unfold process_add. by destruct (p =? 0). Qed.

(** The descriptors of one more file. *)
Lemma tty_open_refs flags terminal Ow cnt k fs :
  fs_ok Ow cnt (S k) fs →
  let '(f, fs') := tty_open flags terminal fs in
  ∃ Ow', fs_ok Ow' (λ g, cnt g + refs_in g [FdEntry f 0]) k fs' ∧ rest_same Ow Ow'.
Proof.
  intros Hok. pose proof (tty_open_ok flags terminal Ow cnt k fs Hok) as Hm. destruct (tty_open flags terminal fs) as [f fs'].
  destruct Hm as [[-> Hok']|(Hf & Hn & Hok')].
  - exists Ow. split; [|done]. eapply fs_ok_ext; [|exact Hok']. intros g Hg. cbn. rewrite decide_False by done. lia.
  - exists (<[f := OFile]> Ow). split; [|by apply rest_insert]. eapply fs_ok_ext; [|exact Hok']. intros g _. cbn. unfold bump.
    repeat case_decide; subst; try done; lia.
Qed.

Lemma open_stdio_ok terminal Ow cnt k s :
  fs_ok Ow cnt (3 + k) (o_fs s) →
  ∃ fds fs' Ow', open_stdio terminal s = (fds, set_fs fs' s) ∧ length fds = PROC_MAX_FDS ∧
    fs_ok Ow' (λ f, cnt f + refs_in f fds) k fs' ∧ rest_same Ow Ow'.
Proof.
  intros H0. unfold open_stdio.
  pose proof (tty_open_refs O_RDONLY terminal Ow cnt _ _ H0) as H1. destruct (tty_open O_RDONLY _ _) as [f0 fs0].
  destruct H1 as (Ow0 & H1 & HO0).
  pose proof (tty_open_refs O_WRONLY terminal Ow0 _ _ _ H1) as H2. destruct (tty_open O_WRONLY _ fs0) as [f1 fs1].
  destruct H2 as (Ow1 & H2 & HO1).
  pose proof (tty_open_refs O_WRONLY terminal Ow1 _ _ _ H2) as H3. destruct (tty_open O_WRONLY _ fs1) as [f2 fs2].
  destruct H3 as (Ow2 & H3 & HO2). eexists _, fs2, Ow2. split; [reflexivity|]. split_and!.
  - cbn [length]. by rewrite length_replicate.
  - eapply fs_ok_ext; [|exact H3]. intros f Hf. cbn [refs_in]. rewrite refs_none by done. lia.
  - by repeat (etransitivity; [eassumption|]).
Qed.

(** ** Threads *)

Lemma table_threads l l' s h sc :
  table_inv l s → sched_ok sc l' → (∀ q, q ∈ l → q ∈ l') → current_kthread sc = current_kthread (o_sched s) →
  table_inv l' (set_sched sc (set_heap h s)).
Proof.
  intros [T1 T2 T3 T4 T5 T6 T7] Hs Hl Ec. split; try done. intros p Hp. destruct (T2 p Hp) as [A1 A2 A3 A4]. split; try done.
  cbn [o_sched set_sched]. rewrite Ec. destruct A3 as [?|[??]]; [by left|right]. split; [by apply Hl|done].
Qed.

(** Owners after new threads: their blocks and nothing else. *)
Definition own_threads (bs : list Z) (Ow : gmap Z obj) : gmap Z obj := Ow ∪ gset_to_gmap OThread (list_to_set bs).

Lemma own_threads_lookup bs Ow a o :
  own_threads bs Ow !! a = Some o ↔ Ow !! a = Some o ∨ (Ow !! a = None ∧ a ∈ bs ∧ o = OThread).
Proof.
  unfold own_threads. rewrite lookup_union_Some_raw, lookup_gset_to_gmap_Some, elem_of_list_to_set. naive_solver.
Qed.

Lemma get_kthread_created sc l id p :
  sched_wf sc l → p ∈ l → kt_id (thr sc p) = id → kthread_get_kthread id sc = p.
Proof.
  intros Hwf Hp Hid. unfold kthread_get_kthread.
  rewrite (find_id_chain _ _ _ l) by (apply (wf_chain _ _ Hwf) || (rewrite (wf_fuel _ _ Hwf); lia)).
  destruct (find _ l) as [q|] eqn:E.
  - apply find_elem in E as [Hq E]. apply Z.eqb_eq in E. cbn. apply (wf_ids_inj _ _ Hwf); [done|done|congruence].
  - pose proof (find_none_elem _ _ p E Hp) as Hn. cbn beta in Hn. lia.
Qed.

Lemma kthread_create_inv R Ow l k s trampoline name entry arg :
  os_inv R Ow l (2 + k) s →
  ∃ tid h sc Ow' l', kthread_create trampoline name entry arg (fs_heap (o_fs s)) (o_sched s) = Done (tid, h, sc) ∧
    os_inv R Ow' l' k (set_sched sc (set_heap h s)) ∧ current_kthread sc = current_kthread (o_sched s) ∧
    (tid = 0 ∨ 0 < tid ∧ ∃ t, created trampoline entry arg tid t sc ∧ kthread_get_kthread tid sc = t ∧ t ∈ l' ∧ t ≠ current_kthread sc).
Proof.
  intros HI. destruct (inv_threads _ _ _ _ _ HI) as (L & Hthr & HL). destruct HI as [I1 I2 I3 I4].
  pose proof I4 as (R1 & R2 & R3 & R4). pose proof (wf_ids _ _ (tk_wf _ _ _ _ _ Hthr) _ (wf_current _ _ (tk_wf _ _ _ _ _ Hthr))) as Hid.
  destruct (create_ok trampoline name entry arg _ _ l L k Hthr ltac:(lia)) as (tid & h & sc & l' & L' & E & Hok & Hg & Hres).
  exists tid, h, sc, (own_threads (owned sc l') Ow), l'. split; [done|]. pose proof Hg as [G1 G2 G3 G4 G5 G6].
  assert (∀ a, a ∈ owned sc l' → Ow !! a = Some OThread ∨ Ow !! a = None) as Hown.
  { intros a Ha. destruct (G5 a Ha) as [Ho|Hn]; [left; by apply (bi_thread _ _ _ _ I2)|right].
    apply eq_None_not_Some. rewrite <- HL, Hn. by intros []. }
  assert (∀ a o, o ≠ OThread → own_threads (owned sc l') Ow !! a = Some o ↔ Ow !! a = Some o) as Hother.
  { intros a o Ho. rewrite own_threads_lookup. naive_solver. }
  split_and!; [split|done|].
  - eapply fs_ok_owners; [exact I1| |]; [|intros a o Ho; apply Hother; by intros ->].
    exists L'. split; [apply Hok|]. intros a. rewrite G4, HL. split.
    + intros [[o Ho]|Ha]; [exists o; apply own_threads_lookup; by left|]. exists OThread. apply own_threads_lookup.
      destruct (Hown a Ha); tauto.
    + intros [o [Ho|(_ & Ha & _)]%own_threads_lookup]; [left; by eexists|by right].
  - destruct I2 as [B1 B2 B3 B4 B5]. split.
    + intros p r Hp. rewrite !Hother by done. by apply B1.
    + intros a Ha%Hother; [|done]. by apply B2.
    + intros a p Ha%Hother; [|done]. by apply B3.
    + intros a. rewrite own_threads_lookup. split.
      * intros [Ha%B4|(_ & Ha & _)]; [by apply G6|done].
      * intros Ha. destruct (Hown a Ha); tauto.
    + intros a. by rewrite Hother.
  - by eapply table_threads; [exact I3|eapply threads_sched|..].
  - unfold room. cbn [o_sched set_sched procs next_pid set_heap set_fs]. lia.
  - destruct Hres as [[-> _]|(-> & p & -> & Hcr)]; [by left|right]. split; [lia|]. exists p. split; [done|].
    pose proof (tk_wf _ _ _ _ _ Hok) as Hwf. assert (p ∈ l ++ [p]) as Hp by (apply elem_of_app; right; by left).
    split_and!; [by apply (get_kthread_created sc (l ++ [p])); [..|apply Hcr]|done|].
    rewrite G1. intros ->. pose proof (wf_nodup _ _ Hwf) as (_ & Hnd & _)%list.NoDup_app.
    apply (Hnd _ (wf_current _ _ (tk_wf _ _ _ _ _ Hthr))). by left.
Qed.

(** ** Creation *)

Lemma fs_ok_le Ow cnt k k' (fs : fstore H) : (k' ≤ k)%nat → fs_ok Ow cnt k fs → fs_ok Ow cnt k' fs.
Proof. intros Hk. induction Hk; [done|]. intros Hok. by apply IHHk, fs_ok_weaken. Qed.

(** The two blocks of a new process. *)
Lemma two_blocks Ow cnt k (fs : fstore H) :
  fs_ok Ow cnt (2 + k) fs →
  let '(p, h1) := a_malloc sizeof_process (fs_heap fs) in
  let '(st, h2) := a_malloc KERNEL_STACK_SIZE h1 in
  (p = 0 ∧ fs_ok Ow cnt k (Fstore h1 (files fs) (privs fs))) ∨
  (0 < p ∧ Ow !! p = None ∧ st = 0 ∧ fs_ok Ow cnt k (Fstore (a_free p h2) (files fs) (privs fs))) ∨
  (0 < p ∧ Ow !! p = None ∧ 0 < st ∧ st + KERNEL_STACK_SIZE < 2 ^ 64 ∧ Ow !! st = None ∧ st ≠ p ∧
   fs_ok (<[st := OStack p]> (<[p := OProc]> Ow)) cnt k (Fstore h2 (files fs) (privs fs)) ∧
   fs_ok Ow cnt k (Fstore (a_free p (a_free st h2)) (files fs) (privs fs))).
Proof.
  intros Hok. pose proof (heap_malloc_owned sizeof_process _ Ow (1 + k) (fo_heap _ _ _ _ Hok) ltac:(unfold sizeof_process; lia)) as Hm.
  destruct (a_malloc sizeof_process (fs_heap fs)) as [p h1]. destruct Hm as [[-> Hh]|(Hp & _ & _ & Hn & Hh)].
  { destruct (a_malloc KERNEL_STACK_SIZE h1) as [st h2]. left. split; [done|].
    apply (fs_ok_owners Ow Ow cnt (2 + k) k fs); [done| |done]. by apply heap_owned_weaken. }
  pose proof (heap_malloc_owned KERNEL_STACK_SIZE h1 _ k (Hh OProc) ltac:(unfold KERNEL_STACK_SIZE; lia)) as Hm.
  destruct (a_malloc KERNEL_STACK_SIZE h1) as [st h2]. right.
  assert (∀ hp, heap_owned hp (<[p := OProc]> Ow) k → fs_ok Ow cnt k (Fstore (a_free p hp) (files fs) (privs fs))) as Hfree.
  { intros hp Hhp. apply (fs_ok_owners Ow Ow cnt (2 + k) k fs); [done| |done].
    rewrite <- (delete_insert_id Ow p OProc Hn). eapply heap_free_owned; [done|]. apply lookup_insert_eq. }
  destruct Hm as [[-> Hh2]|(Hst & Hst2 & _ & Hsn & Hh2)].
  { left. split_and!; [done|done|done|]. by apply Hfree. }
  right. rewrite lookup_insert_None in Hsn. destruct Hsn as [Hsn Hsp]. split_and!; try done.
  - apply (fs_ok_owners Ow _ cnt (2 + k) k fs); [done|apply Hh2|]. intros a o Ho. rewrite !lookup_insert.
    repeat case_decide; subst; [|..]; try done; (split; [intros [= <-]; done|congruence]).
  - apply Hfree. rewrite <- (delete_insert_id (<[p := OProc]> Ow) st (OStack p)) by (by rewrite lookup_insert_ne).
    eapply heap_free_owned; [apply Hh2|]. apply lookup_insert_eq.
Qed.

(** A call that allocates and fails; it may have used a process number. *)
Lemma failed_inv R Ow l k k' s hp kk b :
  os_inv R Ow l k s → fs_ok Ow (refs s) k' (Fstore hp (files (o_fs s)) (privs (o_fs s))) → (k' < k)%nat →
  b = false ∨ 1 < next_pid s →
  os_inv R Ow l k' (Os (Fstore hp (files (o_fs s)) (privs (o_fs s))) kk (o_sched s) (o_cpu s) (procs s) (process_list s)
    (current_proc s) (if b then u64 (next_pid s + 1) else next_pid s) (init_process s)).
Proof.
  intros HI Hfs Hk Hb. apply (inv_files R Ow Ow l k k' s); try done; [|lia]. cbn [next_pid].
  destruct b; [right|by left]. destruct Hb as [|Hb]; [done|]. destruct (oi_room _ _ _ _ _ HI) as (R1 & R2 & _).
  split_and!; [|done|done]. apply u64_small. lia.
Qed.

(** A block linked under [q] and into the global list. *)
Lemma link_new_inv R Ow Ow' l k k' p q r s s1 :
  let st := kernel_stack_top r - KERNEL_STACK_SIZE in
  os_inv R Ow l k s → 0 < p → Ow !! p = None → (q = 0 ∨ q ∈ dom (procs s) ∧ p_state (proc s q) ≠ PROC_ZOMBIE) →
  procs s1 = procs s → process_list s1 = process_list s → o_sched s1 = o_sched s → current_proc s1 = current_proc s →
  next_pid s1 = next_pid s + 1 → init_process s1 = (if decide (next_pid s = 1) then p else init_process s) →
  p_parent r = q → p_children r = 0 → p_sibling r = 0 → pid r = next_pid s → p_kthread r = 0 →
  length (fd_table r) = PROC_MAX_FDS → p_state r ≠ PROC_ZOMBIE → kernel_stack_top r < 2 ^ 64 →
  (∀ a o, is_file o = false → Ow' !! a = Some o ↔ Ow !! a = Some o ∨ (a = p ∧ o = OProc) ∨ (a = st ∧ o = OStack p)) →
  fs_ok Ow' (λ f, refs s f + refs_in f (fd_table r)) k' (o_fs s1) → (k' < k)%nat →
  os_inv R Ow' l k' (process_add p (link_child p q (set_procs (<[p := r]> (procs s1)) s1))).
Proof.
  intros st HI Hp Hpn Hq E1 E2 E3 E4 E5 E6 L1 L2 L3 D1 D2 D3 D4 Htop HO Hfs Hk.
  assert (p ∉ dom (procs s)) as Hpd.
  { intros Hd%proc_dom. destruct (bi_block _ _ _ _ (oi_blocks _ _ _ _ _ HI) p (proc s p) Hd). congruence. }
  set (s2 := set_procs (<[p := r]> (procs s1)) s1).
  assert (∀ x, proc s2 x = if decide (x = p) then r else proc s x) as Hpr.
  { intros x. unfold proc, s2. cbn [procs set_procs]. rewrite E1, lookup_insert. repeat case_decide; subst; done. }
  assert (dom (procs s2) = {[p]} ∪ dom (procs s)) as Ed by (cbn [s2 procs set_procs]; by rewrite dom_insert_L, E1).
  unfold link_child. destruct (Z.eqb_spec q 0) as [Hq0|Hq0]; cbn [negb].
  - apply (added_inv R Ow Ow' l k k' p q (set_p_next (process_list s) r) s); try done; [|by rewrite process_add_fs].
    apply process_add_added; try done; [lia|by rewrite Hpr, decide_True| |by rewrite decide_True].
    intros x Hx. rewrite Hpr, decide_False by (intros ->; done). rewrite decide_False; [done|]. intros ->.
    rewrite Hq0 in Hx. by apply (fa_null _ _ _ _ _ _ (ti_tree _ _ (oi_table _ _ _ _ _ HI))).
  - destruct Hq as [|[Hq Hqz]]; [done|]. assert (q ≠ p) as Hqp by (intros ->; done).
    assert (proc s2 q = proc s q) as -> by (by rewrite Hpr, decide_False).
    apply (added_inv R Ow Ow' l k k' p q (set_p_next (process_list s) (set_p_sibling (p_children (proc s q)) r)) s); try done; [|by rewrite process_add_fs].
    apply process_add_added; try done; [lia|by right| | | |by rewrite decide_False].
    + unfold pupd. cbn [procs set_procs]. rewrite !dom_insert_L, Ed. clear -Hq. set_solver.
    + rewrite !proc_pupd. rewrite decide_False, decide_True, Hpr, decide_True by done. done.
    + intros x Hx. assert (x ≠ p) as Hxp by (intros ->; done). rewrite !proc_pupd, !Hpr. repeat case_decide; subst; done.
Qed.

(** A child's block linked under its parent and into the global list. *)
Lemma link_child_inv R Ow Ow' l k k' p q r s s1 :
  let st := kernel_stack_top r - KERNEL_STACK_SIZE in
  os_inv R Ow l k s → 0 < p → Ow !! p = None → q ∈ dom (procs s) → p_state (proc s q) ≠ PROC_ZOMBIE →
  procs s1 = procs s → process_list s1 = process_list s → o_sched s1 = o_sched s → current_proc s1 = current_proc s →
  next_pid s1 = next_pid s + 1 → init_process s1 = init_process s →
  p_parent r = q → p_children r = 0 → p_sibling r = p_children (proc s q) → pid r = next_pid s → p_kthread r = 0 →
  length (fd_table r) = PROC_MAX_FDS → p_state r ≠ PROC_ZOMBIE → kernel_stack_top r < 2 ^ 64 →
  (∀ a o, is_file o = false → Ow' !! a = Some o ↔ Ow !! a = Some o ∨ (a = p ∧ o = OProc) ∨ (a = st ∧ o = OStack p)) →
  fs_ok Ow' (λ f, refs s f + refs_in f (fd_table r)) k' (o_fs s1) → (k' < k)%nat →
  let s' := process_add p (pupd q (set_p_children p) (set_procs (<[p := r]> (procs s1)) s1)) in
  os_inv R Ow' l k' s' ∧ added p q (set_p_next (process_list s) r) s s'.
Proof.
  intros st HI Hp Hpn Hq Hqz E1 E2 E3 E4 E5 E6 L1 L2 L3 D1 D2 D3 D4 Htop HO Hfs Hk s'.
  assert (p ∉ dom (procs s)) as Hpd.
  { intros Hd%proc_dom. destruct (bi_block _ _ _ _ (oi_blocks _ _ _ _ _ HI) p (proc s p) Hd). congruence. }
  assert (q ≠ p ∧ q ≠ 0) as [Hqp Hq0].
  { split; [by intros ->|]. intros ->. by apply (fa_null _ _ _ _ _ _ (ti_tree _ _ (oi_table _ _ _ _ _ HI))). }
  assert (1 < next_pid s) as Hnp.
  { destruct (ti_init _ _ (oi_table _ _ _ _ _ HI)) as [(E & _)|(_ & _ & ?)]; [|done]. by rewrite E, dom_empty_L in Hq. }
  set (s2 := set_procs (<[p := r]> (procs s1)) s1) in *.
  assert (∀ x, proc s2 x = if decide (x = p) then r else proc s x) as Hpr.
  { intros x. unfold proc, s2. cbn [procs set_procs]. rewrite E1, lookup_insert. repeat case_decide; subst; done. }
  assert (added p q (set_p_next (process_list s) r) s s') as Ha.
  { apply process_add_added; try done; [lia|by right| | | | |].
    - unfold pupd. cbn [procs set_procs s2]. rewrite !dom_insert_L, E1. clear -Hq. set_solver.
    - by rewrite proc_pupd, decide_False, Hpr, decide_True.
    - intros x Hx. assert (x ≠ p) as Hxp by (intros ->; done). rewrite !proc_pupd, !Hpr. repeat case_decide; subst; done.
    - rewrite decide_False by lia. done.
    - by rewrite decide_False. }
  split; [|done]. apply (added_inv R Ow Ow' l k k' p q (set_p_next (process_list s) r) s); try done.
  unfold s'. by rewrite process_add_fs.
Qed.

(** Owners of a new block and its stack. *)
Lemma two_owners Ow Ow' p st a o :
  rest_same (<[st := OStack p]> (<[p := OProc]> Ow)) Ow' → Ow !! p = None → Ow !! st = None → st ≠ p → is_file o = false →
  Ow' !! a = Some o ↔ Ow !! a = Some o ∨ (a = p ∧ o = OProc) ∨ (a = st ∧ o = OStack p).
Proof.
  intros HO Hp Hst Hne Ho. rewrite (HO a o Ho), !lookup_insert. destruct (decide (st = a)) as [->|].
  { split; [naive_solver|]. intros [?|[[-> _]|[_ ->]]]; congruence. }
  destruct (decide (p = a)) as [->|]; [split; [naive_solver|]|naive_solver]. intros [?|[[_ ->]|[-> _]]]; congruence.
Qed.

(** The state once a new process has its number. *)
Definition numbered (p : Z) s : os H :=
  let '(id, s') := process_allocate_pid s in if id =? 1 then set_init p s' else s'.

Lemma numbered_ok p s :
  o_fs (numbered p s) = o_fs s ∧ o_k (numbered p s) = o_k s ∧ o_sched (numbered p s) = o_sched s ∧ o_cpu (numbered p s) = o_cpu s ∧
  procs (numbered p s) = procs s ∧ process_list (numbered p s) = process_list s ∧ current_proc (numbered p s) = current_proc s ∧
  next_pid (numbered p s) = u64 (next_pid s + 1) ∧ init_process (numbered p s) = if decide (next_pid s = 1) then p else init_process s.
Proof.
  unfold numbered. cbn [process_allocate_pid]. destruct (Z.eqb_spec (next_pid s) 1) as [En|En].
  - rewrite decide_True by done. by split_and!.
  - rewrite decide_False by done. by split_and!.
Qed.

Lemma process_create_inv R Ow l k s name terminal p s' :
  os_inv R Ow l (5 + k) s → current_proc s = 0 ∨ p_state (proc s (current_proc s)) ≠ PROC_ZOMBIE →
  process_create name terminal s = Done (p, s') → (p = 0 → 1 < next_pid s) →
  ∃ Ow', os_inv R Ow' l k s'.
Proof.
  intros HI Hcur E Hfail. pose proof (two_blocks Ow (refs s) (3 + k) (o_fs s) (oi_fs _ _ _ _ _ HI)) as Hm.
  unfold process_create, kmalloc_os in E. destruct (a_malloc sizeof_process (fs_heap (o_fs s))) as [p0 h1].
  cbn [process_allocate_pid fst snd] in E. cbv zeta in E.
  destruct (Z.eqb_spec p0 0) as [->|Hp0].
  { injection E as <- <-. destruct (a_malloc KERNEL_STACK_SIZE h1) as [st h2].
    destruct Hm as [[_ Hfs]|[(? & _)|(? & _)]]; [|lia..]. exists Ow.
    apply (failed_inv R Ow l (5 + k) k s h1 (o_k s) false HI); [|lia|by left]. eapply fs_ok_le; [|exact Hfs]. lia. }
  set (s2 := if next_pid (set_heap h1 s) =? 1 then _ else _) in E.
  pose proof (numbered_ok p0 (set_heap h1 s)) as HS. change (numbered p0 (set_heap h1 s)) with s2 in HS.
  destruct HS as (S1 & _ & S2 & S3 & S4 & S5 & S6 & S7 & S8).
  cbn [set_heap set_fs o_fs o_sched o_cpu procs process_list current_proc next_pid init_process] in S1, S2, S3, S4, S5, S6, S7, S8.
  clearbody s2. rewrite S1 in E. cbn [fs_heap] in E. destruct (a_malloc KERNEL_STACK_SIZE h1) as [st h2].
  destruct Hm as [[? _]|Hm]; [lia|].
  assert (∀ hp kk, p = 0 → fs_ok Ow (refs s) (3 + k) (Fstore hp (files (o_fs s)) (privs (o_fs s))) →
    s' = Os (Fstore hp (files (o_fs s)) (privs (o_fs s))) kk (o_sched s) (o_cpu s) (procs s) (process_list s)
      (current_proc s) (u64 (next_pid s + 1)) (init_process s2) → ∃ Ow', os_inv R Ow' l k s') as Hbad.
  { intros hp kk Hz Hfs ->. exists Ow. rewrite S8, decide_False by (specialize (Hfail Hz); lia).
    apply (failed_inv R Ow l (5 + k) k s hp kk true HI); [|lia|right; by apply Hfail]. eapply fs_ok_le; [|exact Hfs]. lia. }
  destruct (Z.eqb_spec st 0) as [->|Hst].
  { destruct Hm as [(_ & _ & _ & Hfs)|(_ & _ & ? & _)]; [|lia]. injection E as <- <-. apply (Hbad (a_free p0 h2) (o_k s2)); [done|done|].
    unfold kfree_os, set_heap, set_fs. cbn [o_fs o_k o_sched o_cpu procs process_list current_proc next_pid init_process fs_heap files privs].
    by rewrite S1, S2, S3, S4, S5, S6, S7. }
  destruct Hm as [(_ & _ & ? & _)|(Hp & Hpn & Hst0 & Hst2 & Hsn & Hsp & Hfs & Hfs0)]; [lia|].
  destruct (vmm_create_address_space _) as [[root kk]|]; [|done].
  destruct (Z.eqb_spec root 0) as [->|Hroot].
  { injection E as <- <-. apply (Hbad (a_free p0 (a_free st h2)) kk); [done|done|].
    unfold kfree_os, set_heap, set_fs, set_k. cbn [o_fs o_k o_sched o_cpu procs process_list current_proc next_pid init_process fs_heap files privs].
    by rewrite S1, S2, S3, S4, S5, S6, S7. }
  set (s3 := set_k kk (set_heap h2 s2)) in E.
  assert (o_fs s3 = Fstore h2 (files (o_fs s)) (privs (o_fs s))) as S1' by (unfold s3, set_k, set_heap, set_fs; cbn [o_fs]; by rewrite S1).
  destruct (open_stdio_ok terminal _ (refs s) k s3 ltac:(rewrite S1'; exact Hfs)) as (fds & fs' & Ow' & Eo & Hlen & Hfs' & HO).
  rewrite Eo in E. injection E as <- <-. exists Ow'.
  change (current_proc (set_fs fs' s3)) with (current_proc s2). rewrite S6.
  set (r := Process _ _ _ _ _ _ _ _ _ _ _ _ _ _ _ _ _ _ _ _ _ _).
  destruct (oi_room _ _ _ _ _ HI) as (R1 & R2 & _).
  apply (link_new_inv R Ow Ow' l (5 + k) k p0 (current_proc s) r s (set_fs fs' s3)); try done.
  - destruct Hcur as [?|?]; [by left|]. destruct (ti_current _ _ (oi_table _ _ _ _ _ HI)); [by left|by right].
  - change (next_pid s2 = next_pid s + 1). rewrite S7. apply u64_small. lia.
  - cbn [r kernel_stack_top]. rewrite u64_small by (unfold KERNEL_STACK_SIZE in *; lia). lia.
  - intros a o Ho. cbn [r kernel_stack_top]. rewrite u64_small by (unfold KERNEL_STACK_SIZE in *; lia).
    replace (st + KERNEL_STACK_SIZE - KERNEL_STACK_SIZE) with st by lia. by apply two_owners.
  - lia.
Qed.
End Make.

(** ** Fork *)
Section Fork.
Context {H : Type} `{!Allocator H} (trampoline name entry : Z).
Implicit Types s : sys H.
Implicit Types o : os H.

(** What a child has in common with its parent. *)
Definition inherits (p c : process) : Prop :=
  user_rip c = user_rip p ∧ user_rsp c = user_rsp p ∧ user_rflags c = user_rflags p ∧
  fs_base c = fs_base p ∧ gs_base c = gs_base p ∧ brk_start c = brk_start p ∧ brk c = brk p ∧
  fd_table c = fd_table p ∧ p_name c = p_name p.

(** [child] is the new child of the current process. *)
Record forked o o' (child : Z) : Prop := {
  fk_fresh : child ≠ 0 ∧ (child ∉ dom (procs o));
  fk_dom : dom (procs o') = {[child]} ∪ dom (procs o);
  fk_copy : inherits (proc o (current_proc o)) (proc o' child);
  fk_own : pid (proc o' child) = next_pid o ∧ p_state (proc o' child) = PROC_RUNNABLE ∧
    p_parent (proc o' child) = current_proc o ∧ p_children (proc o' child) = 0;
  fk_space : vmm_copy_address_space_cow (pml4_phys (proc o (current_proc o))) (o_k o) = (pml4_phys (proc o' child), o_k o') ∧
    pml4_phys (proc o' child) ≠ 0;
  fk_thread : ∃ tid, created trampoline entry child tid (p_kthread (proc o' child)) (o_sched o') ∧
    p_kthread (proc o' child) ≠ current_kthread (o_sched o);
  fk_others : ∀ x, x ∈ dom (procs o) →
    proc o' x = if decide (x = current_proc o) then set_p_children child (proc o x) else proc o x;
  fk_cpu : current_proc o' = current_proc o ∧ o_cpu o' = o_cpu o ∧ init_process o' = init_process o;
}.

(** The processes are as before, but for links. *)
Definition unchanged o o' : Prop :=
  dom (procs o') = dom (procs o) ∧ (∀ x, x ∈ dom (procs o) → core (proc o' x) = core (proc o x)) ∧
  current_proc o' = current_proc o ∧ o_cpu o' = o_cpu o.

(** The result of a fork from [o]: an error and no change, or a child. *)
Definition fork_result (R : gset Z) (k : nat) o (res : Z) o' : Prop :=
  os_ok R k o' ∧ (res = - ENOMEM ∧ unchanged o o' ∨ res = next_pid o ∧ ∃ child, forked o o' child).

(** From the linked child to its thread. *)
Lemma start_child_ok R Ow l k o o5 s child r :
  let p := current_proc o in
  os_inv R Ow l (3 + k) o5 → added child p (set_p_next (process_list o) r) o o5 → p ∈ dom (procs o) →
  0 < next_pid o < 2 ^ 63 → init_process o ∈ dom (procs o) → init_process o5 = init_process o → o_cpu o5 = o_cpu o →
  inherits (proc o p) r → p_state r = PROC_RUNNABLE →
  vmm_copy_address_space_cow (pml4_phys (proc o p)) (o_k o) = (pml4_phys r, o_k o5) → pml4_phys r ≠ 0 →
  ∃ res o', start_child trampoline name entry (next_pid o) child o5 s = Done (Returns res (set_os o' s)) ∧
    fork_result R k o res o'.
Proof.
  intros p HI Ha Hp Hnp Hi Ei Ecpu Hin Hst Hcow Hroot.
  destruct (kthread_create_inv R Ow l (1 + k) o5 trampoline name entry child HI) as (tid & h & sc & Ow' & l' & E & HI' & Ek & Hres).
  unfold start_child. rewrite E. set (o6 := set_sched sc (set_heap h o5)) in *.
  destruct Ha as [A1 A2 A3 A4 (E1 & E2 & E3 & E4) (L1 & L2 & L3 & L4) (D1 & D2 & D3 & D4) (Hc0 & Hc & _)].
  assert (∀ x, proc o6 x = proc o5 x) as Hpr by done.
  assert (dom (procs o6) = {[child]} ∪ dom (procs o)) as Ed6 by exact A1.
  assert (child ∈ dom (procs o6)) as Hc6 by (rewrite Ed6; set_solver).
  assert (child ≠ current_proc o6 ∧ child ≠ init_process o6) as [Hcc Hci].
  { change (child ≠ current_proc o5 ∧ child ≠ init_process o5). rewrite E2, Ei. split; intros ->; done. }
  destruct Hres as [->|(Htid & t & Hcr & <- & Htl & Htc)].
  - destruct (process_destroy_inv R Ow' l' (1 + k) o6 child HI' Hc6 Hcc Hci) as ((Ow2 & HI2) & Hrm); [by rewrite Hpr, A2|].
    eexists _, _. split; [reflexivity|]. split; [exists Ow2, l'; apply (inv_le _ _ _ (1 + k)); [lia|done]|]. left. split; [done|].
    destruct Hrm as (Ed & Hco & Ec & _ & _ & Eu). split_and!.
    + rewrite Ed, Ed6. apply set_eq. intros x. rewrite elem_of_difference, elem_of_union, elem_of_singleton. naive_solver.
    + intros x Hx. assert (x ≠ child) as Hxc by (intros ->; done). destruct (Hco x Hxc) as [-> _]. rewrite Hpr, A3 by done.
      by destruct (decide (x = p)).
    + rewrite Ec. exact E2.
    + rewrite Eu. exact Ecpu.
  - assert ((tid =? 0) = false) as -> by lia. eexists _, _. split; [reflexivity|].
    change (o_sched o6) with sc. set (t := kthread_get_kthread tid sc) in *.
    split; [exists Ow', l'; apply (inv_le _ _ _ (1 + k)); [lia|]; by apply inv_kthread|]. right.
    split; [apply s64_small; lia|]. exists child.
    assert (proc (pupd child (set_p_kthread t) o6) child = set_p_kthread t (set_p_next (process_list o) r)) as Epc
      by (by rewrite proc_pupd, decide_True, Hpr, A2).
    split; rewrite ?Epc; try done.
    + rewrite dom_pupd by done. exact A1.
    + exists tid. split; [done|]. by rewrite <- E1, <- Ek.
    + intros x Hx. rewrite proc_pupd, decide_False by (intros ->; done). rewrite Hpr. by apply A3.
Qed.

Lemma inv_alive R Ow l k o :
  os_inv R Ow l k o → current_proc o ≠ 0 →
  current_proc o ∈ dom (procs o) ∧ init_process o ∈ dom (procs o) ∧ 1 < next_pid o.
Proof.
  intros HI Hc. pose proof (oi_table _ _ _ _ _ HI) as HT. destruct (ti_current _ _ HT) as [|Hp]; [done|].
  destruct (ti_init _ _ HT) as [(E & _)|(? & _ & ?)]; [by rewrite E, dom_empty_L in Hp|done].
Qed.

(** The state with the child linked, from the two blocks and the copied
    address space. *)
Lemma fork_linked R Ow l k o c st h2 kk root :
  let p := current_proc o in
  let o1 := Os (Fstore h2 (files (o_fs o)) (privs (o_fs o))) kk (o_sched o) (o_cpu o) (procs o) (process_list o)
              (current_proc o) (u64 (next_pid o + 1)) (init_process o) in
  let o2 := set_fs (ref_fds (fd_table (proc o p)) (o_fs o1)) o1 in
  let r := child_block (next_pid o) root (u64 (st + KERNEL_STACK_SIZE)) p (proc o p) in
  let o5 := process_add c (pupd p (set_p_children c) (set_procs (<[c := r]> (procs o2)) o2)) in
  os_inv R Ow l (5 + k) o → p ≠ 0 → p_state (proc o p) ≠ PROC_ZOMBIE →
  0 < c → Ow !! c = None → 0 < st → st + KERNEL_STACK_SIZE < 2 ^ 64 → Ow !! st = None → st ≠ c →
  fs_ok (<[st := OStack c]> (<[c := OProc]> Ow)) (refs o) (3 + k) (o_fs o1) →
  os_inv R (<[st := OStack c]> (<[c := OProc]> Ow)) l (3 + k) o5 ∧ added c p (set_p_next (process_list o) r) o o5.
Proof.
  intros p o1 o2 r o5 HI Hp0 Hz Hc Hcn Hst0 Hst2 Hsn Hsp Hfs. destruct (inv_alive _ _ _ _ _ HI Hp0) as (Hp & _ & Hnp). fold p in Hp.
  destruct (oi_room _ _ _ _ _ HI) as (_ & Hnp2 & _). pose proof (oi_table _ _ _ _ _ HI) as HT.
  assert (u64 (st + KERNEL_STACK_SIZE) = st + KERNEL_STACK_SIZE) as Est by (apply u64_small; unfold KERNEL_STACK_SIZE in *; lia).
  apply (link_child_inv R Ow _ l (5 + k) (3 + k) c p r o o2); try done.
  - apply u64_small. lia.
  - apply (bk_fds _ _ _ (ti_block _ _ HT p Hp)).
  - cbn [r child_block kernel_stack_top]. lia.
  - intros a ob Hob. cbn [r child_block kernel_stack_top]. rewrite Est.
    replace (st + KERNEL_STACK_SIZE - KERNEL_STACK_SIZE) with st by lia. by apply (two_owners Ow).
  - apply ref_fds_ok; [exact Hfs| |].
    + intros f _. pose proof (refs_limit l (5 + k) o f HT (oi_room _ _ _ _ _ HI)).
      pose proof (refs_bound f (fd_table (proc o p))) as Hb. rewrite (bk_fds _ _ _ (ti_block _ _ HT p Hp)) in Hb.
      unfold PROC_MAX_FDS in Hb. lia.
    + intros e He _. pose proof (refs_ge o p (fd_file e) Hp). pose proof (refs_elem (fd_file e) _ e He eq_refl). lia.
  - lia.
Qed.

Lemma sys_fork_ok R Ow l k s :
  os_inv R Ow l (5 + k) (s_os s) → cur s ≠ 0 → p_state (cur_proc s) ≠ PROC_ZOMBIE →
  ∃ res o', sys_fork trampoline name entry s = Done (Returns res (set_os o' s)) ∧ fork_result R k (s_os s) res o'.
Proof.
  intros HI Hcur Hz. unfold cur, cur_proc in *. set (o := s_os s) in *. set (p := current_proc o) in *.
  destruct (inv_alive _ _ _ _ _ HI Hcur) as (Hp & Hi & Hnp). fold p in Hp.
  destruct (oi_room _ _ _ _ _ HI) as (_ & Hnp2 & _).
  pose proof (two_blocks Ow (refs o) (3 + k) (o_fs o) (oi_fs _ _ _ _ _ HI)) as Hm.
  assert (∀ hp kk, fs_ok Ow (refs o) (3 + k) (Fstore hp (files (o_fs o)) (privs (o_fs o))) →
    fork_result R k o (- ENOMEM) (Os (Fstore hp (files (o_fs o)) (privs (o_fs o))) kk (o_sched o) (o_cpu o) (procs o) (process_list o)
      (current_proc o) (next_pid o) (init_process o))) as Hbad.
  { intros hp kk Hfs. split; [|by left]. exists Ow, l. apply (failed_inv R Ow l (5 + k) k o hp kk false HI); [|lia|by left].
    eapply fs_ok_le; [|exact Hfs]. lia. }
  unfold sys_fork, kmalloc_os. unfold cur. fold o p. assert ((p =? 0) = false) as -> by lia.
  destruct (a_malloc sizeof_process (fs_heap (o_fs o))) as [c h1].
  change (fs_heap (o_fs (set_heap h1 o))) with h1. destruct (a_malloc KERNEL_STACK_SIZE h1) as [st h2].
  destruct Hm as [[-> Hfs]|Hm]; [by eexists _, _; split; [reflexivity|exact (Hbad h1 (o_k o) Hfs)]|].
  destruct (Z.eqb_spec c 0) as [->|Hc0]; [destruct Hm as [[? _]|[? _]]; lia|].
  destruct Hm as [(_ & _ & -> & Hfs)|(Hc & Hcn & Hst0 & Hst2 & Hsn & Hsp & Hfs & Hfs0)];
    [by eexists _, _; split; [reflexivity|exact (Hbad (a_free c h2) (o_k o) Hfs)]|].
  assert ((st =? 0) = false) as -> by lia.
  change (proc (set_heap h2 (set_heap h1 o)) p) with (proc o p). change (o_k (set_heap h2 (set_heap h1 o))) with (o_k o).
  destruct (vmm_copy_address_space_cow (pml4_phys (proc o p)) (o_k o)) as [root kk] eqn:Ecow.
  destruct (Z.eqb_spec root 0) as [->|Hroot]; [by eexists _, _; split; [reflexivity|exact (Hbad (a_free c (a_free st h2)) kk Hfs0)]|].
  destruct (fork_linked R Ow l k o c st h2 kk root HI) as [HI5 Ha]; try done. fold p in Ha.
  destruct (start_child_ok R _ l k o _ s c _ HI5 Ha) as (res & o' & E & Hres); try done.
  - lia.
  - etransitivity; [apply process_add_rest|reflexivity].
  - etransitivity; [apply process_add_rest|reflexivity].
  - fold p. rewrite Ecow. f_equal. symmetry. etransitivity; [apply process_add_rest|reflexivity].
  - exists res, o'. split; [exact E|exact Hres].
Qed.
End Fork.
