(* ===== verification/Syscall.v ===== *)
(** * System call entry ([arch/x86/kernel/syscall.c])

    The set-up of the syscall instruction, the table of handlers, the
    dispatcher that the entry stub calls, and the first return of a forked
    child to user mode. *)
From S2P Require Import Prelude Pmm Page Vmm Heap HeapInv HeapProps HeapSpec Alloc Kthread.
From S2P Require Import Console Keyboard Serial Terminal Ext2 Vfs Process UserMem MemSys Gdt Fault ProcSys.
Local Open Scope Z_scope.

(** ** Model-specific registers *)

Definition MSR_EFER : Z := 0xC0000080.
Definition MSR_STAR : Z := 0xC0000081.
Definition MSR_LSTAR : Z := 0xC0000082.
Definition MSR_SFMASK : Z := 0xC0000084.
Definition EFER_SCE : Z := 1.
Definition RFLAGS_TF : Z := 0x100.
Definition RFLAGS_IF : Z := 0x200.
Definition RFLAGS_DF : Z := 0x400.
Definition RFLAGS_AC : Z := 0x40000.

Definition USER_RFLAGS_ALLOWED : Z := 0xED5.
Definition USER_RFLAGS_REQUIRED : Z := 0x202.

Definition sanitize_user_rflags (rf : Z) : Z := Z.lor (Z.land rf USER_RFLAGS_ALLOWED) USER_RFLAGS_REQUIRED.

(** ** The table *)

Definition NR_SYSCALLS : Z := 512.

(** The handlers that the table points to. *)
Inductive syscall_fn :=
  | SysNi | SysRead | SysWrite | SysOpen | SysClose | SysMmap | SysMunmap | SysBrk | SysGetpid | SysFork | SysExit
  | SysWait4 | SysUname | SysGetppid | SysArchPrctl.

Definition SYS_read : Z := 0.
Definition SYS_write : Z := 1.
Definition SYS_open : Z := 2.
Definition SYS_close : Z := 3.
Definition SYS_mmap : Z := 9.
Definition SYS_munmap : Z := 11.
Definition SYS_brk : Z := 12.
Definition SYS_getpid : Z := 39.
Definition SYS_fork : Z := 57.
Definition SYS_exit : Z := 60.
Definition SYS_wait4 : Z := 61.
Definition SYS_uname : Z := 63.
Definition SYS_getppid : Z := 110.
Definition SYS_arch_prctl : Z := 158.

Definition syscall_table_init (t : gmap Z syscall_fn) : gmap Z syscall_fn :=
  let t := for_loop (Z.to_nat NR_SYSCALLS) 0 (λ i, <[i := SysNi]>) t in
  let t := <[SYS_read := SysRead]> t in
  let t := <[SYS_write := SysWrite]> t in
  let t := <[SYS_exit := SysExit]> t in
  let t := <[SYS_getpid := SysGetpid]> t in
  let t := <[SYS_brk := SysBrk]> t in
  let t := <[SYS_mmap := SysMmap]> t in
  let t := <[SYS_munmap := SysMunmap]> t in
  let t := <[SYS_arch_prctl := SysArchPrctl]> t in
  let t := <[SYS_getppid := SysGetppid]> t in
  let t := <[SYS_uname := SysUname]> t in
  let t := <[SYS_wait4 := SysWait4]> t in
  let t := <[SYS_fork := SysFork]> t in
  let t := <[SYS_open := SysOpen]> t in
  <[SYS_close := SysClose]> t.

(** The registers and the table after set-up; [syscall_entry] is the address
    of the stub. *)
Definition syscall_init (syscall_entry : Z) (msr : gmap Z Z) (t : gmap Z syscall_fn)
    : gmap Z Z * gmap Z syscall_fn :=
  let msr := <[MSR_EFER := Z.lor (rd msr MSR_EFER) EFER_SCE]> msr in
  let msr := <[MSR_STAR := Z.lor (Z.shiftl GDT_KERNEL_DATA 48) (Z.shiftl GDT_KERNEL_CODE 32)]> msr in
  let msr := <[MSR_LSTAR := syscall_entry]> msr in
  let msr := <[MSR_SFMASK := Z.lor (Z.lor (Z.lor RFLAGS_IF RFLAGS_DF) RFLAGS_TF) RFLAGS_AC]> msr in
  (msr, syscall_table_init t).

(** ** Dispatch *)

(** The frame that the entry stub pushes, the two words above it, and the
    user stack pointer in the per-CPU slot. *)
Record syscall_frame := SyscallFrame {
  f_nr : Z; f_arg1 : Z; f_arg2 : Z; f_arg3 : Z; f_arg4 : Z; f_arg5 : Z; f_arg6 : Z;
  f_rflags : Z;
  f_rip : Z;
  f_rsp : Z;
}.

Definition set_user_regs (rip rsp rflags : Z) (p : process) : process :=
  Process (pid p) (p_name p) (p_state p) (pml4_phys p) (brk_start p) (brk p) (p_kthread p)
    (kernel_stack_top p) rip rsp rflags (fs_base p) (gs_base p) (fd_table p)
    (p_parent p) (p_children p) (p_sibling p) (exit_code p) (wait_pid p) (pending_signals p)
    (blocked_signals p) (p_next p).

(** What runs while a handler waits, the bound of directory searches, and the
    addresses that [fork] passes to [kthread_create]. *)
Record env (H : Type) := Env {
  e_wakeups : list (keyboard → keyboard);
  e_wakes : list (sys H → sys H);
  e_lookup : nat;
  e_trampoline : Z;
  e_name : Z;
  e_entry : Z;
}.
Arguments e_wakeups {H} _.
Arguments e_wakes {H} _.
Arguments e_lookup {H} _.
Arguments e_trampoline {H} _.
Arguments e_name {H} _.
Arguments e_entry {H} _.

Section Dispatch.
Context {H : Type} `{!Allocator H} (font_data : Z → Z).

Definition cur_root (s : sys H) : option Z := if cur s =? 0 then None else Some (pml4_phys (cur_proc s)).

Definition do_mmap (f : syscall_frame) (s : sys H) : sysres (sys H) :=
  let '(r, next, k) := sys_mmap (cur_root s) (f_arg1 f) (f_arg2 f) (f_arg3 f) (f_arg4 f) (f_arg5 f)
                         (s_mmap_next s) (o_k (s_os s)) in
  Returns r (Sys (set_k k (s_os s)) (s_dev s) next).

Definition do_munmap (f : syscall_frame) (s : sys H) : sysres (sys H) :=
  let '(r, k) := sys_munmap (cur_root s) (f_arg1 f) (f_arg2 f) (o_k (s_os s)) in
  Returns r (on_os (set_k k) s).

Definition do_brk (f : syscall_frame) (s : sys H) : sysres (sys H) :=
  let p := if cur s =? 0 then None else Some (cur_proc s) in
  let '(r, p, k) := sys_brk (f_arg1 f) p (o_k (s_os s)) in
  let s := on_os (set_k k) s in
  Returns r (match p with Some p => on_os (pupd (cur s) (λ _, p)) s | None => s end).

(** The handler's call; halts where [fork] does. *)
Definition run_handler (e : env H) (h : syscall_fn) (f : syscall_frame) (s : sys H) : outcome (sysres (sys H)) :=
  match h with
  | SysNi => Done (Returns (- ENOSYS) s)
  | SysRead => Done (sys_read (f_arg1 f) (f_arg2 f) (f_arg3 f) (e_wakeups e) s)
  | SysWrite => Done (sys_write font_data (f_arg1 f) (f_arg2 f) (f_arg3 f) s)
  | SysOpen => Done (sys_open (e_lookup e) (f_arg1 f) (f_arg2 f) s)
  | SysClose => Done (sys_close (f_arg1 f) s)
  | SysMmap => Done (do_mmap f s)
  | SysMunmap => Done (do_munmap f s)
  | SysBrk => Done (do_brk f s)
  | SysGetpid => Done (Returns (sys_getpid s) s)
  | SysFork => sys_fork (e_trampoline e) (e_name e) (e_entry e) s
  | SysExit => Done (sys_exit (f_arg1 f) s)
  | SysWait4 => Done (sys_wait4 (f_arg1 f) (f_arg2 f) (f_arg3 f) (e_wakes e) s)
  | SysUname => Done (let '(r, s) := sys_uname (f_arg1 f) s in Returns r s)
  | SysGetppid => Done (Returns (sys_getppid s) s)
  | SysArchPrctl => Done (let '(r, s) := sys_arch_prctl (f_arg1 f) (f_arg2 f) s in Returns r s)
  end.

(** The registers of the caller, saved in its block. *)
Definition snapshot (f : syscall_frame) (s : sys H) : sys H :=
  if negb (cur s =? 0)
  then on_os (pupd (cur s) (set_user_regs (f_rip f) (f_rsp f) (sanitize_user_rflags (f_rflags f)))) s
  else s.

Definition syscall_dispatch (e : env H) (t : gmap Z syscall_fn) (f : syscall_frame) (s : sys H)
    : outcome (sysres (sys H)) :=
  let s := snapshot f s in
  if NR_SYSCALLS <=? f_nr f then Done (Returns (- ENOSYS) s)
  else run_handler e (default SysNi (t !! f_nr f)) f s.

(** ** The first return of a forked child *)

(** User mode with these registers, or the child is gone. *)
Inductive child_return := ToUser (rip rflags rsp : Z) (s : os H) | Aborted (s : os H).

Definition exit_self (s : os H) : os H :=
  let self := kthread_current (o_sched s) in
  if negb (self =? 0) then set_sched (set_state self THREAD_EXITED (o_sched s)) s else s.

Definition fork_child_user_return (child : Z) (s : os H) : child_return :=
  let c := proc s child in
  if negb (canonical_addr (user_rip c)) || negb (canonical_addr (user_rsp c)) then
    Aborted (process_destroy child (pupd child (set_p_kthread 0) (exit_self s)))
  else
    let s := process_set_current child s in
    let p := o_cpu s in
    let s := set_cpu (Cpu (canonical_or_0 (fs_base c)) (canonical_or_0 (gs_base c)) (kernel_stack_top c)
                        (kernel_rsp p) (pml4_phys c)) s in
    let s := pupd child (set_p_kthread 0) (exit_self s) in
    ToUser (user_rip c) (user_rflags c) (user_rsp c) s.
End Dispatch.
