(* ===== verification/ProcCalls.v ===== *)
(** * System calls keep the invariant of processes *)
From S2P Require Import Prelude Pmm Page Vmm Heap HeapInv HeapProps HeapSpec Alloc.
From S2P Require Import Kthread KthreadProps KthreadMem KthreadInv KthreadRun.
From S2P Require Import Console Keyboard Serial Terminal Ext2 Vfs Process UserMem MemSys Fault ProcSys ProcList ProcFiles.
From S2P Require Import ProcInv ProcSteps ProcMake Syscall.
Local Open Scope Z_scope.

Section Calls.
Context {H : Type} `{!Allocator H}.
Implicit Types s : sys H.
Implicit Types o : os H.

(** The state that a handler leaves. *)
Definition after {S} (r : sysres S) : S := match r with Returns _ s => s | Stays s => s end.

Definition keeps (R : gset Z) (k : nat) (r : sysres (sys H)) : Prop := os_ok R k (s_os (after r)).

Lemma keeps_inv R Ow l k k' r : os_inv R Ow l k (s_os (after r)) → (k' ≤ k)%nat → keeps R k' r.
Proof. intros HI Hk. exists Ow, l. by eapply inv_le. Qed.

Lemma inv_current R Ow l k o : os_inv R Ow l k o → current_proc o ≠ 0 → current_proc o ∈ dom (procs o).
Proof. intros HI Hc. by apply (inv_alive R Ow l k o). Qed.

(** ** Descriptors *)

Lemma nth_elem {A} (d : A) l i : (i < length l)%nat → nth i l d ∈ l.
Proof. intros Hi. apply list_elem_of_In, nth_In, Hi. Qed.

(** An open descriptor refers to a file, and few do. *)
Lemma fd_open R Ow l k o p fd :
  os_inv R Ow l k o → p ∈ dom (procs o) → 0 ≤ fd < Z.of_nat PROC_MAX_FDS →
  let f := fd_file (nth (Z.to_nat fd) (fd_table (proc o p)) no_fd) in
  f ≠ 0 → is_Some (files (o_fs o) !! f) ∧ refs o f < 2 ^ 31.
Proof.
  intros HI Hp Hfd f Hf. pose proof (oi_table _ _ _ _ _ HI) as HT.
  pose proof (refs_limit l k o f HT (oi_room _ _ _ _ _ HI)). split; [|lia].
  destruct (files (o_fs o) !! f) eqn:E; [done|]. pose proof (fo_none _ _ _ _ (oi_fs _ _ _ _ _ HI) f Hf E) as Hn.
  pose proof (refs_ge o p f Hp). pose proof (bk_fds _ _ _ (ti_block _ _ HT p Hp)) as Hl.
  assert (0 < refs_in f (fd_table (proc o p))); [|lia].
  eapply refs_elem; [|reflexivity]. apply nth_elem. rewrite Hl. lia.
Qed.

Lemma first_free_spec fds i :
  0 ≤ i → first_free i fds = -1 ∨
  (i ≤ first_free i fds < i + Z.of_nat (length fds) ∧ fd_file (nth (Z.to_nat (first_free i fds - i)) fds no_fd) = 0).
Proof.
  revert i. induction fds as [|e fds IH]; intros i Hi; cbn [first_free length]; [by left|].
  destruct (Z.eqb_spec (fd_file e) 0) as [He|He].
  - right. split; [lia|]. by rewrite Z.sub_diag.
  - destruct (IH (i + 1)) as [->|[Hb Hf]]; [lia|by left|]. right. split; [lia|].
    set (j := first_free (i + 1) fds) in *. replace (Z.to_nat (j - i)) with (S (Z.to_nat (j - (i + 1)))) by lia. done.
Qed.

Lemma fd_alloc_spec R Ow l k o p :
  os_inv R Ow l k o → p ∈ dom (procs o) →
  let fd := process_fd_alloc p o in
  fd < 0 ∨ 0 ≤ fd < Z.of_nat PROC_MAX_FDS ∧ fd_file (nth (Z.to_nat fd) (fd_table (proc o p)) no_fd) = 0.
Proof.
  intros HI Hp fd. pose proof (bk_fds _ _ _ (ti_block _ _ (oi_table _ _ _ _ _ HI) p Hp)) as Hl.
  destruct (first_free_spec (fd_table (proc o p)) 0) as [E|[Hb Hf]]; [done|left; unfold fd, process_fd_alloc; lia|].
  right. rewrite Z.sub_0_r in Hf. rewrite Hl in Hb. split; [exact Hb|exact Hf].
Qed.

(** A free descriptor is set, or stays free. *)
Lemma set_free_fd R Ow Ow' l k k' o p fd f fl fs' :
  os_inv R Ow l k o → p ∈ dom (procs o) → 0 ≤ fd < Z.of_nat PROC_MAX_FDS →
  fd_file (nth (Z.to_nat fd) (fd_table (proc o p)) no_fd) = 0 →
  fs_ok Ow' (bump f 1 (refs o)) k' fs' → rest_same Ow Ow' → (k' ≤ k)%nat →
  os_inv R Ow' l k' (set_fd p fd (FdEntry f fl) (set_fs fs' o)).
Proof.
  intros HI Hp Hfd H0 Hfs Hr Hk. apply (set_fd_inv R Ow Ow' l k); try done. rewrite H0. cbn [fd_file].
  eapply fs_ok_ext; [|exact Hfs]. intros g Hg. unfold bump. cbn. repeat case_decide; try lia; congruence.
Qed.

Lemma unset_free_fd R Ow Ow' l k k' o p fd fs' :
  os_inv R Ow l k o → p ∈ dom (procs o) → 0 ≤ fd < Z.of_nat PROC_MAX_FDS →
  fd_file (nth (Z.to_nat fd) (fd_table (proc o p)) no_fd) = 0 →
  fs_ok Ow' (refs o) k' fs' → rest_same Ow Ow' → (k' ≤ k)%nat →
  os_inv R Ow' l k' (process_fd_free p fd (set_fs fs' o)).
Proof.
  intros HI Hp Hfd H0 Hfs Hr Hk. unfold process_fd_free. assert ((0 <=? fd) && (fd <? Z.of_nat PROC_MAX_FDS) = true) as -> by lia.
  apply (set_free_fd R Ow Ow' l k); try done. eapply fs_ok_ext; [|exact Hfs]. intros g Hg. unfold bump. by case_decide.
Qed.

(** ** Files *)

Lemma sys_read_keeps R k fd buf count w s : os_ok R k (s_os s) → keeps R k (sys_read fd buf count w s).
Proof.
  intros (Ow & l & HI). unfold sys_read. repeat (case_match; [by exists Ow, l|]).
  destruct (vfs_read _ _ _ _ _ _) as [[[r fs] d]|] eqn:E; [|by exists Ow, l].
  eexists Ow, l. apply (set_fs_inv R Ow Ow l k k); [done| |done|done].
  eapply vfs_read_ok; [|exact E]. apply (oi_fs _ _ _ _ _ HI).
Qed.

Lemma sys_write_keeps (font_data : Z → Z) R k fd buf count s : os_ok R k (s_os s) → keeps R k (sys_write font_data fd buf count s).
Proof. intros HI. unfold sys_write. repeat (case_match; [exact HI|]). destruct (vfs_write _ _ _ _ _ _). exact HI. Qed.

Lemma sys_close_keeps R k fd s : os_ok R k (s_os s) → 0 ≤ fd → keeps R k (sys_close fd s).
Proof.
  intros (Ow & l & HI) Hfd. unfold sys_close. destruct (Z.eqb_spec (cur s) 0) as [|Hc]; [by exists Ow, l|].
  destruct (Z.leb_spec (Z.of_nat PROC_MAX_FDS) fd) as [|Hm]; [by exists Ow, l|].
  destruct (Z.eqb_spec (fd_file (fd_at s fd)) 0) as [|Hf]; [by exists Ow, l|].
  pose proof (inv_current _ _ _ _ _ HI Hc) as Hp. destruct (fd_open R Ow l k _ _ fd HI Hp) as [Hs Hb]; [lia|exact Hf|].
  destruct (vfs_close_ok Ow (refs (s_os s)) k (o_fs (s_os s)) (fd_file (fd_at s fd))) as (Ow' & Hfs & Hr);
    [apply (oi_fs _ _ _ _ _ HI)|done|done|].
  exists Ow', l. apply (set_fd_inv R Ow Ow' l k k (s_os s) (cur s) fd no_fd); [done|done|lia| |done|done].
  eapply fs_ok_ext; [|exact Hfs]. intros g Hg. unfold bump. change (nth _ _ _) with (fd_at s fd). cbn [no_fd fd_file].
  repeat case_decide; try lia; congruence.
Qed.

Lemma sys_open_keeps R k fuel path flags s : os_ok R (2 + k) (s_os s) → keeps R k (sys_open fuel path flags s).
Proof.
  intros (Ow & l & HI). assert (os_ok R k (s_os s)) as Hs by (exists Ow, l; eapply inv_le; [|exact HI]; lia).
  unfold sys_open. destruct (Z.eqb_spec (cur s) 0) as [|Hc]; [done|]. pose proof (inv_current _ _ _ _ _ HI Hc) as Hp.
  destruct (copy_string_from_user _ _ _); [|done]. destruct (ext2_lookup _ _ _ _); [|done].
  do 3 (case_match; [done|]). destruct (fd_alloc_spec R Ow l (2 + k) (s_os s) (cur s) HI Hp) as [Hfd|[Hfd Hz]].
  { by rewrite (proj2 (Z.ltb_lt _ _) Hfd). }
  set (fd := process_fd_alloc (cur s) (s_os s)) in *. assert ((fd <? 0) = false) as -> by lia.
  pose proof (vfs_file_alloc_ok Ow (refs (s_os s)) (S k) (o_fs (s_os s)) (oi_fs _ _ _ _ _ HI)) as Ha.
  destruct (vfs_file_alloc (o_fs (s_os s))) as [file fs]. destruct Ha as [[-> Hfs]|(Hf & Hn & Hfs & Hv)].
  { exists Ow, l. apply (unset_free_fd R Ow Ow l (2 + k)); try done; [by apply fs_ok_weaken|lia]. }
  assert ((file =? 0) = false) as -> by lia. unfold kmalloc_os.
  pose proof (heap_malloc_owned sizeof_ext2_private (fs_heap fs) _ k (fo_heap _ _ _ _ Hfs)) as Hm.
  cbn [s_os on_os set_os set_fs o_fs].
  destruct (a_malloc sizeof_ext2_private (fs_heap fs)) as [priv hp].
  destruct Hm as [[-> Hh]|(Hp0 & _ & _ & Hpn & Hh)]; [done| |].
  - assert (fs_ok (<[file := OFile]> Ow) (bump file 1 (refs (s_os s))) k (Fstore hp (files fs) (privs fs))) as Hfs1
      by (by apply (fs_ok_owners (<[file := OFile]> Ow) _ _ (S k))).
    destruct (vfs_close_ok _ _ k _ file Hfs1) as (Ow' & Hfs2 & Hr); [by eexists| |].
    { unfold bump. rewrite decide_True by done. pose proof (refs_limit l (2 + k) (s_os s) file (oi_table _ _ _ _ _ HI) (oi_room _ _ _ _ _ HI)). lia. }
    exists Ow', l. apply (unset_free_fd R Ow Ow' l (2 + k) k (s_os s) (cur s)); try done; [| |lia].
    + eapply fs_ok_ext; [|exact Hfs2]. intros g Hg. unfold bump. repeat case_decide; try lia; congruence.
    + etransitivity; [|exact Hr]. by apply rest_insert.
  - assert ((priv =? 0) = false) as -> by lia.
    exists (<[priv := OPriv file]> (<[file := OFile]> Ow)), l.
    apply (set_free_fd R Ow _ l (2 + k) k (s_os s) (cur s)); try done; [| |lia].
    + apply (make_ext2_ok _ _ (S k) k fs hp file _ _ priv _ Hfs Hv); try done.
      transitivity (f_refcount (file_at fs file)); [reflexivity|by rewrite (file_at_some _ _ _ Hv)].
    + etransitivity; by apply rest_insert.
Qed.

(** ** Memory and registers *)

(** Memory, registers and the choice of the running process. *)
Lemma switch_inv R Ow l k o o' :
  os_inv R Ow l k o → procs o' = procs o → o_fs o' = o_fs o → o_sched o' = o_sched o → next_pid o' = next_pid o →
  init_process o' = init_process o → process_list o' = process_list o →
  (current_proc o' = 0 ∨ current_proc o' ∈ dom (procs o)) → os_inv R Ow l k o'.
Proof.
  intros HI E ? ? ? ? ? Hc. apply (inv_plain R Ow l k o); try done; [by rewrite E| |]; unfold proc; rewrite E; [done|naive_solver].
Qed.

Lemma memory_inv R Ow l k o kk : os_inv R Ow l k o → os_inv R Ow l k (set_k kk o).
Proof. intros HI. apply (switch_inv R Ow l k o); try done. apply (ti_current _ _ (oi_table _ _ _ _ _ HI)). Qed.

Lemma cpu_inv R Ow l k o c : os_inv R Ow l k o → os_inv R Ow l k (set_cpu c o).
Proof. intros HI. apply (switch_inv R Ow l k o); try done. apply (ti_current _ _ (oi_table _ _ _ _ _ HI)). Qed.

Lemma do_mmap_keeps R k f s : os_ok R k (s_os s) → keeps R k (do_mmap f s).
Proof.
  intros (Ow & l & HI). unfold do_mmap. destruct (sys_mmap _ _ _ _ _ _ _ _) as [[r next] kk]. exists Ow, l. by apply memory_inv.
Qed.

Lemma do_munmap_keeps R k f s : os_ok R k (s_os s) → keeps R k (do_munmap f s).
Proof.
  intros (Ow & l & HI). unfold do_munmap. destruct (sys_munmap _ _ _ _) as [r kk]. exists Ow, l. by apply memory_inv.
Qed.

Lemma sys_brk_block arg p kk r q kk' :
  sys_brk arg p kk = (r, q, kk') → q = p ∨ ∃ b, q = set_brk b <$> p.
Proof.
  unfold sys_brk. destruct p as [p|]; [|intros [= _ <- _]; by left].
  repeat case_match; intros [= _ <- _]; try (by left); right; by eexists.
Qed.

Lemma do_brk_keeps R k f s : os_ok R k (s_os s) → keeps R k (do_brk f s).
Proof.
  intros (Ow & l & HI). unfold do_brk. destruct (sys_brk _ _ _) as [[r q] kk] eqn:E. apply sys_brk_block in E.
  pose proof (memory_inv R Ow l k _ kk HI) as HI'. exists Ow, l. destruct (Z.eqb_spec (cur s) 0) as [Hc|Hc].
  { destruct E as [->|[b ->]]; exact HI'. }
  pose proof (inv_current _ _ _ _ _ HI' Hc) as Hp.
  destruct E as [->|[b ->]]; cbn [fmap option_fmap option_map].
  - apply (inv_pupd R Ow l k (set_k kk (s_os s)) (cur s) (λ r, r)); try done. intros ?. right. by left.
  - apply (inv_pupd R Ow l k (set_k kk (s_os s)) (cur s) (set_brk b)); try done. intros ?. right. by left.
Qed.

Lemma snapshot_keeps R Ow l k f s : os_inv R Ow l k (s_os s) → os_inv R Ow l k (s_os (snapshot f s)).
Proof.
  intros HI. unfold snapshot. destruct (Z.eqb_spec (cur s) 0) as [Hc|Hc]; cbn [negb]; [done|].
  apply inv_pupd; [done|by eapply inv_current|done|]. intros ?. right. by left.
Qed.

Lemma sys_uname_keeps R k buf s : os_ok R k (s_os s) → os_ok R k (s_os (sys_uname buf s).2).
Proof. intros HI. unfold sys_uname. by repeat case_match. Qed.

Lemma sys_arch_prctl_keeps R k code addr s : os_ok R k (s_os s) → os_ok R k (s_os (sys_arch_prctl code addr s).2).
Proof.
  intros HI. assert (∀ v, os_ok R k (s_os (get_base addr v s).2)) as Hg by (intros v; unfold get_base; by repeat case_match).
  unfold sys_arch_prctl. destruct (Z.eqb_spec (cur s) 0) as [Hc|Hc]; [done|].
  assert (∀ c g, (∀ r, plain r (g r)) → (∀ r, p_state (g r) = p_state r) → os_ok R k (set_cpu c (pupd (cur s) g (s_os s)))) as Hs.
  { intros c g Hpl Hst. destruct HI as (Ow & l & HI). exists Ow, l. apply cpu_inv, inv_pupd; [done|by eapply inv_current|done|].
    rewrite Hst. intros ?. right. by left. }
  repeat case_match; try done; by apply Hs.
Qed.
End Calls.
