(* ===== verification/ProcWait.v ===== *)
(** * Waiting for children

    What [wait4] finds, and that the exit of a child ends the wait of its
    parent. *)
From S2P Require Import Prelude Pmm Page Vmm Heap HeapInv HeapProps HeapSpec Alloc.
From S2P Require Import Kthread KthreadProps KthreadMem KthreadInv KthreadRun.
From S2P Require Import Console Keyboard Serial Terminal Ext2 Vfs Process UserMem MemSys Fault ProcSys ProcList ProcFiles.
From S2P Require Import ProcInv ProcSteps ProcMake Syscall ProcCalls.
Local Open Scope Z_scope.

Section Wait.
Context {H : Type} `{!Allocator H}.
Implicit Types s : sys H.
Implicit Types o : os H.

(** ** Searching the children *)

Lemma children_find_spec fuel ok h o cs :
  linked (λ x, p_sibling (proc o x)) h cs → (length cs < fuel)%nat →
  let c := children_find fuel ok h o in
  (c = 0 ∧ ∀ x, x ∈ cs → ok (proc o x) = false) ∨ (c ∈ cs ∧ c ≠ 0 ∧ ok (proc o c) = true).
Proof.
  revert h cs. induction fuel as [|fuel IH]; intros h cs Hl Hf; [lia|]. cbn [children_find].
  destruct cs as [|x cs]; cbn [linked] in Hl.
  - subst h. left. split; [done|]. intros x Hx. by apply not_elem_of_nil in Hx.
  - destruct Hl as (-> & Hx & Hl). assert ((x =? 0) = false) as -> by lia. destruct (ok (proc o x)) eqn:E.
    + right. split_and!; [by left|done|done].
    + destruct (IH _ cs Hl) as [[-> Hn]|(Hc & Hc0 & Hok)]; [cbn [length] in Hf; lia| |].
      * left. split; [done|]. intros y [->|Hy]%elem_of_cons; auto.
      * right. split_and!; [by right|done|done].
Qed.

Definition child_of o (p c : Z) : Prop := c ∈ dom (procs o) ∧ p_parent (proc o c) = p.

Lemma find_child l o p ok :
  table_inv l o → p ∈ dom (procs o) →
  let c := children_find (chain_fuel o) ok (p_children (proc o p)) o in
  (c = 0 ∧ ∀ x, child_of o p x → ok (proc o x) = false) ∨ (child_of o p c ∧ c ≠ 0 ∧ ok (proc o c) = true).
Proof.
  intros HT Hp. destruct (fa_kids _ _ _ _ _ _ (ti_tree _ _ HT) p Hp) as (cs & Hl & Hnd & Hin).
  assert (length cs ≤ size (procs o))%nat as Hsz by (apply size_linked; [done|]; intros x Hx; by apply Hin).
  destruct (children_find_spec (chain_fuel o) ok _ o cs Hl) as [[-> Hn]|(Hc & Hc0 & Hok)]; [unfold chain_fuel; lia| |].
  - left. split; [done|]. intros x Hx. by apply Hn, Hin.
  - right. split_and!; [by apply Hin|done|done].
Qed.

(** A child that [wait4] with the argument [wpid] asks for. *)
Definition asked o (p wpid c : Z) : Prop := child_of o p c ∧ (wpid = -1 ∨ pid (proc o c) = wpid).

Definition zombie o (c : Z) : Prop := p_state (proc o c) = PROC_ZOMBIE.

Section Find.
Context (R : gset Z) (Ow : gmap Z obj) (l : list Z) (k : nat) (o : os H) (p wpid : Z).
Context (HI : os_inv R Ow l k o) (Hp : p ∈ dom (procs o)) (Hw : wpid = -1 ∨ 0 < wpid).

Lemma pid_s64 c : c ∈ dom (procs o) → 0 < pid (proc o c) ∧ s64 (pid (proc o c)) = pid (proc o c).
Proof.
  intros Hc. pose proof (bk_pid _ _ _ (ti_block _ _ (oi_table _ _ _ _ _ HI) c Hc)) as Hb.
  destruct (oi_room _ _ _ _ _ HI) as (_ & Hn & _). split; [lia|]. apply s64_small. lia.
Qed.

Lemma find_zombie_child_spec :
  let c := find_zombie_child p wpid o in
  (c = 0 ∧ ∀ x, asked o p wpid x → ¬ zombie o x) ∨ (c ≠ 0 ∧ asked o p wpid c ∧ zombie o c).
Proof.
  unfold find_zombie_child.
  destruct (find_child l o p (λ c, negb ((0 <? wpid) && negb (s64 (pid c) =? wpid)) && bool_decide (p_state c = PROC_ZOMBIE))
    (oi_table _ _ _ _ _ HI) Hp) as [[-> Hn]|(Hc & Hc0 & Hok)].
  - left. split; [done|]. intros x [Hx Hm] Hz. specialize (Hn x Hx). cbn in Hn. rewrite bool_decide_true in Hn by done.
    destruct (pid_s64 x (proj1 Hx)) as [? Es]. rewrite Es in Hn. destruct Hm; lia.
  - right. apply andb_true_iff in Hok as [Hm Hz]. apply bool_decide_eq_true in Hz. split_and!; [done|split; [done|]|done].
    destruct (pid_s64 _ (proj1 Hc)) as [? Es]. rewrite Es in Hm. destruct Hw as [->|Hw']; [by left|right; lia].
Qed.

Lemma has_matching_children_spec : has_matching_children p wpid o = true ↔ ∃ c, asked o p wpid c.
Proof.
  unfold has_matching_children. set (ok := λ c : process, _).
  assert (∀ x, child_of o p x → ok (proc o x) = true ↔ (wpid = -1 ∨ pid (proc o x) = wpid)) as Hok.
  { intros x Hx. unfold ok. destruct (pid_s64 x (proj1 Hx)) as [? ->]. lia. }
  destruct (find_child l o p ok (oi_table _ _ _ _ _ HI) Hp) as [[-> Hn]|(Hc & Hc0 & Ho)].
  - split; [done|]. intros (c & Hc & Hm). apply Hok in Hm; [|done]. by rewrite Hn in Hm.
  - split; [|intros _; lia]. intros _. eexists. split; [done|]. by apply Hok.
Qed.
End Find.

(** ** One round of the loop *)

(** The zombie [c] is gone and its status is in user memory. *)
Definition reaped (R : gset Z) (k : nat) (wstatus c : Z) s s' : Prop :=
  os_ok R k (s_os s') ∧ removed c (s_os s) (s_os s') ∧ s_mmap_next s' = s_mmap_next s ∧
  s_dev s' = if wstatus =? 0 then s_dev s
             else set_d_mem (store 4 (d_mem (s_dev s)) wstatus (W_EXITCODE (exit_code (proc (s_os s) c)))) (s_dev s).

(** The caller sleeps for [wpid]. *)
Definition sleeping (wpid : Z) s : sys H :=
  on_os (pupd (cur s) (λ p, set_p_state PROC_SLEEPING (set_wait_pid (s32 wpid) p))) s.

Lemma sleeping_inv R Ow l k wpid s : os_inv R Ow l k (s_os s) → cur s ≠ 0 → os_inv R Ow l k (s_os (sleeping wpid s)).
Proof. intros HI Hc. apply inv_pupd; [done|by eapply inv_current|done|done]. Qed.

Lemma reap_child_ok R Ow l k wstatus s c :
  os_inv R Ow l k (s_os s) → cur s ≠ 0 → p_state (cur_proc s) ≠ PROC_ZOMBIE →
  child_of (s_os s) (cur s) c → zombie (s_os s) c →
  let s1 := if negb (wstatus =? 0)
            then set_user (store 4 (d_mem (s_dev s)) wstatus (W_EXITCODE (exit_code (proc (s_os s) c)))) s else s in
  reaped R k wstatus c s (on_os (process_destroy c) s1).
Proof.
  intros HI Hcur Hz [Hc Hpa] Hcz s1. pose proof (oi_table _ _ _ _ _ HI) as HT.
  assert (c ≠ cur s) as Hcc by (intros ->; done).
  assert (c ≠ init_process (s_os s)) as Hci.
  { intros E. destruct (ti_init _ _ HT) as [(E0 & _)|(_ & Ep & _)]; [by rewrite E0, dom_empty_L in Hc|]. rewrite <- E, Hpa in Ep. done. }
  destruct (process_destroy_inv R Ow l k (s_os s) c HI Hc Hcc Hci (ti_zombie _ _ HT c Hc Hcz Hci)) as ((Ow' & HI') & Hrm).
  assert (s_os (on_os (process_destroy c) s1) = process_destroy c (s_os s)) as E by (unfold s1; by destruct (wstatus =? 0)).
  unfold reaped. rewrite E. split_and!; [by exists Ow', l|done| |]; unfold s1; by destruct (wstatus =? 0).
Qed.

(** What an awake caller gets. *)
Definition wait_result (R : gset Z) (k : nat) (wpid wstatus options : Z) s (r : sysres (sys H)) : Prop :=
  let o := s_os s in
  match r with
  | Returns v s' =>
      (∃ c, asked o (cur s) wpid c ∧ zombie o c ∧ v = pid (proc o c) ∧ reaped R k wstatus c s s') ∨
      ((∀ c, ¬ asked o (cur s) wpid c) ∧ v = - ECHILD ∧ s' = s) ∨
      ((∃ c, asked o (cur s) wpid c) ∧ (∀ c, asked o (cur s) wpid c → ¬ zombie o c) ∧ tst options WNOHANG = true ∧
       v = 0 ∧ s' = s)
  | Stays s' =>
      (∃ c, asked o (cur s) wpid c) ∧ (∀ c, asked o (cur s) wpid c → ¬ zombie o c) ∧ tst options WNOHANG = false ∧
      s' = sleeping wpid s
  end.

(** An awake caller in the loop: it returns, or sleeps and lets [wakes] run. *)
Lemma wait_awake R Ow l k wpid wstatus options wakes asleep s :
  os_inv R Ow l k (s_os s) → cur s ≠ 0 → p_state (cur_proc s) ≠ PROC_ZOMBIE → wpid = -1 ∨ 0 < wpid →
  asleep = false ∨ p_state (cur_proc s) ≠ PROC_SLEEPING →
  ∃ r, wait_result R k wpid wstatus options s r ∧
    wait_loop wakes asleep wpid wstatus options s =
      match r, wakes with
      | Stays s', w :: wakes => wait_loop wakes true wpid wstatus options (w s')
      | _, _ => r
      end.
Proof.
  intros HI Hc Hz Hw Ha. pose proof (inv_current _ _ _ _ _ HI Hc) as Hp.
  assert (asleep && bool_decide (p_state (cur_proc s) = PROC_SLEEPING) = false) as Hcond.
  { destruct Ha as [->|Ha]; [done|]. by rewrite bool_decide_false, andb_false_r. }
  destruct (find_zombie_child_spec R Ow l k (s_os s) (cur s) wpid HI Hp Hw) as [[E Hn]|(Hc0 & Hm & Hcz)].
  - pose proof (has_matching_children_spec R Ow l k (s_os s) (cur s) wpid HI Hp Hw) as Hh.
    destruct (has_matching_children (cur s) wpid (s_os s)) eqn:Eh.
    + destruct Hh as [Hh _]. specialize (Hh eq_refl). destruct (tst options WNOHANG) eqn:Et.
      * exists (Returns 0 s). split; [by right; right|]. destruct wakes; cbn [wait_loop]; by rewrite Hcond, E, Eh, Et.
      * exists (Stays (sleeping wpid s)). split; [done|]. destruct wakes; cbn [wait_loop]; by rewrite Hcond, E, Eh, Et.
    + exists (Returns (- ECHILD) s). split; [right; left; split; [|done]; intros c Hm; destruct Hh as [_ Hh]; by discriminate Hh; eexists|].
      destruct wakes; cbn [wait_loop]; by rewrite Hcond, E, Eh.
  - set (c := find_zombie_child (cur s) wpid (s_os s)) in *.
    pose proof (reap_child_ok R Ow l k wstatus s c HI Hc Hz (proj1 Hm) Hcz) as Hr. cbv zeta in Hr.
    eexists (Returns _ _). split; [left; exists c; split_and!; [exact Hm|exact Hcz|reflexivity|exact Hr]|].
    assert (negb (c =? 0) = true) as Hb by lia. destruct (pid_s64 R Ow l k (s_os s) HI c) as [_ Es]; [apply Hm|].
    destruct wakes; cbn [wait_loop]; fold c; by rewrite Hcond, Hb, Es.
Qed.

(** Whatever the argument, the caller reaps a zombie of its own or nothing. *)
Lemma wait_loop_keeps R k asleep wpid wstatus options s :
  os_ok R k (s_os s) → cur s ≠ 0 → p_state (cur_proc s) ≠ PROC_ZOMBIE →
  keeps R k (wait_loop [] asleep wpid wstatus options s).
Proof.
  intros (Ow & l & HI) Hc Hz. cbn [wait_loop]. case_match; [by exists Ow, l|].
  unfold find_zombie_child.
  destruct (find_child l (s_os s) (cur s) (λ c, negb ((0 <? wpid) && negb (s64 (pid c) =? wpid)) && bool_decide (p_state c = PROC_ZOMBIE))
    (oi_table _ _ _ _ _ HI) (inv_current _ _ _ _ _ HI Hc)) as [[-> _]|(Hch & Hc0 & Hok)].
  - cbn [negb Z.eqb]. do 2 (case_match; [by exists Ow, l|]). exists Ow, l. by apply sleeping_inv.
  - set (c := children_find _ _ _ _) in *. assert (negb (c =? 0) = true) as -> by lia.
    apply andb_true_iff in Hok as [_ Hcz%bool_decide_eq_true]. by apply (reap_child_ok R Ow l k wstatus s c HI Hc Hz Hch Hcz).
Qed.

(** ** Exit *)

(** A process [c] of [o] has exited with [status] in [o']. *)
Record exited (status c : Z) o o' : Prop := {
  ex_dom : dom (procs o') = dom (procs o);
  ex_rest : current_proc o' = current_proc o ∧ init_process o' = init_process o;
  ex_ids : ∀ x, x ∈ dom (procs o) → pid (proc o' x) = pid (proc o x);
  ex_self : p_state (proc o' c) = PROC_ZOMBIE ∧ exit_code (proc o' c) = status;
  ex_parent : ∀ x, x ∈ dom (procs o) →
    p_parent (proc o' x) = if decide (p_parent (proc o x) = c ∧ c ≠ init_process o) then init_process o else p_parent (proc o x);
  ex_state : ∀ x, x ∈ dom (procs o) → x ≠ c →
    p_state (proc o' x) = p_state (proc o x) ∨ p_state (proc o x) = PROC_SLEEPING ∧ p_state (proc o' x) = PROC_RUNNABLE;
  ex_wake : let p := p_parent (proc o c) in
    p ∈ dom (procs o) → p ≠ c → p_state (proc o p) = PROC_SLEEPING →
    wait_pid (proc o p) = -1 ∨ wait_pid (proc o p) = s32 (pid (proc o c)) → p_state (proc o' p) = PROC_RUNNABLE;
}.

Lemma wake_parent_exited p o :
  p ∈ dom (procs o) → p_state (proc o p) = PROC_ZOMBIE → p_parent (proc o p) = 0 ∨ p_parent (proc o p) ∈ dom (procs o) →
  let o' := wake_parent p o in
  let q := p_parent (proc o p) in
  dom (procs o') = dom (procs o) ∧ current_proc o' = current_proc o ∧ init_process o' = init_process o ∧
  (∀ x, proc o' x = proc o x ∨ p_state (proc o x) = PROC_SLEEPING ∧ proc o' x = set_p_state PROC_RUNNABLE (proc o x)) ∧
  (q ≠ 0 → p_state (proc o q) = PROC_SLEEPING → wait_pid (proc o q) = -1 ∨ wait_pid (proc o q) = s32 (pid (proc o p)) →
   p_state (proc o' q) = PROC_RUNNABLE).
Proof.
  intros Hp Hz Hq. cbv zeta. unfold wake_parent. set (q := p_parent (proc o p)) in *.
  destruct (negb (q =? 0) && bool_decide (p_state (proc o q) = PROC_SLEEPING) && _) eqn:E.
  - apply andb_true_iff in E as [[Hq0 Hs%bool_decide_eq_true]%andb_true_iff _].
    assert (q ∈ dom (procs o)) as Hqd by (destruct Hq; [lia|done]). split_and!; [by apply dom_pupd|done|done| |].
    + intros x. rewrite proc_pupd. destruct (decide (x = q)) as [->|]; [right|left]; done.
    + intros _ _ _. by rewrite proc_pupd, decide_True.
  - split_and!; [done|done|done|by left|]. intros Hq0 Hs Hw. rewrite (bool_decide_true _ Hs) in E. lia.
Qed.

(** Exit up to the point where the process becomes a zombie. *)
Lemma process_exit_family R Ow l k st o :
  let c := current_proc o in
  os_inv R Ow l k o → c ≠ 0 →
  ∃ o2, process_exit st o = wake_parent c (pupd c (set_p_state PROC_ZOMBIE) o2) ∧ os_inv R Ow l k o2 ∧
    dom (procs o2) = dom (procs o) ∧ current_proc o2 = c ∧ init_process o2 = init_process o ∧
    (∀ x, core (proc o2 x) = core (if decide (x = c) then set_exit_code st (proc o c) else proc o x)) ∧
    (∀ x, x ∈ dom (procs o) →
       p_parent (proc o2 x) = if decide (p_parent (proc o x) = c ∧ c ≠ init_process o) then init_process o else p_parent (proc o x)).
Proof.
  intros c HI Hc. pose proof (inv_alive _ _ _ _ _ HI Hc) as (Hcd & Hi & _). fold c in Hcd.
  assert (init_process o ≠ 0) as Hi0.
  { intros E. rewrite E in Hi. by apply (fa_null _ _ _ _ _ _ (ti_tree _ _ (oi_table _ _ _ _ _ HI))). }
  unfold process_exit. fold c. assert ((c =? 0) = false) as -> by lia. set (o1 := pupd c (set_exit_code st) o).
  assert (os_inv R Ow l k o1) as HI1 by (apply inv_pupd; [done|done|done|intros ?; right; by left]).
  assert (dom (procs o1) = dom (procs o)) as Ed1 by (by apply dom_pupd).
  assert (∀ x, proc o1 x = if decide (x = c) then set_exit_code st (proc o c) else proc o x) as E1 by (intros x; apply proc_pupd).
  assert (∀ x, p_parent (proc o1 x) = p_parent (proc o x)) as Ep1 by (intros x; rewrite E1; by destruct (decide (x = c)) as [->|]).
  change (init_process o1) with (init_process o). assert ((init_process o =? 0) = false) as -> by lia. cbn [negb andb].
  destruct (Z.eqb_spec c (init_process o)) as [Eci|Nci]; cbn [negb].
  - exists o1. split_and!; [done|done|done|done|done|by intros x; rewrite E1|]. intros x Hx.
    rewrite Ep1, decide_False; [done|by intros []].
  - destruct (reparent_inv R Ow l k o1 c HI1) as (HI2 & Hrest & Ed & _ & Hco & Hpa); [by rewrite Ed1|done|by rewrite Ed1|].
    exists (reparent (chain_fuel o1) c o1). destruct Hrest as (_ & _ & _ & _ & Ec & _ & Ei).
    split_and!; [done|done|by rewrite Ed|exact Ec|exact Ei|by intros x; rewrite Hco, E1|].
    intros x Hx. rewrite Hpa by (by rewrite Ed1). rewrite Ep1. change (init_process o1) with (init_process o).
    destruct (decide (p_parent (proc o x) = c)) as [E|E]; [by rewrite decide_True|rewrite decide_False; naive_solver].
Qed.

Lemma process_exit_exited R Ow l k st o :
  os_inv R Ow l k o → current_proc o ≠ 0 →
  os_inv R Ow l k (process_exit st o) ∧ exited st (current_proc o) o (process_exit st o).
Proof.
  intros HI Hc. split; [by apply process_exit_inv|]. set (c := current_proc o) in *.
  pose proof (inv_current _ _ _ _ _ HI Hc) as Hcd. fold c in Hcd.
  destruct (process_exit_family R Ow l k st o HI Hc) as (o2 & -> & HI2 & Ed & Ec & Ei & Hco & Hpa). fold c in Ec, Hco, Hpa |- *.
  set (o3 := pupd c (set_p_state PROC_ZOMBIE) o2).
  assert (∀ x, proc o3 x = if decide (x = c) then set_p_state PROC_ZOMBIE (proc o2 c) else proc o2 x) as E3 by (intros x; apply proc_pupd).
  assert (dom (procs o3) = dom (procs o)) as Ed3 by (unfold o3; by rewrite dom_pupd; rewrite Ed).
  assert (∀ x, p_parent (proc o3 x) = p_parent (proc o2 x)) as Ep3 by (intros x; rewrite E3; by destruct (decide (x = c)) as [->|]).
  assert (∀ x, pid (proc o3 x) = pid (proc o x) ∧ wait_pid (proc o3 x) = wait_pid (proc o x) ∧
    (x ≠ c → p_state (proc o3 x) = p_state (proc o x))) as Hf.
  { intros x. rewrite E3. pose proof (Hco x) as E. destruct (decide (x = c)) as [->|];
      (split_and!; [exact (f_equal pid E)|exact (f_equal wait_pid E)|intros ?; try done; exact (f_equal p_state E)]). }
  destruct (wake_parent_exited c o3) as (Ed4 & Ec4 & Ei4 & Hx4 & Hw4); [by rewrite Ed3|by rewrite E3, decide_True| |].
  { rewrite Ed3, Ep3, <- Ed. apply (fa_parent _ _ _ _ _ _ (ti_tree _ _ (oi_table _ _ _ _ _ HI2))). by rewrite Ed. }
  set (o4 := wake_parent c o3) in *. split.
  - by rewrite Ed4.
  - by rewrite Ec4, Ei4.
  - intros x Hx. destruct (Hx4 x) as [->|[_ ->]]; apply Hf.
  - destruct (Hx4 c) as [->|[Es _]]; rewrite E3, decide_True in * by done; [|done]. split; [done|].
    pose proof (f_equal exit_code (Hco c)) as E. rewrite decide_True in E by done. exact E.
  - intros x Hx. rewrite <- Hpa, <- Ep3 by done. by destruct (Hx4 x) as [->|[_ ->]].
  - intros x Hx Hxc. destruct (Hf x) as (_ & _ & Hs). rewrite <- Hs by done. destruct (Hx4 x) as [->|[Es ->]]; [by left|by right].
  - intros p Hp Hpc Hs Hw. destruct (Hf p) as (_ & Ew & Es). destruct (Hf c) as (Epid & _).
    assert (p_parent (proc o3 c) = p) as Eq. { rewrite Ep3, Hpa by done. apply decide_False. by intros []. }
    rewrite Eq, Es, Ew, Epid in Hw4 by done. apply Hw4; [|done|done]. intros E0. rewrite E0 in Hp.
    by apply (fa_null _ _ _ _ _ _ (ti_tree _ _ (oi_table _ _ _ _ _ HI))).
Qed.
End Wait.
