(* ===== verification/ProcSpec.v ===== *)
(** * What processes can rely on

    Runs of system calls, faults and switches keep the invariant of
    [ProcInv]; what [fork] and [wait4] do; and that the exit of a child ends
    its parent's wait. *)
From S2P Require Import Prelude Pmm Page Vmm Heap HeapInv HeapProps HeapSpec Alloc.
From S2P Require Import Kthread KthreadProps KthreadMem KthreadInv KthreadRun.
From S2P Require Import Console Keyboard Serial Terminal Ext2 Vfs Process UserMem MemSys Fault ProcSys ProcList ProcFiles.
From S2P Require Import ProcInv ProcSteps ProcMake Syscall ProcCalls ProcWait.
Local Open Scope Z_scope.

Section Spec.
Context {H : Type} `{!Allocator H} (font_data : Z → Z).
Implicit Types s : sys H.
Implicit Types o : os H.

(** ** Runs *)

(** The registers of a frame are unsigned. *)
Definition frame_ok (f : syscall_frame) : Prop :=
  Forall (λ v, 0 ≤ v < 2 ^ 64) [f_nr f; f_arg1 f; f_arg2 f; f_arg3 f; f_arg4 f; f_arg5 f; f_arg6 f; f_rflags f; f_rip f; f_rsp f].

(** The current process has not exited. *)
Definition running s : Prop := cur s ≠ 0 ∧ p_state (cur_proc s) ≠ PROC_ZOMBIE.

Lemma run_handler_keeps R k e h f s :
  os_ok R (5 + k) (s_os s) → running s → e_wakes e = [] → frame_ok f →
  ∃ r, run_handler font_data e h f s = Done r ∧ keeps R k r.
Proof.
  intros HI [Hc Hz] Hw Hf. assert (0 ≤ f_arg1 f) as Ha by (eapply (proj1 (Forall_forall _ _) Hf); set_solver).
  assert (∀ j, (j ≤ 5 + k)%nat → os_ok R j (s_os s)) as Hle.
  { destruct HI as (Ow & l & HI). intros j Hj. exists Ow, l. by eapply inv_le. }
  assert (os_ok R k (s_os s)) as Hk by (apply Hle; lia).
  destruct h; cbn [run_handler]; rewrite ?Hw;
    try (eexists; split; [reflexivity|];
         first [exact Hk|by apply sys_read_keeps|by apply sys_write_keeps|by apply sys_close_keeps|apply sys_open_keeps, Hle; lia
               |by apply do_mmap_keeps|by apply do_munmap_keeps|by apply do_brk_keeps]).
  - destruct HI as (Ow & l & HI).
    destruct (sys_fork_ok (e_trampoline e) (e_name e) (e_entry e) R Ow l k s HI Hc Hz) as (res & o' & -> & Hr).
    eexists. split; [reflexivity|]. apply Hr.
  - eexists. split; [reflexivity|]. unfold sys_exit. case_match; [|exact Hk]. destruct Hk as (Ow & l & Hk).
    exists Ow, l. by apply process_exit_inv.
  - eexists. split; [reflexivity|]. unfold sys_wait4. do 2 (case_match; [exact Hk|]). by apply wait_loop_keeps.
  - pose proof (sys_uname_keeps R k (f_arg1 f) s Hk) as Hu. destruct (sys_uname (f_arg1 f) s). by eexists.
  - pose proof (sys_arch_prctl_keeps R k (f_arg1 f) (f_arg2 f) s Hk) as Hu. destruct (sys_arch_prctl _ _ s). by eexists.
Qed.

Lemma snapshot_running f s : running s → running (snapshot f s).
Proof.
  intros [Hc Hz]. unfold snapshot. assert (negb (cur s =? 0) = true) as -> by lia. split; [exact Hc|].
  unfold cur_proc. cbn [s_os on_os set_os]. change (cur (on_os _ s)) with (cur s). by rewrite proc_pupd, decide_True.
Qed.

Lemma dispatch_keeps R k e t f s :
  os_ok R (5 + k) (s_os s) → running s → e_wakes e = [] → frame_ok f →
  ∃ r, syscall_dispatch font_data e t f s = Done r ∧ keeps R k r.
Proof.
  intros (Ow & l & HI) Hr Hw Hf. apply (snapshot_keeps _ _ _ _ f) in HI. unfold syscall_dispatch.
  case_match; [|apply run_handler_keeps; [by exists Ow, l|by apply snapshot_running|done|done]].
  eexists. split; [reflexivity|]. exists Ow, l. eapply inv_le; [|exact HI]. lia.
Qed.

(** What the kernel does for the processes: a system call by the current one,
    a round of a waiting parent, creation and destruction by the kernel,
    switches, page faults, and devices at any time. *)
Inductive pstep : sys H → sys H → Prop :=
  | ps_syscall e t f s r : running s → e_wakes e = [] → frame_ok f →
      syscall_dispatch font_data e t f s = Done r → pstep s (after r)
  | ps_wait wpid wstatus options s : running s → pstep s (after (wait_loop [] true wpid wstatus options s))
  | ps_create name terminal s p o : cur s = 0 ∨ running s → process_create name terminal (s_os s) = Done (p, o) →
      (p = 0 → 1 < next_pid (s_os s)) → pstep s (set_os o s)
  | ps_destroy p s : p ∈ dom (procs (s_os s)) → p ≠ cur s → p ≠ init_process (s_os s) →
      p_children (proc (s_os s) p) = 0 → pstep s (on_os (process_destroy p) s)
  | ps_switch p s : p ∈ dom (procs (s_os s)) → pstep s (on_os (process_switch p) s)
  | ps_current p s : p = 0 ∨ p ∈ dom (procs (s_os s)) → pstep s (on_os (process_set_current p) s)
  | ps_fault error addr s kk : handle_page_fault error addr (cur_root s) (o_k (s_os s)) = Done kk → pstep s (on_os (set_k kk) s)
  | ps_device d s : pstep s (set_dev d s).

Lemma process_switch_inv R Ow l k o p : os_inv R Ow l k o → p ∈ dom (procs o) → os_inv R Ow l k (process_switch p o).
Proof. intros HI Hp. unfold process_switch. case_match; [done|]. apply (switch_inv R Ow l k o); try done. by right. Qed.

Lemma process_set_current_inv R Ow l k o p :
  os_inv R Ow l k o → p = 0 ∨ p ∈ dom (procs o) → os_inv R Ow l k (process_set_current p o).
Proof. intros HI Hp. unfold process_set_current. case_match; by apply (switch_inv R Ow l k o). Qed.

Lemma pstep_keeps R k s s' : pstep s s' → os_ok R (5 + k) (s_os s) → os_ok R k (s_os s').
Proof.
  intros Hst (Ow & l & HI). assert (∀ o, os_inv R Ow l (5 + k) o → os_ok R k o) as Hle.
  { intros o Ho. exists Ow, l. eapply inv_le; [|exact Ho]. lia. }
  destruct Hst as [e t f s r Hr Hw Hf E|wpid wstatus options s [Hc Hz]|name terminal s p o Hc E Hp|p s Hp Hc Hi Hch|p s Hp|p s Hp|error addr s kk _|d s].
  - destruct (dispatch_keeps R k e t f s) as (r' & E' & Hk); [by exists Ow, l|done|done|done|]. rewrite E in E'. by simplify_eq.
  - apply wait_loop_keeps; [by apply Hle|done|done].
  - destruct (process_create_inv R Ow l k (s_os s) name terminal p o HI) as (Ow' & HI'); [|done|done|by exists Ow', l].
    destruct Hc as [|[_ ?]]; [by left|by right].
  - destruct (process_destroy_inv R Ow l (5 + k) (s_os s) p HI Hp Hc Hi Hch) as ((Ow' & HI') & _).
    exists Ow', l. eapply inv_le; [|exact HI']. lia.
  - by apply Hle, process_switch_inv.
  - by apply Hle, process_set_current_inv.
  - by apply Hle, memory_inv.
  - by apply Hle.
Qed.

Lemma prun_keeps R n k s s' : nsteps pstep n s s' → os_ok R (5 * n + k) (s_os s) → os_ok R k (s_os s').
Proof.
  revert s. induction n as [|n IH]; intros s Hn HI; inversion Hn as [|? ? y ? Hst Hr]; subst; [done|].
  apply (IH y Hr), (pstep_keeps R (5 * n + k) s y Hst). by replace (5 + (5 * n + k))%nat with (5 * S n + k)%nat by lia.
Qed.

(** ** A child's exit during a wait *)

(** The child [c] runs, exits, and the processor goes back to [p]. *)
Definition child_exits (status c p : Z) s : sys H :=
  on_os (process_switch p) (after (sys_exit status (on_os (process_switch c) s))).

Lemma process_switch_to c o :
  c ≠ 0 → procs (process_switch c o) = procs o ∧ current_proc (process_switch c o) = c ∧
  init_process (process_switch c o) = init_process o.
Proof.
  intros Hc. unfold process_switch. destruct (Z.eqb_spec c 0) as [|_]; [done|].
  by destruct (Z.eqb_spec c (current_proc o)) as [->|].
Qed.

Lemma sleeping_proc wpid s x :
  proc (s_os (sleeping wpid s)) x =
  if decide (x = cur s) then set_p_state PROC_SLEEPING (set_wait_pid (s32 wpid) (proc (s_os s) (cur s))) else proc (s_os s) x.
Proof. exact (proc_pupd (cur s) _ (s_os s) x). Qed.

Lemma child_exits_ok R Ow l k status c wpid s :
  os_inv R Ow l k (s_os s) → running s → asked (s_os s) (cur s) wpid c → c ≠ cur s →
  let o := s_os s in
  let s2 := child_exits status c (cur s) (sleeping wpid s) in
  os_inv R Ow l k (s_os s2) ∧ cur s2 = cur s ∧ p_state (cur_proc s2) = PROC_RUNNABLE ∧
  exit_code (proc (s_os s2) c) = s32 status ∧ zombie (s_os s2) c ∧ dom (procs (s_os s2)) = dom (procs o) ∧
  ∀ x, x ∈ dom (procs o) → pid (proc (s_os s2) x) = pid (proc o x) ∧
    (p_parent (proc (s_os s2) x) = p_parent (proc o x) ∨ p_parent (proc o x) = c ∧ c ≠ init_process o) ∧
    (zombie (s_os s2) x → x = c ∨ zombie o x).
Proof.
  intros HI [Hc0 Hz] [[Hcd Hpa] Hm] Hcp. cbv zeta. set (o := s_os s) in *. set (p := cur s) in *.
  pose proof (inv_current _ _ _ _ _ HI Hc0) as Hpd. change (current_proc o) with p in Hpd.
  assert (c ≠ 0) as Hc by (intros ->; by apply (fa_null _ _ _ _ _ _ (ti_tree _ _ (oi_table _ _ _ _ _ HI)))).
  pose proof (sleeping_inv R Ow l k wpid s HI Hc0) as HI1. set (o1 := s_os (sleeping wpid s)) in *.
  assert (∀ x, proc o1 x = if decide (x = p) then set_p_state PROC_SLEEPING (set_wait_pid (s32 wpid) (proc o p)) else proc o x)
    as E1 by (intros x; apply sleeping_proc).
  assert (dom (procs o1) = dom (procs o)) as Ed1 by exact (dom_pupd p _ o Hpd).
  destruct (process_switch_to c o1 Hc) as (Epa & Eca & Eia). set (oa := process_switch c o1) in *.
  assert (os_inv R Ow l k oa) as HIa by (by apply process_switch_inv; [|rewrite Ed1]).
  assert (∀ x, proc oa x = proc o1 x) as Ea by (intros x; unfold proc; by rewrite Epa).
  destruct (process_exit_exited R Ow l k (s32 status) oa HIa) as [HIb Hex]; [by rewrite Eca|]. rewrite Eca in Hex.
  set (ob := process_exit (s32 status) oa) in *. destruct (process_switch_to p ob Hc0) as (Epc & Ecc & _).
  assert (s_os (child_exits status c p (sleeping wpid s)) = process_switch p ob) as Es2.
  { unfold child_exits, sys_exit. change (cur (on_os (process_switch c) (sleeping wpid s))) with (current_proc oa).
    rewrite Eca. by assert (negb (c =? 0) = true) as -> by lia. }
  unfold cur_proc, cur. fold p. rewrite Es2. set (oc := process_switch p ob) in *.
  assert (∀ x, proc oc x = proc ob x) as Ec by (intros x; unfold proc; by rewrite Epc).
  destruct Hex as [Ed _ Hids [Hcz Hcx] Hpar Hst Hwk]. rewrite Epa, Ed1 in Ed, Hids, Hpar, Hst, Hwk.
  assert (∀ x, pid (proc oa x) = pid (proc o x) ∧ p_parent (proc oa x) = p_parent (proc o x)) as Hf
    by (intros x; rewrite Ea, E1; by destruct (decide (x = p)) as [->|]).
  assert (p_state (proc oa p) = PROC_SLEEPING ∧ wait_pid (proc oa p) = s32 wpid) as [Hps Hpw] by (by rewrite Ea, E1, decide_True).
  assert (p_state (proc ob p) = PROC_RUNNABLE) as Hrun.
  { destruct (Hf c) as [Ec1 Ec2]. rewrite Ec1, Ec2, Hpa in Hwk. apply Hwk; [done|done|done|]. rewrite Hpw.
    destruct Hm as [->| ->]; [by left|by right]. }
  rewrite Ecc. split_and!; [apply process_switch_inv; [done|by rewrite Ed]|done|by rewrite Ec|by rewrite Ec|unfold zombie; by rewrite Ec|by rewrite Epc|].
  intros x Hx. unfold zombie. rewrite Ec, Hids, Hpar by done. destruct (Hf x) as [-> ->]. split; [done|].
  rewrite Eia. change (init_process o1) with (init_process o).
  split; [destruct (decide _) as [Hd|]; [right; exact Hd|by left]|]. intros Hxz. destruct (decide (x = c)) as [|Hxc]; [by left|right].
  destruct (Hst x Hx Hxc) as [E|[_ E]]; [|by rewrite E in Hxz]. rewrite E in Hxz. rewrite Ea, E1 in Hxz.
  by destruct (decide (x = p)).
Qed.

Lemma sys_wait4_loop pid_arg wstatus options wakes s :
  cur s ≠ 0 → wstatus = 0 ∨ vmm_user_range_writable (pml4_phys (cur_proc s)) wstatus 4 (o_k (s_os s)) = true →
  sys_wait4 pid_arg wstatus options wakes s = wait_loop wakes false (s64 pid_arg) wstatus options s.
Proof.
  intros Hc Hst. unfold sys_wait4. assert ((cur s =? 0) = false) as -> by lia.
  destruct Hst as [->| ->]; [done|]. by rewrite andb_false_r.
Qed.

(** With a child to wait for and no zombie the caller sleeps until [w]. *)
Lemma wait_sleeps R Ow l k wpid wstatus options w s c :
  os_inv R Ow l k (s_os s) → running s → wpid = -1 ∨ 0 < wpid → tst options WNOHANG = false →
  asked (s_os s) (cur s) wpid c → (∀ x, asked (s_os s) (cur s) wpid x → ¬ zombie (s_os s) x) →
  wait_loop [w] false wpid wstatus options s = wait_loop [] true wpid wstatus options (w (sleeping wpid s)).
Proof.
  intros HI [Hc Hz] Hw Hopt Hask Hnz.
  destruct (wait_awake R Ow l k wpid wstatus options [w] false s HI Hc Hz Hw (or_introl eq_refl)) as (r & Hr & ->).
  destruct r as [v s'|s']; [|by destruct Hr as (_ & _ & _ & ->)].
  destruct Hr as [(x & Hx & Hxz & _)|[(Hn & _)|(_ & _ & E & _)]]; [by destruct (Hnz x)|by destruct (Hn c)|by rewrite E in Hopt].
Qed.

(** ** Claims *)




End Spec.

(** ** Processes on a concrete machine

    A kernel that has just started the process subsystem, on the memory of
    [VmmFree] and the threads of [KthreadRun]; init is created, forks
    and waits for its child. *)
From S2P Require Import VmmFree.
From S2P Require Import KthreadRun.
From S2P Require Import ConsoleProps ConsoleSpec ConsoleBounds Keyboard.
From S2P Require Import Ext2Props Ext2Spec.

Definition no_font : Z → Z := λ _, 0.

Definition some_devices : devices :=
  Devices (Tty initial_terms terminal_default (blank (Fb 64 64 256)) (Serial [] 0)) (Kbd ∅ 0 0 false false false false) ∅ fs0.

Definition boot_os : os KthreadRun.bump := process_init (Os (Fstore three_heap ∅ ∅) machine three_threads (Cpu 0 0 0 0 0x2000) ∅ 9 9 9 9).

Definition boot_owners : gmap Z obj := gset_to_gmap OThread (dom three_live).

Lemma boot_inv k : (k ≤ 100)%nat → os_inv ∅ boot_owners three_list k boot_os.
Proof.
  intros Hk. assert (∀ a o, boot_owners !! a = Some o ↔ a ∈ dom three_live ∧ o = OThread) as Ho.
  { intros a o. unfold boot_owners. rewrite lookup_gset_to_gmap_Some. naive_solver. }
  pose proof (three_ok k) as HT. split.
  - split; cbn [boot_os process_init o_fs fs_heap files privs].
    + exists three_live. split; [apply HT|]. intros a. rewrite <- elem_of_dom. split; [intros Ha; exists OThread; by apply Ho|].
      intros [o Ha]. by apply Ho in Ha as [Ha _].
    + intros f. rewrite lookup_empty. split; [by intros []|]. by intros [_ ?]%Ho.
    + intros f v. by rewrite lookup_empty.
    + done.
    + intros f v. by rewrite lookup_empty.
    + by intros a f [_ ?]%Ho.
    + intros a. rewrite lookup_empty. split; [by intros []|]. by intros [f [_ ?]%Ho].
  - split.
    + intros p r. cbn. by rewrite lookup_empty.
    + by intros a [_ ?]%Ho.
    + by intros a p [_ ?]%Ho.
    + intros a. rewrite Ho. change (owned (o_sched boot_os) three_list) with [1000; 2008; 30008; 32008].
      change (dom three_live) with (dom (<[1000 := 96]> (<[2008 := 16384]> (<[30008 := 96]> (<[32008 := 16384]> (∅ : gmap Z Z)))))).
      rewrite !dom_insert_L, dom_empty_L. set_solver.
    + intros a. rewrite Ho. set_solver.
  - split; cbn [boot_os process_init procs o_sched current_proc process_list init_process next_pid].
    + by apply (threads_sched three_heap _ _ three_live k).
    + by rewrite dom_empty_L.
    + by rewrite dom_empty_L.
    + unfold tree. cbn [boot_os process_init procs process_list]. rewrite dom_empty_L. split; [|done|done|set_solver].
      exists []. split_and!; [done|constructor|set_solver].
    + by left.
    + by left.
    + by rewrite dom_empty_L.
  - unfold room. cbn [boot_os process_init procs next_pid o_sched]. rewrite map_size_empty. cbn. lia.
Qed.

(** Init is created and made current. *)
Definition boot : sys KthreadRun.bump := Sys boot_os some_devices USER_MMAP_START.

Definition init_name : list Z := [105; 110; 105; 116].

Definition created_os : os KthreadRun.bump :=
  match process_create init_name terminal_default boot_os with Done (_, o) => o | Halted => boot_os end.

Lemma created_eq : process_create init_name terminal_default boot_os = Done (50008, created_os).
Proof.
  unfold created_os.
  assert (match process_create init_name terminal_default boot_os with Done (p, _) => p =? 50008 | Halted => false end = true) as Hp
    by (vm_compute; reflexivity).
  destruct (process_create init_name terminal_default boot_os) as [[p o]|]; [|done]. by apply Z.eqb_eq in Hp as ->.
Qed.

Definition init_runs : sys KthreadRun.bump := on_os (process_set_current 50008) (set_os created_os boot).

(** Membership by evaluation. *)
Definition has_proc (p : Z) (o : os KthreadRun.bump) : bool := match procs o !! p with Some _ => true | None => false end.

Lemma has_proc_dom p o : has_proc p o = true → p ∈ dom (procs o).
Proof. unfold has_proc. rewrite elem_of_dom. by destruct (procs o !! p). Qed.

Lemma init_run : nsteps (pstep no_font) 2 boot init_runs.
Proof.
  eapply nsteps_l; [eapply (ps_create _ init_name terminal_default boot); [by left|exact created_eq|done]|].
  eapply nsteps_l; [|apply nsteps_O]. apply ps_current. right. apply has_proc_dom. vm_compute. reflexivity.
Qed.

Lemma init_ok k : (k ≤ 90)%nat → os_ok ∅ k (s_os init_runs).
Proof. intros Hk. apply (prun_keeps no_font ∅ 2 k boot); [exact init_run|]. exists boot_owners, three_list. apply boot_inv. lia. Qed.

Lemma init_running : running init_runs.
Proof. split; vm_compute; discriminate. Qed.

(** Init makes the system call [nr]. *)
Definition call (nr : Z) : syscall_frame := SyscallFrame nr 0 0 0 0 0 0 0x202 0x400000 0x7ffffff000.

Lemma call_ok nr : 0 ≤ nr < 2 ^ 64 → frame_ok (call nr).
Proof. intros Hn. repeat constructor; cbn; lia. Qed.

Definition some_env : env KthreadRun.bump := Env _ [] [] 10 0x1000 0 0x2000.


(** Init forks. *)
Local Notation "'fork_of_init'" := (sys_fork 0x1000 0 0x2000 init_runs).

Lemma fork_returns_2 : match fork_of_init with Done (Returns r _) => r =? 2 | _ => false end = true.
Proof. vm_compute. reflexivity. Qed.


Definition parent_runs : sys KthreadRun.bump := match fork_of_init with Done (Returns _ s) => s | _ => init_runs end.

Lemma parent_ok : os_ok ∅ 3 (s_os parent_runs).
Proof.
  destruct (init_ok 8 ltac:(lia)) as (Ow & l & HI). destruct init_running as [Hc Hz].
  destruct (sys_fork_ok 0x1000 0 0x2000 ∅ Ow l 3 init_runs HI Hc Hz) as (res & o' & E & Hr).
  unfold parent_runs. rewrite E. apply Hr.
Qed.

Lemma parent_running : running parent_runs.
Proof. split; vm_compute; discriminate. Qed.

(** The child's block. *)
Definition the_child : Z := p_children (cur_proc parent_runs).

Lemma child_asked : asked (s_os parent_runs) (cur parent_runs) (-1) the_child.
Proof. split; [split|by left]; [apply has_proc_dom; vm_compute; reflexivity|vm_compute; reflexivity]. Qed.

Lemma no_zombies_eval (o : os KthreadRun.bump) x :
  forallb (λ '(_, r), negb (bool_decide (p_state r = PROC_ZOMBIE))) (map_to_list (procs o)) = true →
  x ∈ dom (procs o) → ¬ zombie o x.
Proof.
  intros Hall [r Hr]%elem_of_dom Hz. rewrite forallb_forall in Hall. specialize (Hall (x, r)).
  unfold zombie, proc in Hz. rewrite Hr in Hz. cbv beta iota in Hall. rewrite bool_decide_true in Hall by exact Hz. discriminate Hall.
  apply list_elem_of_In, elem_of_map_to_list. exact Hr.
Qed.

Lemma no_zombies x : x ∈ dom (procs (s_os parent_runs)) → ¬ zombie (s_os parent_runs) x.
Proof. apply no_zombies_eval. vm_compute. reflexivity. Qed.


