(* ===== verification/FileStream.v ===== *)
(** * Reading files through descriptors

    A program opens a file by its path and reads it in pieces: whatever the
    sizes of the pieces, it gets the bytes of the file in order. *)
From S2P Require Import Prelude Pmm Page Vmm VmmWalk VmmMap VmmProps Heap HeapInv HeapProps HeapSpec Alloc Kthread.
From S2P Require Import Console Keyboard Serial Terminal Ext2 Ext2Props Ext2Spec Vfs Process MemSys ProcSys ProcList ProcInv ProcCalls.
Local Open Scope Z_scope.

(** ** The disk under writes to other memory *)
Section Disk.
Context (fs : ext2) (N inode : Z) (m0 m : gmap Z Z).
Hypothesis (Hb : block_size_ok fs) (Hd : disk_placed fs N) (HN : 0 < N).
Hypothesis Hsame : ∀ a, disk_area fs N a ∨ inode_area inode a → rd m a = rd m0 a.

Lemma same_trace i : 0 ≤ i → Forall (λ b, 0 ≤ b < N) (block_trace fs m0 inode (i / block_size fs)) →
  block_trace fs m inode (i / block_size fs) = block_trace fs m0 inode (i / block_size fs).
Proof.
  intros Hi Ht. apply (block_trace_frame fs m0 m N); try done; [naive_solver..|]. apply Z.div_pos; [done|]. destruct Hb. lia.
Qed.

Lemma same_mapped lo hi : 0 ≤ lo → file_mapped fs m0 inode N lo hi → file_mapped fs m inode N lo hi.
Proof. intros Hlo Hm i Hi. rewrite same_trace by (lia || by apply Hm). by apply Hm. Qed.

Lemma same_file_byte i : 0 ≤ i → Forall (λ b, 0 ≤ b < N) (block_trace fs m0 inode (i / block_size fs)) →
  file_byte fs m inode i = file_byte fs m0 inode i.
Proof.
  intros Hi Ht. pose proof Hb as [Hbs _]. assert (0 ≤ i / block_size fs) as Hlb by (apply Z.div_pos; lia).
  unfold file_byte. rewrite !get_block_num_trace, same_trace by done. rewrite <- get_block_num_trace by done.
  pose proof (get_block_num_bound fs m0 inode N _ Hb Hlb HN Ht) as Hbn. case_if; [done|].
  apply Hsame. left. rewrite (block_ptr_eq fs N) by (done || lia).
  pose proof (Z.mod_pos_bound i (block_size fs) ltac:(lia)). unfold disk_area. nia.
Qed.

Lemma same_size : ext2_get_file_size m inode = ext2_get_file_size m0 inode.
Proof.
  assert (∀ n o, 0 ≤ o → o + Z.of_nat n ≤ 128 → load n m (inode + o) = load n m0 (inode + o)) as Hl.
  { intros n o Ho Hn. apply load_ext. intros a Ha. apply Hsame. right. unfold inode_area. lia. }
  unfold ext2_get_file_size, ext2_is_regular_file, i_mode, i_size, i_dir_acl.
  pose proof (Hl 2%nat 0 ltac:(lia) ltac:(lia)) as E. rewrite Z.add_0_r in E. rewrite E, !Hl by lia. done.
Qed.
End Disk.

(** ** An open file *)
Section Stream.
Context {H : Type} `{!Allocator H}.
Implicit Types s : sys H.

(** Descriptor [fd] of the current process reads the file behind [inode] from
    [off] on. *)
Record open_at (inode size fd off : Z) s : Prop := {
  oa_fd : cur s ≠ 0 ∧ 0 ≤ fd < 256 ∧ fd_file (fd_at s fd) ≠ 0;
  oa_file : let f := file_at (o_fs (s_os s)) (fd_file (fd_at s fd)) in
    f_ops f = ext2_file_ops ∧ f_offset f = off ∧ Z.land (f_flags f) O_ACCMODE ≠ O_WRONLY ∧ f_private f ≠ 0;
  oa_priv : let p := priv_at (o_fs (s_os s)) (f_private (file_at (o_fs (s_os s)) (fd_file (fd_at s fd)))) in
    p_inode p = inode ∧ p_size p = size;
}.

(** A program that reads into the buffers [reqs], with their lengths, and looks
    at what it got after each call. *)
Fixpoint read_all (fd : Z) (reqs : list (Z * Z)) s : option (list (Z * list Z) * sys H) :=
  match reqs with
  | [] => Some ([], s)
  | (buf, count) :: reqs =>
      match sys_read fd buf count [] s with
      | Returns r s => '(rs, s') ← read_all fd reqs s; Some ((r, buffer_bytes (d_mem (s_dev s)) buf (Z.to_nat r)) :: rs, s')
      | Stays _ => None
      end
  end.

(** Bytes [lo] to [lo + n] of the file. *)
Definition contents (fs : ext2) (m : gmap Z Z) (inode lo n : Z) : list Z := file_byte fs m inode <$> seqZ lo n.

(** How many bytes each call returns when [left] are left. *)
Fixpoint counts (left : Z) (ns : list Z) : list Z :=
  match ns with [] => [] | n :: ns => let r := Z.min n left in r :: counts (left - r) ns end.

Definition total (reqs : list (Z * Z)) : Z := foldr (λ r n, r.2 + n) 0 reqs.

Section Reads.
Context (fs : ext2) (N inode size fd : Z) (m0 : gmap Z Z) (root : Z) (k : kmem).
Hypothesis (Hb : block_size_ok fs) (Hd : disk_placed fs N) (HN : 0 < N) (Hinode : inode ≠ 0).
Hypothesis (Hsize : size = ext2_get_file_size m0 inode) (Hlim : 0 ≤ size ≤ 2 ^ 32 * block_size fs).
Hypothesis Hmapped : file_mapped fs m0 inode N 0 size.

(** A buffer that the program may write and that is no part of the disk. *)
Definition request_ok (r : Z * Z) : Prop :=
  byte_range_ok r.1 r.2 ∧ vmm_user_range_writable root r.1 r.2 k = true ∧
  ∀ a, disk_area fs N a ∨ inode_area inode a → ¬ r.1 ≤ a < r.1 + r.2.

(** The process and the disk. *)
Definition reader s : Prop :=
  pml4_phys (cur_proc s) = root ∧ o_k (s_os s) = k ∧ d_ext2 (s_dev s) = fs ∧
  ∀ a, disk_area fs N a ∨ inode_area inode a → rd (d_mem (s_dev s)) a = rd m0 a.

Lemma request_bounds r : request_ok r → 0 < r.1 ∧ 0 < r.2 ∧ r.1 + r.2 ≤ USER_SPACE_TOP.
Proof.
  intros (Hr & Hw & _). apply vmm_validate_user_range_iff; [done|]. unfold vmm_user_range_writable, user_range_check in Hw.
  by destruct (vmm_validate_user_range r.1 r.2).
Qed.

Lemma buffer_contents m buf off r :
  0 ≤ r → (∀ i, 0 ≤ i < r → rd m (buf + i) = file_byte fs m0 inode (off + i)) →
  buffer_bytes m buf (Z.to_nat r) = contents fs m0 inode off r.
Proof.
  intros Hr Hm. unfold buffer_bytes, contents, seqZ. rewrite <- list_fmap_compose. change (map ?f ?l) with (f <$> l).
  apply list_fmap_ext. intros j i Hi%list_elem_of_lookup_2. apply elem_of_seq in Hi. cbn [compose]. rewrite Hm by lia. f_equal. lia.
Qed.

Lemma sys_read_step off buf count s :
  open_at inode size fd off s → reader s → 0 ≤ off ≤ size → request_ok (buf, count) →
  let r := Z.min count (size - off) in
  ∃ s', sys_read fd buf count [] s = Returns r s' ∧ open_at inode size fd (off + r) s' ∧ reader s' ∧
    buffer_bytes (d_mem (s_dev s')) buf (Z.to_nat r) = contents fs m0 inode off r ∧
    ∀ a, ¬ buf ≤ a < buf + count → rd (d_mem (s_dev s')) a = rd (d_mem (s_dev s)) a.
Proof.
  intros [(Hc & Hfd & Hf) (O1 & O2 & O3 & O4) (P1 & P2)] (R1 & R2 & R3 & R4) Hoff Hreq r.
  pose proof (request_bounds _ Hreq) as (Q1 & Q2 & Q3). destruct Hreq as (_ & Hw & Hap). cbn [fst snd] in *. unfold USER_SPACE_TOP in Q3.
  pose proof Hb as [Hbs _]. unfold sys_read, bad_fd. change (Z.of_nat PROC_MAX_FDS) with 256.
  assert ((cur s =? 0) = false) as -> by lia. assert ((256 <=? fd) = false) as -> by lia. assert ((fd_file (fd_at s fd) =? 0) = false) as Ef by lia.
  rewrite Ef. cbn [orb]. assert ((count =? 0) = false) as -> by lia. rewrite R1, R2, Hw. cbn [negb]. unfold vfs_read. rewrite Ef, O1.
  assert ((Z.land (f_flags (file_at (o_fs (s_os s)) (fd_file (fd_at s fd)))) O_ACCMODE =? O_WRONLY) = false) as -> by lia.
  unfold ext2_file_read. rewrite P1, P2, O2, R3. set (f := file_at _ _) in *.
  assert ((f_private f =? 0) = false) as -> by lia. assert ((inode =? 0) = false) as -> by lia. cbn [orb].
  destruct (Z.leb_spec size off) as [Hle|Hlt].
  { assert (r = 0) as -> by (unfold r; lia). eexists. split; [reflexivity|]. rewrite Z.add_0_r. split; [done|]. split; [done|].
    split; [reflexivity|]. done. }
  rewrite u64_small by lia. assert ((if size <? off + count then size - off else count) = r) as -> by (unfold r; case_if; lia).
  assert (ext2_get_file_size (d_mem (s_dev s)) inode = size) as Es by (rewrite (same_size fs N inode m0); [done|exact R4]).
  destruct (ext2_read_ok fs N inode off buf r (d_mem (s_dev s)) Hb Hd HN Hinode ltac:(lia) ltac:(lia) ltac:(unfold r; lia) ltac:(unfold r; lia))
    as (m' & E & Hm'); rewrite ?Es; [lia| | |]; replace (Z.max 0 (Z.min r (size - off))) with r in * by (unfold r; lia).
  - intros a Ha. pose proof (Hap a Ha). unfold r. lia.
  - apply (same_mapped fs N inode m0); [done|done|exact R4|lia|]. intros i Hi. apply Hmapped. unfold r in Hi. lia.
  - rewrite Es in E, Hm'. replace (Z.max 0 (Z.min r (size - off))) with r in E, Hm' by (unfold r; lia).
    rewrite E. assert ((0 <? r) = true) as -> by (unfold r; lia). rewrite (u64_small (off + r)) by (unfold r; lia).
    set (fs' := set_file _ _ _). assert (file_at fs' (fd_file (fd_at s fd)) = with_offset (off + r) f) as Ef'
      by (unfold file_at, fs', set_file; cbn [files]; by rewrite lookup_insert_eq).
    assert (∀ i, 0 ≤ i < r → rd m' (buf + i) = file_byte fs m0 inode (off + i)) as Hbytes.
    { intros i Hi. rewrite Hm', decide_True by lia. replace (off + (buf + i - buf)) with (off + i) by lia.
      apply (same_file_byte fs N inode m0); [done|done|done|exact R4|lia|]. apply Hmapped. unfold r in Hi. lia. }
    eexists. split; [reflexivity|]. split; [|split; [|split]].
    + split; [done| |]; change (o_fs (s_os (set_dev _ (on_os (set_fs fs') s)))) with fs'; change (fd_at (set_dev _ (on_os (set_fs fs') s)) fd) with (fd_at s fd);
        rewrite Ef'; cbn [with_offset f_ops f_offset f_flags f_private]; [done|by split].
    + split_and!; try done. intros a Ha. cbn [set_dev s_dev set_d_mem d_mem]. rewrite Hm', decide_False; [by apply R4|].
      pose proof (Hap a Ha). unfold r. lia.
    + apply buffer_contents; [unfold r; lia|exact Hbytes].
    + intros a Ha. cbn [set_dev s_dev set_d_mem d_mem]. rewrite Hm', decide_False; [done|unfold r; lia].
Qed.

Lemma contents_app lo n1 n2 : 0 ≤ n1 → 0 ≤ n2 → contents fs m0 inode lo (n1 + n2) = contents fs m0 inode lo n1 ++ contents fs m0 inode (lo + n1) n2.
Proof. intros H1 H2. unfold contents. by rewrite seqZ_app, fmap_app by lia. Qed.

Lemma read_all_ok reqs : ∀ off s,
  open_at inode size fd off s → reader s → 0 ≤ off ≤ size → Forall request_ok reqs →
  let n := Z.min (total reqs) (size - off) in
  ∃ rs s', read_all fd reqs s = Some (rs, s') ∧ rs.*1 = counts (size - off) (reqs.*2) ∧ concat (rs.*2) = contents fs m0 inode off n ∧
    open_at inode size fd (off + n) s' ∧ reader s' ∧
    ∀ a, Forall (λ r, ¬ r.1 ≤ a < r.1 + r.2) reqs → rd (d_mem (s_dev s')) a = rd (d_mem (s_dev s)) a.
Proof.
  induction reqs as [|[buf count] reqs IH]; intros off s Ho Hr Hoff Hreqs n.
  { exists [], s. assert (n = 0) as -> by (unfold n; cbn; lia). rewrite Z.add_0_r. by split_and!. }
  apply Forall_cons_1 in Hreqs as [Hreq Hreqs]. pose proof (request_bounds _ Hreq) as (_ & Hc & _). cbn [snd] in Hc.
  destruct (sys_read_step off buf count s Ho Hr Hoff Hreq) as (s1 & E1 & Ho1 & Hr1 & Hb1 & Hm1). set (r := Z.min count (size - off)) in *.
  destruct (IH (off + r) s1 Ho1 Hr1 ltac:(unfold r; lia) Hreqs) as (rs & s2 & E2 & Hcs & Hcat & Ho2 & Hr2 & Hm2).
  set (n2 := Z.min (total reqs) (size - (off + r))) in *.
  assert (0 ≤ total reqs) as Ht.
  { clear -Hreqs. induction Hreqs as [|q qs Hq _ IH]; [done|]. cbn [total foldr]. fold (total qs). pose proof (request_bounds _ Hq). lia. }
  assert (n = r + n2) as -> by (unfold n, n2, r; cbn [total foldr snd]; fold (total reqs); lia).
  exists ((r, buffer_bytes (d_mem (s_dev s1)) buf (Z.to_nat r)) :: rs), s2. cbn [read_all]. rewrite E1, E2. cbn [mbind option_bind].
  split; [done|]. rewrite !fmap_cons. cbn [fst snd concat counts]. fold r. replace (size - off - r) with (size - (off + r)) by lia.
  split; [by rewrite Hcs|]. split; [by rewrite Hb1, Hcat, contents_app by (unfold r, n2; lia)|].
  split; [by rewrite Z.add_assoc|]. split; [done|]. intros a [Ha Hal]%Forall_cons_1. rewrite Hm2 by done. by apply Hm1.
Qed.
End Reads.

(** ** Opening *)

(** Everything of the kernel but the files and descriptors. *)
Definition same_machine s s' : Prop :=
  s_dev s' = s_dev s ∧ cur s' = cur s ∧ o_k (s_os s') = o_k (s_os s) ∧ pml4_phys (cur_proc s') = pml4_phys (cur_proc s).

(** The heap has no room for an open file or its private data. *)
Definition heap_refuses (h : H) : Prop :=
  let '(file, h) := a_malloc sizeof_vfs_file h in file = 0 ∨ (a_malloc sizeof_ext2_private h).1 = 0.

#[local] Instance same_machine_preorder : PreOrder same_machine.
Proof. split; [by intros s|]. intros s1 s2 s3 (? & ? & ? & ?) (? & ? & ? & ?). unfold same_machine. split_and!; congruence. Qed.

Lemma fd_at_set fd e s : 0 ≤ fd < Z.of_nat (length (fd_table (cur_proc s))) → fd_at (on_os (set_fd (cur s) fd e) s) fd = e.
Proof.
  intros Hfd. change (nth (Z.to_nat fd) (fd_table (proc (pupd (cur s) (set_fd_table (<[Z.to_nat fd := e]> (fd_table (cur_proc s)))) (s_os s)) (cur s))) no_fd = e).
  rewrite proc_pupd, decide_True by done. cbn [fd_table set_fd_table]. rewrite nth_lookup, list_lookup_insert_eq by lia. done.
Qed.

Lemma set_fd_machine fd e s : same_machine s (on_os (set_fd (cur s) fd e) s).
Proof.
  split_and!; try done. change (pml4_phys (proc (pupd (cur s) (set_fd_table (<[Z.to_nat fd := e]> (fd_table (cur_proc s)))) (s_os s)) (cur s)) = pml4_phys (cur_proc s)).
  by rewrite proc_pupd, decide_True.
Qed.

Lemma fd_free_machine fd s : same_machine s (on_os (process_fd_free (cur s) fd) s).
Proof. unfold process_fd_free. destruct (_ && _); [apply set_fd_machine|done]. Qed.

Lemma sys_open_ok lookup_fuel pathname flags path ino s :
  let m := d_mem (s_dev s) in
  let fs := d_ext2 (s_dev s) in
  let inode := ext2_read_inode fs m ino in
  cur s ≠ 0 → length (fd_table (cur_proc s)) = PROC_MAX_FDS → copy_string_from_user pathname PATH_MAX m = inl path →
  ext2_lookup fs m lookup_fuel path = Some ino → ino ≠ 0 → inode ≠ 0 → ext2_is_regular_file m inode = true →
  Z.land (s32 flags) O_ACCMODE ≠ O_WRONLY →
  ∃ r s', sys_open lookup_fuel pathname flags s = Returns r s' ∧ same_machine s s' ∧
    ((r = - EMFILE ∧ process_fd_alloc (cur s) (s_os s) = -1) ∨ (r = - ENOMEM ∧ heap_refuses (fs_heap (o_fs (s_os s)))) ∨
     (r = process_fd_alloc (cur s) (s_os s) ∧ open_at inode (ext2_get_file_size m inode) r 0 s')).
Proof.
  intros m fs inode Hc Hlen Hpath Hino Hino0 Hin0 Hreg Hfl. unfold sys_open. fold m fs. rewrite Hpath, Hino. fold inode. rewrite Hreg.
  assert ((cur s =? 0) = false) as -> by lia. assert ((ino =? 0) = false) as -> by lia. assert ((inode =? 0) = false) as -> by lia. cbn [negb].
  cbv zeta. destruct (first_free_spec (fd_table (cur_proc s)) 0 ltac:(lia)) as [E|[Hfd _]];
    change (first_free 0 (fd_table (cur_proc s))) with (process_fd_alloc (cur s) (s_os s)) in *.
  { rewrite E. change (-1 <? 0) with true. cbv iota. eexists _, _. split; [reflexivity|]. split; [done|]. by left. }
  set (fd := process_fd_alloc (cur s) (s_os s)) in *. assert ((fd <? 0) = false) as -> by lia.
  unfold vfs_file_alloc, heap_refuses. destruct (a_malloc sizeof_vfs_file _) as [file h1]. destruct (Z.eqb_spec file 0) as [->|Hfile].
  { eexists _, _. split; [reflexivity|]. split; [|right; left; split; [done|by left]].
    match goal with |- same_machine _ (on_os _ ?x) => transitivity x; [done|exact (fd_free_machine fd x)] end. }
  assert ((file =? 0) = false) as -> by lia. unfold kmalloc_os.
  change (fs_heap (o_fs (s_os (on_os _ _)))) with h1. destruct (a_malloc sizeof_ext2_private h1) as [priv h2]. destruct (Z.eqb_spec priv 0) as [->|Hpriv].
  { eexists _, _. split; [reflexivity|]. split; [|right; left; split; [done|by right]].
    match goal with |- same_machine _ (on_os _ ?x) => transitivity x; [done|exact (fd_free_machine fd x)] end. }
  set (fs' := Fstore _ (<[file := _]> _) _). eexists _, _. split; [reflexivity|]. split.
  { match goal with |- same_machine _ (on_os _ ?x) => transitivity x; [done|exact (set_fd_machine fd (FdEntry file 0) x)] end. }
  right. right. split; [done|]. set (s' := on_os (set_fd _ _ _) _).
  assert (fd_at s' fd = FdEntry file 0) as Efd 
    by (unfold s'; match goal with |- fd_at (on_os _ ?x) _ = _ => apply (fd_at_set fd (FdEntry file 0) x) end; change (0 ≤ fd < Z.of_nat (length (fd_table (cur_proc s)))); lia).
  assert (o_fs (s_os s') = fs') as Efs by reflexivity.
  split; rewrite ?Efd, ?Efs; cbn [fd_file].
  - split; [done|]. split; [|done]. rewrite Hlen in Hfd. change (Z.of_nat PROC_MAX_FDS) with 256 in Hfd. lia.
  - unfold file_at, fs'. cbn [files]. rewrite lookup_insert_eq. by split_and!.
  - unfold file_at, priv_at, fs'. cbn [files privs]. rewrite lookup_insert_eq. cbn [default from_option f_private]. by rewrite lookup_insert_eq.
Qed.

Lemma file_size_pos m inode : bytes_ok m → 0 ≤ ext2_get_file_size m inode.
Proof.
  intros Hm. pose proof (load_bytes 4 m (inode + 4) Hm) as Hs. unfold ext2_get_file_size. case_if; [done|]. case_if; [|apply Hs].
  apply Z.lor_nonneg. split; [apply u64_bound|apply Hs].
Qed.

End Stream.

(** ** A process reads a file in pieces *)
From S2P Require Import KthreadRun VmmFree ConsoleProps ConsoleSpec ProcSpec.

(** Process 7 has the page at 4 MiB, where it keeps the path. *)
Definition reading_process : sys KthreadRun.bump :=
  let p := Process 1 [] PROC_RUNNING 0x2000 0 0 0 0 0 0 0 0 0 (replicate PROC_MAX_FDS no_fd) 0 0 0 0 0 0 0 0 in
  Sys (Os (Fstore three_heap ∅ ∅) mapped.2 three_threads (Cpu 0 0 0 0 0x2000) {[7 := p]} 7 7 2 7)
    (set_d_mem (store 8 disk_mem 0x400000 0x74696e692f) some_devices) USER_MMAP_START.

