(* ===== verification/Elf.v ===== *)
(** * Program loader ([kernel/elf.c], [kernel/elf.h])

    The file is in kernel memory [m], by bytes; user pages are frames behind
    the page tables of [k].  The helpers [elf_memset], [elf_memcpy] and
    [elf_strlen] appear as the clearing, copying and counting loops of their
    callers. *)
From S2P Require Import Prelude Pmm Page Vmm VmmWalk VmmMap VmmProps VmmCow UserMem UserBytes.
From S2P Require Import Heap HeapInv HeapProps HeapSpec Alloc Kthread Vfs Process.
Local Open Scope Z_scope.

Definition ALIGN_UP (v align : Z) : Z := Z.land (u64 (v + align - 1)) (~64 (align - 1)).

Definition ALIGN_DOWN (v align : Z) : Z := Z.land v (~64 (align - 1)).

(** ** File format *)

Definition sizeof_Ehdr : Z := 64.
Definition sizeof_Phdr : Z := 56.

Record Elf64_Ehdr := Ehdr {
  e_ident : Z → Z;
  e_type : Z;
  e_machine : Z;
  e_entry : Z;
  e_phoff : Z;
  e_phentsize : Z;
  e_phnum : Z;
}.

Definition ehdr_at (m : gmap Z Z) (a : Z) : Elf64_Ehdr :=
  Ehdr (λ i, rd m (a + i)) (load 2 m (a + 16)) (load 2 m (a + 18)) (load 8 m (a + 24)) (load 8 m (a + 32))
    (load 2 m (a + 54)) (load 2 m (a + 56)).

Record Elf64_Phdr := Phdr {
  p_type : Z;
  p_flags : Z;
  p_offset : Z;
  p_vaddr : Z;
  p_filesz : Z;
  p_memsz : Z;
}.

Definition phdr_at (m : gmap Z Z) (a : Z) : Elf64_Phdr :=
  Phdr (load 4 m a) (load 4 m (a + 4)) (load 8 m (a + 8)) (load 8 m (a + 16)) (load 8 m (a + 32)) (load 8 m (a + 40)).

Definition EI_CLASS : Z := 4.
Definition EI_DATA : Z := 5.
Definition ELFMAG0 : Z := 0x7f.
Definition ELFMAG1 : Z := 69.
Definition ELFMAG2 : Z := 76.
Definition ELFMAG3 : Z := 70.
Definition ELFCLASS64 : Z := 2.
Definition ELFDATA2LSB : Z := 1.
Definition ET_EXEC : Z := 2.
Definition ET_DYN : Z := 3.
Definition EM_X86_64 : Z := 62.
Definition PT_LOAD : Z := 1.
Definition PF_X : Z := 1.
Definition PF_W : Z := 2.

(** Where the program headers end in the file, in 64-bit arithmetic. *)
Definition phdrs_end (h : Elf64_Ehdr) : Z := u64 (e_phoff h + u64 (e_phnum h * sizeof_Phdr)).

Definition elf_validate (m : gmap Z Z) (data size : Z) : Z :=
  if (data =? 0) || (size <? sizeof_Ehdr) then - EINVAL
  else
    let h := ehdr_at m data in
    if negb (e_ident h 0 =? ELFMAG0) || negb (e_ident h 1 =? ELFMAG1) ||
       negb (e_ident h 2 =? ELFMAG2) || negb (e_ident h 3 =? ELFMAG3) then - ENOEXEC
    else if negb (e_ident h EI_CLASS =? ELFCLASS64) then - ENOEXEC
    else if negb (e_ident h EI_DATA =? ELFDATA2LSB) then - ENOEXEC
    else if negb (e_type h =? ET_EXEC) && negb (e_type h =? ET_DYN) then - ENOEXEC
    else if negb (e_machine h =? EM_X86_64) then - ENOEXEC
    else if negb (e_phentsize h =? sizeof_Phdr) then - ENOEXEC
    else if size <? phdrs_end h then - ENOEXEC
    else 0.

(** ** Loading *)

Record elf_info := ElfInfo {
  entry : Z;
  phdr_addr : Z;
  phnum : Z;
  info_brk_start : Z;
}.

Definition seg_flags (p : Elf64_Phdr) : Z :=
  let f := Z.lor PTE_PRESENT PTE_USER in
  let f := if negb (Z.land (p_flags p) PF_W =? 0) then Z.lor f PTE_WRITABLE else f in
  if Z.land (p_flags p) PF_X =? 0 then Z.lor f PTE_NX else f.

(** The loop over the pages of a segment; [inr] is the early return. *)
Definition load_pages (root seg_start flags : Z) (n : nat) (k : kmem) : kmem + (Z * kmem) :=
  for_until n 0 (λ i k,
    let vaddr := u64 (seg_start + u64 (i * PAGE_SIZE)) in
    if negb (vmm_get_physical root vaddr k =? 0) then inl k
    else
      let '(r, k) := map_user_page root vaddr flags k in
      if r =? -1 then inr (- ENOMEM, k) else if r <? 0 then inr (-1, k) else inl k) k.

(** [elf_memcpy] from the file to the frame at [dst]. *)
Definition copy_bytes (m : gmap Z Z) (dst src : Z) (n : nat) (k : kmem) : kmem :=
  set_mem (for_loop n 0 (λ i f, wr8 f (dst + i) (rd m (src + i))) (k_mem k)) k.

(** The copy loop, a page or a part of one in each round; [fuel] bounds the
    rounds. *)
Fixpoint copy_segment (fuel : nat) (m : gmap Z Z) (root src remaining dst_vaddr : Z) (k : kmem) : Z * kmem :=
  match fuel with
  | O => (0, k)
  | S fuel' =>
      if remaining =? 0 then (0, k)
      else
        let page_start := ALIGN_DOWN dst_vaddr PAGE_SIZE in
        let page_offset := dst_vaddr - page_start in
        let to_copy := PAGE_SIZE - page_offset in
        let to_copy := if remaining <? to_copy then remaining else to_copy in
        let phys := vmm_get_physical root page_start k in
        if phys =? 0 then (- EFAULT, k)
        else
          let k := copy_bytes m (phys + page_offset) src (Z.to_nat to_copy) k in
          copy_segment fuel' m root (u64 (src + to_copy)) (remaining - to_copy) (u64 (dst_vaddr + to_copy)) k
  end.

(** Enough rounds: every round but the first and the last copies a page. *)
Definition copy_fuel (filesz : Z) : nat := Z.to_nat (filesz / PAGE_SIZE + 2).

(** One round of the loop over the program headers. *)
Definition load_segment (m : gmap Z Z) (root data size : Z) (h : Elf64_Ehdr) (i : Z) (st : elf_info * kmem)
    : elf_info * kmem + (Z * elf_info * kmem) :=
  let '(info, k) := st in
  let p := phdr_at m (u64 (u64 (data + e_phoff h) + i * sizeof_Phdr)) in
  if negb (p_type p =? PT_LOAD) then inl st
  else if p_memsz p =? 0 then inl st
  else if 0x800000000000 <=? p_vaddr p then inr (- ENOEXEC, info, k)
  else
    let seg_start := ALIGN_DOWN (p_vaddr p) PAGE_SIZE in
    let seg_end := ALIGN_UP (u64 (p_vaddr p + p_memsz p)) PAGE_SIZE in
    let num_pages := u64 (seg_end - seg_start) / PAGE_SIZE in
    match load_pages root seg_start (seg_flags p) (Z.to_nat num_pages) k with
    | inr (r, k) => inr (r, info, k)
    | inl k =>
        if (0 <? p_filesz p) && (size <? u64 (p_offset p + p_filesz p)) then inr (- ENOEXEC, info, k)
        else
          let '(r, k) := if 0 <? p_filesz p
                         then copy_segment (copy_fuel (p_filesz p)) m root (u64 (data + p_offset p)) (p_filesz p) (p_vaddr p) k
                         else (0, k) in
          if r <? 0 then inr (r, info, k)
          else
            let seg_high := u64 (p_vaddr p + p_memsz p) in
            let brk := if info_brk_start info <? seg_high then seg_high else info_brk_start info in
            let ph := if (phdr_addr info =? 0) && (p_offset p =? 0) && (phdrs_end h <=? p_filesz p)
                      then u64 (p_vaddr p + e_phoff h) else phdr_addr info in
            inl (ElfInfo (entry info) ph (phnum info) brk, k)
    end.

(** [root] is [None] for a NULL process, [info] for a NULL result pointer. *)
Definition elf_load (m : gmap Z Z) (root : option Z) (data size : Z) (info : option elf_info) (k : kmem)
    : Z * option elf_info * kmem :=
  match root, info with
  | Some root, Some info0 =>
      if data =? 0 then (- EINVAL, info, k)
      else
        let ret := elf_validate m data size in
        if ret <? 0 then (ret, info, k)
        else
          let h := ehdr_at m data in
          let info := ElfInfo (e_entry h) 0 (e_phnum h) 0 in
          match for_until (Z.to_nat (e_phnum h)) 0 (load_segment m root data size h) (info, k) with
          | inr (ret, info, k) => (ret, Some info, k)
          | inl (info, k) =>
              (0, Some (ElfInfo (entry info) (phdr_addr info) (phnum info) (ALIGN_UP (info_brk_start info) PAGE_SIZE)), k)
          end
  | _, _ => (- EINVAL, info, k)
  end.

(** ** The first stack *)

Definition AT_NULL : Z := 0.
Definition AT_PHDR : Z := 3.
Definition AT_PHENT : Z := 4.
Definition AT_PHNUM : Z := 5.
Definition AT_PAGESZ : Z := 6.
Definition AT_ENTRY : Z := 9.
Definition AT_RANDOM : Z := 25.

Definition stack_flags : Z := Z.lor (Z.lor (Z.lor PTE_PRESENT PTE_WRITABLE) PTE_USER) PTE_NX.

(** The loop over the stack pages, downwards; [inr] is the early return. *)
Definition stack_pages (root : Z) (k : kmem) : kmem + kmem :=
  for_until (Z.to_nat (USER_STACK_SIZE / PAGE_SIZE)) 0 (λ i k,
    let '(r, k) := map_user_page root (USER_STACK_TOP - (i + 1) * PAGE_SIZE) stack_flags k in
    if r <? 0 then inr k else inl k) k.

(** Calls that may return early: [inr] is the memory at that point. *)
Definition or_return {A B : Type} (r : A + kmem) (f : A → B + kmem) : B + kmem :=
  match r with inl a => f a | inr k => inr k end.

Local Notation "'let!' x := r 'in' f" := (or_return r (fun x => f)) (at level 10, x pattern, f at level 200).

(** One byte through the page tables. *)
Definition poke (root va b : Z) (k : kmem) : kmem + kmem :=
  let phys := vmm_get_physical root (ALIGN_DOWN va PAGE_SIZE) k in
  if phys =? 0 then inr k else inl (set_mem (wr8 (k_mem k) (phys + Z.land va (PAGE_SIZE - 1)) b) k).

(** The bytes of a string and its terminator. *)
Fixpoint poke_bytes (root va : Z) (bs : list Z) (k : kmem) : kmem + kmem :=
  match bs with
  | [] => inl k
  | b :: bs => let! k := poke root va b k in poke_bytes root (u64 (va + 1)) bs k
  end.

(** A loop over [argv] or [envp]: the addresses of the strings, and where the
    next one goes. *)
Fixpoint poke_strings (root str_ptr : Z) (strs : list (list Z)) (k : kmem) : list Z * Z * kmem + kmem :=
  match strs with
  | [] => inl ([], str_ptr, k)
  | s :: strs =>
      let! k := poke_bytes root str_ptr (s ++ [0]) k in
      let! (ptrs, next, k) := poke_strings root (u64 (str_ptr + Z.of_nat (length s) + 1)) strs k in
      inl (str_ptr :: ptrs, next, k)
  end.

Definition strings_size (strs : list (list Z)) : Z := foldl (λ n s, u64 (n + Z.of_nat (length s) + 1)) 0 strs.

Definition random_byte (random_addr i : Z) : Z := u8 (Z.lxor (Z.shiftr random_addr (Z.land i 7)) (i * 17)).

Definition write_random (root random_addr : Z) (k : kmem) : kmem :=
  let phys := vmm_get_physical root (ALIGN_DOWN random_addr PAGE_SIZE) k in
  if negb (phys =? 0) then
    set_mem (for_loop 16 0 (λ i f, wr8 f (phys + Z.land random_addr (PAGE_SIZE - 1) + i) (random_byte random_addr i)) (k_mem k)) k
  else k.

(** [PUSH_U64]; the stack pointer is a multiple of eight. *)
Definition push_u64 (root v : Z) (st : Z * kmem) : Z * kmem + kmem :=
  let '(sp, k) := st in
  let sp := u64 (sp - 8) in
  let phys := vmm_get_physical root (ALIGN_DOWN sp PAGE_SIZE) k in
  if phys =? 0 then inr k else inl (sp, set_mem (wr (k_mem k) (phys + Z.land sp (PAGE_SIZE - 1)) v) k).

Fixpoint push_all (root : Z) (vs : list Z) (st : Z * kmem) : Z * kmem + kmem :=
  match vs with
  | [] => inl st
  | v :: vs => let! st := push_u64 root v st in push_all root vs st
  end.

(** The auxiliary vector in the order of the pushes. *)
Definition auxv_pushes (random_addr : Z) (info : elf_info) : list Z :=
  [0; AT_NULL; random_addr; AT_RANDOM; entry info; AT_ENTRY; phnum info; AT_PHNUM; sizeof_Phdr; AT_PHENT] ++
  (if negb (phdr_addr info =? 0) then [phdr_addr info; AT_PHDR] else []) ++ [PAGE_SIZE; AT_PAGESZ].

(** Strings, random bytes and vectors below [USER_STACK_TOP]. *)
Definition fill_stack (root : Z) (argv envp : list (list Z)) (info : elf_info) (k : kmem) : Z * kmem + kmem :=
  let sp := ALIGN_DOWN (u64 (USER_STACK_TOP - strings_size (argv ++ envp))) 8 in
  let! (argv_ptrs, str_ptr, k) := poke_strings root sp argv k in
  let! (envp_ptrs, _, k) := poke_strings root str_ptr envp k in
  let random_addr := ALIGN_DOWN (u64 (sp - 16)) 16 in
  let k := write_random root random_addr k in
  push_all root (auxv_pushes random_addr info ++ rev (envp_ptrs ++ [0]) ++ rev (argv_ptrs ++ [0]) ++ [Z.of_nat (length argv)])
    (ALIGN_DOWN random_addr 16, k).

(** The stack pointer for user mode, or 0.  [None] stands for NULL; a NULL
    [envp] counts as empty. *)
Definition elf_setup_stack (root : option Z) (argv envp : option (list (list Z))) (info : option elf_info) (k : kmem) : Z * kmem :=
  match root, argv, info with
  | Some root, Some argv, Some info =>
      match stack_pages root k with
      | inr k => (0, k)
      | inl k =>
          match fill_stack root argv (default [] envp) info k with
          | inl (sp, k) => (sp, k)
          | inr k => (0, k)
          end
      end
  | _, _, _ => (0, k)
  end.
