(* ===== verification/ElfProps.v ===== *)
(** * The steps of the program loader

    Mapping a range of zeroed pages and copying bytes into it, as changes of
    what user mode sees at each address. *)
From S2P Require Import Prelude Pmm Page Vmm VmmWalk VmmMap VmmProps VmmCow UserMem FaultProps UserBytes.
From S2P Require Import Heap HeapInv HeapProps HeapSpec Alloc Kthread Vfs Process Elf.
Local Open Scope Z_scope.

Definition user_addr (va : Z) : Prop := 0 ≤ va < USER_SPACE_TOP.

Section Loader.
Context (root : Z).
Implicit Types k : kmem.

(** A word that is neither free nor part of the address space. *)
Definition outside k (x : Z) : Prop :=
  reserved user_half root k x ∧ ∀ va e, user_half (PML4_INDEX va) → pte_at root va k = Some e → x / 4096 ≠ frame e / 4096.

(** The address space changes and takes pages, and nothing else changes. *)
Record user_step k k' : Prop := {
  ut_own : space_own user_half root k';
  ut_outside : ∀ x, outside k x → outside k' x ∧ rd (k_mem k') x = rd (k_mem k) x;
  ut_rest : k_refs k' = k_refs k ∧ kernel_pml4_phys k' = kernel_pml4_phys k;
}.

Lemma user_step_refl k : space_own user_half root k → user_step k k.
Proof. by split. Qed.

Lemma user_step_trans k1 k2 k3 : user_step k1 k2 → user_step k2 k3 → user_step k1 k3.
Proof.
  intros [O1 X1 [R1 R1']] [O2 X2 [R2 R2']]. split; [done| |split; congruence].
  intros x Hx. destruct (X1 x Hx) as [Hx2 E1]. destruct (X2 x Hx2) as [Hx3 E2]. split; [done|congruence].
Qed.

Lemma region_user_step k k' :
  space_wf user_half root k → region_step user_half root k k' → space_own user_half root k' →
  (∀ va e, user_half (PML4_INDEX va) → pte_at root va k' = Some e →
     pte_at root va k = Some e ∨ (frame e / 4096) ∈ free_set (k_pmm k)) →
  k_refs k' = k_refs k ∧ kernel_pml4_phys k' = kernel_pml4_phys k → user_step k k'.
Proof.
  intros Hwf Hr Ho Hp Hrest. split; [done| |done]. intros x [Hx Hfr].
  destruct (region_reserved _ _ _ _ _ Hwf Hr Hx) as [Hx' E]. split; [split; [done|]|done].
  intros va e HI He. destruct (Hp va e HI He) as [He'|Hin]; [by apply (Hfr va)|]. intros Ex. apply Hx. by rewrite Ex.
Qed.

(** ** Pages *)

(** The unmapped pages of [lo] to [hi] now hold zeros and have [flags]. *)
Record range_mapped (lo hi flags : Z) k k' : Prop := {
  rm_step : user_step k k';
  rm_pte : ∀ va, user_addr va →
    if decide (lo ≤ va < hi ∧ pte_at root va k = None)
    then ∃ n, pte_at root va k' = Some (Z.lor (n * 4096) flags) ∧ Z.land (n * 4096) PTE_ADDR_MASK = n * 4096
    else pte_at root va k' = pte_at root va k;
  rm_byte : ∀ va, user_addr va →
    user_byte root va k' = if decide (lo ≤ va < hi ∧ pte_at root va k = None) then Some 0 else user_byte root va k;
  rm_available : Z.of_nat (available k) ≤ (hi - lo) / 1024 + Z.of_nat (available k');
}.

Lemma range_mapped_empty lo flags k : space_own user_half root k → range_mapped lo lo flags k k.
Proof.
  intros Ho. split; [by apply user_step_refl| | |].
  - intros va _. rewrite decide_False by lia. done.
  - intros va _. rewrite decide_False by lia. done.
  - rewrite Z.sub_diag. change (0 / 1024) with 0. lia.
Qed.

Lemma range_mapped_join a b c d lo hi flags k1 k2 k3 :
  (∀ va, lo ≤ va < hi ↔ a ≤ va < b ∨ c ≤ va < d) → (∀ va, a ≤ va < b → ¬ (c ≤ va < d)) →
  (b - a) mod 1024 = 0 → hi - lo = b - a + (d - c) →
  range_mapped a b flags k1 k2 → range_mapped c d flags k2 k3 → range_mapped lo hi flags k1 k3.
Proof.
  intros Hu Hdis Hal Hlen [S1 P1 B1 A1] [S2 P2 B2 A2]. split; [by eapply user_step_trans| | |].
  - intros va Hva. specialize (P1 va Hva). specialize (P2 va Hva). specialize (Hu va). specialize (Hdis va).
    destruct (decide (a ≤ va < b ∧ pte_at root va k1 = None)) as [[Hin Hn]|Hno].
    + destruct P1 as (n & E & Hn'). rewrite decide_True by tauto. rewrite decide_False in P2 by tauto. exists n. by rewrite P2.
    + rewrite P1 in P2. destruct (decide (c ≤ va < d ∧ pte_at root va k1 = None)); [rewrite decide_True by tauto|rewrite decide_False by tauto]; done.
  - intros va Hva. specialize (P1 va Hva). rewrite B2, B1 by done. specialize (Hu va). specialize (Hdis va).
    destruct (decide (a ≤ va < b ∧ pte_at root va k1 = None)) as [[Hin Hn]|Hno].
    + rewrite (decide_True _ _ (P := lo ≤ va < hi ∧ pte_at root va k1 = None)) by tauto. by rewrite decide_False by tauto.
    + rewrite P1. destruct (decide (c ≤ va < d ∧ pte_at root va k1 = None)); [rewrite decide_True by tauto|rewrite decide_False by tauto]; done.
  - assert ((hi - lo) / 1024 = (b - a) / 1024 + (d - c) / 1024) by (rewrite Hlen; zdm). lia.
Qed.

(** A step that leaves words outside tables and free pages alone keeps the
    bytes of the pages whose entries it keeps. *)
Lemma untouched_byte k k' va :
  space_own user_half root k → untouched user_half root k k' → user_addr va →
  pte_at root va k' = pte_at root va k → user_byte root va k' = user_byte root va k.
Proof.
  intros Ho Hu Hva E. pose proof (user_half_addr va Hva) as HI. unfold user_byte. rewrite E.
  destruct (pte_at root va k) as [e|] eqn:He; [|done]. cbn [mbind option_bind]. f_equal. unfold rd8.
  pose proof (frame_aligned _ _ _ _ _ Ho HI He) as Hal. rewrite aligned_word by (done || zdm).
  destruct (frame_not_slot user_half root k va e (va mod 4096 / 8 * 8) Ho HI He) as [H1 H2]; [zdm|].
  by rewrite (Hu _ H1 H2).
Qed.

Lemma page_range va vb : va mod 4096 = 0 → va ≤ vb < va + 4096 ↔ va / 4096 = vb / 4096.
Proof. intros. split; intros; zdm. Qed.

Lemma mapped_fresh_range va flags k k' :
  space_own user_half root k → user_addr va → va mod 4096 = 0 → Z.land flags PTE_ADDR_MASK = 0 →
  pte_at root va k = None → mapped_fresh user_half root va flags k k' → range_mapped va (va + 4096) flags k k'.
Proof.
  intros Ho Hva Hal Hfl Hnone Hm. destruct (mf_frame _ _ _ _ _ _ Hm) as (n & Hn & Hpos & Hpte & Hnm & Hz & _).
  assert (frame (Z.lor (n * 4096) flags) = n * 4096) as Hfr by (unfold frame; rewrite <- Hnm at 1; by rewrite land_lor_flags).
  assert (∀ vb, user_addr vb → va ≤ vb < va + 4096 → pte_at root vb k' = Some (Z.lor (n * 4096) flags) ∧ pte_at root vb k = None) as Hin.
  { intros vb Hvb Hr. assert (same_page va vb) as Hs by (apply user_page_eq; [done|done|]; by apply page_range).
    by rewrite <- !(same_page_pte root va vb). }
  assert (∀ vb, user_addr vb → ¬ (va ≤ vb < va + 4096) → pte_at root vb k' = pte_at root vb k) as Hout.
  { intros vb Hvb Hr. apply (mf_others _ _ _ _ _ _ Hm); [by apply user_half_addr|].
    intros Hs%user_page_eq; [|done|done]. apply Hr. by apply page_range. }
  split.
  - apply region_user_step; [apply Ho|apply Hm|apply Hm| |apply Hm]. intros vb e HI He. destruct (decide (same_page va vb)) as [Hs|Hs].
    + right. rewrite <- (same_page_pte root va vb k' Hs), Hpte in He. injection He as <-. by rewrite Hfr, Z.div_mul by lia.
    + left. by rewrite <- (mf_others _ _ _ _ _ _ Hm vb HI Hs).
  - intros vb Hvb. case_decide as Hd; [exists n; split; [apply (Hin vb Hvb (proj1 Hd))|done]|].
    destruct (decide (va ≤ vb < va + 4096)) as [Hr|Hr]; [|by apply Hout]. destruct Hd. split; [done|]. apply (Hin vb Hvb Hr).
  - intros vb Hvb. case_decide as Hd.
    + destruct (Hin vb Hvb (proj1 Hd)) as [E _]. unfold user_byte. rewrite E. cbn [mbind option_bind]. f_equal.
      rewrite Hfr. unfold rd8. rewrite aligned_word by (apply Z.mod_mul || zdm; lia). rewrite Hz by zdm. apply get_byte_0.
    + apply untouched_byte; [done|apply Hm|done|]. apply Hout; [done|]. intros Hr. destruct Hd. split; [done|]. apply (Hin vb Hvb Hr).
  - replace (va + 4096 - va) with 4096 by lia. change (4096 / 1024) with 4. pose proof (mf_available _ _ _ _ _ _ Hm). lia.
Qed.

(** A page that is there already. *)
Lemma mapped_range va flags k :
  space_own user_half root k → user_addr va → va mod 4096 = 0 → pte_at root va k ≠ None → range_mapped va (va + 4096) flags k k.
Proof.
  intros Ho Hva Hal Hsome. assert (∀ vb, user_addr vb → ¬ (va ≤ vb < va + 4096 ∧ pte_at root vb k = None)) as Hno.
  { intros vb Hvb [Hr Hn]. apply Hsome. rewrite (same_page_pte root va vb); [done|].
    apply user_page_eq; [done|done|]. by apply page_range. }
  split; [by apply user_step_refl| | |].
  - intros vb Hvb. by rewrite decide_False by (by apply Hno).
  - intros vb Hvb. by rewrite decide_False by (by apply Hno).
  - replace (va + 4096 - va) with 4096 by lia. change (4096 / 1024) with 4. lia.
Qed.

Lemma map_failed_step k k' : space_own user_half root k → map_failed user_half root k k' → user_step k k'.
Proof.
  intros Ho Hf. apply region_user_step; [apply Ho|apply Hf|apply Hf| |apply Hf]. intros va e HI He. left.
  by rewrite <- (fl_same _ _ _ _ Hf).
Qed.

Lemma load_pages_ok a flags n k :
  space_own user_half root k → a mod 4096 = 0 → 0 ≤ a → a + Z.of_nat n * 4096 ≤ USER_SPACE_TOP →
  Z.land flags PTE_ADDR_MASK = 0 → tst flags PTE_PRESENT = true →
  match load_pages root a flags n k with
  | inl k' => range_mapped a (a + Z.of_nat n * 4096) flags k k'
  | inr (r, k') => (r = - ENOMEM ∨ r = -1) ∧ user_step k k' ∧ Z.of_nat (available k) < 4 * Z.of_nat n
  end.
Proof.
  intros Ho Hal Ha Hr Hfm Hfp. unfold load_pages.
  apply (for_until_ind (λ i k', range_mapped a (a + i * 4096) flags k k')
    (λ '(r, k'), (r = - ENOMEM ∨ r = -1) ∧ user_step k k' ∧ Z.of_nat (available k) < 4 * Z.of_nat n)).
  { rewrite Z.mul_0_l, Z.add_0_r. by apply range_mapped_empty. }
  intros i k1 Hi Hm. unfold PAGE_SIZE. unfold USER_SPACE_TOP in Hr. rewrite !u64_small by (try rewrite u64_small; lia).
  set (va := a + i * 4096) in *. assert (user_addr va) as Hva by (unfold user_addr, USER_SPACE_TOP, va; lia).
  assert (va mod 4096 = 0) as Hvm by (unfold va; zdm). pose proof (ut_own _ _ (rm_step _ _ _ _ _ Hm)) as Ho1.
  assert (a + (i + 1) * 4096 = va + 4096) as -> by (unfold va; lia).
  assert (∀ k2, range_mapped va (va + 4096) flags k1 k2 → range_mapped a (va + 4096) flags k k2) as Happ.
  { intros k2. apply (range_mapped_join a va va (va + 4096)); [unfold va; lia..|unfold va; zdm|lia|done]. }
  rewrite vmm_get_physical_pte. destruct (pte_at root va k1) as [e|] eqn:He.
  - destruct (frame_physical user_half root va k1 Ho1 (user_half_addr va Hva) e He) as [_ Hpos]. unfold frame in Hpos.
    assert (negb (Z.land e PTE_ADDR_MASK =? 0) = true) as -> by lia. apply Happ, mapped_range; [done|done|done|by rewrite He].
  - cbn [negb Z.eqb]. destruct (map_user_page_cases user_half root va flags k1 Ho1 (user_half_addr va Hva) Hfm Hfp)
      as [(k2 & -> & Hk)|(r & k2 & -> & Hrr & Hav & Hf)].
    + cbn [Z.eqb Z.ltb Z.compare]. by apply Happ, mapped_fresh_range.
    + assert (user_step k k2 ∧ Z.of_nat (available k) < 4 * Z.of_nat n) as Hs.
      { split; [eapply user_step_trans; [apply Hm|by apply map_failed_step]|]. pose proof (rm_available _ _ _ _ _ Hm) as Hav'.
        unfold va in Hav'. replace ((a + i * 4096 - a) / 1024) with (4 * i) in Hav' by zdm. lia. }
      destruct Hrr as [->| ->]; cbn [Z.eqb Z.ltb Z.compare]; (split; [by auto|exact Hs]).
Qed.

(** ** Stores *)

Lemma frame_store_step va e o v k :
  space_own user_half root k → user_addr va → pte_at root va k = Some e → 0 ≤ o < 4096 →
  user_step k (set_mem (wr (k_mem k) (frame e + o) v) k).
Proof.
  intros Ho Hva He Hof. pose proof (user_half_addr va Hva) as HI.
  destruct (store_frame_own root va k e o v Ho Hva He Hof) as [Ho' Hpte]. set (k' := set_mem _ k) in *.
  pose proof (frame_aligned _ _ _ _ _ Ho HI He) as Hal.
  assert (∀ q, path_ok user_half q → VmmWalk.walk (k_mem k') root q = VmmWalk.walk (k_mem k) root q) as Hw.
  { intros q. apply slots_walk. intros a Ha. apply (rd_wr_ne (k_mem k)). intros E. subst a.
    by destruct (frame_not_slot user_half root k va e o Ho HI He Hof). }
  split; [done| |done]. intros x [[Hs Hf] Hfr]. split; [split|].
  - split; [|done]. intros Hs'. by apply Hs, (slot_of_walk _ _ _ k').
  - intros vb e' HI'. rewrite Hpte by done. by apply Hfr.
  - apply (rd_wr_ne (k_mem k)). intros E. subst x. apply (Hfr va e HI He). by rewrite page_of_offset.
Qed.

(** The bytes from [lo] on are [f 0], [f 1], ... *)
Record bytes_written (lo n : Z) (f : Z → Z) k k' : Prop := {
  bw_step : user_step k k';
  bw_pte : ∀ va, user_half (PML4_INDEX va) → pte_at root va k' = pte_at root va k;
  bw_pmm : k_pmm k' = k_pmm k;
  bw_byte : ∀ va, user_addr va →
    user_byte root va k' = if decide (lo ≤ va < lo + n) then Some (f (va - lo)) else user_byte root va k;
}.

Lemma bytes_written_none lo f k : space_own user_half root k → bytes_written lo 0 f k k.
Proof. intros Ho. split; [by apply user_step_refl|done|done|]. intros va _. by rewrite decide_False by lia. Qed.

Lemma bytes_written_app lo n n' f g k1 k2 k3 :
  0 ≤ n → 0 ≤ n' → (∀ i, 0 ≤ i < n' → g i = f (n + i)) →
  bytes_written lo n f k1 k2 → bytes_written (lo + n) n' g k2 k3 → bytes_written lo (n + n') f k1 k3.
Proof.
  intros Hn Hn' Hg [S1 P1 M1 B1] [S2 P2 M2 B2]. split; [by eapply user_step_trans|intros; by rewrite P2, P1|congruence|].
  intros va Hva. rewrite B2 by done. case_decide as Hd.
  - rewrite decide_True by lia. rewrite Hg by lia. do 2 f_equal. lia.
  - rewrite B1 by done. destruct (decide (lo ≤ va < lo + n)); [by rewrite decide_True by lia|by rewrite decide_False by lia].
Qed.

Lemma byte_written va e b k :
  space_own user_half root k → user_addr va → pte_at root va k = Some e → 0 ≤ b < 256 →
  bytes_written va 1 (λ _, b) k (set_mem (wr8 (k_mem k) (frame e + va mod 4096) b) k).
Proof.
  intros Ho Hva He Hb. destruct (store_byte_ok root va k e b Ho Hva He Hb) as (_ & Hpte & Hby).
  pose proof (frame_aligned _ _ _ _ _ Ho (user_half_addr va Hva) He) as Hal. split; [|done|done|].
  - unfold wr8. rewrite aligned_word by (done || zdm). apply (frame_store_step va e); [done|done|done|zdm].
  - intros vb Hvb. rewrite Hby by done. destruct (decide (vb = va)) as [->|]; [by rewrite decide_True by lia|by rewrite decide_False by lia].
Qed.

(** [copy_bytes] inside one page. *)
Lemma copy_bytes_ok m va e src n k :
  space_own user_half root k → user_addr va → pte_at root va k = Some e → (∀ a, 0 ≤ rd m a < 256) →
  va mod 4096 + Z.of_nat n ≤ 4096 →
  bytes_written va (Z.of_nat n) (λ i, rd m (src + i)) k (copy_bytes m (frame e + va mod 4096) src n k).
Proof.
  intros Ho Hva He Hm Hn. unfold copy_bytes.
  apply (for_loop_ind0 (λ i f, bytes_written va i (λ j, rd m (src + j)) k (set_mem f k)) n _ (k_mem k)).
  - assert (set_mem (k_mem k) k = k) as -> by (by destruct k). by apply bytes_written_none.
  - intros i f Hi Hw. set (k1 := set_mem f k) in *.
    assert (user_addr (va + i)) as Hvi by (unfold user_addr, USER_SPACE_TOP in *; zdm).
    assert (pte_at root (va + i) k1 = Some e) as He1.
    { rewrite (bw_pte _ _ _ _ _ Hw) by (by apply user_half_addr). rewrite <- (same_page_pte root va (va + i)); [done|].
      apply user_page_eq; [done|done|]. zdm. }
    apply (bytes_written_app va i 1 _ (λ _, rd m (src + i)) k k1); [lia|lia| |done|].
    { intros j Hj. by replace j with 0 by lia; rewrite Z.add_0_r. }
    pose proof (byte_written (va + i) e (rd m (src + i)) k1 (ut_own _ _ (bw_step _ _ _ _ _ Hw)) Hvi He1 (Hm _)) as Hb.
    replace ((va + i) mod 4096) with (va mod 4096 + i) in Hb by zdm. by rewrite Z.add_assoc in Hb.
Qed.

Lemma align_down_page a : 0 ≤ a < 2 ^ 64 → ALIGN_DOWN a PAGE_SIZE = a / 4096 * 4096.
Proof. apply page_mask_page. Qed.

Lemma copy_segment_ok m fuel : ∀ src n va k,
  space_own user_half root k → (∀ a, 0 ≤ rd m a < 256) → 0 ≤ n → 0 ≤ va → va + n ≤ USER_SPACE_TOP → 0 ≤ src → src + n < 2 ^ 64 →
  n = 0 ∨ va mod 4096 + n ≤ 4096 * Z.of_nat fuel → (∀ i, 0 ≤ i < n → pte_at root (va + i) k ≠ None) →
  ∃ k', copy_segment fuel m root src n va k = (0, k') ∧ bytes_written va n (λ i, rd m (src + i)) k k'.
Proof.
  induction fuel as [|fuel IH]; intros src n va k Ho Hm Hn Hva Htop Hsrc Hs64 Hf Hmap; cbn [copy_segment].
  { exists k. split; [done|]. assert (n = 0) as -> by (pose proof (Z.mod_pos_bound va 4096); lia). by apply bytes_written_none. }
  destruct (Z.eqb_spec n 0) as [->|Hn0]; [exists k; split; [done|by apply bytes_written_none]|].
  unfold USER_SPACE_TOP in Htop. rewrite align_down_page by lia. unfold PAGE_SIZE.
  set (page := va / 4096 * 4096). assert (user_addr va ∧ user_addr page) as [Hvu Hpu] by (unfold user_addr, USER_SPACE_TOP, page; zdm).
  assert (va - page = va mod 4096) as -> by (unfold page; zdm).
  destruct (pte_at root va k) as [e|] eqn:He; [|destruct (Hmap 0); [lia|by rewrite Z.add_0_r]].
  assert (pte_at root page k = Some e) as Hep.
  { rewrite <- He. apply same_page_pte, user_page_eq; [done|done|]. unfold page. zdm. }
  destruct (frame_physical user_half root page k Ho (user_half_addr page Hpu) e Hep) as [-> Hpos].
  assert ((frame e =? 0) = false) as -> by lia.
  set (c := if n <? 4096 - va mod 4096 then n else 4096 - va mod 4096).
  assert (0 < c ≤ n ∧ va mod 4096 + c ≤ 4096 ∧ (c = n ∨ va mod 4096 + c = 4096)) as (Hc & Hcp & Hcc)
    by (unfold c; pose proof (Z.mod_pos_bound va 4096); case_match; lia).
  pose proof (copy_bytes_ok m va e src (Z.to_nat c) k Ho Hvu He Hm) as Hw. rewrite Z2Nat.id in Hw by lia. specialize (Hw Hcp).
  set (k1 := copy_bytes m (frame e + va mod 4096) src (Z.to_nat c) k) in *. rewrite !u64_small by lia.
  destruct (IH (src + c) (n - c) (va + c) k1) as (k2 & E & Hw2); try (done || lia).
  - apply (ut_own _ _ (bw_step _ _ _ _ _ Hw)).
  - unfold USER_SPACE_TOP. lia.
  - destruct Hcc as [->|Hcc]; [left; lia|right]. assert ((va + c) mod 4096 = 0) by zdm. lia.
  - intros i Hi. rewrite (bw_pte _ _ _ _ _ Hw) by (apply user_half_addr; unfold USER_SPACE_TOP; lia).
    rewrite <- Z.add_assoc. apply Hmap. lia.
  - exists k2. split; [done|]. replace n with (c + (n - c)) by lia.
    eapply bytes_written_app; [lia|lia| |exact Hw|exact Hw2]. intros i _. by rewrite Z.add_assoc.
Qed.
End Loader.
