(* ===== verification/ElfSpec.v ===== *)
(** * What the program loader promises *)
From S2P Require Import Prelude Pmm Page Vmm VmmWalk VmmMap VmmProps VmmCow UserMem FaultProps UserBytes.
From S2P Require Import Heap HeapInv HeapProps HeapSpec Alloc Kthread Vfs Process Elf ElfProps.
Local Open Scope Z_scope.

(** ** The image of a program *)

Definition loadable (p : Elf64_Phdr) : Prop := p_type p = PT_LOAD ∧ p_memsz p ≠ 0.

#[global] Instance loadable_dec p : Decision (loadable p).
Proof. unfold loadable. apply _. Defined.

(** Pages of a segment. *)
Definition seg_lo (p : Elf64_Phdr) : Z := p_vaddr p / 4096 * 4096.
Definition seg_hi (p : Elf64_Phdr) : Z := (p_vaddr p + p_memsz p + 4095) / 4096 * 4096.
Definition seg_pages (p : Elf64_Phdr) : Z := (seg_hi p - seg_lo p) / 4096.

(** A segment inside the user half and inside the file. *)
Record seg_ok (size : Z) (p : Elf64_Phdr) : Prop := {
  sg_vaddr : 0 ≤ p_vaddr p;
  sg_top : p_vaddr p + p_memsz p ≤ USER_SPACE_TOP;
  sg_sizes : 0 ≤ p_filesz p ≤ p_memsz p;
  sg_file : 0 ≤ p_offset p ∧ p_offset p + p_filesz p ≤ size;
}.

(** The program headers in the file, and the segments to load. *)
Definition phdr_nth (m : gmap Z Z) (data : Z) (i : Z) : Elf64_Phdr :=
  phdr_at m (u64 (u64 (data + e_phoff (ehdr_at m data)) + i * sizeof_Phdr)).

Definition segments (m : gmap Z Z) (data n : Z) : list Elf64_Phdr := filter loadable (phdr_nth m data <$> seqZ 0 n).

(** What a byte becomes when [p] is loaded: file data, zero on a new page, or
    what it was. *)
Definition seg_byte (m : gmap Z Z) (data va : Z) (old : option Z) (p : Elf64_Phdr) : option Z :=
  if decide (p_vaddr p ≤ va < p_vaddr p + p_filesz p) then Some (rd m (data + p_offset p + (va - p_vaddr p)))
  else if decide (seg_lo p ≤ va < seg_hi p) then Some (default 0 old) else old.

Definition image (m : gmap Z Z) (data va : Z) (ps : list Elf64_Phdr) (old : option Z) : option Z :=
  foldl (seg_byte m data va) old ps.

(** A page has the flags of the first segment that covers it. *)
Definition image_flags (va : Z) (ps : list Elf64_Phdr) : option Z :=
  foldl (λ fl p, match fl with
    | Some f => Some f
    | None => if decide (seg_lo p ≤ va < seg_hi p) then Some (seg_flags p) else None
    end) None ps.

Definition total_seg_pages (ps : list Elf64_Phdr) : Z := foldr (λ p n, seg_pages p + n) 0 ps.

Lemma seg_flags_ok p : Z.land (seg_flags p) PTE_ADDR_MASK = 0 ∧ tst (seg_flags p) PTE_PRESENT = true.
Proof. unfold seg_flags. by repeat case_match. Qed.

Lemma seg_bounds size p : seg_ok size p → p_memsz p ≠ 0 →
  seg_lo p mod 4096 = 0 ∧ 0 ≤ seg_lo p ≤ p_vaddr p ∧ p_vaddr p + p_memsz p ≤ seg_hi p ∧ seg_hi p ≤ USER_SPACE_TOP ∧
  seg_lo p + seg_pages p * 4096 = seg_hi p ∧ 0 ≤ seg_pages p.
Proof.
  intros [Hv Ht Hs _] Hm. unfold seg_pages, seg_lo, seg_hi, USER_SPACE_TOP in *.
  set (v := p_vaddr p) in *. set (n := p_memsz p) in *.
  assert ((v + n + 4095) / 4096 * 4096 - v / 4096 * 4096 = ((v + n + 4095) / 4096 - v / 4096) * 4096) as -> by lia.
  rewrite Z.div_mul by lia. split_and!; zdm.
Qed.

Section Load.
Context (m : gmap Z Z) (root data size : Z).
Implicit Types k : kmem.

(** [k'] is [k] with the segments [ps] loaded. *)
Record loaded (ps : list Elf64_Phdr) k k' : Prop := {
  ld_step : user_step root k k';
  ld_byte : ∀ va, user_addr va → user_byte root va k' = image m data va ps (user_byte root va k);
  ld_pte : ∀ va, user_addr va →
    match pte_at root va k, image_flags va ps with
    | Some e, _ => pte_at root va k' = Some e
    | None, Some fl => ∃ n, pte_at root va k' = Some (Z.lor (n * 4096) fl) ∧ Z.land (n * 4096) PTE_ADDR_MASK = n * 4096
    | None, None => pte_at root va k' = None
    end;
  ld_available : Z.of_nat (available k) ≤ 4 * total_seg_pages ps + Z.of_nat (available k');
}.

Lemma loaded_nil k : space_own user_half root k → loaded [] k k.
Proof.
  intros Ho. split; [by apply user_step_refl|done| |cbn; lia]. intros va _. by destruct (pte_at root va k).
Qed.

Lemma user_byte_none va k : user_byte root va k = None ↔ pte_at root va k = None.
Proof. unfold user_byte. by destruct (pte_at root va k). Qed.

Lemma total_seg_pages_snoc ps p : total_seg_pages (ps ++ [p]) = total_seg_pages ps + seg_pages p.
Proof. induction ps as [|q ps IH]; cbn; [lia|]. unfold total_seg_pages in IH. rewrite IH. lia. Qed.

Lemma loaded_snoc ps p k k1 k2 k3 :
  seg_ok size p → p_memsz p ≠ 0 → loaded ps k k1 → range_mapped root (seg_lo p) (seg_hi p) (seg_flags p) k1 k2 →
  bytes_written root (p_vaddr p) (p_filesz p) (λ i, rd m (data + p_offset p + i)) k2 k3 → loaded (ps ++ [p]) k k3.
Proof.
  intros Hp Hm0 Hl Hr Hw. destruct (seg_bounds size p Hp Hm0) as (_ & _ & Hhi & _ & Hpg & _). split.
  - eapply user_step_trans; [apply Hl|]. eapply user_step_trans; [apply Hr|apply Hw].
  - intros va Hva. unfold image. rewrite foldl_app. cbn [foldl]. change (foldl _ _ ps) with (image m data va ps (user_byte root va k)).
    rewrite <- (ld_byte _ _ _ Hl va Hva), (bw_byte _ _ _ _ _ _ Hw va Hva), (rm_byte _ _ _ _ _ _ Hr va Hva). unfold seg_byte.
    case_decide; [done|]. pose proof (user_byte_none va k1) as Hn.
    destruct (decide (seg_lo p ≤ va < seg_hi p)) as [Hin|Hin].
    + destruct (pte_at root va k1) as [e|] eqn:E; [rewrite decide_False by naive_solver|by rewrite decide_True, (proj2 Hn)].
      destruct (user_byte root va k1); [done|]. by discriminate (proj1 Hn).
    + by rewrite decide_False by naive_solver.
  - intros va Hva. pose proof (ld_pte _ _ _ Hl va Hva) as Hp1. pose proof (rm_pte _ _ _ _ _ _ Hr va Hva) as Hp2.
    rewrite (bw_pte _ _ _ _ _ _ Hw va) by (by apply user_half_addr).
    unfold image_flags. rewrite foldl_app. cbn [foldl]. change (foldl _ None ps) with (image_flags va ps).
    destruct (pte_at root va k) as [e|] eqn:E; [rewrite Hp1, decide_False in Hp2 by naive_solver; by rewrite Hp2|].
    destruct (image_flags va ps) as [fl|].
    + destruct Hp1 as (n & En & Hn). rewrite En, decide_False in Hp2 by naive_solver. exists n. by rewrite Hp2.
    + rewrite Hp1 in Hp2. destruct (decide (seg_lo p ≤ va < seg_hi p)) as [Hin|Hin].
      * by rewrite decide_True in Hp2.
      * by rewrite decide_False in Hp2 by naive_solver.
  - rewrite total_seg_pages_snoc. pose proof (ld_available _ _ _ Hl). pose proof (rm_available _ _ _ _ _ _ Hr).
    unfold available in *. rewrite (bw_pmm _ _ _ _ _ _ Hw). fold (available k2) in *. replace ((seg_hi p - seg_lo p) / 1024) with (4 * seg_pages p) in * by (zdm). lia.
Qed.

(** ** The loop over the program headers *)

Hypothesis Hbytes : ∀ a, 0 ≤ rd m a < 256.
Hypothesis Hdata : 0 < data ∧ 0 ≤ size ∧ data + size < 2 ^ 64.

Definition highest (ps : list Elf64_Phdr) : Z := foldl (λ n p, Z.max n (p_vaddr p + p_memsz p)) 0 ps.

(** What the loader reports about the segments [ps]. *)
Record info_ok (ps : list Elf64_Phdr) (info : elf_info) : Prop := {
  in_entry : entry info = e_entry (ehdr_at m data);
  in_phnum : phnum info = e_phnum (ehdr_at m data);
  in_brk : info_brk_start info = highest ps;
  in_phdr : phdr_addr info = 0 ∨ ∃ p, p ∈ ps ∧ p_offset p = 0 ∧ phdrs_end (ehdr_at m data) ≤ p_filesz p ∧
    phdr_addr info = u64 (p_vaddr p + e_phoff (ehdr_at m data));
}.

Lemma align_up_page a : 0 ≤ a < 2 ^ 63 → ALIGN_UP a PAGE_SIZE = (a + 4095) / 4096 * 4096.
Proof.
  intros Ha. unfold ALIGN_UP, PAGE_SIZE. rewrite u64_small by lia. replace (a + 4096 - 1) with (a + 4095) by lia.
  apply page_mask_page. lia.
Qed.

(** The pages of a segment in the arithmetic of the code. *)
Lemma segment_range p :
  seg_ok size p → p_memsz p ≠ 0 →
  ALIGN_DOWN (p_vaddr p) PAGE_SIZE = seg_lo p ∧ u64 (p_vaddr p + p_memsz p) = p_vaddr p + p_memsz p ∧
  u64 (ALIGN_UP (p_vaddr p + p_memsz p) PAGE_SIZE - seg_lo p) / PAGE_SIZE = seg_pages p.
Proof.
  intros Hp Hm0. destruct (seg_bounds size p Hp Hm0) as (_ & Hlo & Hhi & Htop & _). destruct Hp as [Hv Ht Hs _].
  unfold USER_SPACE_TOP in *. rewrite align_down_page by lia. rewrite align_up_page by lia. fold (seg_hi p).
  rewrite !u64_small by lia. done.
Qed.

(** The data of a segment whose pages are there. *)
Lemma segment_copy p k :
  seg_ok size p → p_memsz p ≠ 0 → space_own user_half root k → (∀ va, seg_lo p ≤ va < seg_hi p → pte_at root va k ≠ None) →
  ∃ k', (if 0 <? p_filesz p
         then copy_segment (copy_fuel (p_filesz p)) m root (u64 (data + p_offset p)) (p_filesz p) (p_vaddr p) k
         else (0, k)) = (0, k') ∧
    bytes_written root (p_vaddr p) (p_filesz p) (λ i, rd m (data + p_offset p + i)) k k'.
Proof.
  intros Hp Hm0 Ho Hmap. destruct (seg_bounds size p Hp Hm0) as (_ & Hlo & Hhi & _). destruct Hp as [Hv Ht Hs Hf].
  destruct (Z.ltb_spec 0 (p_filesz p)) as [Hpos|Hz].
  - rewrite u64_small by lia. apply copy_segment_ok; try (done || lia).
    + right. unfold copy_fuel, PAGE_SIZE. rewrite Z2Nat.id by zdm. zdm.
    + intros i Hi. apply Hmap. lia.
  - exists k. split; [done|]. assert (p_filesz p = 0) as -> by lia. by apply bytes_written_none.
Qed.

Lemma info_snoc ps info p :
  info_ok ps info → seg_ok size p → p_memsz p ≠ 0 →
  info_ok (ps ++ [p]) (ElfInfo (entry info)
    (if (phdr_addr info =? 0) && (p_offset p =? 0) && (phdrs_end (ehdr_at m data) <=? p_filesz p)
     then u64 (p_vaddr p + e_phoff (ehdr_at m data)) else phdr_addr info)
    (phnum info)
    (if info_brk_start info <? p_vaddr p + p_memsz p then p_vaddr p + p_memsz p else info_brk_start info)).
Proof.
  intros [H1 H2 H3 H4] Hp Hm0. split; cbn [entry phnum info_brk_start phdr_addr]; [done|done| |].
  - unfold highest. rewrite foldl_app. cbn [foldl]. rewrite H3. unfold highest. case_match; lia.
  - destruct ((phdr_addr info =? 0) && (p_offset p =? 0) && (phdrs_end (ehdr_at m data) <=? p_filesz p)) eqn:E.
    + right. exists p. split_and!; [set_solver|lia|lia|done].
    + destruct H4 as [|(q & Hq & Hrest)]; [by left|right]. exists q. split; [set_solver|done].
Qed.

Lemma segments_next n : 0 ≤ n →
  segments m data (n + 1) = segments m data n ++ (if decide (loadable (phdr_nth m data n)) then [phdr_nth m data n] else []).
Proof.
  intros Hn. unfold segments. rewrite seqZ_app by lia. rewrite fmap_app, list.filter_app. f_equal.
Qed.

Lemma load_segment_ok i info k k1 :
  let p := phdr_nth m data i in
  let ps := segments m data i in
  let ps' := segments m data (i + 1) in
  0 ≤ i → (loadable p → seg_ok size p) → space_own user_half root k1 → loaded ps k k1 → info_ok ps info →
  match load_segment m root data size (ehdr_at m data) i (info, k1) with
  | inl (info', k') => loaded ps' k k' ∧ info_ok ps' info'
  | inr (r, info', k') => (r = - ENOMEM ∨ r = -1) ∧ user_step root k k' ∧ Z.of_nat (available k) < 4 * total_seg_pages ps'
  end.
Proof.
  intros p ps ps' Hi Hok Ho Hl Hinfo. unfold ps', load_segment. rewrite segments_next by done. fold p ps. change (phdr_at m _) with p.
  destruct (Z.eqb_spec (p_type p) PT_LOAD) as [Ht|Ht]; cbn [negb];
    [|rewrite decide_False, app_nil_r by (by intros []); by split].
  destruct (Z.eqb_spec (p_memsz p) 0) as [Hm0|Hm0]; [rewrite decide_False, app_nil_r by (by intros []); by split|].
  assert (loadable p) as Hld by done. rewrite decide_True by done. specialize (Hok Hld).
  destruct (seg_bounds size p Hok Hm0) as (Hal & Hlo & Hhi & Htop & Hpg & Hpn). destruct (segment_range p Hok Hm0) as (-> & -> & ->).
  pose proof (sg_top _ _ Hok) as Hvt. pose proof (sg_sizes _ _ Hok) as Hsz. pose proof (sg_vaddr _ _ Hok) as Hv.
  assert ((0x800000000000 <=? p_vaddr p) = false) as -> by (unfold USER_SPACE_TOP in *; lia).
  destruct (seg_flags_ok p) as [Hf1 Hf2].
  pose proof (load_pages_ok root (seg_lo p) (seg_flags p) (Z.to_nat (seg_pages p)) k1 Ho Hal ltac:(lia)) as Hlp.
  rewrite Z2Nat.id, Hpg in Hlp by done. specialize (Hlp Htop Hf1 Hf2).
  destruct (load_pages root (seg_lo p) (seg_flags p) (Z.to_nat (seg_pages p)) k1) as [k2|[r k2]].
  - pose proof (sg_file _ _ Hok) as Hfile.
    assert ((0 <? p_filesz p) && (size <? u64 (p_offset p + p_filesz p)) = false) as -> by (rewrite u64_small by lia; lia).
    destruct (segment_copy p k2 Hok Hm0 (ut_own _ _ _ (rm_step _ _ _ _ _ _ Hlp))) as (k3 & -> & Hw).
    { intros va Hva. pose proof (rm_pte _ _ _ _ _ _ Hlp va ltac:(unfold user_addr, USER_SPACE_TOP in *; lia)) as Hpt.
      case_decide as Hd; [by destruct Hpt as (n & -> & _)|]. rewrite Hpt. naive_solver. }
    cbn [Z.ltb Z.compare]. split; [by apply (loaded_snoc ps p k k1 k2 k3)|by apply info_snoc].
  - destruct Hlp as (Hr & Hst & Hav). split_and!; [done|eapply user_step_trans; [apply Hl|done]|].
    rewrite total_seg_pages_snoc. pose proof (ld_available _ _ _ Hl). lia.
Qed.

(** The number of pages only grows. *)
Lemma segments_prefix i n : 0 ≤ i ≤ n → ∃ qs, segments m data n = segments m data i ++ qs.
Proof.
  intros Hi. exists (filter loadable (phdr_nth m data <$> seqZ i (n - i))). unfold segments.
  rewrite <- list.filter_app, <- fmap_app. do 2 f_equal. replace n with (i + (n - i)) at 1 by lia. by rewrite seqZ_app by lia.
Qed.

Lemma total_seg_pages_app ps qs : total_seg_pages (ps ++ qs) = total_seg_pages ps + total_seg_pages qs.
Proof. induction ps as [|p ps IH]; [done|]. unfold total_seg_pages in *. cbn. rewrite IH. lia. Qed.

Lemma total_seg_pages_pos ps : Forall (seg_ok size) ps → Forall loadable ps → 0 ≤ total_seg_pages ps.
Proof.
  induction 1 as [|p ps Hp _ IH]; [done|]. intros [Hl Hls]%Forall_cons_1. unfold total_seg_pages in *. cbn.
  destruct (seg_bounds size p Hp (proj2 Hl)) as (_ & _ & _ & _ & _ & ?). specialize (IH Hls). lia.
Qed.

Lemma highest_bound ps : Forall (seg_ok size) ps → 0 ≤ highest ps < 2 ^ 63.
Proof.
  unfold highest. cut (∀ n, 0 ≤ n < 2 ^ 63 → Forall (seg_ok size) ps →
    0 ≤ foldl (λ n p, Z.max n (p_vaddr p + p_memsz p)) n ps < 2 ^ 63); [intros Hg; apply Hg; lia|].
  induction ps as [|p ps IH]; intros n Hn Hps; cbn [foldl]; [done|]. apply Forall_cons_1 in Hps as [Hp Hps]. apply IH; [|done].
  pose proof (sg_top _ _ Hp). pose proof (sg_vaddr _ _ Hp). pose proof (sg_sizes _ _ Hp). unfold USER_SPACE_TOP in *. lia.
Qed.

(** One round, seen from the whole list of segments. *)
Lemma segment_step n i info k k1 :
  0 ≤ i < n → Forall (seg_ok size) (segments m data n) →
  loaded (segments m data i) k k1 → info_ok (segments m data i) info →
  match load_segment m root data size (ehdr_at m data) i (info, k1) with
  | inl (info', k') => loaded (segments m data (i + 1)) k k' ∧ info_ok (segments m data (i + 1)) info'
  | inr (r, info', k') => (r = - ENOMEM ∨ r = -1) ∧ user_step root k k' ∧
      Z.of_nat (available k) < 4 * total_seg_pages (segments m data n)
  end.
Proof.
  intros Hi Hps Hl Hin. destruct (segments_prefix (i + 1) n ltac:(lia)) as [qs Eq]. pose proof Hps as Hps'. rewrite Eq in Hps'.
  apply Forall_app in Hps' as [Hps1 Hps2]. assert (Forall loadable qs) as Hlq.
  { apply Forall_forall. intros q Hq. assert (q ∈ segments m data n) as Hqn by (rewrite Eq; apply elem_of_app; right; by apply list_elem_of_In).
    by apply list_elem_of_filter in Hqn as [? _]. }
  assert (loadable (phdr_nth m data i) → seg_ok size (phdr_nth m data i)) as Hok.
  { intros Hld. rewrite segments_next, decide_True in Hps1 by (done || lia). by apply Forall_app in Hps1 as [_ [? _]%Forall_cons_1]. }
  pose proof (load_segment_ok i info k k1 ltac:(lia) Hok (ut_own _ _ _ (ld_step _ _ _ Hl)) Hl Hin) as Hs.
  destruct (load_segment _ _ _ _ _ _ _) as [[info' k']|[[r info'] k']]; [done|]. destruct Hs as (? & ? & ?).
  split_and!; [done|done|]. rewrite Eq, total_seg_pages_app. pose proof (total_seg_pages_pos qs Hps2 Hlq). lia.
Qed.

Lemma elf_validate_phnum : elf_validate m data size = 0 → phdrs_end (ehdr_at m data) ≤ size ∧ 0 ≤ e_phnum (ehdr_at m data).
Proof.
  intros Hv. split.
  - unfold elf_validate in Hv. repeat (case_match; [done|]). lia.
  - change (e_phnum (ehdr_at m data)) with (rd m (data + 56) + 256 * (rd m (data + 56 + 1) + 256 * 0)).
    pose proof (Hbytes (data + 56)). pose proof (Hbytes (data + 56 + 1)). lia.
Qed.
End Load.

(** What a load gives: [res] is the result of [elf_load]. *)
Definition load_result (m : gmap Z Z) (root data : Z) (k : kmem) (res : Z * option elf_info * kmem) : Prop :=
  let h := ehdr_at m data in
  let ps := segments m data (e_phnum h) in
  ∃ r info k', res = (r, Some info, k') ∧ user_step root k k' ∧
    ((r = 0 ∧ loaded m root data ps k k' ∧ entry info = e_entry h ∧ phnum info = e_phnum h ∧
      info_brk_start info = (highest ps + 4095) / 4096 * 4096 ∧
      (phdr_addr info = 0 ∨ ∃ p, p ∈ ps ∧ p_offset p = 0 ∧ phdrs_end h ≤ p_filesz p ∧ phdr_addr info = u64 (p_vaddr p + e_phoff h))) ∨
     ((r = - ENOMEM ∨ r = -1) ∧ Z.of_nat (available k) < 4 * total_seg_pages ps)).

Lemma elf_load_ok m root data size info0 k :
  (∀ a, 0 ≤ rd m a < 256) → 0 < data ∧ 0 ≤ size ∧ data + size < 2 ^ 64 → elf_validate m data size = 0 →
  Forall (seg_ok size) (segments m data (e_phnum (ehdr_at m data))) → space_own user_half root k →
  load_result m root data k (elf_load m (Some root) data size (Some info0) k).
Proof.
  intros Hb Hd Hv Hps Ho. unfold load_result, elf_load. set (h := ehdr_at m data) in *. set (ps := segments m data (e_phnum h)) in *. assert ((data =? 0) = false) as -> by lia. rewrite Hv. cbn [Z.ltb Z.compare].
  destruct (elf_validate_phnum m data size Hb Hd Hv) as [_ Hn]. fold h in Hn.
  pose proof (for_until_ind
    (λ i st, loaded m root data (segments m data i) k st.2 ∧ info_ok m data (segments m data i) st.1)
    (λ '(r, _, k'), (r = - ENOMEM ∨ r = -1) ∧ user_step root k k' ∧ Z.of_nat (available k) < 4 * total_seg_pages ps)
    (Z.to_nat (e_phnum h)) 0 (load_segment m root data size h) (ElfInfo (e_entry h) 0 (e_phnum h) 0, k)) as Hloop.
  rewrite Z2Nat.id, Z.add_0_l in Hloop by done.
  assert (loaded m root data [] k k ∧ info_ok m data [] (ElfInfo (e_entry h) 0 (e_phnum h) 0)) as H0
    by (split; [by apply loaded_nil|split; [done|done|done|by left]]).
  specialize (Hloop H0 ltac:(intros i [info k1] Hi [Hl Hin];
    pose proof (segment_step m root data size Hb Hd (e_phnum h) i info k k1 Hi Hps Hl Hin) as Hs;
    fold h in Hs; by destruct (load_segment _ _ _ _ _ _ _) as [[]|])).
  destruct (for_until _ _ _ _) as [[info k']|[[r info] k']].
  - destruct Hloop as [Hl [E1 E2 E3 E4]]. cbn [fst snd] in *. eexists _, _, k'. split; [reflexivity|]. split; [apply Hl|]. left.
    cbn [entry phnum info_brk_start phdr_addr]. split_and!; try done. rewrite E3. apply align_up_page. apply (highest_bound size). exact Hps.
  - destruct Hloop as (Hr & Hst & Hav). eexists _, _, k'. split; [reflexivity|]. split; [done|]. by right.
Qed.

