(* ===== verification/ElfStack.v ===== *)
(** * What the initial stack of a program holds *)
From S2P Require Import Prelude Pmm Page Vmm VmmWalk VmmMap VmmProps VmmCow UserMem FaultProps UserBytes.
From S2P Require Import Heap HeapInv HeapProps HeapSpec Alloc Kthread Vfs Process Elf ElfProps.
Local Open Scope Z_scope.

(** The bytes of strings with their terminators. *)
Definition flat (strs : list (list Z)) : list Z := concat ((λ s, s ++ [0]) <$> strs).

(** Where the strings start when the first is at [base]. *)
Fixpoint starts (base : Z) (strs : list (list Z)) : list Z :=
  match strs with
  | [] => []
  | s :: strs => base :: starts (base + Z.of_nat (length s) + 1) strs
  end.

Definition bytes_ok (s : list Z) : Prop := Forall (λ b, 0 ≤ b < 256) s.

Definition list_byte (l : list Z) (i : Z) : Z := nth (Z.to_nat i) l 0.

Lemma list_byte_app_l l l' i : 0 ≤ i < Z.of_nat (length l) → list_byte (l ++ l') i = list_byte l i.
Proof. intros Hi. unfold list_byte. apply app_nth1. lia. Qed.

Lemma list_byte_app_r l l' i : 0 ≤ i → list_byte (l ++ l') (Z.of_nat (length l) + i) = list_byte l' i.
Proof. intros Hi. unfold list_byte. rewrite app_nth2 by lia. f_equal. lia. Qed.

Lemma flat_app l l' : flat (l ++ l') = flat l ++ flat l'.
Proof. unfold flat. by rewrite fmap_app, concat_app. Qed.

Lemma flat_cons s l : flat (s :: l) = (s ++ [0]) ++ flat l.
Proof. done. Qed.

Lemma starts_app base l l' : starts base (l ++ l') = starts base l ++ starts (base + Z.of_nat (length (flat l))) l'.
Proof.
  revert base. induction l as [|s l IH]; intros base; cbn [starts app]; [cbn; by rewrite Z.add_0_r|].
  rewrite IH, flat_cons, !length_app. cbn [length]. do 3 f_equal. lia.
Qed.

Lemma starts_length base l : length (starts base l) = length l.
Proof. revert base. induction l; intros; cbn; auto. Qed.

Lemma strings_size_flat strs : Z.of_nat (length (flat strs)) < 2 ^ 64 → strings_size strs = Z.of_nat (length (flat strs)).
Proof.
  assert (∀ n, 0 ≤ n → n + Z.of_nat (length (flat strs)) < 2 ^ 64 →
    foldl (λ n s, u64 (n + Z.of_nat (length s) + 1)) n strs = n + Z.of_nat (length (flat strs))) as H.
  { induction strs as [|s l IH]; intros n Hn; [cbn; lia|].
    rewrite flat_cons, !length_app. cbn [length foldl]. intros Hl. rewrite u64_small by lia. rewrite IH by lia. lia. }
  intros Hl. unfold strings_size. rewrite H by lia. lia.
Qed.

Section Stack.
Context (root : Z).
Implicit Types k : kmem.

(** A string in user memory. *)
Definition string_at k (va : Z) (s : list Z) : Prop :=
  ∀ i, 0 ≤ i ≤ Z.of_nat (length s) → user_byte root (va + i) k = Some (list_byte (s ++ [0]) i).

(** Consecutive words in user memory. *)
Definition words_at k (va : Z) (ws : list Z) : Prop :=
  ∀ i w, ws !! i = Some w → user_word root (va + 8 * Z.of_nat i) k = Some w.

Lemma strings_at k base strs :
  (∀ i, 0 ≤ i < Z.of_nat (length (flat strs)) → user_byte root (base + i) k = Some (list_byte (flat strs) i)) →
  Forall2 (string_at k) (starts base strs) strs.
Proof.
  revert base. induction strs as [|s l IH]; intros base H; cbn [starts]; [constructor|]. rewrite flat_cons, length_app in H.
  assert (length (s ++ [0]) = S (length s)) as Hl by (rewrite length_app; cbn; lia). constructor.
  - intros i Hi. rewrite H by lia. by rewrite list_byte_app_l by lia.
  - apply IH. intros i Hi. rewrite <- list_byte_app_r with (l := s ++ [0]) by lia. rewrite <- H by lia. f_equal. lia.
Qed.

(** ** The steps *)

Definition mapped k (lo n : Z) : Prop := ∀ va, lo ≤ va < lo + n → user_addr va ∧ pte_at root va k ≠ None.

Lemma mapped_sub k lo n lo' n' : mapped k lo n → lo ≤ lo' → lo' + n' ≤ lo + n → mapped k lo' n'.
Proof. intros H ?? va ?. apply H. lia. Qed.

Lemma mapped_step k k' lo n : (∀ va, user_half (PML4_INDEX va) → pte_at root va k' = pte_at root va k) → mapped k lo n → mapped k' lo n.
Proof. intros E H va Hva. destruct (H va Hva) as [Hu Hn]. split; [done|]. by rewrite E by by apply user_half_addr. Qed.

Lemma page_frame va k :
  space_own user_half root k → user_addr va → pte_at root va k ≠ None →
  ∃ e, pte_at root va k = Some e ∧ vmm_get_physical root (ALIGN_DOWN va PAGE_SIZE) k = frame e ∧ (frame e =? 0) = false.
Proof.
  intros Ho Hva Hn. destruct (pte_at root va k) as [e|] eqn:He; [|done]. exists e. split; [done|].
  unfold user_addr, USER_SPACE_TOP in Hva. rewrite align_down_page by lia. set (page := va / 4096 * 4096).
  assert (user_addr page) as Hpu by (unfold user_addr, USER_SPACE_TOP, page; zdm).
  assert (pte_at root page k = Some e) as Hep.
  { rewrite <- He. apply same_page_pte, user_page_eq; [done|done|]. unfold page. zdm. }
  destruct (frame_physical user_half root page k Ho (user_half_addr page Hpu) e Hep) as [-> Hpos]. split; [done|lia].
Qed.

Lemma bytes_written_ext lo n f g k k' :
  (∀ i, 0 ≤ i < n → f i = g i) → bytes_written root lo n f k k' → bytes_written root lo n g k k'.
Proof. intros Hfg [S P M B]. split; [done..|]. intros va Hva. rewrite B by done. case_decide; [|done]. rewrite Hfg; [done|lia]. Qed.

Lemma poke_bytes_ok bs : ∀ va k,
  space_own user_half root k → bytes_ok bs → 0 ≤ va → mapped k va (Z.of_nat (length bs)) →
  ∃ k', poke_bytes root va bs k = inl k' ∧ bytes_written root va (Z.of_nat (length bs)) (list_byte bs) k k'.
Proof.
  induction bs as [|b bs IH]; intros va k Ho Hb Hva Hm; cbn [poke_bytes length]; [exists k; split; [done|by apply bytes_written_none]|].
  apply Forall_cons_1 in Hb as [Hb Hbs]. destruct (Hm va) as [Hvu Hn]; [cbn [length]; lia|].
  destruct (page_frame va k Ho Hvu Hn) as (e & He & Hp & Hz). unfold poke. rewrite Hp, Hz. cbn [or_return].
  rewrite land_page_mask. unfold PAGE_SIZE.
  pose proof (byte_written root va e b k Ho Hvu He Hb) as Hw. set (k1 := set_mem _ k) in *.
  unfold user_addr, USER_SPACE_TOP in Hvu. rewrite u64_small by lia.
  destruct (IH (va + 1) k1) as (k2 & E & Hw2).
  - apply (ut_own _ _ _ (bw_step _ _ _ _ _ _ Hw)).
  - done.
  - lia.
  - eapply mapped_step; [apply Hw|]. eapply mapped_sub; [exact Hm|lia|cbn [length]; lia].
  - exists k2. split; [done|]. replace (Z.of_nat (S (length bs))) with (1 + Z.of_nat (length bs)) by lia.
    eapply bytes_written_app; [lia|lia| |eapply bytes_written_ext; [|exact Hw]|exact Hw2].
    2: { intros i Hi. by replace i with 0 by lia. }
    intros i Hi. unfold list_byte. replace (Z.to_nat (1 + i)) with (S (Z.to_nat i)) by lia. done.
Qed.

Lemma poke_strings_ok strs : ∀ va k,
  space_own user_half root k → Forall bytes_ok strs → 0 ≤ va → va + Z.of_nat (length (flat strs)) < 2 ^ 64 →
  mapped k va (Z.of_nat (length (flat strs))) →
  ∃ k', poke_strings root va strs k = inl (starts va strs, va + Z.of_nat (length (flat strs)), k') ∧
        bytes_written root va (Z.of_nat (length (flat strs))) (list_byte (flat strs)) k k'.
Proof.
  induction strs as [|s l IH]; intros va k Ho Hb Hva H64 Hm; cbn [poke_strings starts].
  { exists k. cbn. rewrite Z.add_0_r. split; [done|by apply bytes_written_none]. }
  apply Forall_cons_1 in Hb as [Hb Hbs]. rewrite flat_cons, length_app in *.
  assert (length (s ++ [0]) = S (length s)) as Hl by (rewrite length_app; cbn; lia).
  destruct (poke_bytes_ok (s ++ [0]) va k) as (k1 & -> & Hw); [done| |done| |].
  { apply Forall_app. split; [done|]. repeat constructor; lia. }
  { eapply mapped_sub; [exact Hm|lia|lia]. }
  cbn [or_return]. rewrite u64_small by lia.
  destruct (IH (va + Z.of_nat (length s) + 1) k1) as (k2 & -> & Hw2); [|done|lia|lia| |].
  { apply (ut_own _ _ _ (bw_step _ _ _ _ _ _ Hw)). }
  { eapply mapped_step; [apply Hw|]. eapply mapped_sub; [exact Hm|lia|lia]. }
  cbn [or_return]. exists k2. split; [do 3 f_equal; lia|].
  rewrite Nat2Z.inj_add. eapply bytes_written_app; [lia|lia| | |].
  - intros i Hi. symmetry. apply list_byte_app_r. lia.
  - eapply bytes_written_ext; [|exact Hw]. intros i Hi. symmetry. apply list_byte_app_l. lia.
  - by replace (va + Z.of_nat (length (s ++ [0]))) with (va + Z.of_nat (length s) + 1) by lia.
Qed.

Lemma write_random_ok va k :
  space_own user_half root k → va mod 16 = 0 → 0 ≤ va → mapped k va 16 →
  bytes_written root va 16 (random_byte va) k (write_random root va k).
Proof.
  intros Ho Hal Hva Hm. destruct (Hm va) as [Hvu Hn]; [lia|]. destruct (page_frame va k Ho Hvu Hn) as (e & He & Hp & Hz).
  unfold write_random. rewrite Hp, Hz, land_page_mask. unfold PAGE_SIZE. cbn [negb].
  apply (for_loop_ind0 (λ i f, bytes_written root va i (random_byte va) k (set_mem f k)) 16 _ (k_mem k)).
  - assert (set_mem (k_mem k) k = k) as -> by (by destruct k). by apply bytes_written_none.
  - intros i f Hi Hw. set (k1 := set_mem f k) in *. destruct (Hm (va + i)) as [Hvi _]; [lia|].
    assert (pte_at root (va + i) k1 = Some e) as He1.
    { rewrite (bw_pte _ _ _ _ _ _ Hw) by (by apply user_half_addr). rewrite <- (same_page_pte root va (va + i)); [done|].
      apply user_page_eq; [done|done|]. zdm. }
    eapply bytes_written_app; [lia|lia| |exact Hw|].
    2: { pose proof (byte_written root (va + i) e (random_byte va i) k1 (ut_own _ _ _ (bw_step _ _ _ _ _ _ Hw)) Hvi He1) as Hb.
         replace ((va + i) mod 4096) with (va mod 4096 + i) in Hb by zdm. rewrite Z.add_assoc in Hb. apply Hb.
         apply u8_bound. }
    intros j Hj. by replace j with 0 by lia; rewrite Z.add_0_r.
Qed.

(** Words from [lo] on, and nothing else. *)
Record words_written (lo : Z) (ws : list Z) k k' : Prop := {
  ww_step : user_step root k k';
  ww_pte : ∀ va, user_half (PML4_INDEX va) → pte_at root va k' = pte_at root va k;
  ww_words : words_at k' lo ws;
  ww_word : ∀ va, user_addr va → ¬ (lo ≤ va < lo + 8 * Z.of_nat (length ws)) → user_word root va k' = user_word root va k;
  ww_byte : ∀ va, user_addr va → ¬ (lo ≤ va < lo + 8 * Z.of_nat (length ws)) → user_byte root va k' = user_byte root va k;
}.

Lemma push_u64_ok v sp k :
  space_own user_half root k → sp mod 8 = 0 → 0 ≤ sp - 8 → mapped k (sp - 8) 8 →
  ∃ k', push_u64 root v (sp, k) = inl (sp - 8, k') ∧ words_written (sp - 8) [v] k k'.
Proof.
  intros Ho Hal Hsp Hm. destruct (Hm (sp - 8)) as [Hvu Hn]; [lia|]. unfold push_u64. unfold user_addr, USER_SPACE_TOP in Hvu.
  rewrite u64_small by lia. destruct (page_frame (sp - 8) k Ho Hvu Hn) as (e & He & -> & ->). rewrite land_page_mask. unfold PAGE_SIZE.
  destruct (store_word_ok root (sp - 8) k e v Ho Hvu) as (Ho' & Hpte & Hw & Hb); [zdm|done|]. eexists. split; [done|].
  split; [|done| | |].
  - apply (frame_store_step root (sp - 8) e); [done|done|done|zdm].
  - intros [|i] w E; [|done]. injection E as <-. rewrite Z.mul_0_r, Z.add_0_r. rewrite Hw by done. by rewrite decide_True.
  - intros va Hva Hout. cbn [length] in Hout. rewrite Hw by done. by rewrite decide_False by lia.
  - intros va Hva Hout. cbn [length] in Hout. apply Hb; [done|lia].
Qed.

Lemma words_written_below lo ws v k1 k2 k3 :
  0 ≤ lo → user_addr (lo + 8 * Z.of_nat (length ws)) →
  words_written (lo + 8 * Z.of_nat (length ws)) [v] k1 k2 → words_written lo ws k2 k3 → words_written lo (ws ++ [v]) k1 k3.
Proof.
  intros Hlo Hu [S1 P1 W1 O1 B1] [S2 P2 W2 O2 B2]. cbn [length] in *.
  split; [by eapply user_step_trans|intros; by rewrite P2, P1| | |].
  - intros i w. rewrite lookup_app_Some. intros [E|[Hl E]]; [by apply W2|].
    destruct (i - length ws)%nat eqn:Hi; [|done]. injection E as <-. replace i with (length ws) by lia.
    rewrite O2 by (done || lia). specialize (W1 0%nat v eq_refl). by rewrite Z.mul_0_r, Z.add_0_r in W1.
  - intros va Hva. rewrite length_app. cbn [length]. intros Hout. rewrite O2, O1 by (done || lia). done.
  - intros va Hva. rewrite length_app. cbn [length]. intros Hout. rewrite B2, B1 by (done || lia). done.
Qed.

Lemma push_all_ok vs : ∀ sp k,
  space_own user_half root k → sp mod 8 = 0 → 0 ≤ sp - 8 * Z.of_nat (length vs) →
  mapped k (sp - 8 * Z.of_nat (length vs)) (8 * Z.of_nat (length vs)) →
  ∃ k', push_all root vs (sp, k) = inl (sp - 8 * Z.of_nat (length vs), k') ∧
        words_written (sp - 8 * Z.of_nat (length vs)) (rev vs) k k'.
Proof.
  induction vs as [|v vs IH]; intros sp k Ho Hal Hsp Hm; cbn [push_all length rev] in *.
  { exists k. replace (sp - 8 * Z.of_nat 0) with sp by lia. split; [done|]. split; [by apply user_step_refl|done|intros i w E; by destruct i|done|done]. }
  destruct (push_u64_ok v sp k) as (k1 & -> & Hw); [done|done|lia|eapply mapped_sub; [exact Hm|lia|lia]|]. cbn [or_return].
  replace (sp - 8 * Z.of_nat (S (length vs))) with (sp - 8 - 8 * Z.of_nat (length vs)) in * by lia.
  destruct (IH (sp - 8) k1) as (k2 & -> & Hw2); [apply (ut_own _ _ _ (ww_step _ _ _ _ Hw))|zdm|lia| |].
  { eapply mapped_step; [apply Hw|]. eapply mapped_sub; [exact Hm|lia|lia]. }
  exists k2. split; [done|].
  assert (sp - 8 - 8 * Z.of_nat (length vs) + 8 * Z.of_nat (length (rev vs)) = sp - 8) as E by (rewrite length_rev; lia).
  apply (words_written_below _ _ _ _ k1); [done| | |done]; rewrite E; [apply Hm; lia|done].
Qed.

Lemma stack_pages_ok k :
  space_own user_half root k → (∀ va, USER_STACK_BOTTOM ≤ va < USER_STACK_TOP → pte_at root va k = None) →
  match stack_pages root k with
  | inl k' => range_mapped root USER_STACK_BOTTOM USER_STACK_TOP stack_flags k k'
  | inr k' => user_step root k k' ∧ (available k < 2048)%nat
  end.
Proof.
  intros Ho Hnone. unfold stack_pages. change (Z.to_nat (USER_STACK_SIZE / PAGE_SIZE)) with 512%nat.
  apply (for_until_ind (λ i k', range_mapped root (USER_STACK_TOP - i * 4096) USER_STACK_TOP stack_flags k k')
    (λ k', user_step root k k' ∧ (available k < 2048)%nat) 512).
  { rewrite Z.mul_0_l, Z.sub_0_r. by apply range_mapped_empty. }
  intros i k1 Hi Hm. unfold PAGE_SIZE. pose proof (ut_own _ _ _ (rm_step _ _ _ _ _ _ Hm)) as Ho1.
  set (va := USER_STACK_TOP - (i + 1) * 4096). assert (user_addr va) as Hva by (unfold user_addr, USER_SPACE_TOP, va, USER_STACK_TOP; lia).
  assert (pte_at root va k1 = None) as Hn.
  { pose proof (rm_pte _ _ _ _ _ _ Hm va Hva) as E. rewrite decide_False in E by (unfold va; lia). rewrite E.
    apply Hnone. unfold va, USER_STACK_BOTTOM, USER_STACK_TOP, USER_STACK_SIZE. lia. }
  destruct (map_user_page_cases user_half root va stack_flags k1 Ho1 (user_half_addr va Hva) eq_refl eq_refl)
    as [(k2 & -> & Hk)|(r & k2 & -> & Hrr & Hav & Hf)].
  - apply (range_mapped_join root (va + 4096) USER_STACK_TOP va (va + 4096) va USER_STACK_TOP _ _ k1);
      [unfold va, USER_STACK_TOP; lia..|unfold va, USER_STACK_TOP; zdm|lia| |].
    + by replace (va + 4096) with (USER_STACK_TOP - i * 4096) by (unfold va; lia).
    + apply mapped_fresh_range; [done|done|unfold va, USER_STACK_TOP; zdm|done|done|done].
  - assert ((r <? 0) = true) as -> by lia. split; [eapply user_step_trans; [apply Hm|by apply map_failed_step]|].
    pose proof (rm_available _ _ _ _ _ _ Hm) as Hav'. replace ((USER_STACK_TOP - (USER_STACK_TOP - i * 4096)) / 1024) with (4 * i) in Hav' by zdm. lia.
Qed.

(** ** The whole stack *)

(** The auxiliary vector, upwards. *)
Definition auxv (random : Z) (info : elf_info) : list Z :=
  [AT_PAGESZ; PAGE_SIZE] ++ (if phdr_addr info =? 0 then [] else [AT_PHDR; phdr_addr info]) ++
  [AT_PHENT; sizeof_Phdr; AT_PHNUM; phnum info; AT_ENTRY; entry info; AT_RANDOM; random; AT_NULL; 0].

Definition vectors (argv_ptrs envp_ptrs : list Z) (random : Z) (info : elf_info) : list Z :=
  Z.of_nat (length argv_ptrs) :: argv_ptrs ++ [0] ++ envp_ptrs ++ [0] ++ auxv random info.

(** What a program finds at its stack pointer. *)
Record stack_filled (argv envp : list (list Z)) (info : elf_info) (sp : Z) k : Prop := {
  sf_sp : USER_STACK_BOTTOM ≤ sp < USER_STACK_TOP;
  sf_align : sp mod 16 = if Nat.even (length argv + length envp) then 8 else 0;
  sf_vectors : ∃ argv_ptrs envp_ptrs random,
    words_at k sp (vectors argv_ptrs envp_ptrs random info) ∧
    Forall2 (string_at k) argv_ptrs argv ∧ Forall2 (string_at k) envp_ptrs envp ∧
    ∀ i, 0 ≤ i < 16 → user_byte root (random + i) k = Some (random_byte random i);
}.

Lemma pushes_vectors argv_ptrs envp_ptrs random info :
  rev (auxv_pushes random info ++ rev (envp_ptrs ++ [0]) ++ rev (argv_ptrs ++ [0]) ++ [Z.of_nat (length argv_ptrs)]) =
  vectors argv_ptrs envp_ptrs random info.
Proof.
  unfold vectors. rewrite !rev_app_distr, !rev_involutive. cbn [rev app]. f_equal. rewrite <- !app_assoc. do 4 f_equal.
  unfold auxv_pushes, auxv. by destruct (phdr_addr info =? 0).
Qed.

Lemma vectors_length argv_ptrs envp_ptrs random info :
  ∃ n, length (vectors argv_ptrs envp_ptrs random info) = (2 * n + 1 + length argv_ptrs + length envp_ptrs)%nat ∧ (n = 7 ∨ n = 8)%nat.
Proof.
  unfold vectors, auxv. destruct (phdr_addr info =? 0); [exists 7%nat|exists 8%nat];
    cbn [length app]; rewrite !length_app; cbn [length]; rewrite length_app; cbn [length]; lia.
Qed.

(** The stack area that [argv] and [envp] need. *)
Definition stack_fits (argv envp : list (list Z)) : Prop :=
  Z.of_nat (length (flat (argv ++ envp))) + 8 * Z.of_nat (length argv + length envp) + 192 ≤ USER_STACK_SIZE.

Lemma align_down_pow x n : 0 ≤ n ≤ 64 → 0 ≤ x < 2 ^ 64 → ALIGN_DOWN x (2 ^ n) = x / 2 ^ n * 2 ^ n.
Proof. intros Hn Hx. unfold ALIGN_DOWN. rewrite <- land_not_ones by done. by rewrite Z.ones_equiv, Z.sub_1_r. Qed.

Lemma poke_both {B : Type} argv envp va k (f : list Z → list Z → kmem → B + kmem) :
  let n := Z.of_nat (length (flat (argv ++ envp))) in
  space_own user_half root k → Forall bytes_ok (argv ++ envp) → 0 ≤ va → va + n < 2 ^ 64 → mapped k va n →
  ∃ k', or_return (poke_strings root va argv k) (λ '(a, p, k), or_return (poke_strings root p envp k) (λ '(e, _, k), f a e k)) =
          f (starts va argv) (starts (va + Z.of_nat (length (flat argv))) envp) k' ∧
        bytes_written root va n (list_byte (flat (argv ++ envp))) k k'.
Proof.
  intros n Ho [Ha He]%Forall_app Hva H64 Hm. unfold n in *. rewrite flat_app, length_app in *.
  destruct (poke_strings_ok argv va k) as (k1 & -> & W1); [done|done|lia|lia|eapply mapped_sub; [exact Hm|lia|lia]|]. cbn [or_return].
  destruct (poke_strings_ok envp (va + Z.of_nat (length (flat argv))) k1) as (k2 & -> & W2); [|done|lia|lia| |].
  { apply (ut_own _ _ _ (bw_step _ _ _ _ _ _ W1)). }
  { eapply mapped_step; [apply W1|]. eapply mapped_sub; [exact Hm|lia|lia]. }
  exists k2. split; [done|]. rewrite Nat2Z.inj_add. eapply bytes_written_app; [lia|lia| | |exact W2].
  - intros i Hi. symmetry. apply list_byte_app_r. lia.
  - eapply bytes_written_ext; [|exact W1]. intros i Hi. symmetry. apply list_byte_app_l. lia.
Qed.

(** Strings at [va], random bytes below them, vectors below those. *)
Lemma filled argv envp info va random sp vs k k1 k2 k3 :
  vs = vectors (starts va argv) (starts (va + Z.of_nat (length (flat argv))) envp) random info →
  USER_STACK_BOTTOM ≤ sp → sp + 8 * Z.of_nat (length vs) = random → random mod 16 = 0 → random + 16 ≤ va →
  va + Z.of_nat (length (flat (argv ++ envp))) ≤ USER_STACK_TOP →
  bytes_written root va (Z.of_nat (length (flat (argv ++ envp)))) (list_byte (flat (argv ++ envp))) k k1 →
  bytes_written root random 16 (random_byte random) k1 k2 → words_written sp vs k2 k3 →
  stack_filled argv envp info sp k3.
Proof.
  intros Hvs Hlo Hsp Hr Hrv Htop W R P. unfold USER_STACK_BOTTOM, USER_STACK_TOP, USER_STACK_SIZE in *.
  destruct (vectors_length (starts va argv) (starts (va + Z.of_nat (length (flat argv))) envp) random info) as (n & Hn & Hn').
  rewrite <- Hvs, !starts_length in Hn.
  assert (∀ a, random ≤ a < 34359738368 → user_addr a) as Hu by (unfold user_addr, USER_SPACE_TOP; lia).
  assert (∀ i, 0 ≤ i < Z.of_nat (length (flat (argv ++ envp))) → user_byte root (va + i) k3 = Some (list_byte (flat (argv ++ envp)) i)) as Hb.
  { intros i Hi. rewrite (ww_byte _ _ _ _ P), (bw_byte _ _ _ _ _ _ R), decide_False, (bw_byte _ _ _ _ _ _ W), decide_True
      by (lia || (apply Hu; lia)).
    by replace (va + i - va) with i by lia. }
  split; [unfold USER_STACK_BOTTOM, USER_STACK_TOP, USER_STACK_SIZE; lia| |].
  - destruct (Nat.even (length argv + length envp)) eqn:Hev.
    + apply Nat.even_spec in Hev as [m Hm]. zdm.
    + assert (Nat.odd (length argv + length envp) = true) as [m Hm]%Nat.odd_spec by (by rewrite <- Nat.negb_even, Hev). zdm.
  - apply strings_at in Hb. rewrite starts_app in Hb. apply Forall2_app_inv in Hb as [Hb1 Hb2]; [|by rewrite starts_length].
    exists (starts va argv), (starts (va + Z.of_nat (length (flat argv))) envp), random. split_and!; [|done|done|].
    + rewrite <- Hvs. apply P.
    + intros i Hi. rewrite (ww_byte _ _ _ _ P), (bw_byte _ _ _ _ _ _ R), decide_True by (lia || (apply Hu; lia)).
      by replace (random + i - random) with i by lia.
Qed.

Lemma fill_stack_ok argv envp info k :
  space_own user_half root k → Forall bytes_ok (argv ++ envp) → stack_fits argv envp →
  mapped k USER_STACK_BOTTOM USER_STACK_SIZE →
  ∃ sp k', fill_stack root argv envp info k = inl (sp, k') ∧ stack_filled argv envp info sp k' ∧
    user_step root k k' ∧ (∀ va, user_half (PML4_INDEX va) → pte_at root va k' = pte_at root va k) ∧
    ∀ va, user_addr va → ¬ (USER_STACK_BOTTOM ≤ va < USER_STACK_TOP) → user_byte root va k' = user_byte root va k.
Proof.
  intros Ho Hb Hfit Hm. unfold stack_fits, fill_stack in *. unfold USER_STACK_BOTTOM, USER_STACK_SIZE in Hm, Hfit.
  unfold USER_STACK_BOTTOM, USER_STACK_TOP, USER_STACK_SIZE in *. set (n := Z.of_nat (length (flat (argv ++ envp)))) in *.
  rewrite strings_size_flat by lia. fold n. rewrite u64_small by lia.
  change (ALIGN_DOWN ?x 8) with (ALIGN_DOWN x (2 ^ 3)). rewrite align_down_pow by lia. set (va := _ / 2 ^ 3 * 2 ^ 3).
  assert (va mod 8 = 0 ∧ va + n ≤ 34359738368 < va + n + 8) as [Hs8 Hs] by (unfold va; zdm). clearbody va.
  rewrite (u64_small (va - 16)) by lia. set (r := ALIGN_DOWN (va - 16) 16).
  assert (r = (va - 16) / 16 * 16) as Hrd by (apply (align_down_pow (va - 16) 4); lia).
  assert (r mod 16 = 0 ∧ r + 16 ≤ va < r + 32) as [Hr16 Hr] by (rewrite Hrd; zdm). clear Hrd. clearbody r.
  assert (ALIGN_DOWN r 16 = r) as -> by (etransitivity; [apply (align_down_pow r 4); lia|change (2 ^ 4) with 16; zdm]).
  destruct (poke_both argv envp va k (λ a e k, push_all root (auxv_pushes r info ++ rev (e ++ [0]) ++ rev (a ++ [0]) ++
    [Z.of_nat (length argv)]) (r, write_random root r k))) as (k1 & -> & W); [done|done|lia|lia|eapply mapped_sub; [exact Hm|lia|lia]|].
  apply (mapped_step _ _ _ _ (bw_pte _ _ _ _ _ _ W)) in Hm.
  assert (mapped k1 r 16) as Hmr by (eapply mapped_sub; [exact Hm|lia|lia]).
  pose proof (write_random_ok r k1 (ut_own _ _ _ (bw_step _ _ _ _ _ _ W)) Hr16 ltac:(lia) Hmr) as R. set (k2 := write_random root r k1) in *.
  apply (mapped_step _ _ _ _ (bw_pte _ _ _ _ _ _ R)) in Hm.
  set (a := starts va argv). set (e := starts _ envp). set (vs := auxv_pushes r info ++ _).
  assert (rev vs = vectors a e r info) as Hvs by (rewrite <- pushes_vectors; unfold a; by rewrite starts_length).
  destruct (vectors_length a e r info) as (c & Hc & Hc'). rewrite <- Hvs, length_rev in Hc. unfold a, e in Hc. rewrite !starts_length in Hc.
  destruct (push_all_ok vs r k2) as (k3 & -> & P); [apply (ut_own _ _ _ (bw_step _ _ _ _ _ _ R))|zdm|lia|eapply mapped_sub; [exact Hm|lia|lia]|].
  eexists _, k3. split_and!; [done| | | |].
  - eapply filled; [exact Hvs| |rewrite length_rev|..]; try (done || exact W || exact R || exact P); unfold USER_STACK_BOTTOM, USER_STACK_TOP, USER_STACK_SIZE; lia.
  - eapply user_step_trans; [apply W|]. eapply user_step_trans; [apply R|apply P].
  - intros b HI. by rewrite (ww_pte _ _ _ _ P), (bw_pte _ _ _ _ _ _ R), (bw_pte _ _ _ _ _ _ W).
  - intros b Hu Hout. rewrite (ww_byte _ _ _ _ P) by (rewrite ?length_rev; done || lia).
    rewrite (bw_byte _ _ _ _ _ _ R), decide_False, (bw_byte _ _ _ _ _ _ W), decide_False by (done || lia). done.
Qed.

(** What the set-up gives: [res] is the result of [elf_setup_stack]. *)
Definition stack_result (argv envp : list (list Z)) (info : elf_info) (k : kmem) (res : Z * kmem) : Prop :=
  let '(sp, k') := res in
  user_step root k k' ∧
  if decide (sp = 0) then (available k < 2048)%nat
  else stack_filled argv envp info sp k' ∧
    (∀ va, USER_STACK_BOTTOM ≤ va < USER_STACK_TOP →
       ∃ n, pte_at root va k' = Some (Z.lor (n * 4096) stack_flags) ∧ Z.land (n * 4096) PTE_ADDR_MASK = n * 4096) ∧
    (∀ va, user_addr va → ¬ (USER_STACK_BOTTOM ≤ va < USER_STACK_TOP) →
       pte_at root va k' = pte_at root va k ∧ user_byte root va k' = user_byte root va k).

Lemma elf_setup_stack_ok argv envp info k :
  space_own user_half root k → (∀ va, USER_STACK_BOTTOM ≤ va < USER_STACK_TOP → pte_at root va k = None) →
  Forall bytes_ok (argv ++ default [] envp) → stack_fits argv (default [] envp) →
  stack_result argv (default [] envp) info k (elf_setup_stack (Some root) (Some argv) envp (Some info) k).
Proof.
  intros Ho Hnone Hb Hfit. unfold elf_setup_stack, stack_result. pose proof (stack_pages_ok k Ho Hnone) as Hp.
  destruct (stack_pages root k) as [k1|k1]; [|destruct Hp; split; [done|by rewrite decide_True]].
  assert (∀ va, USER_STACK_BOTTOM ≤ va < USER_STACK_TOP → user_addr va) as Hu
    by (unfold user_addr, USER_SPACE_TOP, USER_STACK_BOTTOM, USER_STACK_TOP, USER_STACK_SIZE; lia).
  assert (∀ va, USER_STACK_BOTTOM ≤ va < USER_STACK_TOP →
    ∃ n, pte_at root va k1 = Some (Z.lor (n * 4096) stack_flags) ∧ Z.land (n * 4096) PTE_ADDR_MASK = n * 4096) as Hpte.
  { intros va Hva. pose proof (rm_pte _ _ _ _ _ _ Hp va (Hu va Hva)) as E. rewrite decide_True in E by auto. done. }
  destruct (fill_stack_ok argv (default [] envp) info k1) as (sp & k2 & -> & Hsf & Hst & Hpt & Hby); [apply Hp|done|done| |].
  { intros va Hva. assert (USER_STACK_BOTTOM ≤ va < USER_STACK_TOP) as Hr by (unfold USER_STACK_BOTTOM in *; lia).
    split; [by apply Hu|]. destruct (Hpte va Hr) as (n & -> & _). done. }
  split; [eapply user_step_trans; [apply Hp|done]|]. rewrite decide_False.
  2: { pose proof (sf_sp _ _ _ _ _ Hsf) as Hsp. unfold USER_STACK_BOTTOM, USER_STACK_TOP, USER_STACK_SIZE in Hsp. lia. }
  split_and!; [done| |].
  - intros va Hva. rewrite Hpt by (by apply user_half_addr, Hu). by apply Hpte.
  - intros va Hva Hout. rewrite Hpt, Hby by (done || by apply user_half_addr).
    pose proof (rm_pte _ _ _ _ _ _ Hp va Hva) as E1. pose proof (rm_byte _ _ _ _ _ _ Hp va Hva) as E2.
    rewrite decide_False in E1 by tauto. rewrite decide_False in E2 by tauto. done.
Qed.

(** C22 [elf_setup_stack_layout]: when the pages of the user stack are not
    mapped and the arguments fit, [elf_setup_stack] returns 0 only if fewer
    than 2048 pages are free, and otherwise a stack pointer from which the
    System V layout can be read back: the argument count, pointers to copies of
    the strings of [argv] and of [envp], each vector closed by NULL, and the
    auxiliary vector closed by [AT_NULL], with sixteen readable random bytes.
    Every page of the stack is mapped writable and not executable, and memory
    outside the stack keeps its mappings and its contents.  The stack pointer
    is a multiple of sixteen only for an odd number of strings. *)
Theorem elf_setup_stack_layout argv envp info k :
  space_own user_half root k → (∀ va, USER_STACK_BOTTOM ≤ va < USER_STACK_TOP → pte_at root va k = None) →
  Forall bytes_ok (argv ++ default [] envp) → stack_fits argv (default [] envp) →
  let '(sp, k') := elf_setup_stack (Some root) (Some argv) envp (Some info) k in
  user_step root k k' ∧
  if decide (sp = 0) then (available k < 2048)%nat
  else stack_filled argv (default [] envp) info sp k' ∧
    (∀ va, USER_STACK_BOTTOM ≤ va < USER_STACK_TOP →
       ∃ n, pte_at root va k' = Some (Z.lor (n * 4096) stack_flags) ∧ Z.land (n * 4096) PTE_ADDR_MASK = n * 4096) ∧
    (∀ va, user_addr va → ¬ (USER_STACK_BOTTOM ≤ va < USER_STACK_TOP) →
       pte_at root va k' = pte_at root va k ∧ user_byte root va k' = user_byte root va k).
Proof. exact (elf_setup_stack_ok argv envp info k). Qed.
End Stack.
