(* ===== verification/ElfWitness.v ===== *)
(** * Programs on a concrete machine

    A program of one segment is loaded, and its stack is built, on machines
    that satisfy the hypotheses of the theorems; the last section loads files
    whose headers lie outside them. *)
From S2P Require Import Prelude Pmm Page Vmm VmmWalk VmmMap VmmProps VmmCow VmmFree UserMem UserBytes FaultProps MemWitness.
From S2P Require Import Heap HeapInv HeapProps HeapSpec Alloc Kthread Vfs Process Elf ElfProps ElfSpec ElfStack.
Local Open Scope Z_scope.

Fixpoint put (a : Z) (l : list Z) (m : gmap Z Z) : gmap Z Z :=
  match l with [] => m | b :: l => put (a + 1) l (wr m a b) end.

Lemma put_bytes a l m : bytes_ok l → (∀ x, 0 ≤ rd m x < 256) → ∀ x, 0 ≤ rd (put a l m) x < 256.
Proof.
  revert a m. induction l as [|b l IH]; intros a m Hl Hm; cbn [put]; [done|]. apply Forall_cons_1 in Hl as [Hb Hl].
  apply IH; [done|]. intros x. rewrite rd_wr. by case_decide.
Qed.

Definition elf_header (phoff phnum : Z) : list Z :=
  [0x7f; 69; 76; 70; 2; 1; 1; 0; 0; 0; 0; 0; 0; 0; 0; 0] ++ le 2 2 ++ le 2 62 ++ le 4 1 ++ le 8 0x400078 ++ le 8 phoff ++
  le 8 0 ++ le 4 0 ++ le 2 64 ++ le 2 56 ++ le 2 phnum ++ le 2 0 ++ le 2 0 ++ le 2 0.

Definition program_header (flags offset vaddr filesz memsz : Z) : list Z :=
  le 4 1 ++ le 4 flags ++ le 8 offset ++ le 8 vaddr ++ le 8 vaddr ++ le 8 filesz ++ le 8 memsz ++ le 8 4096.

(** Headers and three bytes of code, loaded at 4 MiB. *)
Definition hello : list Z := elf_header 64 1 ++ program_header 5 0 0x400000 123 200 ++ [0x90; 0x90; 0xc3].

Definition hello_mem : gmap Z Z := put 0x10000 hello ∅.

Lemma hello_bytes a : 0 ≤ rd hello_mem a < 256.
Proof.
  apply put_bytes; [|intros x; unfold rd; rewrite lookup_empty; cbn; lia].
  apply (bool_decide_unpack _). vm_compute. exact I.
Qed.

Definition hello_segment : Elf64_Phdr := Phdr 1 5 0 0x400000 123 200.

Lemma hello_segments : segments hello_mem 0x10000 1 = [hello_segment].
Proof. vm_compute. reflexivity. Qed.


(** ** The stack of a program *)

(** Sixteen megabytes, the first four pages in use. *)
Definition pmm_4096 : pmm := Pmm 0 0x1000 (wr ∅ 0 15) 512 4096 4092 4092.

Definition machine_16m : kmem :=
  Kmem pmm_4096 (PageRefs (Some ∅) 4096) (wr ∅ (0x2000 + 8 * 511) 0x1003) 0x2000.

Lemma free_set_count p : size (free_set p) = length (filter (λ i, bitmap_is_used i p = false) (seqZ 0 (total_pages p))).
Proof. apply size_list_to_set, list.NoDup_filter, NoDup_seqZ. Qed.

Lemma available_free k : (size (free_set (k_pmm k)) ≤ available k + 1)%nat.
Proof.
  unfold available. rewrite size_difference_alt. pose proof (subseteq_size (free_set (k_pmm k) ∩ {[0]}) {[0]} ltac:(set_solver)) as H.
  rewrite size_singleton in H. lia.
Qed.

Lemma machine_16m_ent i : idx_ok i → user_half i → ent (k_mem machine_16m) 0x2000 i = 0.
Proof. exact (machine_ent_user i). Qed.

Lemma machine_16m_own : space_own user_half 0x2000 machine_16m.
Proof.
  apply space_own_empty; [exact machine_16m_ent|]. apply space_wf_empty.
  - split; [|cbn; lia|done|rewrite free_set_count; by vm_compute]. intros j. cbn [bitmap k_pmm machine_16m pmm_4096]. rewrite rd_wr. case_decide; [lia|].
    unfold rd. rewrite lookup_empty. cbn. lia.
  - cbn. lia.
  - split; [reflexivity|split; [vm_compute; split; reflexivity|]]. intros [_ H]%elem_of_free_set. vm_compute in H. discriminate H.
  - intros i Hi Hu. by rewrite machine_16m_ent.
Qed.

Lemma machine_16m_available : (4000 ≤ available machine_16m)%nat.
Proof.
  pose proof (available_free machine_16m) as H. pose proof (wf_count _ (sw_pmm _ _ _ (so_wf _ _ _ machine_16m_own))) as E.
  change (free_pages (k_pmm machine_16m)) with 4092 in E. lia.
Qed.

(** The strings [sh] and [-c], and [A=1]. *)
Definition sh_argv : list (list Z) := [[115; 104]; [45; 99]].
Definition sh_envp : list (list Z) := [[65; 61; 49]].
Definition sh_info : elf_info := ElfInfo 0x400078 0x400040 1 0x401000.

Lemma elf_setup_stack_layout_witness :
  ∃ sp k', elf_setup_stack (Some 0x2000) (Some sh_argv) (Some sh_envp) (Some sh_info) machine_16m = (sp, k') ∧
    sp mod 16 = 0 ∧ user_word 0x2000 sp k' = Some 2 ∧
    ∃ p, user_word 0x2000 (sp + 8) k' = Some p ∧ user_byte 0x2000 p k' = Some 115 ∧ user_byte 0x2000 (p + 2) k' = Some 0.
Proof.
  pose proof (elf_setup_stack_layout 0x2000 sh_argv (Some sh_envp) sh_info machine_16m machine_16m_own
    ltac:(intros va Hva; apply (empty_pte user_half); [exact machine_16m_ent|apply user_half_addr];
          unfold USER_STACK_BOTTOM, USER_STACK_TOP, USER_STACK_SIZE, USER_SPACE_TOP in *; lia)
    ltac:(apply (bool_decide_unpack _); vm_compute; exact I) ltac:(vm_compute; discriminate)) as H.
  destruct (elf_setup_stack _ _ _ _ _) as [sp k'] eqn:E. destruct H as [_ H]. exists sp, k'. split; [reflexivity|].
  destruct (decide (sp = 0)) as [_|_]; [destruct (proj1 (Nat.lt_nge _ _) H (Nat.le_trans 2048 4000 _ ltac:(lia) machine_16m_available))|]. destruct H as [[_ Hal (a & e & r & Hw & Ha & _)] _].
  split; [exact Hal|]. apply Forall2_length in Ha as Hlen.
  destruct a as [|p [|p2 [|]]]; try discriminate Hlen. apply Forall2_cons_1 in Ha as [Hp _]. split.
  - specialize (Hw 0%nat 2 eq_refl). rewrite Z.add_0_r in Hw. exact Hw.
  - exists p. split; [exact (Hw 1%nat p eq_refl)|]. split.
    + specialize (Hp 0 ltac:(cbn; lia)). rewrite Z.add_0_r in Hp. exact Hp.
    + exact (Hp 2 ltac:(cbn; lia)).
Defined.

(** ** Files outside the hypotheses *)

(** A program header table whose end wraps around 2^64 is accepted. *)
Example phoff_wraps : elf_validate (put 0x10000 (elf_header (2 ^ 64 - 56) 1) ∅) 0x10000 64 = 0.
Proof. vm_compute. reflexivity. Qed.

(** More file data than memory: the copy runs past the pages of the segment,
    and the load fails with the pages mapped. *)
Definition long_file : gmap Z Z := put 0x10000 (elf_header 64 1 ++ program_header 6 0 0x400ff0 120 16) ∅.

Example filesz_over_memsz :
  let '(r, _, k') := elf_load long_file (Some 0x2000) 0x10000 120 (Some (ElfInfo 0 0 0 0)) machine in
  r = - EFAULT ∧ user_byte 0x2000 0x400ff0 k' = Some 0x7f.
Proof. vm_compute. split; reflexivity. Qed.

(** A segment that ends in the kernel half of the address space maps user pages
    there. *)
Definition high_file : gmap Z Z := put 0x10000 (elf_header 64 1 ++ program_header 6 0 0x7ffffffff000 0 0x2000) ∅.

Example segment_into_kernel_half :
  let '(r, _, k') := elf_load high_file (Some 0x2000) 0x10000 120 (Some (ElfInfo 0 0 0 0)) machine in
  r = 0 ∧ match pte_at 0x2000 0x800000000000 k' with Some e => tst e PTE_USER | None => false end = true.
Proof. vm_compute. split; reflexivity. Qed.
