(* ===== verification/Acpi.v ===== *)
(** * Firmware tables ([arch/x86/kernel/acpi.c], [acpi.h])

    The tables are bytes of physical memory.  Code reads them at kernel
    addresses, through the page tables; [None] is a read that faults, which
    halts the machine.  Pointers are addresses, 0 for NULL; the log lines are
    left out. *)
From S2P Require Import Prelude Pmm Page Vmm VmmWalk UserMem UserBytes.
Local Open Scope Z_scope.

(** ** Data *)

Record irq_override := IrqOverride {
  irq_source : Z;
  gsi : Z;
  ovr_flags : Z;
}.

Definition MAX_IRQ_OVERRIDES : Z := 16.

(** [acpi_info_t]; arrays are maps from the index. *)
Record acpi_info := AcpiInfo {
  local_apic_address : Z;
  io_apic_address : Z;
  io_apic_id : Z;
  io_apic_gsi_base : Z;
  cpu_count : Z;
  cpu_apic_ids : gmap Z Z;
  has_pic : Z;
  override_count : Z;
  overrides : gmap Z irq_override;
}.

Definition ACPI_VIRT_BASE : Z := 0xFFFFFFFE00000000.

(** The static variables [acpi_info] and [acpi_virt_next]. *)
Record acpi := Acpi {
  acpi_data : acpi_info;
  acpi_virt_next : Z;
}.

Definition acpi_boot : acpi := Acpi (AcpiInfo 0 0 0 0 0 ∅ 0 0 ∅) ACPI_VIRT_BASE.

Definition sizeof_sdt_header : Z := 36.
Definition sizeof_rsdp2 : Z := 36.
Definition sizeof_madt : Z := 44.

Definition MADT_ENTRY_LOCAL_APIC : Z := 0.
Definition MADT_ENTRY_IO_APIC : Z := 1.
Definition MADT_ENTRY_INTERRUPT_OVERRIDE : Z := 2.
Definition MADT_ENTRY_LOCAL_APIC_NMI : Z := 4.
Definition MADT_ENTRY_LOCAL_APIC_OVERRIDE : Z := 5.

(** ** Reads *)

Definition vbyte (k : kmem) (va : Z) : option Z := user_byte (vmm_get_kernel_pml4 k) va k.

(** A little-endian field of [n] bytes. *)
Fixpoint vload (n : nat) (k : kmem) (va : Z) : option Z :=
  match n with
  | O => Some 0
  | S n => b ← vbyte k va; v ← vload n k (va + 1); Some (b + 256 * v)
  end.

(** ** Mapping *)

Definition acpi_map_region (phys size : Z) (s : acpi) (k : kmem) : Z * acpi * kmem :=
  let pml4 := vmm_get_kernel_pml4 k in
  let phys_base := Z.land phys (~64 (PAGE_SIZE - 1)) in
  let offset := phys - phys_base in
  let pages_needed := u64 (offset + size + PAGE_SIZE - 1) / PAGE_SIZE in
  let virt_base := acpi_virt_next s in
  let s := Acpi (acpi_data s) (u64 (acpi_virt_next s + u64 (pages_needed * PAGE_SIZE))) in
  match for_until (Z.to_nat pages_needed) 0 (λ i k,
          let '(result, k) := vmm_map_page pml4 (u64 (virt_base + i * PAGE_SIZE)) (u64 (phys_base + i * PAGE_SIZE))
                                (Z.lor PTE_PRESENT PTE_WRITABLE) k in
          if result =? 0 then inl k else inr k) k with
  | inl k => (u64 (virt_base + offset), s, k)
  | inr k => (0, s, k)
  end.

(** ** Checks *)

Definition acpi_checksum (k : kmem) (ptr length : Z) : option bool :=
  match for_until (Z.to_nat length) 0 (λ i sum,
          match vbyte k (ptr + i) with Some b => inl (u8 (sum + b)) | None => inr tt end) 0 with
  | inl sum => Some (sum =? 0)
  | inr _ => None
  end.

(** The bytes of a signature are compared from the first on, up to the first
    difference. *)
Fixpoint sig_match (k : kmem) (a : Z) (b : list Z) : option bool :=
  match b with
  | [] => Some true
  | c :: b => x ← vbyte k a; if x =? c then sig_match k (a + 1) b else Some false
  end.

Definition sig_APIC : list Z := [65; 80; 73; 67].
Definition sig_RSDP : list Z := [82; 83; 68; 32; 80; 84; 82; 32].

(** ** The interrupt controllers *)

Definition set_lapic (a : Z) (i : acpi_info) : acpi_info :=
  AcpiInfo a (io_apic_address i) (io_apic_id i) (io_apic_gsi_base i) (cpu_count i) (cpu_apic_ids i) (has_pic i)
    (override_count i) (overrides i).

Definition set_ioapic (addr id base : Z) (i : acpi_info) : acpi_info :=
  AcpiInfo (local_apic_address i) addr id base (cpu_count i) (cpu_apic_ids i) (has_pic i) (override_count i) (overrides i).

Definition add_cpu (id : Z) (i : acpi_info) : acpi_info :=
  AcpiInfo (local_apic_address i) (io_apic_address i) (io_apic_id i) (io_apic_gsi_base i)
    (cpu_count i + 1) (wr (cpu_apic_ids i) (cpu_count i) id) (has_pic i) (override_count i) (overrides i).

Definition add_override (o : irq_override) (i : acpi_info) : acpi_info :=
  AcpiInfo (local_apic_address i) (io_apic_address i) (io_apic_id i) (io_apic_gsi_base i)
    (cpu_count i) (cpu_apic_ids i) (has_pic i) (override_count i + 1) (<[override_count i := o]> (overrides i)).

Definition set_pic (lapic pic : Z) (i : acpi_info) : acpi_info :=
  AcpiInfo lapic (io_apic_address i) (io_apic_id i) (io_apic_gsi_base i) (cpu_count i) (cpu_apic_ids i) pic
    (override_count i) (overrides i).

(** The [switch] on the type of the entry at [p]. *)
Definition madt_case (k : kmem) (p type : Z) (i : acpi_info) : option acpi_info :=
  if type =? MADT_ENTRY_LOCAL_APIC then
    flags ← vload 4 k (p + 4);
    if tst flags 1 then if cpu_count i <? 256 then id ← vbyte k (p + 3); Some (add_cpu id i) else Some i
    else Some i
  else if type =? MADT_ENTRY_IO_APIC then
    addr ← vload 4 k (p + 4);
    id ← vbyte k (p + 2);
    base ← vload 4 k (p + 8);
    Some (set_ioapic addr id base i)
  else if type =? MADT_ENTRY_INTERRUPT_OVERRIDE then
    irq ← vbyte k (p + 3);
    g ← vload 4 k (p + 4);
    fl ← vload 2 k (p + 8);
    Some (if override_count i <? MAX_IRQ_OVERRIDES then add_override (IrqOverride irq g fl) i else i)
  else if type =? MADT_ENTRY_LOCAL_APIC_NMI then
    _ ← vbyte k (p + 2);
    _ ← vbyte k (p + 5);
    Some i
  else if type =? MADT_ENTRY_LOCAL_APIC_OVERRIDE then
    a ← vload 8 k (p + 4);
    Some (set_lapic a i)
  else Some i.

(** The loop over the entries; [fuel] bounds its rounds. *)
Fixpoint madt_loop (fuel : nat) (k : kmem) (p end_ : Z) (i : acpi_info) : option acpi_info :=
  match fuel with
  | O => Some i
  | S fuel =>
      if p <? end_ then
        type ← vbyte k p;
        i ← madt_case k p type i;
        len ← vbyte k (p + 1);
        if len =? 0 then Some i else madt_loop fuel k (p + len) end_ i
      else Some i
  end.

Definition parse_madt (k : kmem) (madt : Z) (i : acpi_info) : option acpi_info :=
  lapic ← vload 4 k (madt + 36);
  flags ← vload 4 k (madt + 40);
  len ← vload 4 k (madt + 4);
  madt_loop (Z.to_nat len) k (madt + sizeof_madt) (madt + len) (set_pic lapic (Z.land flags 1) i).

(** ** Finding the tables *)

(** The loop over the [entries] addresses of [w] bytes after the header of
    [root_sdt]; the result is the pointer that [find_table] returns. *)
Fixpoint find_loop (n : nat) (i : Z) (w : nat) (root_sdt : Z) (signature : list Z) (s : acpi) (k : kmem) : option (Z * acpi * kmem) :=
  match n with
  | O => Some (0, s, k)
  | S n =>
      table_phys ← vload w k (root_sdt + sizeof_sdt_header + i * Z.of_nat w);
      if table_phys =? 0 then find_loop n (i + 1) w root_sdt signature s k
      else
        let '(header, s, k) := acpi_map_region table_phys sizeof_sdt_header s k in
        if header =? 0 then find_loop n (i + 1) w root_sdt signature s k
        else
          same ← sig_match k header signature;
          if (same : bool) then len ← vload 4 k (header + 4); Some (acpi_map_region table_phys len s k)
          else find_loop n (i + 1) w root_sdt signature s k
  end.

(** The number of entries is an [int]. *)
Definition find_table (root_sdt : Z) (signature : list Z) (use_xsdt : bool) (s : acpi) (k : kmem) : option (Z * acpi * kmem) :=
  let w := if use_xsdt then 8%nat else 4%nat in
  len ← vload 4 k (root_sdt + 4);
  let entries := s32 (u64 (len - sizeof_sdt_header) / Z.of_nat w) in
  find_loop (Z.to_nat entries) 0 w root_sdt signature s k.

(** From the root table on. *)
Definition acpi_root (root_sdt_phys : Z) (use_xsdt : bool) (s : acpi) (k : kmem) : option (Z * acpi * kmem) :=
  let '(root_header, s, k) := acpi_map_region root_sdt_phys sizeof_sdt_header s k in
  if root_header =? 0 then Some (-1, s, k)
  else
    len ← vload 4 k (root_header + 4);
    let '(root_sdt, s, k) := acpi_map_region root_sdt_phys len s k in
    if root_sdt =? 0 then Some (-1, s, k)
    else
      len ← vload 4 k (root_sdt + 4);
      ok ← acpi_checksum k root_sdt len;
      if negb ok then Some (-1, s, k)
      else
        '(madt, s, k) ← find_table root_sdt sig_APIC use_xsdt s k;
        if madt =? 0 then Some (-1, s, k)
        else
          len ← vload 4 k (madt + 4);
          ok ← acpi_checksum k madt len;
          if negb ok then Some (-1, s, k)
          else
            i ← parse_madt k madt (acpi_data s);
            Some (0, Acpi i (acpi_virt_next s), k).

(** From the mapped root pointer on. *)
Definition acpi_rsdp (rsdp : Z) (s : acpi) (k : kmem) : option (Z * acpi * kmem) :=
  same ← sig_match k rsdp sig_RSDP;
  if negb same then Some (-1, s, k)
  else
    ok ← acpi_checksum k rsdp 20;
    if negb ok then Some (-1, s, k)
    else
      revision ← vbyte k (rsdp + 15);
      if 2 <=? revision then
        len ← vload 4 k (rsdp + 20);
        ok ← acpi_checksum k rsdp len;
        if negb ok then Some (-1, s, k)
        else xsdt ← vload 8 k (rsdp + 24); acpi_root xsdt true s k
      else rsdt ← vload 4 k (rsdp + 16); acpi_root rsdt false s k.

(** [rsdp_phys] is what the boot loader reports, 0 for no table. *)
Definition acpi_init (rsdp_phys : Z) (s : acpi) (k : kmem) : option (Z * acpi * kmem) :=
  if rsdp_phys =? 0 then Some (-1, s, k)
  else
    let '(rsdp, s, k) := acpi_map_region rsdp_phys sizeof_rsdp2 s k in
    if rsdp =? 0 then Some (-1, s, k) else acpi_rsdp rsdp s k.
