(* ===== verification/AcpiProps.v ===== *)
(** * Reading firmware tables *)
From S2P Require Import Prelude Pmm Page Vmm VmmWalk VmmMap VmmProps VmmCow UserMem UserBytes FaultProps Acpi.
Local Open Scope Z_scope.

(** ** Mapped regions *)

Definition acpi_addr (va : Z) : Prop := ACPI_VIRT_BASE ≤ va < 2 ^ 64.

Lemma acpi_index va : acpi_addr va → PML4_INDEX va = 511.
Proof.
  unfold acpi_addr, ACPI_VIRT_BASE, PML4_INDEX. intros Hva. rewrite land_511, Z.shiftr_div_pow2 by lia.
  change (2 ^ 39) with 549755813888. zdm.
Qed.

Lemma acpi_page_eq va vb : acpi_addr va → acpi_addr vb → same_page va vb → va / 4096 = vb / 4096.
Proof. unfold same_page, acpi_addr, ACPI_VIRT_BASE. change (2 ^ 36) with 68719476736. intros. zdm. Qed.

(** Pages that a region spans. *)
Definition region_pages (phys size : Z) : Z := (phys mod 4096 + size + 4095) / 4096.

Section Regions.
Context (I : Z → Prop) (root : Z).
Hypothesis (HI : I 511).
Implicit Types (k : kmem) (s : acpi).

(** Room for [n] more pages, in the page tables and in the address range. *)
Record acpi_wf (n : Z) s k : Prop := {
  aw_space : space_wf I root k;
  aw_root : kernel_pml4_phys k = root;
  aw_next : ACPI_VIRT_BASE ≤ acpi_virt_next s ∧ acpi_virt_next s mod 4096 = 0;
  aw_room : 0 ≤ n ∧ acpi_virt_next s + n * 4096 < 2 ^ 64;
  aw_memory : 3 * n ≤ Z.of_nat (available k);
}.

(** What a mapping leaves alone: memory outside the tables, and the pages
    mapped before, below [lim]. *)
Record acpi_step (lim : Z) k k' : Prop := {
  ap_region : region_step I root k k';
  ap_pte : ∀ va, ACPI_VIRT_BASE ≤ va < lim → pte_at root va k' = pte_at root va k;
}.

Lemma acpi_step_trans lim lim' k1 k2 k3 : lim ≤ lim' → space_wf I root k1 → acpi_step lim k1 k2 → acpi_step lim' k2 k3 → acpi_step lim k1 k3.
Proof.
  intros Hl Hwf [R1 P1] [R2 P2]. split; [by eapply region_step_trans|].
  intros va Hva. rewrite P2, P1 by lia. done.
Qed.

Definition maps_to k (v phys size : Z) : Prop :=
  ∀ i, 0 ≤ i < size → ∃ e, pte_at root (v + i) k = Some e ∧ frame e + (v + i) mod 4096 = phys + i.

(** The loop of [acpi_map_region] after [n] pages from [v] on. *)
Record pages_mapped (v phys n : Z) k k' : Prop := {
  pm_region : region_step I root k k';
  pm_root : kernel_pml4_phys k' = kernel_pml4_phys k;
  pm_memory : Z.of_nat (available k) ≤ Z.of_nat (available k') + 3 * n;
  pm_others : ∀ va, acpi_addr va → ¬ (v ≤ va < v + n * 4096) → pte_at root va k' = pte_at root va k;
  pm_pages : ∀ va, v ≤ va < v + n * 4096 → pte_at root va k' = Some (Z.lor (phys + (va - v) / 4096 * 4096) 3);
}.

Lemma pages_mapped_next v phys n k k1 :
  0 ≤ n → ACPI_VIRT_BASE ≤ v → v mod 4096 = 0 → v + (n + 1) * 4096 ≤ 2 ^ 64 → phys mod 4096 = 0 → 0 ≤ phys → phys + (n + 1) * 4096 ≤ 2 ^ 52 →
  pages_mapped v phys n k k1 → 3 ≤ Z.of_nat (available k1) →
  ∃ k2, vmm_map_page root (v + n * 4096) (phys + n * 4096) 3 k1 = (0, k2) ∧ pages_mapped v phys (n + 1) k k2.
Proof.
  intros Hn Hv Hval Hvt Hpal Hp Hpt [R Hr M O P] Hav. set (va := v + n * 4096).
  assert (acpi_addr va) as Hva by (unfold acpi_addr, va; lia).
  pose proof (map_page_ok I root va (phys + n * 4096) 3 k1 (rs_wf _ _ _ _ R) ltac:(by rewrite acpi_index) eq_refl) as H.
  destruct (vmm_map_page _ _ _ _ _) as [r k2] eqn:E. destruct H as (R2 & Hr2 & M2 & O2 & [[-> P2]|[-> ?]]); [|lia].
  rewrite addr_mask_page in P2 by (lia || zdm). exists k2. split; [done|].
  assert (∀ vb, acpi_addr vb → ¬ (va ≤ vb < va + 4096) → pte_at root vb k2 = pte_at root vb k1) as O2'.
  { intros vb Hvb Hne. apply O2; [by rewrite acpi_index|]. intros Hs%acpi_page_eq; [|done|done]. apply Hne.
    assert (va mod 4096 = 0) by (unfold va; zdm). zdm. }
  split.
  - by eapply region_step_trans.
  - congruence.
  - lia.
  - intros vb Hvb Hne. rewrite O2', O by (done || unfold va; lia). done.
  - intros vb Hvb. destruct (decide (va ≤ vb < va + 4096)) as [Hin|Hout].
    + assert (acpi_addr vb) by (unfold acpi_addr, va in *; lia). rewrite (same_page_pte root vb va).
      * rewrite P2. do 2 f_equal. unfold va in *. zdm.
      * unfold same_page. f_equal. assert (va mod 4096 = 0) by (unfold va; zdm). zdm.
    + rewrite O2' by (unfold acpi_addr, va in *; lia). apply P. unfold va in *. lia.
Qed.

Lemma acpi_map_region_ok phys size n s k :
  acpi_wf (region_pages phys size + n) s k → 0 ≤ n → 0 ≤ phys → 0 ≤ size → phys + size ≤ 2 ^ 52 - 4096 →
  let v := acpi_virt_next s + phys mod 4096 in
  let s' := Acpi (acpi_data s) (acpi_virt_next s + region_pages phys size * 4096) in
  ∃ k', acpi_map_region phys size s k = (v, s', k') ∧ acpi_wf n s' k' ∧
    acpi_step (acpi_virt_next s) k k' ∧ maps_to k' v phys size ∧ v ≠ 0 ∧ ACPI_VIRT_BASE ≤ v ∧ v + size ≤ acpi_virt_next s'.
Proof.
  intros [Hwf Hroot [Hb Hal] [_ Hroom] Hmem] Hn Hp Hs Hps v s'. set (np := region_pages phys size) in *.
  assert (phys mod 4096 + size ≤ np * 4096 ∧ np * 4096 < phys mod 4096 + size + 4096 ∧ 0 ≤ np) as (Hnp1 & Hnp2 & Hnp3) by (unfold np, region_pages; zdm).
  unfold acpi_map_region, vmm_get_kernel_pml4. rewrite Hroot. unfold PAGE_SIZE. change (4096 - 1) with 0xFFF.
  rewrite page_mask_page by lia. set (pb := phys / 4096 * 4096). assert (phys - pb = phys mod 4096) as -> by (unfold pb; zdm).
  assert (pb mod 4096 = 0 ∧ 0 ≤ pb ∧ pb + phys mod 4096 = phys) as (Hpal & Hpb & Hpo) by (unfold pb; zdm).
  rewrite !(u64_small (phys mod 4096 + size + 4096 - 1)) by (pose proof (Z.mod_pos_bound phys 4096); lia).
  replace ((phys mod 4096 + size + 4096 - 1) / 4096) with np by (unfold np, region_pages; f_equal; lia).
  unfold ACPI_VIRT_BASE in Hb. rewrite !(u64_small (np * 4096)) by lia. set (v0 := acpi_virt_next s) in *.
  change (Z.lor PTE_PRESENT PTE_WRITABLE) with 3.
  set (body := λ i k, let '(result, k) := vmm_map_page root (u64 (v0 + i * 4096)) (u64 (pb + i * 4096)) 3 k in _).
  assert (∀ i k1, 0 ≤ i < np → pages_mapped v0 pb i k k1 →
    match body i k1 with inl k2 => pages_mapped v0 pb (i + 1) k k2 | inr _ => False end) as Hbody.
  { intros i k1 Hi Hm. unfold body. rewrite !u64_small by lia.
    destruct (pages_mapped_next v0 pb i k k1) as (k2 & -> & H2); try done; try (unfold ACPI_VIRT_BASE; lia).
    pose proof (pm_memory _ _ _ _ _ Hm). lia. }
  pose proof (for_until_ind (λ i, pages_mapped v0 pb i k) (λ _ : kmem, False) (Z.to_nat np) 0 body k) as Hl.
  rewrite Z2Nat.id, Z.add_0_l in Hl by lia. specialize (Hl ltac:(split; [by apply region_step_refl|done|lia|done|lia]) Hbody).
  destruct (for_until _ _ _ _) as [k'|k']; [|done]. destruct Hl as [R Hr M O P].
  pose proof (Z.mod_pos_bound phys 4096 ltac:(lia)) as Hmod.
  exists k'. rewrite !u64_small by lia. split; [done|]. split_and!; try (unfold v, s', ACPI_VIRT_BASE; cbn [acpi_virt_next]; lia).
  - split; unfold s'; cbn [acpi_virt_next]; [apply R|congruence|split; [unfold ACPI_VIRT_BASE; lia|by rewrite Z_mod_plus_full]|lia|lia].
  - split; [done|]. intros va Hva. apply O; unfold acpi_addr; lia.
  - intros i Hi. unfold v. eexists. split; [apply P; fold v0; lia|]. fold v0.
    unfold frame. replace 3 with (Z.land 3 3) by done. rewrite Z.land_lor_distr_l. change (Z.land (Z.land 3 3) PTE_ADDR_MASK) with 0.
    rewrite Z.lor_0_r, addr_mask_page by zdm. zdm.
Qed.

(** ** Bytes *)

(** Physical memory holds the bytes [l] at [a], where neither the tables nor
    the allocator write. *)
Definition holds k (a : Z) (l : list Z) : Prop :=
  ∀ i b, l !! i = Some b → rd8 (k_mem k) (a + Z.of_nat i) = b ∧ reserved I root k ((a + Z.of_nat i) / 8 * 8).

Lemma holds_step k k' a l : space_wf I root k → region_step I root k k' → holds k a l → holds k' a l.
Proof.
  intros Hwf Hr Hh i b E. destruct (Hh i b E) as [Hb Hres]. destruct (region_reserved I root k k' _ Hwf Hr Hres) as [Hres' Eq].
  split; [|done]. unfold rd8. by rewrite Eq.
Qed.
End Regions.

(** Code sees the bytes [l] at [v]. *)
Definition sees (k : kmem) (v : Z) (l : list Z) : Prop := ∀ i b, l !! i = Some b → vbyte k (v + Z.of_nat i) = Some b.

Lemma sees_region I root k v phys size l :
  kernel_pml4_phys k = root → maps_to root k v phys size → holds I root k phys l → Z.of_nat (length l) ≤ size → sees k v l.
Proof.
  intros Hroot Hm Hh Hl i b E. pose proof (lookup_lt_Some _ _ _ E). destruct (Hm (Z.of_nat i)) as (e & Hp & Ha); [lia|].
  unfold vbyte, vmm_get_kernel_pml4, user_byte. rewrite Hroot, Hp. cbn [mbind option_bind]. rewrite Ha. by destruct (Hh i b E) as [-> _].
Qed.

Lemma sees_app k v l1 l2 : sees k v (l1 ++ l2) → sees k v l1 ∧ sees k (v + Z.of_nat (length l1)) l2.
Proof.
  intros H. split; intros i b E.
  - apply H. by apply lookup_app_l_Some.
  - rewrite <- Z.add_assoc, <- Nat2Z.inj_add. apply H. rewrite lookup_app_r by lia. by rewrite Nat.add_comm, Nat.add_sub.
Qed.

Lemma sees_cons k v b l : sees k v (b :: l) → vbyte k v = Some b ∧ sees k (v + 1) l.
Proof.
  intros H. split; [specialize (H 0%nat b eq_refl); by rewrite Z.add_0_r in H|].
  intros i c E. specialize (H (S i) c E). rewrite <- H. f_equal. lia.
Qed.

Lemma vload_sees n : ∀ k v x, sees k v (le n x) → 0 ≤ x < 256 ^ Z.of_nat n → vload n k v = Some x.
Proof.
  induction n as [|n IH]; intros k v x Hs Hx; cbn [vload le] in *; [change (256 ^ Z.of_nat 0) with 1 in Hx; f_equal; lia|].
  apply sees_cons in Hs as [-> Hs]. cbn [mbind option_bind]. rewrite Nat2Z.inj_succ, Z.pow_succ_r in Hx by lia.
  rewrite (IH _ _ (x / 256) Hs) by zdm. cbn [mbind option_bind]. f_equal. zdm.
Qed.

Lemma vload_field k v o pre n x post :
  o = Z.of_nat (length pre) → sees k v (pre ++ le n x ++ post) → 0 ≤ x < 256 ^ Z.of_nat n → vload n k (v + o) = Some x.
Proof. intros -> [_ [Hs _]%sees_app]%sees_app Hx. by apply vload_sees. Qed.

Lemma vbyte_at k v l i o b : sees k v l → l !! i = Some b → o = Z.of_nat i → vbyte k (v + o) = Some b.
Proof. intros Hs Hl ->. by apply Hs. Qed.

Lemma sig_match_sees sig : ∀ k v l, sees k v l → length l = length sig → sig_match k v sig = Some (bool_decide (l = sig)).
Proof.
  induction sig as [|c sig IH]; intros k v [|b l] Hs Hl; try done; cbn [sig_match]. apply sees_cons in Hs as [-> Hs]. cbn [mbind option_bind].
  destruct (Z.eqb_spec b c) as [->|Hne].
  - injection Hl as Hl. rewrite (IH k (v + 1) l Hs Hl). f_equal. apply bool_decide_ext. split; congruence.
  - rewrite bool_decide_false; [done|congruence].
Qed.

Lemma acpi_checksum_sees k v l n : n = Z.of_nat (length l) → sees k v l → acpi_checksum k v n = Some (foldl Z.add 0 l mod 256 =? 0).
Proof.
  intros -> Hs. unfold acpi_checksum. rewrite Nat2Z.id. set (body := λ i sum, match vbyte k (v + i) with Some b => _ | None => _ end).
  assert (∀ i sum, 0 ≤ i < 0 + Z.of_nat (length l) → sum = foldl Z.add 0 (take (Z.to_nat i) l) mod 256 →
    match body i sum with inl t => t = foldl Z.add 0 (take (Z.to_nat (i + 1)) l) mod 256 | inr _ => False end) as Hbody.
  { intros i sum Hi ->. unfold body. destruct (lookup_lt_is_Some_2 l (Z.to_nat i)) as [b Hb]; [lia|].
    pose proof (Hs _ _ Hb) as E. rewrite Z2Nat.id in E by lia. rewrite E. replace (Z.to_nat (i + 1)) with (S (Z.to_nat i)) by lia.
    rewrite (take_S_r _ _ _ Hb), foldl_app. cbn [foldl]. unfold u8, wrap. change (2 ^ 8) with 256. zdm. }
  pose proof (for_until_ind (λ i sum, sum = foldl Z.add 0 (take (Z.to_nat i) l) mod 256) (λ _ : unit, False) (length l) 0 body 0 eq_refl Hbody) as H.
  destruct (for_until _ _ _ _) as [sum|]; [|done]. by rewrite H, Z.add_0_l, Nat2Z.id, take_ge.
Qed.

(** ** The entries of the table of interrupt controllers *)

Inductive madt_entry :=
  | LocalApic (processor id flags : Z)
  | IoApic (id address base : Z)
  | SourceOverride (bus irq gsi flags : Z)
  | LapicNmi (processor flags lint : Z)
  | LapicAddress (address : Z)
  | OtherEntry (type : Z) (payload : list Z).

Definition encode_entry (e : madt_entry) : list Z :=
  match e with
  | LocalApic p id fl => [0; 8; p; id] ++ le 4 fl
  | IoApic id a b => [1; 12; id; 0] ++ le 4 a ++ le 4 b
  | SourceOverride bus irq g fl => [2; 10; bus; irq] ++ le 4 g ++ le 2 fl
  | LapicNmi p fl lint => [4; 6; p] ++ le 2 fl ++ [lint]
  | LapicAddress a => [5; 12; 0; 0] ++ le 8 a
  | OtherEntry t l => [t; 2 + Z.of_nat (length l)] ++ l
  end.

Definition entry_ok (e : madt_entry) : Prop :=
  match e with
  | LocalApic p id fl => 0 ≤ fl < 2 ^ 32
  | IoApic id a b => 0 ≤ a < 2 ^ 32 ∧ 0 ≤ b < 2 ^ 32
  | SourceOverride bus irq g fl => 0 ≤ g < 2 ^ 32 ∧ 0 ≤ fl < 2 ^ 16
  | LapicNmi p fl lint => True
  | LapicAddress a => 0 ≤ a < 2 ^ 64
  | OtherEntry t l => t ≠ 0 ∧ t ≠ 1 ∧ t ≠ 2 ∧ t ≠ 4 ∧ t ≠ 5
  end.

(** The effect of an entry. *)
Definition apply_entry (i : acpi_info) (e : madt_entry) : acpi_info :=
  match e with
  | LocalApic p id fl => if tst fl 1 && (cpu_count i <? 256) then add_cpu id i else i
  | IoApic id a b => set_ioapic a id b i
  | SourceOverride bus irq g fl => if override_count i <? MAX_IRQ_OVERRIDES then add_override (IrqOverride irq g fl) i else i
  | LapicAddress a => set_lapic a i
  | LapicNmi _ _ _ | OtherEntry _ _ => i
  end.

Lemma encode_length e : Z.of_nat (length (encode_entry e)) = nth 1 (encode_entry e) 0 ∧ 2 ≤ nth 1 (encode_entry e) 0.
Proof. destruct e; cbn -[le]; rewrite ?length_app, ?le_length; cbn; lia. Qed.

Lemma madt_case_entry k p i e :
  entry_ok e → sees k p (encode_entry e) → madt_case k p (nth 0 (encode_entry e) 0) i = Some (apply_entry i e).
Proof.
  intros Hok Hs. unfold madt_case. destruct e as [q id fl|id a b|bus irq g fl|q fl lint|a|t l]; cbn [encode_entry nth app apply_entry entry_ok] in *.
  - rewrite (vload_field k p 4 [0; 8; q; id] 4 fl []) by (rewrite ?app_nil_r; done). rewrite (vbyte_at _ _ _ 3 3 id Hs) by done. cbn.
    destruct (tst fl 1); cbn; [|done]. by destruct (cpu_count i <? 256).
  - rewrite (vload_field k p 4 [1; 12; id; 0] 4 a (le 4 b)) by (done || tauto). rewrite (vbyte_at _ _ _ 2 2 id Hs) by done.
    by rewrite (vload_field k p 8 ([1; 12; id; 0] ++ le 4 a) 4 b []) by (rewrite ?app_nil_r; done || tauto).
  - rewrite (vbyte_at _ _ _ 3 3 irq Hs) by done. rewrite (vload_field k p 4 [2; 10; bus; irq] 4 g (le 2 fl)) by (done || tauto).
    by rewrite (vload_field k p 8 ([2; 10; bus; irq] ++ le 4 g) 2 fl []) by (rewrite ?app_nil_r; done || tauto).
  - by rewrite (vbyte_at _ _ _ 2 2 q Hs), (vbyte_at _ _ _ 5 5 lint Hs) by done.
  - by rewrite (vload_field k p 4 [5; 12; 0; 0] 8 a []) by (rewrite ?app_nil_r; done).
  - destruct Hok as (? & ? & ? & ? & ?). unfold MADT_ENTRY_LOCAL_APIC, MADT_ENTRY_IO_APIC, MADT_ENTRY_INTERRUPT_OVERRIDE,
      MADT_ENTRY_LOCAL_APIC_NMI, MADT_ENTRY_LOCAL_APIC_OVERRIDE. by rewrite !(proj2 (Z.eqb_neq _ _)) by done.
Qed.

(** The loop on a list of entries. *)
Lemma madt_loop_entries es : ∀ k p i fuel,
  Forall entry_ok es → sees k p (concat (encode_entry <$> es)) → (length (concat (encode_entry <$> es)) ≤ fuel)%nat →
  madt_loop fuel k p (p + Z.of_nat (length (concat (encode_entry <$> es)))) i = Some (foldl apply_entry i es).
Proof.
  induction es as [|e es IH]; intros k p i fuel Hok Hs Hf; cbn [foldl] in *.
  { cbn. rewrite Z.add_0_r. destruct fuel; cbn [madt_loop]; [done|]. by rewrite Z.ltb_irrefl. }
  apply Forall_cons_1 in Hok as [He Hok]. rewrite fmap_cons in *. cbn [concat] in *. rewrite length_app in *. apply sees_app in Hs as [Hs1 Hs2].
  destruct (encode_length e) as [Hl H2]. destruct fuel as [|fuel]; [lia|]. cbn [madt_loop].
  rewrite (proj2 (Z.ltb_lt _ _)) by lia.
  assert (∀ j, (j < 2)%nat → encode_entry e !! j = Some (nth j (encode_entry e) 0)) as Hj.
  { intros j Hj. destruct (lookup_lt_is_Some_2 (encode_entry e) j) as [b Hb]; [lia|]. rewrite Hb. by rewrite (nth_lookup_Some _ _ _ _ Hb). }
  pose proof (Hs1 0%nat _ (Hj 0%nat ltac:(lia))) as E0. rewrite Z.add_0_r in E0. rewrite E0. cbn [mbind option_bind].
  rewrite madt_case_entry by done. cbn [mbind option_bind]. rewrite (vbyte_at k p _ 1 1 _ Hs1 (Hj 1%nat ltac:(lia)) eq_refl). cbn [mbind option_bind].
  assert ((nth 1 (encode_entry e) 0 =? 0) = false) as -> by lia. rewrite <- Hl.
  rewrite Nat2Z.inj_add, Z.add_assoc. apply IH; [done|done|lia].
Qed.

(** ** What the firmware tables are read as *)
(** ** Any table *)

(** The arrays are within their limits. *)
Definition info_wf (i : acpi_info) : Prop := 0 ≤ cpu_count i ≤ 256 ∧ 0 ≤ override_count i ≤ MAX_IRQ_OVERRIDES.

Definition readable (k : kmem) (a b : Z) : Prop := ∀ va, a ≤ va < b → ∃ x, vbyte k va = Some x.

Lemma vbyte_bound k va x : vbyte k va = Some x → 0 ≤ x < 256.
Proof. unfold vbyte, user_byte. destruct (pte_at _ _ _); [|done]. intros [= <-]. apply get_byte_bound. Qed.

Lemma vload_readable n : ∀ k va b, readable k va b → va + Z.of_nat n ≤ b → ∃ x, vload n k va = Some x.
Proof.
  induction n as [|n IH]; intros k va b Hr Hb; cbn [vload]; [by eexists|]. destruct (Hr va) as [x ->]; [lia|].
  destruct (IH k (va + 1) b) as [y ->]; [intros v Hv; apply Hr; lia|lia|]. by eexists.
Qed.

Lemma readable_sub k a b a' b' : readable k a b → a ≤ a' → b' ≤ b → readable k a' b'.
Proof. intros H ?? va ?. apply H. lia. Qed.

(** An entry takes at most twelve bytes and keeps the arrays in bounds. *)
Lemma madt_case_ok k p type i : readable k p (p + 12) → info_wf i → ∃ i', madt_case k p type i = Some i' ∧ info_wf i'.
Proof.
  intros Hr Hi. unfold madt_case.
  assert (∀ n o, 0 ≤ o → o + Z.of_nat n ≤ 12 → ∃ x, vload n k (p + o) = Some x) as Hl.
  { intros n o Ho Hn. eapply vload_readable; [eapply readable_sub; [exact Hr|lia|reflexivity]|lia]. }
  assert (∀ o, 0 ≤ o < 12 → ∃ x, vbyte k (p + o) = Some x) as Hb by (intros o Ho; apply Hr; lia).
  pose proof Hi as [Hc Ho].
  destruct (type =? _).
  { destruct (Hl 4%nat 4) as [fl ->]; [lia|lia|]. destruct (Hb 3) as [id ->]; [lia|]. cbn. destruct (tst fl 1); [|by eexists].
    destruct (Z.ltb_spec (cpu_count i) 256); eexists; (split; [done|]); [|done]. unfold info_wf. cbn. lia. }
  destruct (type =? _).
  { destruct (Hl 4%nat 4) as [a ->]; [lia|lia|]. destruct (Hb 2) as [id ->]; [lia|]. destruct (Hl 4%nat 8) as [b ->]; [lia|lia|]. by eexists. }
  destruct (type =? _).
  { destruct (Hb 3) as [irq ->]; [lia|]. destruct (Hl 4%nat 4) as [g ->]; [lia|lia|]. destruct (Hl 2%nat 8) as [fl ->]; [lia|lia|]. cbn.
    eexists. split; [done|]. destruct (Z.ltb_spec (override_count i) MAX_IRQ_OVERRIDES); [|done]. unfold info_wf. cbn. lia. }
  destruct (type =? _).
  { destruct (Hb 2) as [q ->]; [lia|]. destruct (Hb 5) as [l ->]; [lia|]. by eexists. }
  destruct (type =? _); [|by eexists]. destruct (Hl 8%nat 4) as [a ->]; [lia|lia|]. by eexists.
Qed.

Lemma madt_loop_ends n : ∀ k p end_ i,
  (Z.to_nat (end_ - p) ≤ n)%nat → readable k p (end_ + 11) → info_wf i →
  ∃ i', info_wf i' ∧ ∀ fuel, (n ≤ fuel)%nat → madt_loop fuel k p end_ i = Some i'.
Proof.
  induction n as [|n IH]; intros k p end_ i Hn Hr Hi.
  { exists i. split; [done|]. intros [|fuel] _; cbn [madt_loop]; [done|]. by rewrite (proj2 (Z.ltb_ge _ _)) by lia. }
  destruct (Z.ltb_spec p end_) as [Hlt|Hge].
  2: { exists i. split; [done|]. intros [|fuel] _; cbn [madt_loop]; [done|]. by rewrite (proj2 (Z.ltb_ge _ _)) by lia. }
  destruct (Hr p) as [type Et]; [lia|]. destruct (Hr (p + 1)) as [len El]; [lia|]. pose proof (vbyte_bound _ _ _ El).
  destruct (madt_case_ok k p type i) as (i1 & Ec & Hi1); [eapply readable_sub; [exact Hr|lia|lia]|done|].
  assert (∀ fuel, madt_loop (S fuel) k p end_ i = if len =? 0 then Some i1 else madt_loop fuel k (p + len) end_ i1) as E.
  { intros fuel. cbn [madt_loop]. rewrite (proj2 (Z.ltb_lt _ _)) by lia. rewrite Et. cbn [mbind option_bind]. rewrite Ec.
    cbn [mbind option_bind]. by rewrite El. }
  destruct (Z.eqb_spec len 0) as [->|Hne].
  - exists i1. split; [done|]. intros [|fuel] Hf; [lia|]. by rewrite E.
  - destruct (IH k (p + len) end_ i1) as (i' & Hi' & Hf'); [lia|eapply readable_sub; [exact Hr|lia|lia]|done|].
    exists i'. split; [done|]. intros [|fuel] Hf; [lia|]. rewrite E. apply Hf'. lia.
Qed.

(** Whatever the bytes of the table of interrupt
    controllers are, the loop over its entries ends: [parse_madt] returns, more
    rounds change nothing, and the counts of processors and of overrides stay
    within their arrays.  The memory that must be readable is the table and the
    eleven bytes after it, because the last entry is read before its length is
    looked at. *)
Theorem parse_madt_ends k madt i len :
  info_wf i → vload 4 k (madt + 4) = Some len → readable k madt (madt + sizeof_madt) → readable k madt (madt + len + 11) →
  ∃ i' lapic flags, parse_madt k madt i = Some i' ∧ info_wf i' ∧
    ∀ fuel, (Z.to_nat len ≤ fuel)%nat →
      madt_loop fuel k (madt + sizeof_madt) (madt + len) (set_pic lapic (Z.land flags 1) i) = Some i'.
Proof.
  intros Hi Hlen Hh Hr. unfold parse_madt, sizeof_madt in *.
  destruct (vload_readable 4 k (madt + 36) (madt + 44)) as [lapic ->]; [eapply readable_sub; [exact Hh|lia|lia]|lia|].
  destruct (vload_readable 4 k (madt + 40) (madt + 44)) as [flags ->]; [eapply readable_sub; [exact Hh|lia|lia]|lia|].
  rewrite Hlen. cbn [mbind option_bind].
  destruct (madt_loop_ends (Z.to_nat len) k (madt + 44) (madt + len) (set_pic lapic (Z.land flags 1) i)) as (i' & Hi' & Hf);
    [lia|eapply readable_sub; [exact Hr|lia|lia]|done|].
  exists i', lapic, flags. split_and!; [by apply Hf|done|done].
Qed.

(** ** A table of known entries *)

Definition enabled_cpus (es : list madt_entry) : list Z :=
  omap (λ e, match e with LocalApic _ id fl => if tst fl 1 then Some id else None | _ => None end) es.

Definition source_overrides (es : list madt_entry) : list irq_override :=
  omap (λ e, match e with SourceOverride _ irq g fl => Some (IrqOverride irq g fl) | _ => None end) es.

Definition lapic_addresses (es : list madt_entry) : list Z :=
  omap (λ e, match e with LapicAddress a => Some a | _ => None end) es.

Definition io_apics (es : list madt_entry) : list (Z * Z * Z) :=
  omap (λ e, match e with IoApic id a b => Some (a, id, b) | _ => None end) es.

(** The first processors and overrides that fit, the last address of the local
    and of the I/O controller. *)
Record describes (lapic flags : Z) (es : list madt_entry) (i : acpi_info) : Prop := {
  ds_cpu_count : cpu_count i = Z.min 256 (Z.of_nat (length (enabled_cpus es)));
  ds_cpus : ∀ j id, enabled_cpus es !! j = Some id → Z.of_nat j < 256 → rd (cpu_apic_ids i) (Z.of_nat j) = id;
  ds_override_count : override_count i = Z.min 16 (Z.of_nat (length (source_overrides es)));
  ds_overrides : ∀ j o, source_overrides es !! j = Some o → Z.of_nat j < 16 → overrides i !! Z.of_nat j = Some o;
  ds_lapic : local_apic_address i = default lapic (list.last (lapic_addresses es));
  ds_io_apic : (io_apic_address i, io_apic_id i, io_apic_gsi_base i) = default (0, 0, 0) (list.last (io_apics es));
  ds_pic : has_pic i = Z.land flags 1;
}.

Lemma snoc_lookup {A} (l : list A) x j y : (l ++ [x]) !! j = Some y → l !! j = Some y ∨ (j = length l ∧ y = x).
Proof. rewrite lookup_app_Some. intros [?|[? E]]; [by left|]. destruct (j - length l)%nat eqn:Hj; [|done]. injection E as <-. right. split; [lia|done]. Qed.

(** Each field of [describes] after one more entry. *)
Ltac one_more Ho :=
  split; unfold enabled_cpus, source_overrides, lapic_addresses, io_apics in *; rewrite ?Ho, ?app_nil_r, ?last_snoc.

Lemma describes_snoc lapic flags es e i : describes lapic flags es i → describes lapic flags (es ++ [e]) (apply_entry i e).
Proof.
  intros [H1 H2 H3 H4 H5 H6 H7].
  assert (∀ B (f : madt_entry → option B), omap f (es ++ [e]) = omap f es ++ (match f e with Some x => [x] | None => [] end)) as Ho.
  { intros B f. rewrite omap_app. cbn [omap list_omap]. by destruct (f e). }
  destruct e as [q id fl|id a b|bus irq g fl|q fl lint|a|t l]; cbn [apply_entry];
    [|one_more Ho; done| |one_more Ho; done..].
  - destruct (tst fl 1) eqn:Hfl; cbn [andb]; [|one_more Ho; rewrite ?Hfl, ?app_nil_r; done].
    destruct (Z.ltb_spec (cpu_count i) 256) as [Hlt|Hge].
    + one_more Ho; rewrite ?Hfl; cbn; try done; [rewrite length_app; cbn; lia|].
      intros j x [E|[-> ->]]%snoc_lookup Hj; [|rewrite rd_wr, decide_True by lia; done].
      apply lookup_lt_Some in E as Hjl. rewrite rd_wr, decide_False by lia. by apply H2.
    + one_more Ho; rewrite ?Hfl; cbn; try done; [rewrite length_app; cbn; lia|].
      intros j x [E|[-> ->]]%snoc_lookup Hj; [by apply H2|lia].
  - unfold MAX_IRQ_OVERRIDES. destruct (Z.ltb_spec (override_count i) 16) as [Hlt|Hge].
    + one_more Ho; cbn; try done; [rewrite length_app; cbn; lia|].
      intros j x [E|[-> ->]]%snoc_lookup Hj; [|apply lookup_insert_Some; left; split; [lia|done]].
      apply lookup_lt_Some in E as Hjl. rewrite lookup_insert_ne by lia. by apply H4.
    + one_more Ho; cbn; try done; [rewrite length_app; cbn; lia|].
      intros j x [E|[-> ->]]%snoc_lookup Hj; [by apply H4|lia].
Qed.

Lemma entries_describe lapic flags es :
  describes lapic flags es (foldl apply_entry (set_pic lapic (Z.land flags 1) (acpi_data acpi_boot)) es).
Proof.
  induction es as [|e es IH] using rev_ind; [by split|]. rewrite foldl_app. by apply describes_snoc.
Qed.
