(* ===== verification/AcpiInit.v ===== *)
(** * Finding the interrupt controllers

    Firmware that lays its tables out as the specification says is read back:
    [acpi_init] follows the root pointer to the list of tables, and that to the
    entries. *)
From S2P Require Import Prelude Pmm Page Vmm VmmWalk VmmMap VmmProps VmmCow UserMem UserBytes Acpi AcpiProps.
Local Open Scope Z_scope.

(** ** Tables that are mapped *)

Section Mapped.
Context (I : Z → Prop) (root : Z).
Hypothesis (HI : I 511).
Implicit Types (k : kmem) (s : acpi).

(** The bytes [l] of physical memory are seen at [v], below [lim]. *)
Record mapped (lim v phys : Z) (l : list Z) k : Prop := {
  mp_wf : space_wf I root k;
  mp_root : kernel_pml4_phys k = root;
  mp_holds : holds I root k phys l;
  mp_maps : maps_to root k v phys (Z.of_nat (length l));
  mp_range : ACPI_VIRT_BASE ≤ v ∧ v + Z.of_nat (length l) ≤ lim;
}.

Lemma mapped_sees lim v phys l k : mapped lim v phys l k → sees k v l.
Proof. intros [Hwf Hr Hh Hm Hl]. by eapply sees_region. Qed.

Lemma region_mapped_step lim v phys l k k' : kernel_pml4_phys k' = root → mapped lim v phys l k → acpi_step I root lim k k' → mapped lim v phys l k'.
Proof.
  intros Hr' [Hwf Hr Hh Hm Hl] [R P]. split; [apply R|done|by eapply holds_step| |done].
  intros i Hi. rewrite P by lia. by apply Hm.
Qed.

Lemma holds_prefix k a l l' : holds I root k a (l ++ l') → holds I root k a l.
Proof. intros H i b E. apply H. by apply lookup_app_l_Some. Qed.

Lemma map_table phys size n s k l l' :
  acpi_wf I root (region_pages phys size + n) s k → 0 ≤ n → 0 ≤ phys < 2 ^ 51 → 0 ≤ size < 2 ^ 32 →
  holds I root k phys (l ++ l') → Z.of_nat (length l) = size →
  ∃ v s' k', acpi_map_region phys size s k = (v, s', k') ∧ v ≠ 0 ∧ acpi_data s' = acpi_data s ∧ acpi_virt_next s ≤ acpi_virt_next s' ∧
    acpi_wf I root n s' k' ∧ acpi_step I root (acpi_virt_next s) k k' ∧ mapped (acpi_virt_next s') v phys l k'.
Proof.
  intros Hw Hn Hp Hs Hh Hl. destruct (acpi_map_region_ok I root HI phys size n s k) as (k' & E & Hw' & Hst & Hm & Hv & Hlo & Hhi); [done|lia..|].
  eexists _, _, k'. split; [exact E|]. split_and!; [done|done| |done|done|].
  - cbn [acpi_virt_next]. assert (0 ≤ region_pages phys size) by (unfold region_pages; zdm). lia.
  - split; [apply Hw'|apply Hw'| |by rewrite Hl|lia].
    eapply holds_step; [apply Hw|apply Hst|]. by eapply holds_prefix.
Qed.
End Mapped.

(** ** From the boot loader's pointer to the entries *)

Definition sum (l : list Z) : Z := foldl Z.add 0 l.

(** Firmware with its tables in physical memory.  [fw_before] are the tables
    listed before the one of interrupt controllers, with their headers; an
    address of 0 is skipped. *)
Record firmware := Firmware {
  fw_rsdp : Z;
  fw_oem : list Z;
  fw_revision : Z;
  fw_rsdt : Z;
  fw_length : Z;
  fw_xsdt : Z;
  fw_tail : list Z;
  fw_root_sig : list Z;
  fw_root_rest : list Z;
  fw_before : list (Z * list Z);
  fw_madt : Z;
  fw_after : list Z;
  fw_madt_rest : list Z;
  fw_lapic : Z;
  fw_flags : Z;
  fw_entries : list madt_entry;
}.

Section Firmware.
Context (fw : firmware).

Definition fw_x : bool := 2 <=? fw_revision fw.
Definition fw_root : Z := if fw_x then fw_xsdt fw else fw_rsdt fw.
Definition fw_width : nat := if fw_x then 8 else 4.
Definition fw_tables : list Z := (fst <$> fw_before fw) ++ fw_madt fw :: fw_after fw.

Definition table (sig rest body : list Z) : list Z := sig ++ le 4 (36 + Z.of_nat (length body)) ++ rest ++ body.

Definition rsdp_head : list Z := sig_RSDP ++ fw_oem fw ++ [fw_revision fw] ++ le 4 (fw_rsdt fw).
Definition rsdp_bytes : list Z := rsdp_head ++ le 4 (fw_length fw) ++ le 8 (fw_xsdt fw) ++ fw_tail fw.
Definition root_bytes : list Z := table (fw_root_sig fw) (fw_root_rest fw) (concat (le fw_width <$> fw_tables)).
Definition madt_body : list Z := le 4 (fw_lapic fw) ++ le 4 (fw_flags fw) ++ concat (encode_entry <$> fw_entries fw).
Definition madt_bytes : list Z := table sig_APIC (fw_madt_rest fw) madt_body.

(** Pages mapped on the way. *)
Definition fw_pages : Z :=
  region_pages (fw_rsdp fw) 36 + region_pages fw_root 36 + region_pages fw_root (Z.of_nat (length root_bytes)) +
  foldr (λ t n, region_pages (fst t) 36 + n) 0 (fw_before fw) +
  region_pages (fw_madt fw) 36 + region_pages (fw_madt fw) (Z.of_nat (length madt_bytes)).

(** Sizes and values fit their fields, and checksums are right. *)
Record fw_wf : Prop := {
  fw_lengths : length (fw_oem fw) = 7%nat ∧ length (fw_tail fw) = 4%nat ∧ length (fw_root_sig fw) = 4%nat ∧
    length (fw_root_rest fw) = 28%nat ∧ length (fw_madt_rest fw) = 28%nat;
  fw_values : 0 ≤ fw_rsdt fw < 2 ^ 32 ∧ 0 ≤ fw_xsdt fw < 2 ^ 64 ∧ (fw_x = true → fw_length fw = 36) ∧ 0 ≤ fw_lapic fw < 2 ^ 32 ∧ 0 ≤ fw_flags fw < 2 ^ 32;
  fw_listed : Forall (λ t, 0 ≤ t < 256 ^ Z.of_nat fw_width) fw_tables;
  fw_entries_ok : Forall entry_ok (fw_entries fw);
  fw_sizes : Z.of_nat (length root_bytes) < 2 ^ 32 ∧ Z.of_nat (length madt_bytes) < 2 ^ 32;
  fw_sums : sum rsdp_head mod 256 = 0 ∧ (fw_x = true → sum rsdp_bytes mod 256 = 0) ∧ sum root_bytes mod 256 = 0 ∧ sum madt_bytes mod 256 = 0;
  fw_places : 0 < fw_rsdp fw < 2 ^ 51 ∧ 0 ≤ fw_root < 2 ^ 51 ∧ 0 < fw_madt fw < 2 ^ 51;
}.

(** The bytes are in memory, and no earlier table has the signature. *)
Record fw_in (I : Z → Prop) (root : Z) (k : kmem) : Prop := {
  in_rsdp : holds I root k (fw_rsdp fw) rsdp_bytes;
  in_root : holds I root k fw_root root_bytes;
  in_madt : holds I root k (fw_madt fw) madt_bytes;
  in_before : Forall (λ '(a, h), a = 0 ∨ 0 < a < 2 ^ 51 ∧ holds I root k a h ∧ length h = 36%nat ∧ take 4 h ≠ sig_APIC) (fw_before fw);
}.
End Firmware.

(** ** Fields of a table *)

Definition table_header (sig rest body : list Z) : list Z := sig ++ le 4 (36 + Z.of_nat (length body)) ++ rest.

Lemma table_split sig rest body : table sig rest body = table_header sig rest body ++ body.
Proof. unfold table, table_header. by rewrite <- !app_assoc. Qed.

Lemma header_length sig rest body : length sig = 4%nat → length rest = 28%nat → length (table_header sig rest body) = 36%nat.
Proof. intros H1 H2. unfold table_header. rewrite !length_app, le_length. lia. Qed.

Lemma table_length sig rest body :
  length sig = 4%nat → length rest = 28%nat → Z.of_nat (length (table sig rest body)) = 36 + Z.of_nat (length body).
Proof. intros H1 H2. rewrite table_split, length_app, header_length by done. lia. Qed.

Lemma header_field k v sig rest body :
  sees k v (table_header sig rest body) → length sig = 4%nat → 36 + Z.of_nat (length body) < 2 ^ 32 →
  vload 4 k (v + 4) = Some (36 + Z.of_nat (length body)).
Proof. intros Hs H1 Hl. apply (vload_field k v 4 sig 4 _ rest); [lia|done|]. change (256 ^ Z.of_nat 4) with (2 ^ 32). lia. Qed.

Lemma concat_le_length w ts : length (concat (le w <$> ts)) = (w * length ts)%nat.
Proof. induction ts as [|t ts IH]; [cbn; lia|]. rewrite fmap_cons. cbn [concat length]. rewrite length_app, le_length, IH. lia. Qed.

Lemma listed_field k v w sig rest ts j t :
  sees k v (table sig rest (concat (le w <$> ts))) → length sig = 4%nat → length rest = 28%nat →
  ts !! j = Some t → 0 ≤ t < 256 ^ Z.of_nat w → vload w k (v + sizeof_sdt_header + Z.of_nat j * Z.of_nat w) = Some t.
Proof.
  intros Hs H1 H2 Hj Ht. pose proof (lookup_lt_Some _ _ _ Hj). rewrite table_split in Hs. apply sees_app in Hs as [_ Hs].
  rewrite header_length in Hs by done. rewrite <- (take_drop_middle ts j t Hj), fmap_app, fmap_cons, concat_app in Hs. cbn [concat] in Hs.
  unfold sizeof_sdt_header. eapply (vload_field k (v + 36) _ (concat (le w <$> take j ts)) w t _); [|exact Hs|done].
  rewrite concat_le_length, length_take. lia.
Qed.

(** ** The search *)

Section Init.
Context (fw : firmware) (I : Z → Prop) (root : Z).
Hypothesis (HI : I 511) (Hfw : fw_wf fw).
Implicit Types (k : kmem) (s : acpi).

Definition before_ok k (t : Z * list Z) : Prop :=
  t.1 = 0 ∨ 0 < t.1 < 2 ^ 51 ∧ holds I root k t.1 t.2 ∧ length t.2 = 36%nat ∧ take 4 t.2 ≠ sig_APIC.

Lemma before_ok_step k k' t : space_wf I root k → region_step I root k k' → before_ok k t → before_ok k' t.
Proof. intros Hwf Hr [E|(Ha & Hh & Hl & Hs)]; [by left|right]. split_and!; [lia|lia|by eapply holds_step|done|done]. Qed.

Definition search_pages (before : list (Z * list Z)) : Z :=
  foldr (λ t n, region_pages (fst t) 36 + n) 0 before + region_pages (fw_madt fw) 36 + region_pages (fw_madt fw) (Z.of_nat (length (madt_bytes fw))).

(** What the search starts from. *)
Record searching (lim root_sdt : Z) (before : list (Z * list Z)) (n : Z) s k : Prop := {
  se_wf : acpi_wf I root (search_pages before + n) s k;
  se_root : mapped I root lim root_sdt (fw_root fw) (root_bytes fw) k;
  se_lim : lim ≤ acpi_virt_next s;
  se_before : Forall (before_ok k) before;
  se_madt : holds I root k (fw_madt fw) (madt_bytes fw);
}.

Lemma acpi_wf_less n n' s k : acpi_wf I root n s k → 0 ≤ n' ≤ n → acpi_wf I root n' s k.
Proof. intros [? ? ? ? ?] ?. split; [done|done|done|lia|lia]. Qed.

Lemma region_pages_nonneg phys size : 0 ≤ size → 0 ≤ region_pages phys size.
Proof. intros. unfold region_pages. zdm. Qed.

Lemma search_pages_nonneg before : 0 ≤ search_pages before.
Proof.
  unfold search_pages. pose proof (region_pages_nonneg (fw_madt fw) 36 ltac:(lia)).
  pose proof (region_pages_nonneg (fw_madt fw) (Z.of_nat (length (madt_bytes fw))) ltac:(lia)).
  assert (0 ≤ foldr (λ t n, region_pages (fst t) 36 + n) 0 before); [|lia].
  induction before as [|t l IH]; cbn [foldr]; [lia|]. pose proof (region_pages_nonneg t.1 36 ltac:(lia)). lia.
Qed.

(** A table that is not the one. *)
Lemma search_next lim root_sdt a h before n s k :
  0 ≤ n → a ≠ 0 → searching lim root_sdt ((a, h) :: before) n s k →
  ∃ v s' k', acpi_map_region a sizeof_sdt_header s k = (v, s', k') ∧ (v =? 0) = false ∧ acpi_data s' = acpi_data s ∧
    sig_match k' v sig_APIC = Some false ∧ region_step I root k k' ∧ searching lim root_sdt before n s' k'.
Proof.
  intros Hn Ha [Hwf Hroot Hlim Hb Hm]. apply Forall_cons_1 in Hb as [[E|(Ha' & Hh & Hl & Hsig)] Hb]; [done|]. cbn [fst snd] in *.
  pose proof (search_pages_nonneg before) as Hnn. unfold search_pages in *. cbn [foldr fst] in Hwf.
  destruct (map_table I root HI a 36 (search_pages before + n) s k h []) as (v & s' & k' & E & Hv & Hd & Hnx & Hwf' & Hst & Hmap).
  - eapply acpi_wf_less; [exact Hwf|]. unfold search_pages. pose proof (region_pages_nonneg a 36). lia.
  - unfold search_pages. lia.
  - lia.
  - lia.
  - by rewrite app_nil_r.
  - lia.
  - exists v, s', k'. split_and!; [exact E|by apply Z.eqb_neq|done| |apply Hst|].
    + rewrite (sig_match_sees sig_APIC k' v (take 4 h)); [by rewrite bool_decide_false| |by rewrite length_take, Hl].
      apply mapped_sees in Hmap. rewrite <- (take_drop 4 h) in Hmap. by apply sees_app in Hmap as [? _].
    + split; [done| |lia| |].
      * eapply region_mapped_step; [apply Hwf'|exact Hroot|]. split; [apply Hst|]. intros va Hva. apply (ap_pte _ _ _ _ _ Hst). lia.
      * eapply Forall_impl; [|exact Hb]. intros t. apply before_ok_step; [apply Hwf|apply Hst].
      * eapply holds_step; [apply Hwf|apply Hst|done].
Qed.

(** The result of a search: the whole table is mapped. *)
Definition search_found n s k (r : option (Z * acpi * kmem)) : Prop :=
  ∃ v s' k', r = Some (v, s', k') ∧ (v =? 0) = false ∧ acpi_data s' = acpi_data s ∧ region_step I root k k' ∧
    acpi_wf I root n s' k' ∧ mapped I root (acpi_virt_next s') v (fw_madt fw) (madt_bytes fw) k'.

Lemma search_end lim root_sdt n s k :
  0 ≤ n → searching lim root_sdt [] n s k →
  ∃ v s' k', acpi_map_region (fw_madt fw) sizeof_sdt_header s k = (v, s', k') ∧ (v =? 0) = false ∧ sig_match k' v sig_APIC = Some true ∧
    vload 4 k' (v + 4) = Some (Z.of_nat (length (madt_bytes fw))) ∧
    search_found n s k (Some (acpi_map_region (fw_madt fw) (Z.of_nat (length (madt_bytes fw))) s' k')).
Proof.
  intros Hn [Hwf Hroot Hlim _ Hm]. destruct Hfw as [(_ & _ & _ & _ & Hrest) _ _ _ [_ Hsz] _ [_ [_ Hpl]]].
  set (len := Z.of_nat (length (madt_bytes fw))) in *. pose proof Hm as Hm'. unfold madt_bytes in Hm. rewrite table_split in Hm.
  assert (len = 36 + Z.of_nat (length (madt_body fw))) as Hlen by (by apply table_length).
  pose proof (region_pages_nonneg (fw_madt fw) len ltac:(lia)) as Hnn. unfold search_pages in Hwf. cbn [foldr] in Hwf. rewrite Z.add_0_l, <- Z.add_assoc in Hwf.
  destruct (map_table I root HI (fw_madt fw) 36 (region_pages (fw_madt fw) len + n) s k _ _ Hwf ltac:(lia) ltac:(lia) ltac:(lia) Hm)
    as (v & s' & k' & E & Hv & Hd & Hnx & Hwf' & Hst & Hmap); [by rewrite header_length|].
  apply mapped_sees in Hmap as Hs. exists v, s', k'. split_and!; [exact E|by apply Z.eqb_neq| | |].
  - rewrite (sig_match_sees sig_APIC k' v sig_APIC); [by rewrite bool_decide_true| |done]. by apply sees_app in Hs as [? _].
  - rewrite (header_field k' v sig_APIC _ _ Hs eq_refl) by lia. by rewrite <- Hlen.
  - destruct (map_table I root HI (fw_madt fw) len n s' k' (madt_bytes fw) [] Hwf' Hn ltac:(lia) ltac:(lia))
      as (v2 & s2 & k2 & E2 & Hv2 & Hd2 & Hnx2 & Hwf2 & Hst2 & Hmap2).
    + rewrite app_nil_r. eapply holds_step; [apply Hwf|apply Hst|done].
    + done.
    + exists v2, s2, k2. split_and!; [by rewrite E2|by apply Z.eqb_neq|congruence| |done|done].
      eapply region_step_trans; [apply Hst|apply Hst2].
Qed.

Lemma find_loop_ok before : ∀ done lim root_sdt n s k cnt,
  fw_tables fw = done ++ (fst <$> before) ++ fw_madt fw :: fw_after fw → (length before < cnt)%nat → 0 ≤ n →
  searching lim root_sdt before n s k →
  search_found n s k (find_loop cnt (Z.of_nat (length done)) (fw_width fw) root_sdt sig_APIC s k).
Proof.
  induction before as [|[a h] before IH]; intros done lim root_sdt n s k cnt Htabs Hcnt Hn Hse; (destruct cnt as [|cnt]; [lia|]); cbn [find_loop].
  all: pose proof (mapped_sees _ _ _ _ _ _ _ (se_root _ _ _ _ _ _ Hse)) as Hs; destruct Hfw as [(_ & _ & H1 & H2 & _) _ Hlist _ _ _ [_ [_ Hpl]]].
  all: unfold root_bytes in Hs; rewrite Htabs in Hs, Hlist; cbn [fmap list_fmap app fst] in Hs, Hlist.
  - rewrite (listed_field _ _ _ _ _ _ _ (fw_madt fw) Hs H1 H2); [| |]; cycle 1.
    { by rewrite lookup_app_r, Nat.sub_diag by lia. }
    { apply Forall_app in Hlist as [_ Hlist]. by apply Forall_cons_1 in Hlist as [? _]. }
    cbn [mbind option_bind]. rewrite (proj2 (Z.eqb_neq _ _)) by lia.
    destruct (search_end lim root_sdt n s k Hn Hse) as (v & s' & k' & -> & -> & -> & E & Hfound). cbn [mbind option_bind]. rewrite E. exact Hfound.
  - rewrite (listed_field _ _ _ _ _ _ _ a Hs H1 H2); [| |]; cycle 1.
    { by rewrite lookup_app_r, Nat.sub_diag by lia. }
    { apply Forall_app in Hlist as [_ Hlist]. by apply Forall_cons_1 in Hlist as [? _]. }
    cbn [mbind option_bind].
    assert (Z.of_nat (length done) + 1 = Z.of_nat (length (done ++ [a]))) as -> by (rewrite length_app; cbn; lia).
    assert (fw_tables fw = (done ++ [a]) ++ (fst <$> before) ++ fw_madt fw :: fw_after fw) as Htabs' by (by rewrite <- app_assoc).
    destruct (Z.eqb_spec a 0) as [->|Ha].
    + eapply IH; [done|cbn in Hcnt; lia|done|]. destruct Hse as [Hwf Hr Hlim Hb Hm]. apply Forall_cons_1 in Hb as [_ Hb].
      split; [|done..]. eapply acpi_wf_less; [exact Hwf|]. pose proof (search_pages_nonneg before). unfold search_pages in *. cbn [foldr fst].
      pose proof (region_pages_nonneg 0 36). lia.
    + destruct (search_next lim root_sdt a h before n s k Hn Ha Hse) as (v & s' & k' & -> & -> & Hd & -> & Hst & Hse'). cbn [mbind option_bind].
      destruct (IH (done ++ [a]) lim root_sdt n s' k' cnt Htabs' ltac:(cbn in Hcnt; lia) Hn Hse') as (v2 & s2 & k2 & E & Hv2 & Hd2 & Hst2 & Hrest).
      exists v2, s2, k2. split_and!; [done|done|congruence| |apply Hrest|apply Hrest].
      by eapply region_step_trans.
Qed.

(** The table of interrupt controllers, once mapped. *)
Lemma parse_madt_table k v i :
  sees k v (madt_bytes fw) → parse_madt k v i = Some (foldl apply_entry (set_pic (fw_lapic fw) (Z.land (fw_flags fw) 1) i) (fw_entries fw)).
Proof.
  intros Hs. destruct Hfw as [(_ & _ & _ & _ & Hrest) (_ & _ & _ & Hla & Hfl) _ Hes [_ Hsz] _ _].
  unfold madt_bytes in Hs, Hsz. rewrite table_split in Hs. apply sees_app in Hs as [Hh Hs]. rewrite header_length in Hs by done.
  rewrite table_length in Hsz by done. unfold parse_madt. rewrite (header_field k v sig_APIC _ _ Hh eq_refl) by lia.
  unfold madt_body in Hs. replace (v + 36) with (v + Z.of_nat 36) by lia. rewrite <- (Z.add_0_r (v + Z.of_nat 36)).
  rewrite (vload_field k (v + Z.of_nat 36) 0 [] 4 _ _ eq_refl Hs) by done. cbn [mbind option_bind].
  replace (v + 40) with (v + Z.of_nat 36 + 4) by lia. rewrite (vload_field k (v + Z.of_nat 36) 4 (le 4 (fw_lapic fw)) 4 _ _ eq_refl Hs) by done.
  cbn [mbind option_bind]. rewrite app_assoc in Hs. apply sees_app in Hs as [_ Hs].
  unfold madt_body in *. rewrite !length_app, !le_length in *. unfold sizeof_madt.
  replace (v + (36 + Z.of_nat (4 + (4 + length (concat (encode_entry <$> fw_entries fw))))))
    with (v + 44 + Z.of_nat (length (concat (encode_entry <$> fw_entries fw)))) by lia.
  apply madt_loop_entries; [done| |lia]. by replace (v + 44) with (v + Z.of_nat 36 + Z.of_nat (4 + 4)) by lia.
Qed.

(** The list of tables: its length gives the number of addresses. *)
Lemma find_table_ok lim root_sdt n s k :
  0 ≤ n → searching lim root_sdt (fw_before fw) n s k →
  search_found n s k (find_table root_sdt sig_APIC (fw_x fw) s k).
Proof.
  intros Hn Hse. unfold find_table. change (if fw_x fw then 8%nat else 4%nat) with (fw_width fw).
  pose proof (mapped_sees _ _ _ _ _ _ _ (se_root _ _ _ _ _ _ Hse)) as Hs. destruct Hfw as [(_ & _ & H1 & H2 & _) _ _ _ [Hsz _] _ _].
  unfold root_bytes in Hs, Hsz. rewrite table_length in Hsz by done. rewrite table_split in Hs. apply sees_app in Hs as [Hh _].
  rewrite (header_field k _ _ _ _ Hh H1) by lia. cbn [mbind option_bind]. unfold sizeof_sdt_header.
  rewrite concat_le_length in *. rewrite Z.add_simpl_l, u64_small by lia.
  replace (Z.of_nat (fw_width fw * length (fw_tables fw)) / Z.of_nat (fw_width fw)) with (Z.of_nat (length (fw_tables fw)))
    by (unfold fw_width in *; destruct (fw_x fw); zdm).
  rewrite s32_small by (unfold fw_width in *; destruct (fw_x fw); lia). rewrite Nat2Z.id.
  apply (find_loop_ok (fw_before fw) [] lim root_sdt n s k); [done| |done|done].
  unfold fw_tables. rewrite length_app, length_fmap. cbn. lia.
Qed.

Lemma acpi_root_ok s k :
  acpi_wf I root (region_pages (fw_root fw) 36 + (region_pages (fw_root fw) (Z.of_nat (length (root_bytes fw))) + (search_pages (fw_before fw) + 0))) s k →
  fw_in fw I root k → acpi_data s = acpi_data acpi_boot →
  ∃ s' k', acpi_root (fw_root fw) (fw_x fw) s k = Some (0, s', k') ∧ region_step I root k k' ∧
    describes (fw_lapic fw) (fw_flags fw) (fw_entries fw) (acpi_data s').
Proof.
  intros Hwf [_ Hr Hm Hb] Hd. destruct Hfw as [(_ & _ & H1 & H2 & Hrest) _ _ _ [Hsz Hsm] (_ & _ & Hsum1 & Hsum2) (_ & Hpl & _)].
  pose proof (search_pages_nonneg (fw_before fw)) as Hnn. set (len := Z.of_nat (length (root_bytes fw))) in *.
  assert (len = 36 + Z.of_nat (length (concat (le (fw_width fw) <$> fw_tables fw)))) as Hlen by (by apply table_length).
  pose proof (region_pages_nonneg (fw_root fw) len ltac:(lia)) as Hnn'. unfold acpi_root, sizeof_sdt_header.
  pose proof Hr as Hr'. unfold root_bytes in Hr'. rewrite table_split in Hr'.
  destruct (map_table I root HI _ 36 _ s k _ _ Hwf ltac:(lia) ltac:(lia) ltac:(lia) Hr') as (v & s1 & k1 & -> & Hv & Hd1 & Hn1 & Hwf1 & Hst1 & Hmap1);
    [by rewrite header_length|]. rewrite (proj2 (Z.eqb_neq _ _) Hv).
  rewrite (header_field _ _ _ _ _ (mapped_sees _ _ _ _ _ _ _ Hmap1) H1) by lia. rewrite <- Hlen. cbn [mbind option_bind].
  destruct (map_table I root HI (fw_root fw) len _ s1 k1 (root_bytes fw) [] Hwf1 ltac:(lia) ltac:(lia) ltac:(lia))
    as (v2 & s2 & k2 & -> & Hv2 & Hd2 & Hn2 & Hwf2 & Hst2 & Hmap2); [rewrite app_nil_r; eapply holds_step; [apply Hwf|apply Hst1|done]|done|].
  rewrite (proj2 (Z.eqb_neq _ _) Hv2). pose proof (mapped_sees _ _ _ _ _ _ _ Hmap2) as Hs2.
  assert (vload 4 k2 (v2 + 4) = Some len) as ->.
  { unfold root_bytes in Hs2. rewrite table_split in Hs2. apply sees_app in Hs2 as [Hs2 _]. rewrite (header_field _ _ _ _ _ Hs2 H1) by lia. by rewrite <- Hlen. }
  cbn [mbind option_bind]. rewrite (acpi_checksum_sees _ _ _ len eq_refl Hs2). cbn [mbind option_bind]. unfold sum in Hsum1, Hsum2. rewrite Hsum1. cbn [Z.eqb negb].
  assert (region_step I root k k2) as Hst by (eapply region_step_trans; [apply Hst1|apply Hst2]).
  destruct (find_table_ok (acpi_virt_next s2) v2 0 s2 k2 ltac:(lia)) as (v3 & s3 & k3 & -> & Hv3 & Hd3 & Hst3 & Hwf3 & Hmap3).
  { split; [done|done|lia| |by eapply holds_step; [apply Hwf| |]]. eapply Forall_impl; [|exact Hb].
    intros [a h] Ht. eapply before_ok_step; [apply Hwf|exact Hst|exact Ht]. }
  cbn [mbind option_bind]. rewrite Hv3. pose proof (mapped_sees _ _ _ _ _ _ _ Hmap3) as Hs3.
  assert (vload 4 k3 (v3 + 4) = Some (Z.of_nat (length (madt_bytes fw)))) as ->.
  { unfold madt_bytes in Hs3, Hsm |- *. rewrite table_length in * by done. rewrite table_split in Hs3. apply sees_app in Hs3 as [Hs3 _].
    by rewrite (header_field _ _ _ _ _ Hs3 eq_refl) by lia. }
  cbn [mbind option_bind]. rewrite (acpi_checksum_sees _ _ _ _ eq_refl Hs3). cbn [mbind option_bind]. rewrite Hsum2. cbn [Z.eqb negb].
  rewrite (parse_madt_table _ _ _ Hs3). cbn [mbind option_bind]. eexists _, k3. split; [done|]. split; [by eapply region_step_trans|].
  cbn [acpi_data]. replace (acpi_data s3) with (acpi_data acpi_boot) by congruence. apply entries_describe.
Qed.

Lemma rsdp_lengths : length (rsdp_head fw) = 20%nat ∧ length (rsdp_bytes fw) = 36%nat.
Proof.
  destruct Hfw as [(Ho & Ht & _) _ _ _ _ _ _]. assert (length (rsdp_head fw) = 20%nat) as Hh by (unfold rsdp_head; rewrite !length_app, le_length, Ho; done).
  split; [done|]. unfold rsdp_bytes. rewrite !length_app, !le_length, Hh, Ht. done.
Qed.

(** The root pointer, once mapped, leads to the root table. *)
Lemma acpi_rsdp_ok v s k : sees k v (rsdp_bytes fw) → acpi_rsdp v s k = acpi_root (fw_root fw) (fw_x fw) s k.
Proof.
  intros Hsall. destruct rsdp_lengths as [Hh Hb]. destruct Hfw as [(Ho & _) (Hv1 & Hv2 & Hlen & _) _ _ _ (Hs1 & Hs2 & _) _].
  pose proof Hsall as Hs. unfold rsdp_bytes in Hs. pose proof Hs as [Hhead _]%sees_app.
  pose proof Hhead as Hhead'. unfold rsdp_head in Hhead'. apply sees_app in Hhead' as [Hsig _]. unfold acpi_rsdp, sum in *.
  rewrite (sig_match_sees _ _ _ _ Hsig eq_refl), bool_decide_true by done. cbn [mbind option_bind negb].
  rewrite (acpi_checksum_sees _ _ (rsdp_head fw) 20) by (done || lia). rewrite Hs1. cbn [mbind option_bind Z.eqb negb].
  rewrite (vbyte_at _ _ _ 15 15 (fw_revision fw) Hhead); [|unfold rsdp_head; rewrite app_assoc, lookup_app_r; rewrite length_app, Ho; done|done].
  cbn [mbind option_bind]. fold (fw_x fw). unfold fw_root. destruct (fw_x fw) eqn:Hx.
  - rewrite (vload_field k v 20 (rsdp_head fw) 4 (fw_length fw) _ ltac:(lia) Hs) by (rewrite Hlen by done; done). rewrite Hlen by done. cbn [mbind option_bind].
    rewrite (acpi_checksum_sees _ _ (rsdp_bytes fw) 36) by (done || lia). rewrite Hs2 by done. cbn [mbind option_bind Z.eqb negb].
    rewrite app_assoc in Hs. by rewrite (vload_field k v 24 (rsdp_head fw ++ le 4 (fw_length fw)) 8 (fw_xsdt fw) _ ltac:(rewrite length_app, le_length; lia) Hs) by done.
  - assert (sees k v ((sig_RSDP ++ fw_oem fw ++ [fw_revision fw]) ++ le 4 (fw_rsdt fw) ++ [])) as Hf
      by (rewrite app_nil_r, <- !app_assoc; exact Hhead).
    by rewrite (vload_field k v 16 (sig_RSDP ++ fw_oem fw ++ [fw_revision fw]) 4 (fw_rsdt fw) [] ltac:(rewrite !length_app, Ho; done) Hf) by done.
Qed.

(** C33 [acpi_init_finds_controllers]: if the firmware's tables are in physical
    memory as the specification lays them out, with right checksums, in places
    the kernel does not use, and there is memory for the page tables, then
    [acpi_init] returns 0, through the old or the new root table, and what it
    recorded is what the entries say: the first 256 enabled processors, the
    first 16 interrupt overrides, the last address given for the local and for
    the I/O controller.  Memory outside page tables and free pages is left
    alone. *)
Theorem acpi_init_finds_controllers k :
  fw_in fw I root k → acpi_wf I root (fw_pages fw) acpi_boot k →
  ∃ s' k', acpi_init (fw_rsdp fw) acpi_boot k = Some (0, s', k') ∧
    describes (fw_lapic fw) (fw_flags fw) (fw_entries fw) (acpi_data s') ∧
    space_wf I root k' ∧ ∀ x, reserved I root k x → rd (k_mem k') x = rd (k_mem k) x.
Proof.
  intros Hin Hwf. destruct rsdp_lengths as [_ Hb]. pose proof (fw_places _ Hfw) as (Hpl & _).
  set (n := region_pages (fw_root fw) 36 + (region_pages (fw_root fw) (Z.of_nat (length (root_bytes fw))) + (search_pages (fw_before fw) + 0))).
  assert (0 ≤ n) as Hn by (unfold n; pose proof (search_pages_nonneg (fw_before fw)); pose proof (region_pages_nonneg (fw_root fw) 36);
    pose proof (region_pages_nonneg (fw_root fw) (Z.of_nat (length (root_bytes fw)))); lia).
  replace (fw_pages fw) with (region_pages (fw_rsdp fw) 36 + n) in Hwf by (unfold fw_pages, n, search_pages; lia).
  unfold acpi_init, sizeof_rsdp2. rewrite (proj2 (Z.eqb_neq _ _)) by lia.
  destruct (map_table I root HI (fw_rsdp fw) 36 n acpi_boot k (rsdp_bytes fw) [] Hwf Hn ltac:(lia) ltac:(lia))
    as (v & s1 & k1 & -> & Hv & Hd & _ & Hwf1 & Hst & Hmap); [rewrite app_nil_r; apply Hin|lia|].
  rewrite (proj2 (Z.eqb_neq _ _) Hv), acpi_rsdp_ok by (by eapply mapped_sees).
  assert (fw_in fw I root k1) as Hin1.
  { destruct Hin as [H1 H2 H3 H4]. split; [eapply holds_step; [apply Hwf|apply Hst|done]..|].
    eapply Forall_impl; [|exact H4]. intros [a h] Ht'. eapply (before_ok_step k k1 (a, h)); [apply Hwf|apply Hst|exact Ht']. }
  destruct (acpi_root_ok s1 k1 Hwf1 Hin1 Hd) as (s2 & k2 & -> & Hst2 & Hds).
  assert (region_step I root k k2) as Hr by (eapply region_step_trans; [apply Hst|done]).
  exists s2, k2. split_and!; [done|done|apply Hr|]. intros x Hx. by apply (region_reserved _ _ _ _ _ (aw_space _ _ _ _ _ Hwf) Hr).
Qed.
End Init.
