(* ===== verification/Ioapic.v ===== *)
(** * I/O interrupt controller ([arch/x86/kernel/ioapic.c], [ioapic.h])

    The controller has 32-bit registers behind a select and a window register.
    Its select register is eight bits wide.  The two status bits of an entry
    that the device sets itself are ordinary bits here.  [None] is an access
    through a null base, which faults. *)
From S2P Require Import Prelude Pmm Page Vmm VmmWalk VmmMap VmmProps VmmCow UserMem UserBytes Acpi AcpiProps.
Local Open Scope Z_scope.

Definition IOAPIC_VER : Z := 0x01.
Definition IOAPIC_REDTBL_BASE : Z := 0x10.
Definition IOAPIC_DELIVERY_FIXED : Z := Z.shiftl 0 8.
Definition IOAPIC_DESTMODE_PHYSICAL : Z := Z.shiftl 0 11.
Definition IOAPIC_POLARITY_HIGH : Z := Z.shiftl 0 13.
Definition IOAPIC_POLARITY_LOW : Z := Z.shiftl 1 13.
Definition IOAPIC_TRIGGER_EDGE : Z := Z.shiftl 0 15.
Definition IOAPIC_TRIGGER_LEVEL : Z := Z.shiftl 1 15.
Definition IOAPIC_MASKED : Z := Z.shiftl 1 16.
Definition IOAPIC_DEST (apic_id : Z) : Z := Z.shiftl apic_id 56.

Definition ioapic_virt : Z := 0xFFFFFFFD00001000.

(** The device, and the static variables of the driver. *)
Record ioapic := Ioapic {
  regsel : Z;
  regs : gmap Z Z;
  ioapic_base : Z;
  ioapic_max_entry : Z;
}.

Definition set_base (b : Z) (d : ioapic) : ioapic := Ioapic (regsel d) (regs d) b (ioapic_max_entry d).
Definition set_max (m : Z) (d : ioapic) : ioapic := Ioapic (regsel d) (regs d) (ioapic_base d) m.

(** ** Registers *)

Definition ioapic_read (reg : Z) (d : ioapic) : option (Z * ioapic) :=
  if ioapic_base d =? 0 then None
  else let d := Ioapic (reg mod 256) (regs d) (ioapic_base d) (ioapic_max_entry d) in Some (rd (regs d) (regsel d), d).

Definition ioapic_write (reg value : Z) (d : ioapic) : option ioapic :=
  if ioapic_base d =? 0 then None
  else Some (Ioapic (reg mod 256) (wr (regs d) (reg mod 256) value) (ioapic_base d) (ioapic_max_entry d)).

Definition ioapic_read_redir (entry : Z) (d : ioapic) : option (Z * ioapic) :=
  '(lo, d) ← ioapic_read (IOAPIC_REDTBL_BASE + entry * 2) d;
  '(hi, d) ← ioapic_read (IOAPIC_REDTBL_BASE + entry * 2 + 1) d;
  Some (Z.lor (u64 (Z.shiftl hi 32)) lo, d).

Definition ioapic_write_redir (entry value : Z) (d : ioapic) : option ioapic :=
  d ← ioapic_write (IOAPIC_REDTBL_BASE + entry * 2) (u32 value) d;
  ioapic_write (IOAPIC_REDTBL_BASE + entry * 2 + 1) (u32 (Z.shiftr value 32)) d.

(** ** Operations *)

(** Read, change and write back an entry. *)
Definition change_redir (entry : Z) (f : Z → Z) (d : ioapic) : option ioapic :=
  '(v, d) ← ioapic_read_redir entry d;
  ioapic_write_redir entry (f v) d.

(** The loop of [ioapic_init]. *)
Fixpoint mask_entries (n : nat) (i : Z) (d : ioapic) : option ioapic :=
  match n with
  | O => Some d
  | S n => d ← change_redir (u8 i) (λ v, Z.lor v IOAPIC_MASKED) d; mask_entries n (i + 1) d
  end.

Definition ioapic_init (info : acpi_info) (d : ioapic) (k : kmem) : option (ioapic * kmem) :=
  let pml4 := vmm_get_kernel_pml4 k in
  let '(result, k) := vmm_map_page pml4 ioapic_virt (io_apic_address info) (Z.lor (Z.lor PTE_PRESENT PTE_WRITABLE) PTE_NOCACHE) k in
  if negb (result =? 0) then Some (d, k)
  else
    '(ver, d) ← ioapic_read IOAPIC_VER (set_base ioapic_virt d);
    let d := set_max (Z.land (Z.shiftr ver 16) 0xFF) d in
    d ← mask_entries (Z.to_nat (ioapic_max_entry d + 1)) 0 d;
    Some (d, k).

(** The pin of an interrupt, with its polarity and trigger mode. *)
Definition irq_to_gsi (info : acpi_info) (irq : Z) : Z * Z * Z :=
  match for_until (Z.to_nat (override_count info)) 0 (λ i (_ : unit),
          let o := default (IrqOverride 0 0 0) (overrides info !! i) in
          if irq_source o =? irq then
            let pol := Z.land (ovr_flags o) 3 in
            let trig := Z.land (Z.shiftr (ovr_flags o) 2) 3 in
            inr (gsi o, if pol =? 3 then IOAPIC_POLARITY_LOW else IOAPIC_POLARITY_HIGH,
                 if trig =? 3 then IOAPIC_TRIGGER_LEVEL else IOAPIC_TRIGGER_EDGE)
          else inl tt) tt with
  | inr r => r
  | inl _ => (irq, IOAPIC_POLARITY_HIGH, IOAPIC_TRIGGER_EDGE)
  end.

Definition ioapic_route_irq (info : acpi_info) (irq vector apic_id : Z) (d : ioapic) : option ioapic :=
  let '(g, polarity, trigger) := irq_to_gsi info irq in
  if ioapic_max_entry d <? g then Some d
  else
    let entry := Z.lor (Z.lor (Z.lor (Z.lor (Z.lor vector IOAPIC_DELIVERY_FIXED) IOAPIC_DESTMODE_PHYSICAL) polarity) trigger)
                   (IOAPIC_DEST apic_id) in
    ioapic_write_redir (u8 g) entry d.

Definition ioapic_mask_irq (irq : Z) (d : ioapic) : option ioapic :=
  if ioapic_max_entry d <? irq then Some d else change_redir irq (λ v, Z.lor v IOAPIC_MASKED) d.

Definition ioapic_unmask_irq (irq : Z) (d : ioapic) : option ioapic :=
  if ioapic_max_entry d <? irq then Some d else change_redir irq (λ v, Z.land v (~64 IOAPIC_MASKED)) d.

(** ** Entries *)

Definition redir (d : ioapic) (i : Z) : Z :=
  Z.lor (Z.shiftl (rd (regs d) (IOAPIC_REDTBL_BASE + i * 2 + 1)) 32) (rd (regs d) (IOAPIC_REDTBL_BASE + i * 2)).

(** Mapped, with 32-bit registers and entries in reach of the select register. *)
Record ioapic_wf (d : ioapic) : Prop := {
  iw_base : ioapic_base d ≠ 0;
  iw_max : 0 ≤ ioapic_max_entry d < 120;
  iw_regs : ∀ r, 0 ≤ rd (regs d) r < 2 ^ 32;
}.

Lemma redir_bound d i : (∀ r, 0 ≤ rd (regs d) r < 2 ^ 32) → 0 ≤ redir d i < 2 ^ 64.
Proof.
  intros H. unfold redir. pose proof (H (IOAPIC_REDTBL_BASE + i * 2 + 1)). pose proof (H (IOAPIC_REDTBL_BASE + i * 2)).
  rewrite lor_shiftl_add by lia. lia.
Qed.

Lemma ioapic_read_redir_ok d i : ioapic_wf d → 0 ≤ i < 120 → ∃ s, ioapic_read_redir i d = Some (redir d i, Ioapic s (regs d) (ioapic_base d) (ioapic_max_entry d)).
Proof.
  intros [Hb _ Hr] Hi. unfold ioapic_read_redir, ioapic_read. rewrite (proj2 (Z.eqb_neq _ _) Hb). cbn [mbind option_bind ioapic_base regs regsel].
  rewrite (proj2 (Z.eqb_neq _ _) Hb). cbn [mbind option_bind ioapic_base regs regsel ioapic_max_entry].
  rewrite !Z.mod_small by (unfold IOAPIC_REDTBL_BASE; lia). eexists. do 3 f_equal. unfold redir. f_equal. rewrite Z.shiftl_mul_pow2 by lia.
  apply u64_small. pose proof (Hr (IOAPIC_REDTBL_BASE + i * 2 + 1)). lia.
Qed.

(** The device after an entry was written. *)
Record redir_set (i v : Z) (d d' : ioapic) : Prop := {
  ri_wf : ioapic_wf d';
  ri_max : ioapic_max_entry d' = ioapic_max_entry d;
  ri_redir : ∀ j, redir d' j = if decide (j = i) then v else redir d j;
}.

Lemma ioapic_write_redir_ok d i v :
  ioapic_wf d → 0 ≤ i < 120 → 0 ≤ v < 2 ^ 64 → ∃ d', ioapic_write_redir i v d = Some d' ∧ redir_set i v d d'.
Proof.
  intros [Hb Hm Hr] Hi Hv. unfold ioapic_write_redir, ioapic_write. rewrite (proj2 (Z.eqb_neq _ _) Hb). cbn [mbind option_bind ioapic_base regs].
  rewrite (proj2 (Z.eqb_neq _ _) Hb). eexists. split; [done|]. cbn [ioapic_max_entry]. rewrite !Z.mod_small by (unfold IOAPIC_REDTBL_BASE; lia).
  split; [split; cbn [ioapic_base ioapic_max_entry regs]; [done|done|]|done|].
  - intros r. rewrite !rd_wr. repeat case_decide; [apply wrap_bound; lia|apply wrap_bound; lia|apply Hr].
  - intros j. unfold redir. cbn [regs]. rewrite !rd_wr. destruct (decide (j = i)) as [->|Hne].
    + rewrite decide_True by done. rewrite decide_False by lia. rewrite decide_True by done.
      unfold u32, wrap. rewrite lor_shiftl_add by (lia || apply Z.mod_pos_bound; lia). rewrite Z.shiftr_div_pow2 by lia.
      change (2 ^ 32) with 4294967296 in *. change (2 ^ 64) with 18446744073709551616 in *. zdm.
    + by rewrite !decide_False by lia.
Qed.

Lemma change_redir_ok d i f :
  ioapic_wf d → 0 ≤ i < 120 → (∀ v, 0 ≤ v < 2 ^ 64 → 0 ≤ f v < 2 ^ 64) →
  ∃ d', change_redir i f d = Some d' ∧ redir_set i (f (redir d i)) d d'.
Proof.
  intros Hwf Hi Hf. unfold change_redir. destruct (ioapic_read_redir_ok d i Hwf Hi) as [s ->]. cbn [mbind option_bind].
  destruct (ioapic_write_redir_ok (Ioapic s (regs d) (ioapic_base d) (ioapic_max_entry d)) i (f (redir d i))) as (d' & E & [H1 H2 H3]).
  - by destruct Hwf.
  - done.
  - apply Hf, redir_bound, Hwf.
  - by exists d'.
Qed.

(** ** Pins *)

Record pin := Pin {
  pin_vector : Z;
  pin_masked : bool;
  pin_low : bool;
  pin_level : bool;
  pin_dest : Z;
}.

Definition pin_of (v : Z) : pin :=
  Pin (Z.land v 255) (Z.testbit v 16) (Z.testbit v 13) (Z.testbit v 15) (Z.shiftr v 56).

Definition set_masked (b : bool) (p : pin) : pin := Pin (pin_vector p) b (pin_low p) (pin_level p) (pin_dest p).

Lemma mask_pin v : 0 ≤ v < 2 ^ 64 → 0 ≤ Z.lor v IOAPIC_MASKED < 2 ^ 64 ∧ pin_of (Z.lor v IOAPIC_MASKED) = set_masked true (pin_of v).
Proof.
  intros Hv. split; [by apply (lor_bound v IOAPIC_MASKED 64)|]. unfold pin_of, set_masked. cbn [pin_vector pin_low pin_level pin_dest].
  rewrite Z.land_lor_distr_l, Z.shiftr_lor, !Z.lor_spec. change (Z.land IOAPIC_MASKED 255) with 0. change (Z.shiftr IOAPIC_MASKED 56) with 0.
  change (Z.testbit IOAPIC_MASKED 16) with true. change (Z.testbit IOAPIC_MASKED 13) with false. change (Z.testbit IOAPIC_MASKED 15) with false.
  by rewrite !Z.lor_0_r, orb_true_r, !orb_false_r.
Qed.

Lemma unmask_pin v : 0 ≤ v < 2 ^ 64 → 0 ≤ Z.land v (~64 IOAPIC_MASKED) < 2 ^ 64 ∧ pin_of (Z.land v (~64 IOAPIC_MASKED)) = set_masked false (pin_of v).
Proof.
  intros Hv. split; [by apply land_bound_l|]. unfold pin_of, set_masked. cbn [pin_vector pin_low pin_level pin_dest].
  rewrite <- Z.land_assoc, Z.shiftr_land, !Z.land_spec. change (Z.land (~64 IOAPIC_MASKED) 255) with 255. change (Z.shiftr (~64 IOAPIC_MASKED) 56) with (Z.ones 8).
  change (Z.testbit (~64 IOAPIC_MASKED) 16) with false. change (Z.testbit (~64 IOAPIC_MASKED) 13) with true. change (Z.testbit (~64 IOAPIC_MASKED) 15) with true.
  rewrite !andb_true_r, andb_false_r, Z.land_ones by lia. f_equal. rewrite Z.mod_small; [done|]. rewrite Z.shiftr_div_pow2 by lia.
  change (2 ^ 56) with 72057594037927936. change (2 ^ 64) with 18446744073709551616 in Hv. zdm.
Qed.

(** A routed entry. *)
Lemma route_pin vector apic_id (low level : bool) :
  0 ≤ vector < 256 → 0 ≤ apic_id < 256 →
  let v := Z.lor (Z.lor (Z.lor (Z.lor (Z.lor vector IOAPIC_DELIVERY_FIXED) IOAPIC_DESTMODE_PHYSICAL)
    (if low then IOAPIC_POLARITY_LOW else IOAPIC_POLARITY_HIGH)) (if level then IOAPIC_TRIGGER_LEVEL else IOAPIC_TRIGGER_EDGE)) (IOAPIC_DEST apic_id) in
  0 ≤ v < 2 ^ 64 ∧ pin_of v = Pin vector false low level apic_id.
Proof.
  intros Hv Ha v. set (f := Z.lor (Z.shiftl (Z.b2z low) 13) (Z.shiftl (Z.b2z level) 15)).
  assert (v = Z.lor (Z.lor vector f) (Z.shiftl apic_id 56)) as ->.
  { unfold v, f, IOAPIC_DEST. change IOAPIC_DELIVERY_FIXED with 0. change IOAPIC_DESTMODE_PHYSICAL with 0. rewrite !Z.lor_0_r.
    destruct low, level; cbn [Z.b2z]; change IOAPIC_POLARITY_HIGH with 0; change IOAPIC_TRIGGER_EDGE with 0; rewrite ?Z.shiftl_0_l, ?Z.lor_0_r, ?Z.lor_0_l, <- ?Z.lor_assoc; done. }
  assert (0 ≤ f < 2 ^ 16) as Hf by (by destruct low, level).
  assert (0 ≤ Z.lor vector f < 2 ^ 16) as Hvf by (apply (lor_bound vector f 16); lia).
  assert (∀ n, 0 ≤ n → n < 56 → Z.testbit (Z.lor (Z.lor vector f) (Z.shiftl apic_id 56)) n = Z.testbit vector n || Z.testbit f n) as Hlow
    by (intros n Hn Hn'; rewrite !Z.lor_spec, Z.shiftl_spec_low by lia; by rewrite orb_false_r).
  split; [rewrite Z.lor_comm, lor_shiftl_add by lia; lia|]. unfold pin_of. rewrite !Hlow by lia. rewrite !(small_testbit vector 8) by lia.
  rewrite (small_testbit f 16 16) by lia. assert (Z.testbit f 13 = low ∧ Z.testbit f 15 = level) as [-> ->] by (by destruct low, level). f_equal; [|done..|].
  - rewrite !Z.land_lor_distr_l. change 255 with (Z.ones 8). rewrite !Z.land_ones by lia. rewrite (Z.mod_small vector) by lia.
    assert (f mod 2 ^ 8 = 0) as -> by (by destruct low, level). rewrite Z.shiftl_mul_pow2 by lia.
    replace (apic_id * 2 ^ 56) with (apic_id * 2 ^ 48 * 2 ^ 8) by lia. rewrite Z.mod_mul by lia. by rewrite !Z.lor_0_r.
  - rewrite Z.shiftr_lor, Z.shiftr_shiftl_l by lia. rewrite (Z.shiftr_div_pow2 (Z.lor vector f)), Z.div_small by lia. by rewrite Z.lor_0_l, Z.shiftl_0_r.
Qed.

(** ** Interrupt routing *)
(** ** What the firmware says about an interrupt *)

(** The pin of an interrupt, whether it is active low and level triggered: the
    first override for it, or the pin of its number. *)
Definition pin_for (ovs : list irq_override) (irq : Z) : Z * bool * bool :=
  match filter (λ o, irq_source o = irq) ovs with
  | o :: _ => (gsi o, Z.land (ovr_flags o) 3 =? 3, Z.land (Z.shiftr (ovr_flags o) 2) 3 =? 3)
  | [] => (irq, false, false)
  end.

Lemma irq_to_gsi_first info ovs irq :
  override_count info = Z.of_nat (length ovs) → (∀ j o, ovs !! j = Some o → overrides info !! Z.of_nat j = Some o) →
  let '(g, low, level) := pin_for ovs irq in
  irq_to_gsi info irq = (g, if low : bool then IOAPIC_POLARITY_LOW else IOAPIC_POLARITY_HIGH, if level : bool then IOAPIC_TRIGGER_LEVEL else IOAPIC_TRIGGER_EDGE).
Proof.
  intros Hc Ho. unfold irq_to_gsi. rewrite Hc, Nat2Z.id.
  match goal with |- context [for_until _ _ ?f _] => set (body := f) end.
  assert (∀ pre rest, ovs = pre ++ rest →
    let '(g, low, level) := pin_for rest irq in
    match for_until (length rest) (Z.of_nat (length pre)) body tt with inr r => r | inl _ => (irq, IOAPIC_POLARITY_HIGH, IOAPIC_TRIGGER_EDGE) end =
      (g, if low : bool then IOAPIC_POLARITY_LOW else IOAPIC_POLARITY_HIGH, if level : bool then IOAPIC_TRIGGER_LEVEL else IOAPIC_TRIGGER_EDGE)) as H.
  { intros pre rest. revert pre. induction rest as [|o rest IH]; intros pre E; [done|]. unfold pin_for. rewrite filter_cons. cbn [length]. rewrite for_until_S.
    assert (body (Z.of_nat (length pre)) tt = if irq_source o =? irq then
      inr (gsi o, if Z.land (ovr_flags o) 3 =? 3 then IOAPIC_POLARITY_LOW else IOAPIC_POLARITY_HIGH,
           if Z.land (Z.shiftr (ovr_flags o) 2) 3 =? 3 then IOAPIC_TRIGGER_LEVEL else IOAPIC_TRIGGER_EDGE) else inl tt) as ->.
    { unfold body. rewrite (Ho (length pre) o); [done|]. by rewrite E, lookup_app_r, Nat.sub_diag by lia. }
    destruct (Z.eqb_spec (irq_source o) irq) as [Heq|Hne]; [by rewrite decide_True|]. rewrite decide_False by done.
    specialize (IH (pre ++ [o]) ltac:(by rewrite <- app_assoc)). unfold pin_for in IH. rewrite length_app in IH. cbn [length] in IH.
    by replace (Z.of_nat (length pre) + 1) with (Z.of_nat (length pre + 1)) by lia. }
  exact (H [] ovs eq_refl).
Qed.

(** ** Operations *)

Inductive irq_op :=
  | Route (irq vector apic_id : Z)
  | Mask (irq : Z)
  | Unmask (irq : Z).

Definition op_ok (o : irq_op) : Prop :=
  match o with
  | Route irq vector apic_id => 0 ≤ irq < 256 ∧ 0 ≤ vector < 256 ∧ 0 ≤ apic_id < 256
  | Mask irq | Unmask irq => 0 ≤ irq < 256
  end.

Definition exec_irq (info : acpi_info) (o : irq_op) (d : ioapic) : option ioapic :=
  match o with
  | Route irq vector apic_id => ioapic_route_irq info irq vector apic_id d
  | Mask irq => ioapic_mask_irq irq d
  | Unmask irq => ioapic_unmask_irq irq d
  end.

Fixpoint exec_irqs (info : acpi_info) (os : list irq_op) (d : ioapic) : option ioapic :=
  match os with
  | [] => Some d
  | o :: os => d ← exec_irq info o d; exec_irqs info os d
  end.

(** The same on a table of pins 0 to [max]. *)
Definition set_pin (i : Z) (p : pin) (ps : Z → pin) (j : Z) : pin := if decide (j = i) then p else ps j.

Definition pin_step (ovs : list irq_override) (max : Z) (ps : Z → pin) (o : irq_op) : Z → pin :=
  match o with
  | Route irq vector apic_id =>
      let '(g, low, level) := pin_for ovs irq in
      if max <? g then ps else set_pin g (Pin vector false low level apic_id) ps
  | Mask irq => if max <? irq then ps else set_pin irq (set_masked true (ps irq)) ps
  | Unmask irq => if max <? irq then ps else set_pin irq (set_masked false (ps irq)) ps
  end.

Definition pins (d : ioapic) (i : Z) : pin := pin_of (redir d i).

Definition overrides_ok (ovs : list irq_override) : Prop := Forall (λ o, 0 ≤ gsi o < 2 ^ 32) ovs.

Lemma pin_for_bound ovs irq : overrides_ok ovs → 0 ≤ irq < 256 → 0 ≤ (pin_for ovs irq).1.1.
Proof.
  intros Ho Hi. unfold pin_for. destruct (filter _ ovs) as [|o l] eqn:E; cbn [fst]; [lia|].
  assert (o ∈ ovs) as Hin. { apply (list_elem_of_filter (λ o, irq_source o = irq)). rewrite E. apply list_elem_of_here. }
  apply list_elem_of_In in Hin. pose proof (proj1 (Forall_forall _ _) Ho o Hin). cbn in *. lia.
Qed.

Lemma set_pin_step i v p d d' : redir_set i v d d' → pin_of v = p → ∀ j, pins d' j = set_pin i p (pins d) j.
Proof. intros H <- j. unfold pins, set_pin. rewrite (ri_redir _ _ _ _ H). by case_decide. Qed.

Lemma exec_irq_ok info ovs o d :
  (∀ irq, let '(g, low, level) := pin_for ovs irq in
     irq_to_gsi info irq = (g, if low : bool then IOAPIC_POLARITY_LOW else IOAPIC_POLARITY_HIGH, if level : bool then IOAPIC_TRIGGER_LEVEL else IOAPIC_TRIGGER_EDGE)) →
  overrides_ok ovs → ioapic_wf d → op_ok o →
  ∃ d', exec_irq info o d = Some d' ∧ ioapic_wf d' ∧ ioapic_max_entry d' = ioapic_max_entry d ∧
    ∀ i, pins d' i = pin_step ovs (ioapic_max_entry d) (pins d) o i.
Proof.
  intros Hinfo Hovs Hwf Hok. pose proof (iw_max _ Hwf) as Hmax.
  destruct o as [irq vector apic_id|irq|irq]; cbn [exec_irq pin_step op_ok] in *.
  - unfold ioapic_route_irq. pose proof (pin_for_bound ovs irq Hovs (proj1 Hok)) as Hg. specialize (Hinfo irq).
    destruct (pin_for ovs irq) as [[g low] level]. rewrite Hinfo. cbn [fst] in Hg.
    destruct (Z.ltb_spec (ioapic_max_entry d) g); [by exists d|]. rewrite u8_small by lia.
    destruct (route_pin vector apic_id low level) as [Hb Hp]; [lia|lia|].
    destruct (ioapic_write_redir_ok d g _ Hwf ltac:(lia) Hb) as (d' & -> & Hd). exists d'. split_and!; [done|apply Hd|apply Hd|by eapply set_pin_step].
  - unfold ioapic_mask_irq. destruct (Z.ltb_spec (ioapic_max_entry d) irq); [by exists d|].
    destruct (change_redir_ok d irq _ Hwf ltac:(lia) (λ v Hv, proj1 (mask_pin v Hv))) as (d' & -> & Hd). exists d'. split_and!; [done|apply Hd|apply Hd|].
    eapply set_pin_step; [done|]. apply mask_pin, redir_bound, Hwf.
  - unfold ioapic_unmask_irq. destruct (Z.ltb_spec (ioapic_max_entry d) irq); [by exists d|].
    destruct (change_redir_ok d irq _ Hwf ltac:(lia) (λ v Hv, proj1 (unmask_pin v Hv))) as (d' & -> & Hd). exists d'. split_and!; [done|apply Hd|apply Hd|].
    eapply set_pin_step; [done|]. apply unmask_pin, redir_bound, Hwf.
Qed.

(** ** Initialisation *)

Lemma pin_step_ext ovs max ps ps' o : (∀ i, ps i = ps' i) → ∀ i, pin_step ovs max ps o i = pin_step ovs max ps' o i.
Proof.
  intros E i. destruct o as [irq vector apic_id|irq|irq]; cbn [pin_step].
  - destruct (pin_for ovs irq) as [[g low] level]. destruct (max <? g); [done|]. unfold set_pin. by case_decide.
  - destruct (max <? irq); [done|]. unfold set_pin. case_decide; [by rewrite E|done].
  - destruct (max <? irq); [done|]. unfold set_pin. case_decide; [by rewrite E|done].
Qed.

Lemma pin_steps_ext ovs max os : ∀ ps ps', (∀ i, ps i = ps' i) → ∀ i, foldl (pin_step ovs max) ps os i = foldl (pin_step ovs max) ps' os i.
Proof. induction os as [|o os IH]; intros ps ps' E i; [done|]. cbn [foldl]. apply IH. by apply pin_step_ext. Qed.

Lemma mask_entries_ok n : ∀ i d,
  ioapic_wf d → 0 ≤ i → i + Z.of_nat n ≤ 120 →
  ∃ d', mask_entries n i d = Some d' ∧ ioapic_wf d' ∧ ioapic_max_entry d' = ioapic_max_entry d ∧
    ∀ j, pins d' j = if decide (i ≤ j < i + Z.of_nat n) then set_masked true (pins d j) else pins d j.
Proof.
  induction n as [|n IH]; intros i d Hwf Hi Hn; cbn [mask_entries].
  { exists d. split_and!; [done|done|done|]. intros j. by rewrite decide_False by lia. }
  rewrite u8_small by lia. destruct (change_redir_ok d i _ Hwf ltac:(lia) (λ v Hv, proj1 (mask_pin v Hv))) as (d1 & -> & Hd). cbn [mbind option_bind].
  destruct (IH (i + 1) d1) as (d' & -> & Hwf' & Hm' & Hp); [apply Hd|lia|lia|]. exists d'. split_and!; [done|done|rewrite Hm'; apply Hd|].
  intros j. rewrite Hp. assert (pins d1 j = set_pin i (set_masked true (pins d i)) (pins d) j) as ->.
  { eapply set_pin_step; [done|]. apply mask_pin, redir_bound, Hwf. }
  unfold set_pin. destruct (decide (j = i)) as [->|].
  - by rewrite decide_False, decide_True by lia.
  - destruct (decide (i + 1 ≤ j < i + 1 + Z.of_nat n)); [by rewrite decide_True by lia|by rewrite decide_False by lia].
Qed.

(** The entry count that the version register reports. *)
Definition max_entry (d : ioapic) : Z := Z.land (Z.shiftr (rd (regs d) IOAPIC_VER) 16) 0xFF.

Section Routing.
Context (I : Z → Prop) (root : Z).
Hypothesis (HI : I 511).

Lemma ioapic_init_ok info d k :
  space_wf I root k → kernel_pml4_phys k = root → (3 ≤ available k)%nat →
  (∀ r, 0 ≤ rd (regs d) r < 2 ^ 32) → max_entry d < 120 →
  ∃ d' k', ioapic_init info d k = Some (d', k') ∧ ioapic_wf d' ∧ ioapic_max_entry d' = max_entry d ∧ region_step I root k k' ∧
    ∀ j, 0 ≤ j ≤ max_entry d → pins d' j = set_masked true (pins d j).
Proof.
  intros Hwf Hroot Hav Hr Hmax. unfold ioapic_init, vmm_get_kernel_pml4. rewrite Hroot.
  pose proof (map_page_ok I root ioapic_virt (io_apic_address info) (Z.lor (Z.lor PTE_PRESENT PTE_WRITABLE) PTE_NOCACHE) k Hwf HI eq_refl) as H.
  destruct (vmm_map_page _ _ _ _ _) as [r k']. destruct H as (Hst & _ & _ & _ & [[-> _]|[-> ?]]); [|lia]. cbn [negb Z.eqb].
  unfold ioapic_read. cbn [ioapic_base set_base Z.eqb ioapic_virt mbind option_bind regs regsel ioapic_max_entry set_max]. change (IOAPIC_VER mod 256) with IOAPIC_VER.
  fold (max_entry d). set (d1 := set_max (max_entry d) _).
  assert (0 ≤ max_entry d) as Hpos by (unfold max_entry; apply Z.land_nonneg; right; lia).
  destruct (mask_entries_ok (Z.to_nat (max_entry d + 1)) 0 d1) as (d' & -> & Hd & Hm & Hp); [split; cbn; [done|lia|done]|lia|lia|].
  cbn [mbind option_bind]. exists d', k'. split_and!; [done|done|done|done|]. intros j Hj. rewrite Hp, decide_True by lia. done.
Qed.

End Routing.
