(* ===== verification/Apic.v ===== *)
(** * Local interrupt controller and its timer ([arch/x86/kernel/apic.c],
    [apic.h])

    The driver runs against the devices it talks to: channel 0 of the interval
    timer, the two legacy interrupt controllers, and the registers of the
    local controller with its count-down timer.  Time is counted in clocks of
    the interval timer and passes with every access. *)
From S2P Require Import Prelude Pmm Page Vmm VmmWalk VmmMap VmmProps Fault UserBytes.
Local Open Scope Z_scope.

Definition LAPIC_ID : Z := 0x020.
Definition LAPIC_EOI : Z := 0x0B0.
Definition LAPIC_SVR : Z := 0x0F0.
Definition LAPIC_ESR : Z := 0x280.
Definition LAPIC_LVT_TIMER : Z := 0x320.
Definition LAPIC_TIMER_ICR : Z := 0x380.
Definition LAPIC_TIMER_CCR : Z := 0x390.
Definition LAPIC_TIMER_DCR : Z := 0x3E0.
Definition LAPIC_SVR_ENABLE : Z := Z.shiftl 1 8.
Definition LAPIC_TIMER_MASKED : Z := Z.shiftl 1 16.
Definition LAPIC_TIMER_PERIODIC : Z := Z.shiftl 1 17.
Definition LAPIC_TIMER_DIV_16 : Z := 0x3.
Definition IRQ_TIMER : Z := 32.
Definition IRQ_SPURIOUS : Z := 255.
Definition TIMER_FREQUENCY_HZ : Z := 100.
Definition PIT_CHANNEL0_DATA : Z := 0x40.
Definition PIT_COMMAND : Z := 0x43.
Definition PIT_FREQUENCY : Z := 1193182.

(** ** Devices *)

(** Channel 0 of the interval timer in mode 0: it held [pit_count] at time
    [pit_start] and counts down modulo 2^16.  [pit_low] is the low byte of a
    count whose high byte is still to come, [pit_latch] a latched count, and
    [pit_high] says which byte the next read gives. *)
Record pit := Pit {
  pit_start : Z;
  pit_count : Z;
  pit_low : option Z;
  pit_latch : option Z;
  pit_high : bool;
}.

Definition pit_value (now : Z) (p : pit) : Z := (pit_count p - (now - pit_start p)) mod 65536.

(** A command with access bits 0 latches the count; another sets the mode. *)
Definition pit_command (now v : Z) (p : pit) : pit :=
  if Z.land (Z.shiftr v 4) 3 =? 0
  then Pit (pit_start p) (pit_count p) (pit_low p) (Some (default (pit_value now p) (pit_latch p))) (pit_high p)
  else Pit (pit_start p) (pit_count p) None None false.

Definition pit_write (now v : Z) (p : pit) : pit :=
  match pit_low p with
  | None => Pit (pit_start p) (pit_count p) (Some v) (pit_latch p) (pit_high p)
  | Some lo => Pit now (lo + 256 * v) None (pit_latch p) (pit_high p)
  end.

Definition pit_read (now : Z) (p : pit) : Z * pit :=
  let v := default (pit_value now p) (pit_latch p) in
  if pit_high p
  then (v / 256, Pit (pit_start p) (pit_count p) (pit_low p) None false)
  else (v mod 256, Pit (pit_start p) (pit_count p) (pit_low p) (pit_latch p) true).

(** A legacy controller: the initialisation word it expects next (0 for none),
    its first vector, its cascade word and its mask. *)
Record pic := Pic { pic_icw : Z; pic_offset : Z; pic_cascade : Z; pic_mask : Z }.

Definition pic_command (v : Z) (p : pic) : pic :=
  if Z.testbit v 4 then Pic 2 (pic_offset p) (pic_cascade p) 0 else p.

Definition pic_data (v : Z) (p : pic) : pic :=
  if pic_icw p =? 2 then Pic 3 (Z.land v 0xF8) (pic_cascade p) (pic_mask p)
  else if pic_icw p =? 3 then Pic 4 (pic_offset p) v (pic_mask p)
  else if pic_icw p =? 4 then Pic 0 (pic_offset p) (pic_cascade p) (pic_mask p)
  else Pic 0 (pic_offset p) (pic_cascade p) v.

(** [accesses] counts the accesses so far; [icr_time] is when the initial count
    of the local timer was last written. *)
Record hw := Hw {
  now : Z;
  accesses : nat;
  hw_pit : pit;
  master : pic;
  slave : pic;
  lapic : gmap Z Z;
  icr_time : Z;
}.

(** The static variables of the driver. *)
Record apic := Apic {
  lapic_base : Z;
  tick_count : Z;
  timer_initial_count : Z;
}.

Section Driver.
(** The clocks that the [i]-th access takes, and the ticks of the local timer in
    a number of clocks, for a divider. *)
Context (delay : nat → Z) (timer_ticks : Z → Z → Z).

Definition pass (h : hw) : hw :=
  Hw (now h + delay (accesses h)) (S (accesses h)) (hw_pit h) (master h) (slave h) (lapic h) (icr_time h).

Definition set_pit (p : pit) (h : hw) : hw := Hw (now h) (accesses h) p (master h) (slave h) (lapic h) (icr_time h).

Definition set_pics (a b : pic) (h : hw) : hw := Hw (now h) (accesses h) (hw_pit h) a b (lapic h) (icr_time h).

Definition port_out (port value : Z) (h : hw) : hw :=
  let h := pass h in
  let v := u8 value in
  if port =? PIT_COMMAND then set_pit (pit_command (now h) v (hw_pit h)) h
  else if port =? PIT_CHANNEL0_DATA then set_pit (pit_write (now h) v (hw_pit h)) h
  else if port =? 0x20 then set_pics (pic_command v (master h)) (slave h) h
  else if port =? 0x21 then set_pics (pic_data v (master h)) (slave h) h
  else if port =? 0xA0 then set_pics (master h) (pic_command v (slave h)) h
  else if port =? 0xA1 then set_pics (master h) (pic_data v (slave h)) h
  else h.

(** The driver reads the data port of the interval timer only. *)
Definition port_in (h : hw) : Z * hw :=
  let h := pass h in
  let '(v, p) := pit_read (now h) (hw_pit h) in (v, set_pit p h).

(** The count of the local timer: down from the initial count, and in periodic
    mode around again. *)
Definition lapic_count (h : hw) : Z :=
  let icr := rd (lapic h) LAPIC_TIMER_ICR in
  let t := timer_ticks (rd (lapic h) LAPIC_TIMER_DCR) (now h - icr_time h) in
  if icr =? 0 then 0
  else if tst (rd (lapic h) LAPIC_LVT_TIMER) LAPIC_TIMER_PERIODIC then icr - t mod icr
  else Z.max 0 (icr - t).

(** ** The driver *)

Definition lapic_read (reg : Z) (h : hw) : Z * hw :=
  let h := pass h in
  (if reg =? LAPIC_TIMER_CCR then lapic_count h else rd (lapic h) reg, h).

Definition lapic_write (reg value : Z) (h : hw) : hw :=
  let h := pass h in
  let h := Hw (now h) (accesses h) (hw_pit h) (master h) (slave h) (wr (lapic h) reg (u32 value))
             (if reg =? LAPIC_TIMER_ICR then now h else icr_time h) in
  (lapic_read LAPIC_ID h).2.

(** The loop that waits for the count to reach 0. *)
Fixpoint pit_poll (fuel : nat) (count : Z) (h : hw) : option hw :=
  match fuel with
  | O => None
  | S fuel' =>
      let h := port_out PIT_COMMAND 0x00 h in
      let '(lo, h) := port_in h in
      let '(hi, h) := port_in h in
      let current := u16 (Z.lor lo (Z.shiftl hi 8)) in
      if (current =? 0) || (count <? current) then Some h else pit_poll fuel' count h
  end.

Definition pit_sleep_ms (fuel : nat) (ms : Z) (h : hw) : option hw :=
  let count := u32 (PIT_FREQUENCY * ms) / 1000 in
  let count := if 65535 <? count then 65535 else count in
  let h := port_out PIT_COMMAND 0x30 h in
  let h := port_out PIT_CHANNEL0_DATA (Z.land count 0xFF) h in
  let h := port_out PIT_CHANNEL0_DATA (Z.land (Z.shiftr count 8) 0xFF) h in
  pit_poll fuel count h.

Definition calibrate_timer (fuel : nat) (h : hw) : option (Z * hw) :=
  let h := lapic_write LAPIC_TIMER_DCR LAPIC_TIMER_DIV_16 h in
  let h := lapic_write LAPIC_LVT_TIMER LAPIC_TIMER_MASKED h in
  let h := lapic_write LAPIC_TIMER_ICR 0xFFFFFFFF h in
  h ← pit_sleep_ms fuel 10 h;
  let '(ccr, h) := lapic_read LAPIC_TIMER_CCR h in
  let elapsed := u32 (0xFFFFFFFF - ccr) in
  let h := lapic_write LAPIC_TIMER_ICR 0 h in
  Some (u32 (elapsed * 100) / TIMER_FREQUENCY_HZ, h).

Definition disable_pic (h : hw) : hw :=
  let h := port_out 0x20 0x11 h in
  let h := port_out 0xA0 0x11 h in
  let h := port_out 0x21 0x20 h in
  let h := port_out 0xA1 0x28 h in
  let h := port_out 0x21 0x04 h in
  let h := port_out 0xA1 0x02 h in
  let h := port_out 0x21 0x01 h in
  let h := port_out 0xA1 0x01 h in
  let h := port_out 0x21 0xFF h in
  port_out 0xA1 0xFF h.

Definition lapic_virt : Z := 0xFFFFFFFD00000000.

(** [None] when the polling does not end within [fuel] rounds. *)
Definition apic_init {A : Type} (fuel : nat) (lapic_phys : Z) (timer_irq_handler : A)
    (k : kmem) (handlers : gmap Z A) (a : apic) (h : hw) : option (kmem * gmap Z A * apic * hw) :=
  let pml4 := vmm_get_kernel_pml4 k in
  let '(result, k) := vmm_map_page pml4 lapic_virt lapic_phys (Z.lor (Z.lor PTE_PRESENT PTE_WRITABLE) PTE_NOCACHE) k in
  if negb (result =? 0) then Some (k, handlers, a, h)
  else
    let h := disable_pic h in
    let h := lapic_write LAPIC_SVR (Z.lor LAPIC_SVR_ENABLE IRQ_SPURIOUS) h in
    let h := lapic_write LAPIC_ESR 0 h in
    let h := lapic_write LAPIC_ESR 0 h in
    '(count, h) ← calibrate_timer fuel h;
    let a := Apic lapic_virt (tick_count a) count in
    if count =? 0 then Some (k, handlers, a, h)
    else
      let handlers := idt_register_irq IRQ_TIMER timer_irq_handler handlers in
      let h := lapic_write LAPIC_TIMER_DCR LAPIC_TIMER_DIV_16 h in
      let h := lapic_write LAPIC_LVT_TIMER (Z.lor IRQ_TIMER LAPIC_TIMER_PERIODIC) h in
      let h := lapic_write LAPIC_TIMER_ICR count h in
      Some (k, handlers, Apic lapic_virt 0 count, h).

Definition apic_eoi (h : hw) : hw := lapic_write LAPIC_EOI 0 h.

Definition apic_get_ticks (a : apic) : Z := tick_count a.

Definition apic_get_id (h : hw) : Z * hw :=
  let '(v, h) := lapic_read LAPIC_ID h in (Z.shiftr v 24, h).
End Driver.

(** ** What initialisation does *)
Section Calibration.
Context (delay : nat → Z) (timer_ticks : Z → Z → Z) (C : Z) (Hdelay : ∀ i, 1 ≤ delay i ≤ C).
Local Notation port_out := (port_out delay).
Local Notation lapic_write := (lapic_write delay timer_ticks).

(** Everything but the clock and the interval timer. *)
Definition other_devices (h : hw) : pic * pic * gmap Z Z * Z := (master h, slave h, lapic h, icr_time h).

Lemma disable_pic_masks h :
  other_devices (disable_pic delay h) = (Pic 0 0x20 4 0xFF, Pic 0 0x28 2 0xFF, lapic h, icr_time h).
Proof. destruct h as [t n p [i1 o1 c1 m1] [i2 o2 c2 m2] l z]. reflexivity. Qed.

(** One round of polling, [e] clocks after the count was loaded. *)
Lemma pit_round st count h :
  hw_pit h = Pit st count None None false → 0 < count < 65536 → 0 ≤ now h - st → now h - st + C < 65536 →
  let h1 := port_out PIT_COMMAND 0x00 h in
  let t := now h1 - st in
  let '(lo, h2) := port_in delay h1 in
  let '(hi, h3) := port_in delay h2 in
  let current := u16 (Z.lor lo (Z.shiftl hi 8)) in
  now h - st + 1 ≤ t ≤ now h - st + C ∧ t + 2 ≤ now h3 - st ≤ t + 2 * C ∧
  hw_pit h3 = Pit st count None None false ∧ other_devices h3 = other_devices h ∧
  ((current =? 0) || (count <? current)) = (count <=? t).
Proof.
  intros Hp Hc He Hlim. destruct h as [n0 i p mp sp l z]. cbn [hw_pit now] in *. subst p.
  pose proof (Hdelay i) as H1. pose proof (Hdelay (S i)) as H2. pose proof (Hdelay (S (S i))) as H3.
  assert (port_out PIT_COMMAND 0x00 (Hw n0 i (Pit st count None None false) mp sp l z) =
    Hw (n0 + delay i) (S i) (Pit st count None (Some ((count - (n0 + delay i - st)) mod 65536)) false) mp sp l z) as E by reflexivity.
  cbv zeta. rewrite E. cbn [port_in pass pit_read hw_pit pit_latch pit_high pit_start pit_count pit_low default now accesses set_pit master slave lapic icr_time].
  set (v := (count - (n0 + delay i - st)) mod 65536). assert (0 ≤ v < 65536) as Hv by (apply Z.mod_pos_bound; lia).
  split; [lia|]. split; [lia|]. split; [done|]. split; [done|].
  unfold id. rewrite Z.lor_comm, lor_shiftl_add by (lia || (pose proof (Z.mod_pos_bound v 256); lia)).
  change (2 ^ 8) with 256. rewrite u16_small by (pose proof (Z.div_mod v 256); lia).
  replace (v / 256 * 256 + v mod 256) with v by (pose proof (Z.div_mod v 256); lia).
  destruct (Z.leb_spec count (n0 + delay i - st)) as [Hle|Hlt].
  - destruct (decide (count = n0 + delay i - st)) as [E0|E0].
    + assert (v = 0) as -> by (unfold v; rewrite E0, Z.sub_diag; done). done.
    + assert (v = count - (n0 + delay i - st) + 65536) as ->; [|lia]. unfold v. symmetry. apply (Z.mod_unique_pos _ _ (-1)); lia.
  - assert (v = count - (n0 + delay i - st)) as -> by (unfold v; apply Z.mod_small; lia). lia.
Qed.

Lemma pit_poll_ok fuel st count h :
  hw_pit h = Pit st count None None false → 0 < count → count + 3 * C < 65536 → 0 ≤ now h - st < count + 2 * C →
  count - (now h - st) < Z.of_nat fuel → (0 < fuel)%nat →
  ∃ h', pit_poll delay fuel count h = Some h' ∧ count + 2 ≤ now h' - st < count + 5 * C ∧ other_devices h' = other_devices h.
Proof.
  pose proof (Hdelay 0) as HC. revert h. induction fuel as [|fuel IH]; intros h Hp Hc Hlim He Hf H0; [lia|]. cbn [pit_poll].
  pose proof (pit_round st count h Hp ltac:(lia) ltac:(lia) ltac:(lia)) as Hr. cbv zeta in Hr |- *.
  destruct (port_in delay (port_out PIT_COMMAND 0 h)) as [lo h2]. destruct (port_in delay h2) as [hi h3].
  destruct Hr as (H1 & H2 & H3 & H4 & ->). set (t := now (port_out PIT_COMMAND 0 h) - st) in *.
  destruct (Z.leb_spec count t) as [Hle|Hlt].
  - exists h3. split; [done|]. split; [lia|done].
  - destruct (IH h3 H3 Hc Hlim) as (h' & E & Hn & Ho); [lia|lia|lia|]. exists h'. split; [done|]. split; [done|]. by rewrite Ho.
Qed.

Lemma pit_sleep_10_ok fuel h :
  11931 + 3 * C < 65536 → 11931 < Z.of_nat fuel →
  ∃ h', pit_sleep_ms delay fuel 10 h = Some h' ∧ 11931 + 5 ≤ now h' - now h < 11931 + 8 * C ∧ other_devices h' = other_devices h.
Proof.
  intros Hlim Hf. pose proof (Hdelay 0) as HC. unfold pit_sleep_ms. change (u32 (PIT_FREQUENCY * 10) / 1000) with 11931. cbv zeta.
  change (if 65535 <? 11931 then 65535 else 11931) with 11931.
  set (h1 := port_out PIT_CHANNEL0_DATA (Z.land (Z.shiftr 11931 8) 0xFF) _).
  destruct h as [n0 i p mp sp l z]. set (d := delay i + delay (S i) + delay (S (S i))).
  assert (h1 = Hw (n0 + d) (S (S (S i))) (Pit (n0 + d) 11931 None None false) mp sp l z) as ->.
  { unfold d. rewrite !Z.add_assoc. reflexivity. }
  destruct (pit_poll_ok fuel (n0 + d) 11931 (Hw (n0 + d) (S (S (S i))) (Pit (n0 + d) 11931 None None false) mp sp l z) eq_refl)
    as (h' & E & Hn & Ho); cbn [now]; [lia..|]. exists h'. split; [done|].
  pose proof (Hdelay i). pose proof (Hdelay (S i)). pose proof (Hdelay (S (S i))). split; [cbn [now]; unfold d in *; lia|done].
Qed.

(** The registers of the local controller, the legacy controllers and when the
    timer was started, after a write. *)
Lemma lapic_write_ok reg v h :
  (master (lapic_write reg v h) = master h ∧ slave (lapic_write reg v h) = slave h ∧
   lapic (lapic_write reg v h) = wr (lapic h) reg (u32 v) ∧
   icr_time (lapic_write reg v h) = if reg =? LAPIC_TIMER_ICR then now h + delay (accesses h) else icr_time h) ∧
  now (lapic_write reg v h) = now h + delay (accesses h) + delay (S (accesses h)).
Proof. done. Qed.

Lemma calibrate_ok fuel h :
  11931 + 3 * C < 65536 → 11931 < Z.of_nat fuel →
  (∀ t, 11931 ≤ t ≤ 11931 + 11 * C → 0 ≤ timer_ticks LAPIC_TIMER_DIV_16 t < 2 ^ 32 / 100) →
  ∃ t h', calibrate_timer delay timer_ticks fuel h = Some (timer_ticks LAPIC_TIMER_DIV_16 t, h') ∧ 11931 ≤ t ≤ 11931 + 11 * C ∧
    master h' = master h ∧ slave h' = slave h ∧
    lapic h' = wr (wr (wr (wr (lapic h) LAPIC_TIMER_DCR LAPIC_TIMER_DIV_16) LAPIC_LVT_TIMER LAPIC_TIMER_MASKED) LAPIC_TIMER_ICR 0xFFFFFFFF) LAPIC_TIMER_ICR 0.
Proof.
  intros Hlim Hf Ht. unfold calibrate_timer. cbv zeta.
  set (h1 := lapic_write LAPIC_TIMER_DCR _ h). set (h2 := lapic_write LAPIC_LVT_TIMER _ h1). set (h3 := lapic_write LAPIC_TIMER_ICR 0xFFFFFFFF h2).
  destruct (lapic_write_ok LAPIC_TIMER_DCR LAPIC_TIMER_DIV_16 h) as ((M1 & S1 & L1 & _) & _). fold h1 in M1, S1, L1.
  destruct (lapic_write_ok LAPIC_LVT_TIMER LAPIC_TIMER_MASKED h1) as ((M2 & S2 & L2 & _) & _). fold h2 in M2, S2, L2.
  destruct (lapic_write_ok LAPIC_TIMER_ICR 0xFFFFFFFF h2) as ((M3 & S3 & L3 & Z3) & N3). fold h3 in M3, S3, L3, Z3, N3.
  destruct (pit_sleep_10_ok fuel h3 Hlim Hf) as (h4 & -> & N4 & O4). cbn [mbind option_bind].
  unfold lapic_read. change (LAPIC_TIMER_CCR =? LAPIC_TIMER_CCR) with true. cbv iota beta.
  assert (icr_time h4 = icr_time h3) as Z4 by exact (f_equal snd O4). assert (lapic h4 = lapic h3) as L4 by exact (f_equal (λ x, x.1.2) O4).
  assert (slave h4 = slave h3) as S4 by exact (f_equal (λ x, x.1.1.2) O4). assert (master h4 = master h3) as M4 by exact (f_equal (λ x, x.1.1.1) O4).
  change (LAPIC_TIMER_ICR =? LAPIC_TIMER_ICR) with true in Z3. cbv iota in Z3.
  set (h5 := pass delay h4). assert (lapic h5 = lapic h4 ∧ now h5 = now h4 + delay (accesses h4) ∧ icr_time h5 = icr_time h4 ∧ master h5 = master h4 ∧ slave h5 = slave h4)
    as (L5 & N5 & Z5 & M5 & S5) by done.
  set (t := now h5 - icr_time h5). pose proof (Hdelay (accesses h4)). pose proof (Hdelay (S (accesses h2))).
  assert (11931 ≤ t ≤ 11931 + 11 * C) as Ht' by (unfold t; rewrite N5, Z5, Z4, Z3; lia).
  pose proof (Ht t Ht') as Hn. change (2 ^ 32 / 100) with 42949672 in Hn.
  assert (lapic_count timer_ticks h5 = 0xFFFFFFFF - timer_ticks LAPIC_TIMER_DIV_16 t) as ->.
  { assert (rd (lapic h5) LAPIC_TIMER_ICR = 0xFFFFFFFF ∧ rd (lapic h5) LAPIC_TIMER_DCR = LAPIC_TIMER_DIV_16 ∧
      rd (lapic h5) LAPIC_LVT_TIMER = LAPIC_TIMER_MASKED) as (R1 & R2 & R3)
      by (rewrite L5, L4, L3, L2, L1, !rd_wr; split_and!; reflexivity).
    unfold lapic_count. fold t. rewrite R1, R2, R3. change (tst LAPIC_TIMER_MASKED LAPIC_TIMER_PERIODIC) with false.
    change (4294967295 =? 0) with false. cbv iota. lia. }
  exists t. eexists. split; [|split; [exact Ht'|]].
  - set (x := timer_ticks _ t) in *. assert (u32 (u32 (0xFFFFFFFF - (0xFFFFFFFF - x)) * 100) / TIMER_FREQUENCY_HZ = x) as ->; [|reflexivity].
    replace (0xFFFFFFFF - (0xFFFFFFFF - x)) with x by lia.
    rewrite !u32_small by (rewrite ?u32_small; lia). unfold TIMER_FREQUENCY_HZ. by rewrite Z.div_mul.
  - destruct (lapic_write_ok LAPIC_TIMER_ICR 0 h5) as ((M6 & S6 & L6 & _) & _).
    rewrite M6, S6, L6, M5, S5, L5, M4, S4, L4, M3, S3, L3, M2, S2, L2, M1, S1, L1. done.
Qed.

(** The interrupt hardware once the timer runs with initial count [n]. *)
Record timer_runs (n : Z) (h : hw) : Prop := {
  tr_pics : pic_mask (master h) = 0xFF ∧ pic_mask (slave h) = 0xFF ∧ pic_icw (master h) = 0 ∧ pic_icw (slave h) = 0 ∧
    pic_offset (master h) = 0x20 ∧ pic_offset (slave h) = 0x28;
  tr_enabled : rd (lapic h) LAPIC_SVR = 0x1FF ∧ rd (lapic h) LAPIC_ESR = 0;
  tr_timer : rd (lapic h) LAPIC_TIMER_DCR = LAPIC_TIMER_DIV_16 ∧ rd (lapic h) LAPIC_LVT_TIMER = Z.lor IRQ_TIMER LAPIC_TIMER_PERIODIC ∧
    rd (lapic h) LAPIC_TIMER_ICR = n;
  tr_period : ∀ t, lapic_count timer_ticks (Hw t (accesses h) (hw_pit h) (master h) (slave h) (lapic h) (icr_time h)) =
    n - timer_ticks LAPIC_TIMER_DIV_16 (t - icr_time h) mod n;
}.

(** Mapped registers, which no program but the kernel reaches. *)
Section Init.
Context (I : Z → Prop) (root : Z) (HI : I (PML4_INDEX lapic_virt)).

(** C35 [apic_init_calibrates]: with enough pages for the mapping, initialisation
    ends, however the accesses to the devices are timed within their bounds,
    with both legacy controllers moved off the exception vectors and masked
    and the local one enabled.  The timer then counts down from the number of
    its ticks in t clocks of the interval timer, where t is 10 ms (11931
    clocks) up to the time of eleven accesses, and interrupts on vector 32,
    whose handler is registered, each time it has counted down; when the
    timer did not tick at all it stays masked and stopped. *)
Theorem apic_init_calibrates {A : Type} fuel phys (handler : A) k handlers a h :
  space_wf I root k → kernel_pml4_phys k = root → (3 ≤ available k)%nat →
  11931 + 3 * C < 65536 → 11931 < Z.of_nat fuel →
  (∀ t, 11931 ≤ t ≤ 11931 + 11 * C → 0 ≤ timer_ticks LAPIC_TIMER_DIV_16 t < 2 ^ 32 / 100) →
  ∃ k' handlers' a' h' t, apic_init delay timer_ticks fuel phys handler k handlers a h = Some (k', handlers', a', h') ∧
    region_step I root k k' ∧ lapic_base a' = lapic_virt ∧ 11931 ≤ t ≤ 11931 + 11 * C ∧
    timer_initial_count a' = timer_ticks LAPIC_TIMER_DIV_16 t ∧
    if decide (timer_ticks LAPIC_TIMER_DIV_16 t = 0)
    then handlers' = handlers ∧ rd (lapic h') LAPIC_TIMER_ICR = 0 ∧ rd (lapic h') LAPIC_LVT_TIMER = LAPIC_TIMER_MASKED
    else handlers' = <[IRQ_TIMER := handler]> handlers ∧ tick_count a' = 0 ∧ timer_runs (timer_initial_count a') h'.
Proof.
  intros Hwf Hroot Hav Hlim Hf Ht. unfold apic_init, vmm_get_kernel_pml4. rewrite Hroot.
  pose proof (map_page_ok I root lapic_virt phys (Z.lor (Z.lor PTE_PRESENT PTE_WRITABLE) PTE_NOCACHE) k Hwf HI eq_refl) as H.
  destruct (vmm_map_page _ _ _ _ _) as [r k']. destruct H as (Hst & _ & _ & _ & [[-> _]|[-> ?]]); [|lia]. cbn [negb Z.eqb]. cbv zeta.
  set (h1 := disable_pic delay h). set (h2 := lapic_write LAPIC_ESR 0 _).
  assert (master h2 = Pic 0 0x20 4 0xFF ∧ slave h2 = Pic 0 0x28 2 0xFF ∧ rd (lapic h2) LAPIC_SVR = 0x1FF ∧ rd (lapic h2) LAPIC_ESR = 0) as (M2 & S2 & V2 & E2).
  { pose proof (disable_pic_masks h) as Hd. fold h1 in Hd. split_and!;
      [exact (f_equal (λ x, x.1.1.1) Hd)|exact (f_equal (λ x, x.1.1.2) Hd)| |]; cbn [h2 Apic.lapic_write lapic lapic_read snd pass]; rewrite !rd_wr; reflexivity. }
  clearbody h2. destruct (calibrate_ok fuel h2 Hlim Hf Ht) as (t & h3 & -> & Ht' & M3 & S3 & L3). cbn [mbind option_bind].
  specialize (Ht t Ht'). set (n := timer_ticks LAPIC_TIMER_DIV_16 t) in *. destruct (Z.eqb_spec n 0) as [En|En].
  { exists k', handlers, (Apic lapic_virt (tick_count a) n), h3, t. fold n. rewrite decide_True by done. rewrite L3, !rd_wr.
    split_and!; first [exact Hst|lia|reflexivity]. }
  set (h4 := lapic_write LAPIC_TIMER_ICR n _).
  assert (lapic h4 = wr (wr (wr (lapic h3) LAPIC_TIMER_DCR LAPIC_TIMER_DIV_16) LAPIC_LVT_TIMER (Z.lor IRQ_TIMER LAPIC_TIMER_PERIODIC)) LAPIC_TIMER_ICR n) as L4
    by (cbn [h4 Apic.lapic_write lapic lapic_read snd pass]; by rewrite (u32_small n) by (change (2 ^ 32 / 100) with 42949672 in Ht; lia)).
  assert (master h4 = master h3 ∧ slave h4 = slave h3) as [M4 S4] by done. clearbody h4.
  exists k', (<[IRQ_TIMER := handler]> handlers), (Apic lapic_virt 0 n), h4, t. fold n. rewrite decide_False by done. cbn [timer_initial_count].
  split_and!; try first [exact Hst|lia|reflexivity].
  assert (rd (lapic h4) LAPIC_TIMER_DCR = LAPIC_TIMER_DIV_16 ∧ rd (lapic h4) LAPIC_LVT_TIMER = Z.lor IRQ_TIMER LAPIC_TIMER_PERIODIC ∧
    rd (lapic h4) LAPIC_TIMER_ICR = n) as (R1 & R2 & R3) by (rewrite L4, !rd_wr; by split_and!).
  split; [rewrite M4, S4, M3, S3, M2, S2; by split_and!|rewrite L4, L3, !rd_wr; split; [exact V2|exact E2]|by split_and!|].
  intros u. unfold lapic_count. cbn [lapic now icr_time]. rewrite R1, R2, R3.
  change (tst (Z.lor IRQ_TIMER LAPIC_TIMER_PERIODIC) LAPIC_TIMER_PERIODIC) with true. by assert ((n =? 0) = false) as -> by lia.
Qed.
End Init.
End Calibration.
