(* ===== verification/AcpiWitness.v ===== *)
(** * Firmware on a concrete machine

    A machine whose firmware puts its tables in page 9 satisfies the hypotheses
    of the theorems on the tables and on interrupt routing; the last section
    runs tables and requests that show their limits. *)
From S2P Require Import Prelude Pmm Page Vmm VmmWalk VmmMap VmmProps VmmCow VmmFree UserMem UserBytes MemWitness.
From S2P Require Import UserBytes Acpi AcpiProps AcpiInit Ioapic Apic.
Local Open Scope Z_scope.

Definition top_entry (i : Z) : Prop := i = 511.

Fixpoint put8 (a : Z) (l : list Z) (m : gmap Z Z) : gmap Z Z :=
  match l with [] => m | b :: l => put8 (a + 1) l (wr8 m a b) end.

Definition board_entries : list madt_entry :=
  [LocalApic 0 0 1; LocalApic 1 1 1; LocalApic 2 2 0; IoApic 2 0xFEC00000 0; SourceOverride 0 0 2 0; SourceOverride 0 9 9 15;
   LapicNmi 255 5 1; OtherEntry 9 [7; 7]].

Definition board : firmware :=
  Firmware 0x9000 [28; 83; 69; 69; 68; 79; 83] 2 0 36 0x9100 [75; 0; 0; 0] [88; 83; 68; 84] ([1; 91] ++ replicate 26 0)
    [(0, []); (0x9300, [70; 65; 67; 80] ++ replicate 32 0)] 0x9200 [] ([1; 67] ++ replicate 26 0) 0xFEE00000 1 board_entries.

(** A root table without entries, and the tables in page 9. *)
Definition board_mem : gmap Z Z :=
  put8 0x9000 (rsdp_bytes board) (put8 0x9100 (root_bytes board) (put8 0x9200 (madt_bytes board)
    (put8 0x9300 ([70; 65; 67; 80] ++ replicate 32 0) ∅))).

Definition board_machine : kmem := Kmem pmm_64 (PageRefs (Some ∅) 64) board_mem 0x2000.

Lemma board_empty i : idx_ok i → top_entry i → ent (k_mem board_machine) 0x2000 i = 0.
Proof. intros _ ->. vm_compute. reflexivity. Qed.

Lemma board_space : space_wf top_entry 0x2000 board_machine.
Proof.
  apply space_wf_empty; [exact pmm_64_wf|cbn; lia|exact machine_root_used|]. intros i Hi Ht. by rewrite board_empty.
Qed.

Lemma board_reserved x : x / 4096 = 9 → reserved top_entry 0x2000 board_machine x.
Proof.
  intros Hx. split.
  - intros (p & t & i & (Hp & Hi & Ht) & Hw & ->). destruct p as [|j p].
    + injection Hw as <-. unfold idx_ok in Hi. zdm.
    + destruct Hp as (Hf & _ & Hj). rewrite empty_walk with (I := top_entry) in Hw; [done|exact board_empty|by inversion Hf|done].
  - rewrite Hx. intros [_ H]%elem_of_free_set. vm_compute in H. discriminate H.
Qed.

Lemma board_holds a l :
  0x9000 ≤ a → a + Z.of_nat (length l) ≤ 0xA000 →
  forallb (λ i, rd8 board_mem (a + Z.of_nat i) =? nth i l 0) (seq 0 (length l)) = true → holds top_entry 0x2000 board_machine a l.
Proof.
  intros Ha Hl Hall i b E. apply lookup_lt_Some in E as Hi. split; [|apply board_reserved; zdm].
  rewrite forallb_forall in Hall. specialize (Hall i ltac:(apply in_seq; lia)). apply Z.eqb_eq in Hall. cbn [k_mem board_machine].
  by rewrite Hall, (nth_lookup_Some _ _ _ _ E).
Qed.

Lemma board_in : fw_in board top_entry 0x2000 board_machine.
Proof.
  split.
  - apply board_holds; [cbn; lia|vm_compute; discriminate|vm_compute; reflexivity].
  - apply board_holds; [cbn; lia|vm_compute; discriminate|vm_compute; reflexivity].
  - apply board_holds; [cbn; lia|vm_compute; discriminate|vm_compute; reflexivity].
  - constructor; [by left|]. constructor; [right|constructor]. split_and!; [lia|lia| |done|discriminate].
    apply board_holds; [lia|vm_compute; discriminate|vm_compute; reflexivity].
Qed.

Lemma board_wf : fw_wf board.
Proof.
  split; [done|vm_compute; intuition discriminate| |repeat (constructor; [vm_compute; intuition discriminate|]); constructor|vm_compute; split; reflexivity
    |vm_compute; intuition discriminate|vm_compute; intuition discriminate].
  repeat (constructor; [vm_compute; intuition discriminate|]); constructor.
Qed.

Lemma board_room : acpi_wf top_entry 0x2000 (fw_pages board) acpi_boot board_machine.
Proof. split; [exact board_space|done|vm_compute; intuition discriminate|vm_compute; intuition discriminate|vm_compute; discriminate]. Qed.

Lemma acpi_init_finds_controllers_witness :
  ∃ s' k', acpi_init 0x9000 acpi_boot board_machine = Some (0, s', k') ∧ cpu_count (acpi_data s') = 2 ∧
    io_apic_address (acpi_data s') = 0xFEC00000 ∧ overrides (acpi_data s') !! 1 = Some (IrqOverride 9 9 15).
Proof.
  destruct (acpi_init_finds_controllers board top_entry 0x2000 eq_refl board_wf board_machine board_in board_room) as (s' & k' & E & Hd & _).
  exists s', k'. split; [exact E|]. split; [rewrite (ds_cpu_count _ _ _ _ Hd); reflexivity|]. split.
  - exact (f_equal (λ x, x.1.1) (ds_io_apic _ _ _ _ Hd)).
  - apply (ds_overrides _ _ _ _ Hd 1%nat); [reflexivity|lia].
Defined.

Lemma readable_check k a n : forallb (λ i, match vbyte k (a + i) with Some _ => true | None => false end) (seqZ 0 n) = true → readable k a (a + n).
Proof.
  intros H va Hva. rewrite forallb_forall in H. specialize (H (va - a) ltac:(apply list_elem_of_In, elem_of_seqZ; lia)).
  replace (a + (va - a)) with va in H by lia. destruct (vbyte k va) as [x|]; [by exists x|done].
Qed.

(** The machine with the table of interrupt controllers mapped. *)
Definition board_mapped : kmem := (acpi_map_region 0x9200 4096 acpi_boot board_machine).2.
Definition board_madt : Z := 0xFFFFFFFE00000200.

Lemma parse_madt_ends_witness :
  ∃ i', parse_madt board_mapped board_madt (acpi_data acpi_boot) = Some i' ∧ info_wf i'.
Proof.
  destruct (parse_madt_ends board_mapped board_madt (acpi_data acpi_boot) 110) as (i' & lapic & flags & E & Hi & _).
  - vm_compute. intuition discriminate.
  - vm_compute. reflexivity.
  - apply readable_check. vm_compute. reflexivity.
  - exact (readable_check board_mapped board_madt 121 ltac:(vm_compute; reflexivity)).
  - exists i'. split; [exact E|exact Hi].
Defined.

(** A controller of 24 pins. *)
Definition chip : ioapic := Ioapic 0 (wr ∅ IOAPIC_VER 0x170011) 0 0.

Definition board_info : acpi_info := foldl apply_entry (set_pic 0xFEE00000 (Z.land 1 1) (acpi_data acpi_boot)) board_entries.


(** Every access takes two clocks, and the local timer ticks fifty times per
    clock, 59 MHz. *)
Definition bus_idle : hw := Hw 0 0 (Pit 0 0 None None false) (Pic 0 8 4 0xB8) (Pic 0 0x70 2 0x8F) ∅ 0.

Lemma apic_init_calibrates_witness :
  ∃ k' handlers' a' h', apic_init (λ _, 2) (λ _ t, 50 * t) (Z.to_nat 11932) 0xFEE00000 true board_machine ∅ (Apic 0 0 0) bus_idle = Some (k', handlers', a', h') ∧
    596550 ≤ timer_initial_count a' ≤ 597650 ∧ pic_mask (master h') = 0xFF ∧ handlers' !! 32 = Some true.
Proof.
  destruct (apic_init_calibrates (λ _, 2) (λ _ t, 50 * t) 2 ltac:(intros i; cbv beta; lia) top_entry 0x2000 eq_refl (Z.to_nat 11932) 0xFEE00000 true board_machine ∅
    (Apic 0 0 0) bus_idle board_space eq_refl ltac:(apply (bool_decide_unpack _); vm_compute; exact I) ltac:(lia) ltac:(lia)
    ltac:(intros t Ht; change (2 ^ 32 / 100) with 42949672; lia)) as (k' & hs & a' & h' & t & E & _ & _ & Ht & En & Hr).
  rewrite decide_False in Hr by lia. destruct Hr as (-> & _ & Hr). exists k', (<[IRQ_TIMER := true]> ∅), a', h'.
  split; [exact E|]. split; [rewrite En; lia|]. split; [apply Hr|]. reflexivity.
Defined.

(** ** Limits *)

(** The length of the root pointer is believed: a length beyond the mapped page
    makes the checksum fault. *)
Example rsdp_length_faults :
  acpi_init 0x9000 acpi_boot (set_mem (put8 0x9014 (le 4 5000) board_mem) board_machine) = None.
Proof. vm_compute. reflexivity. Qed.

(** An entry of two bytes in the last bytes of a page is read beyond it. *)
Definition short_madt : list Z := sig_APIC ++ le 4 46 ++ replicate 28 0 ++ le 4 0 ++ le 4 0 ++ [5; 2].

Example last_entry_faults :
  let '(v, _, k) := acpi_map_region 0x9FD2 46 acpi_boot (set_mem (put8 0x9FD2 short_madt board_mem) board_machine) in
  vload 4 k (v + 4) = Some 46 ∧ parse_madt k v (acpi_data acpi_boot) = None.
Proof. vm_compute. split; reflexivity. Qed.

(** Masking takes the interrupt number for a pin: the pin that interrupt 0 was
    routed to stays live. *)
Definition live_chip : ioapic := Ioapic 0 (wr ∅ IOAPIC_VER 0x170011) ioapic_virt 23.

Example mask_misses_override :
  match exec_irqs board_info [Route 0 32 0; Mask 0] live_chip with
  | Some d => (pin_masked (pins d 0), pin_masked (pins d 2))
  | None => (false, true)
  end = (true, false).
Proof. vm_compute. reflexivity. Qed.
