(* ===== verification/GdtProps.v ===== *)
(** * How the processor reads the segment and interrupt tables *)
From S2P Require Import Prelude Pmm Page Vmm VmmWalk VmmMap VmmProps VmmCow UserMem UserBytes.
From S2P Require Import Heap HeapInv HeapProps HeapSpec Alloc Kthread Vfs Process Gdt Fault ProcSys Syscall.
Local Open Scope Z_scope.

(** ** Descriptors *)

Record descriptor := Desc {
  d_base : Z;
  d_limit : Z;
  d_access : Z;
  d_flags : Z;
}.

(** The eight bytes at [a]. *)
Definition descriptor_at (m : gmap Z Z) (a : Z) : descriptor :=
  Desc (load 2 m (a + 2) + 2 ^ 16 * load 1 m (a + 4) + 2 ^ 24 * load 1 m (a + 7))
    (load 2 m a + 2 ^ 16 * (load 1 m (a + 6) mod 16)) (load 1 m (a + 5)) (load 1 m (a + 6) / 16).

(** The descriptor of a selector in the loaded table: inside its limit. *)
Definition selected (m : gmap Z Z) (r : seg_regs) (sel : Z) : option descriptor :=
  let o := sel / 8 * 8 in
  if (0 <=? o) && (o + 7 <=? gdtr_limit r) then Some (descriptor_at m (gdtr_base r + o)) else None.

Definition privilege (d : descriptor) : Z := Z.land (Z.shiftr (d_access d) 5) 3.

(** Present code and data segments of a privilege level; code is 64-bit. *)
Definition is_code64 (dpl : Z) (d : descriptor) : bool :=
  Z.testbit (d_access d) 7 && Z.testbit (d_access d) 4 && Z.testbit (d_access d) 3 && (privilege d =? dpl) &&
  Z.testbit (d_flags d) 1 && negb (Z.testbit (d_flags d) 2).

Definition is_data (dpl : Z) (d : descriptor) : bool :=
  Z.testbit (d_access d) 7 && Z.testbit (d_access d) 4 && negb (Z.testbit (d_access d) 3) && Z.testbit (d_access d) 1 && (privilege d =? dpl).

(** The sixteen bytes of a task state descriptor: its base and limit, if it is
    the one of a busy 64-bit task. *)
Definition task_at (m : gmap Z Z) (a : Z) : option (Z * Z) :=
  let d := descriptor_at m a in
  if (d_access d =? 0x8B) && (load 4 m (a + 12) =? 0) then Some (d_base d + 2 ^ 32 * load 4 m (a + 8), d_limit d) else None.

Definition sel_ok (P : descriptor → bool) (m : gmap Z Z) (r : seg_regs) (sel : Z) : Prop := ∃ d, selected m r sel = Some d ∧ P d = true.

(** ** Reading back *)

Lemma load_wr_eq m a v : load 1 (wr m a v) a = v.
Proof. unfold load. rewrite rd_wr_eq. lia. Qed.

(** Reads go past writes of other places to the write of theirs. *)
Ltac read_back :=
  repeat first
    [ rewrite load_store_eq by (first [lia|apply Z.mod_pos_bound; lia])
    | rewrite load_store_ne by lia ].

Lemma land_byte x : Z.land x 0xFF = x mod 256.
Proof. apply (Z.land_ones x 8). lia. Qed.

Lemma land_word x : Z.land x 0xFFFF = x mod 65536.
Proof. apply (Z.land_ones x 16). lia. Qed.

Lemma land_dword x : Z.land x 0xFFFFFFFF = x mod 4294967296.
Proof. apply (Z.land_ones x 32). lia. Qed.

(** The byte with the high limit bits and the flags. *)
Lemma limit_flags_byte limit flags :
  let b := Z.lor (Z.land (Z.shiftr limit 16) 0x0F) (Z.land flags 0xF0) in
  b = (flags / 16 mod 16) * 16 + limit / 65536 mod 16.
Proof.
  intros b. unfold b. assert (Z.land flags 0xF0 = Z.shiftl (flags / 16 mod 16) 4) as ->.
  { apply Z.bits_inj'. intros n Hn. change 0xF0 with (Z.shiftl (Z.ones 4) 4). change 16 with (2 ^ 4) at 1 2.
    rewrite <- Z.land_ones, <- Z.shiftr_div_pow2 by lia. rewrite Z.land_spec, !Z.shiftl_spec, Z.land_spec by lia.
    destruct (decide (n < 4)); [rewrite (Z.testbit_neg_r (Z.ones 4) (n - 4)) by lia; by rewrite !andb_false_r|].
    rewrite Z.shiftr_spec by lia. by replace (n - 4 + 4) with n by lia. }
  change 0x0F with (Z.ones 4). rewrite Z.land_ones, Z.shiftr_div_pow2 by lia. change (2 ^ 4) with 16. change (2 ^ 16) with 65536.
  rewrite Z.lor_comm, lor_shiftl_add by (lia || apply Z.mod_pos_bound; lia). change (2 ^ 4) with 16. lia.
Qed.

Lemma zero_bytes n m a (m' := for_loop n 0 (λ i m, wr m (a + i) 0) m) :
  (∀ x, a ≤ x < a + Z.of_nat n → rd m' x = 0) ∧ ∀ x, ¬ (a ≤ x < a + Z.of_nat n) → rd m' x = rd m x.
Proof.
  apply (for_loop_ind0 (λ i m', (∀ x, a ≤ x < a + i → rd m' x = 0) ∧ ∀ x, ¬ (a ≤ x < a + i) → rd m' x = rd m x) n _ m).
  - split; [lia|done].
  - intros i m1 Hi [H1 H2]. split; intros x Hx; rewrite rd_wr; case_decide; [done|apply H1; lia|lia|apply H2; lia].
Qed.

Section Tables.
Context (gdt tss nmi df mce : Z) (m0 : gmap Z Z).
Hypothesis (Htss : 0 ≤ tss < 2 ^ 64) (Hsep : gdt + 56 ≤ tss ∨ tss + 104 ≤ gdt).
Hypothesis (Hst : ∀ s, s ∈ [nmi; df; mce] → 0 ≤ s < 2 ^ 64 - IST_STACK_TOTAL).

Definition after_entries : gmap Z Z :=
  gdt_set_entry gdt 4 0 0xFFFFF GDT_ACCESS_USER_CODE (Z.lor GDT_FLAG_GRANULARITY GDT_FLAGS_CODE64)
  (gdt_set_entry gdt 3 0 0xFFFFF GDT_ACCESS_USER_DATA (Z.lor GDT_FLAG_GRANULARITY GDT_FLAGS_DATA)
  (gdt_set_entry gdt 2 0 0xFFFFF GDT_ACCESS_KERNEL_DATA (Z.lor GDT_FLAG_GRANULARITY GDT_FLAGS_DATA)
  (gdt_set_entry gdt 1 0 0xFFFFF GDT_ACCESS_KERNEL_CODE (Z.lor GDT_FLAG_GRANULARITY GDT_FLAGS_CODE64)
  (gdt_set_entry gdt 0 0 0 0 0 m0)))).

Lemma set_entry_frame i base limit access flags m x : x < gdt + i * 8 ∨ gdt + i * 8 + 8 ≤ x → rd (gdt_set_entry gdt i base limit access flags m) x = rd m x.
Proof. intros Hx. unfold gdt_set_entry, sizeof_gdt_entry. by rewrite !store_frame by lia. Qed.

Lemma set_entry_at i base limit access flags m :
  0 ≤ access < 256 → descriptor_at (gdt_set_entry gdt i base limit access flags m) (gdt + i * 8) =
  Desc (base mod 2 ^ 32) (limit mod 2 ^ 20) access (flags / 16 mod 16).
Proof.
  intros Ha. unfold descriptor_at, gdt_set_entry, sizeof_gdt_entry. rewrite limit_flags_byte, !land_byte, !land_word, !Z.shiftr_div_pow2 by lia.
  change (2 ^ 16) with 65536. change (2 ^ 24) with 16777216. change (2 ^ 32) with 4294967296. change (2 ^ 20) with 1048576.
  set (b := flags / 16 mod 16 * 16 + limit / 65536 mod 16). assert (0 ≤ b < 256) as Hb by (unfold b; zdm).
  read_back. f_equal; [zdm|unfold b; zdm|unfold b; zdm].
Qed.

Lemma descriptor_ext m m' a : (∀ x, a ≤ x < a + 8 → rd m' x = rd m x) → descriptor_at m' a = descriptor_at m a.
Proof. intros H. unfold descriptor_at. by rewrite !(load_ext _ m m') by (intros; apply H; lia). Qed.

Lemma entry_skip i j base limit access flags m :
  i ≠ j → descriptor_at (gdt_set_entry gdt j base limit access flags m) (gdt + i * 8) = descriptor_at m (gdt + i * 8).
Proof. intros Hne. apply descriptor_ext. intros x Hx. apply set_entry_frame. lia. Qed.

(** The table after [gdt_init]. *)
Definition final (r : seg_regs) : gmap Z Z * seg_regs := gdt_init gdt tss nmi df mce m0 r.

Lemma tss_init_frame m x : x < tss ∨ tss + 104 ≤ x → rd (tss_init tss nmi df mce m) x = rd m x.
Proof.
  intros Hx. unfold tss_init, tss_iopb_off, tss_ist1_off, tss_ist2_off, tss_ist3_off. rewrite !store_frame by lia.
  apply zero_bytes. unfold sizeof_tss. lia.
Qed.

Lemma set_tss_frame m x : x < gdt + 40 ∨ gdt + 56 ≤ x → rd (gdt_set_tss gdt tss m) x = rd m x.
Proof. intros Hx. unfold gdt_set_tss, sizeof_gdt_entry. by rewrite !store_frame by lia. Qed.

Lemma final_entry r x : gdt ≤ x < gdt + 40 → rd (final r).1 x = rd after_entries x.
Proof.
  intros Hx. unfold final, gdt_init, ltr, GDT_TSS. cbn [fst]. rewrite rd_wr_ne by lia. rewrite set_tss_frame by lia. by rewrite tss_init_frame by lia.
Qed.

Lemma entry_at r i d :
  0 ≤ i < 5 → descriptor_at after_entries (gdt + i * 8) = d → descriptor_at (final r).1 (gdt + i * 8) = d.
Proof. intros Hi <-. apply descriptor_ext. intros x Hx. apply final_entry. lia. Qed.

(** What the five entries describe. *)
Definition entry_desc (i : Z) : descriptor :=
  if i =? 0 then Desc 0 0 0 0
  else if i =? 1 then Desc 0 0xFFFFF 0x9A 10
  else if i =? 2 then Desc 0 0xFFFFF 0x92 8
  else if i =? 3 then Desc 0 0xFFFFF 0xF2 8
  else Desc 0 0xFFFFF 0xFA 10.

Lemma entries_at i : 0 ≤ i < 5 → descriptor_at after_entries (gdt + i * 8) = entry_desc i.
Proof.
  intros Hi. unfold after_entries.
  assert (i = 0 ∨ i = 1 ∨ i = 2 ∨ i = 3 ∨ i = 4) as [->|[->|[->|[->| ->]]]] by lia.
  all: rewrite ?entry_skip by lia; rewrite set_entry_at by (vm_compute; intuition discriminate); reflexivity.
Qed.

Lemma selected_entry r sel i : sel / 8 = i → 0 ≤ i < 5 → selected (final r).1 (final r).2 sel = Some (entry_desc i).
Proof.
  intros Hs Hi. unfold selected. rewrite Hs. cbn [final gdt_init ltr lgdt gdt_reload snd gdtr_limit gdtr_base].
  change (GDT_ENTRIES * sizeof_gdt_entry - 1) with 55. rewrite (proj2 (Z.leb_le 0 (i * 8))), (proj2 (Z.leb_le (i * 8 + 7) 55)) by lia.
  cbn [andb]. f_equal. apply entry_at; [done|by apply entries_at].
Qed.

Lemma task_final r : task_at (final r).1 (gdt + GDT_TSS) = Some (tss, 103).
Proof.
  unfold task_at, final, gdt_init, ltr, GDT_TSS. cbn [fst]. set (m := tss_init _ _ _ _ _).
  assert (rd (gdt_set_tss gdt tss m) (gdt + 40 + 5) = 0x89) as E.
  { assert (load 1 (gdt_set_tss gdt tss m) (gdt + 40 + 5) = 0x89) as <-; [|unfold load; lia].
    unfold gdt_set_tss, sizeof_gdt_entry. change (5 * 8) with 40. change GDT_ACCESS_TSS with 0x89. read_back. done. }
  rewrite E. change (Z.lor 0x89 2) with 0x8B. unfold descriptor_at. cbn [d_access d_base d_limit]. rewrite load_wr_eq, !load_wr_ne by lia.
  unfold gdt_set_tss, sizeof_gdt_entry, sizeof_tss. change (5 * 8) with 40.
  rewrite !land_byte, !land_word, land_dword, !Z.shiftr_div_pow2 by lia. change (Z.land ((104 - 1) / 2 ^ 16) 15) with 0. change ((104 - 1) mod 65536) with 103.
  change (2 ^ 16) with 65536. change (2 ^ 24) with 16777216. change (2 ^ 32) with 4294967296. change (2 ^ 64) with 18446744073709551616 in Htss. read_back.
  cbn [Z.eqb Pos.eqb andb]. do 2 f_equal. zdm.
Qed.

(** The task state segment. *)
Lemma tss_load r n o : 0 ≤ o → o + Z.of_nat n ≤ 104 → load n (final r).1 (tss + o) = load n (tss_init tss nmi df mce after_entries) (tss + o).
Proof.
  intros Ho Hn. apply load_ext. intros x Hx. unfold final, gdt_init, ltr, GDT_TSS. cbn [fst]. rewrite rd_wr_ne by lia. by rewrite set_tss_frame by lia.
Qed.

Lemma load_zero n m a : (∀ x, a ≤ x < a + Z.of_nat n → rd m x = 0) → load n m a = 0.
Proof. revert a. induction n as [|n IH]; intros a H; [done|]. unfold load; fold load. rewrite H by lia. rewrite IH by (intros; apply H; lia). done. Qed.

Lemma tss_final r :
  let m := (final r).1 in
  load 8 m (tss + 4) = 0 ∧ load 8 m (tss + 36) = nmi + IST_STACK_TOTAL ∧ load 8 m (tss + 44) = df + IST_STACK_TOTAL ∧
  load 8 m (tss + 52) = mce + IST_STACK_TOTAL ∧ load 2 m (tss + 102) = 104.
Proof.
  assert (0 ≤ nmi < 2 ^ 64 - IST_STACK_TOTAL ∧ 0 ≤ df < 2 ^ 64 - IST_STACK_TOTAL ∧ 0 ≤ mce < 2 ^ 64 - IST_STACK_TOTAL) as (H1 & H2 & H3)
    by (split_and!; apply Hst; set_solver).
  intros m. unfold m. rewrite !tss_load by lia.
  unfold tss_init, tss_iopb_off, tss_ist1_off, tss_ist2_off, tss_ist3_off, IST_STACK_TOTAL, IST_USABLE_SIZE, IST_GUARD_SIZE, sizeof_tss in *.
  change (2 ^ 64) with 18446744073709551616 in *. read_back. split_and!; try done. apply load_zero. intros x Hx.
  apply zero_bytes. lia.
Qed.
End Tables.

(** ** Gates *)

Definition gate_offset (e : idt_entry) : Z := offset_low e + 2 ^ 16 * offset_mid e + 2 ^ 32 * offset_high e.

(** The interrupt stack of a vector. *)
Definition ist_of (v : Z) : Z := if v =? 2 then 1 else if v =? 8 then 2 else if v =? 18 then 3 else 0.

Record gate_ok (handler stack : Z) (e : idt_entry) : Prop := {
  go_offset : gate_offset e = handler;
  go_selector : selector e = GDT_KERNEL_CODE;
  go_type : type_attr e = IDT_GATE_INTERRUPT;
  go_ist : ist e = stack;
}.

Lemma idt_set_gate_ok n handler stack idt :
  0 ≤ handler < 2 ^ 64 → 0 ≤ stack < 8 →
  ∃ e, idt_set_gate n handler GDT_KERNEL_CODE IDT_GATE_INTERRUPT stack idt !! n = Some e ∧ gate_ok handler stack e.
Proof.
  intros Hh Hs. eexists. split; [apply lookup_insert_eq|]. split; cbn; [|done|done|].
  - unfold gate_offset. cbn. rewrite !land_word, land_dword, !Z.shiftr_div_pow2 by lia. change (2 ^ 16) with 65536. change (2 ^ 32) with 4294967296.
    change (2 ^ 64) with 18446744073709551616 in Hh. zdm.
  - change 7 with (Z.ones 3). rewrite Z.land_ones by lia. apply Z.mod_small. lia.
Qed.

Lemma idt_set_gate_ne n v handler sel ty stack idt : v ≠ n → idt_set_gate n handler sel ty stack idt !! v = idt !! v.
Proof. intros Hne. by apply lookup_insert_ne. Qed.

Lemma idt_install_ok stubs idt v :
  (∀ v, 0 ≤ stubs v < 2 ^ 64) → 0 ≤ v < 256 → stubs v ≠ 0 → ∃ e, idt_install stubs idt !! v = Some e ∧ gate_ok (stubs v) (ist_of v) e.
Proof.
  intros Hs Hv Hne. unfold idt_install, ist_of.
  destruct (Z.eqb_spec v 2) as [->|]; [rewrite 2!idt_set_gate_ne by lia; apply idt_set_gate_ok; [done|lia]|].
  destruct (Z.eqb_spec v 8) as [->|]; [rewrite idt_set_gate_ne by lia; apply idt_set_gate_ok; [done|lia]|].
  destruct (Z.eqb_spec v 18) as [->|]; [apply idt_set_gate_ok; [done|lia]|]. rewrite 3!idt_set_gate_ne by lia.
  apply (for_loop_ind0 (λ i idt, v < i → ∃ e, idt !! v = Some e ∧ gate_ok (stubs v) 0 e) IDT_SIZE _ idt); [lia|  |unfold IDT_SIZE; lia].
  intros i idt' Hi IH Hlt. destruct (decide (v = i)) as [->|].
  - rewrite (proj2 (Z.eqb_neq _ _) Hne). apply idt_set_gate_ok; [done|lia].
  - destruct (negb _); [rewrite idt_set_gate_ne by done|]; apply IH; lia.
Qed.

Lemma star_selectors entry msr t : rd (syscall_init entry msr t).1 MSR_STAR = 0x0010000800000000.
Proof. unfold syscall_init, rd. cbn [fst]. rewrite !lookup_insert_ne by done. by rewrite lookup_insert_eq. Qed.

(** C39 [segments_well_typed]: after [gdt_init] every selector the kernel uses
    names a descriptor of the kind its use requires.  The loaded segment
    registers and the gates of the interrupt table select present kernel
    segments, 64-bit where code runs; the base values that [syscall_init] puts
    in STAR make [syscall] enter kernel segments and [sysretq] leave to user
    segments; the task register selects the task state segment with its exact
    address and limit, no port access bitmap, and the tops of the three interrupt
    stacks in the slots that the gates of NMI, double fault and machine check
    name; and a gate's address parts give its handler. *)
Theorem segments_well_typed gdt tss nmi df mce m r stubs idt msr t entry :
  0 ≤ tss < 2 ^ 64 → gdt + 56 ≤ tss ∨ tss + 104 ≤ gdt →
  (∀ s, s ∈ [nmi; df; mce] → 0 ≤ s < 2 ^ 64 - IST_STACK_TOTAL) → (∀ v, 0 ≤ stubs v < 2 ^ 64) →
  let '(m', r') := gdt_init gdt tss nmi df mce m r in
  let star := rd (syscall_init entry msr t).1 MSR_STAR in
  sel_ok (is_code64 0) m' r' (reg_cs r') ∧ sel_ok (is_data 0) m' r' (reg_ss r') ∧ sel_ok (is_data 0) m' r' (reg_ds r') ∧
  sel_ok (is_code64 0) m' r' (Z.land (Z.shiftr star 32) 0xFFFF) ∧ sel_ok (is_data 0) m' r' (Z.land (Z.shiftr star 32) 0xFFFF + 8) ∧
  sel_ok (is_code64 3) m' r' (Z.shiftr star 48 + 16) ∧ sel_ok (is_data 3) m' r' (Z.shiftr star 48 + 8) ∧
  task_at m' (gdtr_base r' + reg_tr r') = Some (tss, 103) ∧ 103 < load 2 m' (tss + 102) ∧
  (∀ v, 0 ≤ v < 256 → stubs v ≠ 0 → ∃ e, idt_install stubs idt !! v = Some e ∧ gate_offset e = stubs v ∧ sel_ok (is_code64 0) m' r' (selector e) ∧
     match v with
     | 2 => load 8 m' (tss + 28 + 8 * ist e) = nmi + IST_STACK_TOTAL
     | 8 => load 8 m' (tss + 28 + 8 * ist e) = df + IST_STACK_TOTAL
     | 18 => load 8 m' (tss + 28 + 8 * ist e) = mce + IST_STACK_TOTAL
     | _ => ist e = 0
     end).
Proof.
  intros Ht Hsep Hst Hstubs. pose proof (task_final gdt tss nmi df mce m Ht r) as Htask.
  pose proof (tss_final gdt tss nmi df mce m Ht Hsep Hst r) as (_ & Hi1 & Hi2 & Hi3 & Hio).
  pose proof (selected_entry gdt tss nmi df mce m Ht Hsep r) as Hsel. unfold final in *.
  assert ((gdt_init gdt tss nmi df mce m r).2 = SegRegs 55 gdt 8 16 16 16 0 0 40) as Hr by done.
  destruct (gdt_init gdt tss nmi df mce m r) as [m' r']. cbn [fst snd] in *. subst r'. rewrite star_selectors.
  assert (∀ P sel i, sel / 8 = i → 0 ≤ i < 5 → P (entry_desc i) = true → sel_ok P m' (SegRegs 55 gdt 8 16 16 16 0 0 40) sel) as Hok.
  { intros P sel i E Hi HP. exists (entry_desc i). split; [by apply Hsel|done]. }
  cbn [reg_cs reg_ss reg_ds gdtr_base reg_tr].
  split_and!; [by eapply Hok..|exact Htask|lia|].
  intros v Hv Hne. destruct (idt_install_ok stubs idt v Hstubs Hv Hne) as (e & E & [G1 G2 _ G4]). exists e. split_and!; [done|done| |].
  - rewrite G2. by eapply Hok.
  - rewrite G4. unfold ist_of. destruct (Z.eqb_spec v 2) as [->|]; [by rewrite <- Hi1; f_equal; lia|].
    destruct (Z.eqb_spec v 8) as [->|]; [by rewrite <- Hi2; f_equal; lia|]. destruct (Z.eqb_spec v 18) as [->|]; [by rewrite <- Hi3; f_equal; lia|].
    destruct v as [|p|p]; [done| |done]. do 5 (destruct p as [p|p|]; try done).
Qed.

(** Tables at fixed addresses, stubs 16 bytes apart. *)
Definition stubs_ex (v : Z) : Z := if (0 <=? v) && (v <? 256) then 0x100000 + 16 * v else 0.

Lemma segments_well_typed_witness :
  let '(m', r') := gdt_init 0x1000 0x2000 0x10000 0x20000 0x30000 ∅ (SegRegs 0 0 0 0 0 0 0 0 0) in
  sel_ok (is_code64 0) m' r' (reg_cs r') ∧
  ∃ e, idt_install stubs_ex ∅ !! 8 = Some e ∧ gate_offset e = 0x100080 ∧ load 8 m' (0x2000 + 28 + 8 * ist e) = 0x20000 + IST_STACK_TOTAL.
Proof.
  pose proof (segments_well_typed 0x1000 0x2000 0x10000 0x20000 0x30000 ∅ (SegRegs 0 0 0 0 0 0 0 0 0) stubs_ex ∅ ∅ ∅ 0x5000) as H.
  destruct (gdt_init 0x1000 0x2000 0x10000 0x20000 0x30000 ∅ (SegRegs 0 0 0 0 0 0 0 0 0)) as [m' r'].
  destruct H as (H1 & _ & _ & _ & _ & _ & _ & _ & _ & H2); [lia|lia| | |].
  - intros s Hs. change IST_STACK_TOTAL with 12288. repeat (apply elem_of_cons in Hs as [->|Hs]; [lia|]). by apply elem_of_nil in Hs.
  - intros v. unfold stubs_ex. destruct (0 <=? v) eqn:E1, (v <? 256) eqn:E2; cbn [andb]; lia.
  - split; [exact H1|]. destruct (H2 8 ltac:(lia) ltac:(done)) as (e & E & Ho & _ & Hi). exists e. split_and!; [exact E|exact Ho|exact Hi].
Defined.
