(* ===== verification/Asm.v ===== *)
(** * The processor as the assembly stubs use it

    Registers, memory, model-specific registers and the instructions that
    [syscall_entry.S], [isr.S], [usermode.S], [kthread_switch.S] and the inline
    assembly of [syscall.c] are written with; the [syscall] instruction and the
    delivery of interrupts.  Memory is the kernel's virtual memory, by bytes.

    Of the arithmetic flags only the zero flag is kept, in [zf]: the stubs test
    no other, and every way out of them loads the flags register anew.
    [rflags] holds the flags register as the interrupted program left it, with
    the interrupt and direction flags that [sti], [cli] and [cld] change.

    A fault inside a stub is [None]. *)
From S2P Require Import Prelude Pmm Page Vmm Gdt Fault Syscall GdtProps.
Local Open Scope Z_scope.

Inductive reg := RAX | RBX | RCX | RDX | RSI | RDI | RBP | RSP | R8 | R9 | R10 | R11 | R12 | R13 | R14 | R15.

#[global] Instance reg_eq_dec : EqDecision reg.
Proof. solve_decision. Defined.

Definition MSR_FS_BASE : Z := 0xC0000100.
Definition MSR_GS_BASE : Z := 0xC0000101.
Definition MSR_KERNEL_GS_BASE : Z := 0xC0000102.

Record core := Core {
  gpr : reg → Z;
  rip : Z;
  rflags : Z;
  zf : bool;
  cs : Z;
  ss : Z;
  msr : gmap Z Z;
  mem : gmap Z Z;
}.

Definition upd (r : reg) (v : Z) (f : reg → Z) : reg → Z := λ r', if decide (r' = r) then v else f r'.

Definition set_gpr (r : reg) (v : Z) (s : core) : core := Core (upd r v (gpr s)) (rip s) (rflags s) (zf s) (cs s) (ss s) (msr s) (mem s).
Definition set_rflags (v : Z) (s : core) : core := Core (gpr s) (rip s) v (zf s) (cs s) (ss s) (msr s) (mem s).
Definition set_zf (b : bool) (s : core) : core := Core (gpr s) (rip s) (rflags s) b (cs s) (ss s) (msr s) (mem s).
Definition set_msr (m : gmap Z Z) (s : core) : core := Core (gpr s) (rip s) (rflags s) (zf s) (cs s) (ss s) m (mem s).
Definition set_cmem (m : gmap Z Z) (s : core) : core := Core (gpr s) (rip s) (rflags s) (zf s) (cs s) (ss s) (msr s) m.
Definition set_rip (v : Z) (s : core) : core := Core (gpr s) v (rflags s) (zf s) (cs s) (ss s) (msr s) (mem s).
(** A far transfer of control. *)
Definition set_seg (ip c t : Z) (s : core) : core := Core (gpr s) ip (rflags s) (zf s) c t (msr s) (mem s).

Definition cpl (s : core) : Z := Z.land (cs s) 3.

Definition FLAG_TF : Z := 0x100.
Definition FLAG_IF : Z := 0x200.
Definition FLAG_DF : Z := 0x400.
Definition FLAG_NT : Z := 0x4000.
Definition FLAG_RF : Z := 0x10000.
Definition FLAG_VM : Z := 0x20000.

(** Addresses with bits 63 to 48 equal to bit 47. *)
Definition canonical (a : Z) : bool := (a <? 0x800000000000) || (0xFFFF800000000000 <=? a).

(** ** Instructions *)

Inductive operand := Reg (r : reg) | Imm (z : Z).

(** [l] is a local label.  [Testb m d] is [testb $m, d(%rsp)]; the operands of
    [Incq], [Decq] and [Cmpq] are addresses of variables. *)
Inductive instr :=
  | Pushq (o : operand)
  | Popq (r : reg)
  | Movq (src dst : reg)
  | MovToGs (r : reg) (off : Z)
  | MovFromGs (off : Z) (r : reg)
  | MovStore (r base : reg)
  | Andq (z : Z) (r : reg)
  | Orq (z : Z) (r : reg)
  | Addq (z : Z) (r : reg)
  | Xorq (r : reg)
  | Testb (m d : Z)
  | Incq (a : Z)
  | Decq (a : Z)
  | Cmpq (z a : Z)
  | Swapgs
  | Sti
  | Cli
  | Cld
  | Call
  | Label (l : Z)
  | Jz (l : Z)
  | Jne (l : Z)
  | Jmp (l : Z)
  | Ret
  | Iretq
  | Sysretq.

Definition value (s : core) (o : operand) : Z := match o with Reg r => gpr s r | Imm z => z end.

Definition push (v : Z) (s : core) : core :=
  let sp := u64 (gpr s RSP - 8) in set_cmem (store 8 (mem s) sp v) (set_gpr RSP sp s).

Definition pop (s : core) : Z * core := (load 8 (mem s) (gpr s RSP), set_gpr RSP (u64 (gpr s RSP + 8)) s).

Definition swapgs (m : gmap Z Z) : gmap Z Z :=
  wr (wr m MSR_GS_BASE (rd m MSR_KERNEL_GS_BASE)) MSR_KERNEL_GS_BASE (rd m MSR_GS_BASE).

Definition gs_addr (s : core) (off : Z) : Z := u64 (rd (msr s) MSR_GS_BASE + off).

(** The instructions that go on to the next one; [h] is the C function that
    [Call] calls, with its return. *)
Definition exec (h : core → option core) (i : instr) (s : core) : option core :=
  match i with
  | Pushq o => Some (push (value s o) s)
  | Popq r => let '(v, s') := pop s in Some (set_gpr r v s')
  | Movq src dst => Some (set_gpr dst (gpr s src) s)
  | MovToGs r off => Some (set_cmem (store 8 (mem s) (gs_addr s off) (gpr s r)) s)
  | MovFromGs off r => Some (set_gpr r (load 8 (mem s) (gs_addr s off)) s)
  | MovStore r base => Some (set_cmem (store 8 (mem s) (gpr s base) (gpr s r)) s)
  | Andq z r => let v := Z.land (gpr s r) z in Some (set_zf (v =? 0) (set_gpr r v s))
  | Orq z r => let v := Z.lor (gpr s r) z in Some (set_zf (v =? 0) (set_gpr r v s))
  | Addq z r => let v := u64 (gpr s r + z) in Some (set_zf (v =? 0) (set_gpr r v s))
  | Xorq r => Some (set_zf true (set_gpr r 0 s))
  | Testb m d => Some (set_zf (Z.land (load 1 (mem s) (u64 (gpr s RSP + d))) m =? 0) s)
  | Incq a => let v := u64 (load 8 (mem s) a + 1) in Some (set_zf (v =? 0) (set_cmem (store 8 (mem s) a v) s))
  | Decq a => let v := u64 (load 8 (mem s) a - 1) in Some (set_zf (v =? 0) (set_cmem (store 8 (mem s) a v) s))
  | Cmpq z a => Some (set_zf (load 8 (mem s) a =? z) s)
  | Swapgs => Some (set_msr (swapgs (msr s)) s)
  | Sti => Some (set_rflags (Z.lor (rflags s) FLAG_IF) s)
  | Cli => Some (set_rflags (Z.land (rflags s) (~64 FLAG_IF)) s)
  | Cld => Some (set_rflags (Z.land (rflags s) (~64 FLAG_DF)) s)
  | Call => h s
  | Label _ => Some s
  | Jz _ | Jne _ | Jmp _ | Ret | Iretq | Sysretq => None
  end.

(** ** Ways out of a stub *)

Definition ret (s : core) : option core :=
  let '(ip, s) := pop s in if canonical ip then Some (set_rip ip s) else None.

Definition iretq (s : core) : option core :=
  let w i := load 8 (mem s) (u64 (gpr s RSP + 8 * i)) in
  if canonical (w 0)
  then Some (set_zf (Z.testbit (w 2) 6) (set_rflags (w 2) (set_gpr RSP (w 3) (set_seg (w 0) (w 1) (w 4) s))))
  else None.

(** An address that is not canonical faults in the kernel, after the stub has
    loaded the user's stack pointer and segment base. *)
Definition sysretq (s : core) : option core :=
  let star := rd (msr s) MSR_STAR in
  let fl := Z.lor (Z.land (gpr s R11) 0x3C7FD7) 2 in
  if canonical (gpr s RCX)
  then Some (set_zf (Z.testbit fl 6) (set_rflags fl
         (set_seg (gpr s RCX) (Z.lor (Z.shiftr star 48 + 16) 3) (Z.lor (Z.shiftr star 48 + 8) 3) s)))
  else None.

(** ** Running a stub *)

Inductive ending := Leaves (s : core) | Faults | Running (pc : nat) (s : core).

Definition is_label (l : Z) (i : instr) : bool := match i with Label l' => l' =? l | _ => false end.

Fixpoint label_at (l : Z) (code : list instr) : nat :=
  match code with
  | [] => 0
  | i :: code' => if is_label l i then 0 else S (label_at l code')
  end.

Definition leaves (o : option core) : ending := match o with Some s => Leaves s | None => Faults end.

Definition step (h : core → option core) (code : list instr) (pc : nat) (s : core) : ending :=
  match code !! pc with
  | None => Faults
  | Some (Jz l) => Running (if zf s then label_at l code else S pc) s
  | Some (Jne l) => Running (if zf s then S pc else label_at l code) s
  | Some (Jmp l) => Running (label_at l code) s
  | Some Ret => leaves (ret s)
  | Some Iretq => leaves (iretq s)
  | Some Sysretq => leaves (sysretq s)
  | Some i => match exec h i s with Some s' => Running (S pc) s' | None => Faults end
  end.

Fixpoint run (n : nat) (h : core → option core) (code : list instr) (pc : nat) (s : core) : ending :=
  match n with
  | O => Running pc s
  | S n' => match step h code pc s with Running pc' s' => run n' h code pc' s' | e => e end
  end.

(** ** Ways in *)

(** The [syscall] instruction; [rip s] is the address of the next one. *)
Definition syscall (s : core) : core :=
  let star := rd (msr s) MSR_STAR in
  let k := Z.land (Z.shiftr star 32) 0xFFFC in
  set_rflags (Z.land (rflags s) (~64 (rd (msr s) MSR_SFMASK)))
    (set_seg (rd (msr s) MSR_LSTAR) k (k + 8) (set_gpr R11 (rflags s) (set_gpr RCX (rip s) s))).

(** The stack of an interrupt: the one its gate names, the one for entry from
    user mode, or the current one. *)
Definition stack_of (tss : Z) (e : idt_entry) (s : core) : Z :=
  if negb (ist e =? 0) then load 8 (mem s) (tss + 28 + 8 * ist e)
  else if cpl s =? 3 then load 8 (mem s) (tss + tss_rsp0_off) else gpr s RSP.

Definition pushes (vs : list Z) (s : core) : core := foldl (λ s v, push v s) s vs.

(** The delivery of interrupt or exception [v], with an error code for some
    exceptions.  Interrupt gates also disable interrupts. *)
Definition deliver (idt : gmap Z idt_entry) (tss v : Z) (err : option Z) (s : core) : option core :=
  match idt !! v with
  | None => None
  | Some e =>
      let clear := Z.lor (Z.lor (Z.lor (Z.lor FLAG_TF FLAG_NT) FLAG_RF) FLAG_VM)
                     (if type_attr e =? IDT_GATE_INTERRUPT then FLAG_IF else 0) in
      let s1 := set_gpr RSP (Z.land (stack_of tss e s) (~64 0xF)) s in
      let s1 := pushes ([ss s; gpr s RSP; rflags s; cs s; rip s] ++ option_list err) s1 in
      Some (set_rflags (Z.land (rflags s) (~64 clear))
        (set_seg (gate_offset e) (selector e) (if cpl s =? Z.land (selector e) 3 then ss s else 0) s1))
  end.
