(* ===== verification/Stubs.v ===== *)
(** * The assembly stubs

    The code of [syscall_entry.S], [isr.S], [usermode.S], [kthread_switch.S]
    and of the inline assembly that ends [fork_child_user_return] in
    [syscall.c], instruction by instruction, and the per-CPU record of
    [percpu.c] that the system call stub reads. *)
From S2P Require Import Prelude Pmm Page Vmm Gdt Fault Syscall GdtProps Asm.
Local Open Scope Z_scope.

(** ** Per-CPU data *)

Definition PERCPU_CURRENT : Z := 0x00.
Definition PERCPU_KERNEL_RSP : Z := 0x08.
Definition PERCPU_USER_RSP : Z := 0x10.
Definition PERCPU_SELF : Z := 0x18.
Definition PERCPU_CPU_ID : Z := 0x20.
Definition PERCPU_IRQ_DEPTH : Z := 0x24.

Definition wrmsr (r v : Z) (s : core) : core := set_msr (wr (msr s) r v) s.

Section Percpu.
(** The address of [cpu0_percpu]. *)
Context (percpu : Z).

Definition percpu_init (s : core) : core :=
  let m := mem s in
  let m := store 8 m (percpu + PERCPU_CURRENT) 0 in
  let m := store 8 m (percpu + PERCPU_KERNEL_RSP) 0 in
  let m := store 8 m (percpu + PERCPU_USER_RSP) 0 in
  let m := store 8 m (percpu + PERCPU_SELF) percpu in
  let m := store 4 m (percpu + PERCPU_CPU_ID) 0 in
  let m := store 4 m (percpu + PERCPU_IRQ_DEPTH) 0 in
  wrmsr MSR_KERNEL_GS_BASE percpu (wrmsr MSR_GS_BASE percpu (set_cmem m s)).

Definition percpu_set_kernel_stack (rsp : Z) (s : core) : core :=
  set_cmem (store 8 (mem s) (percpu + PERCPU_KERNEL_RSP) rsp) s.

Definition percpu_set_current (proc : Z) (s : core) : core :=
  set_cmem (store 8 (mem s) (percpu + PERCPU_CURRENT) proc) s.

Definition percpu_get_current (s : core) : Z := load 8 (mem s) (percpu + PERCPU_CURRENT).
End Percpu.

(** ** System calls *)

Definition syscall_entry : list instr :=
  [Swapgs; MovToGs RSP PERCPU_USER_RSP; MovFromGs PERCPU_KERNEL_RSP RSP;
   Pushq (Reg RCX); Pushq (Reg R11);
   Pushq (Reg R9); Pushq (Reg R8); Pushq (Reg R10); Pushq (Reg RDX); Pushq (Reg RSI); Pushq (Reg RDI); Pushq (Reg RAX);
   Movq RSP RDI; Sti; Call; Cli;
   Popq RDI; Popq RDI; Popq RSI; Popq RDX; Popq R10; Popq R8; Popq R9;
   Popq R11; Andq USER_RFLAGS_ALLOWED R11; Orq USER_RFLAGS_REQUIRED R11; Popq RCX;
   MovFromGs PERCPU_USER_RSP RSP; Swapgs; Sysretq].

(** ** Interrupts *)

(** What the stubs leave on the stack for [interrupt_handler]. *)
Record interrupt_frame := InterruptFrame {
  f_r15 : Z; f_r14 : Z; f_r13 : Z; f_r12 : Z; f_r11 : Z; f_r10 : Z; f_r9 : Z; f_r8 : Z;
  f_rbp : Z; f_rdi : Z; f_rsi : Z; f_rdx : Z; f_rcx : Z; f_rbx : Z; f_rax : Z;
  f_int_no : Z; f_error_code : Z;
  fr_rip : Z; fr_cs : Z; fr_rflags : Z; fr_rsp : Z; fr_ss : Z;
}.

(** The structure at an address: fields of 8 bytes without gaps. *)
Definition frame_at (m : gmap Z Z) (a : Z) : interrupt_frame :=
  let w i := load 8 m (a + 8 * i) in
  InterruptFrame (w 0) (w 1) (w 2) (w 3) (w 4) (w 5) (w 6) (w 7) (w 8) (w 9) (w 10) (w 11) (w 12) (w 13) (w 14)
    (w 15) (w 16) (w 17) (w 18) (w 19) (w 20) (w 21).

Definition saved_regs : list reg := [RAX; RBX; RCX; RDX; RSI; RDI; RBP; R8; R9; R10; R11; R12; R13; R14; R15].

Definition save_regs : list instr := (λ r, Pushq (Reg r)) <$> saved_regs.
Definition restore_regs : list instr := Popq <$> reverse saved_regs.

Definition isr_common : list instr :=
  save_regs ++
  [Testb 3 144; Jz 1; Swapgs; Label 1; Cld; Movq RSP RDI; Call; Testb 3 144; Jz 2; Swapgs; Label 2] ++
  restore_regs ++ [Addq 16 RSP; Iretq].

Definition ISR_NOERR (num : Z) : list instr := Pushq (Imm 0) :: Pushq (Imm num) :: isr_common.
Definition ISR_ERR (num : Z) : list instr := Pushq (Imm num) :: isr_common.

(** The exceptions whose stubs expect an error code. *)
Definition error_vectors : list Z := [8; 10; 11; 12; 13; 14; 17; 21; 30].

Section Nmi.
(** The addresses of the two counters. *)
Context (nmi_depth nmi_lost_count : Z).

Definition nmi_exit : Z := 3.
Definition nmi_reentry : Z := 4.

Definition isr_2 : list instr :=
  [Pushq (Imm 0); Pushq (Imm 2)] ++ save_regs ++
  [Testb 3 144; Jz 1; Swapgs; Label 1; Cld; Incq nmi_depth; Cmpq 1 nmi_depth; Jne nmi_reentry; Movq RSP RDI; Call;
   Label nmi_exit; Decq nmi_depth; Testb 3 144; Jz 2; Swapgs; Label 2] ++
  restore_regs ++ [Addq 16 RSP; Iretq; Label nmi_reentry; Incq nmi_lost_count; Jmp nmi_exit].

(** The stub of a vector; there are stubs for 0 to 47 and 255. *)
Definition isr_stub (v : Z) : option (list instr) :=
  if v =? 2 then Some isr_2
  else if decide (v ∈ error_vectors) then Some (ISR_ERR v)
  else if (0 <=? v) && (v <=? 47) || (v =? 255) then Some (ISR_NOERR v)
  else None.
End Nmi.

(** ** Entering user mode *)

Definition USER_CS : Z := 0x23.
Definition USER_SS : Z := 0x1B.

Definition user_mode_enter : list instr :=
  [Cli; Swapgs; Pushq (Imm USER_SS); Pushq (Reg RSI); Pushq (Imm 0x202); Pushq (Imm USER_CS); Pushq (Reg RDI)] ++
  (Xorq <$> [RAX; RBX; RCX; RDX; RSI; RDI; RBP; R8; R9; R10; R11; R12; R13; R14; R15]) ++ [Iretq].

(** The inputs of the inline assembly are pinned to [r8], [r9] and [r10]. *)
Definition fork_return : list instr :=
  [Movq R8 RCX; Movq R9 R11; Movq R10 RSP] ++
  (Xorq <$> [RAX; RDX; RSI; RDI; RBP; RBX; R8; R9; R10; R12; R13; R14; R15]) ++ [Swapgs; Sysretq].

(** ** Switching threads *)

Definition kthread_switch_code : list instr :=
  ((λ r, Pushq (Reg r)) <$> [RBX; RBP; R12; R13; R14; R15]) ++ [MovStore RSP RDI; Movq RSI RSP] ++
  (Popq <$> [R15; R14; R13; R12; RBP; RBX]) ++ [Sti; Ret].
