(* ===== verification/StubProps.v ===== *)
(** * Running straight-line code, and the stack *)
From S2P Require Import Prelude Pmm Page Vmm Gdt Fault Syscall GdtProps Asm Stubs.
Local Open Scope Z_scope.

(** ** Registers *)

Lemma upd_eq r v f : upd r v f r = v.
Proof. unfold upd. by case_decide. Qed.

Lemma upd_ne r r' v f : r' ≠ r → upd r v f r' = f r'.
Proof. intros. unfold upd. by case_decide. Qed.

(** Reads of registers and other fields after updates. *)
Ltac regs :=
  repeat (first
    [ progress cbn [set_gpr set_rflags set_zf set_msr set_cmem set_rip set_seg gpr rip rflags zf cs ss msr mem value]
    | rewrite upd_eq
    | rewrite upd_ne by (congruence || done) ]).

(** The cases of a membership in a concrete list. *)
Tactic Notation "in_cases" ident(H) "by" tactic3(t) :=
  repeat (apply elem_of_cons in H as [->|H]; [t|]); by apply elem_of_nil in H.

(** ** Straight-line code *)

Definition straight (i : instr) : bool :=
  match i with Jz _ | Jne _ | Jmp _ | Ret | Iretq | Sysretq => false | _ => true end.

Fixpoint exec_seq (h : core → option core) (c1 : list instr) (s : core) : option core :=
  match c1 with
  | [] => Some s
  | i :: c1 => match exec h i s with Some s' => exec_seq h c1 s' | None => None end
  end.

Lemma exec_seq_app h c1 js s s' : exec_seq h c1 s = Some s' → exec_seq h (c1 ++ js) s = exec_seq h js s'.
Proof. revert s. induction c1 as [|i c1 IH]; intros s; cbn; [by intros [= ->]|]. destruct (exec h i s); [apply IH|done]. Qed.

Lemma run_seq h code n pc c1 s s' :
  take (length c1) (drop pc code) = c1 → forallb straight c1 = true → exec_seq h c1 s = Some s' →
  run (length c1 + n) h code pc s = run n h code (pc + length c1) s'.
Proof.
  revert pc s. induction c1 as [|i c1 IH]; intros pc s Hd Hst He; [injection He as ->; cbn; by rewrite Nat.add_0_r|].
  cbn in Hst, He. apply andb_prop in Hst as [Hi Hst]. destruct (exec h i s) as [s1|] eqn:E1; [|done].
  destruct (code !! pc) as [j|] eqn:Ej; [|apply lookup_ge_None in Ej; by rewrite drop_ge in Hd by lia].
  rewrite (drop_S _ _ _ Ej) in Hd. cbn [length take] in Hd. injection Hd as -> Hd.
  cbn [length plus run]. assert (step h code pc s = Running (S pc) s1) as ->.
  { unfold step. rewrite Ej. destruct i; try done; by rewrite E1. }
  rewrite (IH (S pc) s1) by done. f_equal. lia.
Qed.

Lemma run_step h code n pc s pc' s' : step h code pc s = Running pc' s' → run (S n) h code pc s = run n h code pc' s'.
Proof. intros E. cbn [run]. by rewrite E. Qed.

Lemma run_leaves h code n pc s s' : step h code pc s = Leaves s' → run (S n) h code pc s = Leaves s'.
Proof. intros E. cbn [run]. by rewrite E. Qed.

Lemma step_iretq h code pc s s' : code !! pc = Some Iretq → iretq s = Some s' → step h code pc s = Leaves s'.
Proof. intros Hc E. unfold step. by rewrite Hc, E. Qed.

Lemma step_sysretq h code pc s s' : code !! pc = Some Sysretq → sysretq s = Some s' → step h code pc s = Leaves s'.
Proof. intros Hc E. unfold step. by rewrite Hc, E. Qed.

Lemma step_ret h code pc s s' : code !! pc = Some Ret → ret s = Some s' → step h code pc s = Leaves s'.
Proof. intros Hc E. unfold step. by rewrite Hc, E. Qed.

(** ** Words on the stack *)

Definition words (m : gmap Z Z) (a : Z) (ws : list Z) : Prop := ∀ i w, ws !! i = Some w → load 8 m (a + 8 * Z.of_nat i) = w.

Definition word (v : Z) : Prop := 0 ≤ v < 2 ^ 64.

Lemma words_app m a ws vs : words m a (ws ++ vs) ↔ words m a ws ∧ words m (a + 8 * Z.of_nat (length ws)) vs.
Proof.
  split.
  - intros H. split; intros i w Hi; [apply H; by apply lookup_app_l_Some|].
    replace (a + 8 * Z.of_nat (length ws) + 8 * Z.of_nat i) with (a + 8 * Z.of_nat (length ws + i)) by lia.
    apply H. rewrite lookup_app_r by lia. by replace (length ws + i - length ws)%nat with i by lia.
  - intros [H1 H2] i w [Hi|[Hi Hw]]%lookup_app_Some; [by apply H1|].
    replace (a + 8 * Z.of_nat i) with (a + 8 * Z.of_nat (length ws) + 8 * Z.of_nat (i - length ws)) by lia. by apply H2.
Qed.

Lemma words_ext m m' a ws : (∀ x, a ≤ x < a + 8 * Z.of_nat (length ws) → rd m' x = rd m x) → words m a ws → words m' a ws.
Proof.
  intros Hx H i w Hi. pose proof (lookup_lt_Some _ _ _ Hi). rewrite <- (H i w Hi). apply load_ext. intros x Hr. apply Hx. lia.
Qed.

Lemma words_one m a w : words m a [w] ↔ load 8 m a = w.
Proof.
  split; [intros H; rewrite <- (H 0%nat w eq_refl); f_equal; lia|]. intros H [|i] v Hi; [|done]. injection Hi as <-. by replace (a + 8 * Z.of_nat 0) with a by lia.
Qed.

Lemma word_nth m a ws i w : words m a ws → ws !! Z.to_nat i = Some w → 0 ≤ i → load 8 m (a + 8 * i) = w.
Proof. intros H Hi H0. rewrite <- (H _ _ Hi). do 2 f_equal. lia. Qed.

(** ** Pushing *)

Lemma push_spec v s : word v → 8 ≤ gpr s RSP < 2 ^ 64 →
  gpr (push v s) RSP = gpr s RSP - 8 ∧ (∀ r, r ≠ RSP → gpr (push v s) r = gpr s r) ∧
  load 8 (mem (push v s)) (gpr s RSP - 8) = v ∧
  (∀ x, x < gpr s RSP - 8 ∨ gpr s RSP ≤ x → rd (mem (push v s)) x = rd (mem s) x).
Proof.
  intros Hv Hs. unfold push. assert (u64 (gpr s RSP - 8) = gpr s RSP - 8) as -> by (apply Z.mod_small; lia).
  split_and!; [by regs|intros r Hr; by regs|regs; by apply load_store_eq|]. intros x Hx. regs. apply store_frame. lia.
Qed.

Record pushed (vs : list Z) (s s' : core) : Prop := {
  pu_rsp : gpr s' RSP = gpr s RSP - 8 * Z.of_nat (length vs);
  pu_gpr : ∀ r, r ≠ RSP → gpr s' r = gpr s r;
  pu_words : words (mem s') (gpr s' RSP) (reverse vs);
  pu_mem : ∀ x, x < gpr s' RSP ∨ gpr s RSP ≤ x → rd (mem s') x = rd (mem s) x;
}.

Lemma pushes_pushed vs s : Forall word vs → 8 * Z.of_nat (length vs) ≤ gpr s RSP < 2 ^ 64 → pushed vs s (pushes vs s).
Proof.
  intros Hvs. revert s. induction Hvs as [|v vs Hv Hvs IH]; intros s Hs.
  - split; [cbn; lia|done|by intros i w Hi|done].
  - cbn [length] in Hs. destruct (push_spec v s Hv ltac:(lia)) as (E1 & E2 & E3 & E4).
    destruct (IH (push v s)) as [R G W M]; [rewrite E1; lia|]. change (pushes (v :: vs) s) with (pushes vs (push v s)). split.
    + rewrite R, E1. cbn [length]. lia.
    + intros r Hr. rewrite G by done. by apply E2.
    + rewrite reverse_cons. apply words_app. split; [exact W|]. apply words_one. rewrite length_reverse, R, E1.
      replace (gpr s RSP - 8 - 8 * Z.of_nat (length vs) + 8 * Z.of_nat (length vs)) with (gpr s RSP - 8) by lia.
      etransitivity; [|exact E3]. apply load_ext. intros x Hx. apply M. rewrite E1. lia.
    + intros x Hx. rewrite M by (rewrite ?E1; lia). apply E4. rewrite R, E1 in Hx. lia.
Qed.

Lemma pushes_rest vs s (s' := pushes vs s) : rip s' = rip s ∧ rflags s' = rflags s ∧ zf s' = zf s ∧ cs s' = cs s ∧ ss s' = ss s ∧ msr s' = msr s.
Proof.
  unfold s'. clear s'. revert s. induction vs as [|v vs IH]; intros s; [done|].
  change (pushes (v :: vs) s) with (pushes vs (push v s)). destruct (IH (push v s)) as (-> & -> & -> & -> & -> & ->). done.
Qed.

Lemma exec_ops h os s : Reg RSP ∉ os → exec_seq h (Pushq <$> os) s = Some (pushes (value s <$> os) s).
Proof.
  revert s. induction os as [|o os IH]; intros s Hr; [done|]. apply not_elem_of_cons in Hr as [Hne Hr].
  rewrite !fmap_cons. cbn [exec_seq exec]. rewrite IH by done. f_equal.
  change (pushes (value s o :: (value s <$> os)) s) with (pushes (value s <$> os) (push (value s o) s)). f_equal.
  apply list_fmap_ext. intros i [r|z] Hi; [|done]. unfold push. regs. apply upd_ne. intros ->. by apply list_elem_of_lookup_2 in Hi.
Qed.

Lemma exec_ops_pushed h os s :
  Reg RSP ∉ os → Forall word (value s <$> os) → 8 * Z.of_nat (length os) ≤ gpr s RSP < 2 ^ 64 →
  ∃ s', exec_seq h (Pushq <$> os) s = Some s' ∧ pushed (value s <$> os) s s' ∧ rflags s' = rflags s ∧ cs s' = cs s ∧ msr s' = msr s.
Proof.
  intros Hr Hw Hs. destruct (pushes_rest (value s <$> os) s) as (_ & F & _ & C & _ & Q).
  exists (pushes (value s <$> os) s). split_and!; [by apply exec_ops|apply pushes_pushed; [done|by rewrite length_fmap]|done..].
Qed.

Lemma exec_pushed h rs s :
  RSP ∉ rs → Forall word (gpr s <$> rs) → 8 * Z.of_nat (length rs) ≤ gpr s RSP < 2 ^ 64 →
  ∃ s', exec_seq h ((λ r, Pushq (Reg r)) <$> rs) s = Some s' ∧ pushed (gpr s <$> rs) s s' ∧
    rflags s' = rflags s ∧ cs s' = cs s ∧ msr s' = msr s.
Proof.
  intros Hr Hw Hs. rewrite (list_fmap_compose Reg Pushq). change (gpr s <$> rs) with (value s ∘ Reg <$> rs) in *.
  rewrite list_fmap_compose in *. apply exec_ops_pushed; [|done|by rewrite length_fmap].
  intros (r & Hr' & Hin)%list_elem_of_fmap. by injection Hr' as <-.
Qed.

(** ** Popping *)

Record popped (rs : list reg) (s s' : core) : Prop := {
  po_rsp : gpr s' RSP = gpr s RSP + 8 * Z.of_nat (length rs);
  po_gpr : ∀ i r, rs !! i = Some r → gpr s' r = load 8 (mem s) (gpr s RSP + 8 * Z.of_nat i);
  po_other : ∀ r, r ≠ RSP → r ∉ rs → gpr s' r = gpr s r;
  po_rest : (rip s', rflags s', zf s', cs s', ss s', msr s', mem s') = (rip s, rflags s, zf s, cs s, ss s, msr s, mem s);
}.

Lemma exec_pops h rs s :
  NoDup rs → RSP ∉ rs → 0 ≤ gpr s RSP → gpr s RSP + 8 * Z.of_nat (length rs) < 2 ^ 64 →
  ∃ s', exec_seq h (Popq <$> rs) s = Some s' ∧ popped rs s s'.
Proof.
  intros Hnd. revert s. induction Hnd as [|r rs Hr Hnd IH]; intros s Hsp H0 Hs; [exists s; split; [done|]; split; [cbn; lia|done|done|done]|].
  apply not_elem_of_cons in Hsp as [Hne Hsp]. cbn [length] in Hs. rewrite fmap_cons. cbn [exec_seq exec pop].
  set (s1 := set_gpr r _ _). assert (gpr s1 RSP = gpr s RSP + 8) as E1 by (unfold s1; regs; apply Z.mod_small; lia).
  destruct (IH s1 Hsp ltac:(lia) ltac:(lia)) as (s' & E & [R G O X]). exists s'. split; [done|]. split; [rewrite R, E1; cbn [length]; lia| | |exact X].
  - intros [|i] q Hi; [|rewrite (G i q Hi), E1; change (mem s1) with (mem s); f_equal; lia].
    injection Hi as <-. rewrite (O r) by done. unfold s1. regs. f_equal. lia.
  - intros q Hq [Hqr Hqs]%not_elem_of_cons. rewrite (O q) by done. unfold s1. by regs.
Qed.

(** ** Clearing *)

Lemma exec_xors h rs s :
  ∃ s', exec_seq h (Xorq <$> rs) s = Some s' ∧ (∀ r, gpr s' r = if decide (r ∈ rs) then 0 else gpr s r) ∧
    (rip s', rflags s', cs s', ss s', msr s', mem s') = (rip s, rflags s, cs s, ss s, msr s, mem s).
Proof.
  revert s. induction rs as [|q rs IH]; intros s; [exists s; split_and!; [done| |done]; intros r; by rewrite decide_False by apply not_elem_of_nil|].
  rewrite fmap_cons. cbn [exec_seq exec]. destruct (IH (set_zf true (set_gpr q 0 s))) as (s' & E & G & X). exists s'. split_and!; [done| |exact X].
  intros r. rewrite G. regs. destruct (decide (r = q)) as [->|Hne].
  - rewrite upd_eq, (decide_True _ _ (list_elem_of_here q rs)). by destruct (decide _).
  - rewrite upd_ne by done. destruct (decide (r ∈ rs)) as [Hi|Hi]; [by rewrite decide_True by (by right)|].
    rewrite decide_False; [done|]. by intros [->|?]%elem_of_cons.
Qed.

(** The privilege bits of a selector, by its low byte. *)
Lemma land3_byte m a : Z.land (load 1 m a) 3 = Z.land (load 8 m a) 3.
Proof.
  change 3 with (Z.ones 2). rewrite !Z.land_ones by lia.
  change (load 8 m a) with (rd m a + 256 * load 7 m (a + 1)). change (load 1 m a) with (rd m a + 256 * 0).
  change (2 ^ 2) with 4. zdm.
Qed.

(** ** Reaching a point of the code *)

Section Reach.
Context (h : core → option core) (code : list instr).

Definition reach (k pc : nat) (s : core) (pc' : nat) (s' : core) : Prop :=
  ∃ j, (j ≤ k)%nat ∧ ∀ n, run (j + n) h code pc s = run n h code pc' s'.

Lemma reach_trans k1 k2 pc s pc1 s1 pc2 s2 : reach k1 pc s pc1 s1 → reach k2 pc1 s1 pc2 s2 → reach (k1 + k2) pc s pc2 s2.
Proof. intros (j1 & H1 & E1) (j2 & H2 & E2). exists (j1 + j2)%nat. split; [lia|]. intros n. by rewrite <- Nat.add_assoc, E1, E2. Qed.

Lemma reach_step pc s pc' s' : step h code pc s = Running pc' s' → reach 1 pc s pc' s'.
Proof. intros E. exists 1%nat. split; [done|]. intros n. by apply run_step. Qed.

Lemma reach_seq pc c1 s s' :
  take (length c1) (drop pc code) = c1 → forallb straight c1 = true → exec_seq h c1 s = Some s' → reach (length c1) pc s (pc + length c1) s'.
Proof. intros H1 H2 H3. exists (length c1). split; [done|]. intros n. by apply run_seq. Qed.

Lemma reach_leaves k pc s pc' s' s2 n : reach k pc s pc' s' → step h code pc' s' = Leaves s2 → (k < n)%nat → run n h code pc s = Leaves s2.
Proof.
  intros (j & Hj & E) Hs Hn. replace n with (j + S (n - j - 1))%nat by lia. rewrite E. by apply run_leaves.
Qed.

(** The exchange of the segment bases that the stubs make for user code. *)
Lemma reach_swap pc l s c :
  drop pc code = Testb 3 144 :: Jz l :: Swapgs :: Label l :: c → label_at l code = (pc + 3)%nat →
  0 ≤ gpr s RSP → gpr s RSP + 152 ≤ 2 ^ 64 →
  let c' := Z.land (load 8 (mem s) (gpr s RSP + 144)) 3 in
  ∃ b, reach 4 pc s (pc + 4) (set_zf b (if c' =? 0 then s else set_msr (swapgs (msr s)) s)).
Proof.
  intros Hd Hl H0 H1 c'.
  assert (∀ i q, drop pc code !! i = Some q → code !! (pc + i)%nat = Some q) as Hc by (intros i q; by rewrite lookup_drop).
  rewrite Hd in Hc. pose proof (Hc 0%nat _ eq_refl) as C0. pose proof (Hc 1%nat _ eq_refl) as C1.
  pose proof (Hc 2%nat _ eq_refl) as C2. pose proof (Hc 3%nat _ eq_refl) as C3. rewrite Nat.add_0_r in C0.
  assert (Z.land (load 1 (mem s) (u64 (gpr s RSP + 144))) 3 = c') as Eb.
  { rewrite u64_small by lia. apply land3_byte. }
  set (z := c' =? 0). exists z.
  assert (step h code pc s = Running (pc + 1) (set_zf z s)) as E0.
  { unfold step. rewrite C0. cbn [exec]. by rewrite Eb, Nat.add_1_r. }
  assert (step h code (pc + 1) (set_zf z s) = Running (if z then (pc + 3)%nat else (pc + 2)%nat) (set_zf z s)) as E1.
  { unfold step. rewrite C1, Hl. cbn [set_zf zf]. destruct z; [done|]. f_equal. lia. }
  assert (∀ s, step h code (pc + 3) s = Running (pc + 4) s) as E3.
  { intros t. unfold step. rewrite C3. cbn [exec]. f_equal. lia. }
  apply (reach_trans 1 3 _ _ _ _ _ _ (reach_step _ _ _ _ E0)). apply (reach_trans 1 2 _ _ _ _ _ _ (reach_step _ _ _ _ E1)).
  destruct z.
  - destruct (reach_step _ _ _ _ (E3 (set_zf true s))) as (j & Hj & E). exists j. split; [lia|done].
  - eapply (reach_trans 1 1); apply reach_step; [|apply E3]. unfold step. rewrite C2. cbn [exec]. f_equal. lia.
Qed.
End Reach.
