(* ===== verification/StubIsr.v ===== *)
(** * Interrupts are transparent to the interrupted program *)
From S2P Require Import Prelude Pmm Page Vmm Gdt Fault Syscall GdtProps Asm Stubs StubProps.
Local Open Scope Z_scope.

(** ** The frame *)

Definition frame_words (v err : Z) (s : core) : list Z :=
  (gpr s <$> reverse saved_regs) ++ [v; err; rip s; cs s; rflags s; gpr s RSP; ss s].

Definition frame_of (v err : Z) (s : core) : interrupt_frame :=
  InterruptFrame (gpr s R15) (gpr s R14) (gpr s R13) (gpr s R12) (gpr s R11) (gpr s R10) (gpr s R9) (gpr s R8)
    (gpr s RBP) (gpr s RDI) (gpr s RSI) (gpr s RDX) (gpr s RCX) (gpr s RBX) (gpr s RAX) v err
    (rip s) (cs s) (rflags s) (gpr s RSP) (ss s).

Lemma frame_at_words m a v err s : words m a (frame_words v err s) → frame_at m a = frame_of v err s.
Proof. intros H. unfold frame_at, frame_of. f_equal; by apply (word_nth _ _ _ _ _ H). Qed.

(** Values fit their registers, and control is at a canonical address. *)
Record core_ok (s : core) : Prop := {
  ok_gpr : ∀ r, word (gpr s r);
  ok_rip : word (rip s);
  ok_canon : canonical (rip s) = true;
  ok_rflags : word (rflags s);
  ok_cs : word (cs s);
  ok_ss : word (ss s);
}.

Lemma pushed_trans vs ws s s1 s2 : pushed vs s s1 → pushed ws s1 s2 → pushed (vs ++ ws) s s2.
Proof.
  intros [R1 G1 W1 M1] [R2 G2 W2 M2]. split.
  - rewrite R2, R1, length_app. lia.
  - intros r Hr. rewrite G2 by done. by apply G1.
  - rewrite reverse_app. apply words_app. split; [done|]. rewrite length_reverse.
    replace (gpr s2 RSP + 8 * Z.of_nat (length ws)) with (gpr s1 RSP) by lia.
    apply (words_ext (mem s1)); [|done]. intros x Hx. apply M2. lia.
  - intros x Hx. rewrite M2 by lia. apply M1. lia.
Qed.

Lemma saved_index r : r ≠ RSP → ∃ i, reverse saved_regs !! i = Some r.
Proof. intros Hr. apply list_elem_of_lookup_1, (bool_decide_unpack _). by destruct r. Qed.

Lemma rsp_not_saved : RSP ∉ saved_regs.
Proof. by apply (bool_decide_unpack _). Qed.

(** ** Leaving a stub *)

Lemma iretq_words t ip c fl sp sg :
  words (mem t) (gpr t RSP) [ip; c; fl; sp; sg] → 0 ≤ gpr t RSP → gpr t RSP + 40 ≤ 2 ^ 64 → canonical ip = true →
  iretq t = Some (set_zf (Z.testbit fl 6) (set_rflags fl (set_gpr RSP sp (set_seg ip c sg t)))).
Proof.
  intros Hw H0 H1 Hc. unfold iretq. rewrite !u64_small by lia.
  rewrite (word_nth _ _ _ 0 ip Hw), (word_nth _ _ _ 1 c Hw), (word_nth _ _ _ 2 fl Hw), (word_nth _ _ _ 3 sp Hw), (word_nth _ _ _ 4 sg Hw) by done.
  by rewrite Hc.
Qed.

Section Leave.
Context (h : core → option core) (code : list instr).

Lemma isr_leave pc post t v err s :
  drop pc code = [Testb 3 144; Jz 2; Swapgs; Label 2] ++ restore_regs ++ [Addq 16 RSP; Iretq] ++ post →
  label_at 2 code = (pc + 3)%nat →
  0 ≤ gpr t RSP → gpr t RSP + 176 ≤ 2 ^ 64 → words (mem t) (gpr t RSP) (frame_words v err s) → core_ok s →
  ∃ pc' t' s3, reach h code 20 pc t pc' t' ∧ step h code pc' t' = Leaves s3 ∧ (∀ r, gpr s3 r = gpr s r) ∧
    rip s3 = rip s ∧ rflags s3 = rflags s ∧ cs s3 = cs s ∧ ss s3 = ss s ∧ mem s3 = mem t ∧
    msr s3 = if cpl s =? 0 then msr t else swapgs (msr t).
Proof.
  intros Hd Hl H0 H1 Hw Hok.
  assert (load 8 (mem t) (gpr t RSP + 144) = cs s) as Ecs by (by apply (word_nth _ _ _ 18 _ Hw)).
  destruct (reach_swap h code pc 2 t _ Hd Hl H0 ltac:(lia)) as [b Hr]. rewrite Ecs in Hr. fold (cpl s) in Hr.
  set (t1 := set_zf b _) in Hr.
  assert (gpr t1 RSP = gpr t RSP ∧ mem t1 = mem t ∧ msr t1 = if cpl s =? 0 then msr t else swapgs (msr t)) as (R1 & M1 & S1)
    by (unfold t1; by destruct (cpl s =? 0)). clearbody t1.
  destruct (exec_pops h (reverse saved_regs) t1) as (t2 & E2 & [R2 G2 O2 X2]);
    [apply (bool_decide_unpack _); by vm_compute|by apply (bool_decide_unpack _)|lia|rewrite R1; cbn; lia|].
  change (length (reverse saved_regs)) with 15%nat in R2. injection X2 as X2rip X2fl X2zf X2cs X2ss X2msr X2mem.
  assert (exec_seq h (restore_regs ++ [Addq 16 RSP]) t1 = Some (set_zf (u64 (gpr t2 RSP + 16) =? 0) (set_gpr RSP (u64 (gpr t2 RSP + 16)) t2))) as E3
    by (unfold restore_regs; by rewrite (exec_seq_app _ _ _ _ _ E2)).
  set (t3 := set_zf _ _) in E3. assert (gpr t3 RSP = gpr t RSP + 136) as R3 by (unfold t3; regs; rewrite u64_small; lia).
  assert (drop (pc + 4) code = restore_regs ++ [Addq 16 RSP; Iretq] ++ post) as Hd2 by (rewrite <- drop_drop, Hd; done).
  assert (iretq t3 = Some (set_zf (Z.testbit (rflags s) 6) (set_rflags (rflags s) (set_gpr RSP (gpr s RSP) (set_seg (rip s) (cs s) (ss s) t3))))) as Ei.
  { apply iretq_words; [|lia|lia|apply Hok]. rewrite R3. change (mem t3) with (mem t2). rewrite X2mem, M1.
    change (gpr t RSP + 136) with (gpr t RSP + 8 * Z.of_nat 17). apply words_app with (ws := take 17 (frame_words v err s)). exact Hw. }
  exists (pc + 20)%nat, t3. eexists. split; [|split].
  - apply (reach_trans _ _ 4 16 _ _ _ _ _ _ Hr). replace (pc + 20)%nat with (pc + 4 + 16)%nat by lia.
    apply (reach_seq _ _ _ (restore_regs ++ [Addq 16 RSP])); [by rewrite Hd2|done|exact E3].
  - unfold step. assert (code !! (pc + 20)%nat = Some Iretq) as ->.
    { replace (pc + 20)%nat with (pc + 4 + 16)%nat by lia. rewrite <- lookup_drop, Hd2. done. }
    by rewrite Ei.
  - split_and!; [|by regs..|by etransitivity; [exact X2mem|]|by etransitivity; [exact X2msr|]].
    intros r. destruct (decide (r = RSP)) as [->|Hne]; regs; [done|]. unfold t3. regs.
    destruct (saved_index r Hne) as [i Hi]. rewrite (G2 i r Hi), R1, M1. apply Hw. unfold frame_words.
    rewrite lookup_app_l by (rewrite length_fmap; by eapply lookup_lt_Some). by rewrite list_lookup_fmap, Hi.
Qed.

(** ** Entering a stub *)

(** The privilege-dependent exchange of segment bases. *)
Definition swap_for (s : core) : gmap Z Z → gmap Z Z := if cpl s =? 0 then id else swapgs.

(** What the code after the saves starts from. *)
Record entered (sp v err : Z) (f : gmap Z Z → gmap Z Z) (s s0 t : core) : Prop := {
  en_rsp : gpr t RSP = sp - 176;
  en_gpr : ∀ r, r ≠ RSP → gpr t r = gpr s r;
  en_words : words (mem t) (sp - 176) (frame_words v err s);
  en_mem : ∀ x, x < sp - 176 ∨ sp ≤ x → rd (mem t) x = rd (mem s) x;
  en_msr : msr t = f (msr s);
  en_seg : cs t = cs s0 ∧ rflags t = rflags s0;
}.

Definition push_imms (pv : list Z) : list instr := Pushq <$> (Imm <$> pv).

Lemma label_at_imms l pv c : label_at l (push_imms pv ++ c) = (length pv + label_at l c)%nat.
Proof. induction pv as [|v pv IH]; [done|]. cbn. f_equal. exact IH. Qed.

Lemma length_imms pv c : length (push_imms pv ++ c) = (length pv + length c)%nat.
Proof. unfold push_imms. by rewrite length_app, !length_fmap. Qed.

Lemma straight_imms pv c : forallb straight (push_imms pv ++ c) = forallb straight c.
Proof. by induction pv. Qed.

Lemma save_frame pv sp v err err' s s0 :
  reverse pv ++ option_list err = [v; err'] → word v → word err' → core_ok s → 176 ≤ sp < 2 ^ 64 →
  pushed ([ss s; gpr s RSP; rflags s; cs s; rip s] ++ option_list err) (set_gpr RSP sp s) s0 → msr s0 = msr s →
  ∃ t, exec_seq h (push_imms pv ++ save_regs) s0 = Some t ∧ entered sp v err' id s s0 t.
Proof.
  intros Hpv Hv Herr Hok Hsp Hp0 Hmsr.
  assert (Forall word pv ∧ (length pv + length (option_list err) = 2)%nat) as [Hwpv Hlen].
  { split; [|rewrite <- (length_reverse pv), <- length_app, Hpv; done].
    apply Forall_reverse. assert (Forall word (reverse pv ++ option_list err)) as HF by (rewrite Hpv; by apply Forall_cons_2, Forall_cons_2, Forall_nil_2).
    by apply Forall_app in HF as [HF _]. }
  assert (gpr s0 RSP = sp - 40 - 8 * Z.of_nat (length (option_list err))) as Hr0.
  { rewrite (pu_rsp _ _ _ Hp0). regs. rewrite length_app. cbn [length]. lia. }
  assert ((value s0 <$> (Imm <$> pv)) = pv) as Hpi by (rewrite <- list_fmap_compose; apply list_fmap_id).
  destruct (exec_ops_pushed h (Imm <$> pv) s0) as (s1 & E1 & Hp1 & F1 & C1 & Q1); [|by rewrite Hpi|rewrite length_fmap; lia|].
  { by intros (r & Hr & _)%list_elem_of_fmap. }
  rewrite Hpi in Hp1.
  assert ((gpr s1 <$> saved_regs) = (gpr s <$> saved_regs)) as Hregs.
  { apply list_fmap_ext. intros i r Hi. assert (r ≠ RSP) as Hne.
    { intros ->. apply list_elem_of_lookup_2 in Hi. by apply rsp_not_saved in Hi. }
    rewrite (pu_gpr _ _ _ Hp1), (pu_gpr _ _ _ Hp0) by done. by regs. }
  destruct (exec_pushed h saved_regs s1) as (s2 & E2 & Hp2 & F2 & C2 & Q2);
    [apply rsp_not_saved|rewrite Hregs; apply Forall_fmap, Forall_true; intros; apply Hok|rewrite (pu_rsp _ _ _ Hp1); cbn; lia|]. rewrite Hregs in Hp2.
  exists s2. split; [unfold push_imms; by rewrite (exec_seq_app _ _ _ _ _ E1)|].
  pose proof (pushed_trans _ _ _ _ _ (pushed_trans _ _ _ _ _ Hp0 Hp1) Hp2) as [R G W M].
  assert (gpr s2 RSP = sp - 176) as R2 by (rewrite R, !length_app, length_fmap; regs; cbn [length saved_regs]; lia).
  split; [done| | | |by rewrite Q2, Q1|split; congruence].
  - intros r Hne. rewrite G by done. by regs.
  - rewrite <- R2. unfold frame_words. rewrite fmap_reverse. rewrite !reverse_app in W.
    replace (reverse pv ++ reverse (option_list err) ++ reverse [ss s; gpr s RSP; rflags s; cs s; rip s])
      with ([v; err'] ++ [rip s; cs s; rflags s; gpr s RSP; ss s]) in W; [exact W|]. rewrite <- Hpv. by destruct err; rewrite <- app_assoc.
  - intros x Hx. apply M. rewrite R2. regs. lia.
Qed.

Lemma isr_enter pv rest sp v err err' s s0 :
  code = push_imms pv ++ save_regs ++ [Testb 3 144; Jz 1; Swapgs; Label 1] ++ rest →
  reverse pv ++ option_list err = [v; err'] → word v → word err' → core_ok s → 176 ≤ sp < 2 ^ 64 →
  pushed ([ss s; gpr s RSP; rflags s; cs s; rip s] ++ option_list err) (set_gpr RSP sp s) s0 → msr s0 = msr s →
  ∃ t, reach h code (length pv + 19) 0 s0 (length pv + 19) t ∧ entered sp v err' (swap_for s) s s0 t.
Proof.
  intros Hcode Hpv Hv Herr Hok Hsp Hp0 Hmsr. destruct (save_frame pv sp v err err' s s0 Hpv Hv Herr Hok Hsp Hp0 Hmsr) as (s2 & E2 & [R G W M Q [C F]]).
  assert (load 8 (mem s2) (gpr s2 RSP + 144) = cs s) as Ecs by (rewrite R; by apply (word_nth _ _ _ 18 (cs s) W)).
  destruct (reach_swap h code (length pv + 15) 1 s2 rest) as [b Hr];
    [rewrite Hcode, (app_assoc _ save_regs); apply drop_app_length'; by rewrite length_imms|..|lia|lia|].
  { rewrite Hcode, label_at_imms. rewrite <- Nat.add_assoc. done. }
  rewrite Ecs in Hr. fold (cpl s) in Hr. set (t := set_zf b _) in Hr.
  assert (gpr t = gpr s2 ∧ mem t = mem s2 ∧ cs t = cs s2 ∧ rflags t = rflags s2 ∧ msr t = swap_for s (msr s2)) as (T1 & T2 & T3 & T4 & T5)
    by (unfold t, swap_for; destruct (cpl s =? 0); split_and!; reflexivity).
  clearbody t. exists t. split.
  - replace (length pv + 19)%nat with ((length pv + 15) + 4)%nat by lia. eapply reach_trans; [|exact Hr].
    replace (length pv + 15)%nat with (length (push_imms pv ++ save_regs)) by (by rewrite length_imms).
    apply (reach_seq h code 0); [|by rewrite straight_imms|exact E2]. rewrite Hcode, (app_assoc _ save_regs). apply take_app_length.
  - split; rewrite ?T1, ?T2, ?T3, ?T4, ?T5; [done..| |done]. by rewrite Q.
Qed.
End Leave.

(** The processor's part. *)
Lemma deliver_ok idt tss v err s e (sp := Z.land (stack_of tss e s) (~64 0xF)) :
  idt !! v = Some e → core_ok s → Forall word (option_list err) → 48 ≤ sp < 2 ^ 64 →
  ∃ s0, deliver idt tss v err s = Some s0 ∧
    pushed ([ss s; gpr s RSP; rflags s; cs s; rip s] ++ option_list err) (set_gpr RSP sp s) s0 ∧
    msr s0 = msr s ∧ cs s0 = selector e ∧ rip s0 = gate_offset e ∧
    (type_attr e = IDT_GATE_INTERRUPT → Z.testbit (rflags s0) 9 = false).
Proof.
  intros He Hok Herr Hsp. unfold deliver. rewrite He. eexists. split; [reflexivity|]. fold sp.
  set (ws := [ss s; gpr s RSP; rflags s; cs s; rip s] ++ option_list err).
  assert (Forall word ws) as Hws by (apply Forall_app; split; [repeat (apply Forall_cons_2; [apply Hok|]); apply Forall_nil_2|done]).
  assert (length ws ≤ 6)%nat as Hl by (unfold ws; rewrite length_app; destruct err; cbn; lia).
  destruct (pushes_pushed ws (set_gpr RSP sp s) Hws) as [R G W M]; [regs; lia|].
  destruct (pushes_rest ws (set_gpr RSP sp s)) as (_ & _ & _ & _ & _ & Q).
  split_and!; [by split|exact Q|done|done|]. intros Ht. regs. rewrite Ht, Z.land_spec. apply andb_false_r.
Qed.

(** ** The C function *)

Definition callee_saved : list reg := [RBX; RBP; RSP; R12; R13; R14; R15].

Lemma rsp_callee_saved : RSP ∈ callee_saved.
Proof. by apply (bool_decide_unpack _). Qed.

(** What a call of a compiled C function keeps, by the calling convention and
    as the kernel is written: the callee-saved registers, the stack pointer, the
    kernel's segment base and selectors, and the memory [keep]. *)
Record c_returns (keep : Z → Prop) (s1 s2 : core) : Prop := {
  cr_saved : ∀ r, r ∈ callee_saved → gpr s2 r = gpr s1 r;
  cr_gs : rd (msr s2) MSR_GS_BASE = rd (msr s1) MSR_GS_BASE;
  cr_star : rd (msr s2) MSR_STAR = rd (msr s1) MSR_STAR;
  cr_mem : ∀ x, keep x → rd (mem s2) x = rd (mem s1) x;
}.

(** The base of the per-CPU record, wherever it is kept now. *)
Definition kernel_gs (s : core) : Z := rd (msr s) (if cpl s =? 0 then MSR_GS_BASE else MSR_KERNEL_GS_BASE).

Lemma swap_kernel_gs s : rd (swap_for s (msr s)) MSR_GS_BASE = kernel_gs s.
Proof.
  unfold swap_for, kernel_gs, swapgs. destruct (cpl s =? 0); [done|]. rewrite rd_wr_ne by done. by rewrite rd_wr_eq.
Qed.

Lemma aligned_stack x : Z.land x (~64 0xF) mod 16 = 0.
Proof. change 16 with (2 ^ 4). rewrite <- (Z.land_ones _ 4), <- Z.land_assoc by lia. apply Z.land_0_r. Qed.

Record handler_state (sp v err : Z) (s s1 : core) : Prop := {
  hs_frame : frame_at (mem s1) (gpr s1 RDI) = frame_of v err s;
  hs_rsp : gpr s1 RSP = gpr s1 RDI ∧ gpr s1 RSP mod 16 = 0;
  hs_gs : rd (msr s1) MSR_GS_BASE = kernel_gs s;
  hs_flags : Z.testbit (rflags s1) 9 = false ∧ Z.testbit (rflags s1) 10 = false;
  hs_cpl : cpl s1 = 0;
  hs_mem : ∀ x, x < sp - 176 ∨ sp ≤ x → rd (mem s1) x = rd (mem s) x;
}.

Record resumed (s s2 s3 : core) : Prop := {
  re_gpr : ∀ r, gpr s3 r = gpr s r;
  re_rip : rip s3 = rip s;
  re_rflags : rflags s3 = rflags s;
  re_cs : cs s3 = cs s;
  re_ss : ss s3 = ss s;
  re_mem : mem s3 = mem s2;
  re_msr : msr s3 = if cpl s =? 0 then msr s2 else swapgs (msr s2);
  re_gs : kernel_gs s3 = kernel_gs s;
}.

Lemma kernel_gs_back s s1 s2 s3 :
  rd (msr s1) MSR_GS_BASE = kernel_gs s → rd (msr s2) MSR_GS_BASE = rd (msr s1) MSR_GS_BASE → cs s3 = cs s →
  msr s3 = (if cpl s =? 0 then msr s2 else swapgs (msr s2)) → kernel_gs s3 = kernel_gs s.
Proof.
  intros E1 E2 Ec Em. rewrite <- E1, <- E2. unfold kernel_gs, cpl in *. rewrite Ec, Em. destruct (Z.land (cs s) 3 =? 0); [done|].
  unfold swapgs. by rewrite rd_wr_eq.
Qed.

(** The stub of a vector other than the NMI. *)
Definition stub_pushes (v : Z) : list Z := if decide (v ∈ error_vectors) then [v] else [0; v].

Lemma isr_stub_code depth lost v code : v ≠ 2 → isr_stub depth lost v = Some code → 0 ≤ v < 256 ∧ code = push_imms (stub_pushes v) ++ isr_common.
Proof.
  intros Hne. unfold isr_stub, stub_pushes. rewrite (proj2 (Z.eqb_neq _ _) Hne). case_decide as Hin.
  - intros [= <-]. split; [|done]. clear Hne. unfold error_vectors in Hin. repeat (apply elem_of_cons in Hin as [->|Hin]; [lia|]). by apply elem_of_nil in Hin.
  - destruct (_ || _) eqn:E; [|done]. intros [= <-]. split; [lia|done].
Qed.

Section Isr.
Context (h : core → option core) (pv : list Z).
Let code : list instr := push_imms pv ++ isr_common.

Lemma isr_common_at i : drop (length pv + i) code = drop i isr_common.
Proof. unfold code. rewrite <- drop_drop. f_equal. apply drop_app_length'. unfold push_imms. by rewrite !length_fmap. Qed.

(** From the saves to the call. *)
Lemma isr_call sp v err err' s s0 :
  reverse pv ++ option_list err = [v; err'] → word v → word err' → core_ok s → 176 ≤ sp < 2 ^ 64 → sp mod 16 = 0 →
  pushed ([ss s; gpr s RSP; rflags s; cs s; rip s] ++ option_list err) (set_gpr RSP sp s) s0 → msr s0 = msr s →
  cpl s0 = 0 → Z.testbit (rflags s0) 9 = false →
  ∃ s1, reach h code (length pv + 21) 0 s0 (length pv + 21) s1 ∧ handler_state sp v err' s s1 ∧ gpr s1 RSP = sp - 176 ∧
    words (mem s1) (sp - 176) (frame_words v err' s).
Proof.
  intros Hpv Hv Herr Hok Hsp Hal Hp Hmsr Hcpl Hif.
  destruct (isr_enter h code pv ([Cld; Movq RSP RDI; Call; Testb 3 144; Jz 2; Swapgs; Label 2] ++ restore_regs ++ [Addq 16 RSP; Iretq])
    sp v err err' s s0) as (t & Hr & [R G W M Q [C F]]); [done..|].
  set (s1 := set_gpr RDI (gpr t RSP) (set_rflags (Z.land (rflags t) (~64 FLAG_DF)) t)).
  assert (exec_seq h [Cld; Movq RSP RDI] t = Some s1) as E by done.
  exists s1. split_and!.
  - replace (length pv + 21)%nat with (length pv + 19 + 2)%nat by lia. eapply reach_trans; [exact Hr|].
    apply (reach_seq h code _ [Cld; Movq RSP RDI]); [by rewrite isr_common_at|done|exact E].
  - unfold s1. split; regs.
    + rewrite R. by apply frame_at_words.
    + split; [done|]. rewrite R. zdm.
    + rewrite Q. apply swap_kernel_gs.
    + rewrite !Z.land_spec, F, Hif. split; [done|]. apply andb_false_r.
    + unfold cpl. regs. by rewrite C.
    + exact M.
  - unfold s1. by regs.
  - exact W.
Qed.

(** From the return of the handler to the interrupted program. *)
Lemma isr_resume sp v err s s1 s2 n :
  core_ok s → 176 ≤ sp < 2 ^ 64 → gpr s1 RSP = sp - 176 → words (mem s1) (sp - 176) (frame_words v err s) →
  rd (msr s1) MSR_GS_BASE = kernel_gs s → h s1 = Some s2 → c_returns (λ x, sp - 176 ≤ x < sp) s1 s2 → (21 < n)%nat →
  ∃ s3, run n h code (length pv + 21) s1 = Leaves s3 ∧ resumed s s2 s3.
Proof.
  intros Hok Hsp R W Hgs Hh [Csv Cgs _ Cmem] Hn.
  assert (step h code (length pv + 21) s1 = Running (length pv + 22) s2) as E1.
  { unfold step. assert (code !! (length pv + 21)%nat = Some Call) as ->.
    { replace (length pv + 21)%nat with (length pv + 21 + 0)%nat by lia. by rewrite <- lookup_drop, isr_common_at. }
    cbn [exec]. rewrite Hh. f_equal. lia. }
  assert (gpr s2 RSP = sp - 176) as R2 by (by rewrite (Csv RSP rsp_callee_saved)).
  destruct (isr_leave h code (length pv + 22) [] s2 v err s) as (pc' & t' & s3 & Hr & Hl & G3 & ? & ? & Hcs & ? & ? & Hm);
    [by rewrite isr_common_at|unfold code; rewrite label_at_imms; by rewrite <- Nat.add_assoc|lia|lia| |done|].
  - rewrite R2. apply (words_ext (mem s1)); [|done]. intros x Hx. apply Cmem. cbn in Hx. lia.
  - exists s3. split; [|split; try done; by eapply kernel_gs_back]. eapply reach_leaves; [eapply reach_trans; [by apply reach_step|exact Hr]|exact Hl|lia].
Qed.
End Isr.


(** ** The NMI stub keeps its nesting counter balanced *)
Section Nmi.
Context (h : core → option core) (depth lost tss : Z) (idt : gmap Z idt_entry) (s : core) (e : idt_entry).
Let sp := Z.land (stack_of tss e s) (~64 0xF).
Let code := isr_2 depth lost.

Hypothesis (He : idt !! 2 = Some e) (Hg : gate_ok (gate_offset e) (ist e) e) (Hok : core_ok s) (Hsp : 176 ≤ sp < 2 ^ 64).
(** The counters are variables of the kernel, away from the NMI's stack. *)
Hypothesis (Hd : depth + 8 ≤ sp - 176 ∨ sp ≤ depth) (Hl : lost + 8 ≤ sp - 176 ∨ sp ≤ lost) (Hdl : depth + 8 ≤ lost ∨ lost + 8 ≤ depth).
Hypothesis (Hmax : 0 ≤ load 8 (mem s) depth < 2 ^ 64 - 1).

(** After the counter is incremented. *)
Lemma nmi_entered :
  ∃ s0 t, deliver idt tss 2 None s = Some s0 ∧ reach h code 24 0 s0 24 t ∧ gpr t RSP = sp - 176 ∧ words (mem t) (sp - 176) (frame_words 2 0 s) ∧
    load 8 (mem t) depth = load 8 (mem s) depth + 1 ∧ load 8 (mem t) lost = load 8 (mem s) lost ∧
    zf t = (load 8 (mem s) depth =? 0) ∧ msr t = swap_for s (msr s) ∧ cpl t = 0 ∧
    ∀ x, (x < sp - 176 ∨ sp ≤ x) → ¬ (depth ≤ x < depth + 8) → rd (mem t) x = rd (mem s) x.
Proof.
  destruct (deliver_ok idt tss 2 None s e He Hok) as (s0 & E0 & Hp & Hq & Hcs & Hrip & Hif); [constructor|lia|].
  destruct (isr_enter h code [0; 2] ([Cld; Incq depth; Cmpq 1 depth; Jne nmi_reentry; Movq RSP RDI; Call; Label nmi_exit; Decq depth;
    Testb 3 144; Jz 2; Swapgs; Label 2] ++ restore_regs ++ [Addq 16 RSP; Iretq; Label nmi_reentry; Incq lost; Jmp nmi_exit])
    sp 2 None 0 s s0) as (t & Hr & [R G W M Q [C F]]); [done|done|unfold word; lia|unfold word; lia|done|done|done|done|].
  assert (load 8 (mem t) depth = load 8 (mem s) depth ∧ load 8 (mem t) lost = load 8 (mem s) lost) as [Ed El]
    by (split; apply load_ext; intros x Hx; apply M; lia).
  set (d := load 8 (mem s) depth) in *.
  assert (∃ u, exec_seq h [Cld; Incq depth; Cmpq 1 depth] t = Some u ∧ gpr u = gpr t ∧ mem u = store 8 (mem t) depth (u64 (load 8 (mem t) depth + 1)) ∧
    zf u = (load 8 (mem u) depth =? 1) ∧ msr u = msr t ∧ cs u = cs t) as (u & Eu & Gu & Mu & Zu & Su & Cu) by (eexists; split_and!; reflexivity).
  rewrite Ed, u64_small in Mu by lia.
  assert (load 8 (mem u) depth = d + 1) as Edu by (rewrite Mu; apply load_store_eq; change (256 ^ Z.of_nat 8) with (2 ^ 64); lia).
  exists s0, u. rewrite Gu. split_and!; [done| |done| |done| | | | |].
  - apply (reach_trans h code 21 3 0 s0 21 t 24 u); [exact Hr|]. exact (reach_seq h code 21 [Cld; Incq depth; Cmpq 1 depth] t u eq_refl eq_refl Eu).
  - apply (words_ext (mem t)); [|done]. intros x Hx. rewrite Mu. apply store_frame. cbn in Hx. lia.
  - rewrite Mu, load_store_ne by lia. done.
  - rewrite Zu, Edu. destruct (Z.eqb_spec (d + 1) 1), (Z.eqb_spec d 0); lia || done.
  - by rewrite Su, Q.
  - unfold cpl. rewrite Cu, C, Hcs. by rewrite (go_selector _ _ _ Hg).
  - intros x H1 H2. rewrite Mu, store_frame by lia. apply M. lia.
Qed.

(** From the common exit: the counter is decremented and the frame restored. *)
Lemma nmi_leave t : gpr t RSP = sp - 176 → words (mem t) (sp - 176) (frame_words 2 0 s) →
  ∃ pc' t' s3, reach h code 22 27 t pc' t' ∧ step h code pc' t' = Leaves s3 ∧ (∀ r, gpr s3 r = gpr s r) ∧
    rip s3 = rip s ∧ rflags s3 = rflags s ∧ cs s3 = cs s ∧ ss s3 = ss s ∧
    mem s3 = store 8 (mem t) depth (u64 (load 8 (mem t) depth - 1)) ∧ msr s3 = if cpl s =? 0 then msr t else swapgs (msr t).
Proof.
  intros R W.
  assert (∃ u, exec_seq h [Label nmi_exit; Decq depth] t = Some u ∧ gpr u = gpr t ∧ mem u = store 8 (mem t) depth (u64 (load 8 (mem t) depth - 1)) ∧ msr u = msr t)
    as (u & Eu & Gu & Mu & Su) by (eexists; split_and!; reflexivity).
  destruct (isr_leave h code 29 [Label nmi_reentry; Incq lost; Jmp nmi_exit] u 2 0 s) as (pc' & t' & s3 & Hr & Hs & ?); [done|done|rewrite Gu; lia|rewrite Gu; lia| |done|].
  { rewrite Gu, R. apply (words_ext (mem t)); [|done]. intros x Hx. rewrite Mu. apply store_frame. cbn in Hx. lia. }
  rewrite Mu, Su in *. exists pc', t', s3. split; [|done].
  apply (reach_trans h code 2 20 27 t 29 u); [|done]. exact (reach_seq h code 27 [Label nmi_exit; Decq depth] t u eq_refl eq_refl Eu).
Qed.

(** A second NMI while one is handled does not run the handler: it is counted
    and returns to the code it interrupted. *)
Lemma nmi_nested : load 8 (mem s) depth ≠ 0 →
  ∃ s0 s3, deliver idt tss 2 None s = Some s0 ∧ run 64 h code 0 s0 = Leaves s3 ∧ (∀ r, gpr s3 r = gpr s r) ∧
    rip s3 = rip s ∧ rflags s3 = rflags s ∧ cs s3 = cs s ∧ ss s3 = ss s ∧ kernel_gs s3 = kernel_gs s ∧
    load 8 (mem s3) depth = load 8 (mem s) depth ∧ load 8 (mem s3) lost = u64 (load 8 (mem s) lost + 1) ∧
    ∀ x, (x < sp - 176 ∨ sp ≤ x) → ¬ (depth ≤ x < depth + 8) → ¬ (lost ≤ x < lost + 8) → rd (mem s3) x = rd (mem s) x.
Proof.
  intros Hne. destruct nmi_entered as (s0 & t & E0 & Hr & R & W & Ed & El & Ez & Q & Hc & M). rewrite (proj2 (Z.eqb_neq _ _) Hne) in Ez.
  set (d := load 8 (mem s) depth) in *.
  assert (step h code 24 t = Running 50 t) as Ej by (unfold step; change (code !! 24%nat) with (Some (Jne nmi_reentry)); cbv iota beta; by rewrite Ez).
  assert (∃ u, exec_seq h [Label nmi_reentry; Incq lost] t = Some u ∧ gpr u = gpr t ∧ mem u = store 8 (mem t) lost (u64 (load 8 (mem t) lost + 1)) ∧ msr u = msr t)
    as (u & Eu & Gu & Mu & Su) by (eexists; split_and!; reflexivity).
  destruct (nmi_leave u) as (pc' & t' & s3 & Hr3 & Hs3 & G3 & ? & ? & Hcs & ? & M3 & S3); [by rewrite Gu| |].
  { apply (words_ext (mem t)); [|done]. intros x Hx. rewrite Mu. apply store_frame. cbn in Hx. lia. }
  assert (load 8 (mem u) depth = d + 1) as Edu by (rewrite Mu, load_store_ne by lia; done). rewrite Edu in M3.
  replace (d + 1 - 1) with d in M3 by lia. rewrite u64_small in M3 by lia.
  exists s0, s3. split_and!; [done| |done|done|done|done|done|..].
  - eapply (reach_leaves h code (24 + (1 + (2 + (1 + 22))))); [|exact Hs3|lia].
    eapply reach_trans; [exact Hr|]. eapply reach_trans; [by apply reach_step|]. eapply reach_trans; [exact (reach_seq h code 50 [Label nmi_reentry; Incq lost] t u eq_refl eq_refl Eu)|].
    eapply reach_trans; [by apply (reach_step h code 52 u 27 u)|exact Hr3].
  - apply (kernel_gs_back s u u); [by rewrite Su, Q; apply swap_kernel_gs|done|done|done].
  - rewrite M3. apply load_store_eq. change (256 ^ Z.of_nat 8) with (2 ^ 64). lia.
  - rewrite M3, load_store_ne, Mu, <- El by lia. apply load_store_eq. apply u64_bound.
  - intros x Hx1 Hx2 Hx3. rewrite M3, store_frame, Mu, store_frame by lia. by apply M.
Qed.

(** The first NMI runs the handler with the counter at 1 and then takes it back
    to 0. *)
Lemma nmi_first : load 8 (mem s) depth = 0 →
  ∃ s0 s1, deliver idt tss 2 None s = Some s0 ∧ frame_at (mem s1) (gpr s1 RDI) = frame_of 2 0 s ∧ load 8 (mem s1) depth = 1 ∧
    rd (msr s1) MSR_GS_BASE = kernel_gs s ∧ cpl s1 = 0 ∧
    ∀ s2, h s1 = Some s2 → c_returns (λ x, sp - 176 ≤ x < sp ∨ depth ≤ x < depth + 8) s1 s2 →
      ∃ s3, run 64 h code 0 s0 = Leaves s3 ∧ (∀ r, gpr s3 r = gpr s r) ∧ rip s3 = rip s ∧ rflags s3 = rflags s ∧ cs s3 = cs s ∧ ss s3 = ss s ∧
        kernel_gs s3 = kernel_gs s ∧ mem s3 = store 8 (mem s2) depth 0.
Proof.
  intros H0. destruct nmi_entered as (s0 & t & E0 & Hr & R & W & Ed & El & Ez & Q & Hc & M). rewrite H0 in Ed, Ez.
  assert (step h code 24 t = Running 25 t) as Ej by (unfold step; change (code !! 24%nat) with (Some (Jne nmi_reentry)); cbv iota beta; by rewrite Ez).
  assert (∃ u, exec_seq h [Movq RSP RDI] t = Some u ∧ gpr u = upd RDI (gpr t RSP) (gpr t) ∧ mem u = mem t ∧ msr u = msr t ∧ cs u = cs t)
    as (u & Eu & Gu & Mu & Su & Cu) by (eexists; split_and!; reflexivity).
  assert (gpr u RSP = sp - 176 ∧ gpr u RDI = sp - 176) as [R1 R2] by (rewrite Gu; split; [by rewrite upd_ne|by rewrite upd_eq]).
  exists s0, u. rewrite Mu, R2. unfold cpl. rewrite Su, Cu. split_and!; [done|by apply frame_at_words|by rewrite Ed|rewrite Q; apply swap_kernel_gs|done|].
  intros s2 Hh [Csv Cgs _ Cm].
  destruct (nmi_leave s2) as (pc' & t' & s3 & Hr3 & Hs3 & G3 & ? & ? & Hcs & ? & M3 & S3); [by rewrite (Csv RSP rsp_callee_saved)| |].
  { apply (words_ext (mem t)); [|done]. intros x Hx. rewrite <- Mu. apply Cm. cbn in Hx. lia. }
  assert (load 8 (mem s2) depth = 1) as E1.
  { transitivity (load 8 (mem t) depth); [|by rewrite Ed]. rewrite <- Mu. apply load_ext. intros x Hx. apply Cm. lia. }
  exists s3. split_and!; [|done|done|done|done|done| |by rewrite M3, E1].
  - eapply (reach_leaves h code (24 + (1 + (1 + (1 + 22))))); [|exact Hs3|lia].
    eapply reach_trans; [exact Hr|]. eapply reach_trans; [by apply reach_step|].
    eapply reach_trans; [exact (reach_seq h code 25 [Movq RSP RDI] t u eq_refl eq_refl Eu)|]. eapply reach_trans; [|exact Hr3].
    apply (reach_step h code 26 u 27 s2). change (match h u with Some s' => Running 27 s' | None => Faults end = Running 27 s2). by rewrite Hh.
  - apply (kernel_gs_back s u s2); [by rewrite Su, Q; apply swap_kernel_gs|done|done|done].
Qed.
End Nmi.
