(* ===== verification/StubSys.v ===== *)
(** * System calls and entry to user mode return to the right place *)
From S2P Require Import Prelude Pmm Page Vmm Gdt Fault Syscall GdtProps Asm Stubs StubProps StubIsr.
Local Open Scope Z_scope.

(** ** The system call stub *)

(** The machine as the boot code and the scheduler leave it for user code:
    the per-CPU record in the hidden segment base, a kernel stack with room for
    the stub apart from that record, and the registers of [syscall_init]. *)
Record syscall_ready (percpu ksp : Z) (s : core) : Prop := {
  sr_cpl : cpl s = 3;
  sr_gs : rd (msr s) MSR_KERNEL_GS_BASE = percpu;
  sr_percpu : 0 ≤ percpu ∧ percpu + 0x28 < 2 ^ 64;
  sr_ksp : load 8 (mem s) (percpu + PERCPU_KERNEL_RSP) = ksp;
  sr_room : 72 ≤ ksp < 2 ^ 64 ∧ (ksp ≤ percpu ∨ percpu + 0x28 ≤ ksp - 72);
  sr_star : rd (msr s) MSR_STAR = 0x0010000800000000;
  sr_mask : rd (msr s) MSR_SFMASK = Z.lor (Z.lor (Z.lor RFLAGS_IF RFLAGS_DF) RFLAGS_TF) RFLAGS_AC;
}.

(** What [syscall_dispatch] is called with; [syscall_frame_t] holds the number
    and the six arguments, and the saved flags and address lie above it. *)
Definition sys_words (s : core) : list Z :=
  [gpr s RAX; gpr s RDI; gpr s RSI; gpr s RDX; gpr s R10; gpr s R8; gpr s R9; rflags s; rip s].

Record dispatch_state (percpu ksp : Z) (s s1 : core) : Prop := {
  ds_rdi : gpr s1 RDI = ksp - 72 ∧ gpr s1 RSP = ksp - 72;
  ds_frame : words (mem s1) (ksp - 72) (sys_words s);
  ds_user_rsp : load 8 (mem s1) (percpu + PERCPU_USER_RSP) = gpr s RSP;
  ds_gs : rd (msr s1) MSR_GS_BASE = percpu;
  ds_star : rd (msr s1) MSR_STAR = rd (msr s) MSR_STAR;
  ds_cpl : cpl s1 = 0;
  ds_flags : Z.testbit (rflags s1) 9 = true ∧ Z.testbit (rflags s1) 10 = false;
  ds_saved : ∀ r, r ∈ [RBX; RBP; R12; R13; R14; R15] → gpr s1 r = gpr s r;
  ds_mem : ∀ x, ¬ (ksp - 72 ≤ x < ksp) → ¬ (percpu + PERCPU_USER_RSP ≤ x < percpu + PERCPU_USER_RSP + 8) → rd (mem s1) x = rd (mem s) x;
}.

(** The registers a system call may change are the result, [rcx] and [r11]. *)
Record sys_returned (s s2 s3 : core) : Prop := {
  st_gpr : ∀ r, r ≠ RAX → r ≠ RCX → r ≠ R11 → gpr s3 r = gpr s r;
  st_rax : gpr s3 RAX = gpr s2 RAX;
  st_rip : rip s3 = rip s;
  st_rflags : rflags s3 = sanitize_user_rflags (rflags s);
  st_seg : cs s3 = USER_CS ∧ ss s3 = USER_SS;
  st_mem : mem s3 = mem s2;
  st_msr : msr s3 = swapgs (msr s2);
}.

Definition sys_pushed : list reg := [RCX; R11; R9; R8; R10; RDX; RSI; RDI; RAX].

Definition sys_enter : list instr :=
  [Swapgs; MovToGs RSP PERCPU_USER_RSP; MovFromGs PERCPU_KERNEL_RSP RSP] ++ ((λ r, Pushq (Reg r)) <$> sys_pushed) ++ [Movq RSP RDI; Sti].

Lemma gs_addr_at percpu s off : rd (msr s) MSR_GS_BASE = percpu → 0 ≤ percpu + off < 2 ^ 64 → gs_addr s off = percpu + off.
Proof. intros E H. unfold gs_addr. rewrite E. by apply u64_small. Qed.

Section Sys.
Context (h : core → option core) (percpu ksp : Z).

(** The switch to the kernel's segment base and stack. *)
Lemma sys_switch s : syscall_ready percpu ksp s →
  ∃ c, exec_seq h [Swapgs; MovToGs RSP PERCPU_USER_RSP; MovFromGs PERCPU_KERNEL_RSP RSP] (syscall s) = Some c ∧
    mem c = store 8 (mem s) (percpu + PERCPU_USER_RSP) (gpr s RSP) ∧ gpr c RSP = ksp ∧
    (∀ r, r ≠ RSP → r ≠ RCX → r ≠ R11 → gpr c r = gpr s r) ∧ gpr c RCX = rip s ∧ gpr c R11 = rflags s ∧
    rflags c = Z.land (rflags s) (~64 (rd (msr s) MSR_SFMASK)) ∧ cs c = 8 ∧ msr c = swapgs (msr s).
Proof.
  intros [Hcpl Hgs Hpc Hksp [Hroom Hsep] Hstar Hmask]. unfold PERCPU_KERNEL_RSP in *.
  set (a := set_msr (swapgs (msr s)) (syscall s)). assert (rd (msr a) MSR_GS_BASE = percpu) as Ga.
  { unfold a. regs. unfold swapgs. rewrite rd_wr_ne by done. by rewrite rd_wr_eq. }
  set (b := set_cmem (store 8 (mem a) (gs_addr a PERCPU_USER_RSP) (gpr a RSP)) a).
  set (c := set_gpr RSP (load 8 (mem b) (gs_addr b PERCPU_KERNEL_RSP)) b).
  assert (mem c = store 8 (mem s) (percpu + PERCPU_USER_RSP) (gpr s RSP)) as Mc.
  { unfold c, b. regs. rewrite (gs_addr_at percpu) by (done || unfold PERCPU_USER_RSP; lia). by unfold a; regs. }
  exists c. split_and!; [done|exact Mc| |..].
  - unfold c. regs. rewrite (gs_addr_at percpu) by (done || unfold PERCPU_KERNEL_RSP; lia). change (mem b) with (mem c).
    rewrite Mc, load_store_ne by (unfold PERCPU_USER_RSP, PERCPU_KERNEL_RSP; lia). done.
  - intros r H1 H2 H3. unfold c, b, a, syscall. by regs.
  - unfold c, b, a, syscall. by regs.
  - unfold c, b, a, syscall. by regs.
  - done.
  - unfold c, b, a, syscall. regs. by rewrite Hstar.
  - done.
Qed.

Lemma sys_call s : syscall_ready percpu ksp s → core_ok s →
  ∃ s1, exec_seq h sys_enter (syscall s) = Some s1 ∧ dispatch_state percpu ksp s s1.
Proof.
  intros Hready Hok. destruct (sys_switch s Hready) as (c & Ec & Mc & Rc & Gc & E1 & E2 & Fc & Cc & Sc).
  destruct Hready as [Hcpl Hgs Hpc Hksp [Hroom Hsep] Hstar Hmask].
  assert ((gpr c <$> sys_pushed) = reverse (sys_words s)) as Hv by (cbn; by rewrite E1, E2, !Gc).
  destruct (exec_pushed h sys_pushed c) as (d & Ed & [R G W M] & Fd & Cd & Sd); [by apply (bool_decide_unpack _)| |rewrite Rc; cbn; lia|].
  { rewrite Hv. apply Forall_reverse. unfold sys_words. repeat (apply Forall_cons_2; [apply Hok|]). apply Forall_nil_2. }
  rewrite Hv, reverse_involutive in W. rewrite Rc in R, M. change (length _) with 9%nat in R.
  assert (gpr d RSP = ksp - 72) as Rd by lia. rewrite Rd in W, M. rewrite Mc in M. unfold PERCPU_USER_RSP in *.
  assert (∃ s1, exec_seq h sys_enter (syscall s) = Some s1 ∧ gpr s1 = upd RDI (gpr d RSP) (gpr d) ∧ mem s1 = mem d ∧ msr s1 = msr d ∧
    cs s1 = cs d ∧ rflags s1 = Z.lor (rflags d) FLAG_IF) as (s1 & E3 & T1 & T2 & T3 & T4 & T5).
  { unfold sys_enter. rewrite (exec_seq_app _ _ _ _ _ Ec), (exec_seq_app _ _ _ _ _ Ed). eexists. split_and!; reflexivity. }
  exists s1. split; [done|]. split; rewrite ?T1, ?T2, ?T3, ?T5.
  - split; regs; lia.
  - done.
  - rewrite <- (load_store_eq 8 (mem s) (percpu + 0x10) (gpr s RSP)) by apply Hok. apply load_ext. intros x Hx. apply M. lia.
  - rewrite Sd, Sc. unfold swapgs. rewrite rd_wr_ne by done. by rewrite rd_wr_eq.
  - rewrite Sd, Sc. unfold swapgs. by rewrite !rd_wr_ne.
  - unfold cpl. by rewrite T4, Cd, Cc.
  - rewrite !Z.lor_spec, Fd, Fc, !Z.land_spec, Hmask. split; [apply orb_true_r|]. by rewrite andb_false_r.
  - intros r Hr. assert (r ≠ RSP ∧ r ≠ RCX ∧ r ≠ R11 ∧ r ≠ RDI) as (? & ? & ? & ?) by (in_cases Hr by done).
    regs. rewrite G by done. by apply Gc.
  - intros x H1 H2. unfold PERCPU_USER_RSP in H2. rewrite M by lia. apply store_frame. lia.
Qed.

Definition sys_popped : list reg := [RDI; RSI; RDX; R10; R8; R9; R11].

Definition sys_leave : list instr :=
  [Cli; Popq RDI] ++ (Popq <$> sys_popped) ++
  [Andq USER_RFLAGS_ALLOWED R11; Orq USER_RFLAGS_REQUIRED R11; Popq RCX; MovFromGs PERCPU_USER_RSP RSP; Swapgs].

(** The registers after the stub's epilogue. *)
Lemma sys_restore s s2 :
  0 ≤ percpu → percpu + 0x28 < 2 ^ 64 → 72 ≤ ksp < 2 ^ 64 → gpr s2 RSP = ksp - 72 → words (mem s2) (ksp - 72) (sys_words s) →
  rd (msr s2) MSR_GS_BASE = percpu →
  ∃ t, exec_seq h sys_leave s2 = Some t ∧ mem t = mem s2 ∧ msr t = swapgs (msr s2) ∧
    gpr t RCX = rip s ∧ gpr t R11 = sanitize_user_rflags (rflags s) ∧ gpr t RSP = load 8 (mem s2) (percpu + PERCPU_USER_RSP) ∧
    (∀ r, r ∈ [RDI; RSI; RDX; R10; R8; R9] → gpr t r = gpr s r) ∧ ∀ r, r ∈ [RAX; RBX; RBP; R12; R13; R14; R15] → gpr t r = gpr s2 r.
Proof.
  intros H0 Hp Hk R W Hgs. set (u := set_gpr RDI (load 8 (mem s2) (gpr s2 RSP)) (set_gpr RSP (u64 (gpr s2 RSP + 8)) (set_rflags (Z.land (rflags s2) (~64 FLAG_IF)) s2))).
  assert (gpr u RSP = ksp - 64) as Ru by (unfold u; regs; rewrite u64_small; lia).
  destruct (exec_pops h sys_popped u) as (w & Ew & [Rw Gw Ow Xw]);
    [apply (bool_decide_unpack _); by vm_compute|by apply (bool_decide_unpack _)|lia|rewrite Ru; cbn; lia|].
  assert (exec_seq h [Cli; Popq RDI] s2 = Some u) as Eu by done. assert (mem u = mem s2 ∧ msr u = msr s2) as [Mu Su] by done.
  assert (∀ r, r ≠ RSP → r ≠ RDI → gpr u r = gpr s2 r) as Gu by (intros r H1 H2; unfold u; by regs).
  clearbody u. injection Xw as Xrip Xfl Xzf Xcs Xss Xmsr Xmem. rewrite Ru, Mu in Gw.
  assert (∀ i r q, sys_popped !! i = Some r → sys_words s !! S i = Some q → gpr w r = q) as Hw.
  { intros i r q Hi Hq. rewrite (Gw i r Hi), <- (W _ _ Hq). f_equal. lia. }
  eexists. split; [unfold sys_leave; rewrite (exec_seq_app _ _ _ _ _ Eu), (exec_seq_app _ _ _ _ _ Ew); reflexivity|].
  assert (gpr w RSP = ksp - 8) as Rsp by (rewrite Rw, Ru; cbn; lia).
  split_and!; regs; [congruence|congruence|..].
  - rewrite Rsp, Xmem, Mu. replace (ksp - 8) with (ksp - 72 + 8 * 8) by lia. by apply (word_nth _ _ _ 8 _ W).
  - by rewrite (Hw 6%nat R11 (rflags s)).
  - unfold gs_addr. regs. rewrite Xmem, Xmsr, Mu, Su, Hgs. by rewrite u64_small by (unfold PERCPU_USER_RSP; lia).
  - intros r Hr. assert (r ≠ RSP ∧ r ≠ RCX ∧ r ≠ R11) as (? & ? & ?) by (in_cases Hr by done). regs.
    in_cases Hr by (first [by apply (Hw 0%nat)|by apply (Hw 1%nat)|by apply (Hw 2%nat)|by apply (Hw 3%nat)|by apply (Hw 4%nat)|by apply (Hw 5%nat)]).
  - intros r Hr. assert (r ≠ RSP ∧ r ≠ RCX ∧ r ≠ R11 ∧ r ≠ RDI ∧ r ∉ sys_popped) as (? & ? & ? & ? & ?)
      by (in_cases Hr by (split_and!; try done; by apply (bool_decide_unpack _))).
    regs. rewrite Ow by done. by apply Gu.
Qed.
End Sys.

(** A register is clobbered, the stack pointer, an argument or callee-saved. *)
Lemma sys_reg_cases r : r ≠ RAX → r ≠ RCX → r ≠ R11 → r ≠ RSP →
  r ∈ [RDI; RSI; RDX; R10; R8; R9] ∨ (r ∈ [RBX; RBP; R12; R13; R14; R15] ∧ r ∈ [RAX; RBX; RBP; R12; R13; R14; R15] ∧ r ∈ callee_saved).
Proof. intros. destruct r; try done; (left; by apply (bool_decide_unpack _)) || (right; split_and!; by apply (bool_decide_unpack _)). Qed.

Lemma sanitized_flags f : Z.lor (Z.land (sanitize_user_rflags f) 0x3C7FD7) 2 = sanitize_user_rflags f.
Proof. unfold sanitize_user_rflags. by rewrite Z.land_lor_distr_l, <- Z.land_assoc, <- Z.lor_assoc. Qed.

