(* ===== verification/StubMode.v ===== *)
(** * Entering user mode and switching threads *)
From S2P Require Import Prelude Pmm Page Vmm Gdt Fault Syscall GdtProps Asm Stubs StubProps StubIsr StubSys.
Local Open Scope Z_scope.

(** User code about to start: nothing of the kernel is left in the registers. *)
Record fresh_user (ip fl sp : Z) (s s' : core) : Prop := {
  fu_rip : rip s' = ip;
  fu_rflags : rflags s' = fl;
  fu_rsp : gpr s' RSP = sp;
  fu_seg : cs s' = USER_CS ∧ ss s' = USER_SS;
  fu_msr : msr s' = swapgs (msr s);
}.

(** ** The first process *)

Lemma user_mode_enter_spec h s :
  (∀ r, word (gpr s r)) → 40 ≤ gpr s RSP → canonical (gpr s RDI) = true →
  ∃ s', run 32 h user_mode_enter 0 s = Leaves s' ∧ fresh_user (gpr s RDI) 0x202 (gpr s RSI) s s' ∧ (∀ r, r ≠ RSP → gpr s' r = 0) ∧
    ∀ x, x < gpr s RSP - 40 ∨ gpr s RSP ≤ x → rd (mem s') x = rd (mem s) x.
Proof.
  intros Hw Hsp Hc. pose proof (Hw RSP) as Hr. unfold word in Hr. set (os := [Imm USER_SS; Reg RSI; Imm 0x202; Imm USER_CS; Reg RDI]).
  assert (∃ a, exec_seq h [Cli; Swapgs] s = Some a ∧ gpr a = gpr s ∧ mem a = mem s ∧ msr a = swapgs (msr s)) as (a & E0 & Ga & Ma & Sa)
    by (eexists; split_and!; reflexivity).
  destruct (exec_ops_pushed h os a) as (b & E1 & [R G W M] & _ & _ & Q); [| |rewrite Ga; cbn; lia|].
  { unfold os. intros Hin. repeat (apply elem_of_cons in Hin as [Hin|Hin]; [discriminate|]). by apply elem_of_nil in Hin. }
  { unfold os. rewrite !fmap_cons. cbn [value]. rewrite Ga.
    repeat (apply Forall_cons_2; [by apply Hw || (unfold word, USER_SS, USER_CS; lia)|]). apply Forall_nil_2. }
  assert ((value a <$> os) = [USER_SS; gpr s RSI; 0x202; USER_CS; gpr s RDI]) as Hv by (cbn; by rewrite Ga). rewrite Hv in *. rewrite Ga in R, M. rewrite Ma in M.
  destruct (exec_xors h saved_regs b) as (c & E2 & Gc & Xc). injection Xc as Xrip Xfl Xcs Xss Xmsr Xmem.
  assert (gpr c RSP = gpr s RSP - 40) as Rc by (rewrite Gc, decide_False by apply rsp_not_saved; rewrite R; cbn; lia).
  assert (iretq c = Some (set_zf (Z.testbit 0x202 6) (set_rflags 0x202 (set_gpr RSP (gpr s RSI) (set_seg (gpr s RDI) USER_CS USER_SS c))))) as Ei.
  { apply iretq_words; [|lia|lia|done]. rewrite Rc, Xmem. rewrite R in W. exact W. }
  assert (exec_seq h ([Cli; Swapgs] ++ (Pushq <$> os) ++ (Xorq <$> saved_regs)) s = Some c) as E
    by (by rewrite (exec_seq_app _ _ _ _ _ E0), (exec_seq_app _ _ _ _ _ E1)).
  eexists. split; [|split; [split|split]].
  - apply (reach_leaves h user_mode_enter 22 0 s 22 c); [|by eapply step_iretq|lia].
    exact (reach_seq h user_mode_enter 0 ([Cli; Swapgs] ++ (Pushq <$> os) ++ (Xorq <$> saved_regs)) s c eq_refl eq_refl E).
  - reflexivity.
  - reflexivity.
  - by regs.
  - split; reflexivity.
  - regs. congruence.
  - intros r Hne. regs. rewrite Gc, decide_True; [done|]. destruct (saved_index r Hne) as [i Hi]. apply list_elem_of_lookup_2 in Hi.
    by apply elem_of_reverse in Hi.
  - intros x Hx. regs. rewrite Xmem. apply M. rewrite R. cbn [length]. lia.
Qed.

(** ** A forked child

    The child starts with every register cleared but [rsp], [rcx] and [r11]. *)
Lemma fork_return_spec h s :
  canonical (gpr s R8) = true → rd (msr s) MSR_STAR = 0x0010000800000000 → gpr s R9 = sanitize_user_rflags (gpr s R9) →
  ∃ s', run 32 h fork_return 0 s = Leaves s' ∧ fresh_user (gpr s R8) (gpr s R9) (gpr s R10) s s' ∧
    (∀ r, r ∉ [RSP; RCX; R11] → gpr s' r = 0) ∧ mem s' = mem s.
Proof.
  intros Hc Hstar Hfl. set (rs := [RAX; RDX; RSI; RDI; RBP; RBX; R8; R9; R10; R12; R13; R14; R15]).
  assert (∃ a, exec_seq h [Movq R8 RCX; Movq R9 R11; Movq R10 RSP] s = Some a ∧ gpr a RCX = gpr s R8 ∧ gpr a R11 = gpr s R9 ∧ gpr a RSP = gpr s R10 ∧
    msr a = msr s ∧ mem a = mem s) as (a & E0 & A1 & A2 & A3 & A4 & A5) by (eexists; split_and!; reflexivity).
  destruct (exec_xors h rs a) as (c & E2 & Gc & Xc). injection Xc as Xrip Xfl Xcs Xss Xmsr Xmem.
  assert (sysretq (set_msr (swapgs (msr c)) c) = Some (set_zf (Z.testbit (gpr s R9) 6) (set_rflags (gpr s R9)
    (set_seg (gpr s R8) USER_CS USER_SS (set_msr (swapgs (msr c)) c))))) as Ex.
  { unfold sysretq. regs. rewrite !Gc, !decide_False by (by apply (bool_decide_unpack _)). rewrite A1, A2, Hc, Xmsr, A4.
    unfold swapgs. rewrite !rd_wr_ne, Hstar by done. rewrite Hfl, sanitized_flags, <- Hfl. reflexivity. }
  assert (exec_seq h ([Movq R8 RCX; Movq R9 R11; Movq R10 RSP] ++ (Xorq <$> rs) ++ [Swapgs]) s = Some (set_msr (swapgs (msr c)) c)) as E
    by (by rewrite (exec_seq_app _ _ _ _ _ E0), (exec_seq_app _ _ _ _ _ E2)).
  eexists. split; [|split; [split|split]].
  - apply (reach_leaves h fork_return 17 0 s 17 (set_msr (swapgs (msr c)) c));
      [|by eapply step_sysretq|lia].
    exact (reach_seq h fork_return 0 ([Movq R8 RCX; Movq R9 R11; Movq R10 RSP] ++ (Xorq <$> rs) ++ [Swapgs]) s _ eq_refl eq_refl E).
  - reflexivity.
  - reflexivity.
  - regs. rewrite Gc, decide_False by (by apply (bool_decide_unpack _)). done.
  - split; reflexivity.
  - regs. congruence.
  - intros r Hr. regs. rewrite Gc, decide_True; [done|]. revert Hr. clear. intros Hr. apply (bool_decide_unpack _).
    destruct r; try done; exfalso; apply Hr; by apply (bool_decide_unpack _).
  - regs. congruence.
Qed.

(** ** A thread that is switched away resumes where it was *)
Definition switch_regs : list reg := [RBX; RBP; R12; R13; R14; R15].

(** [kthread_switch] called with a saved frame at [new]: the callee-saved
    registers [vs] and the return address [ip]. *)
Record switch_call (vs : list Z) (ip : Z) (s : core) : Prop := {
  sc_gpr : ∀ r, word (gpr s r);
  sc_room : 48 ≤ gpr s RSP ∧ gpr s RSP + 8 ≤ 2 ^ 64;
  sc_new : gpr s RSI + 56 < 2 ^ 64;
  sc_frame : words (mem s) (gpr s RSI) (vs ++ [ip]) ∧ length vs = 6%nat;
  sc_canon : canonical ip = true;
  sc_apart : gpr s RSI + 56 ≤ gpr s RSP - 48 ∨ gpr s RSP ≤ gpr s RSI;
  sc_slot : (gpr s RDI + 8 ≤ gpr s RSP - 48 ∨ gpr s RSP + 8 ≤ gpr s RDI) ∧ (gpr s RDI + 8 ≤ gpr s RSI ∨ gpr s RSI + 56 ≤ gpr s RDI);
}.

Record switched (vs : list Z) (ip : Z) (s s' : core) : Prop := {
  sw_rip : rip s' = ip;
  sw_rsp : gpr s' RSP = gpr s RSI + 56;
  sw_regs : (gpr s' <$> reverse switch_regs) = vs;
  sw_slot : load 8 (mem s') (gpr s RDI) = gpr s RSP - 48;
  sw_saved : words (mem s') (gpr s RSP - 48) (gpr s <$> reverse switch_regs);
  sw_mem : ∀ x, ¬ (gpr s RSP - 48 ≤ x < gpr s RSP) → ¬ (gpr s RDI ≤ x < gpr s RDI + 8) → rd (mem s') x = rd (mem s) x;
  sw_if : Z.testbit (rflags s') 9 = true;
}.

Lemma rsp_not_switched : RSP ∉ reverse switch_regs.
Proof. by apply (bool_decide_unpack _). Qed.

Definition switch_body : list instr :=
  ((λ r, Pushq (Reg r)) <$> switch_regs) ++ [MovStore RSP RDI; Movq RSI RSP] ++ (Popq <$> reverse switch_regs) ++ [Sti].

(** The state before the return; [ip] is on top of the new stack. *)
Lemma switch_exec h vs ip s : switch_call vs ip s →
  ∃ a d, exec_seq h switch_body s = Some d ∧ pushed (gpr s <$> switch_regs) s a ∧ mem d = store 8 (mem a) (gpr s RDI) (gpr s RSP - 48) ∧
    words (mem d) (gpr s RSI) (vs ++ [ip]) ∧ gpr d RSP = gpr s RSI + 48 ∧ (gpr d <$> reverse switch_regs) = vs ∧ Z.testbit (rflags d) 9 = true.
Proof.
  intros [Hw [Hr1 Hr2] Hn [Hf Hl] Hc Ha [Hs1 Hs2]]. pose proof (Hw RSI) as Hsi. unfold word in Hsi.
  destruct (exec_pushed h switch_regs s) as (a & E1 & Hp & _); [by apply (bool_decide_unpack _)|apply Forall_fmap, Forall_true; intros; apply Hw|cbn; lia|].
  pose proof Hp as [R G W M]. change (length _) with 6%nat in R. rewrite R in M.
  assert (∃ b, exec_seq h [MovStore RSP RDI; Movq RSI RSP] a = Some b ∧ mem b = store 8 (mem a) (gpr a RDI) (gpr a RSP) ∧ gpr b = upd RSP (gpr a RSI) (gpr a))
    as (b & E2 & Mb & Gb) by (eexists; split_and!; reflexivity).
  rewrite !G, R in Mb by done. rewrite (G RSI) in Gb by done. assert (gpr b RSP = gpr s RSI) as Rb by (by rewrite Gb, upd_eq).
  destruct (exec_pops h (reverse switch_regs) b) as (c & E3 & [R3 G3 O3 X3]);
    [apply (bool_decide_unpack _); by vm_compute|by apply (bool_decide_unpack _)|lia|rewrite Rb; cbn; lia|].
  injection X3 as Xrip Xfl Xzf Xcs Xss Xmsr Xmem. change (length _) with 6%nat in R3. rewrite Rb in R3, G3.
  assert (words (mem b) (gpr s RSI) (vs ++ [ip])) as Hwn.
  { rewrite Mb. apply (words_ext (mem s)); [|done]. rewrite length_app, Hl. cbn [length]. intros x Hx. rewrite store_frame by lia. apply M. lia. }
  assert (∃ d, exec_seq h [Sti] c = Some d ∧ gpr d = gpr c ∧ mem d = mem c ∧ rflags d = Z.lor (rflags c) FLAG_IF) as (d & E4 & Gd & Md & Fd)
    by (eexists; split_and!; reflexivity).
  exists a, d. rewrite Md, Xmem, Gd, Fd. split_and!; [|done|done|done|lia| |rewrite Z.lor_spec; apply orb_true_r].
  - unfold switch_body. by rewrite (exec_seq_app _ _ _ _ _ E1), (exec_seq_app _ _ _ _ _ E2), (exec_seq_app _ _ _ _ _ E3).
  - apply (list_eq_same_length _ _ 6); [done|by rewrite length_fmap|]. intros i x y Hi (r & -> & Hr)%list_lookup_fmap_Some Hy.
    rewrite (G3 i r Hr). apply Hwn. by apply lookup_app_l_Some.
Qed.

Lemma switch_spec h vs ip s : switch_call vs ip s → ∃ s', run 24 h kthread_switch_code 0 s = Leaves s' ∧ switched vs ip s s'.
Proof.
  intros Hs. destruct (switch_exec h vs ip s Hs) as (a & d & E & [R G W M] & Md & Hwn & Rd & Hv & Fd).
  destruct Hs as [Hw [Hr1 Hr2] Hn [Hf Hl] Hc Ha [Hs1 Hs2]]. pose proof (Hw RSI) as Hsi. pose proof (Hw RSP) as Hsp. unfold word in Hsi, Hsp.
  change (length _) with 6%nat in R. rewrite R in W, M.
  assert (ret d = Some (set_rip ip (set_gpr RSP (u64 (gpr d RSP + 8)) d))) as Er.
  { unfold ret, pop. rewrite Rd. change 48 with (8 * 6). rewrite (word_nth _ _ _ 6 ip Hwn); [by rewrite Hc| |done].
    rewrite lookup_app_r by (by rewrite Hl). by rewrite Hl. }
  eexists. split; [|split].
  - apply (reach_leaves h kthread_switch_code 15 0 s 15 d); [|by eapply step_ret|lia].
    exact (reach_seq h kthread_switch_code 0 switch_body s d eq_refl eq_refl E).
  - reflexivity.
  - regs. rewrite Rd, u64_small by lia. lia.
  - rewrite <- Hv. apply list_fmap_ext. intros i r Hi. regs. apply upd_ne. intros ->. by apply list_elem_of_lookup_2, rsp_not_switched in Hi.
  - regs. rewrite Md, load_store_eq; [done|]. change (256 ^ Z.of_nat 8) with (2 ^ 64). lia.
  - regs. rewrite Md, fmap_reverse. apply (words_ext (mem a)); [|exact W]. intros x Hx. apply store_frame. cbn in Hx. lia.
  - intros x H1 H2. regs. rewrite Md, store_frame by lia. apply M. lia.
  - by regs.
Qed.

(** C31 [kthread_switch_resumes]: a thread that calls [kthread_switch] continues
    the other thread with the registers and the return address of its saved
    frame, and its own stack pointer is stored for later.  When any thread
    later switches to that stored stack pointer, and the memory of the saved
    frame is as it was, the first thread returns from its call with its stack
    pointer and the callee-saved registers as they were. *)
Theorem kthread_switch_resumes h vs ip s ra :
  switch_call vs ip s → load 8 (mem s) (gpr s RSP) = ra → canonical ra = true →
  ∃ s1, run 24 h kthread_switch_code 0 s = Leaves s1 ∧ switched vs ip s s1 ∧
    ∀ s2, gpr s2 RSI = load 8 (mem s1) (gpr s RDI) → (∀ r, word (gpr s2 r)) →
      48 ≤ gpr s2 RSP ∧ gpr s2 RSP + 8 ≤ 2 ^ 64 → gpr s RSP + 8 < 2 ^ 64 →
      (gpr s RSP + 8 ≤ gpr s2 RSP - 48 ∨ gpr s2 RSP ≤ gpr s RSP - 48) →
      (gpr s2 RDI + 8 ≤ gpr s2 RSP - 48 ∨ gpr s2 RSP + 8 ≤ gpr s2 RDI) → (gpr s2 RDI + 8 ≤ gpr s RSP - 48 ∨ gpr s RSP + 8 ≤ gpr s2 RDI) →
      (∀ x, gpr s RSP - 48 ≤ x < gpr s RSP + 8 → rd (mem s2) x = rd (mem s1) x) →
      ∃ s3, run 24 h kthread_switch_code 0 s2 = Leaves s3 ∧ rip s3 = ra ∧ gpr s3 RSP = gpr s RSP + 8 ∧ ∀ r, r ∈ switch_regs → gpr s3 r = gpr s r.
Proof.
  intros Hs Hra Hc. destruct (switch_spec h vs ip s Hs) as (s1 & E1 & Hsw). exists s1. split_and!; [done|done|].
  intros s2 Hsi Hw Hroom Hsp Hap Hd1 Hd2 Hmem. destruct Hs as [Hws [Hr1 Hr2] Hn [Hf Hl] _ Ha [Hs1 Hs2]]. destruct Hsw as [_ _ _ Hslot Hsv Hmf _].
  rewrite Hslot in Hsi.
  destruct (switch_spec h (gpr s <$> reverse switch_regs) ra s2) as (s3 & E3 & [Q1 Q2 Q3 _ _ _ _]).
  - split; rewrite ?Hsi; [done|done|lia| |done|lia|lia]. split; [|done]. apply (words_ext (mem s1)); [intros x Hx; apply Hmem; cbn in Hx; lia|].
    apply words_app. split; [exact Hsv|]. apply words_one. change (length _) with 6%nat. replace (gpr s RSP - 48 + 8 * Z.of_nat 6) with (gpr s RSP) by lia.
    rewrite <- Hra. apply load_ext. intros x Hx. apply Hmf; lia.
  - exists s3. split_and!; [done|done|lia|]. intros r Hr. apply elem_of_reverse in Hr. apply list_elem_of_lookup_1 in Hr as [i Hi].
    assert ((gpr s3 <$> reverse switch_regs) !! i = (gpr s <$> reverse switch_regs) !! i) as H by (by rewrite Q3).
    rewrite !list_lookup_fmap, Hi in H. by injection H.
Qed.

(** ** The stubs on a concrete machine *)
(** A user program at [ip]: per-CPU record at 0x9000, task state segment at
    0x8000, kernel stack below 0x20000. *)
Definition user_gpr (r : reg) : Z :=
  match r with RAX => 1 | RBX => 11 | RCX => 12 | RDX => 13 | RSI => 14 | RDI => 15 | RBP => 16 | RSP => 0x7000 | R8 => 18 | R9 => 19 | R10 => 20 | R11 => 21
             | R12 => 22 | R13 => 23 | R14 => 24 | R15 => 25 end.

Definition user_msr : gmap Z Z :=
  wr (wr (wr (syscall_init 0x5000 ∅ ∅).1 MSR_GS_BASE 0x1234) MSR_KERNEL_GS_BASE 0x9000) MSR_FS_BASE 0.

Definition user_mem : gmap Z Z := store 8 (store 8 ∅ (0x8000 + tss_rsp0_off) 0x20000) (0x9000 + PERCPU_KERNEL_RSP) 0x20000.

Definition user_at (ip : Z) : core := Core user_gpr ip 0x246 true USER_CS USER_SS user_msr user_mem.

Lemma user_core_ok ip : word ip → canonical ip = true → core_ok (user_at ip).
Proof. intros H1 H2. split; [intros []|..]; cbn; try done; unfold word; cbn; lia. Qed.

Definition idt_ex : gmap Z idt_entry := idt_set_gate 14 0x100080 GDT_KERNEL_CODE IDT_GATE_INTERRUPT 0 ∅.



(** Two threads: one runs on a stack at 0x30000 and was called from 0x1000; the
    other was left with its frame at 0x40000, to return to 0x2000. *)
Definition thread_gpr (r : reg) : Z := match r with RSP => 0x30000 | RSI => 0x40000 | RDI => 0x50000 | _ => 7 end.

Definition thread_mem : gmap Z Z := store 8 (store 8 ∅ 0x40030 0x2000) 0x30000 0x1000.

Definition thread_ex : core := Core thread_gpr 0x600 0x246 true GDT_KERNEL_CODE GDT_KERNEL_DATA ∅ thread_mem.

(** The second thread switches back, on its own stack. *)
Definition back_gpr (r : reg) : Z := match r with RSP => 0x41000 | RSI => 0x2FFD0 | RDI => 0x50008 | _ => 9 end.

Lemma kthread_switch_resumes_witness :
  ∃ s1, run 24 Some kthread_switch_code 0 thread_ex = Leaves s1 ∧ rip s1 = 0x2000 ∧
    ∃ s3, run 24 Some kthread_switch_code 0 (Core back_gpr 0x2000 0x246 true GDT_KERNEL_CODE GDT_KERNEL_DATA ∅ (mem s1)) = Leaves s3 ∧
      rip s3 = 0x1000 ∧ gpr s3 RSP = 0x30008 ∧ gpr s3 RBX = 7.
Proof.
  destruct (kthread_switch_resumes Some [0; 0; 0; 0; 0; 0] 0x2000 thread_ex 0x1000) as (s1 & E1 & Hs & H).
  - split; cbn [gpr thread_ex thread_gpr]; [intros []; unfold word; cbn; lia|lia|lia| |done|lia|lia].
    split; [|done]. intros i w Hi. do 7 (destruct i as [|i]; [injection Hi as <-; by vm_compute|]). done.
  - by vm_compute.
  - done.
  - exists s1. split_and!; [exact E1|apply Hs|].
    destruct (H (Core back_gpr 0x2000 0x246 true GDT_KERNEL_CODE GDT_KERNEL_DATA ∅ (mem s1))) as (s3 & E3 & R3 & P3 & G3);
      cbn [gpr mem thread_ex thread_gpr back_gpr]; [symmetry; exact (sw_slot _ _ _ _ Hs)|intros []; unfold word; cbn; lia|lia|lia|lia|lia|lia|done|].
    exists s3. split_and!; [exact E3|exact R3|exact P3|apply (G3 RBX); by left].
Defined.

(** ** What the stubs do not guard against *)

(** A [syscall] in the last two bytes of the lower half returns to an address
    that is not canonical: [sysretq] faults in the kernel. *)
Example sysret_noncanonical : run 64 Some syscall_entry 0 (syscall (user_at 0x800000000000)) = Faults.
Proof. by vm_compute. Qed.

(** The slot of the user's stack pointer is shared by all processes.  A system
    call that waits lets another process enter the kernel and write the slot;
    the first returns with the stack pointer of the other. *)
Definition waits (s : core) : option core := Some (set_cmem (store 8 (mem s) (0x9000 + PERCPU_USER_RSP) 0x6000) s).

Example user_rsp_overwritten :
  match run 64 waits syscall_entry 0 (syscall (user_at 0x401000)) with Leaves s => gpr s RSP = 0x6000 | _ => False end.
Proof. by vm_compute. Qed.
