(* ===== verification/Matrix.v ===== *)
(** * The matrix rain demo ([demos/matrix.c])

    One thread per screen column draws falling characters straight into the
    framebuffer.  A frame is one round of the thread's loop; the threads share
    the screen and nothing else.  The theorem is that they do not disturb each
    other: under every interleaving of frames each column looks as if its
    thread ran alone. *)
From S2P Require Import Prelude Console ConsoleProps Serial Terminal.
Local Open Scope Z_scope.

Definition MAX_COLUMNS : Z := 160.
Definition CHAR_WIDTH : Z := 8.
Definition CHAR_HEIGHT : Z := 16.
Definition SPEED_MIN : Z := 8.
Definition SPEED_MAX : Z := 32.
Definition TRAIL_MIN : Z := 8.
Definition TRAIL_MAX : Z := 18.
Definition DELAY_MIN : Z := 30.
Definition DELAY_MAX : Z := 50.

(** ** Random numbers: the state is one 32-bit word *)

Definition rng_seed (seed : Z) : Z := if negb (seed =? 0) then seed else 1.

Definition rng_next (rng : Z) : Z := u32 (rng * 1664525 + 1013904223).

(** The value and the new state.  The arguments are [uint32_t]. *)
Definition rng_range (rng mn mx : Z) : Z * Z :=
  let rng := rng_next rng in
  (u32 (u32 mn + rng mod u32 (mx - mn + 1)), rng).

Definition trail_colors : list Z :=
  [0xFFFFFF; 0x00FF00; 0x00EE00; 0x00DD00; 0x00CC00; 0x00AA00; 0x008800; 0x006600;
   0x004400; 0x003300; 0x002200; 0x001800; 0x001100].

Definition NUM_COLORS : Z := Z.of_nat (length trail_colors).

(** ** Columns *)

Record matrix_column := Column {
  column : Z;
  x_pixel : Z;
  speed : Z;
  trail_length : Z;
  head_y : Z;
  screen_height : Z;
  rng : Z;
}.

Definition set_head (y : Z) (r : Z) (c : matrix_column) : matrix_column :=
  Column (column c) (x_pixel c) (speed c) (trail_length c) y (screen_height c) r.

Definition set_rng (r : Z) (c : matrix_column) : matrix_column := set_head (head_y c) r c.

(** The random height above the screen at which a fall starts:
    [-(int)rng_range(&col->rng, CHAR_HEIGHT, max)]. *)
Definition start_above (mx : Z) (c : matrix_column) : matrix_column :=
  let '(v, r) := rng_range (rng c) CHAR_HEIGHT mx in set_head (- s32 v) r c.

(** The start of [matrix_column_entry], before its loop. *)
Definition column_begin (c : matrix_column) : matrix_column := start_above (Z.quot (screen_height c) 2) c.

(** New height, speed and trail once a trail has left the screen. *)
Definition column_reset (c : matrix_column) : matrix_column :=
  let c := start_above (Z.quot (screen_height c) 3) c in
  let '(sp, r) := rng_range (rng c) SPEED_MIN SPEED_MAX in
  let '(tl, r) := rng_range r TRAIL_MIN TRAIL_MAX in
  Column (column c) (x_pixel c) (s32 sp) (s32 tl) (head_y c) (screen_height c) r.

Definition trail_y (c : matrix_column) (i : Z) : Z := s32 (head_y c - i * CHAR_HEIGHT).

Definition trail_color (i : Z) : Z :=
  let color_idx := if NUM_COLORS <=? i then NUM_COLORS - 1 else i in
  nth (Z.to_nat color_idx) trail_colors 0.

Section Drawing.
Context (font_data : Z → Z).

(** One character of the trail. *)
Definition trail_step (c : matrix_column) (i : Z) (s : Z * console) : Z * console :=
  let '(r, con) := s in
  let char_y := trail_y c i in
  if (0 <=? char_y) && (char_y <? screen_height c - CHAR_HEIGHT) then
    let '(v, r) := rng_range r 33 126 in
    (r, console_draw_char font_data (s8 v) (x_pixel c) char_y (trail_color i) con)
  else (r, con).

Definition draw_trail (c : matrix_column) (con : console) : Z * console :=
  for_loop (Z.to_nat (trail_length c)) 0 (trail_step c) (rng c, con).

(** One round of the loop of [matrix_column_entry]; the number is the time the
    thread then sleeps. *)
Definition matrix_frame (c : matrix_column) (con : console) : Z * matrix_column * console :=
  let '(r, con) := draw_trail c con in
  let c := set_rng r c in
  let max_y := screen_height c in
  let erase_y := trail_y c (trail_length c) in
  let con := if (0 <=? erase_y) && (erase_y <? max_y)
             then console_fill_rect (x_pixel c) erase_y CHAR_WIDTH CHAR_HEIGHT 0 con else con in
  let c := set_head (s32 (head_y c + speed c)) (rng c) c in
  let c := if max_y <? erase_y then column_reset c else c in
  let '(ms, r) := rng_range (rng c) DELAY_MIN DELAY_MAX in
  (ms, set_rng r c, con).
End Drawing.

(** ** The demo *)

Record matrix := Matrix {
  columns : gmap Z matrix_column;
  matrix_running : Z;
  num_columns : Z;
}.

Definition matrix_is_running (x : matrix) : Z := matrix_running x.

(** What [matrix_start] stores in column [i] before it creates its thread;
    the old record supplies nothing. *)
Definition new_column (i height base_seed : Z) : matrix_column :=
  let r := rng_seed (u32 (base_seed + i * 12345)) in
  let '(sp, r) := rng_range r SPEED_MIN SPEED_MAX in
  let '(tl, r) := rng_range r TRAIL_MIN TRAIL_MAX in
  Column i (i * CHAR_WIDTH) (s32 sp) (s32 tl) 0 height r.

(** [ticks] is [apic_get_ticks()]; the list holds the columns for which a
    thread is created, in order. *)
Definition matrix_start (ticks : Z) (x : matrix) (con : console) : matrix * console * list Z :=
  if negb (matrix_running x =? 0) then (x, con, [])
  else
    let '(cols, rows) := console_get_dimensions con in
    let height := s32 (rows * CHAR_HEIGHT) in
    let n := if MAX_COLUMNS <? cols then MAX_COLUMNS else cols in
    let con := console_set_fullscreen 1 con in
    let con := console_fill_rect 0 0 (s32 (cols * CHAR_WIDTH)) height 0 con in
    let base_seed := u32 ticks in
    let '(cs, ids) := for_loop (Z.to_nat n) 0
      (λ i '(cs, ids), (<[i := new_column i height base_seed]> cs, ids ++ [i])) (columns x, []) in
    (Matrix cs 1 n, con, ids).

(** [matrix_stop]: the flag that ends the threads, and the console after the
    sleep that waits for them.  [others] is what they do in between. *)
Definition matrix_quit (x : matrix) : matrix := Matrix (columns x) 0 (num_columns x).

Definition matrix_restore (d : tty) : tty :=
  let d := set_con (console_set_fullscreen 0 (dev_con d)) d in
  terminal_clear (terminal_get_active d) d.

Definition matrix_stop (others : matrix → tty → matrix * tty) (x : matrix) (d : tty) : matrix * tty :=
  if matrix_running x =? 0 then (x, d)
  else let '(x, d) := others (matrix_quit x) d in (x, matrix_restore d).

(** ** The threads

    A thread enters, then runs frames.  [Enter i] and [Frame i] are the steps
    of the thread of column [i]; between two steps any other thread may run. *)

Inductive event := Enter (i : Z) | Frame (i : Z).

Definition event_col (e : event) : Z := match e with Enter i | Frame i => i end.

Section Threads.
Context (font_data : Z → Z).

Definition thread_step (s : gmap Z matrix_column * console) (e : event) : gmap Z matrix_column * console :=
  let '(cs, con) := s in
  match cs !! event_col e with
  | None => s
  | Some c =>
      match e with
      | Enter i => (<[i := column_begin c]> cs, con)
      | Frame i => let '(_, c, con) := matrix_frame font_data c con in (<[i := c]> cs, con)
      end
  end.

Definition run_threads (es : list event) (s : gmap Z matrix_column * console) : gmap Z matrix_column * console :=
  fold_left thread_step es s.
End Threads.

(** ** A frame touches its own column only *)

Section Alone.
Context (fb : limine_framebuffer) (Hfb : fb_ok fb) (font_data : Z → Z).

(** Drawing code whose result does not depend on the screen and which paints
    the same pixels, all in the eight columns from [x] on, whatever is there. *)
Definition alone {A} (x : Z) (f : console → A * console) : Prop :=
  ∃ a g, (∀ py px, is_Some (g py px) → x ≤ px < x + 8) ∧
    ∀ con, con_wf fb con → (f con).1 = a ∧ paints fb con (f con).2 g.

Lemma alone_ret {A} x (a : A) : alone x (λ con, (a, con)).
Proof.
  exists a, (λ _ _, None). split; [by intros ?? [? ?]|].
  intros con _. split; [done|apply paints_refl].
Qed.

Lemma alone_bind {A B} x (f : console → A * console) (k : A → console → B * console) :
  alone x f → (∀ a, alone x (k a)) → alone x (λ con, let '(a, con) := f con in k a con).
Proof.
  intros (a & g & Hg & Hf) Hk. destruct (Hk a) as (b & g' & Hg' & Hk').
  exists b, (λ py px, match g' py px with Some z => Some z | None => g py px end). split.
  { intros py px. destruct (g' py px) eqn:E; intros; [apply (Hg' py px); by rewrite E|by apply (Hg py px)]. }
  intros con Hc. destruct (Hf con Hc) as [Ea Hp]. destruct (f con) as [a' con']. cbn in *. subst a'.
  destruct (Hk' con' (con_wf_paints fb _ _ _ Hc Hp)) as [Eb Hp']. split; [done|]. by eapply paints_trans.
Qed.

Lemma alone_loop {A} x n i (f : Z → A * console → A * console) a :
  (∀ j a, alone x (λ con, f j (a, con))) → alone x (λ con, for_loop n i f (a, con)).
Proof.
  intros Hf. revert i a. induction n as [|n IH]; intros i a; [apply alone_ret|].
  destruct (alone_bind x (λ con, f i (a, con)) (λ a con, for_loop n (i + 1) f (a, con)))
    as (b & g & Hg & H); [apply Hf|intros; apply IH|].
  exists b, g. split; [done|]. intros con Hc. specialize (H con Hc). cbn beta.
  change (for_loop (S n) i f (a, con)) with (for_loop n (i + 1) f (f i (a, con))).
  destruct (f i (a, con)). exact H.
Qed.

Lemma alone_char {A} (a : A) ch x y colr : alone x (λ con, (a, console_draw_char font_data ch x y colr con)).
Proof.
  eexists a, _. split; [|intros con Hc; split; [done|by apply (draw_char_paints fb Hfb)]].
  intros py px [z Hz]. cbn beta in Hz. case_decide; [lia|done].
Qed.

Lemma alone_fill {A} (a : A) x y h colr :
  0 ≤ x → 0 ≤ y → alone x (λ con, (a, console_fill_rect x y CHAR_WIDTH h colr con)).
Proof.
  intros Hx Hy. eexists a, _. split; [|intros con Hc; split; [done|by apply (fill_rect_paints fb Hfb)]].
  unfold CHAR_WIDTH. intros py px [z Hz]. cbn beta in Hz. case_decide; [lia|done].
Qed.

Lemma trail_alone c : alone (x_pixel c) (draw_trail font_data c).
Proof.
  apply alone_loop. intros j r. unfold trail_step. case_if; [|apply alone_ret].
  destruct (rng_range r 33 126) as [v r']. apply alone_char.
Qed.

(** The cell a frame erases, and the state it leaves. *)
Definition erased (c : matrix_column) (con : console) : unit * console :=
  let erase_y := trail_y c (trail_length c) in
  (tt, if (0 <=? erase_y) && (erase_y <? screen_height c)
       then console_fill_rect (x_pixel c) erase_y CHAR_WIDTH CHAR_HEIGHT 0 con else con).

Definition frame_end (c : matrix_column) : Z * matrix_column :=
  let erase_y := trail_y c (trail_length c) in
  let c' := set_head (s32 (head_y c + speed c)) (rng c) c in
  let c' := if screen_height c <? erase_y then column_reset c' else c' in
  let '(ms, r) := rng_range (rng c') DELAY_MIN DELAY_MAX in (ms, set_rng r c').

Lemma frame_split c con :
  (let '(ms, c', con') := matrix_frame font_data c con in (ms, c', con')) =
  let '(r, con) := draw_trail font_data c con in
  let '(_, con) := erased (set_rng r c) con in (frame_end (set_rng r c), con).
Proof.
  unfold matrix_frame, erased, frame_end. destruct (draw_trail font_data c con) as [r con'].
  cbn zeta. by destruct (rng_range _ DELAY_MIN DELAY_MAX).
Qed.

Lemma erased_alone c : 0 ≤ x_pixel c → alone (x_pixel c) (erased c).
Proof. intros Hx. unfold erased. cbn zeta. case_if; [by apply alone_fill|apply alone_ret]. Qed.

Lemma frame_alone c :
  0 ≤ x_pixel c →
  alone (x_pixel c) (λ con, let '(ms, c', con') := matrix_frame font_data c con in ((ms, c'), con')).
Proof.
  intros Hx. destruct (alone_bind (x_pixel c) (draw_trail font_data c)
    (λ r con, let '(_, con) := erased (set_rng r c) con in (frame_end (set_rng r c), con)))
    as (a & g & Hg & H); [apply trail_alone| |].
  - intros r. apply (alone_bind (x_pixel c) (erased (set_rng r c))); [by apply (erased_alone (set_rng r c))|].
    intros _. apply alone_ret.
  - exists a, g. split; [done|]. intros con Hc. specialize (H con Hc). cbn beta. by rewrite frame_split.
Qed.
End Alone.

(** ** The animation parameters stay in range *)

Lemma rng_range_bounds r mn mx v r' :
  0 ≤ mn ≤ mx → mx < 2 ^ 31 → rng_range r mn mx = (v, r') → mn ≤ v ≤ mx ∧ s32 v = v.
Proof.
  change (2 ^ 31) with 2147483648. intros Hm Hx E. unfold rng_range in E. injection E as <- _.
  rewrite (u32_small mn), (u32_small (mx - mn + 1)) by lia.
  pose proof (Z.mod_pos_bound (rng_next r) (mx - mn + 1) ltac:(lia)).
  rewrite u32_small by lia. split; [lia|]. apply s32_small. lia.
Qed.

(** Column [i] as [matrix_start] makes it and the threads keep it. *)
Record column_ok (height i : Z) (c : matrix_column) : Prop := {
  ok_x : x_pixel c = i * 8;
  ok_height : screen_height c = height;
  ok_speed : SPEED_MIN ≤ speed c ≤ SPEED_MAX;
  ok_trail : TRAIL_MIN ≤ trail_length c ≤ TRAIL_MAX;
}.

Lemma speed_bounds r v r' : rng_range r SPEED_MIN SPEED_MAX = (v, r') → SPEED_MIN ≤ s32 v ≤ SPEED_MAX.
Proof. intros E. by destruct (rng_range_bounds r SPEED_MIN SPEED_MAX v r') as [? ->]. Qed.

Lemma trail_bounds r v r' : rng_range r TRAIL_MIN TRAIL_MAX = (v, r') → TRAIL_MIN ≤ s32 v ≤ TRAIL_MAX.
Proof. intros E. by destruct (rng_range_bounds r TRAIL_MIN TRAIL_MAX v r') as [? ->]. Qed.

Lemma new_column_ok i height seed : column_ok height i (new_column i height seed).
Proof.
  unfold new_column. destruct (rng_range _ SPEED_MIN SPEED_MAX) as [sp r] eqn:E1.
  destruct (rng_range r TRAIL_MIN TRAIL_MAX) as [tl r'] eqn:E2.
  split; [done..|by eapply speed_bounds|by eapply trail_bounds].
Qed.

Lemma begin_ok height i c : column_ok height i c → column_ok height i (column_begin c).
Proof. intros []. unfold column_begin, start_above. by destruct (rng_range _ _ _). Qed.

Lemma reset_ok height i c : column_ok height i c → column_ok height i (column_reset c).
Proof.
  intros [Hx Hh Hs Ht]. unfold column_reset, start_above. destruct (rng_range _ CHAR_HEIGHT _) as [v r0]. cbn [rng set_head].
  destruct (rng_range _ SPEED_MIN SPEED_MAX) as [sp r] eqn:E1.
  destruct (rng_range r TRAIL_MIN TRAIL_MAX) as [tl r'] eqn:E2.
  split; [done..|by eapply speed_bounds|by eapply trail_bounds].
Qed.

Lemma head_ok height i y r c : column_ok height i c → column_ok height i (set_head y r c).
Proof. by intros []. Qed.

Lemma frame_ok height i c : column_ok height i c → column_ok height i (frame_end c).2.
Proof.
  intros H. unfold frame_end. cbn zeta. destruct (rng_range _ DELAY_MIN DELAY_MAX) as [ms r]. cbn [snd].
  apply head_ok. case_if; [apply reset_ok|]; by apply head_ok.
Qed.

Lemma frame_column_ok font_data height i c con ms c' :
  column_ok height i c →
  (let '(ms, c', con') := matrix_frame font_data c con in ((ms, c'), con')).1 = (ms, c') → column_ok height i c'.
Proof.
  intros Hc E. rewrite frame_split in E. destruct (draw_trail font_data c con) as [r con'].
  destruct (erased _ con') as [[] con'']. cbn [fst] in E.
  pose proof (frame_ok height i (set_rng r c) (head_ok _ _ _ _ _ Hc)) as Hf. by rewrite E in Hf.
Qed.

(** ** Interleavings *)

Section Interleave.
Context (fb : limine_framebuffer) (Hfb : fb_ok fb) (font_data : Z → Z) (height n : Z).

Definition threads_ok (s : gmap Z matrix_column * console) : Prop :=
  con_wf fb s.2 ∧ ∀ i, 0 ≤ i < n → ∃ c, s.1 !! i = Some c ∧ column_ok height i c.

(** The two runs agree on column [i] and its pixels. *)
Definition same_column (i : Z) (s t : gmap Z matrix_column * console) : Prop :=
  s.1 !! i = t.1 !! i ∧
  ∀ py px, 0 ≤ px < pitch fb / 4 → px / 8 = i →
    vram s.2 !! (py * (pitch fb / 4) + px) = vram t.2 !! (py * (pitch fb / 4) + px).

(** A step replaces its column by a value and paints pixels that both depend
    on the column alone. *)
Lemma step_local c e i :
  0 ≤ i → event_col e = i → column_ok height i c →
  ∃ c' g, (∀ py px, is_Some (g py px) → px / 8 = i) ∧
    ∀ cs con, cs !! i = Some c → con_wf fb con →
      column_ok height i c' ∧
      ∃ con', thread_step font_data (cs, con) e = (<[i := c']> cs, con') ∧ paints fb con con' g.
Proof.
  intros Hi He Hc. destruct e as [j|j]; cbn in He; subst j.
  - exists (column_begin c), (λ _ _, None). split; [by intros ?? [? ?]|].
    intros cs con Hcs _. split; [by apply begin_ok|]. exists con. unfold thread_step. cbn. rewrite Hcs.
    split; [done|apply paints_refl].
  - destruct (frame_alone fb Hfb font_data c) as ([ms c'] & g & Hg & H); [rewrite (ok_x _ _ _ Hc); lia|].
    exists c', g. split.
    { intros py px Hp. specialize (Hg py px Hp). rewrite (ok_x _ _ _ Hc) in Hg. zdm. }
    intros cs con Hcs Hcon. destruct (H con Hcon) as [E Hp]. split; [by eapply frame_column_ok|].
    unfold thread_step. cbn [event_col]. rewrite Hcs.
    destruct (matrix_frame font_data c con) as [[ms' c''] con']. cbn in E, Hp. injection E as -> ->.
    by exists con'.
Qed.

Lemma threads_step s e :
  threads_ok s → 0 ≤ event_col e < n →
  threads_ok (thread_step font_data s e) ∧
  ∀ i, i ≠ event_col e → same_column i (thread_step font_data s e) s.
Proof.
  intros [Hw Hs] He. destruct s as [cs con]. destruct (Hs _ He) as (c & Hc & Hok). cbn in Hw, Hc.
  destruct (step_local c e (event_col e)) as (c' & g & Hg & H); [lia|done|done|].
  destruct (H cs con Hc Hw) as (Hok' & con' & -> & Hp). split.
  - split; [by eapply con_wf_paints|]. intros i Hi. cbn [fst]. destruct (decide (i = event_col e)) as [->|Hne].
    + exists c'. by rewrite lookup_insert_eq.
    + rewrite lookup_insert_ne by done. by apply Hs.
  - intros i Hne. split; cbn [fst snd]; [by rewrite lookup_insert_ne|].
    intros py px Hpx Hi. destruct Hp as [_ Hp]. rewrite Hp by done.
    destruct (g py px) eqn:E; [|done]. destruct Hne. rewrite <- (Hg py px); [done|by rewrite E].
Qed.

Lemma threads_step_same s t e i :
  threads_ok s → threads_ok t → 0 ≤ i < n → event_col e = i →
  same_column i s t → same_column i (thread_step font_data s e) (thread_step font_data t e).
Proof.
  intros [Hw Hs] [Hwt _] Hi He [Ec Ep]. destruct s as [cs con], t as [ct cont]. cbn [fst snd] in *.
  destruct (Hs _ Hi) as (c & Hc & Hok).
  destruct (step_local c e i) as (c' & g & Hg & H); [lia|done|done|].
  destruct (H cs con Hc Hw) as (_ & con' & -> & _ & Hp).
  destruct (H ct cont) as (_ & cont' & -> & _ & Hpt); [by rewrite <- Ec|done|].
  split; cbn [fst snd]; [by rewrite !lookup_insert_eq|].
  intros py px Hpx Hx. rewrite Hp, Hpt by done. by rewrite Ep.
Qed.

Lemma threads_run es i s t :
  threads_ok s → threads_ok t → 0 ≤ i < n → Forall (λ e, 0 ≤ event_col e < n) es → same_column i s t →
  threads_ok (run_threads font_data es s) ∧
  same_column i (run_threads font_data es s) (run_threads font_data (filter (λ e, event_col e = i) es) t).
Proof.
  intros Hs Ht Hi Hes. revert s t Hs Ht. induction Hes as [|e es He Hes IH]; intros s t Hs Ht Hst; [done|].
  destruct (threads_step s e Hs He) as [Hs' Hother]. rewrite filter_cons. case_decide as D.
  - apply IH; [done|by apply threads_step|]. by apply threads_step_same.
  - apply IH; [done..|]. destruct (Hother i) as [E1 E2]; [done|]. destruct Hst as [E3 E4].
    split; [by rewrite E1|]. intros py px Hpx Hx. by rewrite E2, E4.
Qed.
End Interleave.

(** ** The demo's threads do not disturb each other *)

Lemma start_columns height seed (cs0 : gmap Z matrix_column) k :
  let '(cs, ids) := for_loop k 0
      (λ i '(cs, ids), (<[i := new_column i height seed]> cs, ids ++ [i])) (cs0, []) in
  ids = seqZ 0 (Z.of_nat k) ∧ ∀ i, 0 ≤ i < Z.of_nat k → cs !! i = Some (new_column i height seed).
Proof.
  set (f := λ i '(cs, ids), _).
  assert (H : (λ (j : Z) (s : gmap Z matrix_column * list Z),
    s.2 = seqZ 0 j ∧ ∀ i, 0 ≤ i < j → s.1 !! i = Some (new_column i height seed)) (Z.of_nat k) (for_loop k 0 f (cs0, []))).
  { apply for_loop_ind0; [split; [done|lia]|]. intros j [cs ids] Hj [E Hc]. cbn in E |- *. subst ids. split.
    - by rewrite (seqZ_app 0 j 1) by lia.
    - intros i Hi. destruct (decide (i = j)) as [->|]; [by rewrite lookup_insert_eq|].
      rewrite lookup_insert_ne by done. apply Hc. lia. }
  destruct (for_loop k 0 f (cs0, [])). exact H.
Qed.

Lemma filter_keeps {A} (P Q : A → Prop) `{∀ x, Decision (Q x)} l : Forall P l → Forall P (filter Q l).
Proof. induction 1; [constructor|]. rewrite filter_cons. case_decide; [by constructor|done]. Qed.

Lemma fullscreen_wf fb con : con_wf fb con → con_wf fb (console_set_fullscreen 1 con).
Proof.
  intros (E1 & E2 & E3). unfold console_set_fullscreen, console_hide_cursor, erase_cursor, console_fill_rect.
  cbn. rewrite E1. repeat case_if; split_and!; done.
Qed.

(** [matrix_start] creates one thread per
    text column, up to 160.  However their frames interleave, column [i] and
    its pixels are what they would be had the thread of column [i] run alone,
    and its speed and trail length stay in the range they were drawn from. *)
Theorem matrix_columns_independent font_data fb ticks x con es i :
  fb_ok fb → con_wf fb con → matrix_running x = 0 →
  let '(x1, con1, ids) := matrix_start ticks x con in
  let run es := run_threads font_data es (columns x1, con1) in
  let solo := filter (λ e, event_col e = i) es in
  ids = seqZ 0 (Z.min (width fb / 8) MAX_COLUMNS) ∧ num_columns x1 = Z.min (width fb / 8) MAX_COLUMNS ∧
  (Forall (λ e, event_col e ∈ ids) es → i ∈ ids →
   (run es).1 !! i = (run solo).1 !! i ∧
   (∀ py px, 0 ≤ px < width fb → px / 8 = i → pixel (run es).2 py px = pixel (run solo).2 py px) ∧
   ∃ c, (run es).1 !! i = Some c ∧
     SPEED_MIN ≤ speed c ≤ SPEED_MAX ∧ TRAIL_MIN ≤ trail_length c ≤ TRAIL_MAX).
Proof.
  intros Hfb Hcon Hx. unfold matrix_start, console_get_dimensions. rewrite Hx.
  destruct Hcon as (Efb & Er & Ec). rewrite Er, Ec. cbn [negb Z.eqb].
  set (h := s32 (height fb / 16 * CHAR_HEIGHT)). set (w := s32 (width fb / 8 * CHAR_WIDTH)).
  set (n := if MAX_COLUMNS <? width fb / 8 then MAX_COLUMNS else width fb / 8).
  assert (Hn : n = Z.min (width fb / 8) MAX_COLUMNS) by (unfold n; case_if; lia).
  assert (0 ≤ n) by (destruct Hfb; unfold MAX_COLUMNS in Hn; zdm).
  pose proof (start_columns h (u32 ticks) (columns x) (Z.to_nat n)) as Hs. rewrite Z2Nat.id in Hs by done.
  destruct (for_loop _ _ _ _) as [cs ids]. destruct Hs as [-> Hcs]. cbn [columns num_columns].
  split_and!; [by rewrite <- Hn|done|]. intros Hes Hi%elem_of_seqZ.
  assert (Hes' : Forall (λ e, 0 ≤ event_col e < n) es).
  { eapply Forall_impl; [|exact Hes]. intros e He%elem_of_seqZ. lia. }
  set (con1 := console_fill_rect 0 0 w h 0 _).
  assert (Hok : threads_ok fb h n (cs, con1)).
  { split; [|intros j Hj; eexists; split; [by apply Hcs|apply new_column_ok]].
    assert (Hw : con_wf fb (console_set_fullscreen 1 con)) by (apply fullscreen_wf; by split_and!).
    eapply con_wf_paints; [exact Hw|]. by apply (fill_rect_paints fb Hfb). }
  destruct (threads_run fb Hfb font_data h n es i _ _ Hok Hok) as [Hok' [E1 E2]]; [lia|done|done|].
  destruct (threads_run fb Hfb font_data h n (filter (λ e, event_col e = i) es) i _ _ Hok Hok) as [[Hw _] _];
    [lia|by apply filter_keeps|done|].
  split_and!; [done| |].
  - intros py px Hpx Hpi. unfold pixel. destruct Hok' as [(-> & _) _], Hw as (-> & _).
    apply E2; [|done]. destruct Hfb. lia.
  - destruct Hok' as [_ Hok']. destruct (Hok' i) as (c & Hc & []); [lia|]. by exists c.
Qed.

(** ** A fall ends *)

Section Fall.
Context (font_data : Z → Z).

(** The column after [k] frames of its thread. *)
Fixpoint frames (k : nat) (c : matrix_column) (con : console) : matrix_column * console :=
  match k with
  | O => (c, con)
  | S k => let '(_, c, con) := matrix_frame font_data c con in frames k c con
  end.

Lemma reset_head c : 48 ≤ screen_height c ≤ 1048576 → - screen_height c ≤ head_y (column_reset c) ≤ -16.
Proof.
  intros Hh. unfold column_reset, start_above.
  destruct (rng_range (rng c) CHAR_HEIGHT (Z.quot (screen_height c) 3)) as [v r0] eqn:Ev.
  assert (16 ≤ Z.quot (screen_height c) 3 ≤ screen_height c) by (Z.quot_rem_to_equations; lia).
  destruct (rng_range_bounds (rng c) CHAR_HEIGHT (Z.quot (screen_height c) 3) v r0) as [Hv Es];
    [unfold CHAR_HEIGHT; lia|lia|done|].
  destruct (rng_range _ SPEED_MIN SPEED_MAX) as [sp r1]. destruct (rng_range r1 TRAIL_MIN TRAIL_MAX) as [tl r2].
  cbn [head_y set_head]. rewrite Es. unfold CHAR_HEIGHT in Hv. lia.
Qed.

(** The head after a frame: moved down, or above the screen again once the
    cell after the trail is below it. *)
Lemma frame_head h i c con :
  column_ok h i c → 48 ≤ h ≤ 1048576 → - h ≤ head_y c ≤ h + 512 →
  let '(_, c', _) := matrix_frame font_data c con in
  column_ok h i c' ∧
  (if h <? head_y c - 16 * trail_length c then - h ≤ head_y c' ≤ -16 else head_y c' = head_y c + speed c).
Proof.
  intros Hc Hh Hy. destruct (matrix_frame font_data c con) as [[ms c'] con'] eqn:E.
  pose proof (frame_split font_data c con) as Hs. rewrite E in Hs.
  split; [eapply (frame_column_ok font_data h i c con ms); [done|by rewrite E]|].
  destruct (draw_trail font_data c con) as [r con1]. destruct (erased _ con1) as [[] con2].
  apply (f_equal fst) in Hs as Ef. cbn [fst] in Ef. clear Hs. destruct Hc as [_ Hsh [Hs1 Hs2] [Ht1 Ht2]].
  unfold SPEED_MIN, SPEED_MAX, TRAIL_MIN, TRAIL_MAX in *.
  unfold frame_end, trail_y, CHAR_HEIGHT in Ef. cbn [head_y trail_length screen_height speed rng set_rng set_head] in Ef.
  rewrite Hsh, !s32_signed in Ef by lia. replace (trail_length c * 16) with (16 * trail_length c) in Ef by lia.
  destruct (rng_range _ DELAY_MIN DELAY_MAX) as [ms' r'] in Ef. injection Ef as _ ->. cbn [head_y set_rng set_head].
  case_if; [|done]. pose proof (reset_head (set_head (head_y c + speed c) r (set_rng r c))) as Hr.
  cbn [screen_height set_head set_rng] in Hr. lia.
Qed.

(** On a screen of at least three rows a head that starts above the screen or
    on it is above the screen again within [(h + 288 - y) / 8 + 2] frames: a
    trail moves at least [SPEED_MIN] pixels a frame and has at most
    [TRAIL_MAX] characters. *)
Theorem fall_ends h i k c con :
  column_ok h i c → 48 ≤ h ≤ 1048576 → - h ≤ head_y c ≤ h + 512 → h + 288 - head_y c < 8 * Z.of_nat k →
  ∃ k', (0 < k' ≤ S k)%nat ∧ - h ≤ head_y (frames k' c con).1 ≤ -16.
Proof.
  revert c con. induction k as [|k IH]; intros c con Hc Hh Hy Hk;
    pose proof (frame_head h i c con Hc Hh Hy) as Hf;
    destruct (matrix_frame font_data c con) as [[ms c'] con'] eqn:E; destruct Hf as [Hc' Hf];
    destruct Hc as [_ _ Hs Ht]; unfold SPEED_MIN, SPEED_MAX, TRAIL_MIN, TRAIL_MAX in *.
  - exists 1%nat. split; [lia|]. cbn [frames]. rewrite E. cbn [fst].
    destruct (h <? _) eqn:El in Hf; bool_props; lia.
  - destruct (h <? _) eqn:El in Hf; bool_props.
    + exists 1%nat. split; [lia|]. cbn [frames]. rewrite E. cbn [fst]. lia.
    + destruct (IH c' con' Hc' Hh) as (k' & Hk' & Hy'); [lia|lia|].
      exists (S k'). split; [lia|]. cbn [frames]. by rewrite E.
Qed.
End Fall.

(** ** Concrete runs *)

Definition demo_fb : limine_framebuffer := Fb 16 480 64.

Definition demo_con : console :=
  Con (Sback ∅ 0 1 0 0) (Some demo_fb) 30 2 (Cursor false true 0 0 0) 0 ∅.

Definition solid_font (_ : Z) : Z := 255.

Lemma matrix_columns_independent_witness :
  let '(x1, con1, ids) := matrix_start 7 (Matrix ∅ 0 0) demo_con in
  let run es := run_threads solid_font es (columns x1, con1) in
  ids = [0; 1] ∧
  (run [Enter 0; Enter 1; Frame 1; Frame 0; Frame 1]).1 !! 0 = (run [Enter 0; Frame 0]).1 !! 0.
Proof.
  pose proof (matrix_columns_independent solid_font demo_fb 7 (Matrix ∅ 0 0) demo_con
    [Enter 0; Enter 1; Frame 1; Frame 0; Frame 1] 0 ltac:(split_and!; by vm_compute) ltac:(by repeat split) eq_refl) as H.
  destruct (matrix_start 7 (Matrix ∅ 0 0) demo_con) as [[x1 con1] ids] eqn:E. destruct H as (-> & _ & H).
  split; [done|]. apply H; [|by apply elem_of_seqZ].
  repeat (apply Forall_cons_2; [by apply elem_of_seqZ|]). apply Forall_nil_2.
Defined.

(** A fast trail leaves characters behind: a frame erases one cell of 16 rows,
    so at speed 32 every other cell stays on the screen when the trail has
    passed it. *)
Theorem fast_trail_leaves_text :
  let '(c, con) := frames solid_font 15 (Column 0 0 32 8 160 480 1) demo_con in
  head_y c = 640 ∧ trail_y c (trail_length c) = 512 ∧ pixel con 50 3 = Some 0x006600 ∧ pixel con 40 3 = Some 0.
Proof. vm_compute. auto. Qed.
