(* ===== verification/KshellTests.v ===== *)
(** * The thread tests of the shell ([spin_worker], [mutex_worker],
      [producer_thread] and [consumer_thread] of [kernel/kshell.c])

    The threads step by step: every shared access is a step of its own, and
    between two steps any other thread may run.  The proofs use the locks only
    through the class [Monitor]; the spinlock and the mutex with its condition
    variables of [Sync.v] are its instances. *)
From Stdlib Require Import ZifyBool.
From S2P Require Import Prelude Alloc Kthread Sync SyncProps.
Local Open Scope Z_scope.

(** ** What a client needs of a lock

    [lock_round] is one attempt to take the lock; [wait_begin c] gives the lock
    up to wait on condition [c], [wait_round] is one attempt to take it back;
    [signal c] wakes a thread. *)
Class Monitor (L : Type) := {
  held : L → bool;
  lock_round : L → bool * L;
  unlock : L → L;
  wait_begin : bool → L → L;
  wait_round : L → bool * L;
  signal : bool → L → L;
  lock_round_held : ∀ l, (lock_round l).1 = negb (held l) ∧ held (lock_round l).2 = true;
  wait_round_held : ∀ l, (wait_round l).1 = negb (held l) ∧ held (wait_round l).2 = true;
  unlock_free : ∀ l, held (unlock l) = false;
  wait_begin_free : ∀ c l, held (wait_begin c l) = false;
  signal_held : ∀ c l, held (signal c l) = held l;
}.

(** A spinlock: the word [locked].  It has no conditions to wait for, and a
    wait is a release. *)
#[export] Program Instance spin_monitor : Monitor Z := {|
  held l := negb (l =? 0);
  lock_round l := let '(old, l) := test_and_set l in (old =? 0, l);
  unlock := spin_unlock;
  wait_begin _ := spin_unlock;
  wait_round l := let '(old, l) := test_and_set l in (old =? 0, l);
  signal _ l := l;
|}.
Next Obligation. intros l. cbn. by rewrite negb_involutive. Qed.
Next Obligation. intros l. cbn. by rewrite negb_involutive. Qed.
Next Obligation. done. Qed.
Next Obligation. done. Qed.
Next Obligation. done. Qed.

(** A mutex and two condition variables, with the threads that wait for them. *)
Record monitor := Mon { mon_mutex : mutex; mon_full : cond; mon_empty : cond; mon_sched : sched }.

Definition mon_lock (l : monitor) : bool * monitor :=
  let '(b, m, s) := mutex_lock_round (mon_mutex l) (mon_sched l) in (b, Mon m (mon_full l) (mon_empty l) s).

Definition mon_unlock (l : monitor) : monitor :=
  let '(m, s) := mutex_unlock (mon_mutex l) (mon_sched l) in Mon m (mon_full l) (mon_empty l) s.

Definition mon_wait (full : bool) (l : monitor) : monitor :=
  let '(c, m, s) := cond_wait_begin (if full then mon_full l else mon_empty l) (mon_mutex l) (mon_sched l) in
  if full then Mon m c (mon_empty l) s else Mon m (mon_full l) c s.

Definition mon_rewait (l : monitor) : bool * monitor :=
  let '(b, m, s) := cond_wait_round (mon_mutex l) (mon_sched l) in (b, Mon m (mon_full l) (mon_empty l) s).

Definition mon_signal (full : bool) (l : monitor) : monitor :=
  let '(c, s) := cond_signal (if full then mon_full l else mon_empty l) (mon_sched l) in
  if full then Mon (mon_mutex l) c (mon_empty l) s else Mon (mon_mutex l) (mon_full l) c s.

Definition mon_held (l : monitor) : bool := negb (locked (mon_mutex l) =? 0).

Lemma lock_held l : (mon_lock l).1 = negb (mon_held l) ∧ mon_held (mon_lock l).2 = true.
Proof.
  unfold mon_lock, mutex_lock_round, mon_held. destruct (locked (mon_mutex l) =? 0) eqn:E; [done|].
  destruct (waitq_add _ _ _). cbn. by rewrite E.
Qed.

Lemma rewait_held l : (mon_rewait l).1 = negb (mon_held l) ∧ mon_held (mon_rewait l).2 = true.
Proof.
  unfold mon_rewait, cond_wait_round, mon_held. destruct (locked (mon_mutex l) =? 0) eqn:E; [done|]. cbn [negb].
  destruct (waitq_add _ _ _). cbn. by rewrite E.
Qed.

Lemma unlock_held l : mon_held (mon_unlock l) = false.
Proof. unfold mon_unlock, mutex_unlock, release, mon_held. by destruct (waitq_remove _ _) as [[w q] s]. Qed.

Lemma wait_held full l : mon_held (mon_wait full l) = false.
Proof.
  unfold mon_wait, cond_wait_begin, release, mon_held. destruct (waitq_add _ _ _) as [q s].
  destruct (waitq_remove _ _) as [[w q'] s']. by destruct full.
Qed.

Lemma signal_keeps full l : mon_held (mon_signal full l) = mon_held l.
Proof. unfold mon_signal, cond_signal, mon_held. destruct (waitq_remove _ _) as [[w q] s]. by destruct full. Qed.

#[export] Instance mutex_monitor : Monitor monitor := {|
  held := mon_held; lock_round := mon_lock; unlock := mon_unlock; wait_begin := mon_wait;
  wait_round := mon_rewait; signal := mon_signal;
  lock_round_held := lock_held; wait_round_held := rewait_held; unlock_free := unlock_held;
  wait_begin_free := wait_held; signal_held := signal_keeps;
|}.

(** ** Counting under a lock *)

(** Where a worker is: before the lock, at the read, the write or the release,
    or past its loop, where it counts itself as done. *)
Inductive wpc := Locking | Reading | Writing (v : Z) | Releasing | Counting | CountingTo (v : Z) | Finished.

Record worker := Worker { at_ : wpc; rounds : Z }.

Section Counter.
Context {L : Type} `{Monitor L} (N : Z).

(** The lock, the counter, the number of threads done, and the threads. *)
Record test := Test { t_lock : L; t_counter : Z; t_done : Z; t_workers : list worker }.

(** The next step of a worker on the lock and the two counters. *)
Definition worker_step (w : worker) (l : L) (c d : Z) : worker * L * Z * Z :=
  match at_ w with
  | Locking => let '(b, l) := lock_round l in (Worker (if b then Reading else Locking) (rounds w), l, c, d)
  | Reading => (Worker (Writing c) (rounds w), l, c, d)
  | Writing v => (Worker Releasing (rounds w), l, s32 (v + 1), d)
  | Releasing => (Worker (if rounds w + 1 <? N then Locking else Counting) (rounds w + 1), unlock l, c, d)
  | Counting => (Worker (CountingTo d) (rounds w), l, c, d)
  | CountingTo v => (Worker Finished (rounds w), l, c, s32 (v + 1))
  | Finished => (w, l, c, d)
  end.

(** A step of the test: one of the threads runs, or the scheduler does
    something that leaves the lock as it is. *)
Inductive test_step : test → test → Prop :=
| step_worker i w w' l l' c c' d d' ws :
    ws !! i = Some w → worker_step w l c d = (w', l', c', d') →
    test_step (Test l c d ws) (Test l' c' d' (<[i := w']> ws))
| step_sched l l' c d ws :
    held l' = held l → test_step (Test l c d ws) (Test l' c d ws).

(** [n] threads about to enter their loops; the lock was initialised. *)
Definition test_start (l : L) (n : nat) : test := Test l 0 0 (replicate n (Worker Locking 0)).

Definition inside (w : worker) : nat :=
  match at_ w with Reading | Writing _ | Releasing => 1 | _ => 0 end.

(** The increments a worker has made. *)
Definition made (w : worker) : Z := match at_ w with Releasing => rounds w + 1 | _ => rounds w end.

Definition worker_ok (c : Z) (w : worker) : Prop :=
  match at_ w with
  | Writing v => v = c ∧ 0 ≤ rounds w < N
  | Locking | Reading | Releasing => 0 ≤ rounds w < N
  | _ => rounds w = N
  end.

Definition insiders (ws : list worker) : nat := sum_list_with inside ws.
Definition total (ws : list worker) : Z := foldr (λ w n, made w + n) 0 ws.

Record test_ok (n : nat) (t : test) : Prop := {
  ok_length : length (t_workers t) = n;
  ok_inside : insiders (t_workers t) = if held (t_lock t) then 1%nat else 0%nat;
  ok_total : t_counter t = total (t_workers t);
  ok_workers : Forall (worker_ok (t_counter t)) (t_workers t);
}.

Lemma split_at {A} (l : list A) i x : l !! i = Some x → ∃ u v, l = u ++ x :: v ∧ ∀ y, <[i := y]> l = u ++ y :: v.
Proof.
  intros E. exists (take i l), (drop (S i) l). split; [symmetry; by apply take_drop_middle|].
  intros y. apply insert_take_drop. by eapply lookup_lt_Some.
Qed.

Lemma insiders_app u w v : insiders (u ++ w :: v) = (insiders u + inside w + insiders v)%nat.
Proof. unfold insiders. rewrite sum_list_with_app. cbn. lia. Qed.

Lemma total_app u w v : total (u ++ w :: v) = total u + made w + total v.
Proof. unfold total. induction u as [|x u IH]; cbn; lia. Qed.

(** Nobody else is inside: the others do not depend on the counter. *)
Lemma outside_ok c c' ws : insiders ws = 0%nat → Forall (worker_ok c) ws → Forall (worker_ok c') ws.
Proof.
  intros Hi Hw. induction Hw as [|w ws Hw _ IH]; [constructor|]. unfold insiders in Hi. cbn in Hi.
  constructor; [|apply IH; unfold insiders; lia]. unfold worker_ok, inside in *. by destruct (at_ w).
Qed.

Lemma made_bound c ws : 0 ≤ N → Forall (worker_ok c) ws → 0 ≤ total ws ≤ N * Z.of_nat (length ws).
Proof.
  intros HN Hw. induction Hw as [|w ws Hw _ IH]; cbn; [lia|].
  assert (0 ≤ made w ≤ N) by (unfold made, worker_ok in *; destruct (at_ w); lia).
  fold (total ws). rewrite Nat2Z.inj_succ. lia.
Qed.

Context (HN : 0 < N).

(** A step of a worker keeps the lock, the counter and its own position in
    step; what it changes is seen by nobody else inside. *)
Lemma worker_step_ok w l c d w' l' c' d' rest tot :
  worker_step w l c d = (w', l', c', d') →
  (rest + inside w)%nat = (if held l then 1%nat else 0%nat) → c = tot + made w → worker_ok c w →
  0 ≤ c < 2 ^ 31 - 1 →
  (rest + inside w')%nat = (if held l' then 1%nat else 0%nat) ∧ c' = tot + made w' ∧ worker_ok c' w' ∧
  (c' = c ∨ rest = 0%nat).
Proof.
  intros E Hi Hc Hw Hb. destruct w as [p r]. unfold worker_step, worker_ok, inside, made in *.
  destruct p; cbn [at_ rounds] in *.
  - destruct (lock_round_held l) as [E1 E2]. destruct (lock_round l) as [b l1]. cbn in E1, E2. subst b.
    injection E as <- <- <- <-. rewrite E2. destruct (held l); cbn; split_and!; try done; try lia; by left.
  - injection E as <- <- <- <-. cbn. split_and!; try done; try lia; by left.
  - destruct Hw as [-> Hr]. injection E as <- <- <- <-. rewrite s32_small by lia. cbn.
    split_and!; try done; try lia. right. destruct (held l); lia.
  - injection E as <- <- <- <-. rewrite unlock_free. destruct (held l); [|lia].
    cbn. destruct (Z.ltb_spec (r + 1) N); cbn; split_and!; try done; try lia; by left.
  - injection E as <- <- <- <-. cbn. split_and!; try done; try lia; by left.
  - injection E as <- <- <- <-. cbn. split_and!; try done; try lia; by left.
  - injection E as <- <- <- <-. cbn. split_and!; try done; try lia; by left.
Qed.

Lemma test_step_ok n t t' :
  N * Z.of_nat n < 2 ^ 31 - 1 → test_ok n t → test_step t t' → test_ok n t'.
Proof.
  intros Hn Ht Hs. destruct Hs as [i w w' l l' c c' d d' ws Hi E|l l' c d ws E]; destruct Ht as [H1 H2 H3 H4];
    cbn [t_lock t_counter t_done t_workers] in *.
  2: { split; cbn [t_lock t_counter t_workers]; [done|by rewrite E|done|done]. }
  pose proof (made_bound c ws ltac:(lia) H4) as Hb. rewrite H1, <- H3 in Hb.
  destruct (split_at ws i w Hi) as (u & v & -> & Ei). rewrite Ei. rewrite insiders_app in H2. rewrite total_app in H3.
  apply Forall_app in H4 as [Hu [Hw Hv]%Forall_cons_1].
  destruct (worker_step_ok _ _ _ _ _ _ _ _ (insiders u + insiders v) (total u + total v) E) as (I1 & I2 & I3 & I4);
    [destruct (held l); lia|lia|done|lia|].
  split; cbn [t_lock t_counter t_workers].
  - rewrite length_app in H1 |- *. exact H1.
  - rewrite insiders_app. destruct (held l'); lia.
  - rewrite total_app. lia.
  - apply Forall_app. destruct I4 as [->|I4]; [by split; [|apply Forall_cons_2]|].
    split; [|apply Forall_cons_2; [done|]]; eapply outside_ok; done || lia.
Qed.

Lemma start_ok l n : held l = false → test_ok n (test_start l n).
Proof.
  intros Hl. split; cbn; [apply length_replicate| | |].
  - rewrite Hl. unfold insiders. by induction n.
  - unfold total. induction n; cbn; lia.
  - apply Forall_replicate. unfold worker_ok. cbn. lia.
Qed.

Lemma all_done n t :
  test_ok n t → Forall (λ w, at_ w = Finished) (t_workers t) → t_counter t = N * Z.of_nat n.
Proof.
  intros [H1 _ H3 H4] Hf. rewrite H3, <- H1. clear H1 H3. revert H4. generalize (t_counter t) as c.
  induction Hf as [|w ws Hw _ IH]; intros c Hws; cbn; [lia|]. apply Forall_cons_1 in Hws as [Hok Hws].
  fold (total ws). rewrite (IH c Hws). unfold worker_ok, made in *. rewrite Hw in *. lia.
Qed.
End Counter.

(** Running the threads of a test in a given order. *)
Section Run.
Context {L : Type} `{Monitor L} (N : Z).

Definition run_one (t : test) (i : nat) : test :=
  match t_workers t !! i with
  | None => t
  | Some w =>
      let '(w, l, c, d) := worker_step N w (t_lock t) (t_counter t) (t_done t) in
      Test l c d (<[i := w]> (t_workers t))
  end.

Definition run_order (order : list nat) (t : test) : test := fold_left run_one order t.

Lemma run_order_steps order t : rtc (test_step N) t (run_order order t).
Proof.
  revert t. induction order as [|i order IH]; intros t; [reflexivity|]. cbn. etrans; [|apply IH].
  unfold run_one. destruct t as [l c d ws]. cbn. destruct (ws !! i) as [w|] eqn:Ei; [|reflexivity].
  destruct (worker_step N w l c d) as [[[w' l'] c'] d'] eqn:E. apply rtc_once. by econstructor.
Qed.
End Run.

(** Any number of worker threads that increment a
    shared counter [N] times each under a lock leave it at exactly [N] times
    their number, however their accesses interleave and for every lock that
    has the promises of [Monitor]; the spinlock test and the mutex test of the
    shell are the instances with two threads. *)
Theorem locked_counter_exact {L} `{Monitor L} N n l t :
  0 < N → N * Z.of_nat n < 2 ^ 31 - 1 → held l = false →
  rtc (test_step N) (test_start l n) t → Forall (λ w, at_ w = Finished) (t_workers t) →
  t_counter t = N * Z.of_nat n.
Proof.
  intros HN Hn Hl Hr Hf. apply (all_done N n t); [|done].
  assert (Ht : test_ok N n (test_start l n)) by (by apply start_ok).
  clear Hf Hl. induction Hr as [t|t t1 t2 Hs _ IH]; [done|]. apply IH. by eapply test_step_ok.
Qed.

(** Thread 0 runs alone for a while, then both alternate to the end. *)
Definition spin_order : list nat := replicate 500 O ++ concat (replicate (80 * 100) [O; 1%nat]).

Lemma locked_counter_exact_witness :
  t_counter (run_order 1000 spin_order (test_start (spin_init 5) 2)) = 2000 ∧
  t_done (run_order 1000 spin_order (test_start (spin_init 5) 2)) = 2.
Proof.
  split.
  - apply (locked_counter_exact 1000 2 (spin_init 5) (run_order 1000 spin_order (test_start (spin_init 5) 2)));
      [lia|lia|done|apply run_order_steps|].
    vm_compute. repeat (apply Forall_cons_2; [done|]). apply Forall_nil_2.
  - vm_compute. reflexivity.
Defined.

(** The count of finished threads is not under the lock: when both threads read
    it before either writes it, it ends at 1, and the shell waits for 2. *)
Theorem finished_count_lost :
  let t := run_order 1000 (replicate 4000 O ++ replicate 4000 1%nat ++ [O; 1%nat; O; 1%nat]) (test_start (spin_init 0) 2) in
  t_counter t = 2000 ∧ t_done t = 1 ∧ t_workers t = replicate 2 (Worker Finished 1000).
Proof. vm_compute. auto. Qed.

(** ** Producer and consumer *)

Definition BUFFER_SIZE : Z := 5.

(** Where the producer is with item [i]; [PBlocked] waits for space. *)
Inductive ppc :=
| PLock | PCheck | PBlocked | PPut | PAdvance | PRead | PWrite (v : Z) | PSignal | PUnlock | PDone | PEnd.

(** Where the consumer is. *)
Inductive cpc :=
| CLock | CCheck | CBlocked | CTest | CGet | CAdvance | CRead | CWrite (v : Z) | CSignal | CUnlock | CDone | CEnd.

Section Cond.
Context {L : Type} `{Monitor L}.

(** The shared variables, the two threads with their local [i] and [consumed],
    and the items the consumer has taken. *)
Record pc_state := PC {
  c_lock : L;
  c_buffer : list Z;
  c_count : Z;
  c_in : Z;
  c_out : Z;
  c_pdone : Z;
  c_cdone : Z;
  p_at : ppc;
  p_item : Z;
  c_at : cpc;
  c_consumed : Z;
  c_got : list Z;
}.

Definition set_p (l : L) (p : ppc) (s : pc_state) : pc_state :=
  PC l (c_buffer s) (c_count s) (c_in s) (c_out s) (c_pdone s) (c_cdone s) p (p_item s) (c_at s) (c_consumed s) (c_got s).

Definition set_c (l : L) (q : cpc) (s : pc_state) : pc_state :=
  PC l (c_buffer s) (c_count s) (c_in s) (c_out s) (c_pdone s) (c_cdone s) (p_at s) (p_item s) q (c_consumed s) (c_got s).

Definition set_count (n : Z) (s : pc_state) : pc_state :=
  PC (c_lock s) (c_buffer s) n (c_in s) (c_out s) (c_pdone s) (c_cdone s) (p_at s) (p_item s) (c_at s) (c_consumed s) (c_got s).

(** [true] is the condition [buffer_not_full]. *)
Definition producer_step (s : pc_state) : pc_state :=
  let l := c_lock s in
  match p_at s with
  | PLock => let '(b, l) := lock_round l in set_p l (if b then PCheck else PLock) s
  | PCheck => if c_count s =? BUFFER_SIZE then set_p (wait_begin true l) PBlocked s else set_p l PPut s
  | PBlocked => let '(b, l) := wait_round l in set_p l (if b then PCheck else PBlocked) s
  | PPut => PC l (<[Z.to_nat (c_in s) := p_item s]> (c_buffer s)) (c_count s) (c_in s) (c_out s) (c_pdone s) (c_cdone s)
               PAdvance (p_item s) (c_at s) (c_consumed s) (c_got s)
  | PAdvance => PC l (c_buffer s) (c_count s) (Z.rem (c_in s + 1) BUFFER_SIZE) (c_out s) (c_pdone s) (c_cdone s)
                   PRead (p_item s) (c_at s) (c_consumed s) (c_got s)
  | PRead => set_p l (PWrite (c_count s)) s
  | PWrite v => set_p l PSignal (set_count (s32 (v + 1)) s)
  | PSignal => set_p (signal false l) PUnlock s
  | PUnlock => PC (unlock l) (c_buffer s) (c_count s) (c_in s) (c_out s) (c_pdone s) (c_cdone s)
                  (if p_item s + 1 <=? 10 then PLock else PDone) (p_item s + 1) (c_at s) (c_consumed s) (c_got s)
  | PDone => PC l (c_buffer s) (c_count s) (c_in s) (c_out s) 1 (c_cdone s) PEnd (p_item s) (c_at s) (c_consumed s) (c_got s)
  | PEnd => s
  end.

Definition consumer_step (s : pc_state) : pc_state :=
  let l := c_lock s in
  match c_at s with
  | CLock => let '(b, l) := lock_round l in set_c l (if b then CCheck else CLock) s
  | CCheck => if (c_count s =? 0) && (c_pdone s =? 0) then set_c (wait_begin false l) CBlocked s else set_c l CTest s
  | CBlocked => let '(b, l) := wait_round l in set_c l (if b then CCheck else CBlocked) s
  | CTest => set_c l (if 0 <? c_count s then CGet else CUnlock) s
  | CGet => PC l (c_buffer s) (c_count s) (c_in s) (c_out s) (c_pdone s) (c_cdone s) (p_at s) (p_item s) CAdvance (c_consumed s)
               (c_got s ++ [nth (Z.to_nat (c_out s)) (c_buffer s) 0])
  | CAdvance => PC l (c_buffer s) (c_count s) (c_in s) (Z.rem (c_out s + 1) BUFFER_SIZE) (c_pdone s) (c_cdone s) (p_at s) (p_item s)
                   CRead (c_consumed s) (c_got s)
  | CRead => set_c l (CWrite (c_count s)) s
  | CWrite v => PC l (c_buffer s) (s32 (v - 1)) (c_in s) (c_out s) (c_pdone s) (c_cdone s) (p_at s) (p_item s)
                   CSignal (c_consumed s + 1) (c_got s)
  | CSignal => set_c (signal true l) CUnlock s
  | CUnlock => set_c (unlock l) (if c_consumed s <? 10 then CLock else CDone) s
  | CDone => PC l (c_buffer s) (c_count s) (c_in s) (c_out s) (c_pdone s) 1 (p_at s) (p_item s) CEnd (c_consumed s) (c_got s)
  | CEnd => s
  end.

Inductive pc_step : pc_state → pc_state → Prop :=
| step_producer s : pc_step s (producer_step s)
| step_consumer s : pc_step s (consumer_step s)
| step_other s l : held l = held (c_lock s) →
    pc_step s (PC l (c_buffer s) (c_count s) (c_in s) (c_out s) (c_pdone s) (c_cdone s) (p_at s) (p_item s) (c_at s)
                  (c_consumed s) (c_got s)).

(** The variables as [cmd_condtest] sets them; the buffer has old contents. *)
Definition pc_start (l : L) (buf : list Z) : pc_state := PC l buf 0 0 0 0 0 PLock 1 CLock 0 [].

(** *** The invariant *)

Definition p_inside (p : ppc) : bool := match p with PLock | PBlocked | PDone | PEnd => false | _ => true end.
Definition c_inside (q : cpc) : bool := match q with CLock | CBlocked | CDone | CEnd => false | _ => true end.

(** Items the producer at [i] has stored, advanced over and counted. *)
Definition stored (p : ppc) (i : Z) : Z :=
  match p with PAdvance | PRead | PWrite _ | PSignal | PUnlock => i | _ => i - 1 end.
Definition advanced (p : ppc) (i : Z) : Z := match p with PRead | PWrite _ | PSignal | PUnlock => i | _ => i - 1 end.
Definition counted (p : ppc) (i : Z) : Z := match p with PSignal | PUnlock => i | _ => i - 1 end.

(** Items the consumer after [n] has taken and advanced over. *)
Definition taken (q : cpc) (n : Z) : Z := match q with CAdvance | CRead | CWrite _ => n + 1 | _ => n end.
Definition passed (q : cpc) (n : Z) : Z := match q with CRead | CWrite _ => n + 1 | _ => n end.

Definition producer_ok (p : ppc) (i count : Z) : Prop :=
  match p with
  | PPut | PAdvance | PRead => 1 ≤ i ≤ 10 ∧ count < 5
  | PWrite v => 1 ≤ i ≤ 10 ∧ count < 5 ∧ v = count
  | PDone | PEnd => i = 11
  | _ => 1 ≤ i ≤ 10
  end.

Definition consumer_ok (q : cpc) (n count : Z) : Prop :=
  match q with
  | CGet | CAdvance | CRead => 0 ≤ n < 10 ∧ 0 < count
  | CWrite v => 0 ≤ n < 10 ∧ 0 < count ∧ v = count
  | CSignal | CUnlock => 0 ≤ n ≤ 10
  | CDone | CEnd => n = 10
  | _ => 0 ≤ n < 10
  end.

Record pc_ok (s : pc_state) : Prop := {
  ok_held : held (c_lock s) = p_inside (p_at s) || c_inside (c_at s);
  ok_excl : p_inside (p_at s) && c_inside (c_at s) = false;
  ok_p : producer_ok (p_at s) (p_item s) (c_count s);
  ok_c : consumer_ok (c_at s) (c_consumed s) (c_count s);
  ok_count : c_count s = counted (p_at s) (p_item s) - c_consumed s ∧ 0 ≤ c_count s ≤ BUFFER_SIZE;
  ok_in : c_in s = advanced (p_at s) (p_item s) mod BUFFER_SIZE;
  ok_out : c_out s = passed (c_at s) (c_consumed s) mod BUFFER_SIZE;
  ok_got : c_got s = seqZ 1 (taken (c_at s) (c_consumed s));
  ok_size : length (c_buffer s) = 5%nat;
  ok_items : ∀ k, taken (c_at s) (c_consumed s) < k ≤ stored (p_at s) (p_item s) →
    c_buffer s !! Z.to_nat ((k - 1) mod BUFFER_SIZE) = Some k;
}.

(** A thread outside the lock does not depend on the count and is between two
    items. *)
Lemma producer_outside p i c c' : p_inside p = false → producer_ok p i c →
  producer_ok p i c' ∧ stored p i = counted p i ∧ advanced p i = counted p i ∧ 0 ≤ counted p i ≤ 10.
Proof. destruct p; cbn; intros; try done; lia. Qed.

Lemma consumer_outside q n c c' : c_inside q = false → consumer_ok q n c →
  consumer_ok q n c' ∧ taken q n = n ∧ passed q n = n ∧ 0 ≤ n ≤ 10.
Proof. destruct q; cbn; intros; try done; lia. Qed.

Ltac pcs := cbn [c_lock c_buffer c_count c_in c_out c_pdone c_cdone p_at p_item c_at c_consumed c_got
  set_p set_c set_count p_inside c_inside stored advanced counted taken passed producer_ok consumer_ok andb orb] in *.

(** The parts of the invariant a step does not touch. *)
Ltac kept := split; pcs; unfold BUFFER_SIZE in *; 
  rewrite ?andb_true_r, ?andb_false_r, ?orb_true_r, ?orb_false_r; try assumption; try lia; try done.

Lemma producer_keeps s : pc_ok s → pc_ok (producer_step s).
Proof.
  intros Hs. pose proof Hs as [Hh He Hp Hc [Hn Hb] Hi Ho Hg Hl Hit]. unfold producer_step.
  destruct s as [l buf cnt ci co pd cd p i q n got]. pcs. unfold BUFFER_SIZE in *.
  destruct p; pcs.
  - destruct (lock_round_held l) as [E1 E2]. destruct (lock_round l) as [b l1]. pcs. cbn in E1, E2. subst b.
    rewrite Hh. destruct (c_inside q) eqn:Eq; kept.
  - destruct (Z.eqb_spec cnt 5).
    + kept. rewrite He, wait_begin_free. done.
    + kept.
  - destruct (wait_round_held l) as [E1 E2]. destruct (wait_round l) as [b l1]. pcs. cbn in E1, E2. subst b.
    rewrite Hh. destruct (c_inside q) eqn:Eq; kept.
  - destruct (consumer_outside q n cnt cnt He Hc) as (_ & Et & _ & Hn10). kept.
    + by rewrite length_insert.
    + intros k Hk. rewrite Et in *. rewrite Hi. destruct (decide (k = i)) as [->|Hne].
      * pose proof (Z.mod_pos_bound (i - 1) 5 ltac:(lia)). rewrite list_lookup_insert_eq by lia. done.
      * rewrite list_lookup_insert_ne by zdm. apply Hit. lia.
  - kept. rewrite Hi, Z.rem_mod_nonneg by zdm. zdm.
  - kept.
  - destruct Hp as (Hi10 & Hlt & ->). destruct (consumer_outside q n cnt (s32 (cnt + 1)) He Hc) as (Hc' & _).
    assert (s32 (cnt + 1) = cnt + 1) as Es by (apply s32_small; lia). kept.
  - kept. by rewrite signal_held.
  - destruct (Z.leb_spec (i + 1) 10); kept; try (by rewrite unlock_free, He); try (rewrite Z.add_simpl_r; assumption);
      try (intros k Hk; apply Hit; lia).
  - kept.
  - kept.
Qed.

Lemma consumer_keeps s : pc_ok s → pc_ok (consumer_step s).
Proof.
  intros Hs. pose proof Hs as [Hh He Hp Hc [Hn Hb] Hi Ho Hg Hl Hit]. unfold consumer_step.
  destruct s as [l buf cnt ci co pd cd p i q n got]. pcs. unfold BUFFER_SIZE in *.
  destruct q; pcs; rewrite ?andb_true_r, ?andb_false_r, ?orb_true_r, ?orb_false_r in *.
  - destruct (lock_round_held l) as [E1 E2]. destruct (lock_round l) as [b l1]. pcs. cbn in E1, E2. subst b.
    rewrite Hh. destruct (p_inside p) eqn:Ep; kept; rewrite ?Ep; done.
  - destruct ((cnt =? 0) && (pd =? 0)); kept; rewrite ?wait_begin_free, ?He; done.
  - destruct (wait_round_held l) as [E1 E2]. destruct (wait_round l) as [b l1]. pcs. cbn in E1, E2. subst b.
    rewrite Hh. destruct (p_inside p) eqn:Ep; kept; rewrite ?Ep; done.
  - destruct (Z.ltb_spec 0 cnt); kept; rewrite ?He; done.
  - destruct (producer_outside p i cnt cnt He Hp) as (_ & Es & _ & Hi10). kept; rewrite ?He; try done.
    + rewrite Hg, (seqZ_app 1 n 1) by lia. change (seqZ (1 + n) 1) with [1 + n]. do 2 f_equal.
      specialize (Hit (n + 1) ltac:(lia)). rewrite Z.add_simpl_r in Hit. subst co.
      rewrite (nth_lookup_Some _ _ _ _ Hit). lia.
    + intros k Hk. apply Hit. lia.
  - kept; rewrite ?He; try done. subst co. rewrite Z.rem_mod_nonneg by zdm. zdm.
  - kept; rewrite ?He; done.
  - destruct Hc as (Hn10 & Hlt & ->). destruct (producer_outside p i cnt (s32 (cnt - 1)) He Hp) as (Hp' & _).
    assert (s32 (cnt - 1) = cnt - 1) as Es by (apply s32_small; lia). kept; rewrite ?He; done.
  - kept; rewrite ?signal_held, ?He; done.
  - destruct (Z.ltb_spec n 10); kept; rewrite ?unlock_free, ?He; done.
  - kept; rewrite ?He; done.
  - kept; rewrite ?He; done.
Qed.

Lemma pc_step_ok s s' : pc_ok s → pc_step s s' → pc_ok s'.
Proof.
  intros Hs Hst. destruct Hst as [s|s|s l Hl]; [by apply producer_keeps|by apply consumer_keeps|].
  destruct Hs. split; pcs; try done. by rewrite Hl.
Qed.

Lemma pc_start_ok l buf : held l = false → length buf = 5%nat → pc_ok (pc_start l buf).
Proof. intros Hl Hb. split; unfold pc_start; pcs; unfold BUFFER_SIZE; try done; lia. Qed.

(** Running the two threads in a given order, the producer for [true]. *)
Definition pc_run (order : list bool) (s : pc_state) : pc_state :=
  fold_left (λ s (b : bool), if b then producer_step s else consumer_step s) order s.

Lemma pc_run_steps order s : rtc pc_step s (pc_run order s).
Proof.
  revert s. induction order as [|b order IH]; intros s; [reflexivity|]. cbn. etrans; [|apply IH].
  apply rtc_once. destruct b; constructor.
Qed.
End Cond.

(** C38 [condtest_in_order]: however the accesses of the producer and the
    consumer interleave, and for every lock with condition variables that has
    the promises of [Monitor], the consumer takes the items 1, 2, 3, ... in
    order, each once; the count stays between 0 and 5, the indices inside the
    buffer, what has been produced and not taken is in the buffer, and when
    the consumer ends it has taken all ten. *)
Theorem condtest_in_order {L} `{Monitor L} l buf s :
  held l = false → length buf = 5%nat → rtc pc_step (pc_start l buf) s →
  0 ≤ c_count s ≤ BUFFER_SIZE ∧ 0 ≤ c_in s < BUFFER_SIZE ∧ 0 ≤ c_out s < BUFFER_SIZE ∧
  c_got s = seqZ 1 (Z.of_nat (length (c_got s))) ∧
  (held (c_lock s) = false → Z.of_nat (length (c_got s)) + c_count s = p_item s - 1 ∧
     ∀ k, Z.of_nat (length (c_got s)) < k < p_item s → k ∈ c_buffer s) ∧
  (c_at s = CEnd → c_got s = seqZ 1 10).
Proof.
  intros Hl Hb Hr. assert (Hs : pc_ok s).
  { assert (H0 : pc_ok (pc_start l buf)) by (by apply pc_start_ok). clear Hl Hb.
    induction Hr as [|s1 s2 s3 Hst _ IH]; [done|]. apply IH. by eapply pc_step_ok. }
  destruct Hs as [Hh He Hp Hc [Hn Hcb] Hi Ho Hg Hsz Hit]. unfold BUFFER_SIZE in *.
  assert (Ht : 0 ≤ taken (c_at s) (c_consumed s)) by (destruct (c_at s); cbn in *; lia).
  assert (Hlen : Z.of_nat (length (c_got s)) = taken (c_at s) (c_consumed s)) by (rewrite Hg, length_seqZ; lia).
  rewrite Hlen. split_and!; [lia..|rewrite Hi; zdm|rewrite Hi; zdm|rewrite Ho; zdm|rewrite Ho; zdm|done| |].
  - intros Hfree. rewrite Hh in Hfree. apply orb_false_iff in Hfree as [Hpo Hco].
    destruct (producer_outside _ _ _ 0 Hpo Hp) as (_ & E1 & _ & Hp10).
    destruct (consumer_outside _ _ _ 0 Hco Hc) as (_ & E2 & _ & _).
    assert (counted (p_at s) (p_item s) = p_item s - 1) as E3 by (by destruct (p_at s)).
    split; [lia|]. intros k Hk. eapply list_elem_of_lookup_2, Hit. lia.
  - intros E. rewrite Hg, E. rewrite E in Hc. cbn [consumer_ok] in Hc. cbn [taken]. by rewrite Hc.
Qed.

Definition fair_order : list bool := concat (replicate 400 [true; false; false; true; true]).

Lemma condtest_in_order_witness :
  let s := pc_run fair_order (pc_start (Mon (mutex_init (Mutex 1 9 (3, 3))) (Cond (0, 0)) (Cond (0, 0)) two_threads) [7; 7; 7; 7; 7]) in
  c_got s = [1; 2; 3; 4; 5; 6; 7; 8; 9; 10] ∧ p_at s = PEnd.
Proof.
  split; [|by vm_compute].
  apply (@condtest_in_order monitor mutex_monitor (Mon (mutex_init (Mutex 1 9 (3, 3))) (Cond (0, 0)) (Cond (0, 0)) two_threads)
    [7; 7; 7; 7; 7] _ eq_refl eq_refl (pc_run_steps fair_order _)).
  by vm_compute.
Defined.
