(* ===== verification/Kshell.v ===== *)
(** * The kernel shell ([kernel/kshell.c])

    The line editor with its history, the split of a line into arguments, the
    command table with its handlers, and the main loop.  Character arrays are
    lists of their declared length, and every access checks its index, so that
    an access outside an array is a value of its own ([Undef]). *)
From Stdlib Require Import String Ascii.
From S2P Require Import Prelude Pmm Page Vmm Heap Console Keyboard Serial Terminal Kprintf Ext2 Alloc Kthread Sync KshellTests Matrix.
Local Open Scope Z_scope.

Definition KSHELL_MAX_INPUT : Z := 256.
Definition KSHELL_MAX_ARGS : Z := 16.
Definition KSHELL_HISTORY_SIZE : Z := 16.
Definition KSHELL_PROMPT_COLOR : Z := 0x00FF00.
Definition KSHELL_INPUT_COLOR : Z := 0xFFFFFF.
Definition KSHELL_ERROR_COLOR : Z := 0xFF0000.

(** The characters of a string literal, and of one that ends in a newline. *)
Definition str (s : string) : list Z := (λ c, Z.of_N (N_of_ascii c)) <$> list_ascii_of_string s.

Definition strn (s : string) : list Z := str s ++ [10].

Definition KSHELL_PROMPT : list Z := str "seed> ".

(** ** Effects

    The shell runs on terminals, the keyboard and the demos.  [tests] holds
    what the test commands share with the threads they create. *)

Record tests := Tests {
  spin_counter : Z;
  spin_test_lock : Z;
  spin_threads_done : Z;
  mutex_counter : Z;
  mutex_test_lock : mutex;
  mutex_threads_done : Z;
  buffer_count : Z;
  buffer_in : Z;
  buffer_out : Z;
  buffer_mutex : mutex;
  buffer_not_empty : cond;
  buffer_not_full : cond;
  producer_done : Z;
  consumer_done : Z;
}.

(** The threads the shell creates, by entry function and argument. *)
Inductive entry :=
| spin_worker (id : Z)
| mutex_worker (id : Z)
| producer_thread
| consumer_thread
| matrix_column_entry (i : Z).

Record world := World {
  w_tty : tty;
  w_kbd : keyboard;
  w_rain : matrix;
  w_tests : tests;
  w_threads : list entry;
}.

(** How a command can leave the shell for good: the machine resets, after
    these port writes, or the first program starts. *)
Inductive departure :=
| Resets (ports : list (Z * Z))
| StartsInit.

(** What the rest of the system does while the shell sleeps, one entry for
    each time it is woken. *)
Definition env := list (world → world).

Inductive act (A : Type) : Type :=
| Ret (a : A) (w : world) (e : env)
| Leaves (d : departure) (w : world)
| Sleeps
| Undef.
Arguments Ret {A} _ _ _.
Arguments Leaves {A} _ _.
Arguments Sleeps {A}.
Arguments Undef {A}.

Definition M (A : Type) : Type := world → env → act A.

#[global] Instance M_ret : MRet M := λ A a w e, Ret a w e.

#[global] Instance M_bind : MBind M := λ A B k m w e,
  match m w e with
  | Ret a w e => k a w e
  | Leaves d w => Leaves d w
  | Sleeps => Sleeps
  | Undef => Undef
  end.

Definition undef {A} : M A := λ _ _, Undef.

Definition leave {A} (d : departure) : M A := λ w _, Leaves d w.

Definition asks {A} (f : world → A) : M A := λ w e, Ret (f w) w e.

Definition modify (f : world → world) : M unit := λ w e, Ret tt (f w) e.

Definition blocked {A} : M A := λ _ _, Sleeps.

(** [kthread_sleep] and [hlt]. *)
Definition sleep : M unit := λ w e,
  match e with
  | [] => Sleeps
  | f :: e => Ret tt (f w) e
  end.

Definition on_tty (f : tty → tty) : M unit :=
  modify (λ w, World (f (w_tty w)) (w_kbd w) (w_rain w) (w_tests w) (w_threads w)).

Definition on_tests (f : tests → tests) : M unit :=
  modify (λ w, World (w_tty w) (w_kbd w) (w_rain w) (f (w_tests w)) (w_threads w)).

Definition kthread_create_ (t : entry) : M unit :=
  modify (λ w, World (w_tty w) (w_kbd w) (w_rain w) (w_tests w) (w_threads w ++ [t])).

(** Array accesses. *)
Definition get {A} (a : list A) (i : Z) : M A :=
  if 0 <=? i then match a !! Z.to_nat i with Some c => mret c | None => undef end else undef.

Definition put {A} (a : list A) (i : Z) (c : A) : M (list A) :=
  if (0 <=? i) && (i <? Z.of_nat (length a)) then mret (<[Z.to_nat i := c]> a) else undef.

(** ** Strings *)

(** [str_equal] of the string at [p] in [a] and the literal [b]. *)
Fixpoint str_equal (a : list Z) (p : Z) (b : list Z) : M bool :=
  c ← get a p;
  match b with
  | [] => mret (c =? 0)
  | d :: b =>
      if c =? 0 then mret (c =? d)
      else if negb (c =? d) then mret false
      else str_equal a (p + 1) b
  end.

(** The copy loop from index [i]; [max_len] rounds are enough. *)
Fixpoint str_copy_loop (fuel : nat) (dst src : list Z) (i max_len : Z) : M (list Z) :=
  c ← get src i;
  if negb (c =? 0) && (i <? max_len - 1) then
    match fuel with
    | O => undef
    | S fuel => dst ← put dst i c; str_copy_loop fuel dst src (i + 1) max_len
    end
  else put dst i 0.

Definition str_copy (dst src : list Z) (max_len : Z) : M (list Z) :=
  str_copy_loop (Z.to_nat max_len) dst src 0 max_len.

(** The loop [while (input_buffer[input_len]) input_len++]. *)
Fixpoint count_chars (fuel : nat) (a : list Z) (i : Z) : M Z :=
  c ← get a i;
  if c =? 0 then mret i
  else match fuel with O => undef | S fuel => count_chars fuel a (i + 1) end.

(** The string at [p] in [a], as the formatter reads it. *)
Fixpoint cstring (fuel : nat) (a : list Z) (p : Z) : M (list Z) :=
  c ← get a p;
  if c =? 0 then mret []
  else match fuel with O => undef | S fuel => s ← cstring fuel a (p + 1); mret (c :: s) end.

(** ** Arguments *)

Fixpoint skip_spaces (fuel : nat) (a : list Z) (p : Z) : M Z :=
  c ← get a p;
  if c =? 32 then match fuel with O => undef | S fuel => skip_spaces fuel a (p + 1) end else mret p.

Fixpoint skip_word (fuel : nat) (a : list Z) (p : Z) : M Z :=
  c ← get a p;
  if negb (c =? 0) && negb (c =? 32)
  then match fuel with O => undef | S fuel => skip_word fuel a (p + 1) end else mret p.

(** The outer loop.  [argv] holds the pointers found so far; each round but
    the last adds one. *)
Fixpoint parse_loop (fuel : nat) (a : list Z) (p : Z) (argv : list Z) (max_args : Z) : M (list Z * list Z) :=
  c ← get a p;
  if negb (c =? 0) && (Z.of_nat (length argv) <? max_args) then
    p ← skip_spaces (length a) a p;
    c ← get a p;
    if c =? 0 then mret (argv, a)
    else
      let argv := argv ++ [p] in
      p ← skip_word (length a) a p;
      c ← get a p;
      match fuel with
      | O => undef
      | S fuel =>
          if negb (c =? 0) then a ← put a p 0; parse_loop fuel a (p + 1) argv max_args
          else parse_loop fuel a p argv max_args
      end
  else mret (argv, a).

(** The pointers, as indices, and the buffer with the terminators. *)
Definition parse_command (input : list Z) (max_args : Z) : M (list Z * list Z) :=
  parse_loop (Z.to_nat max_args) input 0 [] max_args.

(** ** Commands *)

Inductive command :=
| cmd_help | cmd_clear | cmd_echo | cmd_version | cmd_meminfo | cmd_reboot
| cmd_matrix | cmd_spintest | cmd_mutextest | cmd_condtest | cmd_init.

Definition commands : list (list Z * list Z * command) :=
  [ (str "help", str "Show available commands", cmd_help);
    (str "clear", str "Clear the screen", cmd_clear);
    (str "echo", str "Echo arguments to screen", cmd_echo);
    (str "version", str "Show SeedOS version", cmd_version);
    (str "meminfo", str "Show memory statistics", cmd_meminfo);
    (str "reboot", str "Reboot the system", cmd_reboot);
    (str "matrix", str "Toggle Matrix rain demo", cmd_matrix);
    (str "spintest", str "Test spinlock (busy-wait)", cmd_spintest);
    (str "mutextest", str "Test mutex (sleep-wait)", cmd_mutextest);
    (str "condtest", str "Test condition variables", cmd_condtest);
    (str "init", str "Launch /init from initrd", cmd_init) ].

(** What the commands report on: the heap, the page allocator, the initrd
    file system in memory [mem], and where [cmd_init] keeps its 64 bytes. *)
Record facts := Facts {
  f_heap : heap;
  f_pmm : pmm;
  f_fs : ext2;
  f_mem : gmap Z Z;
  f_dir_fuel : nat;
  f_header : Z;
  f_ticks : Z;
}.

Section Commands.
Context (font_data : Z → Z) (fx : facts).

Definition say (fmt : list Z) (args : list arg) : M unit :=
  d ← asks w_tty;
  match kprintf font_data fmt args d with
  | Some (d, _) => on_tty (λ _, d)
  | None => undef
  end.

Definition set_color (c : Z) : M unit := on_tty (λ d, terminal_set_color (terminal_get_active d) c d).

Fixpoint help_rows (rows : list (list Z * list Z * command)) : M unit :=
  match rows with
  | [] => mret tt
  | (name, help, _) :: rows =>
      say (strn "  %-12s %s") [AStr (Some name); AStr (Some help)];; help_rows rows
  end.

Definition run_help : M unit := say (strn "Available commands:") [];; help_rows commands.

Definition run_clear : M unit := on_tty (λ d, terminal_clear (terminal_get_active d) d).

(** [n] arguments from index [i] on; [argc] is the length of [argv]. *)
Fixpoint echo_loop (n : nat) (i : Z) (argv a : list Z) : M unit :=
  match n with
  | O => mret tt
  | S n =>
      p ← get argv i;
      s ← cstring (length a) a p;
      say (str "%s%s") [AStr (Some s); AStr (Some (if i <? Z.of_nat (length argv) - 1 then str " " else []))];;
      echo_loop n (i + 1) argv a
  end.

Definition run_echo (argv a : list Z) : M unit := echo_loop (length argv - 1) 1 argv a;; say [10] [].

Definition run_version : M unit := say (strn "SeedOS v0.1") [].

Definition run_meminfo : M unit :=
  say (strn "Heap: %llu used, %llu free") [AWord (kheap_get_used (f_heap fx)); AWord (kheap_get_free (f_heap fx))];;
  say (strn "PMM:  %llu/%llu pages free") [AWord (free_pages (f_pmm fx)); AWord (usable_pages (f_pmm fx))].

(** The two port writes that ask for a reset; the interrupt through an empty
    table that follows them ends the machine as well. *)
Definition run_reboot : M unit :=
  say (strn "Rebooting...") [];; leave (Resets [(0xCF9, 0x06); (0x64, 0xFE)]).

Definition on_rain (f : matrix → matrix) : M unit :=
  modify (λ w, World (w_tty w) (w_kbd w) (f (w_rain w)) (w_tests w) (w_threads w)).

Definition get_key : M Z := λ w e,
  let '(c, k) := keyboard_getchar (w_kbd w) in
  Ret c (World (w_tty w) k (w_rain w) (w_tests w) (w_threads w)) e.

(** A loop that sleeps in every round ends or outlives the wake-ups. *)
Fixpoint sleep_until_ (n : nat) (test : M bool) : M unit :=
  b ← test;
  if (b : bool) then mret tt
  else sleep;; match n with O => blocked | S n => sleep_until_ n test end.

Definition sleep_until (test : M bool) : M unit := λ w e, sleep_until_ (length e) test w e.

(** [keyboard_read]: its character is not used. *)
Definition read_key : M unit := sleep_until (c ← get_key; mret (negb (c =? -1))).

Definition start_rain : M unit := λ w e,
  let '(x, con, ids) := matrix_start (f_ticks fx) (w_rain w) (dev_con (w_tty w)) in
  Ret tt (World (set_con con (w_tty w)) (w_kbd w) x (w_tests w) (w_threads w ++ (matrix_column_entry <$> ids))) e.

Definition stop_rain : M unit :=
  x ← asks w_rain;
  if matrix_running x =? 0 then mret tt
  else on_rain matrix_quit;; sleep;; on_tty matrix_restore.

Definition run_matrix : M unit :=
  x ← asks w_rain;
  if negb (matrix_is_running x =? 0) then
    stop_rain;; say (strn "Matrix rain stopped.") []
  else
    say (strn "Starting Matrix rain... (press any key to stop)") [];;
    start_rain;; read_key;; stop_rain;; say (strn "Matrix rain stopped.") [].

Definition run_spintest : M unit :=
  say (strn "Spinlock Test: 2 threads, 1000 increments each") [];;
  say (str "Expected result: 2000" ++ [10; 10]) [];;
  on_tests (λ t, Tests 0 (spin_init (spin_test_lock t)) 0 (mutex_counter t) (mutex_test_lock t) (mutex_threads_done t)
    (buffer_count t) (buffer_in t) (buffer_out t) (buffer_mutex t) (buffer_not_empty t) (buffer_not_full t)
    (producer_done t) (consumer_done t));;
  kthread_create_ (spin_worker 1);;
  kthread_create_ (spin_worker 2);;
  sleep_until (asks (λ w, negb (spin_threads_done (w_tests w) <? 2)));;
  n ← asks (λ w, spin_counter (w_tests w));
  say ([10] ++ strn "Final counter value: %d") [AWord n];;
  if n =? 2000 then say (strn "SUCCESS: Spinlock protected the counter!") []
  else say (strn "FAILURE: Race condition detected") [].

Definition run_mutextest : M unit :=
  say (strn "Mutex Test: 2 threads, 100 increments each") [];;
  say (str "Expected result: 200" ++ [10; 10]) [];;
  on_tests (λ t, Tests (spin_counter t) (spin_test_lock t) (spin_threads_done t) 0 (mutex_init (mutex_test_lock t)) 0
    (buffer_count t) (buffer_in t) (buffer_out t) (buffer_mutex t) (buffer_not_empty t) (buffer_not_full t)
    (producer_done t) (consumer_done t));;
  kthread_create_ (mutex_worker 1);;
  kthread_create_ (mutex_worker 2);;
  sleep_until (asks (λ w, negb (mutex_threads_done (w_tests w) <? 2)));;
  n ← asks (λ w, mutex_counter (w_tests w));
  say ([10] ++ strn "Final counter value: %d") [AWord n];;
  if n =? 200 then say (strn "SUCCESS: Mutex protected the counter!") []
  else say (strn "FAILURE: Race condition detected") [].

Definition run_condtest : M unit :=
  say (strn "Condition Variable Test: Producer/Consumer") [];;
  say (str "Buffer size: %d, Items to produce: 10" ++ [10; 10]) [AWord BUFFER_SIZE];;
  on_tests (λ t, Tests (spin_counter t) (spin_test_lock t) (spin_threads_done t) (mutex_counter t) (mutex_test_lock t)
    (mutex_threads_done t) 0 0 0 (mutex_init (buffer_mutex t)) (cond_init (buffer_not_empty t))
    (cond_init (buffer_not_full t)) 0 0);;
  kthread_create_ producer_thread;;
  kthread_create_ consumer_thread;;
  sleep_until (asks (λ w, negb ((producer_done (w_tests w) =? 0) || (consumer_done (w_tests w) =? 0))));;
  say ([10] ++ strn "SUCCESS: Producer/Consumer completed!") [].

Definition usage : list Z := strn "Use 'make test TEST=<name>' to build with a test binary.".

(** [cmd_init]: the file is looked up, measured and its magic number read
    before [start_init] takes over.  A lookup that does not return leaves the
    shell stuck. *)
Definition run_init : M unit :=
  let m := f_mem fx in
  match ext2_lookup (f_fs fx) m (f_dir_fuel fx) (str "/init") with
  | None => blocked
  | Some init_ino =>
      if init_ino =? 0 then say (strn "Error: /init not found in initrd.") [];; say usage []
      else
        let inode := ext2_read_inode (f_fs fx) m init_ino in
        if inode =? 0 then say (strn "Error: Failed to read /init inode.") []
        else
          let size := ext2_get_file_size m inode in
          if size <? 64 then
            say (strn "Error: /init is too small (%llu bytes).") [AWord size];;
            say (strn "The initrd contains a placeholder, not a real binary.") [];; say usage []
          else
            let h := f_header fx in
            let '(n, m) := ext2_read_file (f_fs fx) inode 0 h 64 m in
            if (n <? 4) || negb (rd m h =? 0x7f) || negb (rd m (h + 1) =? 69) ||
               negb (rd m (h + 2) =? 76) || negb (rd m (h + 3) =? 70)
            then say (strn "Error: /init is not a valid ELF binary.") [];; say usage []
            else
              say (strn "Launching /init from initrd (%llu bytes)...") [AWord size];;
              say (str "This will not return - entering userspace." ++ [10; 10]) [];;
              leave StartsInit
  end.

(** The call through the handler pointer of a table row. *)
Definition run_command (c : command) (argv a : list Z) : M unit :=
  match c with
  | cmd_help => run_help
  | cmd_clear => run_clear
  | cmd_echo => run_echo argv a
  | cmd_version => run_version
  | cmd_meminfo => run_meminfo
  | cmd_reboot => run_reboot
  | cmd_matrix => run_matrix
  | cmd_spintest => run_spintest
  | cmd_mutextest => run_mutextest
  | cmd_condtest => run_condtest
  | cmd_init => run_init
  end.

(** The search of the table, and the command or the error message. *)
Fixpoint find_command (rows : list (list Z * list Z * command)) (argv a : list Z) : M (option command) :=
  match rows with
  | [] => mret None
  | (name, _, c) :: rows =>
      p ← get argv 0;
      b ← str_equal a p name;
      if (b : bool) then mret (Some c) else find_command rows argv a
  end.

(** Returns the input buffer, in which the arguments are now terminated. *)
Definition execute_command (input_buffer : list Z) : M (list Z) :=
  '(argv, a) ← parse_command input_buffer KSHELL_MAX_ARGS;
  if Z.of_nat (length argv) =? 0 then mret a
  else
    c ← find_command commands argv a;
    match c with
    | Some c => run_command c argv a;; mret a
    | None =>
        set_color KSHELL_ERROR_COLOR;;
        p ← get argv 0;
        s ← cstring (length a) a p;
        say (strn "Unknown command: %s") [AStr (Some s)];;
        set_color KSHELL_INPUT_COLOR;; mret a
    end.

(** ** The line editor *)

Record shell := Shell {
  input_buffer : list Z;
  input_len : Z;
  history : list (list Z);
  history_count : Z;
  history_pos : Z;
  history_browse : Z;
  saved_input : list Z;
}.

Definition set_input (a : list Z) (n : Z) (s : shell) : shell :=
  Shell a n (history s) (history_count s) (history_pos s) (history_browse s) (saved_input s).

Definition set_browse (b : Z) (s : shell) : shell :=
  Shell (input_buffer s) (input_len s) (history s) (history_count s) (history_pos s) b (saved_input s).

Definition set_saved (a : list Z) (s : shell) : shell :=
  Shell (input_buffer s) (input_len s) (history s) (history_count s) (history_pos s) (history_browse s) a.

Definition add_to_history (s : shell) : M shell :=
  if input_len s =? 0 then mret s
  else
    row ← get (history s) (history_pos s);
    row ← str_copy row (input_buffer s) KSHELL_MAX_INPUT;
    h ← put (history s) (history_pos s) row;
    let pos := Z.rem (history_pos s + 1) KSHELL_HISTORY_SIZE in
    let count := if history_count s <? KSHELL_HISTORY_SIZE then history_count s + 1 else history_count s in
    mret (Shell (input_buffer s) (input_len s) h count pos (history_browse s) (saved_input s)).

Definition get_history_index (s : shell) (offset : Z) : Z :=
  if history_count s <=? offset then -1
  else Z.rem (history_pos s - 1 - offset + KSHELL_HISTORY_SIZE) KSHELL_HISTORY_SIZE.

(** "\b \b" *)
Definition rubout : list Z := [8; 32; 8].

Fixpoint rub_loop (n : nat) : M unit :=
  match n with O => mret tt | S n => say rubout [];; rub_loop n end.

Definition clear_input_line (s : shell) : M unit := rub_loop (Z.to_nat (input_len s)).

(** The line is replaced by the string in [src] and shown. *)
Definition recall (src : list Z) (s : shell) : M shell :=
  clear_input_line s;;
  a ← str_copy (input_buffer s) src KSHELL_MAX_INPUT;
  n ← count_chars (length a) a 0;
  t ← cstring (length a) a 0;
  say (str "%s") [AStr (Some t)];;
  mret (set_input a n s).

Definition recall_history (s : shell) : M shell :=
  let idx := get_history_index s (history_browse s) in
  if 0 <=? idx then row ← get (history s) idx; recall row s else mret s.

Definition history_prev (s : shell) : M shell :=
  if history_count s =? 0 then mret s
  else if history_browse s =? -1 then
    saved ← str_copy (saved_input s) (input_buffer s) KSHELL_MAX_INPUT;
    recall_history (set_browse 0 (set_saved saved s))
  else if history_browse s <? history_count s - 1 then recall_history (set_browse (history_browse s + 1) s)
  else mret s.

Definition history_next (s : shell) : M shell :=
  if history_browse s =? -1 then mret s
  else if 0 <? history_browse s then recall_history (set_browse (history_browse s - 1) s)
  else s ← recall (saved_input s) s; mret (set_browse (-1) s).

Definition handle_backspace (s : shell) : M shell :=
  if 0 <? input_len s then
    let n := input_len s - 1 in
    a ← put (input_buffer s) n 0;
    say rubout [];; mret (set_input a n s)
  else mret s.

Definition clear_input (s : shell) : M shell :=
  a ← put (input_buffer s) 0 0; mret (set_browse (-1) (set_input a 0 s)).

Definition print_prompt : M unit :=
  set_color KSHELL_PROMPT_COLOR;; say (str "%s") [AStr (Some KSHELL_PROMPT)];; set_color KSHELL_INPUT_COLOR.

Definition kshell_init (s : shell) : M shell :=
  a ← put (input_buffer s) 0 0;
  b ← put (saved_input s) 0 0;
  mret (Shell a 0 (history s) 0 0 (-1) b).

(** The body of the loop of [kshell_run] for the character [c]. *)
Definition kshell_key (c : Z) (s : shell) : M shell :=
  if c =? -1 then sleep;; mret s
  else if c =? KEY_PAGEUP then
    on_tty (λ d, let '(_, rows) := console_get_dimensions (dev_con d) in
                 set_con (console_scroll_back font_data (rows - 1) (dev_con d)) d);; mret s
  else if c =? KEY_PAGEDOWN then
    on_tty (λ d, let '(_, rows) := console_get_dimensions (dev_con d) in
                 set_con (console_scroll_forward font_data (rows - 1) (dev_con d)) d);; mret s
  else
    on_tty (λ d, if console_is_scrolled_back (dev_con d)
                 then set_con (console_scroll_to_bottom font_data (dev_con d)) d else d);;
    if c =? KEY_ENTER then
      say [10] [];;
      s ← (if 0 <? input_len s then
             s ← add_to_history s;
             a ← execute_command (input_buffer s);
             mret (set_input a (input_len s) s)
           else mret s);
      s ← clear_input s;
      print_prompt;; mret s
    else if c =? KEY_BACKSPACE then handle_backspace s
    else if c =? KEY_UP then history_prev s
    else if c =? KEY_DOWN then history_next s
    else if (32 <=? c) && (c <? 127) then
      if input_len s <? KSHELL_MAX_INPUT - 1 then
        a ← put (input_buffer s) (input_len s) (s8 c);
        a ← put a (input_len s + 1) 0;
        say (str "%c") [AWord c];; mret (set_input a (input_len s + 1) s)
      else mret s
    else mret s.

Definition banner : M unit :=
  say ([10] ++ strn "Welcome to SeedOS!") [];;
  say (str "Type 'help' for available commands." ++ [10; 10]) [];; print_prompt.

(** [n] rounds of the loop. *)
Fixpoint kshell_loop (n : nat) (s : shell) : M shell :=
  match n with
  | O => mret s
  | S n => c ← get_key; s ← kshell_key c s; kshell_loop n s
  end.

Definition kshell_run (n : nat) (s : shell) : M shell := banner;; kshell_loop n s.
End Commands.
