(* ===== verification/KshellSpec.v ===== *)
(** * The shell as a line editor over lists

    An editor with a line, a list of earlier lines, most recent first, and a
    position in it; a line is split at its spaces and the first word looked up
    in the command table.  The shell of [Kshell.v], with its arrays, ring and
    terminators, behaves as this editor for every sequence of keys, and never
    leaves an array. *)
From Stdlib Require Import ZifyBool String.
From S2P Require Import Prelude Console Keyboard Serial Terminal Kprintf KprintfProps Ext2 Matrix Kshell.
Local Open Scope Z_scope.

(** ** Relating two computations *)

Definition act_rel {A B} (R : A → B → Prop) (x : act A) (y : act B) : Prop :=
  match x, y with
  | Ret a w e, Ret b w' e' => R a b ∧ w = w' ∧ e = e'
  | Leaves d w, Leaves d' w' => d = d' ∧ w = w'
  | Sleeps, Sleeps => True
  | _, _ => False
  end.

Definition mrel {A B} (R : A → B → Prop) (m : M A) (m' : M B) : Prop :=
  ∀ w e, act_rel R (m w e) (m' w e).

(** A computation that stays inside its arrays: related to itself. *)
Abbreviation sound m := (mrel eq m m).

Create HintDb shell discriminated.

Lemma ret_bind {A B} (a : A) (k : A → M B) : (mret a ≫= k) = k a.
Proof. reflexivity. Qed.

Lemma mrel_bind {A B A' B'} (R : A → A' → Prop) (Q : B → B' → Prop) (m : M A) m' (k : A → M B) k' :
  mrel R m m' → (∀ a a', R a a' → mrel Q (k a) (k' a')) → mrel Q (m ≫= k) (m' ≫= k').
Proof.
  intros Hm Hk w e. specialize (Hm w e). unfold mbind, M_bind.
  destruct (m w e), (m' w e); cbn in Hm; try done. destruct Hm as (HR & -> & ->). by apply Hk.
Qed.

Lemma mrel_ret {A B} (R : A → B → Prop) a b : R a b → mrel R (mret a) (mret b).
Proof. intros HR w e. by split. Qed.

Lemma sound_bind {A B} (m : M A) (k : A → M B) : sound m → (∀ a, sound (k a)) → sound (m ≫= k).
Proof. intros Hm Hk. eapply mrel_bind; [exact Hm|]. intros a ? <-. apply Hk. Qed.

Lemma sound_ret {A} (a : A) : sound (mret (M := M) a).
Proof. by apply mrel_ret. Qed.

Lemma sound_modify f : sound (modify f).
Proof. intros w e. by split. Qed.

Lemma sound_asks {A} (f : world → A) : sound (asks f).
Proof. intros w e. by split. Qed.

Lemma sound_sleep : sound sleep.
Proof. intros w [|f e]; by cbn. Qed.

Lemma sound_blocked {A} : sound (blocked (A := A)).
Proof. done. Qed.

Lemma sound_leave {A} d : sound (leave (A := A) d).
Proof. done. Qed.

Lemma sound_if {A} (b : bool) (m m' : M A) : sound m → sound m' → sound (if b then m else m').
Proof. by destruct b. Qed.

#[export] Hint Resolve sound_bind sound_ret sound_modify sound_asks sound_sleep sound_blocked sound_leave sound_if : shell.

Lemma sound_until_ n test : sound test → sound (sleep_until_ n test).
Proof. intros Ht. induction n; cbn; eauto 10 with shell. Qed.

Lemma sound_until test : sound test → sound (sleep_until test).
Proof. intros Ht w e. by apply sound_until_. Qed.

#[export] Hint Resolve sound_until : shell.

(** ** Output *)

Section Text.
Context (font_data : Z → Z).

(** The text on the devices of the active terminal. *)
Definition write (t : list Z) : M unit := on_tty (λ d, routed font_data (deref d (active_terminal d)) t d).

Lemma kprintf_routed fmt args t d :
  render (parse InText fmt) args = Some t →
  kprintf font_data fmt args d =
  Some (routed font_data (deref d (or_active d (active_terminal d))) t d, s32 (Z.of_nat (length t))).
Proof.
  intros E. unfold kprintf, tkvprintf, terminal_get_active. rewrite vprintf_renders, E.
  destruct (active_terminal d =? 0) eqn:E0; rewrite putchar_fold; unfold or_active; by rewrite E0.
Qed.

Lemma or_active_id d : or_active d (active_terminal d) = active_terminal d.
Proof. unfold or_active. case_if; done. Qed.

Lemma say_writes fmt args t :
  render (parse InText fmt) args = Some t → mrel eq (say font_data fmt args) (write t).
Proof.
  intros E w e. unfold say, asks, write, on_tty, modify, mbind, M_bind.
  rewrite (kprintf_routed _ _ _ _ E), or_active_id. done.
Qed.

Lemma say_sound fmt args : is_Some (render (parse InText fmt) args) → sound (say font_data fmt args).
Proof.
  intros [t E] w e. pose proof (say_writes _ _ _ E w e) as H.
  destruct (say font_data fmt args w e); cbn in *; try done.
  all: destruct (write t w e); try done.
Qed.
End Text.

(** ** Strings in arrays *)

Definition nonzero (t : list Z) : Prop := Forall (λ c, c ≠ 0) t.

(** The string [t] starts at index [p] of [a]. *)
Definition string_at (a : list Z) (p : Z) (t : list Z) : Prop :=
  ∃ pre post, a = pre ++ t ++ 0 :: post ∧ p = Z.of_nat (length pre) ∧ nonzero t.

Lemma get_app {A} (pre post : list A) c p :
  p = Z.of_nat (length pre) → get (pre ++ c :: post) p = mret c.
Proof.
  intros ->. unfold get. rewrite Nat2Z.id, list_lookup_middle by done.
  by replace (0 <=? Z.of_nat (length pre)) with true by lia.
Qed.

Lemma put_app {A} (pre post : list A) c d p :
  p = Z.of_nat (length pre) → put (pre ++ c :: post) p d = mret (pre ++ d :: post).
Proof.
  intros ->. unfold put. rewrite length_app, Nat2Z.id. cbn [length].
  replace ((0 <=? Z.of_nat (length pre)) && (Z.of_nat (length pre) <? Z.of_nat (length pre + S (length post))))
    with true by (symmetry; apply andb_true_iff; lia).
  by rewrite insert_app_r_alt, Nat.sub_diag by done.
Qed.

Lemma get_lookup {A} (a : list A) i c : 0 ≤ i → a !! Z.to_nat i = Some c → get a i = mret c.
Proof. intros Hi E. unfold get. rewrite E. by replace (0 <=? i) with true by lia. Qed.

Lemma string_at_nil a p : string_at a p [] → get a p = mret 0.
Proof. intros (pre & post & -> & Hp & _). by apply get_app. Qed.

Lemma string_at_cons a p c t :
  string_at a p (c :: t) → get a p = mret c ∧ c ≠ 0 ∧ string_at a (p + 1) t.
Proof.
  intros (pre & post & -> & Hp & [Hc Ht]%Forall_cons_1). split_and!; [by apply get_app|done|].
  exists (pre ++ [c]), post. rewrite <- app_assoc, length_app. cbn. split_and!; [done|lia|done].
Qed.

Lemma string_at_length a p t : string_at a p t → p + Z.of_nat (length t) < Z.of_nat (length a) ∧ 0 ≤ p.
Proof. intros (pre & post & -> & -> & _). rewrite !length_app. cbn. lia. Qed.

Lemma cstring_at n a p t : string_at a p t → (length t ≤ n)%nat → cstring n a p = mret t.
Proof.
  revert p t. induction n as [|n IH]; intros p [|c t] Ht Hn; cbn [length] in Hn; try lia; cbn [cstring].
  1, 2: rewrite (string_at_nil _ _ Ht), ret_bind; done.
  destruct (string_at_cons _ _ _ _ Ht) as (-> & Hc & Ht'). rewrite ret_bind.
  replace (c =? 0) with false by lia. rewrite (IH _ t Ht') by lia. done.
Qed.

Lemma count_chars_at n a p t :
  string_at a p t → (length t ≤ n)%nat → count_chars n a p = mret (p + Z.of_nat (length t)).
Proof.
  revert p t. induction n as [|n IH]; intros p [|c t] Ht Hn; cbn [length] in Hn; try lia; cbn [count_chars].
  1, 2: rewrite (string_at_nil _ _ Ht), ret_bind; cbn; by rewrite Z.add_0_r.
  destruct (string_at_cons _ _ _ _ Ht) as (-> & Hc & Ht'). rewrite ret_bind.
  replace (c =? 0) with false by lia. rewrite (IH _ t Ht') by lia. f_equal. cbn [length]. lia.
Qed.

Lemma str_equal_at a p t b : string_at a p t → nonzero b → str_equal a p b = mret (bool_decide (t = b)).
Proof.
  revert p t. induction b as [|d b IH]; intros p [|c t] Ht Hb; cbn [str_equal].
  - by rewrite (string_at_nil _ _ Ht), ret_bind.
  - destruct (string_at_cons _ _ _ _ Ht) as (-> & Hc & _). rewrite ret_bind.
    by replace (c =? 0) with false by lia.
  - apply Forall_cons_1 in Hb as [Hd _]. rewrite (string_at_nil _ _ Ht), ret_bind. cbn.
    by destruct d.
  - apply Forall_cons_1 in Hb as [Hd Hb]. destruct (string_at_cons _ _ _ _ Ht) as (-> & Hc & Ht').
    rewrite ret_bind. replace (c =? 0) with false by lia. destruct (Z.eqb_spec c d) as [->|Hne]; cbn [negb].
    + rewrite (IH _ t Ht' Hb). f_equal. apply bool_decide_ext. split; [by intros ->|by intros [= ->]].
    + rewrite bool_decide_false; [done|]. by intros [= ? _].
Qed.

(** [a] is an array of the input size that holds [t]. *)
Definition holds (a t : list Z) : Prop :=
  length a = 256%nat ∧ string_at a 0 t.

Lemma copy_loop n src dst i t pre :
  string_at src i t → i = Z.of_nat (length pre) → (length pre + length t < 256)%nat →
  (∃ rest, dst = pre ++ rest) → length dst = 256%nat → nonzero pre → (length t ≤ n)%nat →
  ∃ dst', str_copy_loop n dst src i 256 = mret dst' ∧ holds dst' (pre ++ t).
Proof.
  revert dst i t pre. induction n as [|n IH]; intros dst i t pre Ht Hi Hl [rest ->] Hd Hp Hn.
  all: rewrite length_app in Hd; destruct rest as [|r rest]; [cbn in Hd; lia|].
  all: destruct t as [|c t]; cbn [length] in *; try lia; cbn [str_copy_loop].
  1, 2: rewrite (string_at_nil _ _ Ht), ret_bind; cbn; rewrite put_app by done;
    eexists; split; [done|]; split; [rewrite length_app; cbn; lia|];
    exists [], rest; rewrite app_nil_r; done.
  destruct (string_at_cons _ _ _ _ Ht) as (-> & Hc & Ht'). rewrite ret_bind.
  replace (negb (c =? 0) && (i <? 256 - 1)) with true by (symmetry; apply andb_true_iff; lia).
  rewrite put_app, ret_bind by done.
  destruct (IH (pre ++ c :: rest) (i + 1) t (pre ++ [c])) as (dst' & E & Hh); [done|rewrite length_app; cbn; lia|rewrite length_app; cbn; lia| | | |lia|].
  - exists rest. by rewrite <- app_assoc.
  - rewrite length_app. cbn. lia.
  - by apply Forall_app; split; [|apply Forall_cons_2; [|apply Forall_nil_2]].
  - exists dst'. split; [done|]. by rewrite <- app_assoc in Hh.
Qed.

Lemma str_copy_holds dst src t :
  length dst = 256%nat → holds src t → ∃ dst', str_copy dst src KSHELL_MAX_INPUT = mret dst' ∧ holds dst' t.
Proof.
  intros Hd [Hs Ht]. destruct (string_at_length _ _ _ Ht) as [Hl _].
  destruct (copy_loop 256 src dst 0 t []) as (dst' & E & Hh); [done|done|cbn; lia|by exists dst|done|apply Forall_nil_2|lia|].
  by exists dst'.
Qed.

(** ** Words *)

(** The pieces between the spaces of a line, and those that are not empty. *)
Fixpoint pieces (l : list Z) : list (list Z) :=
  match l with
  | [] => [[]]
  | c :: l =>
      if c =? 32 then [] :: pieces l
      else match pieces l with
           | w :: ws => (c :: w) :: ws
           | [] => [[c]]
           end
  end.

Definition words (l : list Z) : list (list Z) := filter (λ w, w ≠ []) (pieces l).

Definition spaceless (w : list Z) : Prop := Forall (λ c, c ≠ 32) w.

Lemma words_spaces n l : words (repeat 32 n ++ l) = words l.
Proof.
  induction n as [|n IH]; [done|]. rewrite <- IH. unfold words. cbn [repeat app pieces].
  cbn [Z.eqb Pos.eqb]. by rewrite filter_cons_False by auto.
Qed.

Lemma pieces_word w l : spaceless w → pieces (w ++ 32 :: l) = w :: pieces l.
Proof. induction 1 as [|c w Hc _ IH]; [done|]. cbn. replace (c =? 32) with false by lia. by rewrite IH. Qed.

Lemma pieces_last w : spaceless w → pieces w = [w].
Proof. induction 1 as [|c w Hc _ IH]; [done|]. cbn. replace (c =? 32) with false by lia. by rewrite IH. Qed.

Lemma words_word w l : w ≠ [] → spaceless w → words (w ++ 32 :: l) = w :: words l.
Proof. intros Hw Hs. unfold words. by rewrite pieces_word, filter_cons_True. Qed.

Lemma words_last w : w ≠ [] → spaceless w → words w = [w].
Proof. intros Hw Hs. unfold words. by rewrite pieces_last, filter_cons_True. Qed.

(** A line is spaces, then nothing, a last word, or a word and a space. *)
Lemma split_spaces l : ∃ n l', l = repeat 32 n ++ l' ∧ ∀ c l'', l' = c :: l'' → c ≠ 32.
Proof.
  induction l as [|c l (n & l' & -> & Hl)]; [by exists O, []|]. destruct (decide (c = 32)) as [->|Hc].
  - by exists (S n), l'.
  - exists O, (c :: repeat 32 n ++ l'). split; [done|]. by intros ?? [= <- _].
Qed.

Lemma split_word l : ∃ w l', l = w ++ l' ∧ spaceless w ∧ (l' = [] ∨ ∃ l'', l' = 32 :: l'').
Proof.
  induction l as [|c l (w & l' & -> & Hw & Hl)]; [exists [], []; split_and!; [done|apply Forall_nil_2|by left]|].
  destruct (decide (c = 32)) as [->|Hc].
  - exists [], (32 :: w ++ l'). split_and!; [done|apply Forall_nil_2|right; by eexists].
  - exists (c :: w), l'. split_and!; [done|by apply Forall_cons_2|done].
Qed.

Lemma skip_spaces_run n k pre c post p :
  p = Z.of_nat (length pre) → c ≠ 32 → (k ≤ n)%nat →
  skip_spaces n (pre ++ repeat 32 k ++ c :: post) p = mret (p + Z.of_nat k).
Proof.
  revert k pre p. induction n as [|n IH]; intros [|k] pre p Hp Hc Hk; cbn [skip_spaces repeat app]; try lia.
  1, 2: rewrite get_app, ret_bind by done; replace (c =? 32) with false by lia; by rewrite Z.add_0_r.
  rewrite get_app, ret_bind by done. cbn. change (32 :: ?x) with ([32] ++ x). rewrite app_assoc.
  rewrite (IH k (pre ++ [32])); [f_equal; lia|rewrite length_app; cbn; lia|done|lia].
Qed.

Lemma skip_word_run n w pre c post p :
  p = Z.of_nat (length pre) → c = 0 ∨ c = 32 → nonzero w → spaceless w → (length w ≤ n)%nat →
  skip_word n (pre ++ w ++ c :: post) p = mret (p + Z.of_nat (length w)).
Proof.
  revert w pre p. induction n as [|n IH]; intros [|x w] pre p Hp Hc Hz Hs Hk; cbn [length] in Hk; cbn [skip_word app]; try lia.
  1, 2: rewrite get_app, ret_bind by done; replace (negb (c =? 0) && negb (c =? 32)) with false by lia; by rewrite Z.add_0_r.
  apply Forall_cons_1 in Hz as [Hx Hz], Hs as [Hx' Hs].
  rewrite get_app, ret_bind by done. replace (negb (x =? 0) && negb (x =? 32)) with true by lia.
  change (x :: ?y) with ([x] ++ y). rewrite app_assoc.
  rewrite (IH w (pre ++ [x])); [f_equal; rewrite length_app; cbn; lia|rewrite length_app; cbn; lia|done|done|done|lia].
Qed.

Lemma string_at_app a b p t : string_at a p t → string_at (a ++ b) p t.
Proof.
  intros (pre & post & -> & Hp & Ht). exists pre, (post ++ b). by rewrite <- !app_assoc.
Qed.

Lemma strings_app a b argv ws : Forall2 (string_at a) argv ws → Forall2 (string_at (a ++ b)) argv ws.
Proof. intros H. eapply Forall2_impl; [|exact H]. intros. by apply string_at_app. Qed.

(** The rounds of the loop: nothing left to do, only spaces left, a word. *)
Lemma parse_stop fuel a p argv mx c :
  get a p = mret c → c = 0 ∨ mx ≤ Z.of_nat (length argv) → parse_loop fuel a p argv mx = mret (argv, a).
Proof.
  intros E H. destruct fuel; cbn [parse_loop]; rewrite E, ret_bind;
    by replace (negb (c =? 0) && (Z.of_nat (length argv) <? mx)) with false by lia.
Qed.

Lemma first_char k w d (pre post : list Z) :
  ∃ c rest, pre ++ repeat 32 k ++ w ++ d :: post = pre ++ c :: rest ∧ (nonzero w → (k ≠ 0)%nat ∨ w ≠ [] → c ≠ 0).
Proof.
  destruct k as [|k]; [destruct w as [|c w]|].
  - exists d, post. split; [done|]. by intros _ [?|?].
  - exists c, (w ++ d :: post). split; [done|]. by intros [Hc _]%Forall_cons_1 _.
  - by exists 32, (repeat 32 k ++ w ++ d :: post).
Qed.

Lemma parse_blank fuel pre k post argv mx :
  (k ≠ 0)%nat → Z.of_nat (length argv) < mx →
  let a := pre ++ repeat 32 k ++ 0 :: post in
  parse_loop fuel a (Z.of_nat (length pre)) argv mx = mret (argv, a).
Proof.
  intros Hk Hn a. destruct (first_char k [] 0 pre post) as (c & rest & E & Hc).
  assert (Hg : get a (Z.of_nat (length pre)) = mret c) by (unfold a; cbn [app] in E; rewrite E; by apply get_app).
  assert (Hs : skip_spaces (length a) a (Z.of_nat (length pre)) = mret (Z.of_nat (length pre) + Z.of_nat k)).
  { apply skip_spaces_run; [done|done|]. unfold a. rewrite !length_app, repeat_length. lia. }
  assert (He : get a (Z.of_nat (length pre) + Z.of_nat k) = mret 0).
  { unfold a. rewrite app_assoc. apply get_app. rewrite length_app, repeat_length. lia. }
  destruct fuel; cbn [parse_loop]; rewrite Hg, ret_bind;
    replace (negb (c =? 0) && (Z.of_nat (length argv) <? mx)) with true
      by (specialize (Hc (Forall_nil_2 _) (or_introl Hk)); lia);
    by rewrite Hs, ret_bind, He, ret_bind.
Qed.

Lemma parse_word fuel pre k w d post argv mx :
  d = 0 ∨ d = 32 → w ≠ [] → nonzero w → spaceless w → Z.of_nat (length argv) < mx →
  let a e := pre ++ repeat 32 k ++ w ++ e :: post in
  let q := Z.of_nat (length pre) + Z.of_nat k in
  parse_loop (S fuel) (a d) (Z.of_nat (length pre)) argv mx =
  if d =? 0 then parse_loop fuel (a d) (q + Z.of_nat (length w)) (argv ++ [q]) mx
  else parse_loop fuel (a 0) (q + Z.of_nat (length w) + 1) (argv ++ [q]) mx.
Proof.
  intros Hd Hw Hz Hs Hn a q. destruct (first_char k w d pre post) as (c & rest & E & Hc).
  assert (Hg : get (a d) (Z.of_nat (length pre)) = mret c) by (unfold a; rewrite E; by apply get_app).
  destruct w as [|x w']; [done|]. set (w := x :: w') in *.
  assert (Hx : x ≠ 0 ∧ x ≠ 32) by (split; [by apply Forall_cons_1 in Hz as []|by apply Forall_cons_1 in Hs as []]).
  assert (Hl : Z.of_nat (length (pre ++ repeat 32 k)) = q) by (rewrite length_app, repeat_length; lia).
  assert (Hk : skip_spaces (length (a d)) (a d) (Z.of_nat (length pre)) = mret q).
  { apply skip_spaces_run; [done|lia|]. unfold a. rewrite !length_app, repeat_length. lia. }
  assert (Hq : get (a d) q = mret x) by (unfold a; rewrite app_assoc; by apply get_app).
  assert (Hsw : skip_word (length (a d)) (a d) q = mret (q + Z.of_nat (length w))).
  { unfold a at 2. rewrite app_assoc. apply skip_word_run; [done..|]. unfold a. rewrite !length_app. lia. }
  assert (Hl2 : q + Z.of_nat (length w) = Z.of_nat (length ((pre ++ repeat 32 k) ++ w))) by (rewrite length_app; lia).
  assert (He : get (a d) (q + Z.of_nat (length w)) = mret d) by (unfold a; rewrite !app_assoc; by apply get_app).
  assert (Hp : put (a d) (q + Z.of_nat (length w)) 0 = mret (a 0)) by (unfold a; rewrite !app_assoc; by apply put_app).
  cbn [parse_loop]. rewrite Hg, ret_bind.
  replace (negb (c =? 0) && (Z.of_nat (length argv) <? mx)) with true by (specialize (Hc Hz (or_intror Hw)); lia).
  rewrite Hk, ret_bind, Hq, ret_bind. replace (x =? 0) with false by lia.
  rewrite Hsw, ret_bind, He, ret_bind. destruct Hd as [-> | ->]; cbn [Z.eqb negb]; [done|]. by rewrite Hp, ret_bind.
Qed.

(** What the loop returns from a state: [pre] is the part of the buffer before
    [p], which holds the words [ws] found so far, [l] the rest of the line. *)
Definition parses (fuel : nat) (pre l post argv : list Z) (ws : list (list Z)) (n : nat) : Prop :=
  ∃ argv' a', parse_loop fuel (pre ++ l ++ 0 :: post) (Z.of_nat (length pre)) argv (Z.of_nat n) = mret (argv', a') ∧
    length a' = length (pre ++ l ++ 0 :: post) ∧ Forall2 (string_at a') argv' (take n (ws ++ words l)).

Lemma parses_stop fuel pre l post argv ws n :
  Forall2 (string_at pre) argv ws → (length ws ≤ n)%nat → l = [] ∨ length ws = n → parses fuel pre l post argv ws n.
Proof.
  intros Hws Hn Hl. pose proof (Forall2_length Hws) as Hlen.
  destruct (first_char 0 l 0 pre post) as (c & rest & E & _). cbn [repeat app] in E.
  exists argv, (pre ++ l ++ 0 :: post). split_and!; [|done|].
  - destruct Hl as [-> | Hl].
    + apply (parse_stop _ _ _ _ _ 0); [by apply get_app|by left].
    + apply (parse_stop _ _ _ _ _ c); [rewrite E; by apply get_app|lia].
  - assert (take n (ws ++ words l) = ws) as ->; [|by apply strings_app].
    destruct Hl as [-> | Hl]; [rewrite app_nil_r|];
      [by apply take_ge|by apply take_app_length'].
Qed.

Lemma parses_blank fuel pre k post argv ws n :
  (k ≠ 0)%nat → Forall2 (string_at pre) argv ws → (length ws < n)%nat → parses fuel pre (repeat 32 k) post argv ws n.
Proof.
  intros Hk Hws Hn. pose proof (Forall2_length Hws) as Hlen. exists argv. eexists. split_and!.
  - apply parse_blank; [done|lia].
  - done.
  - rewrite <- (app_nil_r (repeat 32 k)) at 2. rewrite words_spaces. cbn. rewrite app_nil_r, take_ge by lia.
    by apply strings_app.
Qed.

Lemma string_here (pre w post : list Z) : nonzero w → string_at (pre ++ w ++ 0 :: post) (Z.of_nat (length pre)) w.
Proof. intros Hw. by exists pre, post. Qed.

Section Word.
Context (fuel : nat) (pre : list Z) (k : nat) (w post argv : list Z) (ws : list (list Z)) (n : nat).
Context (Hw : w ≠ []) (Hz : nonzero w) (Hs : spaceless w) (Hws : Forall2 (string_at pre) argv ws) (Hn : (length ws < n)%nat).

Let q : Z := Z.of_nat (length pre) + Z.of_nat k.

(** The pointer to the word joins those found before. *)
Lemma word_found rest :
  Forall2 (string_at ((pre ++ repeat 32 k ++ w ++ [0]) ++ rest)) (argv ++ [q]) (ws ++ [w]).
Proof using Hz Hws.
  apply Forall2_app; [apply strings_app, strings_app, Hws|]. constructor; [|constructor].
  apply string_at_app. rewrite app_assoc. exists (pre ++ repeat 32 k), []. split_and!; [done| |done].
  clear Hn. rewrite length_app, repeat_length. lia.
Qed.

Lemma parses_last : parses (S fuel) pre (repeat 32 k ++ w) post argv ws n.
Proof.
  pose proof (Forall2_length Hws) as Hlen. pose proof (word_found post) as Hf.
  exists (argv ++ [q]), (pre ++ (repeat 32 k ++ w) ++ 0 :: post). split_and!; [|done|].
  - rewrite <- app_assoc, parse_word by (auto; lia). cbn [Z.eqb]. eapply (parse_stop _ _ _ _ _ 0); [|by left].
    rewrite !app_assoc. apply get_app. rewrite !length_app, repeat_length. lia.
  - rewrite words_spaces, words_last, take_ge by (done || (rewrite length_app; cbn; lia)).
    rewrite <- !app_assoc in Hf. rewrite <- app_assoc. exact Hf.
Qed.

Lemma parses_next l :
  parses fuel (pre ++ repeat 32 k ++ w ++ [0]) l post (argv ++ [q]) (ws ++ [w]) n →
  parses (S fuel) pre (repeat 32 k ++ w ++ 32 :: l) post argv ws n.
Proof.
  pose proof (Forall2_length Hws) as Hlen. intros (argv' & a' & E & El & Ha). exists argv', a'. split_and!.
  - rewrite <- !app_assoc. cbn [app]. rewrite parse_word by (auto; lia). cbn [Z.eqb Pos.eqb]. rewrite <- E.
    f_equal; [by rewrite <- !app_assoc|]. rewrite !length_app, repeat_length. cbn [length]. lia.
  - rewrite El, !length_app. cbn [length]. rewrite ?length_app. cbn [length]. lia.
  - rewrite words_spaces, words_word by done. by rewrite <- app_assoc in Ha.
Qed.
End Word.

Lemma parse_loop_words fuel pre l post argv ws n :
  nonzero l → Forall2 (string_at pre) argv ws → (length ws ≤ n ≤ fuel + length ws)%nat →
  parses fuel pre l post argv ws n.
Proof.
  revert pre l argv ws. induction fuel as [|fuel IH]; intros pre l argv ws Hl Hws Hn; [apply parses_stop; [done|lia..]|].
  destruct (decide (length ws = n)); [by apply parses_stop; [|lia|right]|].
  destruct (split_spaces l) as (k & l' & -> & Hl'). apply Forall_app in Hl as [_ Hl].
  destruct (split_word l') as (w & l'' & -> & Hs & Hrest). apply Forall_app in Hl as [Hw Hl''].
  destruct w as [|x w'].
  { assert (l'' = []) as -> by (destruct Hrest as [->|[? ->]]; [done|by destruct (Hl' 32 _ eq_refl)]).
    rewrite app_nil_l, app_nil_r. destruct k; [apply parses_stop; auto with lia|apply parses_blank; auto with lia]. }
  destruct Hrest as [-> | [l3 ->]].
  - rewrite app_nil_r. apply parses_last; auto with lia.
  - apply Forall_cons_1 in Hl'' as [_ Hl3]. apply parses_next; [done..|lia|]. apply IH; [done| |rewrite length_app; cbn; lia].
    pose proof (word_found pre k (x :: w') argv ws Hw Hws []) as Hf. by rewrite app_nil_r in Hf.
Qed.

(** The arguments are the first words of the line, at most sixteen. *)
Lemma parse_command_words a l :
  holds a l →
  ∃ argv a', parse_command a KSHELL_MAX_ARGS = mret (argv, a') ∧ length a' = 256%nat ∧
    Forall2 (string_at a') argv (take 16 (words l)).
Proof.
  intros [Hl (pre & post & -> & Hp & Hz)]. destruct pre; [|cbn in Hp; lia].
  destruct (parse_loop_words 16 [] l post [] [] 16) as (argv & a' & E & El & Ha); [done|constructor|cbn; lia|].
  exists argv, a'. split_and!; [exact E|by rewrite El|done].
Qed.

(** ** The editor *)

Record editor := Editor {
  line : list Z;
  past : list (list Z);
  browsing : option nat;
  stash : list Z;
}.

Definition empty_editor : editor := Editor [] [] None [].

Definition lookup_command (name : list Z) : option command :=
  snd <$> find (λ row, bool_decide (name = row.1.1)) commands.

Fixpoint join (ws : list (list Z)) : list Z :=
  match ws with
  | [] => []
  | w :: ws => w ++ match ws with [] => [] | _ => 32 :: join ws end
  end.

Section Editor.
Context (font_data : Z → Z) (fx : facts).

(** Of the commands only [echo] looks at its arguments. *)
Definition run_words (c : command) (ws : list (list Z)) : M unit :=
  match c with
  | cmd_echo => write font_data (join (tail ws) ++ [10])
  | _ => run_command font_data fx c [] []
  end.

Definition unknown (name : list Z) : M unit :=
  set_color KSHELL_ERROR_COLOR;; write font_data (str "Unknown command: " ++ name ++ [10]);;
  set_color KSHELL_INPUT_COLOR.

Definition command_line (l : list Z) : M unit :=
  match take 16 (words l) with
  | [] => mret tt
  | name :: ws =>
      match lookup_command name with
      | Some c => run_words c (name :: ws)
      | None => unknown name
      end
  end.

Definition prompt : M unit :=
  set_color KSHELL_PROMPT_COLOR;; write font_data KSHELL_PROMPT;; set_color KSHELL_INPUT_COLOR.

(** The shown line is rubbed out and [t] takes its place. *)
Definition ed_show (t : list Z) (b : option nat) (keep : list Z) (ed : editor) : M editor :=
  write font_data (concat (repeat rubout (length (line ed))) ++ t);; mret (Editor t (past ed) b keep).

Definition ed_prev (ed : editor) : M editor :=
  match browsing ed with
  | None => match past ed with [] => mret ed | t :: _ => ed_show t (Some O) (line ed) ed end
  | Some b => match past ed !! S b with None => mret ed | Some t => ed_show t (Some (S b)) (stash ed) ed end
  end.

Definition ed_next (ed : editor) : M editor :=
  match browsing ed with
  | None => mret ed
  | Some O => ed_show (stash ed) None (stash ed) ed
  | Some (S b) => match past ed !! b with None => mret ed | Some t => ed_show t (Some b) (stash ed) ed end
  end.

Definition ed_enter (ed : editor) : M editor :=
  write font_data [10];;
  past ← (match line ed with
          | [] => mret (past ed)
          | l => command_line l;; mret (take 16 (l :: past ed))
          end);
  prompt;; mret (Editor [] past None (stash ed)).

Definition scroll (f : Z → console → console) : M unit :=
  on_tty (λ d, set_con (f (screen_rows (dev_con d) - 1) (dev_con d)) d).

Definition ed_key (c : Z) (ed : editor) : M editor :=
  if c =? -1 then sleep;; mret ed
  else if c =? KEY_PAGEUP then scroll (console_scroll_back font_data);; mret ed
  else if c =? KEY_PAGEDOWN then scroll (console_scroll_forward font_data);; mret ed
  else
    on_tty (λ d, if console_is_scrolled_back (dev_con d)
                 then set_con (console_scroll_to_bottom font_data (dev_con d)) d else d);;
    if c =? KEY_ENTER then ed_enter ed
    else if c =? KEY_BACKSPACE then
      match line ed with
      | [] => mret ed
      | l => write font_data rubout;; mret (Editor (removelast l) (past ed) (browsing ed) (stash ed))
      end
    else if c =? KEY_UP then ed_prev ed
    else if c =? KEY_DOWN then ed_next ed
    else if (32 <=? c) && (c <? 127) then
      if (length (line ed) <? 255)%nat
      then write font_data [c];; mret (Editor (line ed ++ [c]) (past ed) (browsing ed) (stash ed))
      else mret ed
    else mret ed.

Fixpoint ed_loop (n : nat) (ed : editor) : M editor :=
  match n with
  | O => mret ed
  | S n => c ← get_key; ed ← ed_key c ed; ed_loop n ed
  end.

Definition welcome : M unit :=
  write font_data ([10] ++ strn "Welcome to SeedOS!" ++ str "Type 'help' for available commands." ++ [10; 10]);; prompt.

Definition ed_run (n : nat) : M editor := welcome;; ed_loop n empty_editor.
End Editor.

(** The arrays hold the strings of the editor; the ring of earlier lines is
    read backwards from its write position. *)
Record shell_rel (s : shell) (ed : editor) : Prop := {
  rel_line : holds (input_buffer s) (line ed);
  rel_len : input_len s = Z.of_nat (length (line ed));
  rel_rows : length (history s) = 16%nat ∧ Forall (λ row, length row = 256%nat) (history s);
  rel_count : history_count s = Z.of_nat (length (past ed)) ∧ (length (past ed) ≤ 16)%nat;
  rel_pos : 0 ≤ history_pos s < 16;
  rel_past : ∀ k t, past ed !! k = Some t →
    ∃ row, history s !! Z.to_nat ((history_pos s - 1 - Z.of_nat k) mod 16) = Some row ∧ holds row t;
  rel_browse : match browsing ed with
               | None => history_browse s = -1
               | Some b => history_browse s = Z.of_nat b ∧ (b < length (past ed))%nat
               end;
  rel_saved : holds (saved_input s) (stash ed);
}.

(** ** Commands *)

(** The arguments a directive takes are there, and of the right kind. *)
Fixpoint fits (ds : list directive) (args : list arg) : bool :=
  match ds with
  | [] => true
  | Lit _ :: ds => fits ds args
  | Conv c _ _ _ _ :: ds =>
      if c =? 115 then match args with AStr _ :: args => fits ds args | _ => false end
      else if existsb (Z.eqb c) [99; 100; 105; 117; 120; 88; 111; 98; 112]
      then match args with AWord _ :: args => fits ds args | _ => false end
      else fits ds args
  end.

Lemma fits_render ds args : fits ds args = true → is_Some (render ds args).
Proof.
  revert args. induction ds as [|[c|c n w z l] ds IH]; intros args H; [by eexists| |].
  - destruct (IH args H) as [t E]. cbn. rewrite E. by eexists.
  - cbn [fits] in H. cbn [render]. unfold render_one. destruct (Z.eqb_spec c 115) as [->|H115].
    { destruct args as [|[|s] args]; try done. destruct (IH args H) as [t E]. cbn. rewrite E. by eexists. }
    destruct (existsb _ _) eqn:Ex.
    + destruct args as [|[v|] args]; try done. destruct (IH args H) as [t E].
      apply existsb_exists in Ex as (x & Hx & ->%Z.eqb_eq).
      repeat (destruct Hx as [<-|Hx]; [cbn; rewrite E; by eexists|]). done.
    + destruct (IH args H) as [t E]. cbn [existsb] in Ex. bool_props.
      repeat match goal with Hne : c ≠ _ |- _ => rewrite (proj2 (Z.eqb_neq _ _) Hne); clear Hne end.
      cbn. destruct (c =? 37); cbn; rewrite E; by eexists.
Qed.

Section Refine.
Context (font_data : Z → Z) (fx : facts).

Lemma write_app a b w e : (write font_data a;; write font_data b) w e = write font_data (a ++ b) w e.
Proof.
  unfold write, on_tty, modify, mbind, M_bind. by rewrite routed_app.
Qed.

Lemma write_nil w e : write font_data [] w e = Ret tt w e.
Proof.
  unfold write, on_tty, modify. f_equal. destruct w as [[ts a cn [l z]] k x t th]. cbn. f_equal.
  unfold routed, con_out, ser_out. cbn. rewrite app_nil_r. by repeat case_if.
Qed.

(** Replace an output by the text it writes. *)
Lemma say_then {A B} (R : A → B → Prop) fmt args t (k : M A) (m : M B) :
  render (parse InText fmt) args = Some t →
  mrel R (write font_data t;; k) m → mrel R (say font_data fmt args;; k) m.
Proof.
  intros E H w e. specialize (H w e). revert H. unfold mbind, M_bind.
  pose proof (say_writes font_data _ _ _ E w e) as Hs.
  destruct (say font_data fmt args w e); cbn in Hs; [|done..].
  destruct Hs as (_ & -> & ->). done.
Qed.

Lemma write_join {A B} (R : A → B → Prop) t1 t2 (k : M A) (m : M B) :
  mrel R (write font_data (t1 ++ t2);; k) m → mrel R (write font_data t1;; write font_data t2;; k) m.
Proof.
  intros H w e. specialize (H w e). revert H. unfold write, on_tty, modify, mbind, M_bind. by rewrite routed_app.
Qed.

Lemma say_text fmt args : fits (parse InText fmt) args = true → sound (say font_data fmt args).
Proof. intros H. by apply say_sound, fits_render. Qed.

Ltac says := repeat lazymatch goal with
  | |- mrel eq (say _ _ _) _ => apply say_text; vm_compute; reflexivity
  | |- mrel eq (sleep_until _) _ => apply sound_until
  | |- mrel eq (modify _) _ => apply sound_modify
  | |- mrel eq (on_tty _) _ => apply sound_modify
  | |- mrel eq (on_rain _) _ => apply sound_modify
  | |- mrel eq (on_tests _) _ => apply sound_modify
  | |- mrel eq (kthread_create_ _) _ => apply sound_modify
  | |- mrel eq (asks _) _ => apply sound_asks
  | |- mrel eq sleep _ => apply sound_sleep
  | |- mrel eq (mret _) _ => apply sound_ret
  | |- mrel eq (leave _) _ => apply sound_leave
  | |- mrel eq (if _ then _ else _) _ => apply sound_if
  | |- mrel eq (mbind _ _) _ => apply sound_bind; [|intros ?]
  end.

Lemma help_sound : sound (run_help font_data).
Proof. unfold run_help, commands. says. cbn [help_rows]. says. Qed.

Lemma get_key_sound : sound get_key.
Proof. intros w e. unfold get_key. destruct (keyboard_getchar (w_kbd w)). by cbn. Qed.

Lemma start_sound : sound (start_rain fx).
Proof. intros w e. unfold start_rain. destruct (matrix_start _ _ _) as [[x con] ids]. by cbn. Qed.

Lemma run_command_sound c argv a : c ≠ cmd_echo → sound (run_command font_data fx c argv a).
Proof.
  intros Hc. destruct c; cbn [run_command].
  - apply help_sound.
  - apply sound_modify.
  - by destruct Hc.
  - unfold run_version. says.
  - unfold run_meminfo. says.
  - unfold run_reboot. says.
  - unfold run_matrix, stop_rain, read_key. says; try apply get_key_sound; apply start_sound.
  - unfold run_spintest. says.
  - unfold run_mutextest. says.
  - unfold run_condtest. says.
  - unfold run_init, usage. destruct (ext2_lookup _ _ _ _); [|apply sound_blocked]. cbn zeta.
    says. destruct (ext2_read_file _ _ _ _ _ _) as [k m]. says.
Qed.
End Refine.

Section Words.
Context (font_data : Z → Z) (fx : facts).

Lemma mrel_trans {A B C} (R : A → B → Prop) (Q : B → C → Prop) (P : A → C → Prop) (m : M A) m' m'' :
  (∀ a b c, R a b → Q b c → P a c) → mrel R m m' → mrel Q m' m'' → mrel P m m''.
Proof.
  intros HP H1 H2 w e. specialize (H1 w e). specialize (H2 w e).
  destruct (m w e), (m' w e), (m'' w e); cbn in *; try done; naive_solver.
Qed.

Lemma render_str s : render (parse InText (str "%s")) [AStr (Some s)] = Some s.
Proof. change (Some (field 0 false false [] s ++ []) = Some s). by rewrite field_0, app_nil_r. Qed.

Lemma render_str2 s t : render (parse InText (str "%s%s")) [AStr (Some s); AStr (Some t)] = Some (s ++ t).
Proof.
  change (Some (field 0 false false [] s ++ field 0 false false [] t ++ []) = Some (s ++ t)).
  by rewrite !field_0, app_nil_r.
Qed.

Lemma render_char c : 32 ≤ c < 127 → render (parse InText (str "%c")) [AWord c] = Some [c].
Proof.
  intros Hc. change (Some ([s8 (s32 c)] ++ []) = Some [c]).
  rewrite s32_small by (change (2 ^ 31) with 2147483648; lia). unfold s8. by rewrite swrap_small by (cbn; lia).
Qed.

(** Writing [t1] and then what amounts to [t2]. *)
Lemma write_both (m0 m : M unit) t1 t2 t :
  mrel eq m0 (write font_data t1) → mrel eq m (write font_data t2) → t1 ++ t2 = t →
  mrel eq (m0;; m) (write font_data t).
Proof.
  intros H0 Hm <-. eapply (mrel_trans eq eq); [congruence| |].
  - apply (mrel_bind eq eq _ (write font_data t1) _ (λ _, write font_data t2)); [exact H0|by intros].
  - intros w e. rewrite write_app. apply sound_modify.
Qed.

(** The words from index [i] on, separated by spaces. *)
Lemma echo_writes n i argv a ws :
  Forall2 (string_at a) argv ws → (i + n = length ws)%nat →
  mrel eq (echo_loop font_data n (Z.of_nat i) argv a) (write font_data (join (drop i ws))).
Proof.
  intros Hws. pose proof (Forall2_length Hws) as Hlen. revert i. induction n as [|n IH]; intros i Hi.
  - rewrite drop_ge by lia. intros w e. cbn [echo_loop]. rewrite write_nil. by split.
  - destruct (lookup_lt_is_Some_2 ws i) as [t Ht]; [lia|].
    destruct (Forall2_lookup_r _ _ _ _ _ Hws Ht) as (p & Hp & Hs).
    rewrite (drop_S _ _ _ Ht). cbn [echo_loop join].
    rewrite (get_lookup argv (Z.of_nat i) p) by (rewrite ?Nat2Z.id; done || lia). rewrite ret_bind.
    destruct (string_at_length _ _ _ Hs) as [Hl Hp0]. rewrite (cstring_at _ _ _ t Hs) by lia. rewrite ret_bind.
    replace (Z.of_nat i + 1) with (Z.of_nat (S i)) by lia.
    eapply write_both; [apply say_writes, render_str2|apply IH; lia|]. rewrite <- app_assoc. f_equal.
    destruct (drop (S i) ws) as [|u us] eqn:Ed.
    + assert (length (drop (S i) ws) = 0%nat) as Hd by (by rewrite Ed). rewrite length_drop in Hd.
      replace (Z.of_nat i <? Z.of_nat (length argv) - 1) with false by lia. done.
    + assert (length (drop (S i) ws) ≠ 0%nat) as Hd by (by rewrite Ed). rewrite length_drop in Hd.
      replace (Z.of_nat i <? Z.of_nat (length argv) - 1) with true by lia. done.
Qed.

Lemma echo_text argv a ws :
  Forall2 (string_at a) argv ws → ws ≠ [] →
  mrel eq (run_echo font_data argv a) (write font_data (join (tail ws) ++ [10])).
Proof.
  intros Hws Hne. pose proof (Forall2_length Hws) as Hlen. destruct ws as [|w0 ws]; [done|]. unfold run_echo.
  eapply write_both; [apply (echo_writes _ 1 _ _ _ Hws); cbn in *; lia|by apply say_writes|done].
Qed.

(** ** The command line *)

Lemma find_command_words rows argv a p name :
  get argv 0 = mret p → string_at a p name → Forall (λ row, nonzero row.1.1) rows →
  find_command rows argv a = mret (snd <$> find (λ row, bool_decide (name = row.1.1)) rows).
Proof.
  intros Hp Hs. induction rows as [|[[n h] c] rows IH]; intros Hr; [done|].
  apply Forall_cons_1 in Hr as [Hn Hr]. cbn [find_command find fst]. rewrite Hp, ret_bind.
  rewrite (str_equal_at _ _ _ n Hs Hn), ret_bind. case_bool_decide; [done|]. by apply IH.
Qed.

Lemma commands_named : Forall (λ row : list Z * list Z * command, nonzero row.1.1) commands.
Proof. unfold commands. repeat constructor; discriminate. Qed.

Lemma render_unknown name :
  render (parse InText (strn "Unknown command: %s")) [AStr (Some name)] = Some (str "Unknown command: " ++ name ++ [10]).
Proof.
  change (Some (str "Unknown command: " ++ field 0 false false [] name ++ [10]) =
          Some (str "Unknown command: " ++ name ++ [10])).
  by rewrite field_0.
Qed.

Lemma run_words_other c ws : c ≠ cmd_echo → run_words font_data fx c ws = run_command font_data fx c [] [].
Proof. intros Hc. destruct c; first [by destruct Hc|reflexivity]. Qed.

Lemma run_command_args c argv a : c ≠ cmd_echo → run_command font_data fx c argv a = run_command font_data fx c [] [].
Proof. intros Hc. destruct c; cbn [run_command]; first [by destruct Hc|reflexivity]. Qed.

Lemma run_command_words c argv a ws :
  Forall2 (string_at a) argv ws → ws ≠ [] →
  mrel eq (run_command font_data fx c argv a) (run_words font_data fx c ws).
Proof.
  intros Hws Hne. assert (c = cmd_echo ∨ c ≠ cmd_echo) as [->|Hc]; [destruct c; (by left) || by right| |].
  - by apply echo_text.
  - rewrite run_words_other, (run_command_args c argv a) by exact Hc. by apply run_command_sound.
Qed.

Lemma execute_words a l :
  holds a l →
  mrel (λ a' _, length a' = 256%nat) (execute_command font_data fx a) (command_line font_data fx l).
Proof.
  intros Ha. destruct (parse_command_words a l Ha) as (argv & a' & E & Ha' & Hws).
  unfold execute_command, command_line. rewrite E, ret_bind. pose proof (Forall2_length Hws) as Hlen.
  destruct (take 16 (words l)) as [|name ws].
  { destruct argv; [|done]. by apply mrel_ret. }
  destruct argv as [|p argv]; [done|]. replace (Z.of_nat (length (p :: argv)) =? 0) with false by (cbn; lia).
  pose proof (Forall2_cons_1 _ _ _ _ _ Hws) as [Hp _].
  rewrite (find_command_words _ (p :: argv) _ p name eq_refl Hp commands_named), ret_bind.
  fold (lookup_command name). destruct (lookup_command name) as [c|].
  - intros w e. pose proof (run_command_words c (p :: argv) a' (name :: ws) Hws ltac:(done) w e) as H.
    unfold mbind, M_bind. destruct (run_command _ _ c _ _ w e), (run_words _ _ c _ w e); cbn in H |- *; try done. tauto.
  - change (get (p :: argv) 0) with (mret (M := M) p). rewrite ret_bind. unfold unknown.
    apply (mrel_bind eq _ (set_color _) (set_color _)); [apply sound_modify|intros _ _ _].
    destruct (string_at_length _ _ _ Hp) as [Hl Hp0]. rewrite (cstring_at _ _ _ name Hp) by lia. rewrite ret_bind.
    eapply (mrel_bind eq); [apply say_writes, render_unknown|]. intros _ _ _ w e. by split.
Qed.
End Words.
