(* ===== verification/KshellRefine.v ===== *)
(** * The shell refines the editor

    Key by key the shell of [Kshell.v] and the editor of [KshellSpec.v] stay
    related: the arrays hold the editor's strings, and both write the same
    text, sleep at the same points and leave for the same reasons. *)
From Stdlib Require Import ZifyBool String.
From S2P Require Import Prelude Console Keyboard Serial Terminal Kprintf KprintfProps Matrix Kshell KshellSpec.
Local Open Scope Z_scope.

Ltac kb := repeat match goal with |- context [if ?b then _ else _] =>
  first [replace b with true by lia|replace b with false by lia] end.

(** ** The ring of earlier lines *)

Lemma add_history s ed :
  shell_rel s ed → line ed ≠ [] →
  ∃ s', add_to_history s = mret s' ∧ input_buffer s' = input_buffer s ∧
    shell_rel s' (Editor (line ed) (take 16 (line ed :: past ed)) (browsing ed) (stash ed)).
Proof.
  intros [Hl Hn [Hh Hr] [Hc Hc16] Hp Hpast Hb Hs] Hne. unfold add_to_history.
  assert (length (line ed) ≠ 0%nat) by (by destruct (line ed)).
  replace (input_len s =? 0) with false by lia.
  destruct (lookup_lt_is_Some_2 (history s) (Z.to_nat (history_pos s))) as [row Hrow]; [lia|].
  rewrite (get_lookup _ _ row) by (lia || done). rewrite ret_bind.
  destruct (str_copy_holds row (input_buffer s) (line ed)) as (row' & E & Hrow'); [exact (Forall_lookup_1 _ _ _ _ Hr Hrow)|done|].
  rewrite E, ret_bind. unfold put. kb. rewrite ret_bind. eexists. split; [done|]. split; [done|].
  rewrite Z.rem_mod_nonneg by (unfold KSHELL_HISTORY_SIZE; lia).
  assert (Hlen : length (take 16 (line ed :: past ed)) = Nat.min 16 (S (length (past ed)))) by (rewrite length_take; done).
  split; cbn [input_buffer input_len history history_count history_pos history_browse saved_input line past browsing stash];
    try done.
  - rewrite length_insert. split; [done|]. apply Forall_insert; [done|apply Hrow'].
  - rewrite Hlen. unfold KSHELL_HISTORY_SIZE. case_if; lia.
  - unfold KSHELL_HISTORY_SIZE. zdm.
  - intros k t Hk. apply lookup_take_Some in Hk as [Hk Hk16]. unfold KSHELL_HISTORY_SIZE. destruct k as [|k].
    + injection Hk as <-. exists row'. split; [|done].
      replace (Z.to_nat _) with (Z.to_nat (history_pos s)) by zdm. by rewrite list_lookup_insert_eq by lia.
    + destruct (Hpast k t Hk) as (r & Hr' & Ht). exists r. split; [|done].
      rewrite list_lookup_insert_ne by zdm. rewrite <- Hr'. f_equal. zdm.
  - destruct (browsing ed) as [b|]; [|done]. destruct Hb as [-> Hb]. split; [done|]. rewrite Hlen. lia.
Qed.

(** Entry [b] of the ring. *)
Lemma history_row s ed b t :
  shell_rel s ed → past ed !! b = Some t →
  let idx := get_history_index s (Z.of_nat b) in
  0 ≤ idx ∧ ∃ row, get (history s) idx = mret row ∧ holds row t.
Proof.
  intros [Hl Hn [Hh Hr] [Hc Hc16] Hp Hpast Hb Hs] Ht. unfold get_history_index, KSHELL_HISTORY_SIZE.
  pose proof (lookup_lt_Some _ _ _ Ht). kb. rewrite Z.rem_mod_nonneg by lia.
  destruct (Hpast b t Ht) as (row & Hrow & Hh'). split; [zdm|]. exists row. split; [|done].
  apply get_lookup; [zdm|]. rewrite <- Hrow. f_equal. zdm.
Qed.

Section Keys.
Context (font_data : Z → Z) (fx : facts).

Lemma rub_writes n : mrel eq (rub_loop font_data n) (write font_data (concat (repeat rubout n))).
Proof.
  induction n as [|n IH]; cbn [rub_loop repeat concat].
  - intros w e. rewrite write_nil. by split.
  - eapply write_both; [by apply say_writes|exact IH|done].
Qed.

(** A computation that writes [t], in front of another. *)
Lemma writes_then {A B} (R : A → B → Prop) (m : M unit) t (k : M A) (m' : M B) :
  mrel eq m (write font_data t) → mrel R (write font_data t;; k) m' → mrel R (m;; k) m'.
Proof.
  intros Hm H w e. specialize (Hm w e). specialize (H w e). revert H. unfold mbind, M_bind.
  destruct (m w e) as [[] w1 e1| | |]; cbn in Hm; try done. by destruct Hm as (_ & -> & ->).
Qed.

Lemma writes_join {A B} (R : A → B → Prop) (m : M unit) t1 t2 (k : M A) (m' : M B) :
  mrel eq m (write font_data t2) → mrel R (write font_data (t1 ++ t2);; k) m' →
  mrel R (write font_data t1;; m;; k) m'.
Proof.
  intros Hm H w e. specialize (H w e). revert H. unfold write at 1 2, on_tty, modify, mbind, M_bind. cbv beta iota.
  rewrite routed_app. set (w1 := World _ _ _ _ _). set (w2 := World _ _ _ _ _).
  pose proof (Hm w2 e) as H2. destruct (m w2 e) as [[] w3 e3| | |]; try (by destruct H2). destruct H2 as (_ & -> & ->). done.
Qed.

(** [recall] in terms of what it writes and what the buffer then holds. *)
Lemma recall_writes s l src t :
  holds (input_buffer s) l → input_len s = Z.of_nat (length l) → holds src t →
  ∃ a, holds a t ∧
    mrel eq (recall font_data src s)
      (write font_data (concat (repeat rubout (length l)) ++ t);; mret (set_input a (Z.of_nat (length t)) s)).
Proof.
  intros [Hb _] Hn Hsrc. destruct (str_copy_holds (input_buffer s) src t Hb Hsrc) as (a & E & Ha).
  exists a. split; [done|]. pose proof Ha as [Hla Hat]. destruct (string_at_length _ _ _ Hat) as [Hlt _].
  unfold recall, clear_input_line. rewrite Hn, Nat2Z.id. eapply writes_then; [apply rub_writes|].
  rewrite E, ret_bind, (count_chars_at _ _ _ t Hat), ret_bind by lia. rewrite (cstring_at _ _ _ t Hat), ret_bind by lia.
  eapply writes_join; [apply say_writes, render_str|]. intros w e. by split.
Qed.

Lemma rel_show s l p b k a t :
  shell_rel s (Editor l p b k) → holds a t → shell_rel (set_input a (Z.of_nat (length t)) s) (Editor t p b k).
Proof. by intros []. Qed.

Lemma recall_rel s ed b k src t :
  shell_rel s (Editor (line ed) (past ed) b k) → holds src t →
  mrel shell_rel (recall font_data src s) (ed_show font_data t b k ed).
Proof.
  intros Hs Ht. pose proof Hs as [Hl Hn _ _ _ _ _ _]. destruct (recall_writes s (line ed) src t Hl Hn Ht) as (a & Ha & Hm).
  eapply (mrel_trans eq shell_rel); [by intros ??? ->|exact Hm|]. unfold ed_show.
  eapply (mrel_bind eq); [apply sound_modify|]. intros _ _ _. apply mrel_ret. by eapply rel_show.
Qed.

Lemma recall_history_rel s ed b k t :
  shell_rel s (Editor (line ed) (past ed) (Some b) k) → past ed !! b = Some t →
  mrel shell_rel (recall_history font_data s) (ed_show font_data t (Some b) k ed).
Proof.
  intros Hs Ht. destruct (history_row _ _ b t Hs Ht) as (Hi & row & Hg & Hh).
  pose proof (rel_browse _ _ Hs) as [Eb _]. unfold recall_history. rewrite Eb. kb.
  rewrite Hg, ret_bind. by apply recall_rel.
Qed.

Lemma prev_rel s ed : shell_rel s ed → mrel shell_rel (history_prev font_data s) (ed_prev font_data ed).
Proof.
  intros Hs. pose proof Hs as [Hl Hn Hr [Hc Hc16] Hp Hpast Hb Hk]. unfold history_prev, ed_prev.
  destruct (browsing ed) as [b|] eqn:Eb.
  - destruct Hb as [Hb Hlt]. kb. destruct (past ed !! S b) as [t|] eqn:Et.
    + pose proof (lookup_lt_Some _ _ _ Et). kb. apply recall_history_rel; [|done].
      split; cbn; try done. lia.
    + apply lookup_ge_None in Et. kb. by apply mrel_ret.
  - rewrite Hb. cbn [Z.eqb Z.opp]. destruct (past ed) as [|t p] eqn:Ep.
    + cbn in Hc. kb. by apply mrel_ret.
    + replace (history_count s =? 0) with false by (rewrite Hc; cbn [length]; lia).
      destruct (str_copy_holds (saved_input s) (input_buffer s) (line ed)) as (a & E & Ha); [apply Hk|done|].
      rewrite E, ret_bind. rewrite <- Ep in *. eapply recall_history_rel; [|by rewrite Ep].
      split; cbn; try done. rewrite Ep. cbn. lia.
Qed.

Lemma next_rel s ed : shell_rel s ed → mrel shell_rel (history_next font_data s) (ed_next font_data ed).
Proof.
  intros Hs. pose proof Hs as [Hl Hn Hr [Hc Hc16] Hp Hpast Hb Hk]. unfold history_next, ed_next.
  destruct (browsing ed) as [[|b]|] eqn:Eb.
  - destruct Hb as [Hb Hlt]. kb. destruct (recall_writes s (line ed) (saved_input s) (stash ed)) as (a & Ha & Hm); [done..|].
    unfold ed_show. eapply (mrel_trans eq shell_rel); [by intros ??? ->| |].
    + eapply (mrel_bind eq eq _ _ _ (λ s, mret (set_browse (-1) s))); [exact Hm|]. by intros ?? ->; apply sound_ret.
    + intros w e. split_and!; [|done..]. by split.
  - destruct Hb as [Hb Hlt]. kb. destruct (lookup_lt_is_Some_2 (past ed) b) as [t Et]; [lia|]. rewrite Et.
    apply recall_history_rel; [|done]. split; cbn; try done. lia.
  - kb. by apply mrel_ret.
Qed.

Lemma rubout_rel s ed :
  shell_rel s ed →
  mrel shell_rel (handle_backspace font_data s)
    (match line ed with
     | [] => mret ed
     | l => write font_data rubout;; mret (Editor (removelast l) (past ed) (browsing ed) (stash ed))
     end).
Proof.
  intros Hs. pose proof Hs as [[Hl (pre & post & Ea & Hpre & Hz)] Hn _ _ _ _ _ _].
  destruct pre; [|cbn in Hpre; lia]. cbn [app] in Ea. unfold handle_backspace.
  destruct (line ed) as [|x l0] eqn:El; [cbn in Hn; kb; by apply mrel_ret|]. set (l := x :: l0) in *.
  assert (Hne : l ≠ []) by done. rewrite (app_removelast_last 0 Hne) in Hn, Ea, Hz.
  rewrite length_app in Hn. cbn [length] in Hn. kb. rewrite Ea, <- app_assoc. cbn [app].
  rewrite put_app, ret_bind by lia. eapply (mrel_bind eq); [by apply say_writes|]. intros _ _ _. apply mrel_ret.
  replace (input_len s - 1) with (Z.of_nat (length (removelast l))) by lia.
  apply (rel_show _ (line ed)); [by destruct ed|]. apply Forall_app in Hz as [Hz _]. split.
  - rewrite <- Hl, Ea, <- app_assoc, !length_app. done.
  - by exists [], (0 :: post).
Qed.

Lemma typed_rel s ed c :
  shell_rel s ed → 32 ≤ c < 127 →
  mrel shell_rel
    (if input_len s <? KSHELL_MAX_INPUT - 1 then
       a ← put (input_buffer s) (input_len s) (s8 c);
       a ← put a (input_len s + 1) 0;
       say font_data (str "%c") [AWord c];; mret (set_input a (input_len s + 1) s)
     else mret s)
    (if (length (line ed) <? 255)%nat
     then write font_data [c];; mret (Editor (line ed ++ [c]) (past ed) (browsing ed) (stash ed)) else mret ed).
Proof.
  intros Hs Hc. pose proof Hs as [[Hl (pre & post & Ea & Hpre & Hz)] Hn _ _ _ _ _ _].
  destruct pre; [|cbn in Hpre; lia]. cbn [app] in Ea. unfold KSHELL_MAX_INPUT.
  destruct (length (line ed) <? 255)%nat eqn:E255.
  2: { apply Nat.ltb_ge in E255. replace (input_len s <? 256 - 1) with false by lia. by apply mrel_ret. }
  apply Nat.ltb_lt in E255. replace (input_len s <? 256 - 1) with true by lia.
  rewrite Ea in Hl. rewrite length_app in Hl. destruct post as [|y post]; cbn in Hl; [lia|].
  assert (s8 c = c) as -> by (apply (swrap_small 8); cbn; lia).
  rewrite Ea, put_app, ret_bind by done. change (c :: y :: post) with ([c] ++ y :: post). rewrite app_assoc.
  rewrite put_app, ret_bind by (rewrite length_app; cbn; lia).
  eapply (mrel_bind eq); [by apply say_writes, render_char|]. intros _ _ _. apply mrel_ret.
  replace (input_len s + 1) with (Z.of_nat (length (line ed ++ [c]))) by (rewrite length_app; cbn; lia).
  apply (rel_show _ (line ed)); [by destruct ed|]. split; [rewrite !length_app; cbn; lia|].
  exists [], post. split_and!; [done|done|]. apply Forall_app. split; [done|]. apply Forall_cons_2; [lia|apply Forall_nil_2].
Qed.

(** ** Enter *)

Lemma prompt_rel : mrel eq (print_prompt font_data) (prompt font_data).
Proof.
  unfold print_prompt, prompt. apply (mrel_bind eq); [apply sound_modify|]. intros _ _ _.
  apply (mrel_bind eq); [apply say_writes, render_str|]. intros _ _ _. apply sound_modify.
Qed.

(** Between the command and the new prompt only the size of the input buffer
    is known. *)
Definition between (keep : list Z) (s : shell) (p : list (list Z)) : Prop :=
  length (input_buffer s) = 256%nat ∧
  ∃ b, ∀ a, holds a [] → shell_rel (set_input a 0 s) (Editor [] p b keep).

Lemma rel_between s ed p b :
  shell_rel s (Editor (line ed) p b (stash ed)) → between (stash ed) s p.
Proof.
  intros Hs. split; [apply Hs|]. exists b. intros a Ha. by apply (rel_show s (line ed) p b (stash ed) a []).
Qed.

Lemma put_head {A} (x c : A) buf : put (x :: buf) 0 c = mret (c :: buf).
Proof. exact (put_app [] buf x c 0 eq_refl). Qed.

Lemma clear_rel keep s p :
  between keep s p → ∃ s', clear_input s = mret s' ∧ shell_rel s' (Editor [] p None keep).
Proof.
  intros [Hl [b Hs]]. destruct s as [[|x buf] n h c ps br sv]; [done|]. unfold clear_input. cbn [input_buffer].
  rewrite put_head, ret_bind. eexists. split; [done|].
  destruct (Hs (0 :: buf)) as []; [split; [done|exists [], buf; split_and!; [done|done|apply Forall_nil_2]]|].
  by split.
Qed.

Lemma command_rel s ed :
  shell_rel s ed →
  mrel (between (stash ed))
    (if 0 <? input_len s then
       s ← add_to_history s;
       a ← execute_command font_data fx (input_buffer s);
       mret (set_input a (input_len s) s)
     else mret s)
    (match line ed with
     | [] => mret (past ed)
     | l => command_line font_data fx l;; mret (take 16 (l :: past ed))
     end).
Proof.
  intros Hs. pose proof Hs as [Hl Hn _ _ _ _ _ _]. destruct (line ed) as [|x l0] eqn:El.
  { cbn in Hn. kb. apply mrel_ret. apply (rel_between s ed (past ed) (browsing ed)). by destruct ed. }
  replace (0 <? input_len s) with true by (rewrite Hn; cbn [length]; lia).
  destruct (add_history s ed Hs) as (s' & E & Eb & Hs'); [by rewrite El|]. rewrite E, ret_bind, Eb, <- El.
  rewrite <- El in Hl. eapply mrel_bind; [by apply execute_words|]. intros a [] Ha. apply mrel_ret.
  destruct (rel_between s' ed _ _ Hs') as [_ [b Hb]]. split; [done|]. by exists b.
Qed.

Lemma enter_rel s ed :
  shell_rel s ed →
  mrel shell_rel
    (say font_data [10] [];;
     s ← (if 0 <? input_len s then
            s ← add_to_history s;
            a ← execute_command font_data fx (input_buffer s);
            mret (set_input a (input_len s) s)
          else mret s);
     s ← clear_input s;
     print_prompt font_data;; mret s)
    (ed_enter font_data fx ed).
Proof.
  intros Hs. unfold ed_enter. eapply (mrel_bind eq); [by apply say_writes|]. intros _ _ _.
  eapply mrel_bind; [by apply command_rel|]. intros s1 p Hb. cbv beta.
  destruct (clear_rel _ _ _ Hb) as (s2 & -> & Hs2). rewrite ret_bind.
  eapply (mrel_bind eq); [apply prompt_rel|]. intros _ _ _. by apply mrel_ret.
Qed.

Lemma key_rel c s ed : shell_rel s ed → mrel shell_rel (kshell_key font_data fx c s) (ed_key font_data fx c ed).
Proof.
  intros Hs. unfold kshell_key, ed_key.
  destruct (c =? -1); [eapply (mrel_bind eq); [apply sound_sleep|by intros; apply mrel_ret]|].
  destruct (c =? KEY_PAGEUP); [eapply (mrel_bind eq); [apply sound_modify|by intros; apply mrel_ret]|].
  destruct (c =? KEY_PAGEDOWN); [eapply (mrel_bind eq); [apply sound_modify|by intros; apply mrel_ret]|].
  eapply (mrel_bind eq); [apply sound_modify|]. intros _ _ _.
  destruct (c =? KEY_ENTER); [by apply enter_rel|].
  destruct (c =? KEY_BACKSPACE); [by apply rubout_rel|].
  destruct (c =? KEY_UP); [by apply prev_rel|].
  destruct (c =? KEY_DOWN); [by apply next_rel|].
  destruct ((32 <=? c) && (c <? 127)) eqn:Ec; [|by apply mrel_ret]. apply typed_rel; [done|lia].
Qed.

Lemma loop_rel n s ed : shell_rel s ed → mrel shell_rel (kshell_loop font_data fx n s) (ed_loop font_data fx n ed).
Proof.
  revert s ed. induction n as [|n IH]; intros s ed Hs; cbn [kshell_loop ed_loop]; [by apply mrel_ret|].
  eapply (mrel_bind eq); [apply get_key_sound|]. intros c ? <-.
  eapply mrel_bind; [by apply key_rel|]. intros s' ed' Hs'. by apply IH.
Qed.

Lemma banner_rel : mrel eq (banner font_data) (welcome font_data).
Proof.
  unfold banner, welcome. eapply writes_then; [by apply say_writes|]. eapply writes_join; [by apply say_writes|].
  apply (mrel_bind eq); [apply sound_modify|]. intros _ _ _. apply prompt_rel.
Qed.

Lemma init_rel s :
  length (input_buffer s) = 256%nat → length (saved_input s) = 256%nat → length (history s) = 16%nat →
  Forall (λ row, length row = 256%nat) (history s) →
  ∃ s', kshell_init s = mret s' ∧ shell_rel s' empty_editor.
Proof.
  intros Hi Hs Hh Hr. destruct s as [[|x buf] n h c ps br [|y sv]]; try done.
  cbn [input_buffer saved_input history] in *. unfold kshell_init. cbn [input_buffer saved_input history].
  rewrite (put_head x), ret_bind, (put_head y), ret_bind.
  eexists. split; [done|].
  split; cbn; try done; try lia; (split; [done|eexists [], _; split_and!; [done|done|apply Forall_nil_2]]).
Qed.
End Keys.

(** C11 [kshell_refines_editor]: from arrays of their declared sizes, [n]
    rounds of the shell behave as [n] rounds of a line editor over lists: the
    same text is written, the shell sleeps, starts the first program or resets
    the machine exactly when the editor does, the line, the last sixteen
    lines, the place among them and the stashed line agree, a line is run as
    the command named by its first word with at most fifteen arguments, and no
    access leaves an array. *)
Theorem kshell_refines_editor font_data fx n s :
  length (input_buffer s) = 256%nat → length (saved_input s) = 256%nat → length (history s) = 16%nat →
  Forall (λ row, length row = 256%nat) (history s) →
  mrel shell_rel (s ← kshell_init s; kshell_run font_data fx n s) (ed_run font_data fx n).
Proof.
  intros Hi Hs Hh Hr. destruct (init_rel s Hi Hs Hh Hr) as (s' & -> & Hs'). rewrite ret_bind.
  eapply (mrel_bind eq); [apply banner_rel|]. intros _ _ _. by apply loop_rel.
Qed.

(** ** A session *)

Definition blank_shell : shell := Shell (repeat 7 256) 3 (repeat (repeat 7 256) 16) 5 9 4 (repeat 7 256).

Definition serial_tty : tty :=
  Tty initial_terms terminal_default (Con (Sback ∅ 0 1 0 0) None 0 0 (Cursor false true 0 0 0) 0 ∅) (Serial [] 0).

Definition no_tests : tests := Tests 0 0 0 0 (Sync.Mutex 0 0 (0, 0)) 0 0 0 0 (Sync.Mutex 0 0 (0, 0)) (Sync.Cond (0, 0)) (Sync.Cond (0, 0)) 0 0.

(** [keys] wait in the keyboard ring. *)
Definition session (keys : list Z) : world :=
  World serial_tty (fold_left (λ k c, buffer_put c k) keys (Kbd ∅ 0 0 false false false false)) (Matrix ∅ 0 0) no_tests [].

Definition no_facts : facts :=
  Facts (Heap.Heap ∅ 0 0 0 0 0) (Pmm.Pmm 0 0 ∅ 0 0 0 0) (Ext2.Ext2 0 0 0 0 1024 8 128 1) ∅ 1 0 0.

Lemma blank_rows : Forall (λ row, length row = 256%nat) (history blank_shell).
Proof. unfold blank_shell. cbn [history repeat]. repeat (apply Forall_cons_2; [done|]). apply Forall_nil_2. Qed.

(** The text on the serial line. *)
Definition sent (w : world) : list Z := snd <$> port_log (dev_ser (w_tty w)).

Definition echo_keys : list Z := str "echo  a b" ++ [KEY_ENTER; KEY_UP; KEY_BACKSPACE].

Lemma related_runs {A B} (R : A → B → Prop) x y (P : B → world → env → Prop) :
  act_rel R x y → match y with Ret b w e => P b w e | _ => False end →
  ∃ a b w e, x = Ret a w e ∧ y = Ret b w e ∧ R a b ∧ P b w e.
Proof. destruct x, y; try done. intros (HR & -> & ->) HP. by do 4 eexists. Qed.

(** An echo with two spaces, recalled and shortened by one character. *)
Lemma kshell_refines_editor_witness :
  ∃ s ed w e, (s ← kshell_init blank_shell; kshell_run (λ _, 0) no_facts 12 s) (session echo_keys) [] = Ret s w e ∧
    ed_run (λ _, 0) no_facts 12 (session echo_keys) [] = Ret ed w e ∧ shell_rel s ed ∧
    (ed = Editor (str "echo  a ") [str "echo  a b"] (Some O) [] ∧ e = [] ∧
     drop (length (sent w) - 32) (sent w) =
     str "echo  a b" ++ [10] ++ strn "a b" ++ str "seed> " ++ str "echo  a b" ++ rubout).
Proof.
  apply (related_runs shell_rel _ _ (λ ed w e, ed = Editor _ _ _ _ ∧ e = [] ∧ drop (length (sent w) - 32) (sent w) = _)
    (kshell_refines_editor (λ _, 0) no_facts 12 blank_shell eq_refl eq_refl eq_refl blank_rows (session echo_keys) [])).
  vm_compute. repeat split.
Defined.
