(* ===== verification/Kinit.v ===== *)
(** * The first process ([kernel/kinit.c], the modules of
    [arch/x86/boot/limine.c])

    [start_init] reads [/init] from the initial ram disk into a heap buffer,
    makes process 1, loads the program, builds its stack and leaves for user
    mode. *)
From S2P Require Import Prelude Pmm Page Vmm Heap HeapInv HeapProps HeapSpec Alloc Kthread.
From S2P Require Import Console Keyboard Serial Terminal Ext2 Vfs Process UserMem MemSys ProcSys Syscall Elf.
Local Open Scope Z_scope.

(** ** Modules of the boot loader *)

(** [struct limine_file], as far as the kernel reads it. *)
Record limine_file := LimineFile { lf_address : Z; lf_size : Z }.

(** [module_request.response]: NULL, or [module_count] files. *)
Definition module_response : Type := option (list limine_file).

Definition limine_get_module (response : module_response) (index : Z) : option limine_file :=
  match response with
  | None => None
  | Some modules => if Z.of_nat (length modules) <=? index then None else modules !! Z.to_nat index
  end.

Definition limine_get_module_count (response : module_response) : Z :=
  match response with None => 0 | Some modules => Z.of_nat (length modules) end.

(** ** Outcomes *)

(** The calls of [log_panic], in the order of the code. *)
Inductive panic :=
  | NoModule | NotFound | NoInode | EmptyFile | NoBuffer | ReadFailed (bytes_read : Z)
  | NoProcess | LoadFailed (ret : Z) | NoStack.

(** The lookup never ends, the kernel stops, or user code starts. *)
Inductive started (S : Type) :=
  | Hangs
  | Halts
  | Panics (why : panic) (s : S)
  | Enters (entry rsp : Z) (s : S).
Arguments Hangs {S}.
Arguments Halts {S}.
Arguments Panics {S} _ _.
Arguments Enters {S} _ _ _.

(** [/init], [init], [PATH=/bin] and [HOME=/]. *)
Definition init_path : list Z := [47; 105; 110; 105; 116].
Definition process_name : list Z := [105; 110; 105; 116].
Definition init_argv : list (list Z) := [init_path].
Definition init_envp : list (list Z) := [[80; 65; 84; 72; 61; 47; 98; 105; 110]; [72; 79; 77; 69; 61; 47]].

(** [brk_start] and [brk]. *)
Definition set_brk_area (v : Z) (p : process) : process :=
  Process (pid p) (p_name p) (p_state p) (pml4_phys p) v v (p_kthread p) (kernel_stack_top p)
    (user_rip p) (user_rsp p) (user_rflags p) (fs_base p) (gs_base p) (fd_table p) (p_parent p)
    (p_children p) (p_sibling p) (exit_code p) (wait_pid p) (pending_signals p) (blocked_signals p)
    (p_next p).

Section Init.
Context {H : Type} `{!Allocator H}.
Context (terminal : Z) (lookup_fuel : nat) (response : module_response) (info0 : elf_info).
Implicit Types s : sys H.

(** Step 8: [init] becomes the current process on its own stack and tables. *)
Definition make_current (init rip rsp : Z) (o : os H) : os H :=
  let o := pupd init (set_p_state PROC_RUNNING) (process_set_current init o) in
  let c := o_cpu o in
  let o := set_cpu (Cpu (msr_fs_base c) (msr_kernel_gs_base c) (kernel_stack_top (proc o init)) (kernel_rsp c)
                      (pml4_phys (proc o init))) o in
  pupd init (set_user_regs rip rsp 0x202) o.

(** Steps 6 and 7: the program and its stack.  [info0] is the structure
    before [elf_load] fills it. *)
Definition launch_init (init elf_data file_size : Z) s : started (sys H) :=
  let o := s_os s in
  match elf_load (d_mem (s_dev s)) (Some (pml4_phys (proc o init))) elf_data file_size (Some info0) (o_k o) with
  | (ret, info, k) =>
      let o := set_k k o in
      if ret <? 0 then Panics (LoadFailed ret) (set_os (process_destroy init (kfree_os elf_data o)) s)
      else
        let brk := info_brk_start (default info0 info) in
        let o := kfree_os elf_data (pupd init (set_brk_area brk) o) in
        let '(user_rsp, k) := elf_setup_stack (Some (pml4_phys (proc o init))) (Some init_argv) (Some init_envp) info (o_k o) in
        let o := set_k k o in
        if user_rsp =? 0 then Panics NoStack (set_os (process_destroy init o) s)
        else
          let e := entry (default info0 info) in
          Enters e user_rsp (set_os (make_current init e user_rsp o) s)
  end.

(** Steps 1 to 5: the file and the process. *)
Definition start_init s : started (sys H) :=
  let fs := d_ext2 (s_dev s) in
  let m := d_mem (s_dev s) in
  match limine_get_module response 0 with
  | None => Panics NoModule s
  | Some _ =>
      match ext2_lookup fs m lookup_fuel init_path with
      | None => Hangs
      | Some init_ino =>
          if init_ino =? 0 then Panics NotFound s
          else
            let init_inode := ext2_read_inode fs m init_ino in
            if init_inode =? 0 then Panics NoInode s
            else
              let file_size := ext2_get_file_size m init_inode in
              if file_size =? 0 then Panics EmptyFile s
              else
                let '(elf_data, o) := kmalloc_os file_size (s_os s) in
                if elf_data =? 0 then Panics NoBuffer (set_os o s)
                else
                  let '(bytes_read, m) := ext2_read_file fs init_inode 0 elf_data file_size m in
                  let s := set_user m (set_os o s) in
                  if (bytes_read <? 0) || negb (u64 bytes_read =? file_size)
                  then Panics (ReadFailed bytes_read) (on_os (kfree_os elf_data) s)
                  else
                    match process_create process_name terminal (s_os s) with
                    | Halted => Halts
                    | Done (init, o) =>
                        let s := set_os o s in
                        if init =? 0 then Panics NoProcess (on_os (kfree_os elf_data) s)
                        else launch_init init elf_data file_size s
                    end
      end
  end.
End Init.
