(* ===== verification/KinitSpec.v ===== *)
(** * Starting the first process

    [start_init] on a disk with a well-formed [/init]: it stops for lack of
    memory, or the processor runs the program in user mode as process 1. *)
From S2P Require Import Prelude Pmm Page Vmm VmmWalk VmmMap VmmProps VmmCow UserMem UserBytes MemWitness.
From S2P Require Import Heap HeapInv HeapProps HeapSpec Alloc Kthread KthreadProps KthreadMem KthreadInv.
From S2P Require Import Console Keyboard Serial Terminal Ext2 Ext2Props Ext2Spec Vfs Process MemSys ProcSys ProcList ProcFiles ProcInv ProcSteps.
From S2P Require Import ProcCalls ProcMake Syscall ProcSpec Elf ElfProps ElfSpec ElfStack Asm Stubs StubProps StubMode Kinit.
Local Open Scope Z_scope.

(** ** Programs *)

(** The [size] bytes at [data] are a program the loader takes: its headers and
    segments lie in the file, and no segment reaches into the stack. *)
Record program (m : gmap Z Z) (data size : Z) : Prop := {
  pg_bytes : ∀ a, 0 ≤ rd m a < 256;
  pg_data : 0 < data ∧ 0 ≤ size ∧ data + size < 2 ^ 64;
  pg_valid : elf_validate m data size = 0;
  pg_headers : e_phoff (ehdr_at m data) + e_phnum (ehdr_at m data) * sizeof_Phdr ≤ size;
  pg_segments : Forall (seg_ok size) (segments m data (e_phnum (ehdr_at m data)));
  pg_stack : Forall (λ p, seg_hi p ≤ USER_STACK_BOTTOM ∨ USER_STACK_TOP ≤ seg_lo p) (segments m data (e_phnum (ehdr_at m data)));
  pg_entry : canonical (e_entry (ehdr_at m data)) = true;
}.

Definition program_segments (m : gmap Z Z) (data : Z) : list Elf64_Phdr := segments m data (e_phnum (ehdr_at m data)).

(** ** Copies of a program *)
Section Copy.
Context (m m' : gmap Z Z) (a a' size : Z) (Hsame : ∀ i, 0 ≤ i < size → rd m' (a' + i) = rd m (a + i)).

Lemma load_copy n o : 0 ≤ o → o + Z.of_nat n ≤ size → load n m' (a' + o) = load n m (a + o).
Proof.
  revert o. induction n as [|n IH]; intros o Ho Hn; [done|]. 
  change (rd m' (a' + o) + 256 * load n m' (a' + o + 1) = rd m (a + o) + 256 * load n m (a + o + 1)).
  rewrite Hsame by lia. replace (a' + o + 1) with (a' + (o + 1)) by lia. rewrite IH by lia. by rewrite Z.add_assoc.
Qed.

Lemma header_copy : sizeof_Ehdr ≤ size →
  e_type (ehdr_at m' a') = e_type (ehdr_at m a) ∧ e_machine (ehdr_at m' a') = e_machine (ehdr_at m a) ∧
  e_entry (ehdr_at m' a') = e_entry (ehdr_at m a) ∧ e_phoff (ehdr_at m' a') = e_phoff (ehdr_at m a) ∧
  e_phentsize (ehdr_at m' a') = e_phentsize (ehdr_at m a) ∧ e_phnum (ehdr_at m' a') = e_phnum (ehdr_at m a) ∧
  ∀ i, 0 ≤ i < 16 → e_ident (ehdr_at m' a') i = e_ident (ehdr_at m a) i.
Proof.
  unfold sizeof_Ehdr. intros Hs. cbn [ehdr_at e_type e_machine e_entry e_phoff e_phentsize e_phnum e_ident].
  split_and!; try (apply load_copy; lia). intros i Hi. apply Hsame. lia.
Qed.

Lemma validate_copy : a ≠ 0 → a' ≠ 0 → elf_validate m' a' size = elf_validate m a size.
Proof.
  intros H0 H0'. unfold elf_validate. assert ((a =? 0) = false) as -> by lia. assert ((a' =? 0) = false) as -> by lia.
  cbn [orb]. destruct (Z.ltb_spec size sizeof_Ehdr) as [|Hs]; [done|].
  destruct (header_copy Hs) as (-> & -> & _ & E & -> & E' & Hi). unfold EI_CLASS, EI_DATA.
  rewrite !Hi by lia. unfold phdrs_end. by rewrite E, E'.
Qed.

Lemma segments_copy n h : h = ehdr_at m a → sizeof_Ehdr ≤ size → 0 ≤ e_phoff h → e_phoff h + n * sizeof_Phdr ≤ size →
  0 ≤ a ∧ a + size < 2 ^ 64 → 0 ≤ a' ∧ a' + size < 2 ^ 64 → segments m' a' n = segments m a n.
Proof.
  intros -> Hs Ho Hn Ha Ha'. unfold segments. f_equal. apply list_fmap_ext. intros j i Hi%list_elem_of_lookup_2.
  apply elem_of_seqZ in Hi. unfold phdr_nth. destruct (header_copy Hs) as (_ & _ & _ & -> & _). unfold sizeof_Phdr in *.
  set (o := e_phoff (ehdr_at m a)) in *. rewrite !u64_small by (rewrite ?u64_small; lia).
  unfold phdr_at. rewrite <- !Z.add_assoc. f_equal; apply load_copy; lia.
Qed.

Lemma image_copy ps va old : Forall (seg_ok size) ps → image m' a' va ps old = image m a va ps old.
Proof.
  intros Hps. revert old. induction Hps as [|p ps [_ _ Hsz Hf] _ IH]; intros old; [done|]. unfold image in *. cbn [foldl]. rewrite IH.
  f_equal. unfold seg_byte. case_decide; [|done]. f_equal. rewrite <- !Z.add_assoc. apply Hsame. lia.
Qed.

Lemma program_copy : program m a size → (∀ x, 0 ≤ rd m' x < 256) → 0 < a' ∧ a' + size < 2 ^ 64 →
  program m' a' size ∧ e_entry (ehdr_at m' a') = e_entry (ehdr_at m a) ∧ e_phnum (ehdr_at m' a') = e_phnum (ehdr_at m a) ∧
  e_phoff (ehdr_at m' a') = e_phoff (ehdr_at m a) ∧ program_segments m' a' = program_segments m a.
Proof.
  intros [Hb (Ha1 & Ha2 & Ha3) Hv Hh Hp Hst He] Hb' Ha'.
  assert (sizeof_Ehdr ≤ size) as Hs.
  { unfold elf_validate in Hv. destruct (Z.ltb_spec size sizeof_Ehdr); [|done]. by rewrite orb_true_r in Hv. }
  destruct (header_copy Hs) as (_ & _ & Ee & Eo & _ & En & _).
  pose proof (load_bytes 8 m (a + 32) Hb) as Ho. change (load 8 m (a + 32)) with (e_phoff (ehdr_at m a)) in Ho.
  pose proof (segments_copy (e_phnum (ehdr_at m a)) _ eq_refl Hs (proj1 Ho) Hh ltac:(lia) ltac:(lia)) as Es.
  unfold program_segments. rewrite En. split_and!; try done.
  split; rewrite ?En, ?Es, ?Eo, ?Ee; try done; [lia|]. by rewrite validate_copy by lia.
Qed.
End Copy.

(** ** The buffer on the heap *)
Section Buffer.
Context {H : Type} `{!Allocator H}.
Implicit Types s : os H.

Lemma inv_others R R' Ow Ow' l k k' s hp :
  os_inv R Ow l k s → heap_owned hp Ow' k' → (∀ a o, o ≠ OOther → Ow' !! a = Some o ↔ Ow !! a = Some o) →
  (∀ a, Ow' !! a = Some OOther ↔ a ∈ R') → (k' ≤ k)%nat → os_inv R' Ow' l k' (set_heap hp s).
Proof.
  intros [I1 [B1 B2 B3 B4 B5] I3 I4] Hh HO HR Hk. split.
  - apply (fs_ok_owners Ow Ow' (refs s) k k'); [exact I1|exact Hh|]. intros a o Ho. apply HO. by intros ->.
  - split.
    + intros p r Hr. rewrite !HO by done. by apply B1.
    + intros a. rewrite HO by done. apply B2.
    + intros a p. rewrite HO by done. apply B3.
    + intros a. rewrite HO by done. apply B4.
    + exact HR.
  - destruct I3 as [T1 T2 T3 T4 T5 T6 T7]. split; try done. intros p Hp. destruct (T2 p Hp). by split.
  - by apply (room_le k).
Qed.

Lemma buffer_inv R Ow l k s size :
  os_inv R Ow l (S k) s → 8 < size < 2 ^ 62 →
  let '(r, s') := kmalloc_os size s in
  ∃ hp, s' = set_heap hp s ∧ (r ≠ 0 → 0 < r ∧ r + size < 2 ^ 64 ∧ (r ∉ R) ∧ os_inv ({[r]} ∪ R) (<[r := OOther]> Ow) l k s').
Proof.
  intros HI Hsz. pose proof (heap_malloc_owned size (fs_heap (o_fs s)) Ow k (fo_heap _ _ _ _ (oi_fs _ _ _ _ _ HI)) Hsz) as Hm.
  unfold kmalloc_os. destruct (a_malloc size (fs_heap (o_fs s))) as [r hp]. exists hp. split; [done|]. intros Hr0.
  destruct Hm as [[? _]|(Hr & Hrs & _ & Hn & Hh)]; [done|]. pose proof (bi_other _ _ _ _ (oi_blocks _ _ _ _ _ HI)) as HR.
  split_and!; [done|done| |]. { rewrite <- HR, Hn. done. }
  apply (inv_others R _ Ow _ l (S k)); [exact HI|apply Hh| | |lia].
  - intros a o Ho. rewrite lookup_insert. case_decide; [subst; rewrite Hn|done]. split; congruence.
  - intros a. rewrite lookup_insert, elem_of_union, elem_of_singleton, <- HR. case_decide; [subst; tauto|naive_solver].
Qed.

Lemma free_buffer_inv R Ow l k s r : os_inv R Ow l k s → r ∈ R → os_inv (R ∖ {[r]}) (delete r Ow) l k (kfree_os r s).
Proof.
  intros HI Hr. pose proof (bi_other _ _ _ _ (oi_blocks _ _ _ _ _ HI)) as HR. apply HR in Hr as Hr'.
  apply (inv_others R _ Ow _ l k); [exact HI| | | |done].
  - apply (heap_free_owned r OOther); [apply (fo_heap _ _ _ _ (oi_fs _ _ _ _ _ HI))|done].
  - intros a o Ho. rewrite lookup_delete_Some. split; [tauto|]. intros Ha. split; [|done]. intros ->. congruence.
  - intros a. rewrite lookup_delete_Some, elem_of_difference, elem_of_singleton, HR. naive_solver.
Qed.

(** ** The new block *)

(** The block of a process made by the kernel itself. *)
Record fresh_process (name : list Z) (p : Z) s s' : Prop := {
  fp_root : vmm_create_address_space (o_k s) = Done (pml4_phys (proc s' p), o_k s');
  fp_ids : pid (proc s' p) = next_pid s ∧ p_name (proc s' p) = take 63 name ∧ p_state (proc s' p) = PROC_EMBRYO;
  fp_dom : p ∈ dom (procs s');
  fp_init : next_pid s = 1 → init_process s' = p;
  fp_current : current_proc s' = 0;
}.

Lemma process_create_fresh name terminal s p s' :
  process_create name terminal s = Done (p, s') → p ≠ 0 → current_proc s = 0 → fresh_process name p s s'.
Proof.
  intros E Hp Hc. unfold process_create, kmalloc_os, open_stdio in E. destruct (a_malloc sizeof_process _) as [p0 h1].
  destruct (p0 =? 0) eqn:Hz; [congruence|]. cbn [process_allocate_pid] in E.
  set (s2 := if next_pid _ =? 1 then _ else _) in E.
  assert (o_k s2 = o_k s ∧ current_proc s2 = 0 ∧ (next_pid s = 1 → init_process s2 = p0)) as (S1 & S2 & S3).
  { pose proof (numbered_ok p0 (set_heap h1 s)) as HS. change (numbered p0 (set_heap h1 s)) with s2 in HS.
    destruct HS as (_ & ? & _ & _ & _ & _ & Ec & _ & Ei). split_and!; [done|by rewrite Ec|].
    intros En. rewrite Ei. by rewrite decide_True. }
  clearbody s2. destruct (a_malloc KERNEL_STACK_SIZE _) as [st h2]. destruct (st =? 0); [congruence|].
  change (o_k (set_heap h2 s2)) with (o_k s2) in E. rewrite S1 in E.
  destruct (vmm_create_address_space (o_k s)) as [[root k]|] eqn:Ev; [|done]. destruct (root =? 0); [congruence|].
  repeat match type of E with context [tty_open ?f ?t ?x] => destruct (tty_open f t x) as [??] end.
  cbv zeta in E. cbn [current_proc set_fs set_k set_heap] in E. rewrite S2 in E. unfold link_child, process_add in E. cbn [negb Z.eqb] in E.
  rewrite Hz in E. cbn [negb] in E. injection E as <- <-.
  match goal with |- fresh_process _ _ _ (set_list _ (pupd _ ?f (set_procs (<[_ := ?r]> ?M) ?s3))) =>
    assert (proc (set_list p0 (pupd p0 f (set_procs (<[p0 := r]> M) s3))) p0 = f r) as Ep end.
  { etransitivity; [exact (proc_pupd _ _ _ _)|]. rewrite decide_True by done. unfold proc. cbn [procs set_procs]. by rewrite lookup_insert_eq. }
  split; rewrite ?Ep; [exact Ev|by split_and!| |exact S3|exact S2]. cbn [procs set_list pupd set_procs]. rewrite dom_insert_L. set_solver.
Qed.

Lemma process_create_halts name terminal s : process_create name terminal s = Halted → vmm_create_address_space (o_k s) = Halted.
Proof.
  unfold process_create, kmalloc_os, open_stdio. destruct (a_malloc sizeof_process _) as [p0 h1]. destruct (p0 =? 0); [done|].
  cbn [process_allocate_pid]. set (s2 := if next_pid _ =? 1 then _ else _).
  assert (o_k s2 = o_k s) as S1 by exact (proj1 (proj2 (numbered_ok p0 (set_heap h1 s)))).
  clearbody s2. destruct (a_malloc KERNEL_STACK_SIZE _) as [st h2]. destruct (st =? 0); [done|].
  change (o_k (set_heap h2 s2)) with (o_k s2). rewrite S1. destruct (vmm_create_address_space (o_k s)) as [[root k]|]; [|done].
  destruct (root =? 0); [done|]. repeat match goal with |- context [tty_open ?f ?t ?x] => destruct (tty_open f t x) as [??] end. done.
Qed.
End Buffer.

(** ** The program runs *)
Section Started.
Context {H : Type} `{!Allocator H}.
Implicit Types s : sys H.
Implicit Types o : os H.

(** User code of the program at [data] is about to run as the current process:
    its segments and its stack are mapped and filled, the processor uses its
    page tables and its kernel stack, and the [iretq] stub, called with [rip]
    and [rsp], gets to [rip] in user mode. *)
Record user_started (m : gmap Z Z) (data : Z) (k : nat) (rip rsp : Z) s : Prop := {
  us_inv : os_ok ∅ k (s_os s);
  us_process : cur s ≠ 0 ∧ pid (cur_proc s) = 1 ∧ p_name (cur_proc s) = process_name ∧ p_state (cur_proc s) = PROC_RUNNING;
  us_init : cur s = init_process (s_os s);
  us_regs : user_rip (cur_proc s) = rip ∧ user_rsp (cur_proc s) = rsp ∧ user_rflags (cur_proc s) = 0x202 ∧
    rip = e_entry (ehdr_at m data);
  us_cpu : cr3 (o_cpu (s_os s)) = pml4_phys (cur_proc s) ∧ tss_rsp0 (o_cpu (s_os s)) = kernel_stack_top (cur_proc s) ∧
    kernel_rsp (o_cpu (s_os s)) = kernel_stack_top (cur_proc s);
  us_brk : brk_start (cur_proc s) = brk (cur_proc s) ∧
    brk (cur_proc s) = (highest (program_segments m data) + 4095) / 4096 * 4096;
  us_space : space_own user_half (pml4_phys (cur_proc s)) (o_k (s_os s));
  us_image : ∀ va, user_addr va → ¬ (USER_STACK_BOTTOM ≤ va < USER_STACK_TOP) →
    user_byte (pml4_phys (cur_proc s)) va (o_k (s_os s)) = image m data va (program_segments m data) None ∧
    match image_flags va (program_segments m data) with
    | Some fl => ∃ n, pte_at (pml4_phys (cur_proc s)) va (o_k (s_os s)) = Some (Z.lor (n * 4096) fl) ∧
        Z.land (n * 4096) PTE_ADDR_MASK = n * 4096
    | None => pte_at (pml4_phys (cur_proc s)) va (o_k (s_os s)) = None
    end;
  us_stack : ∃ info, entry info = rip ∧ phnum info = e_phnum (ehdr_at m data) ∧
    stack_filled (pml4_phys (cur_proc s)) init_argv init_envp info rsp (o_k (s_os s));
  us_stack_pages : ∀ va, USER_STACK_BOTTOM ≤ va < USER_STACK_TOP →
    ∃ n, pte_at (pml4_phys (cur_proc s)) va (o_k (s_os s)) = Some (Z.lor (n * 4096) stack_flags) ∧
      Z.land (n * 4096) PTE_ADDR_MASK = n * 4096;
  us_enter : ∀ h c, (∀ r, word (gpr c r)) → 40 ≤ gpr c RSP → gpr c RDI = rip → gpr c RSI = rsp →
    ∃ c', run 32 h user_mode_enter 0 c = Leaves c' ∧ fresh_user rip 0x202 rsp c c' ∧ ∀ r, r ≠ RSP → gpr c' r = 0;
}.

Lemma image_flags_none va ps : Forall (λ p, va < seg_lo p ∨ seg_hi p ≤ va) ps → image_flags va ps = None.
Proof.
  intros Hps. unfold image_flags. induction Hps as [|p ps Hp _ IH]; [done|]. cbn [foldl]. by rewrite decide_False by lia.
Qed.

(** The block after [make_current]. *)
Lemma make_current_proc init rip rsp o : init ≠ 0 →
  proc (make_current init rip rsp o) init = set_user_regs rip rsp 0x202 (set_p_state PROC_RUNNING (proc o init)) ∧
  current_proc (make_current init rip rsp o) = init ∧ init_process (make_current init rip rsp o) = init_process o ∧
  o_k (make_current init rip rsp o) = o_k o ∧
  (let c := o_cpu (make_current init rip rsp o) in
   cr3 c = pml4_phys (proc o init) ∧ tss_rsp0 c = kernel_stack_top (proc o init) ∧ kernel_rsp c = kernel_stack_top (proc o init)).
Proof.
  intros Hi. unfold make_current, process_set_current. assert ((init =? 0) = false) as -> by lia. cbn [negb].
  set (o1 := set_cpu (Cpu _ _ _ _ _) (set_current_proc init o)).
  assert (proc (pupd init (set_p_state PROC_RUNNING) o1) init = set_p_state PROC_RUNNING (proc o init)) as E
    by (by rewrite proc_pupd, decide_True by done).
  split_and!; try done.
  - rewrite proc_pupd, decide_True by done. f_equal. exact E.
  - change (pml4_phys (proc (pupd init (set_p_state PROC_RUNNING) o1) init) = pml4_phys (proc o init)). by rewrite E.
  - change (kernel_stack_top (proc (pupd init (set_p_state PROC_RUNNING) o1) init) = kernel_stack_top (proc o init)). by rewrite E.
Qed.

Lemma make_current_inv R Ow l k init rip rsp o :
  os_inv R Ow l k o → init ∈ dom (procs o) → os_inv R Ow l k (make_current init rip rsp o).
Proof.
  intros HI Hi. unfold make_current. pose proof (process_set_current_inv R Ow l k o init HI (or_intror Hi)) as HI1.
  assert (dom (procs (process_set_current init o)) = dom (procs o)) as Ed by (unfold process_set_current; by destruct (negb _)).
  assert (os_inv R Ow l k (pupd init (set_p_state PROC_RUNNING) (process_set_current init o))) as HI2.
  { apply inv_pupd; [exact HI1|by rewrite Ed|intros r; by destruct r|done]. }
  apply inv_pupd; [by apply cpu_inv| |intros r; by destruct r|].
  - change (init ∈ dom (procs (pupd init (set_p_state PROC_RUNNING) (process_set_current init o)))). rewrite dom_pupd; by rewrite Ed.
  - intros Hz. exfalso. revert Hz. cbn [p_state set_user_regs].
    change (p_state (proc (pupd init (set_p_state PROC_RUNNING) (process_set_current init o)) init) ≠ PROC_ZOMBIE).
    by rewrite proc_pupd, decide_True.
Qed.

(** Why [launch_init] may stop. *)
Definition out_of_pages (why : panic) : Prop := why = NoStack ∨ why = LoadFailed (- ENOMEM) ∨ why = LoadFailed (-1).

Lemma argv_fits : Forall bytes_ok (init_argv ++ default [] (Some init_envp)) ∧ stack_fits init_argv (default [] (Some init_envp)).
Proof. split; [apply (bool_decide_unpack _); vm_compute; exact I|vm_compute; discriminate]. Qed.

(** A process [p] with an empty address space, the program in a buffer. *)
Section Run.
Context (Ow : gmap Z obj) (l : list Z) (k : nat) (p buf size : Z) (s : sys H).
Local Notation o := (s_os s).
Local Notation m := (d_mem (s_dev s)).
Local Notation root := (pml4_phys (proc (s_os s) p)).
Local Notation ps := (program_segments (d_mem (s_dev s)) buf).
Hypothesis (HI : os_inv {[buf]} Ow l k o) (Hp : p ∈ dom (procs o)) (Hp0 : p ≠ 0) (Hpi : p = init_process o).
Hypothesis (Hid : pid (proc o p) = 1 ∧ p_name (proc o p) = process_name).
Hypothesis (Hown : space_own user_half root (o_k o)) (Hnone : ∀ va, user_addr va → pte_at root va (o_k o) = None).
Hypothesis Hprog : program m buf size.

(** The state between the two steps. *)
Definition loaded_os (info : elf_info) (k1 : kmem) : os H :=
  kfree_os buf (pupd p (set_brk_area (info_brk_start info)) (set_k k1 o)).

Lemma loaded_os_ok info k1 :
  proc (loaded_os info k1) p = set_brk_area (info_brk_start info) (proc o p) ∧ p ∈ dom (procs (loaded_os info k1)) ∧
  os_inv ∅ (delete buf Ow) l k (loaded_os info k1).
Proof.
  split_and!.
  - exact (eq_trans (proc_pupd p _ (set_k k1 o) p) (decide_True _ _ eq_refl)).
  - change (p ∈ dom (procs (pupd p (set_brk_area (info_brk_start info)) (set_k k1 o)))). by rewrite dom_pupd.
  - replace ∅ with ({[buf]} ∖ {[buf]} : gset Z) by set_solver. apply free_buffer_inv; [|set_solver].
    apply inv_pupd; [by apply memory_inv|done|intros q; by destruct q|]. intros Hz. right. left. exact Hz.
Qed.

Lemma stack_area_free k1 : loaded m root buf ps (o_k o) k1 → ∀ va, USER_STACK_BOTTOM ≤ va < USER_STACK_TOP → pte_at root va k1 = None.
Proof.
  intros Hl va Hva. assert (user_addr va) as Hu by (unfold user_addr, USER_SPACE_TOP, USER_STACK_BOTTOM, USER_STACK_TOP, USER_STACK_SIZE in *; lia).
  pose proof (ld_pte _ _ _ _ _ _ Hl va Hu) as Hpte. rewrite (Hnone va Hu), image_flags_none in Hpte; [done|].
  eapply Forall_impl; [|exact (pg_stack _ _ _ Hprog)]. cbv beta. lia.
Qed.

Lemma enter_ok info k1 sp k2 :
  loaded m root buf ps (o_k o) k1 → entry info = e_entry (ehdr_at m buf) → phnum info = e_phnum (ehdr_at m buf) →
  info_brk_start info = (highest ps + 4095) / 4096 * 4096 → stack_result root init_argv init_envp info k1 (sp, k2) → sp ≠ 0 →
  user_started m buf k (entry info) sp (set_os (make_current p (entry info) sp (set_k k2 (loaded_os info k1))) s).
Proof.
  intros Hl Ee En Eb [Hs2 Hstk] Hsp. rewrite decide_False in Hstk by done. destruct Hstk as (Hfill & Hpages & Hother).
  destruct (loaded_os_ok info k1) as (Ep & Hp2 & HI2). set (s' := set_os _ s).
  destruct (make_current_proc p (entry info) sp (set_k k2 (loaded_os info k1)) Hp0) as (Fp & Fc & Fi & Fk & Fcr & Ftss & Frsp).
  change (proc (set_k k2 (loaded_os info k1)) p) with (proc (loaded_os info k1) p) in *. rewrite Ep in *.
  assert (cur s' = p) as Ec by exact Fc. assert (o_k (s_os s') = k2) as Ek by exact Fk.
  assert (cur_proc s' = set_user_regs (entry info) sp 0x202 (set_p_state PROC_RUNNING (set_brk_area (info_brk_start info) (proc o p)))) as Ecp
    by (unfold cur_proc; rewrite Ec; exact Fp).
  split; rewrite ?Ecp, ?Ek; cbn [pid p_name p_state pml4_phys brk_start brk kernel_stack_top user_rip user_rsp user_rflags set_user_regs set_p_state set_brk_area].
  - exists (delete buf Ow), l. apply make_current_inv; [by apply memory_inv|exact Hp2].
  - rewrite Ec. tauto.
  - rewrite Ec. etransitivity; [exact Hpi|symmetry; exact Fi].
  - by rewrite Ee.
  - split_and!; [exact Fcr|exact Ftss|exact Frsp].
  - split; [done|exact Eb].
  - apply (ut_own _ _ _ Hs2).
  - intros va Hva Hns. destruct (Hother va Hva Hns) as [-> ->]. split.
    + rewrite (ld_byte _ _ _ _ _ _ Hl va Hva). unfold user_byte. by rewrite (Hnone va Hva).
    + pose proof (ld_pte _ _ _ _ _ _ Hl va Hva) as Hpte. rewrite (Hnone va Hva) in Hpte. exact Hpte.
  - by exists info.
  - exact Hpages.
  - intros h c Hw Hr HD HS. destruct (user_mode_enter_spec h c Hw Hr) as (c' & E & Hf & Hz & _); [rewrite HD, Ee; apply Hprog|].
    rewrite HD, HS in Hf. by exists c'.
Qed.

Lemma launch_init_ok info0 :
  match launch_init info0 p buf size s with
  | Enters rip rsp s' => user_started m buf k rip rsp s'
  | Panics why _ => out_of_pages why ∧ Z.of_nat (available (o_k o)) < 4 * total_seg_pages ps + 2048
  | _ => False
  end.
Proof.
  pose proof Hprog as [Gb Gd Gv _ Gs _ _]. unfold launch_init.
  destruct (elf_load_ok m root buf size info0 (o_k o) Gb Gd Gv Gs Hown) as (r & info & k1 & -> & Hs1 & Hr).
  change (segments _ _ _) with ps in Hr. destruct Hr as [(-> & Hl & Ee & En & Eb & _)|(Hr & Hav)].
  2: { assert ((r <? 0) = true) as -> by (destruct Hr as [->| ->]; unfold ENOMEM; lia). split; [|lia].
       unfold out_of_pages. destruct Hr as [->| ->]; tauto. }
  cbn [Z.ltb Z.compare]. change (default info0 (Some info)) with info. fold (loaded_os info k1). cbv zeta.
  rewrite (proj1 (loaded_os_ok info k1)). change (o_k (loaded_os info k1)) with k1.
  change (pml4_phys (set_brk_area (info_brk_start info) (proc o p))) with root.
  pose proof (elf_setup_stack_ok root init_argv (Some init_envp) info k1 (ut_own _ _ _ Hs1) (stack_area_free k1 Hl)
    (proj1 argv_fits) (proj2 argv_fits)) as Hstk.
  destruct (elf_setup_stack _ _ _ _ _) as [sp k2]. destruct (Z.eqb_spec sp 0) as [->|Hsp]; [|by apply enter_ok].
  destruct Hstk as [_ Hstk]. rewrite decide_True in Hstk by done. split; [by left|]. pose proof (ld_available _ _ _ _ _ _ Hl). lia.
Qed.
End Run.

(** ** The disk *)

(** The disk has the program at [pa] of memory [pm] as its file [/init]. *)
Record init_file (fs : ext2) (m : gmap Z Z) (N ino : Z) (pm : gmap Z Z) (pa : Z) : Prop := {
  if_disk : block_size_ok fs ∧ disk_placed fs N ∧ 0 < N;
  if_bytes : ∀ a, 0 ≤ rd m a < 256;
  if_path : resolves fs m EXT2_ROOT_INO (components (tail init_path)) ino;
  if_inode : ino ≠ 0 ∧ ext2_read_inode fs m ino ≠ 0;
  if_size : let size := ext2_get_file_size m (ext2_read_inode fs m ino) in size < 2 ^ 62 ∧ size ≤ 2 ^ 32 * block_size fs;
  if_mapped : file_mapped fs m (ext2_read_inode fs m ino) N 0 (ext2_get_file_size m (ext2_read_inode fs m ino));
  if_program : program pm pa (ext2_get_file_size m (ext2_read_inode fs m ino));
  if_contents : ∀ i, 0 ≤ i < ext2_get_file_size m (ext2_read_inode fs m ino) →
    file_byte fs m (ext2_read_inode fs m ino) i = rd pm (pa + i);
}.

Lemma program_size m data size : program m data size → 64 ≤ size.
Proof.
  intros Hp. pose proof (pg_valid _ _ _ Hp) as Hv. unfold elf_validate, sizeof_Ehdr in Hv.
  destruct (Z.ltb_spec size 64); [|done]. by rewrite orb_true_r in Hv.
Qed.

(** The copy that is loaded is as good as the file. *)
Lemma started_copy m a m' a' size k rip rsp s :
  (∀ i, 0 ≤ i < size → rd m' (a' + i) = rd m (a + i)) → program m a size → (∀ x, 0 ≤ rd m' x < 256) → 0 < a' ∧ a' + size < 2 ^ 64 →
  user_started m' a' k rip rsp s → user_started m a k rip rsp s.
Proof.
  intros Hsame Hp Hb Ha. destruct (program_copy m m' a a' size Hsame Hp Hb Ha) as (_ & Ee & En & _ & Es).
  intros [U1 U2 U3 U4 U5 U6 U7 U8 U9 U10 U11]. rewrite Ee in U4. rewrite Es in U6, U8. rewrite En in U9.
  split; try done. intros va Hva Hns. destruct (U8 va Hva Hns) as [E Hfl]. split; [|exact Hfl]. rewrite E.
  apply (image_copy m m' a a' size Hsame). apply Hp.
Qed.

Lemma fresh_space o root k1 :
  pmm_wf (k_pmm (o_k o)) → total_pages (k_pmm (o_k o)) ≤ 2 ^ 40 → used_page (k_pmm (o_k o)) (kernel_pml4_phys (o_k o)) →
  vmm_create_address_space (o_k o) = Done (root, k1) →
  space_own user_half root k1 ∧ (∀ va, user_addr va → pte_at root va k1 = None) ∧ available (o_k o) = S (available k1).
Proof.
  intros Hw Ht Hu E. pose proof (vmm_create_address_space_spec (o_k o) Hw Ht Hu) as Hs. rewrite E in Hs.
  destruct Hs as (n & -> & Hn & Hpos & Hf). assert (∀ i, idx_ok i → user_half i → ent (k_mem k1) (n * 4096) i = 0) as He.
  { intros i Hi Hi2. apply (fr_user_empty _ _ _ _ Hf). unfold idx_ok, user_half in *. lia. }
  split_and!.
  - apply space_own_empty; [exact He|apply (fr_wf _ _ _ _ Hf)].
  - intros va Hva. by apply (empty_pte user_half); [exact He|apply user_half_addr].
  - apply (available_take n); [done|done|apply (fr_pmm _ _ _ _ Hf)].
Qed.

(** ** The whole start *)
Section Start.
Context (terminal : Z) (response : module_response) (info0 : elf_info) (s : sys H) (N ino : Z) (pm : gmap Z Z) (pa : Z) (k : nat).
Local Notation fs := (d_ext2 (s_dev s)).
Local Notation m := (d_mem (s_dev s)).
Local Notation inode := (ext2_read_inode fs m ino).
Local Notation size := (ext2_get_file_size m inode).
Hypothesis (Hfile : init_file fs m N ino pm pa).
Hypothesis (Hpmm : pmm_wf (k_pmm (o_k (s_os s)))) (Htotal : total_pages (k_pmm (o_k (s_os s))) ≤ 2 ^ 40).
Hypothesis (Hkernel : used_page (k_pmm (o_k (s_os s))) (kernel_pml4_phys (o_k (s_os s)))).

(** The allocator gives no memory of the disk. *)
Definition apart_from_disk (buf : Z) : Prop := ∀ a, disk_area fs N a ∨ inode_area inode a → ¬ buf ≤ a < buf + size.

Lemma read_init buf : 0 < buf → buf + size < 2 ^ 64 → apart_from_disk buf →
  ∃ m', ext2_read_file fs inode 0 buf size m = (size, m') ∧ (∀ i, 0 ≤ i < size → rd m' (buf + i) = rd pm (pa + i)) ∧
    ∀ x, 0 ≤ rd m' x < 256.
Proof.
  intros Hb0 Hb Hap. destruct Hfile as [(F1 & F2 & F3) Fb _ [_ Fi] [Fs1 Fs2] Fm Fp Fc]. pose proof (program_size _ _ _ Fp) as H64.
  assert (Z.max 0 (Z.min size (size - 0)) = size) as En by lia.
  destruct (ext2_read_ok fs N inode 0 buf size m F1 F2 F3 Fi ltac:(lia) ltac:(lia) ltac:(lia) ltac:(lia) Fs2) as (m' & E & Hm').
  { by rewrite En. } { by rewrite En. }
  rewrite En in E, Hm'. exists m'. split; [exact E|]. split.
  - intros i Hi. rewrite Hm', decide_True by lia. rewrite Fc by lia. do 2 f_equal. lia.
  - intros x. rewrite Hm'. case_decide; [rewrite Fc by lia; apply Fp|apply Fb].
Qed.

(** From the new process on. *)
Lemma created_runs Ow l buf hp m' p o' :
  let o := set_heap hp (s_os s) in
  os_inv {[buf]} Ow l (5 + k) o → current_proc o = 0 → next_pid o = 1 →
  0 < buf → buf + size < 2 ^ 64 → (∀ i, 0 ≤ i < size → rd m' (buf + i) = rd pm (pa + i)) → (∀ x, 0 ≤ rd m' x < 256) →
  process_create process_name terminal o = Done (p, o') → p ≠ 0 →
  match launch_init info0 p buf size (set_os o' (set_user m' (set_os o s))) with
  | Enters rip rsp s' => user_started pm pa k rip rsp s'
  | Panics why _ => out_of_pages why ∧ Z.of_nat (available (o_k (s_os s))) < 4 * total_seg_pages (program_segments pm pa) + 2049
  | _ => False
  end.
Proof.
  intros o HI Hc Hn Hb0 Hb Hsame Hbytes E Hp. pose proof (if_program _ _ _ _ _ _ Hfile) as Fp.
  destruct (process_create_inv {[buf]} Ow l k o _ _ _ _ HI (or_introl Hc) E) as (Ow' & HI'); [done|].
  destruct (process_create_fresh _ _ _ _ _ E Hp Hc) as [Ev (Eid & Enm & _) Hd Hini _].
  destruct (fresh_space o _ _ Hpmm Htotal Hkernel Ev) as (Hown & Hnone & Hav).
  destruct (program_copy pm m' pa buf size Hsame Fp Hbytes ltac:(lia)) as (Hprog & _ & _ & _ & Es).
  pose proof (launch_init_ok Ow' l k p buf size (set_os o' (set_user m' (set_os o s))) HI' Hd Hp (eq_sym (Hini Hn))
    (conj (eq_trans Eid Hn) Enm) Hown Hnone Hprog info0) as Hr.
  change (d_mem (s_dev (set_os o' (set_user m' (set_os o s))))) with m' in Hr. rewrite Es in Hr.
  change (o_k (s_os (set_os o' (set_user m' (set_os o s))))) with (o_k o') in Hr.
  destruct (launch_init _ _ _ _ _) as [| |why s'|rip rsp s']; [done|done| |].
  - destruct Hr as [Hw Hlt]. split; [exact Hw|]. change (o_k o) with (o_k (s_os s)) in Hav. lia.
  - by apply (started_copy pm pa m' buf size).
Qed.

(** C5 [start_init_enters]: on a machine that has booted and a disk whose
    /init is a loadable program, start_init ends in user mode unless memory
    runs out: process 1 is current and running under the system invariant,
    the processor has its page tables and kernel stack, its address space
    holds exactly the segments of the program with their permissions and the
    stack with the arguments and environment, the heap break is the end of
    the image, and user_mode_enter transfers to the entry point in ring 3
    with every other register cleared.  It stops only where the heap has no
    room for the file or the process, or fewer pages are free than the image,
    its tables and the stack may take. *)
Theorem start_init_enters :
  limine_get_module response 0 ≠ None → os_ok ∅ (6 + k) (s_os s) → current_proc (s_os s) = 0 → next_pid (s_os s) = 1 →
  (∀ buf o', kmalloc_os size (s_os s) = (buf, o') → buf ≠ 0 → apart_from_disk buf) →
  ∃ f0, ∀ lookup_fuel, (f0 ≤ lookup_fuel)%nat →
    match start_init terminal lookup_fuel response info0 s with
    | Enters rip rsp s' => user_started pm pa k rip rsp s'
    | Panics why _ =>
        (why = NoBuffer ∧ (kmalloc_os size (s_os s)).1 = 0) ∨
        (why = NoProcess ∧ ∃ o', process_create process_name terminal (kmalloc_os size (s_os s)).2 = Done (0, o')) ∨
        (out_of_pages why ∧ Z.of_nat (available (o_k (s_os s))) < 4 * total_seg_pages (program_segments pm pa) + 2049)
    | Halts => available (o_k (s_os s)) = 0%nat
    | Hangs => False
    end.
Proof.
  intros Hmod (Ow & l & HI) Hc Hn Hap. pose proof Hfile as [(F1 & _) Fb Fr [Fi0 Fi] [Fs1 _] _ Fp _].
  pose proof (program_size _ _ _ Fp) as H64. destruct (lookup_loop_ok fs m _ _ _ F1 Fb Fr) as [f0 Hf]. exists f0. intros lf Hlf.
  unfold start_init. destruct (limine_get_module response 0) as [f|]; [|done].
  assert (ext2_lookup fs m lf init_path = Some ino) as ->.
  { unfold ext2_lookup. cbn [init_path hd tail Z.eqb Pos.eqb negb]. apply Hf; [done|done|repeat constructor; lia|cbn; lia]. }
  assert ((ino =? 0) = false) as -> by lia. assert ((inode =? 0) = false) as -> by lia. assert ((size =? 0) = false) as -> by lia.
  pose proof (buffer_inv ∅ Ow l (5 + k) (s_os s) size HI ltac:(lia)) as Hb.
  destruct (kmalloc_os size (s_os s)) as [buf o1] eqn:Ek. destruct Hb as (hp & -> & Hb).
  destruct (Z.eqb_spec buf 0) as [->|Hb0]; [by left|]. destruct (Hb Hb0) as (Hpos & Hlim & _ & HI1). rewrite union_empty_r_L in HI1.
  destruct (read_init buf Hpos Hlim (Hap _ _ eq_refl Hb0)) as (m' & -> & Hsame & Hbytes).
  assert ((size <? 0) = false) as -> by lia. rewrite u64_small, Z.eqb_refl by lia. cbn [orb negb fst snd].
  change (s_os (set_user m' (set_os (set_heap hp (s_os s)) s))) with (set_heap hp (s_os s)).
  destruct (process_create _ _ _) as [[p o']|] eqn:Ec.
  - destruct (Z.eqb_spec p 0) as [->|Hp]; [right; left; by eauto|].
    pose proof (created_runs _ l buf hp m' p o' HI1 Hc Hn Hpos Hlim Hsame Hbytes Ec Hp) as Hr.
    destruct (launch_init _ _ _ _ _) as [| |why s'|rip rsp s']; [done|done|by right; right|exact Hr].
  - apply process_create_halts in Ec. change (o_k (set_heap hp (s_os s))) with (o_k (s_os s)) in Ec.
    pose proof (vmm_create_address_space_spec _ Hpmm Htotal Hkernel) as Hv. by rewrite Ec in Hv.
Qed.
End Start.
End Started.

(** ** A machine that boots

    The disk of [Ext2Spec] with the program of [ElfWitness] as its [/init], on
    the machine with sixteen megabytes and the threads of [KthreadRun]. *)
From S2P Require Import KthreadRun ElfWitness.

Definition boot_disk : gmap Z Z := put (ramdisk + 8192) hello (store 4 disk_mem (ramdisk + 6532) 123).

Definition boot_machine : sys KthreadRun.bump :=
  Sys (set_k machine_16m boot_os) (set_d_mem boot_disk some_devices) USER_MMAP_START.

Lemma boot_disk_file : init_file fs0 boot_disk 16 12 hello_mem 0x10000.
Proof.
  assert (ext2_read_inode fs0 boot_disk 12 = ramdisk + 6528) as Ei by (vm_compute; reflexivity).
  assert (ext2_get_file_size boot_disk (ramdisk + 6528) = 123) as Es by (vm_compute; reflexivity).
  split; rewrite ?Ei, ?Es.
  - split_and!; [apply fs0_ok|split; by vm_compute|lia].
  - apply put_bytes; [apply (bool_decide_unpack _); vm_compute; exact I|]. apply Ext2Spec.store_bytes, disk_mem_bytes.
  - change (components (tail init_path)) with [[105; 110; 105; 116]].
    apply (res_step _ _ _ _ _ (ramdisk + 5248) [ramdisk + 7168] (ramdisk + 7168)); [by vm_compute..| |by vm_compute|apply res_here].
    apply (dw_entry fs0 boot_disk (ramdisk + 5248) _ 0 7 []); [by vm_compute|by vm_compute|done|by vm_compute|].
    apply dw_end. by vm_compute.
  - split; vm_compute; discriminate.
  - split; vm_compute; congruence.
  - intros i Hi. change (block_size fs0) with 1024. rewrite Z.div_small by lia.
    change (block_trace fs0 boot_disk (ramdisk + 6528) 0) with [8]. repeat constructor; lia.
  - split; change (e_phnum (ehdr_at hello_mem 0x10000)) with 1; rewrite ?hello_segments.
    + exact hello_bytes.
    + lia.
    + vm_compute. reflexivity.
    + vm_compute. discriminate.
    + repeat constructor; vm_compute; discriminate.
    + apply Forall_cons_2; [left; vm_compute; discriminate|apply Forall_nil_2].
    + vm_compute. reflexivity.
  - intros i Hi. apply Z.eqb_eq.
    assert (forallb (λ i, file_byte fs0 boot_disk (ramdisk + 6528) i =? rd hello_mem (0x10000 + i)) (seqZ 0 123) = true) as Hall
      by (vm_compute; reflexivity).
    apply (proj1 (forallb_forall _ _) Hall i), list_elem_of_In, elem_of_seqZ. lia.
Qed.

(** The buffer and the process fit into the heap. *)
Definition heap_has_room : bool :=
  let '(buf, o) := kmalloc_os 123 (s_os boot_machine) in
  (buf =? 50008) && match process_create process_name terminal_default o with Done (p, _) => negb (p =? 0) | Halted => false end.

Lemma boot_room : heap_has_room = true.
Proof. vm_compute. reflexivity. Qed.

Lemma start_init_enters_witness :
  ∃ lookup_fuel rip rsp s',
    start_init terminal_default lookup_fuel (Some [LimineFile ramdisk 16384]) (ElfInfo 0 0 0 0) boot_machine = Enters rip rsp s' ∧
    rip = 0x400078 ∧ cur_proc s' = proc (s_os s') (init_process (s_os s')) ∧ os_ok ∅ 0 (s_os s') ∧
    user_byte (pml4_phys (cur_proc s')) 0x40007a (o_k (s_os s')) = Some 0xc3.
Proof.
  destruct (start_init_enters terminal_default (Some [LimineFile ramdisk 16384]) (ElfInfo 0 0 0 0) boot_machine 16 12 hello_mem 0x10000 0
    boot_disk_file) as [f0 Hf].
  - apply machine_16m_own.
  - cbn. lia.
  - split; [reflexivity|split; [vm_compute; split; reflexivity|]]. intros [_ Hfr]%elem_of_free_set. vm_compute in Hfr. discriminate Hfr.
  - discriminate.
  - exists boot_owners, three_list. apply memory_inv, boot_inv. lia.
  - reflexivity.
  - reflexivity.
  - change (ext2_get_file_size _ _) with 123. intros buf o' E _ a Ha. pose proof boot_room as Hb. unfold heap_has_room in Hb. rewrite E in Hb.
    apply andb_true_iff in Hb as [->%Z.eqb_eq _]. change (d_ext2 (s_dev boot_machine)) with fs0 in Ha.
    unfold disk_area, inode_area in Ha. change (disk fs0) with 0x10000 in Ha. change (block_size fs0) with 1024 in Ha.
    change (ext2_read_inode _ _ _) with (0x10000 + 6528) in Ha. change (ext2_get_file_size _ _) with 123. lia.
  - specialize (Hf f0 (Nat.le_refl f0)). exists f0. pose proof boot_room as Hb. unfold heap_has_room in Hb.
    change (ext2_get_file_size _ _) with 123 in Hf. destruct (kmalloc_os 123 (s_os boot_machine)) as [buf o].
    apply andb_true_iff in Hb as [->%Z.eqb_eq Hb]. cbn [fst snd] in Hf.
    pose proof machine_16m_available as Hav. change (o_k (s_os boot_machine)) with machine_16m in Hf.
    destruct (start_init _ _ _ _ _) as [| |why s'|rip rsp s']; [done| | |].
    + rewrite Hf in Hav. lia.
    + exfalso. destruct Hf as [[_ Hz]|[[_ (o' & E)]|[_ Hlt]]]; [done|by rewrite E in Hb|].
      unfold program_segments in Hlt. change (e_phnum (ehdr_at hello_mem 0x10000)) with 1 in Hlt. rewrite hello_segments in Hlt.
      change (total_seg_pages [hello_segment]) with 1 in Hlt. lia.
    + exists rip, rsp, s'. split; [reflexivity|]. split; [destruct (us_regs _ _ _ _ _ _ Hf) as (_ & _ & _ & ->); vm_compute; reflexivity|].
      split; [by rewrite <- (us_init _ _ _ _ _ _ Hf)|]. split; [exact (us_inv _ _ _ _ _ _ Hf)|].
      destruct (us_image _ _ _ _ _ _ Hf 0x40007a) as [E _]; [unfold user_addr, USER_SPACE_TOP; lia|vm_compute; intros [? ?]; auto|].
      rewrite E. vm_compute. reflexivity.
Defined.
